(* ===== verification/_CoqProject ===== *)
-Q . S2P
Prelude.v
Float64.v
PlanTypes.v
CostModel.v
Fixtures.v
Partition.v
Ordering.v
Planner.v
Replica.v
Convert.v
Text.v
AuditChain.v
Cluster.v
Timestamp.v
Registry.v
AuditLog.v
Statements.v
Gateway.v
Orchestrator.v
RouteReconciler.v
Reconciler.v
Permissions.v
Access.v
Platform.v
Pki.v
Fleet.v
Planning.v
Config.v
Credentials.v
Identity.v
Approvals.v
Operations.v
InferenceLog.v
License.v
Raft.v
Tenancy.v
Billing.v
DataPlane.v
Policies.v
Objectives.v
WhatIf.v
Glob.v
Importers.v
Imports.v
Ldap.v
