(* ===== verification/Prelude.v ===== *)
(** * A verification of Purser's planner and control plane

    Purser deploys large language models over a fleet of heterogeneous machines. A
    planner decides which machine holds which layers of a model; a control plane
    drives the machines' agents through the plan, keeps the gateway's routing table
    in step with the deployments and repairs what fails. This development models
    both from their Go sources and proves the properties that make them correct.

    ** The program and its parts

    - [go/planner/plan] is a pure library. [Plan] selects a quantization that fits the
      fleet (phase A), candidate subsets of nodes (B), an optimal contiguous partition
      of the layers (C) along a cheap pipeline order (D), the place of the draft model
      (E) and an alternative plan for the loss of each node (F). [PlanReplicaSet]
      plans disjoint replicas; [convert.go] carries plans over the wire.
    - [go/controlplane/registry] is the database: nodes, links, certificates, models,
      plans, deployments and audit rows, and the organisations, teams, users, roles
      and node pools of the platform.
    - [go/controlplane/orchestrator] applies a plan: it resolves the nodes' addresses,
      starts the workers and then the host, records the deployment, publishes the
      model's route at the gateway, and rolls back on failure. The route reconciler
      repeats the publication from the recorded deployments.
    - [go/controlplane/reconciler] compares the recorded deployments with the reported
      nodes on every tick and, as its policy allows, restarts engines, fails over to
      another plan or tears down orphans, through the orchestrator.
    - [go/controlplane/audit] is a hash-chained log of administrative events.
    - [go/controlplane/pki] is the internal certificate authority;
      [go/controlplane/fleet] enrols machines with single-use tokens and certificates
      of that authority, moves them through their life cycle and records heartbeats.
    - [go/controlplane/planning] reads the ready nodes, the links and a model from the
      registry and calls the planner.
    - [go/controlplane/permissions] and the middlewares of [go/controlplane/server]
      decide which request may pass; its handlers issue and withdraw the credentials
      (API keys, browser sessions, service accounts), take the votes on a deployment
      before it may start, deploy, drain, restart and delete, and keep the chained
      record of every inference.
    - [go/controlplane/config] and [server/config_apply.go] bring the registry and the
      deployments towards a declared configuration, through the planning service and
      the orchestrator.
    - [go/controlplane/raft] applies a replicated log of commands to the registry.
    - [enterprise/license] signs and verifies the keys that open the enterprise
      features of the server: billing, policies, approvals, the inference record.
    - Over these, the server bills tenants, teams and organisations from the record of
      inferences, reports on service levels, pushes configuration snapshots to data
      planes, lets policies decide on deployments, answers what-if questions with the
      planner, imports models from outside registries ([registry/importer]) and logs
      users in against a directory ([ldapauth]).

    ** Files

    - [Prelude]: shared notations, tactics and lemmas; Go's [sort.Slice] and
      two-dimensional slices.
    - [Float64]: [float64] arithmetic as IEEE binary64.
    - [PlanTypes]: [types.go]; the [Outcome] monad of a call that returns, fails or
      panics.
    - [CostModel]: the memory, bandwidth and stage-time functions of [plan.go] and
      [partition.go].
    - [Fixtures]: a concrete fleet for the instances of the theorems.
    - [Partition]: phases B and C and the pinned ranges of [partition.go].
    - [Ordering]: phase D, [ordering.go].
    - [Planner]: phases A, E and F and the entry points: [plan.go], [multinode.go],
      [draft.go], [failover.go].
    - [Replica]: [replica.go]. [Convert]: [convert.go].
    - [Text]: UTF-8, white space, case and base64 as the sources use them. [Glob]:
      [path.Match] and [path.Base].
    - [Cluster]: what the control plane acts on: the [World] (database, routing table,
      trace of issued commands), the [Env] of answers, the state monad.
    - [Timestamp]: the RFC 3339 texts in which [registry/sqlite.go] stores times.
    - [AuditChain]: [audit/audit.go], [log.go] and [store.go].
    - [Registry]: [registry/sqlite.go], the tables the other components use, the audit
      rows with their chain columns. [AuditLog]: their listing and the endpoint of
      [server/server.go] that verifies them.
    - [Statements]: the shapes of the registry's statements, and what it means that a
      call keeps an invariant of the database.
    - [Gateway]: [orchestrator/gateway.go]; the [GatewaySync] interface, its laws as
      classes, and the HTTP and no-op implementations.
    - [Orchestrator]: [orchestrator/orchestrator.go] and [resolver.go].
    - [RouteReconciler]: [orchestrator/route_reconciler.go].
    - [Reconciler]: [reconciler/reconciler.go] and [actuator.go].
    - [Permissions]: [permissions/permissions.go] and [engine.go].
    - [Access]: the CORS, OIDC, rate-limit and RBAC middlewares of [server/server.go],
      [auth.go], [service_accounts.go], [rbac_v2.go], and the registry's look-ups of
      keys, sessions and effective permissions.
    - [Platform]: [registry/platform_sqlite.go] with its keys and cascades, and
      [slo_sqlite.go].
    - [Pki]: [pki/ca.go], [crypto.go] and [pki.go].
    - [Fleet]: [fleet/fleet.go] and [registration.go], against the class [CALaws] that
      the authority of [Pki] instantiates.
    - [Planning]: [planning/planning.go].
    - [Config]: [config/types.go], [validator.go], [diff.go], [loader.go] and
      [server/config_apply.go], against the class [BackendLaws] that the planning
      service and the orchestrator instantiate.
    - [Credentials]: API keys, sessions, pending logins, service accounts, the access
      log and usage: [registry/enterprise_sqlite.go] and [sqlite.go].
    - [Identity]: the handlers over them: [server/server.go], [key_lifecycle.go],
      [service_accounts.go], [auth.go], [auth_logout.go], [auth_ldap.go].
    - [Approvals]: [registry/approvals_sqlite.go] and [server/approvals.go].
    - [Operations]: the handlers of [server/server.go] that deploy, preview, list,
      drain, restart and delete, and the health and capacity reports.
    - [InferenceLog]: [registry/inference_audit_sqlite.go],
      [inference_audit_verify.go], [server/inference_audit.go] and [gdpr.go].
    - [License]: [enterprise/license] with its command-line tool, and the gates of
      [server/server.go].
    - [Raft]: [raft/fsm.go] and [server/cluster_handler.go].
    - [Tenancy]: [server/platform_orgs.go], [platform_users.go], [platform_pools.go] and
      the registry's reads behind them.
    - [Billing]: [registry/billing_sqlite.go], [billing_v2_sqlite.go],
      [billing_finops_sqlite.go], the prices, quotas and usage of
      [enterprise_sqlite.go], and [server/billing.go], [billing_v2.go],
      [billing_forecast.go], [billing_export.go].
    - [DataPlane]: [registry/dataplane_sqlite.go], [server/dataplane.go] and
      [config_snapshot.go].
    - [Policies]: [policy/engine.go], [registry/policy_sqlite.go],
      [server/policy_handler.go] and the gate before a deployment.
    - [Objectives]: [registry/slo_sqlite.go] and [server/slo.go]. [WhatIf]:
      [server/what_if.go].
    - [Importers]: [registry/importer], the clients of the outside registries.
      [Imports]: the handlers that create and import models, in [server/server.go] and
      [cpu_model_import.go].
    - [Ldap]: [ldapauth/config.go], [connector.go] and [server/auth_ldap.go].

    Definitions carry the names of the source; a record's fields carry its name or a
    short form of it as a prefix. A helper that has no name in the source stands for
    a loop or a block of the function it is used in.

    ** What the theorems show

    - The planner's plans are valid: contiguous coverage of the layers, memory within
      each node's limit, the constraints respected, one host followed by workers
      ([Plan_valid], [Plan_deployable]); failover alternatives are valid plans without
      the lost node ([Plan_failover]); the planner does not panic for models of less than
      2^43 layers ([Plan_no_panic]; a huge number does, [dpPartition_huge]).
    - Its searches are what they claim: the dynamic program returns the partition with
      the smallest bottleneck of all feasible contiguous ones ([dpPartition_sound],
      [dpPartition_optimal], [dpPartition_total]), Held-Karp the cheapest path of all
      orders ([orderNodes_exact]), the heuristic a permutation of its input with a
      fixed host ([orderNodes_total]), both independent of the order of the input
      ([orderNodes_canonical]); the selection among subsets and quantizations is
      optimal for its criterion ([assemblePlan_cheapest], [selectQuantization_best]).
      All of it holds of binary64 arithmetic, rounding included.
    - Plans survive the wire ([Plan_wire_faithful] and the round trips).
    - The orchestrator starts workers before the host, gives the host the workers as
      peers, and after a failure sends a stop for every engine that was ready: what the
      agents accepted to stop is down, and a start that timed out may still be up
      ([Apply_active], [Apply_rollback], [Apply_succeeds], [Teardown_stops]) under every
      schedule of answers, errors and timeouts.
    - A route pass that listed the gateway's table and reports success leaves exactly the
      desired table, whatever was lost on the way, for model identifiers that need no
      escaping in a path ([Reconcile_converges]); a route with a slash in its identifier
      is never deleted ([slash_never_deleted]).
    - The control loop acts only on discrepancies that persisted for the configured
      number of sightings and time ([Reconcile_due]); its tracker is a summary of the
      history of passes ([tracker_refines]); its default policy cannot stop, move or
      delete a deployment ([Reconcile_cautious]); what it observes is exact
      ([observe_exact]); failover leaves the model without a route until the next
      route pass, which routes the new deployment ([Failover_unroutes],
      [Failover_recovers]).
    - The audit log's chain verifies after every append, in memory and in the registry,
      and two chains with the same head are equal ([Log_Append_verifies],
      [audit_log_verifies], [Verify_tamper_evident]); the endpoint reports an untouched
      log that is longer than its limit as broken ([untouched_reported_broken]).
    - Once OIDC is on, or an API key is known to exist or found, no request to the
      management API reaches a handler without a credential; when the query for a key
      fails it does. The role of a key opens what it is meant to ([serve_fail_closed],
      [key_roles]); with OIDC off an unknown bearer token passes
      ([unknown_bearer_open]). Effective permissions never leak between teams and
      organisations ([GetEffectivePermissions_isolated]).
    - The platform tables keep their keys and references under every sequence of
      operations ([platform_integrity]); the nodes a team may use are those of its
      pools and no others ([GetAllowedNodeIDs_exact]).
    - An issued certificate verifies until it or its root expires, unless the registry
      says that it is revoked; a rotated root
      stays trusted for the grace period while the process lives ([Issue_verifies],
      [Rotate_grace], [restart_ends_grace]); the key envelope decrypts to the key
      ([encryptKeyPEM_roundtrip]).
    - A join token admits one node ([join_single_use]); a decommissioned node's
      certificates are revoked ([Decommission_revokes]), but its next heartbeat
      overwrites its state ([applyHeartbeat_overwrites]).
    - The planning service plans over exactly the ready nodes of the registry, with
      the guarantees of the planner ([Plan_from_registry]).
    - The configuration validator accepts exactly the well-formed configurations
      ([Validate_exact]); performing a diff leaves nothing to change
      ([Diff_converges]); an apply only adds ([ApplyClusterConfig_additive]), and a
      first one deploys nothing ([first_apply_deploys_nothing]).
    - Times survive the database and sort as they should to the second
      ([parseTime_fmtTime]).
    - The credential tables keep their keys under every sequence of operations
      ([credentials_integrity]); the state of a pending login is used once
      ([pkce_single_use]); a session that is revoked stays out until its subject logs in
      again ([revoked_subject_stays_out]); usage adds up
      ([GetUsageSummary_conserves]).
    - A rotation hands the rights of a key over to its successor
      ([handleRotateAPIKey_handover]); the token endpoint gives tokens to the accounts
      that prove their secret and the middleware accepts them ([token_endpoint]); a
      login session is opened only for the answer of the provider to a pending login
      ([callback_sound]); a logout is final ([logout_final]); the expiry watcher says
      nothing ([expiry_watcher_silent]) and a withdrawn key may still pass
      ([withdrawn_key_passes]).
    - A deployment is approved only with its quorum of distinct votes, none of them the
      requester's ([approval_needs_quorum]); a decision is final for requests that come
      after it ([decision_final]); enough approvals do approve ([approve_counts]).
    - With the approval gate on no request starts anything ([deploy_gated]); a team's
      deployment stays on the ready nodes of its pools, from the key of the request
      through the planner to the engines ([deploy_in_pool]); nodes and models in use are
      not deleted ([delete_node_guarded], [delete_model_guarded]); what a restart takes
      down stays down ([restart_stays_down]).
    - The record of inferences verifies after every delivery, holds each request once,
      is tamper-evident and is paged completely ([inference_chain_verifies],
      [recorded_once], [inference_tamper_evident], [pages_complete]); an erasure ends
      its verification, whatever is recorded later ([erasure_breaks_chain]).
    - A licence opens a feature only with the vendor's signature, in its time and by its
      name, and a key from the signing tool does open what was asked for
      ([license_gate], [signed_key_unlocks]); the suggestions use the edit distance
      ([levenshtein_least]).
    - Replicas that apply the same log end in the same state up to their clocks and the
      audit hashes, which cover the clock ([replicas_converge],
      [replicas_chains_differ]), but the log loses the hashes of keys
      ([log_drops_key_hashes]).
    - Tenants change only through administrators, and roles also while no API key is
      found ([tenancy_guarded], [delete_role_guarded], [anonymous_deletes_role]); members do not see what their teams may do
      ([my_permissions_blind]).
    - The bill of a window of times has every request once, in the group it belongs to,
      with its totals, as long as no request lies in the second of a bound
      ([billing_report_exact]; such a one may be missing, [event_after_start_dropped]);
      the reports of a team and of an organisation agree with it, and the rows of the
      exported workbook are the sums of the record ([team_report_agrees],
      [org_report_covers], [workbook_adds_up]); the forecast's month is the calendar's
      ([forecast_period]); usage counters add up ([usage_accumulates]).
    - A data plane receives the routes, the keys and the policies of the registry, as far
      as JSON keeps them ([snapshot_delivered]), its tables keep their keys ([planes_integrity]) and its
      join token admits it ([join_token_admits]).
    - A deployment passes the gate exactly when the loaded policies allow it
      ([deploy_follows_policies]); the report on service levels counts what the record
      of inferences holds ([slo_report_exact]); a what-if changes nothing and answers
      what the planner says of the fleet with and without the hypothetical nodes
      ([what_if_sound]).
    - An import is all or nothing ([import_atomic]) and a posted model is stored as it
      was posted ([created_model_as_posted]); no imported model can be planned
      ([imported_never_plans]); an S3 URL names the object that was asked for and
      carries the signature that the receiver computes ([presigned_url_names_object]).
    - A session over LDAP is for the entry that the directory found and whose password it
      accepted, not longer ago than the cache allows ([ldap_session_vouched]), with the highest role of the user's groups
      ([role_resolution]) and a filter that the name cannot change
      ([filter_not_injectable]).

    ** Decisions

    - [float64] is exact binary64, rounding to nearest even at every operation; the
      compiler's licence to fuse a multiplication and an addition on some processors
      is not used.
    - A Go [int] is a [Z] where it is an index or a count bounded by the input; widths
      are kept where values are converted or encoded ([Convert], [AuditChain]).
    - [sort.Slice] is the insertion sort that the runtime uses for short slices; where
      a theorem needs the result to be independent of the algorithm the keys are
      distinct. Ranges over a map go in an arbitrary order given by the environment,
      or in any order where the result does not depend on it.
    - Free-text messages of the planner are constructors that carry the printed values;
      errors of the control plane keep the wrapping that [errors.Is] sees. JSON and
      protojson blobs are the values they decode to. Log lines, metrics and spans are
      left out.
    - A context is its answers to [ctx.Err()], an external service the answers to its
      numbered calls. Goroutines whose results are collected by index are evaluated in
      that order.
    - Fuel: the co-optimisation and the 2-opt loop are bounded by the source's own
      constants; the loop of [RouteReconciler.Run] takes the number of passes looked
      at, and the client of [pages_complete] one call more than there are rows, which is
      proved to be enough; the matcher of [Glob] takes one step more than the pattern has
      bytes, and more makes no difference ([matchLoop_fuel]), and the trimming and JSON
      quoting of a text one step per byte. Every other recursion is structural, and the
      retries are bounded by the configured number.
    - A handler answers with a status and a code or a body; two requests interleave
      between statements, which a theorem says where it matters ([Approvals]).

    - Third-party code and cryptography are parameters with their documented laws: the
      signature schemes and digests, the JSON decoders, the Rego evaluator, the directory
      behind the LDAP library, the replies of the outside registries, the sums of floats
      that the database computes in an order of its own. Every theorem with such a law
      has an instance with concrete functions.

    ** Not modelled

    - The start-up code, backup, telemetry, transport and the gRPC client are I/O and
      wiring; [raft/node.go] is glue over a library, and so is the file watcher of the
      configuration.
    - Views that only format what other components hold: metrics and their event stream,
      the compliance report, the enrolment bundle; migrations of the schema; the headers
      that the CORS middleware sets, and tracing.
    - The generated code enters as the records it decodes to, and the Rust gateway and
      agent as the answers of their services. What the gateway makes of the path of a
      deletion, in which the client does not escape the identifier, is a parameter with
      one law: an identifier of unreserved characters is received as it is. *)
From Stdlib Require Export ZArith Lia Bool Sorted Ascii.
From stdpp Require Export base list gmap strings option numbers sorting.

(** Lemmas that close the routine goals of the components. *)
Create HintDb purser.

(** Case analysis on every match and [if] of the goal. *)
Ltac case_all := repeat (case_match; simplify_eq/=).

(** ** Go's sort

    [sort.Slice] and [sort.SliceStable] on a strict weak order: the runtime's
    insertion sort moves each element left while it is less than its left
    neighbour. [ins] works on the reversed sorted prefix. *)
Section GoSort.
Context {A : Type} (less : A -> A -> bool).

Fixpoint ins (x : A) (pre : list A) : list A :=
  match pre with
  | [] => [x]
  | y :: pre' => if less x y then y :: ins x pre' else x :: pre
  end.

Definition go_sort (l : list A) : list A :=
  reverse (fold_left (fun pre x => ins x pre) l []).

Lemma ins_perm x pre : ins x pre ≡ₚ x :: pre.
Proof.
  induction pre as [|y pre IH]; cbn; [done|].
  destruct (less x y); [|done]. rewrite IH. apply Permutation_swap.
Qed.

Lemma fold_ins_perm l : forall pre, fold_left (fun pre x => ins x pre) l pre ≡ₚ l ++ pre.
Proof.
  induction l as [|x l IH]; intros pre; cbn; [done|].
  rewrite IH, ins_perm. symmetry. apply Permutation_middle.
Qed.

Lemma go_sort_perm l : go_sort l ≡ₚ l.
Proof. unfold go_sort. rewrite reverse_Permutation, fold_ins_perm. by rewrite app_nil_r. Qed.

Lemma go_sort_length l : length (go_sort l) = length l.
Proof. apply Permutation_length, go_sort_perm. Qed.

(** On a strict weak order (a total preorder [le] whose strict part is [less])
    the result is sorted. *)
Definition not_less (x y : A) : Prop := less y x = false.

Context (P : A -> Prop).
Context (less_asym : forall x y, P x -> P y -> less x y = true -> less y x = false).
Context (not_less_trans : forall x y z, P x -> P y -> P z ->
           not_less x y -> not_less y z -> not_less x z).

Lemma ins_sorted x pre :
  P x -> Forall P pre -> StronglySorted (flip not_less) pre -> StronglySorted (flip not_less) (ins x pre).
Proof.
  intros Px HP Hs. induction Hs as [|y pre Hs IH Hall]; cbn; [repeat constructor|].
  inversion HP as [|? ? Py HP']; subst.
  destruct (less x y) eqn:E.
  - constructor; [auto|]. rewrite ins_perm. constructor; [|assumption].
    unfold flip, not_less. auto.
  - constructor; [by constructor|]. constructor; [exact E|].
    rewrite Forall_forall in Hall, HP' |- *. intros z Hz. unfold flip in *.
    apply (not_less_trans z y x); auto.
Qed.

Lemma fold_ins_sorted l : forall pre,
  Forall P l -> Forall P pre -> StronglySorted (flip not_less) pre ->
  StronglySorted (flip not_less) (fold_left (fun pre x => ins x pre) l pre).
Proof.
  induction l as [|x l IH]; intros pre Hl Hp Hs; cbn; [assumption|].
  inversion Hl; subst. apply IH; [assumption| |by apply ins_sorted].
  rewrite ins_perm. by constructor.
Qed.
End GoSort.

Lemma StronglySorted_app_inv_snoc {A} (R : A -> A -> Prop) l x :
  StronglySorted R l -> Forall (fun y => R y x) l -> StronglySorted R (l ++ [x]).
Proof.
  induction 1 as [|y l Hs IH Hall]; cbn; intros HF; [repeat constructor|].
  inversion HF; subst. constructor; [auto|]. apply Forall_app. split; [assumption|]. by repeat constructor.
Qed.

Lemma StronglySorted_reverse {A} (R : A -> A -> Prop) l :
  StronglySorted (flip R) l -> StronglySorted R (reverse l).
Proof.
  induction 1 as [|x l Hs IH Hall]; [constructor|].
  rewrite reverse_cons. apply StronglySorted_app_inv_snoc; [assumption|].
  rewrite reverse_Permutation. exact Hall.
Qed.

Lemma go_sort_sorted {A} (less : A -> A -> bool) (P : A -> Prop) l :
  (forall x y, P x -> P y -> less x y = true -> less y x = false) ->
  (forall x y z, P x -> P y -> P z -> not_less less x y -> not_less less y z -> not_less less x z) ->
  Forall P l -> StronglySorted (not_less less) (go_sort less l).
Proof.
  intros H1 H2 HP. unfold go_sort. apply StronglySorted_reverse.
  apply (fold_ins_sorted less P H1 H2); [assumption|constructor|constructor].
Qed.

(** An element that is less than no other one stays at the end. *)
Lemma go_sort_snoc {A} (less : A -> A -> bool) l x :
  Forall (fun y => less x y = false) l -> go_sort less (l ++ [x]) = go_sort less l ++ [x].
Proof.
  intros Hx. unfold go_sort. rewrite fold_left_app. cbn [fold_left].
  assert (Hp : Forall (fun y => less x y = false) (fold_left (fun pre x => ins less x pre) l [])).
  { rewrite fold_ins_perm. by rewrite app_nil_r. }
  destruct Hp as [|y pre Hy _]; cbn [ins]; [done|]. rewrite Hy. by rewrite (reverse_cons (y :: pre)).
Qed.

(** A map that keeps the comparisons commutes with the sort. *)
Lemma go_sort_map {A B} (f : A -> B) (less : A -> A -> bool) (less' : B -> B -> bool) l :
  (forall x y, less' (f x) (f y) = less x y) -> go_sort less' (map f l) = map f (go_sort less l).
Proof.
  intros Hf. assert (Hi : forall x pre, ins less' (f x) (map f pre) = map f (ins less x pre)).
  { intros x pre. induction pre as [|y pre IH]; cbn; [done|]. rewrite Hf, IH. by destruct (less x y). }
  unfold go_sort. change (@map A B) with (@fmap list _ A B). rewrite fmap_reverse. f_equal.
  assert (H : forall pre, fold_left (fun pre x => ins less' x pre) (map f l) (map f pre) =
                     map f (fold_left (fun pre x => ins less x pre) l pre)).
  { induction l as [|x l IH]; intros pre; cbn; [done|]. by rewrite Hi, IH. }
  apply (H []).
Qed.

(** A sort by a strict total order on distinct keys depends only on the set of
    elements, whatever the algorithm. *)
Lemma go_sort_unique {A} (less : A -> A -> bool) l l' :
  (forall x y, less x y = true -> less y x = false) ->
  (forall x y z, not_less less x y -> not_less less y z -> not_less less x z) ->
  (forall x y, x ∈ l -> y ∈ l -> not_less less x y -> not_less less y x -> x = y) ->
  l ≡ₚ l' -> go_sort less l = go_sort less l'.
Proof.
  intros H1 H2 H3 Hp. eapply (StronglySorted_unique_strong (not_less less)).
  - intros x y. rewrite !go_sort_perm, <- Hp. apply H3.
  - apply (go_sort_sorted less (fun _ => True)); eauto. by apply Forall_true.
  - apply (go_sort_sorted less (fun _ => True)); eauto. by apply Forall_true.
  - by rewrite !go_sort_perm.
Qed.

(** Go compares strings bytewise. *)
Lemma string_compare_refl s : String.compare s s = Eq.
Proof.
  induction s as [|c s IH]; cbn; [done|]. unfold Ascii.compare. by rewrite N.compare_refl.
Qed.

Lemma string_le_trans a b c :
  String.compare a b ≠ Gt -> String.compare b c ≠ Gt -> String.compare a c ≠ Gt.
Proof.
  revert b c. induction a as [|x a IH]; intros [|y b] [|z c]; cbn; try done.
  unfold Ascii.compare.
  destruct (N.compare_spec (N_of_ascii x) (N_of_ascii y)) as [E1|E1|E1];
    destruct (N.compare_spec (N_of_ascii y) (N_of_ascii z)) as [E2|E2|E2];
    destruct (N.compare_spec (N_of_ascii x) (N_of_ascii z)) as [E3|E3|E3]; try done; try lia.
  apply IH.
Qed.

Lemma string_ltb_asym a b : String.ltb a b = true -> String.ltb b a = false.
Proof. unfold String.ltb. rewrite (String.compare_antisym b a). by destruct (String.compare a b). Qed.

Lemma string_ltb_false a b : String.ltb b a = false <-> String.compare a b ≠ Gt.
Proof. unfold String.ltb. rewrite (String.compare_antisym b a). by destruct (String.compare a b). Qed.

Lemma string_ltb_total a b : String.ltb b a = false -> String.ltb a b = false -> a = b.
Proof.
  unfold String.ltb. rewrite (String.compare_antisym b a). destruct (String.compare a b) eqn:E; try done.
  intros _ _. by apply String.compare_eq_iff.
Qed.

(** ** Tables: Go's two-dimensional slices *)
Section Table.
Context {A : Type} (d : A).

Definition tget (t : list (list A)) (i j : nat) : A := default d (t !! i ≫= (.!! j)).
Definition tset (t : list (list A)) (i j : nat) (v : A) : list (list A) :=
  alter (fun row => <[j := v]> row) i t.
Definition tmake (n m : nat) : list (list A) := replicate n (replicate m d).

(** Every index of a [n] by [m] table is in range. *)
Definition tshape (t : list (list A)) (n m : nat) : Prop :=
  length t = n /\ Forall (fun row => length row = m) t.

Lemma tmake_shape n m : tshape (tmake n m) n m.
Proof.
  split; [apply length_replicate|]. apply Forall_replicate, length_replicate.
Qed.

Lemma tset_shape t n m i j v : tshape t n m -> tshape (tset t i j v) n m.
Proof.
  intros [Hl Hr]. unfold tset. split; [by rewrite length_alter|].
  apply Forall_alter; [assumption|]. intros row Hrow _. rewrite length_insert.
  by eapply Forall_lookup_1 in Hr.
Qed.

Lemma tget_set_eq t n m i j v : tshape t n m -> (i < n)%nat -> (j < m)%nat -> tget (tset t i j v) i j = v.
Proof.
  intros [Hl Hr] Hi Hj. unfold tget, tset. rewrite list_lookup_alter, decide_True by done.
  destruct (lookup_lt_is_Some_2 t i) as [row Hrow]; [lia|]. rewrite Hrow. cbn.
  rewrite list_lookup_insert_eq; [done|]. eapply Forall_lookup_1 in Hr; [|done]. lia.
Qed.

Lemma tget_set_ne t i j i' j' v : i ≠ i' \/ j ≠ j' -> tget (tset t i j v) i' j' = tget t i' j'.
Proof.
  intros H. unfold tget, tset. rewrite list_lookup_alter. case_decide as E; [|done].
  subst. destruct (t !! i') as [row|]; [|done]. cbn. rewrite list_lookup_insert_ne; [done|].
  destruct H; congruence.
Qed.

Lemma tget_make n m i j : tget (tmake n m) i j = d.
Proof.
  unfold tget, tmake. destruct (replicate n (replicate m d) !! i) as [row|] eqn:E; [|done].
  apply lookup_replicate in E as [-> _]. cbn. destruct (replicate m d !! j) eqn:E; [|done].
  by apply lookup_replicate in E as [-> _].
Qed.
End Table.

(** ** Package [strings]

    A Go string is its bytes. *)
Lemma app_string_assoc a b c : (a +:+ b) +:+ c = a +:+ b +:+ c.
Proof. induction a as [|x a IH]; [done|]. exact (f_equal (String x) IH). Qed.

Lemma app_string_inj a b r r' : String.length a = String.length b -> a +:+ r = b +:+ r' -> a = b /\ r = r'.
Proof.
  revert b. induction a as [|c a IH]; intros [|d b] Hl H; try done. cbn in *.
  injection H as -> H. destruct (IH b ltac:(lia) H) as [-> ->]. done.
Qed.

Fixpoint CutPrefix (s p : string) {struct p} : option string :=
  match p, s with
  | EmptyString, _ => Some s
  | String a p, String b s => if Ascii.eqb a b then CutPrefix s p else None
  | String _ _, EmptyString => None
  end.

Definition HasPrefix (s p : string) : bool := match CutPrefix s p with Some _ => true | None => false end.

Fixpoint HasSuffix (s t : string) : bool :=
  (s =? t)%string || match s with EmptyString => false | String _ s => HasSuffix s t end.

Fixpoint TrimSuffix (s t : string) : string :=
  if (s =? t)%string then "" else match s with EmptyString => "" | String c s => String c (TrimSuffix s t) end.

(** [Split] at a one-byte separator: never empty. *)
Fixpoint Split (s : string) (sep : ascii) : list string :=
  match s with
  | EmptyString => [""%string]
  | String c s =>
      if Ascii.eqb c sep then ""%string :: Split s sep
      else match Split s sep with
           | x :: xs => String c x :: xs
           | [] => [String c ""]
           end
  end.

(** [Trim] with a one-byte cutset. *)
Fixpoint TrimLeft (s : string) (c : ascii) : string :=
  match s with
  | EmptyString => ""
  | String a s' => if Ascii.eqb a c then TrimLeft s' c else s
  end.

Fixpoint TrimRight (s : string) (c : ascii) : string :=
  match s with
  | EmptyString => ""
  | String a s => match TrimRight s c with
                  | EmptyString => if Ascii.eqb a c then "" else String a ""
                  | s' => String a s'
                  end
  end.

Definition Trim (s : string) (c : ascii) : string := TrimRight (TrimLeft s c) c.

Lemma CutPrefix_spec s p r : CutPrefix s p = Some r <-> s = p +:+ r.
Proof.
  revert s. induction p as [|a p IH]; intros s; [cbn; split; [by intros [= ->]|by intros ->]|cbn].
  destruct s as [|b s]; [done|]. destruct (Ascii.eqb_spec a b) as [->|Hab].
  - rewrite IH. split; [by intros ->|]. intros E. by injection E.
  - split; [done|]. intros [= E _]. congruence.
Qed.

Lemma HasPrefix_spec s p : HasPrefix s p = true <-> exists r, s = p +:+ r.
Proof.
  unfold HasPrefix. setoid_rewrite <- CutPrefix_spec. destruct (CutPrefix s p) as [r|].
  - split; eauto.
  - split; [done|]. by intros [r E].
Qed.

Lemma string_length_app a b : String.length (a +:+ b) = (String.length a + String.length b)%nat.
Proof. induction a as [|c a IH]; [done|]. exact (f_equal S IH). Qed.

Lemma HasSuffix_spec s t : HasSuffix s t = true <-> exists p, s = p +:+ t.
Proof.
  induction s as [|c s IH]; cbn [HasSuffix]; rewrite orb_true_iff, String.eqb_eq.
  - split; [intros [<-|H]; [by exists ""%string|done]|]. intros [[|a p] E]; [by left|done].
  - rewrite IH. split.
    + intros [<-|[p ->]]; [by exists ""%string|by exists (String c p)].
    + intros [[|a p] E]; [by left|]. right. exists p. by injection E.
Qed.

Lemma TrimSuffix_app p t : TrimSuffix (p +:+ t) t = p.
Proof.
  induction p as [|c p IH].
  - change (TrimSuffix t t = ""%string). by destruct t as [|a t]; [|cbn [TrimSuffix]; rewrite String.eqb_refl].
  - change (TrimSuffix (String c (p +:+ t)) t = String c p). cbn [TrimSuffix].
    destruct (String.eqb_spec (String c (p +:+ t)) t) as [E|_]; [|by rewrite IH].
    apply (f_equal String.length) in E. cbn in E. rewrite string_length_app in E. lia.
Qed.
