(* ===== verification/Float64.v ===== *)
(** * Float64: Go's [float64] as IEEE-754 binary64

    The Standard Library's [SpecFloat] at 53 bits of precision, rounding to nearest
    even. A [float64] is a [spec_float] in canonical form; [+], [-], [*], [/], the
    comparisons, [math.Max], [math.Min] and the conversion of an integer are the Go
    operations, evaluated left to right with one rounding each. The order lemmas and
    the bounds on results ([below], [above]) are what the cost model and the searches
    need: addition and maximum are monotone, and values in a stated range stay finite. *)
From Stdlib Require Import ZArith Lia Bool SpecFloat Eqdep_dec.
From S2P Require Import Prelude.
Open Scope Z_scope.

Definition prec : Z := 53.
Definition emax : Z := 1024.

(** Value of a float in units of [2^-1074]; an infinity counts as [2^2098],
    the first power of two above every finite value. *)
Definition SV (x : spec_float) : Z :=
  match x with
  | S754_finite s m e => cond_Zopp s (Zpos m * 2 ^ (e + 1074))
  | S754_infinity s => cond_Zopp s (2 ^ 2098)
  | _ => 0
  end.

Definition is_nan_sf (x : spec_float) : bool :=
  match x with S754_nan => true | _ => false end.

Lemma digits2_pos_log2 m : Zpos (digits2_pos m) = Z.log2 (Zpos m) + 1.
Proof.
  induction m as [p IH|p IH|]; cbn [digits2_pos]; [| |reflexivity];
    rewrite Pos2Z.inj_succ, IH.
  - replace (Zpos p~1) with (2 * Zpos p + 1) by lia.
    rewrite Z.log2_succ_double by lia. lia.
  - replace (Zpos p~0) with (2 * Zpos p) by lia.
    rewrite Z.log2_double by lia. lia.
Qed.

Lemma fexp_eq e : fexp prec emax e = Z.max (e - 53) (-1074).
Proof. reflexivity. Qed.

Lemma pow2_pos n : 0 <= n -> 0 < 2 ^ n.
Proof. intros. apply Z.pow_pos_nonneg; lia. Qed.

(** What validity says about mantissa and exponent of a finite number. *)
Lemma bounded_spec m e :
  bounded prec emax m e = true <->
  -1074 <= e <= 971 /\ Zpos m < 2 ^ 53 /\ (e > -1074 -> 2 ^ 52 <= Zpos m).
Proof.
  unfold bounded, canonical_mantissa.
  rewrite andb_true_iff, Z.eqb_eq, Z.leb_le, fexp_eq, digits2_pos_log2.
  change (emax - prec) with 971.
  pose proof (Z.log2_spec (Zpos m) ltac:(lia)) as [Hlo Hhi].
  set (l := Z.log2 (Zpos m)) in *.
  assert (0 <= l) by apply Z.log2_nonneg.
  split.
  - intros [He Hm]. repeat split; try lia.
    + eapply Z.lt_le_trans; [exact Hhi|]. apply Z.pow_le_mono_r; lia.
    + intros. eapply Z.le_trans; [|exact Hlo]. apply Z.pow_le_mono_r; lia.
  - intros (He & Hm & Hn). split; [|lia].
    assert (l < 53). { apply (Z.pow_lt_mono_r_iff 2); lia. }
    destruct (Z.eq_dec e (-1074)); [lia|]. specialize (Hn ltac:(lia)).
    assert (52 <= l).
    { destruct (Z.le_gt_cases 52 l); [assumption|].
      pose proof (Z.pow_le_mono_r 2 (Z.succ l) 52 ltac:(lia) ltac:(lia)). lia. }
    lia.
Qed.

Lemma bounded_lt m e :
  bounded prec emax m e = true -> Zpos m * 2 ^ (e + 1074) < 2 ^ 2098.
Proof.
  rewrite bounded_spec. intros (He & Hm & _).
  replace 2098 with (53 + 2045) by lia. rewrite (Z.pow_add_r 2 53) by lia.
  eapply Z.lt_le_trans.
  - apply Z.mul_lt_mono_pos_r; [apply pow2_pos; lia|exact Hm].
  - apply Z.mul_le_mono_nonneg_l; [lia|]. apply Z.pow_le_mono_r; lia.
Qed.

Lemma SV_finite_pos m e : -1074 <= e -> 0 < Zpos m * 2 ^ (e + 1074).
Proof. intros. apply Z.mul_pos_pos; [lia|apply pow2_pos; lia]. Qed.

(** A larger exponent means a larger value, because mantissas are canonical. *)
Lemma bounded_exp_lt m1 e1 m2 e2 :
  bounded prec emax m1 e1 = true -> bounded prec emax m2 e2 = true -> e1 < e2 ->
  Zpos m1 * 2 ^ (e1 + 1074) < Zpos m2 * 2 ^ (e2 + 1074).
Proof.
  rewrite !bounded_spec. intros (He1 & Hm1 & _) (He2 & _ & Hn2) Hlt.
  specialize (Hn2 ltac:(lia)).
  replace (e2 + 1074) with (1 + (e2 - e1 - 1) + (e1 + 1074)) by lia.
  rewrite (Z.pow_add_r 2 (1 + _)), (Z.pow_add_r 2 1) by lia.
  pose proof (pow2_pos (e1 + 1074) ltac:(lia)).
  pose proof (pow2_pos (e2 - e1 - 1) ltac:(lia)).
  rewrite !Z.mul_assoc. apply Z.mul_lt_mono_pos_r; [assumption|]. nia.
Qed.

Lemma SFcompare_SV x y :
  valid_binary prec emax x = true -> valid_binary prec emax y = true ->
  is_nan_sf x = false -> is_nan_sf y = false ->
  SFcompare x y = Some (SV x ?= SV y).
Proof.
  assert (Hinf : 0 < 2 ^ 2098) by (apply pow2_pos; lia).
  pose proof bounded_lt as Hb. pose proof SV_finite_pos as Hp.
  pose proof bounded_exp_lt as He.
  assert (Hge : forall m e, bounded prec emax m e = true -> -1074 <= e)
    by (intros m e Hv; apply bounded_spec in Hv; lia).
  unfold SV. generalize dependent (2 ^ 2098); intros INF Hinf Hb.
  assert (Hff : forall mx ex my ey, bounded prec emax mx ex = true ->
      bounded prec emax my ey = true ->
      match ex ?= ey with Lt => Lt | Gt => Gt | Eq => Pos.compare_cont Eq mx my end =
      (Zpos mx * 2 ^ (ex + 1074) ?= Zpos my * 2 ^ (ey + 1074))).
  { intros mx ex my ey Hx Hy. symmetry. destruct (Z.compare_spec ex ey) as [->|Hlt|Hgt].
    - rewrite <- Zmult_compare_compat_r by (apply Z.lt_gt, pow2_pos; apply Hge in Hy; lia).
      reflexivity.
    - apply Z.compare_lt_iff. eauto.
    - apply Z.compare_gt_iff. eauto. }
  destruct x as [sx|sx| |sx mx ex], y as [sy|sy| |sy my ey];
    cbn [is_nan_sf valid_binary]; try discriminate; intros Hx Hy _ _;
    unfold SFcompare; f_equal;
    repeat match goal with H : bounded _ _ ?m ?e = true |- _ =>
      pose proof (Hb m e H); pose proof (Hp m e (Hge m e H)); revert H end;
    try (destruct sx, sy; cbn [cond_Zopp]; intros;
      solve [symmetry; apply Z.compare_refl | symmetry; apply Z.compare_lt_iff; lia
            | symmetry; apply Z.compare_gt_iff; lia]).
  all: try (destruct sx; cbn [cond_Zopp]; intros;
      solve [symmetry; apply Z.compare_refl | symmetry; apply Z.compare_lt_iff; lia
            | symmetry; apply Z.compare_gt_iff; lia]).
  all: try (destruct sy; cbn [cond_Zopp]; intros;
      solve [symmetry; apply Z.compare_refl | symmetry; apply Z.compare_lt_iff; lia
            | symmetry; apply Z.compare_gt_iff; lia]).
  intros Hy' Hx'. destruct sx, sy; cbn [cond_Zopp].
  - rewrite Z.compare_opp, <- (Hff my ey mx ex) by assumption.
    rewrite (Z.compare_antisym ex ey), (Pos.compare_cont_antisym mx my).
    destruct (ex ?= ey); cbn [CompOpp]; reflexivity.
  - symmetry; apply Z.compare_lt_iff; lia.
  - symmetry; apply Z.compare_gt_iff; lia.
  - apply Hff; assumption.
Qed.

(** ** Rounding to nearest, ties to even, on rationals *)

Definition rne (a b : Z) : Z :=
  let q := a / b in
  match 2 * (a mod b) ?= b with
  | Lt => q
  | Eq => if Z.even q then q else q + 1
  | Gt => q + 1
  end.

(** [rnd num den] rounds [num/den] (in units of [2^-1074]) to 53 bits. *)
Definition rnd_exp (num den : Z) : Z := Z.max 0 (Z.log2 (num / den) - 52).

Definition rnd (num den : Z) : Z :=
  let E := rnd_exp num den in rne num (den * 2 ^ E) * 2 ^ E.

Lemma rne_bounds a b : 0 < b -> a / b <= rne a b <= a / b + 1.
Proof.
  intros Hb. unfold rne.
  destruct (2 * (a mod b) ?= b); [destruct (Z.even (a / b))| |]; lia.
Qed.

Lemma div_le_mono_cross n1 d1 n2 d2 :
  0 < d1 -> 0 < d2 -> n1 * d2 <= n2 * d1 -> n1 / d1 <= n2 / d2.
Proof.
  intros. apply Z.div_le_lower_bound; [assumption|].
  pose proof (Z.mul_div_le n1 d1 ltac:(assumption)). nia.
Qed.

Lemma rne_mono a1 b1 a2 b2 :
  0 < b1 -> 0 < b2 -> a1 * b2 <= a2 * b1 -> rne a1 b1 <= rne a2 b2.
Proof.
  intros H1 H2 Hle.
  pose proof (rne_bounds a1 b1 H1). pose proof (rne_bounds a2 b2 H2).
  pose proof (Z.div_mod a1 b1 ltac:(lia)) as E1.
  pose proof (Z.div_mod a2 b2 ltac:(lia)) as E2.
  pose proof (Z.mod_pos_bound a1 b1 H1) as M1.
  pose proof (Z.mod_pos_bound a2 b2 H2) as M2.
  unfold rne in *.
  set (q1 := a1 / b1) in *. set (q2 := a2 / b2) in *.
  set (r1 := a1 mod b1) in *. set (r2 := a2 mod b2) in *.
  assert (Hq : q1 <= q2) by (apply div_le_mono_cross; assumption).
  destruct (Z.eq_dec q1 q2) as [Hqq|]; [|lia].
  assert (Hr : r1 * b2 <= r2 * b1) by (clearbody q1 q2 r1 r2; subst; nia).
  rewrite <- Hqq in *.
  destruct (Z.compare_spec (2 * r1) b1), (Z.compare_spec (2 * r2) b2);
    try (destruct (Z.even q1)); try lia; exfalso; nia.
Qed.

Lemma rne_ratio a1 b1 a2 b2 :
  0 < b1 -> 0 < b2 -> a1 * b2 = a2 * b1 -> rne a1 b1 = rne a2 b2.
Proof. intros. apply Z.le_antisymm; apply rne_mono; lia. Qed.

Lemma rne_exact a b : 0 < b -> rne (a * b) b = a.
Proof.
  intros. unfold rne. rewrite Z.mod_mul, Z.div_mul by lia.
  replace (2 * 0) with 0 by lia. destruct (Z.compare_spec 0 b); lia.
Qed.

Lemma rnd_exp_nonneg n d : 0 <= rnd_exp n d.
Proof. unfold rnd_exp. lia. Qed.

(** A value rounded with a positive exponent has a full 53-bit mantissa. *)
Lemma rnd_lower n d :
  0 < d -> 0 < rnd_exp n d -> 2 ^ (52 + rnd_exp n d) <= rnd n d.
Proof.
  intros Hd HE. unfold rnd. set (E := rnd_exp n d) in *.
  assert (Hl : Z.log2 (n / d) = 52 + E) by (unfold E, rnd_exp in *; lia).
  assert (0 < n / d) as Hnd.
  { destruct (Z.le_gt_cases (n / d) 0) as [Hle|]; [|lia].
    rewrite (Z.log2_nonpos _ Hle) in Hl. lia. }
  pose proof (Z.log2_spec _ Hnd) as [Hlo _]. rewrite Hl in Hlo.
  pose proof (pow2_pos E ltac:(lia)).
  rewrite Z.pow_add_r by lia. apply Z.mul_le_mono_pos_r; [assumption|].
  rewrite Z.pow_add_r in Hlo by lia.
  pose proof (rne_bounds n (d * 2 ^ E) ltac:(nia)).
  enough (2 ^ 52 <= n / (d * 2 ^ E)) by lia.
  rewrite <- Z.div_div by lia. apply Z.div_le_lower_bound; lia.
Qed.

Lemma rnd_upper n d : 0 < d -> rnd n d <= 2 ^ (53 + rnd_exp n d).
Proof.
  intros Hd. unfold rnd. set (E := rnd_exp n d).
  assert (0 <= E) by apply rnd_exp_nonneg.
  pose proof (pow2_pos E ltac:(lia)).
  rewrite Z.pow_add_r by lia. apply Z.mul_le_mono_pos_r; [assumption|].
  pose proof (rne_bounds n (d * 2 ^ E) ltac:(nia)).
  enough (n / (d * 2 ^ E) < 2 ^ 53) by lia.
  rewrite <- Z.div_div by lia. apply Z.div_lt_upper_bound; [assumption|].
  destruct (Z.le_gt_cases (n / d) 0).
  - pose proof (pow2_pos 53). nia.
  - pose proof (Z.log2_spec (n / d) ltac:(lia)) as [_ Hhi].
    rewrite Z.mul_comm, <- Z.pow_add_r by lia.
    eapply Z.lt_le_trans; [exact Hhi|]. apply Z.pow_le_mono_r; [lia|].
    unfold E, rnd_exp. lia.
Qed.

Lemma rnd_mono n1 d1 n2 d2 :
  0 < d1 -> 0 < d2 -> n1 * d2 <= n2 * d1 -> rnd n1 d1 <= rnd n2 d2.
Proof.
  intros H1 H2 Hle.
  assert (HE : rnd_exp n1 d1 <= rnd_exp n2 d2).
  { unfold rnd_exp. pose proof (Z.log2_le_mono _ _ (div_le_mono_cross _ _ _ _ H1 H2 Hle)). lia. }
  pose proof (rnd_exp_nonneg n1 d1).
  destruct (Z.eq_dec (rnd_exp n1 d1) (rnd_exp n2 d2)) as [Heq|Hne].
  - unfold rnd. rewrite <- Heq. set (E := rnd_exp n1 d1) in *.
    pose proof (pow2_pos E ltac:(lia)).
    apply Z.mul_le_mono_pos_r; [assumption|]. apply rne_mono; nia.
  - eapply Z.le_trans; [apply rnd_upper; assumption|].
    eapply Z.le_trans; [|apply rnd_lower; [assumption|lia]].
    apply Z.pow_le_mono_r; lia.
Qed.

Lemma rnd_nonneg n d : 0 < d -> 0 <= n -> 0 <= rnd n d.
Proof.
  intros Hd Hn. replace 0 with (rnd 0 1) by reflexivity. apply rnd_mono; lia.
Qed.

(** Integers of at most 53 bits, times a power of two, round to themselves. *)
Lemma rnd_repr m t : 0 <= m <= 2 ^ 53 -> 0 <= t -> rnd (m * 2 ^ t) 1 = m * 2 ^ t.
Proof.
  intros Hm Ht. unfold rnd. set (E := rnd_exp (m * 2 ^ t) 1).
  assert (HE : 0 <= E) by apply rnd_exp_nonneg.
  assert (Hdiv : exists k, m * 2 ^ t = k * 2 ^ E).
  { destruct (Z.le_gt_cases E t).
    - exists (m * 2 ^ (t - E)). rewrite <- Z.mul_assoc, <- Z.pow_add_r by lia.
      do 2 f_equal. lia.
    - assert (HEq : E = Z.max 0 (Z.log2 (m * 2 ^ t) - 52))
        by (unfold E, rnd_exp; rewrite Z.div_1_r; reflexivity).
      assert (Hl : Z.log2 (m * 2 ^ t) = E + 52) by lia.
      clearbody E. clear HEq.
      assert (0 < m) by (destruct (Z.eq_dec m 0) as [->|];
        [rewrite Z.mul_0_l in Hl; change (Z.log2 0) with 0 in Hl; lia|lia]).
      rewrite Z.log2_mul_pow2 in Hl by lia.
      destruct (Z.eq_dec m (2 ^ 53)) as [->|].
      + rewrite Z.log2_pow2 in Hl by lia. exists (2 ^ 52).
        replace E with (t + 1) by lia. rewrite <- !Z.pow_add_r by lia. f_equal. lia.
      + assert (Z.log2 m < 53) by (apply Z.log2_lt_pow2; lia). lia. }
  destruct Hdiv as [k Hk]. rewrite Hk, Z.mul_1_l.
  rewrite rne_exact by (apply pow2_pos; assumption). reflexivity.
Qed.

(** ** [SpecFloat]'s rounding computes [rnd] *)

(** [loc_spec m l N D]: the rational [N/D] has integer part [m] and [l] locates
    it inside [[m, m+1)]. *)
Definition loc_spec (m : Z) (l : location) (N D : Z) : Prop :=
  m = N / D /\
  l = (if N mod D =? 0 then loc_Exact else loc_Inexact (2 * (N mod D) ?= D)).

(** A shift record represents [N/D]: mantissa, round bit and sticky bit. *)
Definition shr_spec (r : shr_record) (N D : Z) : Prop :=
  let k := 2 * N - (2 * shr_m r + Z.b2z (shr_r r)) * D in
  0 <= k < D /\ (shr_s r = false <-> k = 0).

Lemma shr_record_of_loc_spec m l N D :
  0 < D -> loc_spec m l N D -> shr_spec (shr_record_of_loc m l) N D.
Proof.
  intros HD [-> ->].
  pose proof (Z.div_mod N D ltac:(lia)) as E.
  pose proof (Z.mod_pos_bound N D HD) as B.
  set (q := N / D) in *. set (r := N mod D) in *. clearbody q r. subst N.
  destruct (Z.eqb_spec r 0) as [->|Hr].
  - unfold shr_spec; cbn. split; [nia|]. split; [nia|reflexivity].
  - unfold shr_spec; destruct (Z.compare_spec (2 * r) D); cbn;
      (split; [nia|split; [try discriminate; nia|try reflexivity; nia]]).
Qed.

Lemma shr_1_spec r N D :
  0 <= shr_m r -> shr_spec r N D -> 0 <= shr_m (shr_1 r) /\ shr_spec (shr_1 r) N (2 * D).
Proof.
  unfold shr_spec. destruct r as [m rb sb]; cbn [shr_m shr_r shr_s]. intros Hm [Hk Hs].
  assert (Hm' : exists p b, shr_1 {| shr_m := m; shr_r := rb; shr_s := sb |} =
              {| shr_m := p; shr_r := b; shr_s := rb || sb |} /\ m = 2 * p + Z.b2z b /\ 0 <= p).
  { destruct m as [|[p|p|]|p]; [exists 0, false|exists (Zpos p), true|exists (Zpos p), false
      |exists 0, true|lia]; cbn [shr_1 Z.b2z]; repeat split; lia. }
  destruct Hm' as (p & b & -> & -> & Hp). cbn [shr_m shr_r shr_s].
  split; [assumption|].
  destruct rb, b, sb; cbn [Z.b2z orb] in *;
    (split; [nia|split; intros; try discriminate; try reflexivity; nia]).
Qed.

Lemma iter_shr_spec p : forall r N D,
  0 <= shr_m r -> shr_spec r N D ->
  0 <= shr_m (SpecFloat.iter_pos shr_1 p r) /\ shr_spec (SpecFloat.iter_pos shr_1 p r) N (D * 2 ^ Zpos p).
Proof.
  induction p as [p IH|p IH|]; intros r N D Hm Hr; cbn [SpecFloat.iter_pos].
  - destruct (shr_1_spec _ _ _ Hm Hr) as [Hm1 H1].
    destruct (IH _ _ _ Hm1 H1) as [Hm2 H2]. destruct (IH _ _ _ Hm2 H2) as [Hm3 H3].
    split; [assumption|]. replace (D * 2 ^ Zpos p~1) with (2 * D * 2 ^ Zpos p * 2 ^ Zpos p);
      [assumption|].
    replace (Zpos p~1) with (1 + Zpos p + Zpos p) by lia. rewrite !Z.pow_add_r by lia. ring.
  - destruct (IH _ _ _ Hm Hr) as [Hm2 H2]. destruct (IH _ _ _ Hm2 H2) as [Hm3 H3].
    split; [assumption|]. replace (D * 2 ^ Zpos p~0) with (D * 2 ^ Zpos p * 2 ^ Zpos p);
      [assumption|].
    replace (Zpos p~0) with (Zpos p + Zpos p) by lia. rewrite Z.pow_add_r by lia. ring.
  - destruct (shr_1_spec _ _ _ Hm Hr) as [Hm1 H1].
    replace (D * 2 ^ 1) with (2 * D) by lia. auto.
Qed.

Lemma shr_round_rne r N D :
  0 < D -> shr_spec r N D -> round_nearest_even (shr_m r) (loc_of_shr_record r) = rne N D.
Proof.
  unfold shr_spec. destruct r as [m rb sb]; cbn [shr_m shr_r shr_s]. intros HD [Hk Hs].
  assert (Hq : N / D = m) by (symmetry; apply (Z.div_unique N D m (N - m * D)); destruct rb;
    cbn [Z.b2z] in *; lia).
  assert (Hr : N mod D = N - m * D) by (rewrite Z.mod_eq by lia; rewrite Hq; lia).
  unfold rne. rewrite Hq, Hr.
  destruct rb, sb; cbn [Z.b2z loc_of_shr_record round_nearest_even] in *;
    destruct (Z.compare_spec (2 * (N - m * D)) D); try reflexivity; exfalso;
    try (assert (false = false) as Hf by reflexivity; apply Hs in Hf; lia); try lia.
Qed.

Lemma Zdigits2_nonneg_log2 m : 0 < m -> Zdigits2 m = Z.log2 m + 1.
Proof. destruct m as [|p|p]; try lia. intros _. apply digits2_pos_log2. Qed.

Lemma shr_fexp_spec m e l N D :
  0 < D -> 0 <= m -> loc_spec m l N D -> e <= fexp prec emax (Zdigits2 m + e) ->
  let '(mrs, e') := shr_fexp prec emax m e l in
  e' = fexp prec emax (Zdigits2 m + e) /\ 0 <= shr_m mrs /\ shr_spec mrs N (D * 2 ^ (e' - e)).
Proof.
  intros HD Hm Hl He. unfold shr_fexp. set (e1 := fexp _ _ _) in *.
  pose proof (shr_record_of_loc_spec _ _ _ _ HD Hl) as Hs.
  assert (Hm0 : 0 <= shr_m (shr_record_of_loc m l))
    by (destruct l as [|[]]; cbn; assumption).
  unfold shr. destruct (e1 - e) as [|p|p] eqn:Hn; [| |lia].
  - replace (e - e) with 0 by lia. rewrite Z.mul_1_r. split; [lia|split; assumption].
  - replace (e + Zpos p - e) with (Zpos p) by lia.
    split; [lia|apply iter_shr_spec; assumption].
Qed.

(** Overflow: a rounded magnitude of [2^2098] units or more is an infinity. *)
Definition cap (v : Z) : Z := Z.min (2 ^ 2098) v.

Lemma cap_mono a b : a <= b -> cap a <= cap b.
Proof. unfold cap. lia. Qed.

(** Normalising an exact 53-bit result. *)
Lemma pack_spec s k e :
  0 <= k <= 2 ^ 53 -> -1074 <= e -> (e > -1074 -> 2 ^ 52 <= k) ->
  let '(mrs, e2) := shr_fexp prec emax k e loc_Exact in
  let r := match shr_m mrs with
           | Z0 => S754_zero s
           | Zpos m => if e2 <=? emax - prec then S754_finite s m e2 else S754_infinity s
           | _ => S754_nan
           end in
  valid_binary prec emax r = true /\ is_nan_sf r = false /\
  SV r = cond_Zopp s (cap (k * 2 ^ (e + 1074))).
Proof.
  intros Hk He Hn.
  assert (Hinf : forall v, 2 ^ 52 <= v -> forall t, 972 <= t -> cap (v * 2 ^ (t + 1074)) = 2 ^ 2098).
  { intros v Hv t Ht. unfold cap. apply Z.min_l.
    replace 2098 with (52 + 2046) by lia. rewrite (Z.pow_add_r 2 52) by lia.
    apply Z.mul_le_mono_nonneg; [apply Z.pow_nonneg; lia|exact Hv|apply Z.pow_nonneg; lia|].
    apply Z.pow_le_mono_r; lia. }
  assert (Hpk : forall m t, Zpos m < 2 ^ 53 -> -1074 <= t -> (t > -1074 -> 2 ^ 52 <= Zpos m) ->
     let r := if t <=? emax - prec then S754_finite s m t else S754_infinity s in
     valid_binary prec emax r = true /\ is_nan_sf r = false /\
     SV r = cond_Zopp s (cap (Zpos m * 2 ^ (t + 1074)))).
  { intros m t Hm Ht Hmt. change (emax - prec) with 971. destruct (Z.leb_spec t 971); cbn zeta.
    - assert (Hb : bounded prec emax m t = true) by (apply bounded_spec; lia).
      split; [exact Hb|split; [reflexivity|]]. cbn [SV]. f_equal. unfold cap.
      symmetry. apply Z.min_r. apply Z.lt_le_incl, bounded_lt, Hb.
    - split; [reflexivity|split; [reflexivity|]]. cbn [SV]. f_equal.
      symmetry. apply Hinf; [apply Hmt; lia|lia]. }
  unfold shr_fexp. rewrite fexp_eq. cbn [shr_record_of_loc].
  destruct k as [|p|p]; [| |lia].
  - replace (Z.max (Zdigits2 0 + e - 53) (-1074) - e) with (Z.max (-53) (-1074 - e))
      by (change (Zdigits2 0) with 0; lia).
    unfold shr. destruct (Z.max (-53) (-1074 - e)) eqn:Hz; [|lia|];
      cbn [shr_m]; split; try reflexivity; split; reflexivity || (destruct s; reflexivity).
  - rewrite Zdigits2_nonneg_log2 by lia.
    destruct (Z.eq_dec (Zpos p) (2 ^ 53)) as [Hp|Hp].
    + assert (Hq : exists q, p = xO q /\ Zpos q = 2 ^ 52)
        by (exists (Z.to_pos (2 ^ 52)); split; [apply Pos2Z.inj; rewrite Hp|]; reflexivity).
      destruct Hq as (q & Hpq & Hq).
      replace (Z.max (Z.log2 (Zpos p) + 1 + e - 53) (-1074) - e) with 1
        by (rewrite Hp, Z.log2_pow2; lia).
      rewrite Hpq. cbn [shr SpecFloat.iter_pos shr_1 shr_m].
      replace (Zpos q~0 * 2 ^ (e + 1074)) with (Zpos q * 2 ^ (e + 1 + 1074))
        by (replace (e + 1 + 1074) with (1 + (e + 1074)) by lia; rewrite Z.pow_add_r by lia; lia).
      apply Hpk; lia.
    + assert (Z.log2 (Zpos p) < 53) by (apply Z.log2_lt_pow2; lia).
      assert (Hd : Z.max (Z.log2 (Zpos p) + 1 + e - 53) (-1074) - e <= 0) by lia.
      unfold shr. destruct (Z.max _ _ - e) eqn:Hz; [|lia|]; cbn [shr_m]; apply Hpk; lia.
Qed.

(** The exponent [SpecFloat] picks is the one [rnd] picks. *)
Lemma rnd_exp_mantissa m e N D :
  0 < D -> 0 <= N -> m = N / D -> e <= fexp prec emax (Zdigits2 m + e) ->
  fexp prec emax (Zdigits2 m + e) + 1074 =
  rnd_exp (N * 2 ^ (Z.max 0 (e + 1074))) (D * 2 ^ (Z.max 0 (- (e + 1074)))).
Proof.
  intros HD HN Hm He. assert (0 <= m) by (subst; apply Z.div_pos; lia).
  rewrite fexp_eq in *. unfold rnd_exp.
  destruct (Z.le_gt_cases 0 (e + 1074)) as [Ht|Ht].
  - rewrite (Z.max_r 0 (e + 1074)), (Z.max_l 0 (- (e + 1074))), Z.mul_1_r by lia.
    destruct (Z.eq_dec m 0) as [Hm0|Hm0].
    + rewrite Hm0 in *. change (Zdigits2 0) with 0 in *.
      replace (e + 1074) with 0 by lia. rewrite Z.mul_1_r, <- Hm. cbn. lia.
    + rewrite Zdigits2_nonneg_log2 in * by lia.
      assert (Hlog : Z.log2 (N * 2 ^ (e + 1074) / D) = Z.log2 m + (e + 1074)).
      { apply Z.log2_unique; [pose proof (Z.log2_nonneg m); lia|].
        pose proof (Z.log2_spec m ltac:(lia)) as [Hlo Hhi].
        pose proof (Z.mul_div_le N D HD). pose proof (Z.mul_succ_div_gt N D HD).
        rewrite <- Hm in *. pose proof (pow2_pos (e + 1074) Ht) as HP.
        pose proof (Z.log2_nonneg m).
        rewrite <- Z.add_succ_l, (Z.pow_add_r 2 (Z.log2 m)), (Z.pow_add_r 2 (Z.succ _)) by lia.
        set (P := 2 ^ (e + 1074)) in *. clearbody P.
        split; [apply Z.div_le_lower_bound; [assumption|]|apply Z.div_lt_upper_bound; [assumption|]].
        - rewrite Z.mul_assoc. apply Z.mul_le_mono_pos_r; nia.
        - rewrite Z.mul_assoc. apply Z.mul_lt_mono_pos_r; nia. }
      rewrite Hlog. lia.
  - rewrite (Z.max_l 0 (e + 1074)), (Z.max_r 0 (- (e + 1074))), Z.mul_1_r by lia.
    pose proof (pow2_pos (- (e + 1074)) ltac:(lia)). rewrite <- Z.div_div, <- Hm by lia.
    destruct (Z.eq_dec m 0) as [Hm0|Hm0].
    + rewrite Hm0. change (Zdigits2 0) with 0. rewrite Z.div_0_l by (apply Z.pow_nonzero; lia).
      cbn. lia.
    + rewrite Zdigits2_nonneg_log2 by lia.
      rewrite <- Z.shiftr_div_pow2, Z.log2_shiftr by lia. lia.
Qed.

Lemma binary_round_aux_spec s m e l N D :
  0 < D -> 0 <= N -> loc_spec m l N D -> e <= fexp prec emax (Zdigits2 m + e) ->
  let r := binary_round_aux prec emax s m e l in
  valid_binary prec emax r = true /\ is_nan_sf r = false /\
  SV r = cond_Zopp s (cap (rnd (N * 2 ^ (Z.max 0 (e + 1074))) (D * 2 ^ (Z.max 0 (- (e + 1074)))))).
Proof.
  intros HD HN Hl He. unfold binary_round_aux.
  assert (Hm : m = N / D) by apply Hl.
  assert (Hm0 : 0 <= m) by (subst; apply Z.div_pos; lia).
  pose proof (shr_fexp_spec _ _ _ _ _ HD Hm0 Hl He) as Hs.
  pose proof (rnd_exp_mantissa _ _ _ _ HD HN Hm He) as HE.
  destruct (shr_fexp prec emax m e l) as [mrs e1].
  destruct Hs as (He1 & Hm1 & Hs). rewrite <- He1 in HE, He.
  assert (Hlo : -1074 <= e1) by (rewrite He1, fexp_eq; lia).
  pose proof (pow2_pos (e1 - e) ltac:(lia)).
  assert (HD' : 0 < D * 2 ^ (e1 - e)) by nia.
  rewrite (shr_round_rne _ _ _ HD' Hs).
  set (num := N * 2 ^ Z.max 0 (e + 1074)) in *.
  set (den := D * 2 ^ Z.max 0 (- (e + 1074))) in *.
  pose proof (pow2_pos (Z.max 0 (e + 1074)) ltac:(lia)).
  pose proof (pow2_pos (Z.max 0 (- (e + 1074))) ltac:(lia)).
  assert (Hden : 0 < den) by (unfold den; nia).
  assert (Hk : rne N (D * 2 ^ (e1 - e)) = rne num (den * 2 ^ (e1 + 1074))).
  { pose proof (pow2_pos (e1 + 1074) ltac:(lia)).
    apply rne_ratio; [nia|nia|]. unfold num, den.
    assert (HAB : 2 ^ Z.max 0 (- (e + 1074)) * 2 ^ (e1 + 1074) =
                  2 ^ Z.max 0 (e + 1074) * 2 ^ (e1 - e))
      by (rewrite <- !Z.pow_add_r by lia; f_equal; lia).
    transitivity (N * D * (2 ^ Z.max 0 (- (e + 1074)) * 2 ^ (e1 + 1074))); [ring|].
    rewrite HAB. ring. }
  rewrite Hk.
  assert (Hr : rnd num den = rne num (den * 2 ^ (e1 + 1074)) * 2 ^ (e1 + 1074))
    by (unfold rnd; rewrite <- HE; reflexivity).
  pose proof (pow2_pos (e1 + 1074) ltac:(lia)) as Hp.
  pose proof (rnd_upper num den Hden) as Hup. pose proof (rnd_lower num den Hden) as Hlow.
  rewrite <- HE, Hr in Hup, Hlow. rewrite (Z.pow_add_r 2 53) in Hup by lia. rewrite (Z.pow_add_r 2 52) in Hlow by lia.
  apply Z.mul_le_mono_pos_r in Hup; [|assumption].
  rewrite Hr. set (k := rne num _) in *.
  assert (Hk0 : 0 <= k <= 2 ^ 53).
  { split; [|exact Hup]. pose proof (rne_bounds num (den * 2 ^ (e1 + 1074)) ltac:(nia)).
    enough (0 <= num / (den * 2 ^ (e1 + 1074))) by (unfold k; lia).
    apply Z.div_pos; [unfold num; nia|nia]. }
  pose proof (pack_spec s k e1 Hk0 Hlo) as Hpack.
  destruct (shr_fexp prec emax k e1 loc_Exact). apply Hpack.
  intros. specialize (Hlow ltac:(lia)). apply Z.mul_le_mono_pos_r in Hlow; assumption.
Qed.

(** ** The arithmetic operations *)

Lemma iter_xO_spec d m : Zpos (Pos.iter xO m d) = Zpos m * 2 ^ Zpos d.
Proof.
  induction d as [|d IH] using Pos.peano_ind; [cbn; lia|].
  rewrite Pos.iter_succ, Pos2Z.inj_xO, IH, Pos2Z.inj_succ, Z.pow_succ_r by lia. lia.
Qed.

Lemma shl_align_spec m e e' :
  let '(m', e1) := shl_align m e e' in
  e1 = Z.min e e' /\ Zpos m' = Zpos m * 2 ^ (e - e1).
Proof.
  unfold shl_align. destruct (e' - e) as [|p|p] eqn:H.
  - split; [lia|]. rewrite Z.sub_diag. lia.
  - split; [lia|]. rewrite Z.sub_diag. lia.
  - split; [lia|]. rewrite iter_xO_spec. do 2 f_equal. lia.
Qed.

Lemma shl_align_fst m e e' :
  e' <= e -> Zpos (fst (shl_align m e e')) = Zpos m * 2 ^ (e - e').
Proof.
  intros. pose proof (shl_align_spec m e e') as Hs. destruct (shl_align m e e') as [m' e1].
  destruct Hs as [He Hm]. cbn [fst]. rewrite Hm, He. do 2 f_equal. lia.
Qed.

(** Rounding of a signed exact value in units of [2^-1074]. *)
Definition rndZ (z : Z) : Z := Z.sgn z * cap (rnd (Z.abs z) 1).

Lemma cap_nonneg v : 0 <= v -> 0 <= cap v.
Proof. intros. unfold cap. pose proof (pow2_pos 2098 ltac:(lia)). lia. Qed.

Lemma rndZ_nonneg z : 0 <= z -> rndZ z = cap (rnd z 1).
Proof.
  intros. unfold rndZ. rewrite Z.abs_eq by assumption.
  destruct (Z.eq_dec z 0) as [->|]; [reflexivity|]. rewrite Z.sgn_pos by lia. lia.
Qed.

Lemma rndZ_opp z : rndZ (- z) = - rndZ z.
Proof. unfold rndZ. rewrite Z.sgn_opp, Z.abs_opp. lia. Qed.

Lemma rndZ_mono a b : a <= b -> rndZ a <= rndZ b.
Proof.
  assert (Hpos : forall a b, 0 <= a -> a <= b -> rndZ a <= rndZ b).
  { intros. rewrite !rndZ_nonneg by lia. apply cap_mono, rnd_mono; lia. }
  assert (H0 : rndZ 0 = 0) by reflexivity.
  intros Hab. destruct (Z.le_gt_cases 0 a); [auto|]. destruct (Z.le_gt_cases b 0).
  - rewrite <- (Z.opp_involutive a), <- (Z.opp_involutive b), (rndZ_opp (- a)), (rndZ_opp (- b)).
    specialize (Hpos (- b) (- a) ltac:(lia) ltac:(lia)). lia.
  - pose proof (Hpos 0 b ltac:(lia) ltac:(lia)). pose proof (Hpos 0 (- a) ltac:(lia) ltac:(lia)) as Hn.
    rewrite rndZ_opp in Hn. lia.
Qed.

Lemma binary_round_spec s m e :
  let r := binary_round prec emax s m e in
  -1074 <= e ->
  valid_binary prec emax r = true /\ is_nan_sf r = false /\
  SV r = cond_Zopp s (cap (rnd (Zpos m * 2 ^ (e + 1074)) 1)).
Proof.
  cbn zeta. intros He. unfold binary_round.
  set (e' := fexp prec emax _).
  pose proof (shl_align_spec m e e') as Hs. destruct (shl_align m e e') as [mz ez].
  destruct Hs as [Hez Hmz].
  assert (He' : -1074 <= e') by (unfold e'; rewrite fexp_eq; lia).
  assert (Hlog : Z.log2 (Zpos mz) = Z.log2 (Zpos m) + (e - ez))
    by (rewrite Hmz, Z.log2_mul_pow2 by lia; lia).
  assert (Hle : ez <= fexp prec emax (Zdigits2 (Zpos mz) + ez)).
  { rewrite Zdigits2_nonneg_log2, Hlog by lia.
    replace (Z.log2 (Zpos m) + (e - ez) + 1 + ez) with (Z.log2 (Zpos m) + 1 + e) by lia.
    unfold e' in Hez. rewrite digits2_pos_log2 in Hez. lia. }
  destruct (binary_round_aux_spec s (Zpos mz) ez loc_Exact (Zpos mz) 1) as (Hv & Hn & HS);
    [lia|lia| |exact Hle|].
  { split; [symmetry; apply Z.div_1_r|]. rewrite Z.mod_1_r. reflexivity. }
  split; [exact Hv|split; [exact Hn|]]. rewrite HS.
  rewrite (Z.max_r 0 (ez + 1074)), (Z.max_l 0 (- _)), Z.mul_1_r by lia.
  rewrite Hmz, <- Z.mul_assoc, <- Z.pow_add_r by lia. do 4 f_equal. f_equal. lia.
Qed.

Lemma binary_normalize_spec z e s0 :
  -1074 <= e ->
  let r := binary_normalize prec emax z e s0 in
  valid_binary prec emax r = true /\ is_nan_sf r = false /\ SV r = rndZ (z * 2 ^ (e + 1074)).
Proof.
  intros He. pose proof (pow2_pos (e + 1074) ltac:(lia)) as HP. destruct z as [|p|p]; cbn [binary_normalize].
  - repeat split.
  - destruct (binary_round_spec false p e He) as (Hv & Hn & HS).
    split; [exact Hv|split; [exact Hn|]]. rewrite HS. symmetry. apply rndZ_nonneg. nia.
  - destruct (binary_round_spec true p e He) as (Hv & Hn & HS).
    split; [exact Hv|split; [exact Hn|]]. rewrite HS. cbn [cond_Zopp].
    replace (Zneg p * 2 ^ (e + 1074)) with (- (Zpos p * 2 ^ (e + 1074))) by lia.
    rewrite rndZ_opp, rndZ_nonneg by nia. reflexivity.
Qed.

Definition is_inf_sf (x : spec_float) : bool :=
  match x with S754_infinity _ => true | _ => false end.

Definition is_fin_sf (x : spec_float) : bool := negb (is_nan_sf x) && negb (is_inf_sf x).

(** Aligning a finite number to a smaller exponent keeps its value. *)
Lemma align_SV s m e ez :
  -1074 <= ez <= e ->
  cond_Zopp s (Zpos (fst (shl_align m e ez))) * 2 ^ (ez + 1074) = SV (S754_finite s m e).
Proof.
  intros. rewrite shl_align_fst by lia. cbn [SV].
  replace (e + 1074) with ((e - ez) + (ez + 1074)) by lia.
  rewrite (Z.pow_add_r 2 (e - ez)) by lia. destruct s; cbn [cond_Zopp]; ring.
Qed.

(** A valid float is a fixed point of rounding. *)
Lemma rndZ_SV x : valid_binary prec emax x = true -> rndZ (SV x) = SV x.
Proof.
  assert (HI : rndZ (2 ^ 2098) = 2 ^ 2098).
  { rewrite rndZ_nonneg by (apply Z.pow_nonneg; lia).
    rewrite <- (Z.mul_1_l (2 ^ 2098)) at 1. rewrite rnd_repr by lia. unfold cap. lia. }
  assert (HF : forall m e, bounded prec emax m e = true ->
     rndZ (Zpos m * 2 ^ (e + 1074)) = Zpos m * 2 ^ (e + 1074)).
  { intros m e Hb. pose proof (bounded_lt _ _ Hb). apply bounded_spec in Hb.
    pose proof (SV_finite_pos m e ltac:(lia)).
    rewrite rndZ_nonneg, rnd_repr by lia. unfold cap. lia. }
  destruct x as [s|s| |s m e]; intros Hv; [reflexivity| |reflexivity|];
    cbn [SV]; destruct s; cbn [cond_Zopp];
    [rewrite rndZ_opp, HI|rewrite HI|rewrite rndZ_opp, HF by exact Hv|rewrite HF by exact Hv];
    reflexivity.
Qed.

Lemma SFadd_spec x y :
  valid_binary prec emax x = true -> valid_binary prec emax y = true ->
  is_fin_sf x = true -> is_fin_sf y = true ->
  let r := SFadd prec emax x y in
  valid_binary prec emax r = true /\ is_nan_sf r = false /\ SV r = rndZ (SV x + SV y).
Proof.
  intros Hx Hy. destruct x as [sx|sx| |sx mx ex], y as [sy|sy| |sy my ey]; try discriminate; intros _ _.
  - destruct sx, sy; repeat split.
  - cbn [SFadd]. split; [exact Hy|split; [reflexivity|]].
    change (SV (S754_zero sx)) with 0. rewrite Z.add_0_l, rndZ_SV; auto.
  - cbn [SFadd]. split; [exact Hx|split; [reflexivity|]].
    change (SV (S754_zero sy)) with 0. rewrite Z.add_0_r, rndZ_SV; auto.
  - cbn [SFadd]. cbn [valid_binary] in Hx, Hy. apply bounded_spec in Hx, Hy.
    rewrite <- (align_SV sx mx ex (Z.min ex ey)), <- (align_SV sy my ey (Z.min ex ey)) by lia.
    rewrite <- Z.mul_add_distr_r. apply binary_normalize_spec. lia.
Qed.

Lemma SFsub_spec x y :
  valid_binary prec emax x = true -> valid_binary prec emax y = true ->
  is_fin_sf x = true -> is_fin_sf y = true ->
  let r := SFsub prec emax x y in
  valid_binary prec emax r = true /\ is_nan_sf r = false /\ SV r = rndZ (SV x - SV y).
Proof.
  intros Hx Hy. destruct x as [sx|sx| |sx mx ex], y as [sy|sy| |sy my ey]; try discriminate; intros _ _.
  - destruct sx, sy; repeat split.
  - cbn [SFsub]. split; [exact Hy|split; [reflexivity|]].
    change (SV (S754_zero sx)) with 0. rewrite Z.sub_0_l, rndZ_opp, rndZ_SV by assumption.
    cbn [SV]. destruct sy; cbn [negb cond_Zopp]; lia.
  - cbn [SFsub]. split; [exact Hx|split; [reflexivity|]].
    change (SV (S754_zero sy)) with 0. rewrite Z.sub_0_r, rndZ_SV; auto.
  - cbn [SFsub]. cbn [valid_binary] in Hx, Hy. apply bounded_spec in Hx, Hy.
    rewrite <- (align_SV sx mx ex (Z.min ex ey)), <- (align_SV sy my ey (Z.min ex ey)) by lia.
    rewrite <- Z.mul_sub_distr_r. apply binary_normalize_spec. lia.
Qed.

Lemma rnd_ratio n1 d1 n2 d2 :
  0 < d1 -> 0 < d2 -> n1 * d2 = n2 * d1 -> rnd n1 d1 = rnd n2 d2.
Proof. intros. apply Z.le_antisymm; apply rnd_mono; lia. Qed.

Lemma round_zero s d : 0 < d -> cond_Zopp s (cap (rnd 0 d)) = 0.
Proof. intros. rewrite (rnd_ratio 0 d 0 1) by lia. destruct s; reflexivity. Qed.

(** Two ways of writing [x * 2^e] as a fraction of units. *)
Lemma rnd_scale N D e A B :
  0 < D -> 0 < B -> -2148 <= e -> N * 2 ^ (e + 2148) * B = A * (D * 2 ^ 1074) ->
  rnd (N * 2 ^ (Z.max 0 (e + 1074))) (D * 2 ^ (Z.max 0 (- (e + 1074)))) = rnd A B.
Proof.
  intros HD HB He H.
  pose proof (pow2_pos (Z.max 0 (e + 1074)) ltac:(lia)).
  pose proof (pow2_pos (Z.max 0 (- (e + 1074))) ltac:(lia)).
  pose proof (pow2_pos 1074 ltac:(lia)) as HP.
  apply rnd_ratio; [nia|assumption|].
  apply (Z.mul_cancel_r _ _ (2 ^ 1074)); [lia|].
  assert (Hexp : 2 ^ Z.max 0 (e + 1074) * 2 ^ 1074 = 2 ^ (e + 2148) * 2 ^ Z.max 0 (- (e + 1074)))
    by (rewrite <- !Z.pow_add_r by lia; f_equal; lia).
  transitivity (N * B * (2 ^ Z.max 0 (e + 1074) * 2 ^ 1074)); [ring|].
  rewrite Hexp. transitivity (N * 2 ^ (e + 2148) * B * 2 ^ Z.max 0 (- (e + 1074))); [ring|].
  rewrite H. ring.
Qed.

Lemma SV_abs_finite s m e : -1074 <= e -> Z.abs (SV (S754_finite s m e)) = Zpos m * 2 ^ (e + 1074).
Proof.
  intros. pose proof (SV_finite_pos m e ltac:(assumption)).
  cbn [SV]. destruct s; cbn [cond_Zopp]; lia.
Qed.

Definition sign_sf (x : spec_float) : bool :=
  match x with
  | S754_zero s | S754_infinity s | S754_finite s _ _ => s
  | S754_nan => false
  end.

Lemma bounded_log m e :
  bounded prec emax m e = true -> Z.log2 (Zpos m) <= 52 /\ (e > -1074 -> Z.log2 (Zpos m) = 52).
Proof.
  intros (He & Hm & Hn)%bounded_spec.
  assert (Z.log2 (Zpos m) < 53) by (apply Z.log2_lt_pow2; lia).
  split; [lia|]. intros H'. specialize (Hn H').
  pose proof (Z.log2_le_mono _ _ Hn) as Hl. rewrite Z.log2_pow2 in Hl by lia. lia.
Qed.

Lemma SFmul_spec x y :
  valid_binary prec emax x = true -> valid_binary prec emax y = true ->
  is_fin_sf x = true -> is_fin_sf y = true ->
  let r := SFmul prec emax x y in
  valid_binary prec emax r = true /\ is_nan_sf r = false /\
  SV r = cond_Zopp (xorb (sign_sf x) (sign_sf y)) (cap (rnd (Z.abs (SV x) * Z.abs (SV y)) (2 ^ 1074))).
Proof.
  intros Hx Hy. destruct x as [sx|sx| |sx mx ex], y as [sy|sy| |sy my ey]; try discriminate; intros _ _;
    try (split; [reflexivity|split; [reflexivity|]]; cbn [SFmul SV sign_sf Z.abs];
         rewrite ?Z.mul_0_l, ?Z.mul_0_r; symmetry; apply round_zero, pow2_pos; lia).
  cbn [valid_binary SFmul sign_sf] in *. pose proof (bounded_log _ _ Hx) as [Lx Lx'].
  pose proof (bounded_log _ _ Hy) as [Ly Ly'].
  apply bounded_spec in Hx, Hy. rewrite !SV_abs_finite by lia.
  pose proof (Z.log2_nonneg (Zpos mx)). pose proof (Z.log2_nonneg (Zpos my)).
  pose proof (Z.log2_mul_below (Zpos mx) (Zpos my) ltac:(lia) ltac:(lia)) as Hlo.
  destruct (binary_round_aux_spec (xorb sx sy) (Zpos (mx * my)) (ex + ey) loc_Exact (Zpos (mx * my)) 1)
    as (Hv & Hn & HS).
  - lia.
  - lia.
  - split; [symmetry; apply Z.div_1_r|]. rewrite Z.mod_1_r. reflexivity.
  - rewrite Zdigits2_nonneg_log2, fexp_eq by lia. rewrite Pos2Z.inj_mul. lia.
  - split; [exact Hv|split; [exact Hn|]]. rewrite HS. do 2 f_equal.
    apply rnd_scale; [lia|apply pow2_pos; lia|lia|].
    replace (ex + ey + 2148) with ((ex + 1074) + (ey + 1074)) by lia.
    rewrite Z.pow_add_r by lia. rewrite Pos2Z.inj_mul. ring.
Qed.

Lemma new_location_spec D k :
  0 < D -> 0 <= k < D ->
  new_location D k = (if k =? 0 then loc_Exact else loc_Inexact (2 * k ?= D)).
Proof.
  intros HD Hk. unfold new_location. destruct (Z.even D) eqn:He; [reflexivity|].
  unfold new_location_odd. destruct (Z.eqb_spec k 0); [reflexivity|]. f_equal.
  assert (2 * k <> D) by (intros <-; rewrite Z.even_mul in He; discriminate).
  destruct (Z.compare_spec (2 * k + 1) D), (Z.compare_spec (2 * k) D); try reflexivity; lia.
Qed.

Lemma SFdiv_spec x y :
  valid_binary prec emax x = true -> valid_binary prec emax y = true ->
  is_fin_sf x = true -> is_fin_sf y = true -> SV y <> 0 ->
  let r := SFdiv prec emax x y in
  valid_binary prec emax r = true /\ is_nan_sf r = false /\
  SV r = cond_Zopp (xorb (sign_sf x) (sign_sf y)) (cap (rnd (Z.abs (SV x) * 2 ^ 1074) (Z.abs (SV y)))).
Proof.
  intros Hx Hy. destruct x as [sx|sx| |sx mx ex], y as [sy|sy| |sy my ey]; try discriminate;
    intros _ _ HSy; try (cbn [SV] in HSy; lia).
  { split; [reflexivity|split; [reflexivity|]]. cbn [SFdiv SV sign_sf Z.abs].
    rewrite Z.mul_0_l. symmetry. apply round_zero. cbn [SV] in HSy. lia. }
  cbn [valid_binary SFdiv sign_sf] in *.
  apply bounded_spec in Hx, Hy. rewrite !SV_abs_finite by lia.
  unfold SFdiv_core_binary. rewrite !Zdigits2_nonneg_log2 by lia.
  set (f := fexp prec emax _). set (e' := Z.min f (ex - ey)).
  assert (Hf : f = Z.max (Z.log2 (Zpos mx) + 1 + ex - (Z.log2 (Zpos my) + 1 + ey) - 53) (-1074))
    by reflexivity.
  assert (Hm' : match ex - ey - e' with
                | Z0 => Zpos mx | Zpos _ => Z.shiftl (Zpos mx) (ex - ey - e') | Zneg _ => 0 end
              = Zpos mx * 2 ^ (ex - ey - e')).
  { destruct (ex - ey - e') eqn:Hs; [lia| |lia]. rewrite Z.shiftl_mul_pow2; lia. }
  rewrite Hm'. set (s := ex - ey - e') in *. assert (Hs0 : 0 <= s) by lia.
  pose proof (pow2_pos s Hs0). set (N := Zpos mx * 2 ^ s) in *.
  assert (HN : 0 < N) by (unfold N; lia).
  pose proof (Z.mod_pos_bound N (Zpos my) ltac:(lia)) as Hr.
  assert (Hde : Z.div_eucl N (Zpos my) = (N / Zpos my, N mod Zpos my))
    by (unfold Z.div, Z.modulo; destruct (Z.div_eucl N (Zpos my)); reflexivity).
  rewrite Hde, new_location_spec by lia.
  pose proof (Z.log2_nonneg (Zpos mx)). pose proof (Z.log2_nonneg (Zpos my)).
  assert (Hlq : Z.log2 (Zpos mx) + s - Z.log2 (Zpos my) <= Zdigits2 (N / Zpos my)).
  { destruct (Z.eq_dec (N / Zpos my) 0) as [Hz|Hz].
    - rewrite Hz. cbn [Zdigits2]. apply Z.div_small_iff in Hz; [|lia].
      destruct Hz as [Hz|Hz]; [|lia].
      pose proof (Z.log2_le_mono N (Zpos my) ltac:(lia)) as Hl.
      unfold N in Hl. rewrite Z.log2_mul_pow2 in Hl by lia. lia.
    - assert (0 < N / Zpos my) by (pose proof (Z.div_pos N (Zpos my) ltac:(lia) ltac:(lia)); lia).
      rewrite Zdigits2_nonneg_log2 by assumption.
      set (q := N / Zpos my) in *. pose proof (Z.log2_nonneg q).
      pose proof (Z.log2_spec q ltac:(lia)) as [_ Hq].
      pose proof (Z.mul_succ_div_gt N (Zpos my) ltac:(lia)) as Hgt. fold q in Hgt.
      pose proof (Z.log2_le_mono N (Zpos my * 2 ^ Z.succ (Z.log2 q)) ltac:(nia)) as HlN.
      rewrite Z.log2_mul_pow2 in HlN by lia.
      unfold N in HlN. rewrite Z.log2_mul_pow2 in HlN by lia. lia. }
  destruct (binary_round_aux_spec (xorb sx sy) (N / Zpos my) e' 
     (if N mod Zpos my =? 0 then loc_Exact else loc_Inexact (2 * (N mod Zpos my) ?= Zpos my))
     N (Zpos my)) as (Hv & Hn & HS); [lia|lia|split; reflexivity| |].
  - rewrite fexp_eq. lia.
  - split; [exact Hv|split; [exact Hn|]]. rewrite HS. do 2 f_equal.
    apply rnd_scale; [lia|apply SV_finite_pos; lia|lia|].
    unfold N. 
    assert (Hexp : 2 ^ s * 2 ^ (e' + 2148) * 2 ^ (ey + 1074) = 2 ^ (ex + 1074) * 2 ^ 1074 * 2 ^ 1074)
      by (rewrite <- !Z.pow_add_r by lia; f_equal; lia).
    transitivity (Zpos mx * Zpos my * (2 ^ s * 2 ^ (e' + 2148) * 2 ^ (ey + 1074))); [ring|].
    rewrite Hexp. ring.
Qed.

(** ** The type [float64] *)

Record float64 : Type := F64 { sf : spec_float; sf_valid : valid_binary prec emax sf = true }.

(** Packs a [spec_float]; every operation below yields a valid one, and
    [sf_of_sf] then says that packing changes nothing. *)
Definition of_sf (x : spec_float) : float64 :=
  match valid_binary prec emax x as b return valid_binary prec emax x = b -> float64 with
  | true => fun H => F64 x H
  | false => fun _ => F64 S754_nan eq_refl
  end eq_refl.

Lemma sf_of_sf x : valid_binary prec emax x = true -> sf (of_sf x) = x.
Proof.
  intros H. unfold of_sf. generalize (eq_refl (valid_binary prec emax x)).
  destruct (valid_binary prec emax x) at 2 3; [reflexivity|congruence].
Qed.

Lemma float64_eq x y : sf x = sf y -> x = y.
Proof.
  destruct x as [a Ha], y as [b Hb]; intros E; cbn in E; subst b. f_equal. apply UIP_dec, bool_dec.
Qed.

#[export] Instance spec_float_eq_dec : EqDecision spec_float.
Proof. solve_decision. Defined.

#[export] Instance float64_eq_dec : EqDecision float64.
Proof.
  intros x y. destruct (decide (sf x = sf y)) as [H|H].
  - left. apply float64_eq, H.
  - right. congruence.
Defined.

Definition fadd (x y : float64) : float64 := of_sf (SFadd prec emax (sf x) (sf y)).
Definition fsub (x y : float64) : float64 := of_sf (SFsub prec emax (sf x) (sf y)).
Definition fmul (x y : float64) : float64 := of_sf (SFmul prec emax (sf x) (sf y)).
Definition fdiv (x y : float64) : float64 := of_sf (SFdiv prec emax (sf x) (sf y)).

Definition fltb (x y : float64) : bool := SFltb (sf x) (sf y).
Definition fleb (x y : float64) : bool := SFleb (sf x) (sf y).
Definition feqb (x y : float64) : bool := SFeqb (sf x) (sf y).

(** [float64(z)] for an integer [z]. *)
Definition of_Z (z : Z) : float64 := of_sf (binary_normalize prec emax z 0 false).

(** [int(x)]: truncation towards zero of a finite number; Go leaves the result
    of converting a NaN, an infinity or an out-of-range value unspecified. *)
Definition to_int (x : float64) : Z :=
  match sf x with
  | S754_finite s m e => cond_Zopp s (Z.shiftl (Zpos m) e)
  | _ => 0
  end.

Definition f_inf : float64 := F64 (S754_infinity false) eq_refl.   (* math.Inf(1) *)
Definition f0 : float64 := F64 (S754_zero false) eq_refl.

Definition is_nan (x : float64) : bool := is_nan_sf (sf x).
Definition is_pinf (x : float64) : bool :=                          (* math.IsInf(x, 1) *)
  match sf x with S754_infinity false => true | _ => false end.
Definition is_ninf (x : float64) : bool :=
  match sf x with S754_infinity true => true | _ => false end.
Definition is_fin (x : float64) : bool := is_fin_sf (sf x).

(** [math.Max] and [math.Min] with their special cases. *)
Definition fmax (x y : float64) : float64 :=
  if is_pinf x || is_pinf y then f_inf
  else if is_nan x || is_nan y then F64 S754_nan eq_refl
  else match sf x, sf y with
       | S754_zero sx, S754_zero _ => if sx then y else x
       | _, _ => if fltb y x then x else y
       end.

Definition fmin (x y : float64) : float64 :=
  if is_ninf x || is_ninf y then F64 (S754_infinity true) eq_refl
  else if is_nan x || is_nan y then F64 S754_nan eq_refl
  else match sf x, sf y with
       | S754_zero sx, S754_zero _ => if sx then x else y
       | _, _ => if fltb x y then x else y
       end.

Declare Scope f64_scope.
Delimit Scope f64_scope with f64.
Bind Scope f64_scope with float64.
Infix "+" := fadd : f64_scope.
Infix "-" := fsub : f64_scope.
Infix "*" := fmul : f64_scope.
Infix "/" := fdiv : f64_scope.
Infix "<?" := fltb (at level 70) : f64_scope.
Infix "<=?" := fleb (at level 70) : f64_scope.
Notation "x >? y" := (fltb y x) (at level 70, only parsing) : f64_scope.
Notation "x >=? y" := (fleb y x) (at level 70, only parsing) : f64_scope.

(** The Go constant [n/d] converted to [float64]: both integers are exact, so
    the division rounds the rational once, as the compiler does. *)
Definition f_const (n d : Z) : float64 := (of_Z n / of_Z d)%f64.

(** ** Values and order *)

Definition INF : Z := 2 ^ 2098.
Definition fv (x : float64) : Z := SV (sf x).

Lemma INF_pos : 0 < INF.
Proof. apply pow2_pos. lia. Qed.

Lemma fv_bound x : - INF <= fv x <= INF.
Proof.
  pose proof INF_pos. unfold fv. destruct x as [[s|s| |s m e] Hv]; cbn [sf].
  - cbn; lia.
  - change (- INF <= cond_Zopp s INF <= INF). destruct s; cbn [cond_Zopp]; lia.
  - cbn; lia.
  - cbn [valid_binary] in Hv. pose proof (bounded_lt _ _ Hv) as Hb.
    change (2 ^ 2098) with INF in Hb. apply bounded_spec in Hv.
    pose proof (SV_finite_pos m e ltac:(lia)). cbn [SV]. destruct s; cbn [cond_Zopp]; lia.
Qed.

(** [num x]: a number (not NaN); [nn x]: a number at least zero, possibly
    [+Inf]; [nnf x]: a finite one. *)
Definition num (x : float64) : Prop := is_nan x = false.
Definition nn (x : float64) : Prop := is_nan x = false /\ 0 <= fv x.
Definition nnf (x : float64) : Prop := is_fin x = true /\ 0 <= fv x.

Lemma fcompare_fv x y : num x -> num y -> SFcompare (sf x) (sf y) = Some (fv x ?= fv y).
Proof. intros. apply SFcompare_SV; auto using sf_valid. Qed.

Lemma fltb_nan_false x y : fltb x y = true -> num x /\ num y.
Proof.
  unfold fltb, SFltb, num, is_nan. destruct (sf x), (sf y); cbn; intuition discriminate.
Qed.

Lemma fltb_spec x y : fltb x y = true <-> num x /\ num y /\ fv x < fv y.
Proof.
  split.
  - intros H. destruct (fltb_nan_false _ _ H) as [Hx Hy]. repeat split; try assumption.
    unfold fltb, SFltb in H. rewrite fcompare_fv in H by assumption.
    destruct (Z.compare_spec (fv x) (fv y)); try discriminate; assumption.
  - intros (Hx & Hy & H). unfold fltb, SFltb. rewrite fcompare_fv by assumption.
    apply Z.compare_lt_iff in H. rewrite H. reflexivity.
Qed.

Lemma fleb_nan_false x y : fleb x y = true -> num x /\ num y.
Proof.
  unfold fleb, SFleb, num, is_nan. destruct (sf x), (sf y); cbn; intuition discriminate.
Qed.

Lemma fleb_spec x y : fleb x y = true <-> num x /\ num y /\ fv x <= fv y.
Proof.
  split.
  - intros H. destruct (fleb_nan_false _ _ H) as [Hx Hy]. repeat split; try assumption.
    unfold fleb, SFleb in H. rewrite fcompare_fv in H by assumption.
    destruct (Z.compare_spec (fv x) (fv y)); try discriminate; lia.
  - intros (Hx & Hy & H). unfold fleb, SFleb. rewrite fcompare_fv by assumption.
    destruct (Z.compare_spec (fv x) (fv y)); try reflexivity; lia.
Qed.

Lemma fltb_false x y : num x -> num y -> fltb x y = false -> fv y <= fv x.
Proof.
  intros Hx Hy H. destruct (Z.le_gt_cases (fv y) (fv x)) as [|Hlt]; [assumption|].
  assert (fltb x y = true) by (apply fltb_spec; auto). congruence.
Qed.

Lemma fleb_false x y : num x -> num y -> fleb x y = false -> fv y < fv x.
Proof.
  intros Hx Hy H. destruct (Z.lt_ge_cases (fv y) (fv x)) as [|Hle]; [assumption|].
  assert (fleb x y = true) by (apply fleb_spec; auto). congruence.
Qed.

Lemma is_pinf_spec x : is_pinf x = true <-> num x /\ fv x = INF.
Proof.
  pose proof INF_pos.
  unfold is_pinf, num, is_nan, fv. destruct x as [[s|s| |s m e] Hv]; cbn [sf is_nan_sf].
  - cbn. split; [discriminate|intros [_ H']; lia].
  - change (SV (S754_infinity s)) with (cond_Zopp s INF).
    destruct s; cbn [cond_Zopp]; split; intros H'; try discriminate; [lia|split; reflexivity|reflexivity].
  - split; [discriminate|intros [? _]; discriminate].
  - split; [discriminate|]. intros [_ H']. exfalso.
    cbn [valid_binary] in Hv. pose proof (bounded_lt _ _ Hv) as Hb. change (2 ^ 2098) with INF in Hb.
    apply bounded_spec in Hv. pose proof (SV_finite_pos m e ltac:(lia)).
    cbn [SV] in H'. destruct s; cbn [cond_Zopp] in H'; lia.
Qed.

Lemma is_fin_spec x : is_fin x = true <-> num x /\ - INF < fv x < INF.
Proof.
  pose proof INF_pos.
  unfold is_fin, is_fin_sf, num, is_nan, fv. destruct x as [[s|s| |s m e] Hv]; cbn [sf is_nan_sf is_inf_sf negb andb].
  - cbn. split; [intros _; split; [reflexivity|lia]|reflexivity].
  - change (SV (S754_infinity s)) with (cond_Zopp s INF).
    split; [discriminate|]. destruct s; cbn [cond_Zopp]; lia.
  - split; [discriminate|intros [? _]; discriminate].
  - split; [|reflexivity]. intros _. split; [reflexivity|].
    cbn [valid_binary] in Hv. pose proof (bounded_lt _ _ Hv) as Hb. change (2 ^ 2098) with INF in Hb.
    apply bounded_spec in Hv. pose proof (SV_finite_pos m e ltac:(lia)).
    cbn [SV]. destruct s; cbn [cond_Zopp]; lia.
Qed.

Lemma nnf_nn x : nnf x -> nn x.
Proof. intros [H ?]. apply is_fin_spec in H. split; [apply H|assumption]. Qed.

Lemma nn_num x : nn x -> num x.
Proof. intros [? ?]. assumption. Qed.

Lemma nn_cases x : nn x -> nnf x \/ sf x = S754_infinity false.
Proof.
  intros [Hn H0]. destruct (is_fin x) eqn:Hf; [left; split; assumption|right].
  unfold is_fin, is_fin_sf, is_nan, fv in *.
  pose proof INF_pos. destruct (sf x) as [s|s| |s m e]; cbn in *; try discriminate.
  destruct s; [|reflexivity]. change (2 ^ 2098) with INF in H0. cbn [cond_Zopp] in H0. lia.
Qed.

(** ** Laws of the operations on non-negative numbers *)

Lemma cap_INF v : INF <= v -> cap v = INF.
Proof. intros. unfold cap. fold INF. lia. Qed.

Lemma cap_le_INF v : cap v <= INF.
Proof. unfold cap. fold INF. lia. Qed.

Lemma rnd_INF v : INF <= v -> INF <= rnd v 1.
Proof.
  intros. unfold INF in *. rewrite <- (Z.mul_1_l (2 ^ 2098)).
  rewrite <- (rnd_repr 1 2098) by lia. apply rnd_mono; lia.
Qed.

Lemma sf_inf_nn x : sf x = S754_infinity false -> nn x /\ fv x = INF.
Proof.
  intros H. pose proof INF_pos. unfold nn, is_nan, fv. rewrite H.
  change (SV (S754_infinity false)) with INF. cbn. repeat split; lia.
Qed.

Lemma fadd_inf x y :
  nn x -> nn y -> sf x = S754_infinity false \/ sf y = S754_infinity false ->
  sf (x + y)%f64 = S754_infinity false.
Proof.
  intros Hx Hy H. pose proof INF_pos.
  assert (Hni : forall z, nn z -> sf z <> S754_infinity true /\ sf z <> S754_nan).
  { intros z [Hn Hz]. unfold is_nan, fv in *. split; intros E; rewrite E in *; [|discriminate].
    change (0 <= - INF) in Hz. lia. }
  destruct (Hni _ Hx) as [X1 X2], (Hni _ Hy) as [Y1 Y2]. unfold fadd.
  destruct H as [H|H]; rewrite H in *.
  - destruct (sf y) as [|[]| |]; try contradiction; reflexivity.
  - destruct (sf x) as [|[]| |]; try contradiction; reflexivity.
Qed.

Lemma fadd_nn x y : nn x -> nn y -> nn (x + y)%f64 /\ fv (x + y)%f64 = rndZ (fv x + fv y).
Proof.
  intros Hx Hy. pose proof INF_pos.
  assert (Hinf : sf x = S754_infinity false \/ sf y = S754_infinity false ->
     nn (x + y)%f64 /\ fv (x + y)%f64 = rndZ (fv x + fv y)).
  { intros H'. pose proof (sf_inf_nn _ (fadd_inf x y Hx Hy H')) as [Hnn ->]. split; [exact Hnn|].
    pose proof (proj2 Hx). pose proof (proj2 Hy).
    rewrite rndZ_nonneg, cap_INF; [reflexivity|apply rnd_INF|lia].
    destruct H' as [H'|H']; apply sf_inf_nn in H' as [_ ->]; lia. }
  destruct (nn_cases _ Hx) as [[Fx Px]|Ix]; [|auto].
  destruct (nn_cases _ Hy) as [[Fy Py]|Iy]; [|auto].
  destruct (SFadd_spec (sf x) (sf y)) as (Hv & Hn & HS); auto using sf_valid.
  unfold nn, is_nan, fv, fadd. rewrite !sf_of_sf by assumption.
  split; [split; [assumption|]|exact HS]. rewrite HS. fold (fv x) (fv y).
  replace 0 with (rndZ 0) by reflexivity. apply rndZ_mono. lia.
Qed.

Lemma fsub_fin x y : is_fin x = true -> is_fin y = true ->
  num (x - y)%f64 /\ fv (x - y)%f64 = rndZ (fv x - fv y).
Proof.
  intros Fx Fy. destruct (SFsub_spec (sf x) (sf y)) as (Hv & Hn & HS); auto using sf_valid.
  unfold num, is_nan, fv, fsub. rewrite !sf_of_sf by assumption. auto.
Qed.

Lemma nnf_sign x : nnf x -> 0 < fv x -> sign_sf (sf x) = false.
Proof.
  intros [Hf _]. unfold fv, is_fin in *. destruct x as [[s|s| |s m e] Hv]; cbn [sf sign_sf] in *;
    try discriminate; cbn [SV]; try lia.
  cbn [valid_binary] in Hv. apply bounded_spec in Hv.
  pose proof (SV_finite_pos m e ltac:(lia)). destruct s; cbn [cond_Zopp]; [lia|reflexivity].
Qed.

(** The sign of a product or quotient of non-negative finite numbers does not
    show in its value. *)
Lemma nnf_sign_value x y d v :
  nnf x -> nnf y -> 0 < d -> (fv x = 0 \/ fv y = 0 -> v = 0) ->
  cond_Zopp (xorb (sign_sf (sf x)) (sign_sf (sf y))) (cap (rnd v d)) = cap (rnd v d).
Proof.
  intros Hx Hy Hd H0. pose proof (proj2 Hx). pose proof (proj2 Hy).
  destruct (Z.eq_dec (fv x) 0), (Z.eq_dec (fv y) 0);
    try (rewrite H0 by auto; rewrite (rnd_ratio 0 d 0 1) by lia; destruct (xorb _ _); reflexivity).
  rewrite !nnf_sign by (assumption || lia). reflexivity.
Qed.

Lemma fmul_nnf x y : nnf x -> nnf y ->
  nn (x * y)%f64 /\ fv (x * y)%f64 = cap (rnd (fv x * fv y) (2 ^ 1074)).
Proof.
  intros Hx Hy. pose proof (pow2_pos 1074 ltac:(lia)) as HP.
  destruct (SFmul_spec (sf x) (sf y)) as (Hv & Hn & HS); auto using sf_valid; [apply Hx|apply Hy|].
  assert (Hr : sf (fmul x y) = SFmul prec emax (sf x) (sf y)) by (apply sf_of_sf; assumption).
  assert (Hfv : fv (fmul x y) = SV (SFmul prec emax (sf x) (sf y))) by (unfold fv; rewrite Hr; reflexivity).
  unfold nn, is_nan. rewrite Hfv, Hr, HS. fold (fv x) (fv y).
  rewrite !Z.abs_eq by (apply Hx || apply Hy). rewrite nnf_sign_value by (auto; intros [-> | ->]; lia).
  split; [split; [assumption|]|reflexivity].
  apply cap_nonneg, rnd_nonneg; [assumption|]. apply Z.mul_nonneg_nonneg; [apply Hx|apply Hy].
Qed.

Lemma fdiv_nnf x y : nnf x -> nnf y -> 0 < fv y ->
  nn (x / y)%f64 /\ fv (x / y)%f64 = cap (rnd (fv x * 2 ^ 1074) (fv y)).
Proof.
  intros Hx Hy H0. pose proof (pow2_pos 1074 ltac:(lia)) as HP.
  destruct (SFdiv_spec (sf x) (sf y)) as (Hv & Hn & HS); auto using sf_valid; [apply Hx|apply Hy|fold (fv y); lia|].
  assert (Hr : sf (fdiv x y) = SFdiv prec emax (sf x) (sf y)) by (apply sf_of_sf; assumption).
  assert (Hfv : fv (fdiv x y) = SV (SFdiv prec emax (sf x) (sf y))) by (unfold fv; rewrite Hr; reflexivity).
  unfold nn, is_nan. rewrite Hfv, Hr, HS. fold (fv x) (fv y).
  rewrite !Z.abs_eq by (apply Hx || apply Hy).
  rewrite nnf_sign_value by (auto; intros [-> | ?]; lia).
  split; [split; [assumption|]|reflexivity].
  apply cap_nonneg, rnd_nonneg; [assumption|]. apply Z.mul_nonneg_nonneg; [apply Hx|lia].
Qed.

Lemma fmul_inf x y : sf x = S754_infinity false -> nnf y -> 0 < fv y -> sf (x * y)%f64 = S754_infinity false.
Proof.
  intros Hx Hy H0. pose proof (nnf_sign _ Hy H0) as Hs. destruct Hy as [Hf _].
  unfold fmul, is_fin, fv in *. rewrite Hx. destruct (sf y); cbn in *; try discriminate; try lia.
  subst. reflexivity.
Qed.

Lemma fdiv_inf x y : sf x = S754_infinity false -> nnf y -> 0 < fv y -> sf (x / y)%f64 = S754_infinity false.
Proof.
  intros Hx Hy H0. pose proof (nnf_sign _ Hy H0) as Hs. destruct Hy as [Hf _].
  unfold fdiv, is_fin, fv in *. rewrite Hx. destruct (sf y); cbn in *; try discriminate; try lia.
  subst. reflexivity.
Qed.

Lemma nn_add x y : nn x -> nn y -> nn (x + y)%f64.
Proof. intros. apply fadd_nn; assumption. Qed.

Lemma nn_mul x y : nn x -> nnf y -> 0 < fv y -> nn (x * y)%f64.
Proof.
  intros Hx Hy H0. destruct (nn_cases _ Hx) as [Fx|Ix].
  - apply fmul_nnf; assumption.
  - apply sf_inf_nn, fmul_inf; assumption.
Qed.

Lemma nn_div x y : nn x -> nnf y -> 0 < fv y -> nn (x / y)%f64.
Proof.
  intros Hx Hy H0. destruct (nn_cases _ Hx) as [Fx|Ix].
  - apply fdiv_nnf; assumption.
  - apply sf_inf_nn, fdiv_inf; assumption.
Qed.

(** Monotonicity: rounding never reverses an inequality. *)
Lemma fadd_mono x x' y y' :
  nn x -> nn x' -> nn y -> nn y' -> fv x <= fv x' -> fv y <= fv y' -> fv (x + y)%f64 <= fv (x' + y')%f64.
Proof.
  intros Hx Hx' Hy Hy' H1 H2. rewrite (proj2 (fadd_nn x y Hx Hy)), (proj2 (fadd_nn x' y' Hx' Hy')).
  apply rndZ_mono. lia.
Qed.

Lemma fmul_mono_l x x' y :
  nn x -> nn x' -> nnf y -> 0 < fv y -> fv x <= fv x' -> fv (x * y)%f64 <= fv (x' * y)%f64.
Proof.
  intros Hx Hx' Hy H0 Hle. destruct (nn_cases _ Hx') as [Fx'|Ix'].
  - destruct (nn_cases _ Hx) as [Fx|Ix].
    + rewrite (proj2 (fmul_nnf x y Fx Hy)), (proj2 (fmul_nnf x' y Fx' Hy)).
      pose proof (pow2_pos 1074 ltac:(lia)). apply cap_mono, rnd_mono; nia.
    + apply sf_inf_nn in Ix. destruct Fx' as [Ff _]. apply is_fin_spec in Ff. lia.
  - pose proof (fmul_inf _ _ Ix' Hy H0) as Hi. apply sf_inf_nn in Hi as [_ ->]. apply fv_bound.
Qed.

Lemma fmul_mono_r x y y' :
  nnf x -> nnf y -> nnf y' -> fv y <= fv y' -> fv (x * y)%f64 <= fv (x * y')%f64.
Proof.
  intros Hx Hy Hy' Hle.
  rewrite (proj2 (fmul_nnf x y Hx Hy)), (proj2 (fmul_nnf x y' Hx Hy')).
  pose proof (pow2_pos 1074 ltac:(lia)). pose proof (proj2 Hx). apply cap_mono, rnd_mono; nia.
Qed.

Lemma fdiv_mono_l x x' y :
  nn x -> nn x' -> nnf y -> 0 < fv y -> fv x <= fv x' -> fv (x / y)%f64 <= fv (x' / y)%f64.
Proof.
  intros Hx Hx' Hy H0 Hle. destruct (nn_cases _ Hx') as [Fx'|Ix'].
  - destruct (nn_cases _ Hx) as [Fx|Ix].
    + rewrite (proj2 (fdiv_nnf x y Fx Hy H0)), (proj2 (fdiv_nnf x' y Fx' Hy H0)).
      pose proof (pow2_pos 1074 ltac:(lia)). apply cap_mono, rnd_mono; nia.
    + apply sf_inf_nn in Ix. destruct Fx' as [Ff _]. apply is_fin_spec in Ff. lia.
  - pose proof (fdiv_inf _ _ Ix' Hy H0) as Hi. apply sf_inf_nn in Hi as [_ ->]. apply fv_bound.
Qed.

Lemma fdiv_anti_r x y y' :
  nnf x -> nn y -> nn y' -> 0 < fv y <= fv y' -> fv (x / y')%f64 <= fv (x / y)%f64 /\ nn (x / y')%f64.
Proof.
  intros Hx Hy Hy' [H0 Hle]. pose proof (pow2_pos 1074 ltac:(lia)). pose proof (proj2 Hx).
  assert (Hzero : forall z, sf z = S754_infinity false -> fv (x / z)%f64 = 0 /\ nn (x / z)%f64).
  { intros z Hz. destruct Hx as [Hf _]. unfold nn, is_nan, fv, fdiv, is_fin in *. rewrite Hz in *.
    destruct (sf x) as [|[]| |]; cbn in *; try discriminate; repeat split; lia. }
  destruct (nn_cases _ Hy') as [Fy'|Iy'].
  - destruct (nn_cases _ Hy) as [Fy|Iy].
    + destruct (fdiv_nnf x y Hx Fy H0) as [_ ->].
      destruct (fdiv_nnf x y' Hx Fy' ltac:(lia)) as [Hnn ->].
      split; [|exact Hnn]. apply cap_mono, rnd_mono; nia.
    + apply sf_inf_nn in Iy. destruct Fy' as [Ff _]. apply is_fin_spec in Ff. lia.
  - destruct (Hzero _ Iy') as [-> Hnn]. split; [|exact Hnn].
    destruct (nn_cases _ Hy) as [Fy|Iy].
    + apply (fdiv_nnf x y Hx Fy H0).
    + destruct (Hzero _ Iy) as [-> _]. lia.
Qed.

Lemma fsub_mono x x' y y' :
  is_fin x = true -> is_fin x' = true -> is_fin y = true -> is_fin y' = true ->
  fv x <= fv x' -> fv y' <= fv y -> fv (x - y)%f64 <= fv (x' - y')%f64.
Proof.
  intros. rewrite (proj2 (fsub_fin x y ltac:(assumption) ltac:(assumption))).
  rewrite (proj2 (fsub_fin x' y' ltac:(assumption) ltac:(assumption))). apply rndZ_mono. lia.
Qed.

(** Adding a non-negative number does not decrease. *)
Lemma fadd_ge_l x y : nn x -> nn y -> fv x <= fv (x + y)%f64.
Proof.
  intros Hx Hy. rewrite (proj2 (fadd_nn x y Hx Hy)).
  rewrite <- (rndZ_SV (sf x)) at 1 by apply sf_valid. apply rndZ_mono.
  pose proof (proj2 Hy). unfold fv. fold (fv y). unfold fv in *. lia.
Qed.

(** ** Integers as floats *)

Lemma of_Z_spec z : num (of_Z z) /\ fv (of_Z z) = rndZ (z * 2 ^ 1074).
Proof.
  destruct (binary_normalize_spec z 0 false) as (Hv & Hn & HS); [lia|].
  unfold num, is_nan, fv, of_Z. rewrite sf_of_sf by assumption. auto.
Qed.

Lemma of_Z_small z : 0 <= z <= 2 ^ 53 -> nnf (of_Z z) /\ fv (of_Z z) = z * 2 ^ 1074.
Proof.
  intros Hz. destruct (of_Z_spec z) as [Hn HS].
  pose proof (pow2_pos 1074 ltac:(lia)) as HP.
  assert (Hlt : z * 2 ^ 1074 < INF).
  { unfold INF. replace 2098 with (1024 + 1074) by lia. rewrite (Z.pow_add_r 2 1024) by lia.
    apply Z.mul_lt_mono_pos_r; [assumption|]. eapply Z.le_lt_trans; [apply Hz|].
    apply Z.pow_lt_mono_r; lia. }
  rewrite rndZ_nonneg, rnd_repr in HS by nia.
  assert (HS' : fv (of_Z z) = z * 2 ^ 1074) by (rewrite HS; unfold cap; fold INF; lia).
  split; [|exact HS']. pose proof INF_pos. split; [apply is_fin_spec; split; [assumption|]|]; rewrite HS'; nia.
Qed.

Lemma of_Z_nn z : 0 <= z -> nn (of_Z z).
Proof.
  intros. destruct (of_Z_spec z) as [Hn HS]. split; [exact Hn|]. rewrite HS.
  pose proof (pow2_pos 1074 ltac:(lia)). replace 0 with (rndZ 0) by reflexivity. apply rndZ_mono. nia.
Qed.

Lemma of_Z_mono a b : a <= b -> fv (of_Z a) <= fv (of_Z b).
Proof.
  intros. rewrite (proj2 (of_Z_spec a)), (proj2 (of_Z_spec b)). apply rndZ_mono.
  pose proof (pow2_pos 1074 ltac:(lia)). nia.
Qed.

(** ** A magnitude calculus

    [below s x]: [x] is finite, non-negative and at most [2^s]. It is closed under
    the operations, so finiteness of an expression follows from bounds on its
    inputs. [above s x]: [x] is finite and at least [2^s]. *)

Definition below (s : Z) (x : float64) : Prop := nnf x /\ fv x <= 2 ^ (s + 1074).
Definition above (s : Z) (x : float64) : Prop := nnf x /\ 2 ^ (s + 1074) <= fv x.

Lemma rnd_le_pow2 n d t : 0 < d -> 0 <= t -> n <= d * 2 ^ t -> rnd n d <= 2 ^ t.
Proof.
  intros. rewrite <- (Z.mul_1_l (2 ^ t)), <- (rnd_repr 1 t) by lia. apply rnd_mono; lia.
Qed.

Lemma rnd_ge_pow2 n d t : 0 < d -> 0 <= t -> d * 2 ^ t <= n -> 2 ^ t <= rnd n d.
Proof.
  intros. rewrite <- (Z.mul_1_l (2 ^ t)), <- (rnd_repr 1 t) by lia. apply rnd_mono; lia.
Qed.

Lemma below_intro x s : nn x -> fv x <= 2 ^ (s + 1074) -> -1074 <= s < 1024 -> below s x.
Proof.
  intros [Hn H0] Hle Hs. split; [|assumption]. split; [|assumption].
  apply is_fin_spec. split; [assumption|]. pose proof INF_pos.
  assert (2 ^ (s + 1074) < INF) by (apply Z.pow_lt_mono_r; lia). lia.
Qed.

Lemma above_pos s x : above s x -> -1074 <= s -> 0 < fv x.
Proof. intros [_ H] Hs. pose proof (pow2_pos (s + 1074) ltac:(lia)). lia. Qed.

Lemma below_weaken s t x : below s x -> -1074 <= s <= t -> below t x.
Proof.
  intros [Hx H] Hs. split; [assumption|]. eapply Z.le_trans; [exact H|].
  apply Z.pow_le_mono_r; lia.
Qed.

Lemma below_add s t x y :
  below s x -> below t y -> -1074 <= s -> -1074 <= t -> Z.max s t + 1 < 1024 ->
  below (Z.max s t + 1) (x + y)%f64.
Proof.
  intros [Hx Bx] [Hy By] Hs Ht Hmax.
  destruct (fadd_nn x y (nnf_nn _ Hx) (nnf_nn _ Hy)) as [Hnn Hfv].
  apply below_intro; [assumption| |lia]. rewrite Hfv, rndZ_nonneg by (pose proof (proj2 Hx); pose proof (proj2 Hy); lia).
  unfold cap. apply Z.min_le_iff. right. apply rnd_le_pow2; [lia|lia|].
  replace (Z.max s t + 1 + 1074) with (1 + (Z.max s t + 1074)) by lia. rewrite Z.pow_add_r by lia.
  pose proof (Z.pow_le_mono_r 2 (s + 1074) (Z.max s t + 1074) ltac:(lia) ltac:(lia)).
  pose proof (Z.pow_le_mono_r 2 (t + 1074) (Z.max s t + 1074) ltac:(lia) ltac:(lia)). lia.
Qed.

Lemma below_mul s t x y :
  below s x -> below t y -> -1074 <= s -> -1074 <= t -> -1074 <= s + t < 1024 -> below (s + t) (x * y)%f64.
Proof.
  intros [Hx Bx] [Hy By] Hs Ht Hst. destruct (fmul_nnf x y Hx Hy) as [Hnn Hfv].
  apply below_intro; [assumption| |lia]. rewrite Hfv. unfold cap. apply Z.min_le_iff. right.
  apply rnd_le_pow2; [apply pow2_pos; lia|lia|]. rewrite <- Z.pow_add_r by lia.
  replace (1074 + (s + t + 1074)) with ((s + 1074) + (t + 1074)) by lia. rewrite Z.pow_add_r by lia.
  apply Z.mul_le_mono_nonneg; [apply Hx|assumption|apply Hy|assumption].
Qed.

Lemma below_div s t x y :
  below s x -> above t y -> -1074 <= s -> -1074 <= t -> -1074 <= s - t < 1024 -> below (s - t) (x / y)%f64.
Proof.
  intros [Hx Bx] Ay Hs Ht Hst. pose proof (above_pos _ _ Ay Ht) as H0. destruct Ay as [Hy By].
  destruct (fdiv_nnf x y Hx Hy H0) as [Hnn Hfv].
  apply below_intro; [assumption| |lia]. rewrite Hfv. unfold cap. apply Z.min_le_iff. right.
  apply rnd_le_pow2; [assumption|lia|].
  assert (HE : 2 ^ (s + 1074) * 2 ^ 1074 = 2 ^ (t + 1074) * 2 ^ (s - t + 1074))
    by (rewrite <- !Z.pow_add_r by lia; f_equal; lia).
  pose proof (pow2_pos 1074 ltac:(lia)). pose proof (pow2_pos (s - t + 1074) ltac:(lia)). nia.
Qed.

Lemma above_mul s t x y :
  above s x -> above t y -> -1074 <= s -> -1074 <= t -> -1074 <= s + t ->
  is_fin (x * y)%f64 = true -> above (s + t) (x * y)%f64.
Proof.
  intros [Hx Bx] [Hy By] Hs Ht Hst Hf. destruct (fmul_nnf x y Hx Hy) as [Hnn Hfv].
  split; [split; [assumption|apply Hnn]|].
  apply is_fin_spec in Hf as [_ Hf]. unfold cap in Hfv. fold INF in Hfv.
  enough (2 ^ (s + t + 1074) <= rnd (fv x * fv y) (2 ^ 1074)) by lia.
  apply rnd_ge_pow2; [apply pow2_pos; lia|lia|]. rewrite <- Z.pow_add_r by lia.
  replace (1074 + (s + t + 1074)) with ((s + 1074) + (t + 1074)) by lia. rewrite Z.pow_add_r by lia.
  pose proof (pow2_pos (s + 1074) ltac:(lia)). pose proof (pow2_pos (t + 1074) ltac:(lia)). nia.
Qed.

Lemma below_of_Z s z : 0 <= z <= 2 ^ s -> 0 <= s < 1024 -> below s (of_Z z).
Proof.
  intros Hz Hs. apply below_intro; [apply of_Z_nn; lia| |lia].
  rewrite (proj2 (of_Z_spec z)), rndZ_nonneg by (pose proof (pow2_pos 1074 ltac:(lia)); nia).
  unfold cap. apply Z.min_le_iff. right. apply rnd_le_pow2; [lia|lia|].
  rewrite Z.pow_add_r by lia. pose proof (pow2_pos 1074 ltac:(lia)). nia.
Qed.

Lemma above_of_Z z : 1 <= z <= 2 ^ 1000 -> above 0 (of_Z z).
Proof.
  intros Hz. assert (Hb : below 1000 (of_Z z)) by (apply below_of_Z; lia).
  split; [apply Hb|]. rewrite <- (Z.mul_1_l (2 ^ (0 + 1074))).
  change (0 + 1074) with 1074. rewrite <- (proj2 (of_Z_small 1 ltac:(lia))). apply of_Z_mono. lia.
Qed.

(** [int(x)] of a number that is not negative is its floor. *)
Lemma to_int_floor x : nnf x -> to_int x = fv x / 2 ^ 1074.
Proof.
  intros [Hf H0]. pose proof (pow2_pos 1074 ltac:(lia)) as HP. unfold to_int, fv, is_fin, is_fin_sf in *.
  destruct x as [[s|s| |s m e] Hb]; cbn [sf SV is_nan_sf is_inf_sf] in *; try discriminate; [by rewrite Z.div_0_l by lia|].
  cbn [valid_binary] in Hb. apply bounded_spec in Hb. pose proof (SV_finite_pos m e ltac:(lia)).
  destruct s; cbn [cond_Zopp] in *; [lia|]. destruct (Z.le_gt_cases 0 e).
  - rewrite Z.shiftl_mul_pow2 by lia. rewrite Z.pow_add_r by lia. rewrite Z.mul_assoc. symmetry. apply Z.div_mul.
    clear -HP. lia.
  - rewrite <- (Z.opp_involutive e), <- Z.shiftr_opp_r, Z.opp_involutive, Z.shiftr_div_pow2 by lia.
    rewrite Z.opp_involutive. replace (2 ^ 1074) with (2 ^ (- e) * 2 ^ (e + 1074)) by (rewrite <- Z.pow_add_r by lia; f_equal; lia).
    rewrite Z.div_mul_cancel_r; [done|pose proof (pow2_pos (- e) ltac:(lia)); lia|pose proof (pow2_pos (e + 1074) ltac:(lia)); lia].
Qed.

(** Integers below [2^53] survive the round trip through [float64]. *)
Lemma to_int_of_Z z : 0 <= z <= 2 ^ 53 -> to_int (of_Z z) = z.
Proof.
  intros Hz. destruct (of_Z_small z Hz) as [Hf Hv]. rewrite to_int_floor, Hv by done. apply Z.div_mul.
  pose proof (pow2_pos 1074 ltac:(lia)). lia.
Qed.

Create HintDb f64.
#[export] Hint Resolve nnf_nn nn_num nn_add nn_mul nn_div of_Z_nn : f64.

(** [math.Max] on numbers is the maximum of the values. *)
Lemma fmax_spec x y : num x -> num y -> num (fmax x y) /\ fv (fmax x y) = Z.max (fv x) (fv y).
Proof.
  intros Hx Hy. pose proof (fv_bound x). pose proof (fv_bound y). unfold fmax.
  destruct (is_pinf x || is_pinf y) eqn:E.
  { split; [reflexivity|]. change (fv f_inf) with INF.
    apply orb_true_iff in E as [E|E]; apply is_pinf_spec in E as [_ E]; lia. }
  rewrite Hx, Hy. cbn [orb].
  assert (Hgen : num (if fltb y x then x else y) /\
                 fv (if fltb y x then x else y) = Z.max (fv x) (fv y)).
  { destruct (fltb y x) eqn:Hlt.
    - apply fltb_spec in Hlt as (_ & _ & Hlt). split; [assumption|lia].
    - apply fltb_false in Hlt; [|assumption|assumption]. split; [assumption|lia]. }
  destruct x as [[sx| | |] Vx], y as [[sy| | |] Vy]; try exact Hgen.
  cbn [sf]. destruct sx; split; reflexivity || assumption.
Qed.

Lemma fmax_pinf x y : is_pinf (fmax x y) = false -> is_pinf x = false /\ is_pinf y = false.
Proof.
  unfold fmax. destruct (is_pinf x || is_pinf y) eqn:E; [discriminate|].
  intros _. by apply orb_false_iff in E.
Qed.

Lemma fmax_num x y : is_pinf x = false -> is_pinf y = false -> num (fmax x y) -> num x /\ num y.
Proof.
  intros Hx Hy. unfold fmax, num. rewrite Hx, Hy. cbn [orb].
  destruct (is_nan x), (is_nan y); cbn [orb]; intros; try discriminate; auto.
Qed.

(** [math.Min] of two non-negative numbers. *)
Lemma fmin_nn x y : nn x -> nn y -> nn (fmin x y) /\ fv (fmin x y) = Z.min (fv x) (fv y).
Proof.
  intros [Hx Px] [Hy Py]. pose proof INF_pos. unfold fmin.
  assert (HI : forall z, 0 <= fv z -> is_ninf z = false).
  { intros [[|[]| |] V] Hz; try reflexivity. unfold fv in Hz. cbn [sf SV] in Hz. fold INF in Hz. cbn in Hz. lia. }
  rewrite (HI _ Px), (HI _ Py), Hx, Hy. cbn [orb].
  assert (Hgen : nn (if fltb x y then x else y) /\ fv (if fltb x y then x else y) = Z.min (fv x) (fv y)).
  { destruct (fltb x y) eqn:Hlt.
    - apply fltb_spec in Hlt as (_ & _ & Hlt). split; [by split|lia].
    - apply fltb_false in Hlt; [|assumption|assumption]. split; [by split|lia]. }
  destruct x as [[sx| | |] Vx], y as [[sy| | |] Vy]; try exact Hgen.
  cbn [sf]. destruct sx; (split; [by split|reflexivity]).
Qed.

(** Difference of finite numbers: never negative when the subtrahend is no
    larger, and never above the minuend when it is not negative. *)
Lemma fsub_nnf x y : nnf x -> nnf y -> fv y <= fv x -> nnf (x - y)%f64 /\ fv (x - y)%f64 <= fv x.
Proof.
  intros [Fx Px] [Fy Py] Hle. destruct (fsub_fin x y Fx Fy) as [Hn Hv].
  assert (H0 : 0 <= fv (x - y)%f64) by (rewrite Hv; change 0 with (rndZ 0); apply rndZ_mono; lia).
  assert (H1 : fv (x - y)%f64 <= fv x).
  { rewrite Hv. rewrite <- (rndZ_SV (sf x)) at 2 by apply sf_valid. apply rndZ_mono. fold (fv x). lia. }
  split; [|assumption]. split; [|assumption]. apply is_fin_spec. split; [assumption|].
  apply is_fin_spec in Fx as [_ Fx]. lia.
Qed.

(** A difference that leaves at least half of the minuend. *)
Lemma fsub_half x y t : nnf x -> nnf y -> 0 <= t -> 2 ^ (t + 1) <= fv x -> 2 * fv y <= fv x ->
  2 ^ t <= fv (x - y)%f64.
Proof.
  intros [Fx Px] [Fy Py] Ht Hx Hy. rewrite (proj2 (fsub_fin x y Fx Fy)), rndZ_nonneg by lia.
  rewrite Z.pow_add_r, Z.pow_1_r in Hx by lia. pose proof (pow2_pos t Ht).
  unfold cap. apply Z.min_glb.
  - apply is_fin_spec in Fx as [_ Fx]. pose proof (rnd_repr 1 t). unfold INF in Fx. lia.
  - apply rnd_ge_pow2; lia.
Qed.

(** A quotient of a number by a larger one is at most one. *)
Lemma below_ratio x y : nnf x -> nnf y -> 0 < fv y -> fv x <= fv y -> below 0 (x / y)%f64.
Proof.
  intros Hx Hy H0 Hle. destruct (fdiv_nnf x y Hx Hy H0) as [Hnn Hfv].
  apply below_intro; [assumption| |lia]. rewrite Hfv. unfold cap. apply Z.min_le_iff. right.
  change (0 + 1074) with 1074. apply rnd_le_pow2; [assumption|lia|].
  pose proof (pow2_pos 1074 ltac:(lia)). nia.
Qed.

(** A lower bound of a quotient from one of the ratio of the values. *)
Lemma above_ratio s x y : nnf x -> nnf y -> 0 < fv y -> -1074 <= s < 1024 ->
  fv y * 2 ^ (s + 1074) <= fv x * 2 ^ 1074 -> is_fin (x / y)%f64 = true -> above s (x / y)%f64.
Proof.
  intros Hx Hy H0 Hs Hle Hf. destruct (fdiv_nnf x y Hx Hy H0) as [Hnn Hfv].
  split; [split; [assumption|apply Hnn]|]. rewrite Hfv. unfold cap. apply Z.min_glb.
  - apply Z.pow_le_mono_r; lia.
  - apply rnd_ge_pow2; [assumption|lia|assumption].
Qed.

Lemma above_div s t x y :
  above s x -> below t y -> 0 < fv y -> -1074 <= s -> -1074 <= t -> -1074 <= s - t < 1024 ->
  is_fin (x / y)%f64 = true -> above (s - t) (x / y)%f64.
Proof.
  intros [Hx Bx] [Hy By] H0 Hs Ht Hst Hf. apply above_ratio; auto.
  assert (HE : 2 ^ (s + 1074) * 2 ^ 1074 = 2 ^ (t + 1074) * 2 ^ (s - t + 1074))
    by (rewrite <- !Z.pow_add_r by lia; f_equal; lia).
  pose proof (pow2_pos 1074 ltac:(lia)). pose proof (pow2_pos (s - t + 1074) ltac:(lia)). nia.
Qed.

Lemma above_add_l s x y : above s x -> nn y -> is_fin (x + y)%f64 = true -> above s (x + y)%f64.
Proof.
  intros [Hx Bx] Hy Hf. pose proof (fadd_ge_l x y (nnf_nn _ Hx) Hy).
  split; [split; [assumption|pose proof (proj2 Hx); lia]|lia].
Qed.

Lemma above_add_r s x y : above s y -> nn x -> is_fin (x + y)%f64 = true -> above s (x + y)%f64.
Proof.
  intros Hy Hx Hf. destruct (fadd_nn x y Hx (nnf_nn _ (proj1 Hy))) as [Hnn Hfv].
  destruct (fadd_nn y x (nnf_nn _ (proj1 Hy)) Hx) as [_ Hfv'].
  pose proof (fadd_ge_l y x (nnf_nn _ (proj1 Hy)) Hx) as Hge. rewrite Hfv', Z.add_comm, <- Hfv in Hge.
  split; [split; [assumption|apply Hnn]|]. pose proof (proj2 Hy). lia.
Qed.

Lemma below_fin s x : below s x -> is_fin x = true.
Proof. intros H. apply H. Qed.

Lemma not_pinf x : fv x < INF -> is_pinf x = false.
Proof. intros H. apply not_true_is_false. intros E. apply is_pinf_spec in E as [_ E]. lia. Qed.
