(* ===== verification/PlanTypes.v ===== *)
(** * PlanTypes: the planner's domain types

    [go/planner/plan/types.go]. A Go [int] is a [Z]; every [int] the planner
    computes is an index, a count or a difference bounded by the number of layers
    or nodes, so no operation on one can wrap. A [float64] is a [float64] of
    [Float64]. The free-text messages ([Explanation] strings and [PlanError.Reason])
    are the constructors of [Note] and [Reason]: one per format string of the
    source, carrying the values the source prints. *)
From S2P Require Import Prelude Float64.
Open Scope Z_scope.

Inductive AttentionType : Set :=
| AttentionUnspecified | AttentionMHA | AttentionGQA | AttentionMLA | AttentionLinear.

Inductive Mode : Set := ModeAuto | ModePropose | ModeManual.

Inductive Role : Set := RoleUnspecified | RoleHost | RoleWorker.

#[export] Instance AttentionType_eq_dec : EqDecision AttentionType.
Proof. solve_decision. Defined.
#[export] Instance Mode_eq_dec : EqDecision Mode.
Proof. solve_decision. Defined.
#[export] Instance Role_eq_dec : EqDecision Role.
Proof. solve_decision. Defined.

Definition AttentionType_String (a : AttentionType) : string :=
  match a with
  | AttentionMHA => "MHA"
  | AttentionGQA => "GQA"
  | AttentionMLA => "MLA"
  | AttentionLinear => "LINEAR"
  | AttentionUnspecified => "UNSPECIFIED"
  end.

Definition Mode_String (m : Mode) : string :=
  match m with
  | ModePropose => "PROPOSE"
  | ModeManual => "MANUAL"
  | ModeAuto => "AUTO"
  end.

Definition Role_String (r : Role) : string :=
  match r with
  | RoleHost => "HOST"
  | RoleWorker => "WORKER"
  | RoleUnspecified => "UNSPECIFIED"
  end.

(** An inclusive range of layer indices, used as a map key. *)
Record LayerRange : Set := mkLayerRange { Range_Start : Z; Range_End : Z }.

#[export] Instance LayerRange_eq_dec : EqDecision LayerRange.
Proof. solve_decision. Defined.

#[export] Instance LayerRange_countable : Countable LayerRange.
Proof.
  apply (inj_countable' (fun r => (Range_Start r, Range_End r))
                        (fun p => mkLayerRange (fst p) (snd p))).
  intros []; reflexivity.
Defined.

Record Node : Type := mkNode {
  Node_ID : string;
  Node_RAMTotalGB : float64;
  Node_RAMAvailableGB : float64;
  Node_VRAMGB : float64;
  Node_UnifiedMemory : bool;
  Node_MemBandwidthGBs : float64;
  Node_Backends : list string;
  Node_FP4Native : bool;
  Node_EngineVersions : gmap string string;
  Node_DiskFreeGB : float64;
  Node_KVSSDOffload : bool;
  Node_PrefixCachingFactor : float64
}.

(** [Node{}], the zero value. *)
Definition Node_zero : Node :=
  mkNode "" f0 f0 f0 false f0 [] false ∅ f0 false f0.

Record Link : Type := mkLink {
  Link_From : string;
  Link_To : string;
  Link_RTTms : float64;
  Link_BandwidthGBs : float64
}.

Record Quantization : Type := mkQuant {
  Quant_Name : string;
  Quant_SizeGB : float64;
  Quant_RequiresFP4 : bool;
  Quant_Quality : float64;
  Quant_EmulatedFP4 : bool
}.

Definition Quant_zero : Quantization := mkQuant "" f0 false f0 false.

Definition set_EmulatedFP4 (q : Quantization) (b : bool) : Quantization :=
  mkQuant (Quant_Name q) (Quant_SizeGB q) (Quant_RequiresFP4 q) (Quant_Quality q) b.

Record DraftInfo : Type := mkDraft {
  Draft_Available : bool;
  Draft_Type : string;
  Draft_TailLayers : Z
}.

Record ModelSpec : Type := mkModel {
  Model_ID : string;
  Model_IsMoE : bool;
  Model_Layers : Z;
  Model_ParamsTotalB : float64;
  Model_ParamsActiveB : float64;
  Model_HiddenSize : Z;
  Model_NKVHeads : Z;
  Model_HeadDim : Z;
  Model_AttentionType : AttentionType;
  Model_ContextMax : Z;
  Model_Quantizations : list Quantization;
  Model_Draft : DraftInfo;
  Model_KVCompressionRatio : float64
}.

Record Constraints : Type := mkConstraints {
  C_Pinned : gmap LayerRange string;
  C_IncludeNodes : list string;
  C_ExcludeNodes : list string;
  C_ForceNodeCount : option Z;
  C_ForceQuant : option string;
  C_ForceHost : option string;
  C_QualityWeightBias : float64;
  C_Mode : Mode;
  C_ReplicaCount : Z;
  C_AllowedNodeIDs : list string
}.

(** [Constraints{}]: no override, automatic mode. *)
Definition Constraints_zero : Constraints :=
  mkConstraints ∅ [] [] None None None f0 ModeAuto 0 [].

Record Assignment : Type := mkAssign {
  A_NodeID : string;
  A_Role : Role;
  A_LayerStart : Z;
  A_LayerEnd : Z;
  A_Draft : bool
}.

#[export] Instance Assignment_eq_dec : EqDecision Assignment.
Proof. solve_decision. Defined.

Definition set_NodeID (a : Assignment) (id : string) : Assignment :=
  mkAssign id (A_Role a) (A_LayerStart a) (A_LayerEnd a) (A_Draft a).

Definition set_Draft (a : Assignment) (b : bool) : Assignment :=
  mkAssign (A_NodeID a) (A_Role a) (A_LayerStart a) (A_LayerEnd a) b.

Record PerfEstimate : Type := mkPerf {
  Perf_DecodeTokSMin : float64;
  Perf_DecodeTokSMax : float64;
  Perf_PrefillTokSMin : float64;
  Perf_PrefillTokSMax : float64;
  Perf_HeadroomGB : float64
}.

(** The entries of [DeploymentPlan.Explanation]. *)
Inductive Note : Type :=
| NoteQuant (name : string) (quality : float64)
| NoteSingleNode (node : string)
| NoteSingleMemory (size kv overhead required useful headroom : float64)
| NoteEmulatedFP4
| NoteForceHostIgnored (forced host : string)
| NoteSplit (stages : Z)
| NoteBottleneck (bottleneck headroom : float64)
| NoteStage (node : string) (role : Role) (start stop : Z) (need useful : float64)
| NotePinNotInSubset (r : LayerRange) (target : string)
| NotePinMoved (r : LayerRange) (target : string) (start stop : Z) (from : string)
| NotePinNotApplied (r : LayerRange) (target : string)
| NoteOrdering (exact : bool) (host : string) (rounds : Z)
| NoteForceHostHonoured (host : string)
| NoteForceHostNotInSubset (forced host : string)
| NoteDraftOnHost (dtype : string) (tail : Z) (node : string)
| NoteDraftOnTail (dtype : string) (tail : Z) (node : string) (start stop : Z)
| NoteFailoverImpossible (node : string).

Inductive DeploymentPlan : Type := mkPlan {
  Plan_PlanID : string;
  Plan_ModelID : string;
  Plan_Quantization : string;
  Plan_Assignments : list Assignment;
  Plan_PipelineOrder : list string;
  Plan_Estimated : PerfEstimate;
  Plan_Cost : float64;
  Plan_Explanation : list Note;
  (** [map[string]*DeploymentPlan], in insertion order; [None] is Go's [nil]. *)
  Plan_FailoverAlt : list (string * option DeploymentPlan)
}.

Definition set_Assignments (p : DeploymentPlan) (xs : list Assignment) : DeploymentPlan :=
  mkPlan (Plan_PlanID p) (Plan_ModelID p) (Plan_Quantization p) xs (Plan_PipelineOrder p)
         (Plan_Estimated p) (Plan_Cost p) (Plan_Explanation p) (Plan_FailoverAlt p).

Definition add_Explanation (p : DeploymentPlan) (n : Note) : DeploymentPlan :=
  mkPlan (Plan_PlanID p) (Plan_ModelID p) (Plan_Quantization p) (Plan_Assignments p)
         (Plan_PipelineOrder p) (Plan_Estimated p) (Plan_Cost p)
         (Plan_Explanation p ++ [n]) (Plan_FailoverAlt p).

Definition set_FailoverAlt (p : DeploymentPlan) (m : list (string * option DeploymentPlan)) : DeploymentPlan :=
  mkPlan (Plan_PlanID p) (Plan_ModelID p) (Plan_Quantization p) (Plan_Assignments p)
         (Plan_PipelineOrder p) (Plan_Estimated p) (Plan_Cost p) (Plan_Explanation p) m.

(** The override blamed by [validatePlanMemory] ([constraintCulprit]). *)
Inductive Culprit : Type :=
| CulpritPinAndCount | CulpritPin | CulpritCount (k : Z) | CulpritPlan.

(** The values of [PlanError.Reason]. *)
Inductive Reason : Type :=
| ReasonNoNodesAfterFilter
| ReasonEmptyPool (requested : Z)
| ReasonHostNotInPool (host : string)
| ReasonNoLayers (model : string)
| ReasonNoQuantizations (model : string)
| ReasonForcedQuantUnknown (quant model : string)
| ReasonForcedQuantNoFit (quant : string)
| ReasonTooLarge (model : string)
| ReasonNoSubset (model quant : string) (nodes : Z)
| ReasonNoPartition (model quant : string) (subsets : Z)
| ReasonUnknownNode (node : string)
| ReasonOverCapacity (c : Culprit) (layers total : Z) (node : string)
    (required limit : float64) (multiNode : bool)
| ReasonNoNodes
| ReasonTooFewNodes (nodes replicas kmin : Z).

Record PlanError : Type := mkPlanError {
  Err_Reason : Reason;
  Err_DeficitGB : float64;
  Err_Suggestions : list string
}.

(** The error results of the planner's entry points: a [*PlanError], the
    context's error, or one of these wrapped by [PlanReplicaSet]. *)
Inductive GoError : Type :=
| ErrContext
| ErrPlan (e : PlanError)
| ErrReplicaCount (n : Z)
| ErrFleet (e : GoError)
| ErrReplica (i : Z) (e : GoError).

(** What a planner call does: it returns a value, returns an error, or panics
    (an index out of range). *)
Inductive Outcome (A : Type) : Type :=
| Ok (a : A)
| Fail (e : GoError)
| Panic.
Arguments Ok {A} _.
Arguments Fail {A} _.
Arguments Panic {A}.

Definition obind {A B} (m : Outcome A) (f : A -> Outcome B) : Outcome B :=
  match m with Ok a => f a | Fail e => Fail e | Panic => Panic end.

(** A call that cannot return an error: [None] is a panic. *)
Definition lift {A} (m : option A) : Outcome A := match m with Some a => Ok a | None => Panic end.

Declare Scope outcome_scope.
Delimit Scope outcome_scope with outcome.
Notation "'let!' x ':=' m 'in' k" := (obind m (fun x => k))
  (at level 200, x pattern, m at level 100, k at level 200) : outcome_scope.

Lemma obind_Ok {A B} (m : Outcome A) (f : A -> Outcome B) b :
  obind m f = Ok b <-> exists a, m = Ok a /\ f a = Ok b.
Proof.
  destruct m as [a|e|]; cbn; split; try done; [eauto|intros (a' & [= <-] & H); exact H|..];
    by intros (? & ? & _).
Qed.

Lemma obind_no_panic {A B} (m : Outcome A) (f : A -> Outcome B) :
  m ≠ Panic -> (forall a, m = Ok a -> f a ≠ Panic) -> obind m f ≠ Panic.
Proof. destruct m; cbn; intros H1 H2; auto; discriminate. Qed.

Lemma lift_Ok {A} (m : option A) a : lift m = Ok a <-> m = Some a.
Proof. destruct m; cbn; split; congruence. Qed.
