(* ===== verification/CostModel.v ===== *)
(** * CostModel: memory, bandwidth and stage-time model of the planner

    The pure functions of [go/planner/plan/plan.go] and [partition.go] that every
    phase of the planner evaluates: KV-cache size, useful memory of a node, link
    lookup, stage memory, stage time and the throughput estimate. *)
From S2P Require Import Prelude Float64 PlanTypes.
Open Scope Z_scope.

(** ** Constants ([plan.go]) *)

Definition f1 : float64 := of_Z 1.
Definition overheadOSRuntimeGB : float64 := of_Z 2.
Definition bytesFP16 : float64 := of_Z 2.
(** [1 - defaultHeadroomFraction] is an untyped constant, exactly [0.9] before
    its one conversion to [float64]. *)
Definition headroomKeep : float64 := f_const 9 10.
Definition referenceMemBandwidthGBs : float64 := of_Z 100.
Definition memBandwidthUtilFraction : float64 := f_const 7 10.
Definition expectedAcceptedTokens : float64 := f_const 45 10.
(** [1 - perfBandFraction] and [1 + perfBandFraction]. *)
Definition perfBandLow : float64 := f_const 7 10.
Definition perfBandHigh : float64 := f_const 13 10.
Definition prefillComputeMultiple : float64 := of_Z 8.
Definition kvSsdOffloadFactor : float64 := f_const 1 2.
Definition kvSsdOffloadMaxMultiplier : float64 := of_Z 2.
Definition kvSsdReadBandwidthGBs : float64 := of_Z 6.
Definition f1e9 : float64 := of_Z 1000000000.

(** ** KV cache ([plan.go]) *)

Definition kvFactor (model : ModelSpec) : float64 :=
  if (Model_KVCompressionRatio model >? f0)%f64 && (Model_KVCompressionRatio model <=? f1)%f64
  then Model_KVCompressionRatio model
  else match Model_AttentionType model with
       | AttentionMHA | AttentionGQA => f1
       | AttentionMLA => f_const 1 10
       | AttentionLinear => f_const 1 100
       | AttentionUnspecified => f1
       end.

Definition estimateKVCache (model : ModelSpec) (context : Z) : float64 :=
  if (context <=? 0) || (Model_Layers model <=? 0) || (Model_NKVHeads model <=? 0)
     || (Model_HeadDim model <=? 0)
  then f0
  else
    let base := (of_Z 2 * of_Z (Model_Layers model) * of_Z (Model_NKVHeads model)
                 * of_Z (Model_HeadDim model) * of_Z context * bytesFP16)%f64 in
    (base * kvFactor model / f1e9)%f64.

Definition kvCachePerNode (model : ModelSpec) (layersOnNode context : Z) : float64 :=
  if Model_Layers model <=? 0 then f0
  else (estimateKVCache model context * (of_Z layersOnNode / of_Z (Model_Layers model)))%f64.

Definition kvCacheInMemory (model : ModelSpec) (contextLen : Z) (pcf : float64) : float64 :=
  let full := estimateKVCache model contextLen in
  if (pcf <=? f0)%f64 || (pcf >=? f1)%f64 then full
  else (full * (f1 - pcf))%f64.

(** ** Memory and capacity of a node ([plan.go]) *)

Definition minFloat (a b : float64) : float64 := if (a <? b)%f64 then a else b.

Definition usefulMemory (n : Node) : float64 :=
  if Node_UnifiedMemory n then Node_RAMAvailableGB n
  else if (Node_VRAMGB n >? f0)%f64 then minFloat (Node_RAMAvailableGB n) (Node_VRAMGB n)
  else Node_RAMAvailableGB n.

(** The base of the SSD cap: VRAM when reported, available RAM otherwise. *)
Definition ssdCapBase (n : Node) : float64 :=
  if (Node_VRAMGB n <=? f0)%f64 then Node_RAMAvailableGB n else Node_VRAMGB n.

Definition usefulMemoryForFit (n : Node) : float64 :=
  let base := usefulMemory n in
  if negb (Node_KVSSDOffload n) || (Node_DiskFreeGB n <=? f0)%f64 then base
  else
    let capBase := ssdCapBase n in
    let ssdContrib := (kvSsdOffloadFactor * Node_DiskFreeGB n)%f64 in
    let maxContrib := (kvSsdOffloadMaxMultiplier * capBase - base)%f64 in
    let ssdContrib := if (ssdContrib >? maxContrib)%f64 then maxContrib else ssdContrib in
    if (ssdContrib >? f0)%f64 then (base + ssdContrib)%f64 else base.

Definition normalizeBandwidth (gbs : float64) : float64 :=
  if (gbs <=? f0)%f64 then f1 else (gbs / referenceMemBandwidthGBs)%f64.

Definition usefulCapacity (n : Node) : float64 :=
  (usefulMemory n * normalizeBandwidth (Node_MemBandwidthGBs n))%f64.

(** [bestNodeByCapacity]; indexing an empty slice panics ([None]). *)
Definition bestNodeByCapacity (nodes : list Node) : option Node :=
  match nodes with
  | [] => None
  | n0 :: rest =>
      Some (fst (fold_left (fun '(best, bestCap) n =>
        let c := usefulCapacity n in
        if (c >? bestCap)%f64 then (n, c) else (best, bestCap)) rest (n0, usefulCapacity n0)))
  end.

Definition anyFP4 (nodes : list Node) : bool := existsb Node_FP4Native nodes.

Definition lookupQuant (qs : list Quantization) (name : string) : option Quantization :=
  List.find (fun q => bool_decide (Quant_Name q = name)) qs.

(** [strings.NewReplacer("/", "-", " ", "-", ":", "-").Replace]. *)
Fixpoint sanitizeID (s : string) : string :=
  match s with
  | EmptyString => EmptyString
  | String c s' =>
      String (if bool_decide (c = "/"%char) || bool_decide (c = " "%char) || bool_decide (c = ":"%char)
              then "-"%char else c) (sanitizeID s')
  end.

Definition newPlanID (modelID nodeID : string) : string :=
  ("plan-" +:+ sanitizeID modelID +:+ "-" +:+ sanitizeID nodeID)%string.

(** ** Links ([partition.go]) *)

Definition activationBytes (model : ModelSpec) : float64 :=
  (of_Z (Model_HiddenSize model) * bytesFP16)%f64.

(** Linear scan: the first link [from → to]. *)
Definition lookupLink (links : list Link) (from to : string) : option Link :=
  List.find (fun l => bool_decide (Link_From l = from) && bool_decide (Link_To l = to)) links.

(** [LinkIndex] is [map[[2]string]*Link]. *)
Abbreviation LinkIndex := (gmap (string * string) Link).

Definition buildLinkIndex (links : list Link) : LinkIndex :=
  fold_left (fun idx l => <[(Link_From l, Link_To l) := l]> idx) links ∅.

Definition LinkIndex_lookup (idx : LinkIndex) (from to : string) : option Link := idx !! (from, to).

(** ** Bandwidth, communication and compute time ([partition.go]) *)

Definition effectiveBandwidth (n : Node) (shardWeightBytes shardKVBytes : float64) : float64 :=
  let vramBW := if (Node_MemBandwidthGBs n <=? f0)%f64 then referenceMemBandwidthGBs
                else Node_MemBandwidthGBs n in
  let vramBytes := (Node_VRAMGB n * f1e9)%f64 in
  let totalBytes := (shardWeightBytes + shardKVBytes)%f64 in
  if negb (Node_KVSSDOffload n) || (vramBytes <=? f0)%f64 || (totalBytes <=? vramBytes)%f64
  then vramBW
  else
    let ssdBytes := fmin (totalBytes - vramBytes)%f64 shardKVBytes in
    let vramServed := (totalBytes - ssdBytes)%f64 in
    let vramFrac := (vramServed / totalBytes)%f64 in
    let ssdFrac := (ssdBytes / totalBytes)%f64 in
    (f1 / (vramFrac / vramBW + ssdFrac / kvSsdReadBandwidthGBs))%f64.

Definition commTime (model : ModelSpec) (link : option Link) : float64 :=
  match link with
  | None => f0
  | Some l =>
      let t := (Link_RTTms l / of_Z 1000)%f64 in
      if (Link_BandwidthGBs l >? f0)%f64
      then (t + activationBytes model / (Link_BandwidthGBs l * f1e9))%f64
      else t
  end.

Definition computeTime (n : Node) (model : ModelSpec) (quant : Quantization) (i j : Z) : float64 :=
  if Model_Layers model <=? 0 then f0
  else
    let nLayers := of_Z (j - i) in
    let activeFraction :=
      if (Model_ParamsTotalB model >? f0)%f64 && (Model_ParamsActiveB model >? f0)%f64
      then (Model_ParamsActiveB model / Model_ParamsTotalB model)%f64 else f1 in
    let activeWeightBytes :=
      (Quant_SizeGB quant * f1e9 * activeFraction * nLayers / of_Z (Model_Layers model))%f64 in
    let shardWeightBytes := (Quant_SizeGB quant * f1e9 * nLayers / of_Z (Model_Layers model))%f64 in
    let shardKVBytes := (kvCachePerNode model (to_int nLayers) (Model_ContextMax model) * f1e9)%f64 in
    let bw := effectiveBandwidth n shardWeightBytes shardKVBytes in
    (activeWeightBytes / (bw * f1e9))%f64.

Definition stageMemNeed (model : ModelSpec) (quant : Quantization) (i j context : Z) : float64 :=
  if Model_Layers model <=? 0 then f0
  else
    let nLayers := j - i in
    let weight := (Quant_SizeGB quant * of_Z nLayers / of_Z (Model_Layers model))%f64 in
    let kv := kvCachePerNode model nLayers context in
    (weight + kv + overheadOSRuntimeGB)%f64.

Definition stageFits (n : Node) (model : ModelSpec) (quant : Quantization) (i j context : Z) : bool :=
  (stageMemNeed model quant i j context <=? usefulMemoryForFit n * headroomKeep)%f64.

(** [order[k]]; out of range panics, which the callers' loop bounds exclude. *)
Definition nth_node (order : list Node) (k : nat) : Node := nth k order Node_zero.

(** Stage [m] is 1-based, as in the source. *)
Definition stageTimeAt (order : list Node) (m : nat) (i j : Z) (links : list Link)
    (model : ModelSpec) (quant : Quantization) (context : Z) : float64 :=
  let node := nth_node order (m - 1) in
  if negb (stageFits node model quant i j context) then f_inf
  else
    let ct := if (2 <=? m)%nat
              then commTime model (lookupLink links (Node_ID (nth_node order (m - 2))) (Node_ID node))
              else f0 in
    (computeTime node model quant i j + ct)%f64.

Definition stageTimeAtIdx (order : list Node) (m : nat) (i j : Z) (idx : LinkIndex)
    (model : ModelSpec) (quant : Quantization) (context : Z) : float64 :=
  let node := nth_node order (m - 1) in
  if negb (stageFits node model quant i j context) then f_inf
  else
    let ct := if (2 <=? m)%nat
              then commTime model (LinkIndex_lookup idx (Node_ID (nth_node order (m - 2))) (Node_ID node))
              else f0 in
    (computeTime node model quant i j + ct)%f64.

(** ** Throughput estimate ([plan.go]) *)

Definition estimatePerformance (bottleneckSecPerTok headroom : float64) (model : ModelSpec) (n : Node)
    : PerfEstimate :=
  let decode :=
    if (bottleneckSecPerTok >? f0)%f64 && (memBandwidthUtilFraction >? f0)%f64
    then (f1 / (bottleneckSecPerTok / memBandwidthUtilFraction))%f64 else f0 in
  let decode := if Draft_Available (Model_Draft model) then (decode * expectedAcceptedTokens)%f64 else decode in
  let prefill := (decode * prefillComputeMultiple)%f64 in
  let prefill :=
    if (Node_PrefixCachingFactor n >? f0)%f64 && (Node_PrefixCachingFactor n <? f1)%f64
    then (prefill / (f1 - Node_PrefixCachingFactor n))%f64 else prefill in
  let effectiveHeadroom :=
    if Node_KVSSDOffload n && (Node_DiskFreeGB n >? f0)%f64 then
      let ssdContrib := (kvSsdOffloadFactor * Node_DiskFreeGB n)%f64 in
      let maxSSD := (kvSsdOffloadMaxMultiplier * ssdCapBase n)%f64 in
      let ssdContrib := if (ssdContrib >? maxSSD)%f64 then maxSSD else ssdContrib in
      (headroom + ssdContrib)%f64
    else headroom in
  {| Perf_DecodeTokSMin := (decode * perfBandLow)%f64;
     Perf_DecodeTokSMax := (decode * perfBandHigh)%f64;
     Perf_PrefillTokSMin := (prefill * perfBandLow)%f64;
     Perf_PrefillTokSMax := (prefill * perfBandHigh)%f64;
     Perf_HeadroomGB := effectiveHeadroom |}.

Definition estimateSingleNode (n : Node) (model : ModelSpec) (quant : Quantization) (headroom : float64)
    : PerfEstimate :=
  estimatePerformance (computeTime n model quant 0 (Model_Layers model)) headroom model n.

Definition estimateMultiNode (bottleneck headroom : float64) (model : ModelSpec) : PerfEstimate :=
  estimatePerformance bottleneck headroom model Node_zero.

(** ** Well-formed inputs

    A Go [int] lies in the 64-bit range, which is all that is needed of most
    integer fields; the layer count is an exact [float64]. A quantity that may be
    unreported is either zero or within [2^-100 .. 2^100], far beyond any
    hardware figure in GB, GB/s or milliseconds: the ranges exist only to exclude
    overflow to [+Inf] and underflow of a divisor to zero. *)
Definition go_int (z : Z) : Prop := - 2 ^ 63 <= z < 2 ^ 63.

Record model_ok (m : ModelSpec) : Prop := {
  mo_layers : 0 < Model_Layers m <= 2 ^ 53;
  mo_heads : go_int (Model_NKVHeads m);
  mo_dim : go_int (Model_HeadDim m);
  mo_context : go_int (Model_ContextMax m)
}.

Definition quantity_ok (x : float64) : Prop :=
  x = f0 \/ (above (-100) x /\ below 100 x).

Record node_ok (n : Node) : Prop := {
  no_vram : quantity_ok (Node_VRAMGB n);
  no_bandwidth : quantity_ok (Node_MemBandwidthGBs n)
}.

Record link_ok (l : Link) : Prop := {
  lo_rtt : below 100 (Link_RTTms l);
  lo_bandwidth : quantity_ok (Link_BandwidthGBs l)
}.

Record params_ok (m : ModelSpec) : Prop := {
  po_total : quantity_ok (Model_ParamsTotalB m);
  po_active : quantity_ok (Model_ParamsActiveB m);
  po_hidden : 0 <= Model_HiddenSize m < 2 ^ 63
}.

Lemma nnf_f0 : nnf f0.
Proof. split; [reflexivity|]. unfold fv. cbn. lia. Qed.

Lemma below_1e9 : below 30 f1e9.
Proof. apply below_of_Z; lia. Qed.

Lemma above_1e9 : above 0 f1e9.
Proof. apply above_of_Z. split; [lia|]. transitivity (2 ^ 30); [lia|apply Z.pow_le_mono_r; lia]. Qed.

Lemma below_bool s x : is_fin x = true -> (0 <=? fv x) && (fv x <=? 2 ^ (s + 1074)) = true -> below s x.
Proof. intros Hf H. apply andb_true_iff in H as [H1%Z.leb_le H2%Z.leb_le]. by split. Qed.

Lemma kvFactor_below model : below 0 (kvFactor model).
Proof.
  unfold kvFactor. destruct (_ && _) eqn:E.
  - apply andb_true_iff in E as [H1 H2]. apply fltb_spec in H1 as (_ & Hn & H1).
    apply fleb_spec in H2 as (_ & _ & H2). change (fv f0) with 0 in H1.
    apply below_intro; [split; [exact Hn|lia]| |lia].
    unfold f1 in H2. rewrite (proj2 (of_Z_small 1 ltac:(lia))) in H2. change (0 + 1074) with 1074. lia.
  - destruct (Model_AttentionType model); apply below_bool; vm_compute; reflexivity.
Qed.

Lemma estimateKVCache_below model context :
  model_ok model -> go_int context -> below 254 (estimateKVCache model context).
Proof.
  intros Hm Hc. unfold estimateKVCache, go_int in *.
  destruct (_ || _) eqn:E.
  - apply below_intro; [apply nnf_nn, nnf_f0| |lia]. apply Z.pow_nonneg. lia.
  - apply orb_false_iff in E as [E E4%Z.leb_gt]. apply orb_false_iff in E as [E E3%Z.leb_gt].
    apply orb_false_iff in E as [E1%Z.leb_gt E2%Z.leb_gt].
    destruct Hm as [HL [_ HH] [_ HD] _].
    assert (HZ : forall z, 0 < z < 2 ^ 63 -> below 63 (of_Z z)) by (intros; apply below_of_Z; lia).
    pose proof (below_mul 1 63 (of_Z 2) (of_Z (Model_Layers model)) ltac:(apply below_of_Z; lia)
      (HZ (Model_Layers model) ltac:(lia)) ltac:(lia) ltac:(lia) ltac:(lia)) as B1.
    pose proof (below_mul _ 63 _ (of_Z (Model_NKVHeads model)) B1 (HZ (Model_NKVHeads model) ltac:(lia)) ltac:(lia) ltac:(lia) ltac:(lia)) as B2.
    pose proof (below_mul _ 63 _ (of_Z (Model_HeadDim model)) B2 (HZ (Model_HeadDim model) ltac:(lia)) ltac:(lia) ltac:(lia) ltac:(lia)) as B3.
    pose proof (below_mul _ 63 _ (of_Z context) B3 (HZ context ltac:(lia)) ltac:(lia) ltac:(lia) ltac:(lia)) as B4.
    pose proof (below_mul _ 1 _ bytesFP16 B4 ltac:(apply below_of_Z; lia) ltac:(lia) ltac:(lia) ltac:(lia)) as B5.
    pose proof (below_mul _ 0 _ _ B5 (kvFactor_below model) ltac:(lia) ltac:(lia) ltac:(lia)) as B6.
    pose proof (below_div _ 0 _ _ B6 above_1e9 ltac:(lia) ltac:(lia) ltac:(lia)) as B7.
    eapply below_weaken; [exact B7|lia].
Qed.

Lemma layers_above model : model_ok model -> above 0 (of_Z (Model_Layers model)).
Proof.
  intros [HL _ _ _]. apply above_of_Z. split; [lia|].
  transitivity (2 ^ 63); [lia|apply Z.pow_le_mono_r; lia].
Qed.

Lemma below_layers n : 0 <= n < 2 ^ 63 -> below 63 (of_Z n).
Proof. intros. apply below_of_Z; lia. Qed.

Lemma kvCachePerNode_below model n context :
  model_ok model -> go_int context -> 0 <= n < 2 ^ 63 -> below 317 (kvCachePerNode model n context).
Proof.
  intros Hm Hc Hn. unfold kvCachePerNode. pose proof (mo_layers _ Hm).
  rewrite (proj2 (Z.leb_gt _ _)) by lia.
  pose proof (below_div 63 0 _ _ (below_layers n Hn) (layers_above _ Hm) ltac:(lia) ltac:(lia) ltac:(lia)) as B.
  pose proof (below_mul _ _ _ _ (estimateKVCache_below _ context Hm Hc) B ltac:(lia) ltac:(lia) ltac:(lia)) as B'.
  eapply below_weaken; [exact B'|lia].
Qed.

Lemma kvCachePerNode_mono model n n' context :
  model_ok model -> go_int context -> 0 <= n <= n' -> n' < 2 ^ 63 ->
  fv (kvCachePerNode model n context) <= fv (kvCachePerNode model n' context).
Proof.
  intros Hm Hc Hn Hn'. unfold kvCachePerNode. pose proof (mo_layers _ Hm).
  rewrite (proj2 (Z.leb_gt _ _)) by lia.
  pose proof (layers_above _ Hm) as HL. pose proof (above_pos _ _ HL ltac:(lia)) as HL0.
  assert (HB : forall k, 0 <= k < 2 ^ 63 -> nnf (of_Z k / of_Z (Model_Layers model))%f64)
    by (intros k Hk; apply (below_div 63 0 _ _ (below_layers k Hk) HL); lia).
  apply fmul_mono_r; [apply (estimateKVCache_below _ _ Hm Hc)|apply HB; lia|apply HB; lia|].
  apply fdiv_mono_l; [apply of_Z_nn; lia|apply of_Z_nn; lia|apply HL|exact HL0|apply of_Z_mono; lia].
Qed.

(** Memory need of a stage is a number and grows with the number of layers: the
    fact the partition loop's early [break] relies on. *)
Lemma stageMemNeed_mono model quant i j j' context :
  model_ok model -> go_int context -> nnf (Quant_SizeGB quant) ->
  i <= j <= j' -> j' - i < 2 ^ 63 ->
  nn (stageMemNeed model quant i j context) /\
  fv (stageMemNeed model quant i j context) <= fv (stageMemNeed model quant i j' context).
Proof.
  intros Hm Hc HS Hij Hr. unfold stageMemNeed. pose proof (mo_layers _ Hm).
  rewrite (proj2 (Z.leb_gt _ _)) by lia.
  pose proof (layers_above _ Hm) as HL. pose proof (above_pos _ _ HL ltac:(lia)) as HL0.
  assert (HW : forall k, 0 <= k < 2 ^ 63 -> nn (Quant_SizeGB quant * of_Z k)%f64)
    by (intros k Hk; apply fmul_nnf; [assumption|apply (below_layers k Hk)]).
  assert (HWD : forall k, 0 <= k < 2 ^ 63 -> nn (Quant_SizeGB quant * of_Z k / of_Z (Model_Layers model))%f64)
    by (intros k Hk; apply nn_div; [by apply HW|apply HL|exact HL0]).
  assert (HK : forall k, 0 <= k < 2 ^ 63 -> nn (kvCachePerNode model k context))
    by (intros k Hk; apply nnf_nn, (kvCachePerNode_below model k context Hm Hc Hk)).
  assert (HO : nn overheadOSRuntimeGB) by (apply of_Z_nn; lia).
  split; [apply nn_add; [apply nn_add|]; [apply HWD; lia|apply HK; lia|exact HO]|].
  apply fadd_mono; try (apply nn_add; [apply HWD; lia|apply HK; lia]); try exact HO; [|lia].
  apply fadd_mono; try (apply HWD; lia); try (apply HK; lia).
  - apply fdiv_mono_l; [apply HW; lia|apply HW; lia|apply HL|exact HL0|].
    apply fmul_mono_r; [assumption|apply (below_layers (j - i)); lia|apply (below_layers (j' - i)); lia|].
    apply of_Z_mono. lia.
  - apply kvCachePerNode_mono; auto; lia.
Qed.

Lemma stageFits_mono n model quant i j j' context :
  model_ok model -> go_int context -> nnf (Quant_SizeGB quant) ->
  i <= j <= j' -> j' - i < 2 ^ 63 ->
  stageFits n model quant i j' context = true -> stageFits n model quant i j context = true.
Proof.
  intros Hm Hc HS Hij Hr H. destruct (stageMemNeed_mono model quant i j j' context) as [Hnn Hle]; auto.
  unfold stageFits in *. apply fleb_spec in H as (_ & Hn & H). apply fleb_spec.
  repeat split; [apply Hnn|exact Hn|lia].
Qed.

(** The SSD contribution never lowers a node's memory. *)
Lemma usefulMemoryForFit_ge n :
  nnf (usefulMemory n) -> fv (usefulMemory n) <= fv (usefulMemoryForFit n).
Proof.
  intros Hb. unfold usefulMemoryForFit. cbv zeta.
  destruct (_ || _); [lia|].
  match goal with |- context [fltb f0 ?x] => set (c := x) end.
  destruct (c >? f0)%f64 eqn:E; [|lia].
  apply fltb_spec in E as (_ & Hn & H). change (fv f0) with 0 in H.
  apply fadd_ge_l; [apply nnf_nn, Hb|split; [exact Hn|lia]].
Qed.

(** ** Stage times are finite *)

Lemma quantity_pos x : quantity_ok x -> (x >? f0)%f64 = true -> above (-100) x /\ below 100 x.
Proof.
  intros [->|H] Hp; [discriminate|exact H].
Qed.

Lemma quantity_le0 x : quantity_ok x -> (x <=? f0)%f64 = false -> above (-100) x /\ below 100 x.
Proof. intros [->|H] Hp; [discriminate|exact H]. Qed.

(** The harmonic mix of VRAM and SSD bandwidth: its two fractions are at most
    one, and one of them is at least a quarter. *)
Lemma ssd_mix_fractions total ssd :
  nnf total -> nnf ssd -> 2 ^ 1 <= fv total -> fv ssd <= fv total ->
  below 0 ((total - ssd) / total)%f64 /\ below 0 (ssd / total)%f64 /\
  (above (-2) ((total - ssd) / total)%f64 \/ above (-2) (ssd / total)%f64).
Proof.
  intros Ht Hs Hpos Hle. destruct (fsub_nnf total ssd Ht Hs Hle) as [Hd Hdle].
  pose proof (below_ratio _ _ Hd Ht ltac:(lia) Hdle) as B1.
  pose proof (below_ratio _ _ Hs Ht ltac:(lia) Hle) as B2. split; [exact B1|]. split; [exact B2|].
  destruct (Z.le_gt_cases (2 * fv ssd) (fv total)) as [Hh|Hh].
  - left. apply above_ratio; auto; [lia|lia| |apply (below_fin _ _ B1)].
    set (k := Z.log2 (fv total)). pose proof (Z.log2_spec (fv total) ltac:(lia)) as [K1 K2]. fold k in K1, K2.
    assert (Hk : 1 <= k) by (apply Z.log2_le_pow2; lia).
    pose proof (fsub_half total ssd (k - 1) Ht Hs ltac:(lia)) as H. replace (k - 1 + 1) with k in H by lia.
    specialize (H K1 Hh). rewrite Z.pow_succ_r in K2 by lia.
    replace (2 ^ k) with (2 * 2 ^ (k - 1)) in K2
      by (rewrite <- (Z.pow_succ_r 2 (k - 1)) by lia; f_equal; lia).
    change (2 ^ 1074) with (4 * 2 ^ (-2 + 1074)). pose proof (pow2_pos (-2 + 1074) ltac:(lia)). nia.
  - right. apply above_ratio; auto; [lia|lia| |apply (below_fin _ _ B2)].
    change (2 ^ 1074) with (4 * 2 ^ (-2 + 1074)). pose proof (pow2_pos (-2 + 1074) ltac:(lia)). nia.
Qed.

Lemma ssd_mix_bounds total ssd bw :
  nnf total -> nnf ssd -> 2 ^ 1 <= fv total -> fv ssd <= fv total -> above (-100) bw -> below 100 bw ->
  let mixed := (f1 / ((total - ssd) / total / bw + ssd / total / kvSsdReadBandwidthGBs))%f64 in
  above (-102) mixed /\ below 110 mixed.
Proof.
  intros Ht Hs H2 Hle HBa HBb. cbv zeta.
  destruct (ssd_mix_fractions total ssd Ht Hs H2 Hle) as (F1 & F2 & F3).
  assert (A6 : above 0 kvSsdReadBandwidthGBs) by (apply above_of_Z; split; [lia|]; vm_compute; discriminate).
  assert (B6 : below 3 kvSsdReadBandwidthGBs) by (apply below_of_Z; lia).
  pose proof (below_div _ _ _ _ F1 HBa ltac:(lia) ltac:(lia) ltac:(lia)) as D1.
  pose proof (below_div _ _ _ _ F2 A6 ltac:(lia) ltac:(lia) ltac:(lia)) as D2.
  pose proof (below_add _ _ _ _ D1 D2 ltac:(lia) ltac:(lia) ltac:(lia)) as D3.
  set (mix := (_ / bw + _)%f64) in *.
  assert (HA : above (-102) mix).
  { destruct F3 as [F3|F3].
    - apply above_add_l; [|apply nnf_nn, D2|apply (below_fin _ _ D3)].
      apply (above_div (-2) 100 _ _ F3 HBb (above_pos _ _ HBa ltac:(lia))); try lia. apply (below_fin _ _ D1).
    - apply above_add_r; [|apply nnf_nn, D1|apply (below_fin _ _ D3)].
      pose proof (above_div (-2) 3 _ _ F3 B6 (above_pos _ _ A6 ltac:(lia)) ltac:(lia) ltac:(lia) ltac:(lia)
        (below_fin _ _ D2)) as HA. destruct HA as [HA1 HA2]. split; [exact HA1|].
      etransitivity; [|exact HA2]. apply Z.pow_le_mono_r; lia. }
  assert (A1 : above 0 f1) by (apply above_of_Z; split; [lia|]; vm_compute; discriminate).
  assert (B1 : below 0 f1) by (apply below_of_Z; lia).
  pose proof (below_div _ _ _ _ B1 HA ltac:(lia) ltac:(lia) ltac:(lia)) as R1. split.
  - pose proof (above_div _ _ _ _ A1 D3 (above_pos _ _ HA ltac:(lia)) ltac:(lia) ltac:(lia) ltac:(lia)
      (below_fin _ _ R1)) as [R2 R3]. split; [exact R2|]. etransitivity; [|exact R3]. apply Z.pow_le_mono_r; lia.
  - eapply below_weaken; [exact R1|lia].
Qed.

Lemma effectiveBandwidth_bounds n w kv :
  node_ok n -> below 400 w -> below 400 kv ->
  above (-102) (effectiveBandwidth n w kv) /\ below 110 (effectiveBandwidth n w kv).
Proof.
  intros [Hv Hb] Hw Hk. unfold effectiveBandwidth. cbv zeta.
  set (bw := if (Node_MemBandwidthGBs n <=? f0)%f64 then _ else _).
  assert (HB : above (-100) bw /\ below 100 bw).
  { unfold bw. destruct (_ <=? _)%f64 eqn:E; [|by apply quantity_le0]. split.
    - split; [apply (below_of_Z 7); lia|]. vm_compute. discriminate.
    - eapply below_weaken; [apply (below_of_Z 7); lia|lia]. }
  destruct (_ || _) eqn:E.
  { destruct HB as [[HB1 HB2] HB3]. split; [split; [exact HB1|]|].
    - etransitivity; [|exact HB2]. apply Z.pow_le_mono_r; lia.
    - eapply below_weaken; [exact HB3|lia]. }
  apply orb_false_iff in E as [E E3]. apply orb_false_iff in E as [_ E2].
  set (vb := (Node_VRAMGB n * f1e9)%f64) in *. set (total := (w + kv)%f64) in *.
  pose proof (below_add 400 400 w kv Hw Hk ltac:(lia) ltac:(lia) ltac:(lia)) as HT. fold total in HT.
  assert (HV : above (-100) vb /\ below 130 vb).
  { assert (Hv' : above (-100) (Node_VRAMGB n) /\ below 100 (Node_VRAMGB n)).
    { destruct Hv as [Hv|Hv]; [|exact Hv]. exfalso. unfold vb in E2. rewrite Hv in E2. discriminate. }
    destruct Hv' as [A B]. pose proof (below_mul 100 30 _ _ B below_1e9 ltac:(lia) ltac:(lia) ltac:(lia)) as B'.
    split; [|exact B']. apply (above_mul (-100) 0 _ _ A above_1e9); try lia. apply (below_fin _ _ B'). }
  pose proof (fleb_false _ _ (nn_num _ (nnf_nn _ (proj1 HT))) (nn_num _ (nnf_nn _ (proj1 (proj1 HV)))) E3) as Hgt.
  destruct (fsub_nnf total vb (proj1 HT) (proj1 (proj1 HV)) ltac:(lia)) as [Hd Hdle].
  destruct (fmin_nn _ _ (nnf_nn _ Hd) (nnf_nn _ (proj1 Hk))) as [Hm Hmv].
  set (ssd := fmin (total - vb)%f64 kv) in *.
  assert (Hs : nnf ssd).
  { split; [|apply Hm]. apply is_fin_spec. split; [apply Hm|]. pose proof INF_pos.
    pose proof (proj2 (proj1 (is_fin_spec _) (proj1 Hd))). pose proof (proj2 Hm). lia. }
  assert (H2 : 2 ^ 1 <= fv total).
  { pose proof (proj2 (proj1 HV)). pose proof (Z.pow_le_mono_r 2 1 (-100 + 1074) ltac:(lia) ltac:(lia)). lia. }
  apply (ssd_mix_bounds total ssd bw (proj1 HT) Hs H2); [lia|apply HB|apply HB].
Qed.

Lemma activeFraction_below model : params_ok model ->
  below 200 (if (Model_ParamsTotalB model >? f0)%f64 && (Model_ParamsActiveB model >? f0)%f64
             then (Model_ParamsActiveB model / Model_ParamsTotalB model)%f64 else f1).
Proof.
  intros [Ht Ha _]. destruct (_ && _) eqn:E.
  - apply andb_true_iff in E as [E1 E2].
    destruct (quantity_pos _ Ht E1) as [A _]. destruct (quantity_pos _ Ha E2) as [_ B].
    apply (below_div 100 (-100) _ _ B A); lia.
  - eapply below_weaken; [apply (below_of_Z 0 1); lia|lia].
Qed.

Lemma weightBytes_below quant frac k model :
  below 100 (Quant_SizeGB quant) -> below 200 frac -> model_ok model -> 0 <= k < 2 ^ 63 ->
  below 393 (Quant_SizeGB quant * f1e9 * frac * of_Z k / of_Z (Model_Layers model))%f64.
Proof.
  intros HS Hf Hm Hk.
  pose proof (below_mul _ _ _ _ HS below_1e9 ltac:(lia) ltac:(lia) ltac:(lia)) as B1.
  pose proof (below_mul _ _ _ _ B1 Hf ltac:(lia) ltac:(lia) ltac:(lia)) as B2.
  pose proof (below_mul _ _ _ _ B2 (below_layers k Hk) ltac:(lia) ltac:(lia) ltac:(lia)) as B3.
  apply (below_div _ _ _ _ B3 (layers_above _ Hm)); lia.
Qed.

Lemma shardBytes_below quant k model :
  below 100 (Quant_SizeGB quant) -> model_ok model -> 0 <= k < 2 ^ 63 ->
  below 193 (Quant_SizeGB quant * f1e9 * of_Z k / of_Z (Model_Layers model))%f64.
Proof.
  intros HS Hm Hk.
  pose proof (below_mul _ _ _ _ HS below_1e9 ltac:(lia) ltac:(lia) ltac:(lia)) as B1.
  pose proof (below_mul _ _ _ _ B1 (below_layers k Hk) ltac:(lia) ltac:(lia) ltac:(lia)) as B3.
  apply (below_div _ _ _ _ B3 (layers_above _ Hm)); lia.
Qed.

Lemma computeTime_below n model quant i j :
  node_ok n -> model_ok model -> params_ok model -> below 100 (Quant_SizeGB quant) ->
  0 <= j - i <= 2 ^ 53 -> below 495 (computeTime n model quant i j).
Proof.
  intros Hn Hm Hp HS Hij. unfold computeTime. pose proof (mo_layers _ Hm).
  rewrite (proj2 (Z.leb_gt _ _)) by lia. cbv zeta. rewrite to_int_of_Z by lia.
  pose proof (weightBytes_below quant _ (j - i) model HS (activeFraction_below model Hp) Hm ltac:(lia)) as BA.
  pose proof (shardBytes_below quant (j - i) model HS Hm ltac:(lia)) as BW.
  pose proof (below_mul _ _ _ _ (kvCachePerNode_below model (j - i) (Model_ContextMax model) Hm (mo_context _ Hm)
    ltac:(lia)) below_1e9 ltac:(lia) ltac:(lia) ltac:(lia)) as BK.
  destruct (effectiveBandwidth_bounds n _ _ Hn (below_weaken _ 400 _ BW ltac:(lia)) (below_weaken _ 400 _ BK ltac:(lia)))
    as [E1 E2].
  pose proof (below_mul _ _ _ _ E2 below_1e9 ltac:(lia) ltac:(lia) ltac:(lia)) as B2.
  pose proof (above_mul _ _ _ _ E1 above_1e9 ltac:(lia) ltac:(lia) ltac:(lia) (below_fin _ _ B2)) as A2.
  pose proof (below_div _ _ _ _ BA A2 ltac:(lia) ltac:(lia) ltac:(lia)) as R.
  eapply below_weaken; [exact R|lia].
Qed.

Lemma commTime_below model link :
  params_ok model -> (forall l, link = Some l -> link_ok l) -> below 170 (commTime model link).
Proof.
  intros [_ _ Hh] Hl. unfold commTime. destruct link as [l|].
  2:{ split; [apply nnf_f0|]. apply Z.pow_nonneg. lia. }
  destruct (Hl l eq_refl) as [Hr Hb]. cbv zeta.
  assert (A : above 0 (of_Z 1000)) by (apply above_of_Z; split; [lia|]; vm_compute; discriminate).
  pose proof (below_div _ _ _ _ Hr A ltac:(lia) ltac:(lia) ltac:(lia)) as BT.
  destruct (_ >? _)%f64 eqn:E; [|eapply below_weaken; [exact BT|lia]].
  destruct (quantity_pos _ Hb E) as [A1 B1].
  pose proof (below_mul _ _ _ _ B1 below_1e9 ltac:(lia) ltac:(lia) ltac:(lia)) as B2.
  pose proof (above_mul _ _ _ _ A1 above_1e9 ltac:(lia) ltac:(lia) ltac:(lia) (below_fin _ _ B2)) as A2.
  assert (BB : below 64 (activationBytes model)).
  { apply (below_mul 63 1); try lia; [apply below_of_Z; lia|apply (below_of_Z 1 2); lia]. }
  pose proof (below_div _ _ _ _ BB A2 ltac:(lia) ltac:(lia) ltac:(lia)) as B3.
  pose proof (below_add _ _ _ _ BT B3 ltac:(lia) ltac:(lia) ltac:(lia)) as B4.
  eapply below_weaken; [exact B4|lia].
Qed.

(** ** Link lookup *)

Lemma LinkIndex_lookup_last links from to :
  LinkIndex_lookup (buildLinkIndex links) from to = lookupLink (reverse links) from to.
Proof.
  unfold LinkIndex_lookup, buildLinkIndex, lookupLink.
  induction links as [|l links IH] using rev_ind; [apply lookup_empty|].
  rewrite fold_left_app, reverse_app. cbn [fold_left].
  change (reverse [l]) with [l]. cbn [app List.find].
  rewrite lookup_insert. repeat case_bool_decide; case_decide; simplify_eq/=; try done; tauto.
Qed.

Lemma find_reverse_unique {A} (p : A -> bool) l :
  (forall x y, x ∈ l -> y ∈ l -> p x = true -> p y = true -> x = y) ->
  List.find p (reverse l) = List.find p l.
Proof.
  intros H. destruct (List.find p l) as [x|] eqn:E.
  - destruct (List.find p (reverse l)) as [y|] eqn:E'.
    + apply find_some in E as [E1 E2]. apply find_some in E' as [E1' E2'].
      f_equal. apply H; auto; [|by apply list_elem_of_In].
      by rewrite <- (elem_of_reverse _ l), list_elem_of_In.
    + apply find_some in E as [E1 E2]. pose proof (find_none _ _ E' x) as Hn.
      rewrite Hn in E2; [discriminate|]. apply list_elem_of_In, elem_of_reverse, list_elem_of_In, E1.
  - destruct (List.find p (reverse l)) as [y|] eqn:E'; [|done].
    apply find_some in E' as [E1' E2']. pose proof (find_none _ _ E y) as Hn.
    rewrite Hn in E2'; [discriminate|]. apply list_elem_of_In, elem_of_reverse, list_elem_of_In, E1'.
Qed.

Lemma NoDup_fmap_inj_on {A B} (f : A -> B) l x y :
  NoDup (f <$> l) -> x ∈ l -> y ∈ l -> f x = f y -> x = y.
Proof.
  intros Hnd Hx Hy Hf. apply list_elem_of_lookup in Hx as [i Hi]. apply list_elem_of_lookup in Hy as [j Hj].
  enough (i = j) by congruence.
  eapply (NoDup_lookup (f <$> l)); [done| |]; rewrite list_lookup_fmap.
  - rewrite Hi. reflexivity.
  - rewrite Hj. cbn. by rewrite Hf.
Qed.

(** With one link per ordered pair the index agrees with the linear scan. *)
Lemma LinkIndex_lookup_unique links from to :
  NoDup ((fun l => (Link_From l, Link_To l)) <$> links) ->
  LinkIndex_lookup (buildLinkIndex links) from to = lookupLink links from to.
Proof.
  intros Hnd. rewrite LinkIndex_lookup_last. apply find_reverse_unique.
  intros x y Hx Hy. rewrite !andb_true_iff, !bool_decide_eq_true. intros [? ?] [? ?].
  eapply NoDup_fmap_inj_on; [exact Hnd|done|done|]. cbn. congruence.
Qed.

(** ** Deciding the input conditions *)

Definition belowb (s : Z) (x : float64) : bool := is_fin x && (0 <=? fv x) && (fv x <=? 2 ^ (s + 1074)).

Definition quantityb (x : float64) : bool :=
  bool_decide (x = f0) || (belowb 100 x && (2 ^ (-100 + 1074) <=? fv x)).

Lemma belowb_spec s x : belowb s x = true -> below s x.
Proof.
  unfold belowb. rewrite !andb_true_iff, !Z.leb_le. intros [[H1 H2] H3]. by repeat split.
Qed.

Lemma quantityb_spec x : quantityb x = true -> quantity_ok x.
Proof.
  unfold quantityb. rewrite orb_true_iff, andb_true_iff, bool_decide_eq_true, Z.leb_le.
  intros [H|[H1%belowb_spec H2]]; [by left|right]. split; [split; [apply H1|exact H2]|exact H1].
Qed.

Definition node_okb (n : Node) : bool := quantityb (Node_VRAMGB n) && quantityb (Node_MemBandwidthGBs n).
Definition link_okb (l : Link) : bool := belowb 100 (Link_RTTms l) && quantityb (Link_BandwidthGBs l).
Definition model_okb (m : ModelSpec) : bool :=
  forallb (fun z => (- 2 ^ 63 <=? z) && (z <? 2 ^ 63)) [Model_NKVHeads m; Model_HeadDim m; Model_ContextMax m]
  && (0 <? Model_Layers m) && (Model_Layers m <=? 2 ^ 53).
Definition params_okb (m : ModelSpec) : bool :=
  quantityb (Model_ParamsTotalB m) && quantityb (Model_ParamsActiveB m)
  && (0 <=? Model_HiddenSize m) && (Model_HiddenSize m <? 2 ^ 63).

Lemma node_okb_spec ns : forallb node_okb ns = true -> Forall node_ok ns.
Proof.
  intros H. apply Forall_forall. intros n Hn. rewrite forallb_forall in H.
  apply list_elem_of_In, H, andb_true_iff in Hn as [H1 H2]. split; by apply quantityb_spec.
Qed.

Lemma link_okb_spec ls : forallb link_okb ls = true -> Forall link_ok ls.
Proof.
  intros H. apply Forall_forall. intros l Hl. rewrite forallb_forall in H.
  apply list_elem_of_In, H, andb_true_iff in Hl as [H1 H2]. split; [by apply belowb_spec|by apply quantityb_spec].
Qed.

Lemma model_okb_spec m : model_okb m = true -> model_ok m.
Proof.
  unfold model_okb. cbn [forallb].
  rewrite !andb_true_iff, !Z.leb_le, !Z.ltb_lt. intros H. split; unfold go_int; lia.
Qed.

Lemma params_okb_spec m : params_okb m = true -> params_ok m.
Proof.
  unfold params_okb. rewrite !andb_true_iff, !Z.leb_le, !Z.ltb_lt. intros [[[H1 H2] H3] H4].
  split; [by apply quantityb_spec|by apply quantityb_spec|lia].
Qed.

(** Discharges the input conditions at a concrete input. *)
Ltac check_inputs :=
  match goal with
  | |- Forall node_ok _ => apply node_okb_spec; vm_compute; reflexivity
  | |- Forall link_ok _ => apply link_okb_spec; vm_compute; reflexivity
  | |- model_ok _ => apply model_okb_spec; vm_compute; reflexivity
  | |- params_ok _ => apply params_okb_spec; vm_compute; reflexivity
  | |- below _ _ => apply belowb_spec; vm_compute; reflexivity
  | |- go_int _ => unfold go_int; lia
  end.

(** ** The throughput estimate *)

Definition decodeRate (b : float64) (model : ModelSpec) : float64 :=
  let decode := if (b >? f0)%f64 && (memBandwidthUtilFraction >? f0)%f64
                then (f1 / (b / memBandwidthUtilFraction))%f64 else f0 in
  if Draft_Available (Model_Draft model) then (decode * expectedAcceptedTokens)%f64 else decode.

Lemma band_const (n d : Z) s t : belowb t (f_const n d) && (2 ^ (s + 1074) <=? fv (f_const n d)) = true ->
  above s (f_const n d) /\ below t (f_const n d).
Proof.
  intros H. apply andb_true_iff in H as [H1%belowb_spec H2%Z.leb_le]. split; [split; [apply H1|exact H2]|exact H1].
Qed.

Lemma decodeRate_below b model : above (-600) b -> below 600 b -> below 603 (decodeRate b model).
Proof.
  intros A B. unfold decodeRate.
  destruct (band_const 7 10 (-1) 0 ltac:(vm_compute; reflexivity)) as [MA MB].
  destruct (band_const 45 10 2 3 ltac:(vm_compute; reflexivity)) as [EA EB].
  rewrite (proj2 (fltb_spec f0 b)) by (split_and!; [done|apply nn_num, nnf_nn, A|apply (above_pos _ _ A); lia]).
  change (fltb f0 memBandwidthUtilFraction) with true. cbn [andb]. cbv zeta.
  pose proof (below_div _ _ _ _ B MA ltac:(lia) ltac:(lia) ltac:(lia)) as B1.
  pose proof (above_div _ _ _ _ A MB (above_pos _ _ MA ltac:(lia)) ltac:(lia) ltac:(lia) ltac:(lia) (below_fin _ _ B1)) as A1.
  pose proof (below_div 0 _ f1 _ ltac:(apply (below_of_Z 0 1); lia) A1 ltac:(lia) ltac:(lia) ltac:(lia)) as B2.
  destruct (Draft_Available _); [|eapply below_weaken; [exact B2|lia]].
  pose proof (below_mul _ _ _ _ B2 EB ltac:(lia) ltac:(lia) ltac:(lia)) as B3. eapply below_weaken; [exact B3|lia].
Qed.

Lemma decodeRate_anti b b' model : above (-600) b -> below 600 b' -> fv b <= fv b' ->
  fv (decodeRate b' model) <= fv (decodeRate b model).
Proof.
  intros A B' Hle. assert (A' : above (-600) b').
  { split; [apply B'|]. pose proof (proj2 A). lia. }
  assert (B : below 600 b) by (split; [apply A|]; pose proof (proj2 B'); lia).
  destruct (band_const 7 10 (-1) 0 ltac:(vm_compute; reflexivity)) as [MA _].
  destruct (band_const 45 10 2 3 ltac:(vm_compute; reflexivity)) as [EA _].
  pose proof (above_pos _ _ A ltac:(lia)). pose proof (above_pos _ _ MA ltac:(lia)) as HM.
  pose proof (above_pos _ _ EA ltac:(lia)) as HE.
  unfold decodeRate.
  rewrite (proj2 (fltb_spec f0 b)) by (split_and!; [done|apply nn_num, nnf_nn, A|change (fv f0) with 0; lia]).
  rewrite (proj2 (fltb_spec f0 b')) by (split_and!; [done|apply nn_num, nnf_nn, A'|change (fv f0) with 0; lia]).
  change (fltb f0 memBandwidthUtilFraction) with true. cbn [andb]. cbv zeta.
  pose proof (nn_div b _ (nnf_nn _ (proj1 A)) (proj1 MA) HM) as N1.
  pose proof (nn_div b' _ (nnf_nn _ (proj1 A')) (proj1 MA) HM) as N2.
  pose proof (fdiv_mono_l b b' _ (nnf_nn _ (proj1 A)) (nnf_nn _ (proj1 A')) (proj1 MA) HM Hle) as HD.
  assert (B1 : below 0 f1) by (apply (below_of_Z 0 1); lia).
  pose proof (above_div _ _ _ _ A (proj2 (band_const 7 10 (-1) 0 ltac:(vm_compute; reflexivity))) HM ltac:(lia) ltac:(lia)
    ltac:(lia) (below_fin _ _ (below_div _ _ _ _ B MA ltac:(lia) ltac:(lia) ltac:(lia)))) as HA.
  pose proof (above_pos _ _ HA ltac:(lia)) as HP.
  destruct (fdiv_anti_r f1 _ _ (proj1 B1) N1 N2 (conj HP HD)) as [HF NF].
  destruct (Draft_Available _); [|exact HF].
  apply fmul_mono_l; [exact NF| |apply EA|exact HE|exact HF].
  apply nnf_nn, (below_div 0 _ _ _ B1 HA); lia.
Qed.

(** The throughput estimate is a proper range that follows the bottleneck:
    the minimum never exceeds the maximum, for decode and for prefill, and a slower
    pipeline never promises a higher decode rate. *)
Theorem estimatePerformance_range b b' h model n :
  above (-600) b -> below 600 b' -> fv b <= fv b' ->
  (Perf_DecodeTokSMin (estimatePerformance b h model n) <=? Perf_DecodeTokSMax (estimatePerformance b h model n))%f64 = true /\
  (Node_PrefixCachingFactor n = f0 ->
   (Perf_PrefillTokSMin (estimatePerformance b h model n) <=? Perf_PrefillTokSMax (estimatePerformance b h model n))%f64 = true) /\
  (Perf_DecodeTokSMax (estimatePerformance b' h model n) <=? Perf_DecodeTokSMax (estimatePerformance b h model n))%f64 = true.
Proof.
  intros A B' Hle. assert (B : below 600 b) by (split; [apply A|]; pose proof (proj2 B'); lia).
  assert (A' : above (-600) b') by (split; [apply B'|]; pose proof (proj2 A); lia).
  destruct (band_const 7 10 (-1) 0 ltac:(vm_compute; reflexivity)) as [LA LB].
  destruct (band_const 13 10 0 1 ltac:(vm_compute; reflexivity)) as [HA HB].
  assert (HLH : fv perfBandLow <= fv perfBandHigh) by (apply Z.leb_le; vm_compute; reflexivity).
  assert (Hband : forall d, below 800 d -> (d * perfBandLow <=? d * perfBandHigh)%f64 = true).
  { intros d Hd. apply fleb_spec. split_and!.
    - apply nn_num, nnf_nn, (below_mul _ _ _ _ Hd LB); lia.
    - apply nn_num, nnf_nn, (below_mul _ _ _ _ Hd HB); lia.
    - apply fmul_mono_r; [apply Hd|apply LA|apply HA|exact HLH]. }
  pose proof (decodeRate_below b model A B) as D. pose proof (decodeRate_below b' model A' B') as D'.
  unfold estimatePerformance. cbn [Perf_DecodeTokSMin Perf_DecodeTokSMax Perf_PrefillTokSMin Perf_PrefillTokSMax].
  fold (decodeRate b model) (decodeRate b' model). split_and!.
  - apply Hband. eapply below_weaken; [exact D|lia].
  - intros ->. change ((f0 >? f0)%f64 && (f0 <? f1)%f64) with false. cbn match. apply Hband.
    pose proof (below_mul _ 3 _ prefillComputeMultiple D ltac:(apply (below_of_Z 3 8); lia) ltac:(lia) ltac:(lia) ltac:(lia)) as P.
    eapply below_weaken; [exact P|lia].
  - apply fleb_spec. split_and!.
    + apply nn_num, nnf_nn, (below_mul _ _ _ _ D' HB); lia.
    + apply nn_num, nnf_nn, (below_mul _ _ _ _ D HB); lia.
    + apply fmul_mono_l; [apply nnf_nn, D'|apply nnf_nn, D|apply HA|apply (above_pos _ _ HA); lia|by apply decodeRate_anti].
Qed.

Definition perfNode : Node :=
  mkNode "a" (of_Z 64) (of_Z 64) (of_Z 24) false (of_Z 400) ["llamacpp"%string] false ∅ f0 false f0.

Definition perfModel : ModelSpec :=
  mkModel "llama/test" false 6 (of_Z 24) (of_Z 24) 4096 8 128 AttentionGQA 4096
          [mkQuant "q8" (of_Z 24) false (f_const 98 100) false] (mkDraft true "mtp" 1) f0.

Lemma estimatePerformance_range_witness :
  (Perf_PrefillTokSMin (estimatePerformance (of_Z 1) f0 perfModel perfNode)
   <=? Perf_PrefillTokSMax (estimatePerformance (of_Z 1) f0 perfModel perfNode))%f64 = true /\
  (Perf_DecodeTokSMax (estimatePerformance (of_Z 2) f0 perfModel perfNode)
   <=? Perf_DecodeTokSMax (estimatePerformance (of_Z 1) f0 perfModel perfNode))%f64 = true.
Proof.
  assert (H1 : above (-600) (of_Z 1)) by (split; [split; [reflexivity|]|]; vm_compute; discriminate).
  assert (H2 : below 600 (of_Z 2)) by check_inputs.
  assert (H3 : fv (of_Z 1) <= fv (of_Z 2)) by (vm_compute; discriminate).
  destruct (estimatePerformance_range (of_Z 1) (of_Z 2) f0 perfModel perfNode H1 H2 H3) as (_ & A & B).
  split; [exact (A eq_refl)|exact B].
Defined.
