(* ===== verification/Fixtures.v ===== *)
(** * Fixtures: a small concrete fleet

    Two machines, a spare and a model, in the spirit of the repository's planner
    tests ([go/planner/plan/partition_test.go]). The theorems with hypotheses are
    instantiated at these values. *)
From S2P Require Import Prelude Float64 PlanTypes CostModel.
Open Scope Z_scope.

Definition exNode (id : string) (ram vram bw : Z) : Node :=
  mkNode id (of_Z ram) (of_Z ram) (of_Z vram) false (of_Z bw) ["llamacpp"%string] false ∅ f0 false f0.

Definition exA : Node := exNode "a" 64 24 400.
Definition exB : Node := exNode "b" 64 16 200.
Definition exC : Node := exNode "c" 32 12 100.
Definition exNodes : list Node := [exA; exB; exC].

Definition exLink (from to : string) (rtt : Z) : Link := mkLink from to (of_Z rtt) (of_Z 10).
Definition exLinks : list Link :=
  [exLink "a" "b" 1; exLink "b" "a" 1; exLink "a" "c" 2; exLink "c" "a" 2; exLink "b" "c" 3; exLink "c" "b" 3].

Definition exQ8 : Quantization := mkQuant "q8" (of_Z 24) false (f_const 98 100) false.
Definition exQ4 : Quantization := mkQuant "q4" (of_Z 12) false (f_const 90 100) false.

Definition exModel : ModelSpec :=
  mkModel "llama/test" false 6 (of_Z 24) (of_Z 24) 4096 8 128 AttentionGQA 4096 [exQ4; exQ8]
          (mkDraft false "" 0) f0.

(** A model that fits no node and no pair. *)
Definition exBig : ModelSpec :=
  mkModel "huge" false 6 (of_Z 400) (of_Z 400) 4096 8 128 AttentionGQA 4096
          [mkQuant "q8" (of_Z 400) false f1 false] (mkDraft false "" 0) f0.
