(* ===== verification/Partition.v ===== *)
(** * Partition: candidate subsets and the throughput-aware partition

    Phases B and C of the planner, [go/planner/plan/partition.go]: the candidate
    node subsets, the dynamic program [dpPartition] that splits the layers of a
    model into contiguous shards, and the pinned-range pass.

    The dynamic program is proved correct against its specification in the
    generic section [DP], over an arbitrary stage-time function: what it returns
    is achieved by the cuts it returns, and no contiguous partition does better. *)
From S2P Require Import Prelude Float64 PlanTypes CostModel Fixtures.
Open Scope Z_scope.

(** ** Phase B: [candidateSubsets] ([partition.go]) *)

Definition planDelta : nat := 2.

Definition rankedByCapacity (nodes : list Node) : list Node :=
  go_sort (fun a b => (usefulCapacity a >? usefulCapacity b)%f64) nodes.

(** The scan for [k_min]: [k] is the next prefix length, [aggMem] the useful
    memory of the nodes before it. *)
Fixpoint kMinScan (ramNeeded aggMem : float64) (k : nat) (rest : list Node) : option nat :=
  match rest with
  | [] => None
  | n :: rest' =>
      let aggMem := (aggMem + usefulMemoryForFit n)%f64 in
      if (aggMem >=? ramNeeded + overheadOSRuntimeGB * of_Z (Z.of_nat k))%f64 then Some k
      else kMinScan ramNeeded aggMem (S k) rest'
  end.

Definition candidateSubsets (nodes : list Node) (model : ModelSpec) (quant : Quantization)
    (kv : float64) (c : Constraints) : list (list Node) :=
  let ranked := rankedByCapacity nodes in
  match C_ForceNodeCount c with
  | Some k =>
      let k := if k <? 1 then 1 else k in
      let k := if k >? Z.of_nat (length ranked) then Z.of_nat (length ranked) else k in
      [firstn (Z.to_nat k) ranked]
  | None =>
      let ramNeeded := (Quant_SizeGB quant + kv)%f64 in
      match kMinScan ramNeeded f0 1 ranked with
      | None => []
      | Some kMin =>
          map (fun k => firstn k ranked)
              (List.filter (fun k => Nat.leb k (length ranked)) (seq kMin (planDelta + 1)))
      end
  end.

(** ** Phase C: [dpPartition] ([partition.go]) *)

(** The tables [dp] and [cut], both indexed [layers][nodes]. *)
Record DPState : Type := mkDP { dp : list (list float64); cut : list (list Z) }.

Definition dpAt (s : DPState) (i m : nat) : float64 := tget f_inf (dp s) i m.
Definition cutTab (s : DPState) (i m : nat) : Z := tget (-1) (cut s) i m.

Definition dpInit (L M : nat) : DPState :=
  {| dp := tset (tmake f_inf (S L) (S M)) 0 0 f0; cut := tmake (-1) (S L) (S M) |}.

Section Loops.
(** [stage m i j]: the time of stage [m] (1-based) on layers [i..j). *)
Context (stage : nat -> nat -> nat -> float64).

(** The body of the innermost loop. *)
Definition dpRelax (m i j : nat) (s : DPState) : DPState :=
  let bottleneck := fmax (dpAt s i (m - 1)) (stage m i j) in
  if (bottleneck <? dpAt s j m)%f64
  then {| dp := tset (dp s) j m bottleneck; cut := tset (cut s) j m (Z.of_nat i) |}
  else s.

(** [for j := i+1; j <= L; j++], left at the first stage that does not fit. *)
Fixpoint dpInner (m i : nat) (js : list nat) (s : DPState) : DPState :=
  match js with
  | [] => s
  | j :: js' => if is_pinf (stage m i j) then s else dpInner m i js' (dpRelax m i j s)
  end.

(** The body of [for i := 0; i <= L; i++]. *)
Definition dpRow (L m : nat) (s : DPState) (i : nat) : DPState :=
  if is_pinf (dpAt s i (m - 1)) then s else dpInner m i (seq (S i) (L - i)) s.

(** The body of [for m := 1; m <= M; m++]. *)
Definition dpColumn (L : nat) (s : DPState) (m : nat) : DPState :=
  fold_left (dpRow L m) (seq 0 (S L)) s.

Definition dpFill (L M : nat) : DPState := fold_left (dpColumn L) (seq 1 M) (dpInit L M).
End Loops.

(** [bestM], [best]: the first column with the least bottleneck over all layers. *)
Definition dpBest (s : DPState) (L M : nat) : option nat * float64 :=
  fold_left (fun '(bestM, best) m =>
    if (dpAt s L m <? best)%f64 then (Some m, dpAt s L m) else (bestM, best))
    (seq 1 M) (None, f_inf).

(** [cut[j][m]]: an index out of range panics ([None]). *)
Definition cutIndex (cut : list (list Z)) (j : Z) (m : nat) : option Z :=
  if j <? 0 then None else cut !! Z.to_nat j ≫= (.!! m).

(** The walk back through [cut]; [acc] is [starts[m:]]. *)
Fixpoint cutWalk (cut : list (list Z)) (m : nat) (j : Z) (acc : list Z) : option (list Z) :=
  match m with
  | O => Some acc
  | S m' => i ← cutIndex cut j m; cutWalk cut m' i (i :: acc)
  end.

(** The assignments of stages [m], [m+1], ... with [starts[m-1:]]. *)
Fixpoint cutAssignments (order : list Node) (m : nat) (starts : list Z) : list Assignment :=
  match starts with
  | start :: ((end_ :: _) as rest) =>
      if end_ <=? start then cutAssignments order (S m) rest
      else mkAssign (Node_ID (nth_node order (m - 1)))
                    (if Nat.eqb m 1 then RoleHost else RoleWorker) start (end_ - 1) false
           :: cutAssignments order (S m) rest
  | _ => []
  end.

Definition reconstructCuts (cut : list (list Z)) (L usedM : nat) (order : list Node)
    : option (list Assignment) :=
  starts ← cutWalk cut usedM (Z.of_nat L) [Z.of_nat L]; Some (cutAssignments order 1 starts).

(** [make] of the [L+1] rows of [dp] and of [cut], slices of 24 bytes each: the
    runtime panics when the length is negative or the block exceeds its address
    space of [2^48] bytes ([L+1] wraps to a negative length only far beyond it).
    Running out of the machine's own memory is not modelled. *)
Definition makeRows (L : Z) : bool := (0 <=? L) && (24 * (L + 1) <=? 2 ^ 48).

(** [None] is a panic ([make] out of range, or an index out of range);
    [Some ([], f_inf)] is the source's [nil, inf]: no feasible partition. *)
Definition dpPartition (order : list Node) (links : list Link) (model : ModelSpec)
    (quant : Quantization) (context : Z) : option (list Assignment * float64) :=
  if negb (makeRows (Model_Layers model)) then None else
  let L := Z.to_nat (Model_Layers model) in
  let M := length order in
  let idx := buildLinkIndex links in
  let s := dpFill (fun m i j => stageTimeAtIdx order m (Z.of_nat i) (Z.of_nat j) idx model quant context) L M in
  match dpBest s L M with
  | (None, _) => Some ([], f_inf)
  | (Some bestM, best) =>
      if is_pinf best then Some ([], f_inf)
      else assignments ← reconstructCuts (cut s) L bestM order; Some (assignments, best)
  end.

(** ** [applyPinnedRanges] ([partition.go]) *)

Definition rangeLess (a b : LayerRange) : bool :=
  if negb (Range_Start a =? Range_Start b) then Range_Start a <? Range_Start b
  else Range_End a <? Range_End b.

(** The scan for the first shard that contains [r]: the new assignments and the
    note, or [None] when no shard contains it. *)
Fixpoint pinScan (r : LayerRange) (target : string) (xs : list Assignment)
    : option (list Assignment * list Note) :=
  match xs with
  | [] => None
  | a :: xs' =>
      if (A_LayerStart a <=? Range_Start r) && (Range_End r <=? A_LayerEnd a) then
        if bool_decide (A_NodeID a = target) then Some (a :: xs', [])
        else Some (set_NodeID a target :: xs',
                   [NotePinMoved r target (A_LayerStart a) (A_LayerEnd a) (A_NodeID a)])
      else '(ys, ns) ← pinScan r target xs'; Some (a :: ys, ns)
  end.

(** The slice is updated in place in the source; here it is returned. *)
Definition pinRange (inSubset : string -> bool) (st : list Assignment * list Note) (p : LayerRange * string)
    : list Assignment * list Note :=
  let '(xs, notes) := st in
  let '(r, target) := p in
  if negb (inSubset target) then (xs, notes ++ [NotePinNotInSubset r target])
  else match pinScan r target xs with
       | Some (ys, ns) => (ys, notes ++ ns)
       | None => (xs, notes ++ [NotePinNotApplied r target])
       end.

Definition applyPinnedRanges (assignments : list Assignment) (order : list Node)
    (pinned : gmap LayerRange string) : list Assignment * list Note :=
  let inSubset id := existsb (fun n => bool_decide (Node_ID n = id)) order in
  let ranges := go_sort (fun a b => rangeLess (fst a) (fst b)) (map_to_list pinned) in
  fold_left (pinRange inSubset) ranges (assignments, []).

(** ** Correctness of the dynamic program

    A contiguous partition of the first layers over the first nodes is the list
    of its shard ends, strictly increasing from [0]; its bottleneck is the largest
    stage time. *)
Fixpoint increasing (i : nat) (ends : list nat) : Prop :=
  match ends with [] => True | j :: ends' => (i < j)%nat /\ increasing j ends' end.

Lemma last_cons_def {A} (l : list A) x d : List.last (x :: l) d = List.last l x.
Proof.
  revert x d. induction l as [|y l IH]; intros x d; [done|].
  change (List.last (x :: y :: l) d) with (List.last (y :: l) d). by rewrite !IH.
Qed.

Lemma increasing_snoc ends : forall i j,
  increasing i (ends ++ [j]) <-> increasing i ends /\ (List.last ends i < j)%nat.
Proof.
  induction ends as [|e ends IH]; intros i j; cbn [app increasing]; [cbn; tauto|].
  rewrite IH, last_cons_def. tauto.
Qed.

Lemma last_snoc_def {A} (l : list A) x d : List.last (l ++ [x]) d = x.
Proof. apply List.last_last. Qed.

Section DP.
Context (stage : nat -> nat -> nat -> float64).

Fixpoint bottleneckFrom (acc : float64) (m i : nat) (ends : list nat) : float64 :=
  match ends with
  | [] => acc
  | j :: ends' => bottleneckFrom (fmax acc (stage m i j)) (S m) j ends'
  end.

Definition bottleneckOf (ends : list nat) : float64 := bottleneckFrom f0 1 0 ends.

Lemma bottleneckFrom_snoc ends j : forall acc m i,
  bottleneckFrom acc m i (ends ++ [j]) =
  fmax (bottleneckFrom acc m i ends) (stage (m + length ends) (List.last ends i) j).
Proof.
  induction ends as [|e ends IH]; intros acc m i; cbn [app bottleneckFrom length].
  - cbn. by rewrite Nat.add_0_r.
  - by rewrite IH, Nat.add_succ_comm, last_cons_def.
Qed.

Context (L M : nat).

(** A cell holds [+Inf], or the value achieved through its recorded cut. *)
Definition cell_ok (s : DPState) (j m : nat) : Prop :=
  dpAt s j m = f_inf \/
  exists i, (i < j)%nat /\ cutTab s j m = Z.of_nat i /\
    dpAt s j m = fmax (dpAt s i (m - 1)) (stage m i j) /\
    is_pinf (dpAt s i (m - 1)) = false /\ is_pinf (stage m i j) = false /\
    num (dpAt s j m) /\ is_pinf (dpAt s j m) = false.

(** The state while column [c] is filled. *)
Record dp_inv (c : nat) (s : DPState) : Prop := {
  inv_dp : tshape (dp s) (S L) (S M);
  inv_cut : tshape (cut s) (S L) (S M);
  inv_00 : dpAt s 0 0 = f0;
  inv_col0 : forall j, (0 < j)%nat -> dpAt s j 0 = f_inf;
  inv_later : forall j m, (c < m)%nat -> dpAt s j m = f_inf;
  inv_cell : forall j m, (j <= L)%nat -> (1 <= m <= M)%nat -> cell_ok s j m
}.

Lemma dpAt_num c s j m : dp_inv c s -> (j <= L)%nat -> (m <= M)%nat -> num (dpAt s j m).
Proof.
  intros Hi Hj Hm. destruct m as [|m].
  - destruct j; [rewrite (inv_00 _ _ Hi)|rewrite (inv_col0 _ _ Hi) by lia]; reflexivity.
  - destruct (inv_cell _ _ Hi j (S m)) as [->|(i & H)]; [lia|lia|reflexivity|tauto].
Qed.

Lemma dpInit_inv : dp_inv 0 (dpInit L M).
Proof.
  assert (H0 : forall j m, (j, m) ≠ (0, 0)%nat -> dpAt (dpInit L M) j m = f_inf).
  { intros j m Hjm. unfold dpAt, dpInit. cbn [dp]. rewrite tget_set_ne; [apply tget_make|].
    destruct (decide (j = 0)%nat), (decide (m = 0)%nat); subst; try tauto; lia. }
  split.
  - apply tset_shape, tmake_shape.
  - apply tmake_shape.
  - unfold dpAt, dpInit. cbn [dp]. erewrite tget_set_eq; [done|apply tmake_shape|lia|lia].
  - intros j Hj. apply H0. intros [=]; lia.
  - intros j m Hm. apply H0. intros [=]; lia.
  - intros j m _ Hm. left. apply H0. intros [=]; lia.
Qed.

Lemma dp_inv_next c c' s : dp_inv c s -> (c <= c')%nat -> dp_inv c' s.
Proof. intros [] H. split; auto. intros. apply inv_later0. lia. Qed.

Lemma dpRelax_cases m i j s :
  dpRelax stage m i j s = s \/
  (num (fmax (dpAt s i (m - 1)) (stage m i j)) /\
   fv (fmax (dpAt s i (m - 1)) (stage m i j)) < fv (dpAt s j m) /\
   dpRelax stage m i j s =
     {| dp := tset (dp s) j m (fmax (dpAt s i (m - 1)) (stage m i j));
        cut := tset (cut s) j m (Z.of_nat i) |}).
Proof.
  unfold dpRelax. destruct (fltb _ _) eqn:E; [|by left]. right.
  apply fltb_spec in E as (H1 & _ & H2). auto.
Qed.

Lemma dpRelax_inv m i j s :
  dp_inv m s -> (1 <= m <= M)%nat -> (i < j <= L)%nat -> dp_inv m (dpRelax stage m i j s).
Proof.
  intros Hi Hm Hj. destruct (dpRelax_cases m i j s) as [->|(Hn & Hlt & ->)]; [assumption|].
  set (b := fmax _ _) in *. set (s' := {| dp := _; cut := _ |}).
  pose proof (fv_bound (dpAt s j m)) as [_ HB].
  pose proof (not_pinf b ltac:(lia)) as Hinf.
  assert (Hne : forall j' m', (j', m') ≠ (j, m) -> dpAt s' j' m' = dpAt s j' m' /\ cutTab s' j' m' = cutTab s j' m').
  { intros j' m' H. unfold dpAt, cutTab, s'. cbn [dp cut]. split; apply tget_set_ne;
      destruct (decide (j = j')%nat), (decide (m = m')%nat); subst; tauto. }
  assert (Heq : dpAt s' j m = b /\ cutTab s' j m = Z.of_nat i).
  { unfold dpAt, cutTab, s'. cbn [dp cut]. split; eapply tget_set_eq; try apply Hi; lia. }
  assert (Hcol : forall j', dpAt s' j' (m - 1) = dpAt s j' (m - 1)) by (intros; apply Hne; intros [=]; lia).
  split.
  - apply tset_shape, Hi.
  - apply tset_shape, Hi.
  - rewrite (proj1 (Hne 0%nat 0%nat ltac:(intros [=]; lia))). apply Hi.
  - intros j' Hj'. rewrite (proj1 (Hne j' 0%nat ltac:(intros [=]; lia))). by apply Hi.
  - intros j' m' Hm'. rewrite (proj1 (Hne j' m' ltac:(intros [=]; lia))). by eapply inv_later.
  - intros j' m' Hj' Hm'. destruct (decide ((j', m') = (j, m))) as [[= -> ->]|Hd].
    + right. exists i. destruct Heq as [-> ->]. rewrite Hcol.
      destruct (fmax_pinf _ _ Hinf) as [Hp1 Hp2]. split_and!; auto. lia.
    + destruct (Hne _ _ Hd) as [E1 E2]. unfold cell_ok. rewrite E1, E2.
      destruct (inv_cell _ _ Hi j' m' Hj' Hm') as [Hc|(i' & H1 & H2 & H3 & H4 & H5 & H6 & H7)]; [by left|].
      destruct (decide (m < m')%nat) as [Hlt'|]; [left; by eapply inv_later|].
      right. exists i'. rewrite (proj1 (Hne i' (m' - 1)%nat ltac:(intros [=]; lia))). auto 10.
Qed.

Lemma dpInner_ind (P : DPState -> Prop) m i : (1 <= m <= M)%nat -> forall n k s,
  (i < k)%nat -> (k + n <= S L)%nat -> P s ->
  (forall j s, (i < j <= L)%nat -> P s -> P (dpRelax stage m i j s)) ->
  P (dpInner stage m i (seq k n) s).
Proof.
  intros Hm n. induction n as [|n IH]; intros k s Hk Hn Hs Hstep; cbn [seq dpInner]; [assumption|].
  destruct (is_pinf _); [assumption|]. apply IH; [lia|lia| |exact Hstep]. apply Hstep; [lia|assumption].
Qed.

Lemma dpRow_inv m i s : dp_inv m s -> (1 <= m <= M)%nat -> (i <= L)%nat -> dp_inv m (dpRow stage L m s i).
Proof.
  intros Hi Hm HiL. unfold dpRow. destruct (is_pinf _); [assumption|].
  apply dpInner_ind; [assumption|lia|lia|assumption|]. intros; apply dpRelax_inv; auto; lia.
Qed.

Lemma fold_seq_ind {S} (P : nat -> S -> Prop) (f : S -> nat -> S) n : forall a s,
  P a s -> (forall k s, (a <= k < a + n)%nat -> P k s -> P (Datatypes.S k) (f s k)) ->
  P (a + n)%nat (fold_left f (seq a n) s).
Proof.
  induction n as [|n IH]; intros a s H0 Hstep; cbn; [by rewrite Nat.add_0_r|].
  rewrite Nat.add_succ_r, <- Nat.add_succ_l. apply IH.
  - apply Hstep; [lia|assumption].
  - intros k s' Hk. apply Hstep. lia.
Qed.

Lemma dpColumn_inv m s : dp_inv m s -> (1 <= m <= M)%nat -> dp_inv m (dpColumn stage L s m).
Proof.
  intros Hi Hm. unfold dpColumn.
  apply (fold_seq_ind (fun _ s => dp_inv m s) (dpRow stage L m) (S L) 0 s Hi).
  intros k s' Hk Hs. apply dpRow_inv; auto; lia.
Qed.

Lemma dpFill_inv : dp_inv M (dpFill stage L M).
Proof.
  unfold dpFill.
  pose proof (fold_seq_ind (fun m s => dp_inv (m - 1) s) (dpColumn stage L) M 1 (dpInit L M)) as H.
  cbn beta in H. replace (1 + M - 1)%nat with M in H by lia. apply H; [apply dpInit_inv|].
  intros k s Hk Hs. replace (S k - 1)%nat with k by lia. apply dpColumn_inv; [|lia].
  eapply dp_inv_next; [exact Hs|lia].
Qed.

(** The cuts recorded for a finite cell are a partition that achieves it. *)
Lemma cutWalk_spec s : dp_inv M s -> forall m j acc,
  (m <= M)%nat -> (j <= L)%nat -> is_pinf (dpAt s j m) = false ->
  exists ends, length ends = m /\ increasing 0 ends /\ List.last ends 0%nat = j /\
    bottleneckOf ends = dpAt s j m /\
    (forall k i j', (k < m)%nat -> (0%nat :: ends) !! k = Some i -> ends !! k = Some j' ->
       is_pinf (stage (S k) i j') = false) /\
    cutWalk (cut s) m (Z.of_nat j) (Z.of_nat j :: acc) = Some ((Z.of_nat <$> (0%nat :: ends)) ++ acc).
Proof.
  intros Hi m. induction m as [|m IH]; intros j acc Hm Hj Hfin.
  - destruct j as [|j]; [|rewrite (inv_col0 _ _ Hi) in Hfin by lia; discriminate].
    exists []. split_and!; try done. symmetry. apply Hi.
  - destruct (inv_cell _ _ Hi j (S m)) as [E|(i & Hij & Hc & Hv & Hp1 & Hp2 & Hn & _)]; [lia|lia| |].
    { rewrite E in Hfin. discriminate. }
    replace (S m - 1)%nat with m in * by lia.
    destruct (IH i (Z.of_nat j :: acc)) as (ends & H1 & H2 & H3 & H4 & H5 & H6); [lia|lia|done|].
    exists (ends ++ [j]). split_and!.
    + rewrite length_app. cbn. lia.
    + apply increasing_snoc. rewrite H3. auto.
    + apply last_snoc_def.
    + unfold bottleneckOf in *. rewrite bottleneckFrom_snoc, H4, H3, H1. by rewrite Hv.
    + intros k i' j' Hk E1 E2. destruct (decide (k < m)%nat) as [Hlt|Hge].
      * rewrite lookup_app_l in E2 by lia. apply (H5 k i' j'); auto.
        destruct k as [|k]; [exact E1|]. change ((ends ++ [j]) !! k = Some i') in E1.
        change (ends !! k = Some i'). by rewrite lookup_app_l in E1 by lia.
      * assert (k = m) by lia. subst k. rewrite lookup_app_r, H1, Nat.sub_diag in E2 by lia.
        cbn in E2. injection E2 as <-. replace i' with i; [exact Hp2|].
        destruct m as [|m']; [destruct ends; [|done]; cbn in H3, E1; congruence|].
        change ((ends ++ [j]) !! m' = Some i') in E1.
        rewrite lookup_app_l in E1 by lia. rewrite <- H3.
        destruct ends as [|e ends] using rev_ind; [done|]. rewrite last_snoc_def.
        rewrite length_app in H1. cbn in H1. rewrite lookup_app_r in E1 by lia.
        replace (m' - length ends)%nat with 0%nat in E1 by lia. by injection E1.
    + cbn [cutWalk]. unfold cutIndex. rewrite (proj2 (Z.ltb_ge _ _)), Nat2Z.id by lia.
      assert (HC : cut s !! j ≫= (.!! S m) = Some (Z.of_nat i)).
      { destruct (inv_cut _ _ Hi) as [Hl Hr]. unfold cutTab, tget in Hc.
        destruct (lookup_lt_is_Some_2 (cut s) j) as [row Hrow]; [lia|]. rewrite Hrow in Hc |- *. cbn in Hc |- *.
        destruct (lookup_lt_is_Some_2 row (S m)) as [c Hcc];
          [eapply Forall_lookup_1 in Hr; [|done]; lia|]. rewrite Hcc in Hc |- *. cbn in Hc. by subst. }
      rewrite HC. cbn [mbind option_bind]. rewrite H6. f_equal.
      rewrite !fmap_cons, fmap_app. cbn. by rewrite <- app_assoc.
Qed.

(** ** Optimality *)
Context (stage_nn : forall m i j, (1 <= m <= M)%nat -> (i < j <= L)%nat -> nn (stage m i j)).
Context (stage_break : forall m i j j', (1 <= m <= M)%nat -> (i < j <= j')%nat -> (j' <= L)%nat ->
           is_pinf (stage m i j) = true -> is_pinf (stage m i j') = true).

Lemma dpRelax_le m i j s a b :
  dp_inv m s -> (1 <= m <= M)%nat -> (i < j <= L)%nat ->
  fv (dpAt (dpRelax stage m i j s) a b) <= fv (dpAt s a b).
Proof.
  intros Hi Hm Hj. destruct (dpRelax_cases m i j s) as [->|(Hn & Hlt & ->)]; [lia|].
  destruct (decide ((a, b) = (j, m))) as [[= -> ->]|Hd].
  - unfold dpAt at 1. cbn [dp]. erewrite tget_set_eq; [lia|apply Hi|lia|lia].
  - unfold dpAt at 1. cbn [dp]. rewrite tget_set_ne; [done|].
    destruct (decide (j = a)%nat), (decide (m = b)%nat); subst; tauto.
Qed.

(** Cell [(j, m)] is no more than what extending row [i] by one stage gives. *)
Definition relaxed (s : DPState) (m i j : nat) : Prop :=
  fv (dpAt s j m) <= Z.max (fv (dpAt s i (m - 1))) (fv (stage m i j)).

Lemma dpRelax_col m i j s a b : (b ≠ m)%nat -> dpAt (dpRelax stage m i j s) a b = dpAt s a b.
Proof.
  intros Hb. destruct (dpRelax_cases m i j s) as [->|(_ & _ & ->)]; [done|].
  unfold dpAt. cbn [dp]. apply tget_set_ne. right. congruence.
Qed.

Lemma dpRelax_relaxed m i j s : dp_inv m s -> (1 <= m <= M)%nat -> (i < j <= L)%nat ->
  relaxed (dpRelax stage m i j s) m i j.
Proof.
  intros Hi Hm Hj. unfold relaxed. rewrite (dpRelax_col m i j s i (m - 1)) by lia.
  pose proof (dpAt_num _ _ i (m - 1) Hi ltac:(lia) ltac:(lia)) as N1.
  pose proof (dpAt_num _ _ j m Hi ltac:(lia) ltac:(lia)) as N2.
  destruct (fmax_spec _ _ N1 (nn_num _ (stage_nn m i j Hm Hj))) as [N3 <-].
  unfold dpRelax. destruct (fltb _ _) eqn:E.
  - unfold dpAt at 1. cbn [dp]. erewrite tget_set_eq; [lia|apply Hi|lia|lia].
  - by apply fltb_false in E.
Qed.

Lemma dpRelax_relaxed_keep m i j s i' j' : dp_inv m s -> (1 <= m <= M)%nat -> (i < j <= L)%nat ->
  relaxed s m i' j' -> relaxed (dpRelax stage m i j s) m i' j'.
Proof.
  intros Hi Hm Hj H. unfold relaxed in *. rewrite (dpRelax_col m i j s i' (m - 1)) by lia.
  etransitivity; [by apply dpRelax_le|exact H].
Qed.

Lemma dpInner_relaxed m i n : (1 <= m <= M)%nat -> forall k s,
  dp_inv m s -> (i < k)%nat -> (k + n = S L)%nat ->
  forall j, (k <= j <= L)%nat -> relaxed (dpInner stage m i (seq k n) s) m i j.
Proof.
  intros Hm. induction n as [|n IH]; intros k s Hi Hk Hn j Hj; cbn [seq dpInner]; [lia|].
  destruct (is_pinf (stage m i k)) eqn:E.
  - unfold relaxed. pose proof (fv_bound (dpAt s j m)).
    apply (stage_break m i k j Hm) in E; [|lia|lia]. apply is_pinf_spec in E as [_ E]. lia.
  - destruct (decide (j = k)) as [->|].
    + apply (dpInner_ind (fun s => dp_inv m s /\ relaxed s m i k) m i Hm n (S k)); [lia|lia| |].
      * split; [apply dpRelax_inv|apply dpRelax_relaxed]; auto; lia.
      * intros j' s' Hj' [H1 H2]. split; [apply dpRelax_inv|apply dpRelax_relaxed_keep]; auto; lia.
    + apply IH; try lia. apply dpRelax_inv; auto; lia.
Qed.

Lemma dpRow_relaxed m i s : dp_inv m s -> (1 <= m <= M)%nat -> (i <= L)%nat ->
  (forall j, (i < j <= L)%nat -> relaxed (dpRow stage L m s i) m i j) /\
  (forall i' j', relaxed s m i' j' -> relaxed (dpRow stage L m s i) m i' j').
Proof.
  intros Hi Hm HiL. unfold dpRow. destruct (is_pinf (dpAt s i (m - 1))) eqn:E.
  - split; [|auto]. intros j Hj. unfold relaxed. apply is_pinf_spec in E as [_ E].
    pose proof (fv_bound (dpAt s j m)). lia.
  - split.
    + intros j Hj. apply dpInner_relaxed; auto; lia.
    + intros i' j' H.
      apply (dpInner_ind (fun s => dp_inv m s /\ relaxed s m i' j') m i Hm); [lia|lia|auto|].
      intros j s' Hj [H1 H2]. split; [apply dpRelax_inv|apply dpRelax_relaxed_keep]; auto; lia.
Qed.

Lemma dpColumn_relaxed m s : dp_inv m s -> (1 <= m <= M)%nat ->
  forall i j, (i < j <= L)%nat -> relaxed (dpColumn stage L s m) m i j.
Proof.
  intros Hi Hm. unfold dpColumn.
  pose proof (fold_seq_ind (fun k s => dp_inv m s /\ forall i j, (i < k)%nat -> (i < j <= L)%nat -> relaxed s m i j)
    (dpRow stage L m) (S L) 0 s) as H. destruct H as [_ H].
  - split; [assumption|]. intros; lia.
  - intros k s' Hk [H1 H2]. split; [apply dpRow_inv; auto; lia|]. intros i j Hik Hij.
    destruct (dpRow_relaxed m k s' H1 Hm ltac:(lia)) as [R1 R2].
    destruct (decide (i = k)) as [->|]; [by apply R1|]. apply R2, H2; lia.
  - intros i j Hij. apply H; lia.
Qed.

Lemma dpRow_col m i s a b : (b ≠ m)%nat -> dpAt (dpRow stage L m s i) a b = dpAt s a b.
Proof.
  intros Hb. unfold dpRow. destruct (is_pinf _); [done|].
  generalize (seq (S i) (L - i)). intros js. revert s.
  induction js as [|j js IH]; intros s; cbn; [done|]. destruct (is_pinf _); [done|].
  rewrite IH. by apply dpRelax_col.
Qed.

Lemma dpColumn_col m s a b : (b ≠ m)%nat -> dpAt (dpColumn stage L s m) a b = dpAt s a b.
Proof.
  intros Hb. unfold dpColumn. generalize (seq 0 (S L)). intros rows. revert s.
  induction rows as [|i rows IH]; intros s; cbn; [done|]. rewrite IH. by apply dpRow_col.
Qed.

Lemma dpFill_relaxed m i j : (1 <= m <= M)%nat -> (i < j <= L)%nat -> relaxed (dpFill stage L M) m i j.
Proof.
  intros Hm Hij. unfold dpFill.
  pose proof (fold_seq_ind (fun k s => dp_inv (k - 1) s /\
    forall m i j, (1 <= m < k)%nat -> (i < j <= L)%nat -> relaxed s m i j) (dpColumn stage L) M 1 (dpInit L M)) as H.
  destruct H as [_ H].
  - split; [apply dpInit_inv|]. intros; lia.
  - intros k s Hk [H1 H2]. replace (S k - 1)%nat with k by lia.
    assert (Hk' : dp_inv k s) by (eapply dp_inv_next; [exact H1|lia]).
    split; [apply dpColumn_inv; [exact Hk'|lia]|]. intros m' i' j' Hm' Hij'.
    destruct (decide (m' = k)) as [->|]; [apply dpColumn_relaxed; auto; lia|].
    unfold relaxed. rewrite !dpColumn_col by lia. apply H2; lia.
  - apply H; lia.
Qed.

(** No contiguous partition beats the table. *)
Lemma dpFill_optimal ends :
  increasing 0 ends -> (length ends <= M)%nat -> (List.last ends 0 <= L)%nat ->
  num (bottleneckOf ends) /\
  fv (dpAt (dpFill stage L M) (List.last ends 0%nat) (length ends)) <= fv (bottleneckOf ends).
Proof.
  induction ends as [|j ends IH] using rev_ind; intros Hinc Hlen Hlast.
  - cbn [List.last length]. rewrite (inv_00 _ _ dpFill_inv). split; [reflexivity|done].
  - rewrite last_snoc_def in *. rewrite length_app in *. cbn [length] in *.
    apply increasing_snoc in Hinc as [Hinc Hj]. destruct IH as [N IH]; [auto|lia|lia|].
    unfold bottleneckOf in *. rewrite bottleneckFrom_snoc.
    destruct (fmax_spec _ _ N (nn_num _ (stage_nn (1 + length ends) (List.last ends 0%nat) j ltac:(lia) ltac:(lia)))) as [N' ->].
    split; [exact N'|].
    pose proof (dpFill_relaxed (length ends + 1) (List.last ends 0%nat) j ltac:(lia) ltac:(lia)) as R.
    unfold relaxed in R. replace (length ends + 1 - 1)%nat with (length ends) in R by lia.
    replace (1 + length ends)%nat with (length ends + 1)%nat by lia. lia.
Qed.
End DP.

(** ** The partition theorems *)

(** The shards are non-empty, contiguous from [next], and end with layer [L-1]. *)
Fixpoint contiguousb (next : Z) (xs : list Assignment) (L : Z) : bool :=
  match xs with
  | [] => next =? L
  | a :: xs' => (A_LayerStart a =? next) && (A_LayerStart a <=? A_LayerEnd a)
                && contiguousb (A_LayerEnd a + 1) xs' L
  end.

(** The first shard is the host, the others are workers. *)
Definition rolesb (xs : list Assignment) : bool :=
  match xs with
  | [] => true
  | a :: xs' => bool_decide (A_Role a = RoleHost) && forallb (fun b => bool_decide (A_Role b = RoleWorker)) xs'
  end.

(** The slowest stage of the pipeline that [xs] describes. *)
Fixpoint slowestFrom (stage : nat -> Z -> Z -> float64) (acc : float64) (m : nat) (xs : list Assignment) : float64 :=
  match xs with
  | [] => acc
  | a :: xs' => slowestFrom stage (fmax acc (stage m (A_LayerStart a) (A_LayerEnd a + 1))) (S m) xs'
  end.

Definition slowestStage (stage : nat -> Z -> Z -> float64) (xs : list Assignment) : float64 :=
  slowestFrom stage f0 1 xs.

Definition natStage (stage : nat -> Z -> Z -> float64) (m i j : nat) : float64 := stage m (Z.of_nat i) (Z.of_nat j).

Lemma skipn_nth_node order k : (k < length order)%nat ->
  skipn k order = nth_node order k :: skipn (S k) order.
Proof.
  intros Hk. apply drop_S. unfold nth_node. destruct (nth_lookup_or_length order k Node_zero); [done|lia].
Qed.

Lemma cutAssignments_cons order m i j ends : (i < j)%nat ->
  cutAssignments order m (Z.of_nat <$> (i :: j :: ends)) =
  mkAssign (Node_ID (nth_node order (m - 1))) (if Nat.eqb m 1 then RoleHost else RoleWorker)
           (Z.of_nat i) (Z.of_nat j - 1) false
  :: cutAssignments order (S m) (Z.of_nat <$> (j :: ends)).
Proof. intros Hij. cbn. by rewrite (proj2 (Z.leb_gt _ _)) by lia. Qed.

Lemma cutAssignments_spec order stage ends : forall m i acc,
  increasing i ends -> (1 <= m)%nat -> (m - 1 + length ends <= length order)%nat ->
  let xs := cutAssignments order m (Z.of_nat <$> (i :: ends)) in
  length xs = length ends /\
  contiguousb (Z.of_nat i) xs (Z.of_nat (List.last ends i)) = true /\
  A_NodeID <$> xs = Node_ID <$> firstn (length ends) (skipn (m - 1) order) /\
  (forall k a, xs !! k = Some a -> A_Role a = (if Nat.eqb (m + k) 1 then RoleHost else RoleWorker) /\
     exists j, A_LayerEnd a + 1 = Z.of_nat j /\ ends !! k = Some j /\
       exists i', A_LayerStart a = Z.of_nat i' /\ (i :: ends) !! k = Some i') /\
  slowestFrom stage acc m xs = bottleneckFrom (natStage stage) acc m i ends.
Proof.
  induction ends as [|j ends IH]; intros m i acc Hinc Hm Hlen.
  - cbn. rewrite Z.eqb_refl. by split_and!.
  - destruct Hinc as [Hij Hinc]. cbv zeta. rewrite (cutAssignments_cons order m i j ends Hij).
    cbn [length] in Hlen. set (a := mkAssign _ _ _ _ _).
    assert (Ha : A_LayerEnd a + 1 = Z.of_nat j) by (cbn; lia).
    destruct (IH (S m) j (fmax acc (natStage stage m i j)) Hinc ltac:(lia) ltac:(lia)) as (H1 & H2 & H3 & H4 & H5).
    split_and!.
    + cbn [length]. by rewrite H1.
    + cbn [contiguousb]. rewrite Ha, last_cons_def, H2. cbn. lia.
    + rewrite fmap_cons, H3. rewrite (skipn_nth_node order (m - 1)) by lia.
      replace (S (m - 1)) with (S m - 1)%nat by lia. reflexivity.
    + intros [|k] b E; cbn in E.
      * injection E as <-. rewrite Nat.add_0_r. split; [done|]. exists j. split; [done|]. split; [done|]. by exists i.
      * replace (m + S k)%nat with (S m + k)%nat by lia. exact (H4 k b E).
    + cbn [slowestFrom]. rewrite Ha. exact H5.
Qed.

Lemma dpBest_spec s L M :
  let r := dpBest s L M in
  (r = (None, f_inf) \/ exists m, r = (Some m, dpAt s L m) /\ (1 <= m <= M)%nat /\
                               num (snd r) /\ is_pinf (snd r) = false) /\
  num (snd r) /\
  (forall m, (1 <= m <= M)%nat -> num (dpAt s L m) -> fv (snd r) <= fv (dpAt s L m)).
Proof.
  induction M as [|M IH]; unfold dpBest in *; cbv zeta in *.
  - split; [by left|]. split; [reflexivity|]. intros; lia.
  - rewrite seq_S, fold_left_app. cbn [fold_left Nat.add].
    destruct (fold_left _ (seq 1 M) _) as [bm b]. cbn [snd] in *. destruct IH as (H1 & H2 & H3).
    destruct (fltb _ _) eqn:E; cbn [snd].
    + apply fltb_spec in E as (N & _ & Hlt). pose proof (fv_bound b).
      pose proof (not_pinf (dpAt s L (S M)) ltac:(lia)).
      split; [right; exists (S M); split_and!; auto; lia|]. split; [exact N|].
      intros m Hm Nm. destruct (decide (m = S M)) as [->|]; [lia|]. specialize (H3 m ltac:(lia) Nm). lia.
    + split; [destruct H1 as [?|(m & ? & ? & ? & ?)]; [by left|right; exists m; split_and!; auto; lia]|].
      split; [exact H2|]. intros m Hm Nm. destruct (decide (m = S M)) as [->|]; [|apply H3; auto; lia].
      by apply fltb_false in E.
Qed.

Lemma makeRows_nonneg L : makeRows L = true -> 0 <= L.
Proof. intros H. apply andb_true_iff in H as [H%Z.leb_le _]. exact H. Qed.

(** What [dpPartition] returns, in terms of the ends of the shards it chose. *)
Lemma dpPartition_cases order links model quant context :
  makeRows (Model_Layers model) = true ->
  let stage m i j := stageTimeAtIdx order m i j (buildLinkIndex links) model quant context in
  let L := Z.to_nat (Model_Layers model) in
  let s := dpFill (natStage stage) L (length order) in
  (dpPartition order links model quant context = Some ([], f_inf) /\
   forall m, (1 <= m <= length order)%nat -> num (dpAt s L m) -> is_pinf (dpAt s L m) = true) \/
  exists m ends, (1 <= m <= length order)%nat /\ length ends = m /\ increasing 0 ends /\
    List.last ends 0%nat = L /\
    (forall k i j', (k < m)%nat -> (0%nat :: ends) !! k = Some i -> ends !! k = Some j' ->
         is_pinf (natStage stage (S k) i j') = false) /\
    bottleneckOf (natStage stage) ends = dpAt s L m /\
    (forall m', (1 <= m' <= length order)%nat -> num (dpAt s L m') -> fv (dpAt s L m) <= fv (dpAt s L m')) /\
    num (dpAt s L m) /\ is_pinf (dpAt s L m) = false /\
    dpPartition order links model quant context =
      Some (cutAssignments order 1 (Z.of_nat <$> (0%nat :: ends)), dpAt s L m).
Proof.
  intros HR. pose proof (makeRows_nonneg _ HR) as HL. cbv zeta. unfold dpPartition. rewrite HR. cbv zeta. cbn [negb].
  set (stage := fun m i j => stageTimeAtIdx order m i j _ _ _ _).
  change (fun m i j => stageTimeAtIdx order m (Z.of_nat i) (Z.of_nat j) (buildLinkIndex links) model quant context)
    with (natStage stage).
  set (L := Z.to_nat (Model_Layers model)). set (s := dpFill _ _ _).
  pose proof (dpFill_inv (natStage stage) L (length order)) as Hinv. fold s in Hinv.
  destruct (dpBest_spec s L (length order)) as ([H|(m & H & Hm & Hn & Hp)] & _ & Hmin).
  - left. rewrite H in Hmin |- *. split; [done|]. intros m Hm Nm. specialize (Hmin m Hm Nm).
    apply is_pinf_spec. split; [exact Nm|]. pose proof (fv_bound (dpAt s L m)).
    change (fv (snd (None (A:=nat), f_inf))) with INF in Hmin. lia.
  - right. rewrite H in Hmin, Hn, Hp |- *. cbn [snd] in Hmin, Hn, Hp. rewrite Hp.
    destruct (cutWalk_spec (natStage stage) L (length order) s Hinv m L [] ltac:(lia) ltac:(lia) Hp)
      as (ends & E1 & E2 & E3 & E4 & E5 & E6).
    exists m, ends. split_and!; auto; try lia. unfold reconstructCuts. rewrite E6. cbn [mbind option_bind].
    by rewrite app_nil_r.
Qed.

Lemma last_default_pos ends : forall i, increasing i ends -> (i <= List.last ends i)%nat.
Proof.
  induction ends as [|j ends IH]; intros i H; [done|]. destruct H as [H1 H2].
  rewrite last_cons_def. specialize (IH j H2). lia.
Qed.

Lemma stageTimeAtIdx_fits order m i j idx model quant context :
  is_pinf (stageTimeAtIdx order m i j idx model quant context) = false ->
  stageFits (nth_node order (m - 1)) model quant i j context = true.
Proof. unfold stageTimeAtIdx. destruct (stageFits _ _ _ _ _ _); [done|discriminate]. Qed.

(** [dpPartition] returns a result whenever its tables can be made: no index of its tables or of the walk through [cut] is out of range. *)
Theorem dpPartition_total order links model quant context :
  makeRows (Model_Layers model) = true ->
  exists xs best, dpPartition order links model quant context = Some (xs, best).
Proof.
  intros HL. destruct (dpPartition_cases order links model quant context HL)
    as [[-> _]|(m & ends & _ & _ & _ & _ & _ & _ & _ & _ & _ & ->)]; eauto.
Qed.

Lemma dpPartition_ok order links model quant context xs best :
  dpPartition order links model quant context = Some (xs, best) -> xs ≠ [] ->
  contiguousb 0 xs (Model_Layers model) = true /\ rolesb xs = true /\
  A_NodeID <$> xs = Node_ID <$> firstn (length xs) order /\
  (forall k a, xs !! k = Some a ->
     stageFits (nth_node order k) model quant (A_LayerStart a) (A_LayerEnd a + 1) context = true) /\
  slowestStage (fun m i j => stageTimeAtIdx order m i j (buildLinkIndex links) model quant context) xs = best /\
  is_pinf best = false /\ is_nan best = false.
Proof.
  intros H Hne. assert (HR : makeRows (Model_Layers model) = true).
  { unfold dpPartition in H. by destruct (makeRows _). }
  pose proof (makeRows_nonneg _ HR) as HL.
  destruct (dpPartition_cases order links model quant context HR)
    as [[E _]|(m & ends & Hm & Hl & Hinc & Hlast & Hfin & Hb & Hmin & Hn & Hp & E)]; rewrite E in H.
  { injection H as <- <-. done. }
  set (stage := fun m i j => stageTimeAtIdx order m i j (buildLinkIndex links) model quant context) in *.
  destruct (cutAssignments_spec order stage ends 1 0 f0 Hinc ltac:(lia) ltac:(lia)) as (H1 & H2 & H3 & H4 & H5).
  remember (cutAssignments order 1 (Z.of_nat <$> (0%nat :: ends))) as ys eqn:Ey. injection H as -> <-.
  rewrite Hlast, Z2Nat.id in H2 by lia.
  change (1 - 1)%nat with 0%nat in H3. rewrite drop_0 in H3. clear Ey E. split_and!; auto.
  - destruct xs as [|a xs']; [done|]. cbn [rolesb]. apply andb_true_iff. split.
    + apply bool_decide_eq_true. exact (proj1 (H4 0%nat a eq_refl)).
    + apply forallb_forall. intros b Hb'. apply bool_decide_eq_true.
      apply list_elem_of_In, list_elem_of_lookup in Hb' as [k Hk]. exact (proj1 (H4 (S k) b Hk)).
  - by rewrite H1.
  - intros k a Ha. destruct (H4 k a Ha) as (_ & j & Hj & Hj' & i & Hi & Hi').
    rewrite Hi, Hj. apply lookup_lt_Some in Ha.
    pose proof (stageTimeAtIdx_fits order (S k) (Z.of_nat i) (Z.of_nat j) (buildLinkIndex links) model quant context
      (Hfin k i j ltac:(lia) Hi' Hj')) as HF. by rewrite Nat.sub_succ, Nat.sub_0_r in HF.
  - unfold slowestStage. rewrite H5. exact Hb.
Qed.

(** A partition found by [dpPartition] covers the layers [0..L-1] by
    non-empty contiguous shards, on the first nodes of the pipeline order, host
    first; every shard fits its node; and the bottleneck returned is exactly the
    time of its slowest stage, a finite number. *)
Theorem dpPartition_sound order links model quant context xs best :
  dpPartition order links model quant context = Some (xs, best) -> xs ≠ [] ->
  contiguousb 0 xs (Model_Layers model) = true /\ rolesb xs = true /\
  A_NodeID <$> xs = Node_ID <$> firstn (length xs) order /\
  (forall k a, xs !! k = Some a ->
     stageFits (nth_node order k) model quant (A_LayerStart a) (A_LayerEnd a + 1) context = true) /\
  slowestStage (fun m i j => stageTimeAtIdx order m i j (buildLinkIndex links) model quant context) xs = best /\
  is_pinf best = false /\ is_nan best = false.
Proof. apply dpPartition_ok. Qed.

(** ** Stage times under well-formed inputs *)
Section Inputs.
Context (order : list Node) (links : list Link) (model : ModelSpec) (quant : Quantization) (context : Z).
Context (Hnodes : Forall node_ok order) (Hlinks : Forall link_ok links).
Context (Hmodel : model_ok model) (Hparams : params_ok model).
Context (Hsize : below 100 (Quant_SizeGB quant)) (Hctx : go_int context).

Lemma lookupLink_ok from to l : lookupLink links from to = Some l -> link_ok l.
Proof.
  intros H. apply find_some in H as [H _]. rewrite Forall_forall in Hlinks.
  by apply Hlinks, list_elem_of_In.
Qed.

Lemma LinkIndex_ok from to l : LinkIndex_lookup (buildLinkIndex links) from to = Some l -> link_ok l.
Proof.
  rewrite LinkIndex_lookup_last. intros H. apply find_some in H as [H _]. rewrite Forall_forall in Hlinks.
  apply Hlinks. by rewrite <- elem_of_reverse, list_elem_of_In.
Qed.

Lemma nth_node_ok k : (k < length order)%nat -> node_ok (nth_node order k).
Proof.
  intros Hk. rewrite Forall_forall in Hnodes. apply Hnodes, list_elem_of_In, nth_In, Hk.
Qed.

Lemma stageTimeAtIdx_value m i j : (1 <= m <= length order)%nat -> 0 <= j - i <= 2 ^ 53 ->
  let t := stageTimeAtIdx order m i j (buildLinkIndex links) model quant context in
  nn t /\ is_pinf t = negb (stageFits (nth_node order (m - 1)) model quant i j context).
Proof.
  intros Hm Hij. cbv zeta. unfold stageTimeAtIdx. destruct (stageFits _ _ _ _ _ _); cbn [negb].
  - pose proof (computeTime_below (nth_node order (m - 1)) model quant i j
      (nth_node_ok (m - 1) ltac:(lia)) Hmodel Hparams Hsize Hij) as B1.
    assert (B2 : below 170 (if (2 <=? m)%nat then commTime model (LinkIndex_lookup (buildLinkIndex links)
      (Node_ID (nth_node order (m - 2))) (Node_ID (nth_node order (m - 1)))) else f0)).
    { destruct (2 <=? m)%nat; [apply commTime_below; [assumption|intros l; apply LinkIndex_ok]|].
      split; [apply nnf_f0|]. by apply Z.pow_nonneg. }
    pose proof (below_add _ _ _ _ B1 B2 ltac:(lia) ltac:(lia) ltac:(lia)) as B3.
    split; [apply nnf_nn, B3|]. apply not_pinf.
    apply (proj2 (proj1 (is_fin_spec _) (below_fin _ _ B3))).
  - split; [|reflexivity]. split; [reflexivity|]. pose proof INF_pos. change (fv f_inf) with INF. lia.
Qed.

Lemma stageTimeAtIdx_break m i j j' : (1 <= m <= length order)%nat -> i <= j <= j' -> j' - i <= 2 ^ 53 ->
  is_pinf (stageTimeAtIdx order m i j (buildLinkIndex links) model quant context) = true ->
  is_pinf (stageTimeAtIdx order m i j' (buildLinkIndex links) model quant context) = true.
Proof.
  intros Hm Hij Hj'. rewrite !(fun a b H => proj2 (stageTimeAtIdx_value m a b Hm H)) by lia.
  rewrite !negb_true_iff. intros H. apply not_true_is_false. intros H'.
  assert (HS : nnf (Quant_SizeGB quant)) by apply Hsize.
  rewrite (stageFits_mono _ model quant i j j' context Hmodel Hctx HS) in H; auto; [discriminate|lia].
Qed.
End Inputs.

(** A contiguous list of shards as the ends of a partition. *)
Lemma contiguous_ends stage ys L : forall next m acc,
  contiguousb (Z.of_nat next) ys L = true ->
  exists ends, length ends = length ys /\ increasing next ends /\ Z.of_nat (List.last ends next) = L /\
    slowestFrom stage acc m ys = bottleneckFrom (natStage stage) acc m next ends.
Proof.
  induction ys as [|a ys IH]; intros next m acc H; cbn [contiguousb] in H.
  - apply Z.eqb_eq in H. exists []. by split_and!.
  - apply andb_true_iff in H as [H Hr]. apply andb_true_iff in H as [H1%Z.eqb_eq H2%Z.leb_le].
    pose proof (Z2Nat.id (A_LayerEnd a + 1) ltac:(lia)) as HE. rewrite <- HE in Hr.
    destruct (IH _ (S m) (fmax acc (stage m (A_LayerStart a) (A_LayerEnd a + 1))) Hr) as (ends & E1 & E2 & E3 & E4).
    exists (Z.to_nat (A_LayerEnd a + 1) :: ends). split_and!.
    + cbn. by rewrite E1.
    + split; [lia|exact E2].
    + by rewrite last_cons_def.
    + cbn [slowestFrom bottleneckFrom]. rewrite E4. unfold natStage at 3. by rewrite HE, H1.
Qed.

Lemma stageTimeAt_idx order links m i j model quant context :
  NoDup ((fun l => (Link_From l, Link_To l)) <$> links) ->
  stageTimeAtIdx order m i j (buildLinkIndex links) model quant context =
  stageTimeAt order m i j links model quant context.
Proof. intros H. unfold stageTimeAtIdx, stageTimeAt. by rewrite LinkIndex_lookup_unique. Qed.

Lemma slowestFrom_ext f g xs : (forall m i j, f m i j = g m i j) -> forall acc m,
  slowestFrom f acc m xs = slowestFrom g acc m xs.
Proof. intros H. induction xs as [|a xs IH]; intros; cbn; [done|]. by rewrite H, IH. Qed.

Lemma dpPartition_least order links model quant context xs best ys :
  Forall node_ok order -> Forall link_ok links ->
  NoDup ((fun l => (Link_From l, Link_To l)) <$> links) ->
  model_ok model -> params_ok model -> below 100 (Quant_SizeGB quant) -> go_int context ->
  dpPartition order links model quant context = Some (xs, best) ->
  contiguousb 0 ys (Model_Layers model) = true -> (length ys <= length order)%nat ->
  (best <=? slowestStage (fun m i j => stageTimeAt order m i j links model quant context) ys)%f64 = true.
Proof.
  intros Hn Hl Hu Hm Hp HS Hc H Hy Hlen.
  assert (HR : makeRows (Model_Layers model) = true) by (unfold dpPartition in H; by destruct (makeRows _)).
  pose proof (mo_layers _ Hm) as HL.
  unfold slowestStage. erewrite slowestFrom_ext by (intros; symmetry; by apply stageTimeAt_idx).
  set (stage := fun m i j => stageTimeAtIdx order m i j (buildLinkIndex links) model quant context).
  destruct (contiguous_ends stage ys (Model_Layers model) 0 1 f0 Hy) as (ends & E1 & E2 & E3 & E4).
  change (slowestFrom _ _ _ ys) with (slowestFrom stage f0 1 ys). rewrite E4.
  assert (HLe : List.last ends 0%nat = Z.to_nat (Model_Layers model)) by lia.
  destruct (dpFill_optimal (natStage stage) (Z.to_nat (Model_Layers model)) (length order)) with (ends := ends)
    as [N Hle]; auto; try lia.
  { intros m i j Hm' Hij. apply stageTimeAtIdx_value; auto; lia. }
  { intros m i j j' Hm' Hij Hj'. apply stageTimeAtIdx_break; auto; lia. }
  assert (Hpos : (1 <= length ends)%nat) by (destruct ends; cbn in HLe |- *; lia).
  rewrite HLe in Hle. pose proof (dpAt_num (natStage stage) _ _ _ _ (Z.to_nat (Model_Layers model)) (length ends)
    (dpFill_inv (natStage stage) (Z.to_nat (Model_Layers model)) (length order)) ltac:(lia) ltac:(lia)) as Nd.
  fold (bottleneckOf (natStage stage) ends). apply fleb_spec.
  destruct (dpPartition_cases order links model quant context HR)
    as [[E Hinf]|(m & ends' & _ & _ & _ & _ & _ & _ & Hmin & Hnum & _ & E)]; rewrite E in H; injection H as <- <-.
  - split; [reflexivity|]. split; [exact N|]. specialize (Hinf (length ends) ltac:(lia) Nd).
    fold stage in Hinf. apply is_pinf_spec in Hinf as [_ Hinf]. change (fv f_inf) with INF. lia.
  - split; [exact Hnum|]. split; [exact N|]. specialize (Hmin (length ends) ltac:(lia) Nd).
    fold stage in Hmin |- *. lia.
Qed.

(** (C2) The dynamic program is optimal. Whenever its tables can be made and the
    links are pairwise distinct, it returns a list of shards and a bottleneck:
    either no shard and [+Inf], or shards that cover the layers [0..L-1]
    contiguously over a prefix of the pipeline order, host first, each of which
    fits its node, whose slowest stage takes exactly the bottleneck returned, a
    finite number. And no way of splitting the layers into contiguous shards over
    a prefix of the order has a smaller bottleneck, so that [+Inf] is returned only
    when every split has an infinite stage. Stages are measured with the reference
    [stageTimeAt] that scans the links. The figures of the nodes, links, model and
    quantization are assumed to be in the ranges that exclude overflow of a
    [float64] ([node_ok], [link_ok], [model_ok], [params_ok], [below 100]). *)
Theorem dpPartition_optimal order links model quant context :
  Forall node_ok order -> Forall link_ok links ->
  NoDup ((fun l => (Link_From l, Link_To l)) <$> links) ->
  model_ok model -> params_ok model -> below 100 (Quant_SizeGB quant) -> go_int context ->
  makeRows (Model_Layers model) = true ->
  let slowest := slowestStage (fun m i j => stageTimeAt order m i j links model quant context) in
  exists xs best, dpPartition order links model quant context = Some (xs, best) /\
    ((xs = [] /\ best = f_inf) \/
     (contiguousb 0 xs (Model_Layers model) = true /\ rolesb xs = true /\
      A_NodeID <$> xs = Node_ID <$> firstn (length xs) order /\
      (forall k a, xs !! k = Some a ->
         stageFits (nth_node order k) model quant (A_LayerStart a) (A_LayerEnd a + 1) context = true) /\
      slowest xs = best /\ is_pinf best = false /\ is_nan best = false)) /\
    (forall ys, contiguousb 0 ys (Model_Layers model) = true -> (length ys <= length order)%nat ->
       (best <=? slowest ys)%f64 = true).
Proof.
  intros Hn Hl Hu Hm Hp HS Hc HR slowest.
  destruct (dpPartition_cases order links model quant context HR)
    as [[E _]|(m & ends & Hm' & Hlen & Hinc & _ & _ & _ & _ & _ & _ & E)]; (do 2 eexists; split; [exact E|split]).
  1: by left. 2: right.
  1,3: intros ys Hy Hle; exact (dpPartition_least _ _ _ _ _ _ _ ys Hn Hl Hu Hm Hp HS Hc E Hy Hle).
  destruct (dpPartition_ok _ _ _ _ _ _ _ E) as (H1 & H2 & H3 & H4 & H5 & H6 & H7); [|split_and!; auto].
  - intros En. destruct (cutAssignments_spec order (fun _ _ _ => f0) ends 1 0 f0 Hinc ltac:(lia) ltac:(lia)) as (HA & _).
    rewrite En in HA. cbn [length] in HA. lia.
  - rewrite <- H5. unfold slowest, slowestStage. apply slowestFrom_ext. intros. symmetry. by apply stageTimeAt_idx.
Qed.

(** ** Candidate subsets *)

(** The aggregate useful memory of a prefix, summed as the loop sums it. *)
Definition aggregateMemory (ns : list Node) : float64 :=
  fold_left (fun acc n => acc + usefulMemoryForFit n)%f64 ns f0.

Definition aggregateFits (ranked : list Node) (ramNeeded : float64) (k : nat) : bool :=
  (aggregateMemory (firstn k ranked) >=? ramNeeded + overheadOSRuntimeGB * of_Z (Z.of_nat k))%f64.

Lemma kMinScan_spec need pre rest :
  (forall k, (1 <= k <= length pre)%nat -> aggregateFits (pre ++ rest) need k = false) ->
  match kMinScan need (aggregateMemory pre) (S (length pre)) rest with
  | None => forall k, (1 <= k <= length (pre ++ rest))%nat -> aggregateFits (pre ++ rest) need k = false
  | Some kMin => (1 <= kMin <= length (pre ++ rest))%nat /\ aggregateFits (pre ++ rest) need kMin = true /\
                 forall k, (1 <= k < kMin)%nat -> aggregateFits (pre ++ rest) need k = false
  end.
Proof.
  revert pre. induction rest as [|n rest IH]; intros pre Hpre; cbn [kMinScan].
  - intros k. rewrite app_nil_r in *. apply Hpre.
  - assert (Ha : (aggregateMemory pre + usefulMemoryForFit n)%f64 = aggregateMemory (pre ++ [n])).
    { unfold aggregateMemory. by rewrite fold_left_app. }
    assert (Hf : firstn (S (length pre)) (pre ++ n :: rest) = pre ++ [n]).
    { rewrite firstn_app, (firstn_all2 pre) by lia. replace (S (length pre) - length pre)%nat with 1%nat by lia.
      reflexivity. }
    rewrite Ha. destruct (fleb _ _) eqn:E.
    + split; [rewrite length_app; cbn; lia|]. split; [unfold aggregateFits; by rewrite Hf|].
      intros k Hk. apply Hpre. lia.
    + specialize (IH (pre ++ [n])). rewrite length_app in IH. cbn [length] in IH.
      rewrite <- app_assoc in IH. cbn [app] in IH. rewrite Nat.add_1_r in IH. apply IH.
      intros k Hk. destruct (decide (k = S (length pre))) as [->|]; [unfold aggregateFits; by rewrite Hf|].
      apply Hpre. lia.
Qed.

Lemma filter_seq_le n len : forall k, List.filter (fun k => Nat.leb k len) (seq k n) = seq k (Nat.min n (S len - k)).
Proof.
  induction n as [|n IH]; intros k; [done|]. cbn [seq List.filter]. rewrite IH.
  destruct (Nat.leb_spec k len).
  - replace (Nat.min (S n) (S len - k)) with (S (Nat.min n (S len - S k))) by lia. reflexivity.
  - replace (Nat.min n (S len - S k)) with 0%nat by lia.
    replace (Nat.min (S n) (S len - k)) with 0%nat by lia. reflexivity.
Qed.

(** Phase B explores exactly the prefixes of the capacity ranking of length
    [k_min .. k_min+2] (cut at the fleet size), where [k_min] is the least prefix
    whose aggregate useful memory holds weights, KV cache and per-node overhead;
    and it gives up only when no prefix does. *)
Theorem candidateSubsets_kmin nodes model quant kv c :
  C_ForceNodeCount c = None ->
  let ranked := rankedByCapacity nodes in
  let need := (Quant_SizeGB quant + kv)%f64 in
  (candidateSubsets nodes model quant kv c = [] /\
   forall k, (1 <= k <= length nodes)%nat -> aggregateFits ranked need k = false) \/
  exists kMin, (1 <= kMin <= length nodes)%nat /\ aggregateFits ranked need kMin = true /\
    (forall k, (1 <= k < kMin)%nat -> aggregateFits ranked need k = false) /\
    candidateSubsets nodes model quant kv c =
      map (fun k => firstn k ranked) (seq kMin (Nat.min 3 (S (length nodes) - kMin))).
Proof.
  intros Hc. cbv zeta. unfold candidateSubsets. rewrite Hc. cbv zeta.
  assert (Hlen : length (rankedByCapacity nodes) = length nodes) by apply go_sort_length.
  pose proof (kMinScan_spec (Quant_SizeGB quant + kv)%f64 [] (rankedByCapacity nodes)) as H.
  cbn [length app] in H. change (aggregateMemory []) with f0 in H. rewrite <- Hlen.
  destruct (kMinScan _ _ _ _) as [kMin|].
  - right. destruct H as (H1 & H2 & H3); [intros; lia|]. exists kMin. split_and!; auto; try lia.
    by rewrite filter_seq_le.
  - left. split; [done|]. apply H. intros; lia.
Qed.

(** Every candidate subset is a non-empty prefix of the ranking. *)
Lemma candidateSubsets_prefix nodes model quant kv c ns :
  nodes ≠ [] -> ns ∈ candidateSubsets nodes model quant kv c ->
  exists k, (1 <= k <= length nodes)%nat /\ ns = firstn k (rankedByCapacity nodes).
Proof.
  intros Hne Hin. assert (Hlen : length (rankedByCapacity nodes) = length nodes) by apply go_sort_length.
  assert (Hpos : (0 < length nodes)%nat) by (destruct nodes; [done|cbn; lia]).
  destruct (C_ForceNodeCount c) as [k|] eqn:Hc.
  - unfold candidateSubsets in Hin. rewrite Hc in Hin. cbv zeta in Hin. rewrite Hlen in Hin.
    apply list_elem_of_singleton in Hin as ->. eexists. split; [|reflexivity].
    destruct (Z.ltb_spec k 1); destruct (Z.gtb_spec 1 (Z.of_nat (length nodes)));
      destruct (Z.gtb_spec k (Z.of_nat (length nodes))); lia.
  - unfold candidateSubsets in Hin. rewrite Hc in Hin. cbv zeta in Hin.
    pose proof (kMinScan_spec (Quant_SizeGB quant + kv)%f64 [] (rankedByCapacity nodes)) as H.
    cbn [length app] in H. change (aggregateMemory []) with f0 in H.
    destruct (kMinScan _ _ _ _) as [kMin|]; [|by apply not_elem_of_nil in Hin].
    destruct H as (H1 & _); [intros; lia|]. rewrite filter_seq_le in Hin.
    apply list_elem_of_In, in_map_iff in Hin as (k & <- & Hk). apply in_seq in Hk.
    exists k. split; [lia|done].
Qed.

(** ** Pinned ranges *)

Definition same_shard (a b : Assignment) : Prop :=
  A_LayerStart b = A_LayerStart a /\ A_LayerEnd b = A_LayerEnd a /\ A_Role b = A_Role a /\ A_Draft b = A_Draft a.

Definition pin_step (ids : list string) (xs ys : list Assignment) : Prop :=
  Forall2 (fun a b => same_shard a b /\ (A_NodeID b = A_NodeID a \/ A_NodeID b ∈ ids)) xs ys.

Lemma pin_step_refl ids xs : pin_step ids xs xs.
Proof. unfold pin_step, same_shard. induction xs; constructor; auto 10. Qed.

Lemma pin_step_trans ids xs ys zs : pin_step ids xs ys -> pin_step ids ys zs -> pin_step ids xs zs.
Proof.
  intros H. revert zs. induction H as [|a b xs ys [Hs Hi] H IH]; intros zs H'; inversion H'; subst; constructor.
  - unfold same_shard in *. intuition congruence.
  - by apply IH.
Qed.

Lemma pinScan_step ids r target xs ys ns :
  target ∈ ids -> pinScan r target xs = Some (ys, ns) -> pin_step ids xs ys.
Proof.
  intros Ht. revert ys ns. induction xs as [|a xs IH]; intros ys ns H; cbn in H; [discriminate|].
  destruct (_ && _); [case_bool_decide; simplify_eq|].
  - apply pin_step_refl.
  - constructor; [|apply pin_step_refl]. split; [by split_and!|by right].
  - destruct (pinScan r target xs) as [[zs ms]|] eqn:E; [|discriminate]. cbn in H. simplify_eq.
    constructor; [|by eapply IH]. split; [by split_and!|by left].
Qed.

Lemma pinRange_step order st p :
  pin_step (Node_ID <$> order) (fst st)
    (fst (pinRange (fun id => existsb (fun n => bool_decide (Node_ID n = id)) order) st p)).
Proof.
  destruct st as [xs notes], p as [r target]. cbn. destruct (existsb _ _) eqn:E; cbn [negb]; [|apply pin_step_refl].
  apply existsb_exists in E as (n & Hn & <-%bool_decide_eq_true).
  destruct (pinScan r (Node_ID n) xs) as [[ys ns]|] eqn:E; [|apply pin_step_refl].
  eapply pinScan_step; [|exact E]. apply list_elem_of_fmap. exists n. split; [done|]. by apply list_elem_of_In.
Qed.

Lemma applyPinnedRanges_step xs order pinned :
  pin_step (Node_ID <$> order) xs (fst (applyPinnedRanges xs order pinned)).
Proof.
  unfold applyPinnedRanges. generalize (go_sort (fun a b => rangeLess (fst a) (fst b)) (map_to_list pinned)).
  intros ps. change xs with (fst (xs, @nil Note)) at 1. generalize (xs, @nil Note). induction ps as [|p ps IH]; intros st.
  - apply pin_step_refl.
  - cbn [fold_left]. eapply pin_step_trans; [apply pinRange_step|apply IH].
Qed.

Lemma pin_step_contiguous ids xs ys L : pin_step ids xs ys -> forall next, contiguousb next ys L = contiguousb next xs L.
Proof.
  induction 1 as [|a b xs ys [Hs _] _ IH]; intros next; [done|]. cbn [contiguousb].
  destruct Hs as (-> & -> & _). by rewrite IH.
Qed.

(** Pinning moves whole shards between nodes and nothing else: the shards,
    their roles and the coverage of the layers are untouched, every node that
    receives a shard belongs to the selected subset, and a single pin that lies
    within one shard of the partition ends on its node. *)
Theorem applyPinnedRanges_spec xs order pinned L :
  let ys := fst (applyPinnedRanges xs order pinned) in
  Forall2 (fun a b => same_shard a b /\ (A_NodeID b = A_NodeID a \/ A_NodeID b ∈ Node_ID <$> order)) xs ys /\
  contiguousb 0 ys L = contiguousb 0 xs L /\
  forall r target k a, pinned = {[ r := target ]} -> target ∈ Node_ID <$> order ->
    xs !! k = Some a -> A_LayerStart a <= Range_Start r -> Range_End r <= A_LayerEnd a ->
    (forall k' b, (k' < k)%nat -> xs !! k' = Some b -> A_LayerEnd b < Range_End r) ->
    exists b, ys !! k = Some b /\ A_NodeID b = target.
Proof.
  cbv zeta. pose proof (applyPinnedRanges_step xs order pinned) as H. split; [exact H|].
  split; [by eapply pin_step_contiguous|].
  intros r target k a -> Ht Ha Hs He Hprev. unfold applyPinnedRanges. rewrite map_to_list_singleton.
  cbn [go_sort fold_left ins reverse rev_append pinRange fst].
  assert (E : existsb (fun n => bool_decide (Node_ID n = target)) order = true).
  { apply list_elem_of_fmap in Ht as (n & -> & Hn). apply existsb_exists. exists n.
    split; [by apply list_elem_of_In|by apply bool_decide_eq_true]. }
  rewrite E. cbn [negb]. clear H E.
  assert (HP : exists ys ns b, pinScan r target xs = Some (ys, ns) /\ ys !! k = Some b /\ A_NodeID b = target).
  { revert k Ha Hprev. induction xs as [|x xs IH]; intros k Ha Hprev; [done|]. cbn [pinScan]. destruct k as [|k].
    - injection Ha as ->. rewrite (proj2 (Z.leb_le _ _) Hs), (proj2 (Z.leb_le _ _) He). cbn [andb].
      case_bool_decide; eauto 10.
    - pose proof (Hprev 0%nat x ltac:(lia) eq_refl). rewrite (proj2 (Z.leb_gt (Range_End r) _)), andb_false_r by lia.
      destruct (IH k Ha) as (ys & ns & b & -> & H1 & H2); [intros k' b Hk'; apply (Hprev (S k')); lia|].
      cbn [mbind option_bind]. eauto 10. }
  destruct HP as (ys & ns & b & -> & H1 & H2). eauto.
Qed.

(** ** Instances *)

(** The partition of the example model over two nodes. *)
Definition exSplit : list Assignment :=
  [mkAssign "a" RoleHost 0 3 false; mkAssign "b" RoleWorker 4 5 false].

Definition exBottleneck : float64 :=
  from_option snd f0 (dpPartition [exA; exB] exLinks exModel exQ8 4096).

Lemma exSplit_run : dpPartition [exA; exB] exLinks exModel exQ8 4096 = Some (exSplit, exBottleneck).
Proof. vm_compute. reflexivity. Qed.

Lemma dpPartition_total_witness : exists xs best, dpPartition [exA; exB] exLinks exModel exQ8 4096 = Some (xs, best).
Proof. apply (dpPartition_total [exA; exB] exLinks exModel exQ8 4096). vm_compute. reflexivity. Defined.

Lemma dpPartition_sound_witness : contiguousb 0 exSplit 6 = true /\ is_pinf exBottleneck = false.
Proof.
  destruct (dpPartition_sound [exA; exB] exLinks exModel exQ8 4096 exSplit exBottleneck exSplit_run)
    as (H & _ & _ & _ & _ & H' & _); [discriminate|split; [exact H|exact H']].
Defined.

Lemma dpPartition_optimal_witness :
  exists xs best, dpPartition [exA; exB] exLinks exModel exQ8 4096 = Some (xs, best) /\
    (best <=? slowestStage (fun m i j => stageTimeAt [exA; exB] m i j exLinks exModel exQ8 4096)
       [mkAssign "a" RoleHost 0 2 false; mkAssign "b" RoleWorker 3 5 false])%f64 = true.
Proof.
  destruct (dpPartition_optimal [exA; exB] exLinks exModel exQ8 4096) as (xs & best & H & _ & Hle);
    [check_inputs|check_inputs|apply (bool_decide_unpack _); vm_compute; exact I
    |check_inputs|check_inputs|check_inputs|check_inputs|vm_compute; reflexivity|].
  exists xs, best. split; [exact H|]. apply Hle; [reflexivity|cbn; lia].
Defined.

(** A model that declares [2^62] layers makes the runtime panic. *)
Example dpPartition_huge : dpPartition [exA; exB] exLinks
  (mkModel "huge" false (2 ^ 62) (of_Z 24) (of_Z 24) 4096 8 128 AttentionGQA 4096 [exQ8] (mkDraft false "" 0) f0)
  exQ8 4096 = None.
Proof. vm_compute. reflexivity. Qed.

Lemma candidateSubsets_kmin_witness :
  C_ForceNodeCount Constraints_zero = None /\
  exists kMin, aggregateFits (rankedByCapacity exNodes) (Quant_SizeGB exQ8 + f1)%f64 kMin = true.
Proof.
  split; [reflexivity|].
  destruct (candidateSubsets_kmin exNodes exModel exQ8 f1 Constraints_zero eq_refl) as [[H _]|(k & _ & H & _)].
  - exfalso. revert H. vm_compute. discriminate.
  - exists k. exact H.
Defined.
