(* ===== verification/Ordering.v ===== *)
(** * Ordering: the pipeline order

    Phase D of the planner, [go/planner/plan/ordering.go]: the host, the exact
    Held-Karp search for the cheapest Hamiltonian path from it, and the
    nearest-neighbour and 2-opt heuristic for larger fleets. Node indices and bit
    masks are [nat]; the source's shifts stay below [2^20] by its own guard. *)
From S2P Require Import Prelude Float64 PlanTypes CostModel Partition Fixtures.
Open Scope Z_scope.

(** ** Constants and environment ([ordering.go]) *)

Definition HeldKarpMaxNodes : Z := 10.
Definition orderingThresholdMax : Z := 20.
Definition missingLinkPenaltyMs : float64 := of_Z 1000000.
Definition twoOptMaxPasses : nat := 64.
Definition twoOptImproveEps : float64 := f_const 1 1000000000.
Definition coOptMaxRounds : nat := 3.

(** [strconv.Atoi]: an optional sign and decimal digits, within the 64-bit range. *)
Fixpoint digitsFrom (acc : Z) (s : string) : option Z :=
  match s with
  | EmptyString => Some acc
  | String c s' =>
      let d := Z.of_N (N_of_ascii c) - 48 in
      if (0 <=? d) && (d <=? 9) then digitsFrom (acc * 10 + d) s' else None
  end.

Definition decimal (s : string) : option Z :=
  match s with EmptyString => None | _ => digitsFrom 0 s end.

Definition Atoi (s : string) : option Z :=
  z ← (match s with
       | String "-" s' => option_map Z.opp (decimal s')
       | String "+" s' => decimal s'
       | _ => decimal s
       end);
  if (- 2 ^ 63 <=? z) && (z <? 2 ^ 63) then Some z else None.

(** [getEnvInt]; [v] is the value of the environment variable, empty when unset. *)
Definition getEnvInt (v : string) (def : Z) : Z :=
  if bool_decide (v = EmptyString) then def
  else match Atoi v with
       | None => def
       | Some n => if (n <? 1) || (n >? orderingThresholdMax) then def else n
       end.

(** ** Edge costs ([ordering.go]) *)

Definition bytesPerMs (bandwidthGBs : float64) : float64 :=
  if (bandwidthGBs <=? f0)%f64 then f0 else (bandwidthGBs * f1e9 / of_Z 1000)%f64.

Definition edgeCost (a b : string) (model : ModelSpec) (links : list Link) : float64 :=
  match lookupLink links a b with
  | None => missingLinkPenaltyMs
  | Some link =>
      let cost := Link_RTTms link in
      let bpm := bytesPerMs (Link_BandwidthGBs link) in
      if (bpm >? f0)%f64 then (cost + activationBytes model / bpm)%f64 else cost
  end.

(** [orderCost]: the edges are added from the head of the pipeline. *)
Fixpoint orderCostFrom (total : float64) (order : list Node) (model : ModelSpec) (links : list Link) : float64 :=
  match order with
  | a :: ((b :: _) as rest) =>
      orderCostFrom (total + edgeCost (Node_ID a) (Node_ID b) model links)%f64 rest model links
  | _ => total
  end.

Definition orderCost (order : list Node) (model : ModelSpec) (links : list Link) : float64 :=
  orderCostFrom f0 order model links.

Fixpoint sameOrder (a b : list Node) : bool :=
  match a, b with
  | [], [] => true
  | x :: a', y :: b' => bool_decide (Node_ID x = Node_ID y) && sameOrder a' b'
  | _, _ => false
  end.

(** ** Host selection ([ordering.go]) *)

Fixpoint indexOfID (id : string) (i : nat) (nodes : list Node) : option nat :=
  match nodes with
  | [] => None
  | n :: rest => if bool_decide (Node_ID n = id) then Some i else indexOfID id (S i) rest
  end.

Definition mostCapableIndex (nodes : list Node) : nat :=
  fst (fold_left (fun '(best, bestCap) i =>
         let cap := usefulCapacity (nth_node nodes i) in
         if (cap >? bestCap)%f64 then (i, cap) else (best, bestCap))
       (seq 1 (length nodes - 1)) (0%nat, usefulCapacity (nth_node nodes 0))).

Definition chooseHostIndex (nodes : list Node) (c : Constraints) : nat :=
  match C_ForceHost c with
  | Some h => match indexOfID h 0 nodes with Some i => i | None => mostCapableIndex nodes end
  | None => mostCapableIndex nodes
  end.

(** ** Nearest neighbour and 2-opt ([ordering.go]) *)

(** The cheapest unvisited node after [cur]: [None] when no cost compares below
    [+Inf]. *)
Definition nearestNext (nodes : list Node) (model : ModelSpec) (links : list Link) (visited : list bool)
    (cur : nat) : option nat :=
  fst (fold_left (fun '(next, bestC) k =>
         if nth k visited false then (next, bestC)
         else let c := edgeCost (Node_ID (nth_node nodes cur)) (Node_ID (nth_node nodes k)) model links in
              if (c <? bestC)%f64 then (Some k, c) else (next, bestC))
       (seq 0 (length nodes)) (None, f_inf)).

(** [todo] more hops; [visited[-1]] panics ([None]). *)
Fixpoint nearestRoute (nodes : list Node) (model : ModelSpec) (links : list Link) (todo : nat)
    (visited : list bool) (cur : nat) (route : list nat) : option (list nat) :=
  match todo with
  | O => Some route
  | S todo' =>
      next ← nearestNext nodes model links visited cur;
      nearestRoute nodes model links todo' (<[next := true]> visited) next (route ++ [next])
  end.

Definition nearestNeighborOrder (nodes : list Node) (model : ModelSpec) (links : list Link) : option (list Node) :=
  match nodes with
  | [] => None
  | _ =>
      let n := length nodes in
      route ← nearestRoute nodes model links (n - 1) (<[0%nat := true]> (replicate n false)) 0 [0%nat];
      Some (map (nth_node nodes) route)
  end.

(** The swap loop [for l, r := i, k; l < r; l, r = l+1, r-1]. *)
Definition reverseSegment {A} (i k : nat) (l : list A) : list A :=
  firstn i l ++ reverse (firstn (S k - i) (skipn i l)) ++ skipn (S k) l.

Record TwoOpt : Type := mkTwoOpt { to_best : list Node; to_cost : float64; to_improved : bool }.

Definition twoOptTry (model : ModelSpec) (links : list Link) (s : TwoOpt) (ik : nat * nat) : TwoOpt :=
  let cand := reverseSegment (fst ik) (snd ik) (to_best s) in
  let c := orderCost cand model links in
  if (c <? to_cost s - twoOptImproveEps)%f64 then mkTwoOpt cand c true else s.

(** The pairs [(i, k)] of one sweep, in loop order. *)
Definition twoOptPairs (n : nat) : list (nat * nat) :=
  flat_map (fun i => map (pair i) (seq (S i) (n - S i))) (seq 1 (n - 2)).

Fixpoint twoOptPasses (pass : nat) (n : nat) (model : ModelSpec) (links : list Link) (s : TwoOpt) : TwoOpt :=
  match pass with
  | O => s
  | S pass' =>
      let s := fold_left (twoOptTry model links) (twoOptPairs n) (mkTwoOpt (to_best s) (to_cost s) false) in
      if to_improved s then twoOptPasses pass' n model links s else s
  end.

Definition twoOptImprove (route : list Node) (model : ModelSpec) (links : list Link) : list Node :=
  let n := length route in
  if Nat.ltb n 4 then route
  else to_best (twoOptPasses twoOptMaxPasses n model links (mkTwoOpt route (orderCost route model links) false)).

Definition nearestNeighbor2Opt (nodes : list Node) (model : ModelSpec) (links : list Link) : option (list Node) :=
  route ← nearestNeighborOrder nodes model links; Some (twoOptImprove route model links).

(** ** Held-Karp ([ordering.go]) *)

Record HKState : Type := mkHK { hk_dp : list (list float64); hk_parent : list (list Z) }.

Definition hkAt (s : HKState) (mask j : nat) : float64 := tget f_inf (hk_dp s) mask j.
Definition hkPar (s : HKState) (mask j : nat) : Z := tget (-1) (hk_parent s) mask j.

Definition hkInit (n : nat) : HKState :=
  {| hk_dp := tset (tmake f_inf (2 ^ n) n) 1 0 f0; hk_parent := tmake (-1) (2 ^ n) n |}.

Section HeldKarpLoops.
Context (cost : nat -> nat -> float64) (n : nat).

Definition hkRelax (mask j : nat) (s : HKState) (k : nat) : HKState :=
  if Nat.testbit mask k then s
  else
    let nm := Nat.lor mask (2 ^ k) in
    let c := (hkAt s mask j + cost j k)%f64 in
    if (c <? hkAt s nm k)%f64
    then {| hk_dp := tset (hk_dp s) nm k c; hk_parent := tset (hk_parent s) nm k (Z.of_nat j) |}
    else s.

Definition hkRow (mask : nat) (s : HKState) (j : nat) : HKState :=
  if negb (Nat.testbit mask j) || is_pinf (hkAt s mask j) then s
  else fold_left (hkRelax mask j) (seq 0 n) s.

Definition hkMask (s : HKState) (mask : nat) : HKState :=
  if Nat.testbit mask 0 then fold_left (hkRow mask) (seq 0 n) s else s.

Definition hkFill : HKState := fold_left hkMask (seq 0 (2 ^ n)) (hkInit n).

Definition hkBestEnd (s : HKState) : nat :=
  let full := (2 ^ n - 1)%nat in
  fst (fold_left (fun '(bestEnd, best) j =>
         if (hkAt s full j <? best)%f64 then (j, hkAt s full j) else (bestEnd, best))
       (seq 1 (n - 1)) (0%nat, hkAt s full 0)).

(** The walk back to the host; an index out of range panics ([None]). *)
Fixpoint hkWalk (parent : list (list Z)) (pos : nat) (mask : nat) (j : Z) (acc : list nat) : option (list nat) :=
  match pos with
  | O => Some acc
  | S pos' =>
      if j <? 0 then None
      else pj ← parent !! mask ≫= (.!! Z.to_nat j);
           hkWalk parent pos' (Nat.lxor mask (2 ^ Z.to_nat j)) pj (Z.to_nat j :: acc)
  end.

Definition hkPath : option (list nat) :=
  let s := hkFill in
  hkWalk (hk_parent s) n (2 ^ n - 1) (Z.of_nat (hkBestEnd s)) [].
End HeldKarpLoops.

(** The precomputed edge costs. *)
Definition costTable (nodes : list Node) (model : ModelSpec) (links : list Link) : list (list float64) :=
  let n := length nodes in
  map (fun i => map (fun j =>
         if Nat.eqb i j then f0
         else edgeCost (Node_ID (nth_node nodes i)) (Node_ID (nth_node nodes j)) model links)
       (seq 0 n)) (seq 0 n).

Definition heldKarpPath (nodes : list Node) (model : ModelSpec) (links : list Link) : option (list Node) :=
  let n := length nodes in
  if Z.of_nat n >? orderingThresholdMax then nearestNeighbor2Opt nodes model links
  else
    let cost := costTable nodes model links in
    idxOrder ← hkPath (tget f0 cost) n;
    Some (map (nth_node nodes) idxOrder).

(** ** [orderNodes] ([ordering.go]) *)

Definition swap0 (l : list Node) (h : nat) : list Node :=
  <[h := nth_node l 0]> (<[0%nat := nth_node l h]> l).

Definition idLess (a b : Node) : bool := String.ltb (Node_ID a) (Node_ID b).

(** [orderingThreshold] is a package variable read at start-up. *)
Definition orderNodes (orderingThreshold : Z) (nodes : list Node) (model : ModelSpec) (links : list Link)
    (c : Constraints) : option (list Node) :=
  let n := length nodes in
  if Nat.leb n 1 then Some nodes
  else
    let ordered := go_sort idLess nodes in
    let ordered := swap0 ordered (chooseHostIndex ordered c) in
    if Z.of_nat n <=? orderingThreshold then heldKarpPath ordered model links
    else nearestNeighbor2Opt ordered model links.

(** ** Bit masks *)

Lemma testbit_lor_pow2 mask k i : Nat.testbit (Nat.lor mask (2 ^ k)) i = Nat.testbit mask i || Nat.eqb k i.
Proof. rewrite Nat.lor_spec, Nat.pow2_bits_eqb. reflexivity. Qed.

Lemma lor_pow2_add mask k : Nat.testbit mask k = false -> (Nat.lor mask (2 ^ k) = mask + 2 ^ k)%nat.
Proof.
  intros H. rewrite Nat.add_nocarry_lxor, Nat.lxor_lor; [reflexivity| |];
    apply Nat.bits_inj; intros i; rewrite Nat.land_spec, Nat.pow2_bits_eqb, Nat.bits_0;
    destruct (Nat.eqb_spec k i) as [<-|]; rewrite ?H, ?andb_false_r; reflexivity.
Qed.

Lemma lor_pow2_gt mask k : Nat.testbit mask k = false -> (mask < Nat.lor mask (2 ^ k))%nat.
Proof. intros H. rewrite lor_pow2_add by assumption. pose proof (Nat.pow_nonzero 2 k). lia. Qed.

Lemma lxor_lor_pow2 mask k : Nat.testbit mask k = false -> Nat.lxor (Nat.lor mask (2 ^ k)) (2 ^ k) = mask.
Proof.
  intros H. apply Nat.bits_inj. intros i. rewrite Nat.lxor_spec, testbit_lor_pow2, Nat.pow2_bits_eqb.
  destruct (Nat.eqb_spec k i) as [<-|]; [rewrite H; reflexivity|]. by rewrite orb_false_r, xorb_false_r.
Qed.

Lemma mask_lt_pow2 mask n : (forall i, Nat.testbit mask i = true -> (i < n)%nat) -> (mask < 2 ^ n)%nat.
Proof.
  intros H. destruct (decide (mask = 0)%nat) as [->|Hz]; [pose proof (Nat.pow_nonzero 2 n); lia|].
  apply Nat.log2_lt_pow2; [lia|]. apply H. apply Nat.bit_log2, Hz.
Qed.

Lemma testbit_lt mask n i : (mask < 2 ^ n)%nat -> Nat.testbit mask i = true -> (i < n)%nat.
Proof.
  intros Hm Hi. destruct (decide (i < n)%nat) as [|Hge]; [assumption|].
  destruct (decide (mask = 0)%nat) as [->|Hz]; [by rewrite Nat.bits_0 in Hi|].
  rewrite Nat.bits_above_log2 in Hi; [discriminate|].
  pose proof (proj1 (Nat.log2_lt_pow2 mask n ltac:(lia)) Hm). lia.
Qed.

Lemma lor_pow2_lt mask k n : (mask < 2 ^ n)%nat -> (k < n)%nat -> (Nat.lor mask (2 ^ k) < 2 ^ n)%nat.
Proof.
  intros Hm Hk. apply mask_lt_pow2. intros i. rewrite testbit_lor_pow2, orb_true_iff.
  intros [Hi|<-%Nat.eqb_eq]; [by apply (testbit_lt mask n)|assumption].
Qed.

Definition mask_of (l : list nat) : nat := fold_right (fun i m => Nat.lor m (2 ^ i)) 0%nat l.

Lemma mask_of_testbit l i : Nat.testbit (mask_of l) i = true <-> i ∈ l.
Proof.
  induction l as [|x l IH]; cbn [mask_of fold_right].
  - rewrite Nat.bits_0. split; [discriminate|]. intros H. by apply not_elem_of_nil in H.
  - fold (mask_of l). rewrite testbit_lor_pow2, orb_true_iff, IH, Nat.eqb_eq, elem_of_cons. intuition congruence.
Qed.

Lemma mask_of_notin l i : i ∉ l -> Nat.testbit (mask_of l) i = false.
Proof. intros H. apply not_true_is_false. by rewrite mask_of_testbit. Qed.

Lemma mask_of_snoc l k : mask_of (l ++ [k]) = Nat.lor (mask_of l) (2 ^ k).
Proof.
  apply Nat.bits_inj. intros i. rewrite testbit_lor_pow2. apply eq_true_iff_eq.
  rewrite orb_true_iff, !mask_of_testbit, Nat.eqb_eq, elem_of_app, list_elem_of_singleton. intuition congruence.
Qed.

(** A path that visits every node once. *)
Lemma mask_of_full l n : NoDup l -> mask_of l = (2 ^ n - 1)%nat -> l ≡ₚ seq 0 n.
Proof.
  intros Hnd Hm. apply NoDup_Permutation; [assumption|apply NoDup_seq|]. intros i.
  rewrite <- mask_of_testbit, Hm, list_elem_of_In, in_seq.
  replace (2 ^ n - 1)%nat with (Nat.ones n) by (rewrite Nat.ones_equiv; lia).
  split.
  - intros H. destruct (decide (i < n)%nat); [lia|]. by rewrite Nat.ones_spec_high in H by lia.
  - intros H. apply Nat.ones_spec_low. lia.
Qed.

(** ** Correctness of Held-Karp *)

Fixpoint pathCostFrom (cost : nat -> nat -> float64) (total : float64) (p : list nat) : float64 :=
  match p with
  | a :: ((b :: _) as rest) => pathCostFrom cost (total + cost a b)%f64 rest
  | _ => total
  end.

Lemma pathCostFrom_snoc cost p k : forall total, p ≠ [] ->
  pathCostFrom cost total (p ++ [k]) = (pathCostFrom cost total p + cost (List.last p 0%nat) k)%f64.
Proof.
  induction p as [|a p IH]; intros total Hne; [done|]. destruct p as [|b p]; [reflexivity|].
  change (pathCostFrom cost total ((a :: b :: p) ++ [k]))
    with (pathCostFrom cost (total + cost a b)%f64 ((b :: p) ++ [k])).
  by rewrite IH.
Qed.

Section HeldKarp.
Context (cost : nat -> nat -> float64) (n : nat).

Record hk_cell (s : HKState) (c M k : nat) (Q j : nat) : Prop := {
  cell_mask : M = Nat.lor Q (2 ^ k);
  cell_fresh : Nat.testbit Q k = false;
  cell_host : Nat.testbit Q 0 = true;
  cell_done : (Q < c)%nat;
  cell_in : Nat.testbit Q j = true;
  cell_par : hkPar s M k = Z.of_nat j;
  cell_val : hkAt s M k = (hkAt s Q j + cost j k)%f64;
  cell_fin : is_pinf (hkAt s Q j) = false;
  cell_num : num (hkAt s M k)
}.

(** The state while the masks below [c] are done or in progress. *)
Record hk_inv (c : nat) (s : HKState) : Prop := {
  hk_shape : tshape (hk_dp s) (2 ^ n) n;
  hk_pshape : tshape (hk_parent s) (2 ^ n) n;
  hk_start : hkAt s 1 0 = f0;
  hk_cells : forall M k, (M < 2 ^ n)%nat -> (k < n)%nat -> (M, k) ≠ (1, 0)%nat ->
    hkAt s M k = f_inf \/ exists Q j, hk_cell s c M k Q j
}.

Lemma hkInit_inv : (1 <= n)%nat -> hk_inv 0 (hkInit n).
Proof.
  intros Hn. assert (1 < 2 ^ n)%nat by (apply Nat.pow_gt_1; lia). split.
  - apply tset_shape, tmake_shape.
  - apply tmake_shape.
  - unfold hkAt, hkInit. cbn [hk_dp]. erewrite tget_set_eq; [done|apply tmake_shape|lia|lia].
  - intros M k _ _ HMk. left. unfold hkAt, hkInit. cbn [hk_dp]. rewrite tget_set_ne; [apply tget_make|].
    destruct (decide (M = 1)%nat), (decide (k = 0)%nat); subst; try tauto; lia.
Qed.

Lemma hk_inv_next c c' s : (c <= c')%nat -> hk_inv c s -> hk_inv c' s.
Proof.
  intros Hc [H1 H2 H3 H4]. split; auto. intros M k HM Hk Hne.
  destruct (H4 M k HM Hk Hne) as [?|(Q & j & [])]; [by left|right]. exists Q, j. split; auto. lia.
Qed.

Lemma hkRelax_cases m j s k :
  hkRelax cost m j s k = s \/
  (Nat.testbit m k = false /\ num (hkAt s m j + cost j k)%f64 /\
   fv (hkAt s m j + cost j k)%f64 < fv (hkAt s (Nat.lor m (2 ^ k)) k) /\
   hkRelax cost m j s k =
     {| hk_dp := tset (hk_dp s) (Nat.lor m (2 ^ k)) k (hkAt s m j + cost j k)%f64;
        hk_parent := tset (hk_parent s) (Nat.lor m (2 ^ k)) k (Z.of_nat j) |}).
Proof.
  unfold hkRelax. destruct (Nat.testbit m k) eqn:E1; [by left|]. cbv zeta.
  destruct (fltb _ _) eqn:E2; [|by left]. right. apply fltb_spec in E2 as (? & _ & ?). auto.
Qed.

(** A write only touches a mask above the one being processed. *)
Lemma hkRelax_low m j s k M i : (M <= m)%nat -> hkAt (hkRelax cost m j s k) M i = hkAt s M i.
Proof.
  intros HM. destruct (hkRelax_cases m j s k) as [->|(Hb & _ & _ & ->)]; [done|].
  unfold hkAt. cbn [hk_dp]. apply tget_set_ne. left. pose proof (lor_pow2_gt m k Hb). lia.
Qed.

Lemma hkRelax_le m j s k M i : tshape (hk_dp s) (2 ^ n) n -> (m < 2 ^ n)%nat -> (k < n)%nat ->
  fv (hkAt (hkRelax cost m j s k) M i) <= fv (hkAt s M i).
Proof.
  intros Hs Hm Hk. destruct (hkRelax_cases m j s k) as [->|(Hb & _ & Hlt & ->)]; [lia|].
  unfold hkAt at 1. cbn [hk_dp]. destruct (decide ((M, i) = (Nat.lor m (2 ^ k), k))) as [[= -> ->]|Hne].
  - erewrite tget_set_eq; [lia|exact Hs|by apply lor_pow2_lt|assumption].
  - rewrite tget_set_ne; [done|]. destruct (decide (M = Nat.lor m (2 ^ k))), (decide (i = k)); subst; auto; tauto.
Qed.

Lemma hkRelax_inv m j s k :
  hk_inv (S m) s -> (m < 2 ^ n)%nat -> (k < n)%nat -> (j < n)%nat ->
  Nat.testbit m 0 = true -> Nat.testbit m j = true -> is_pinf (hkAt s m j) = false ->
  hk_inv (S m) (hkRelax cost m j s k).
Proof.
  intros Hi Hm Hk Hj H0 Hbj Hfin.
  pose proof (fun M i H => hkRelax_low m j s k M i H) as Hlow.
  destruct (hkRelax_cases m j s k) as [E|(Hb & Hn & Hlt & E)]; [by rewrite E|]. rewrite E in *.
  set (s' := {| hk_dp := _; hk_parent := _ |}) in *. pose proof (lor_pow2_gt m k Hb) as Hgt.
  pose proof (lor_pow2_lt m k n Hm Hk) as Hnm. set (nm := Nat.lor m (2 ^ k)) in *.
  assert (Hne : forall M i, (M, i) ≠ (nm, k) -> hkAt s' M i = hkAt s M i /\ hkPar s' M i = hkPar s M i).
  { intros M i H. unfold hkAt, hkPar, s'. cbn [hk_dp hk_parent]. split; apply tget_set_ne;
      destruct (decide (M = nm)), (decide (i = k)); subst; auto; tauto. }
  assert (Heq : hkAt s' nm k = (hkAt s m j + cost j k)%f64 /\ hkPar s' nm k = Z.of_nat j).
  { unfold hkAt, hkPar, s'. cbn [hk_dp hk_parent]. split; eapply tget_set_eq; try apply Hi; assumption. }
  destruct Hi as [I1 I2 I3 I4]. split.
  - by apply tset_shape.
  - by apply tset_shape.
  - destruct (Hne 1%nat 0%nat) as [-> _]; [|assumption]. intros [= _ E']. subst k. congruence.
  - intros M i HM Hik HMi. destruct (decide ((M, i) = (nm, k))) as [[= -> ->]|Hd].
    + right. exists m, j. destruct Heq as [E1 E2]. split; auto; try lia.
      * rewrite E1. by rewrite (Hlow m j) by lia.
      * by rewrite (Hlow m j) by lia.
      * by rewrite E1.
    + destruct (Hne _ _ Hd) as [E1 E2]. destruct (I4 M i HM Hik HMi) as [HI|(Q & j' & [])]; [left; congruence|].
      right. exists Q, j'. split; auto; try lia; rewrite ?E1, ?E2, ?(Hlow Q j') by lia; auto.
Qed.

Definition hk_relaxed (s : HKState) (Q j k : nat) : Prop :=
  fv (hkAt s (Nat.lor Q (2 ^ k)) k) <= fv (hkAt s Q j + cost j k)%f64.

Context (Hcost : forall i j, (i < n)%nat -> (j < n)%nat -> below 200 (cost i j)).

(** Every cell is a non-negative number. *)
Lemma hk_nn c s : hk_inv c s -> forall M k, (M < 2 ^ n)%nat -> (k < n)%nat -> nn (hkAt s M k).
Proof.
  intros Hi M. induction (lt_wf M) as [M _ IH]. intros k HM Hk.
  destruct (decide ((M, k) = (1, 0)%nat)) as [[= -> ->]|Hne];
    [rewrite (hk_start _ _ Hi); apply nnf_nn, nnf_f0|].
  destruct (hk_cells _ _ Hi M k HM Hk Hne) as [->|(Q & j & [])].
  { split; [reflexivity|]. pose proof INF_pos. change (fv f_inf) with INF. lia. }
  pose proof (lor_pow2_gt Q k cell_fresh0). subst M.
  pose proof (testbit_lt Q n j ltac:(lia) cell_in0). rewrite cell_val0.
  apply nn_add; [apply IH; auto; lia|]. by apply nnf_nn, Hcost.
Qed.

Lemma hkRelax_relaxed m j s k : hk_inv (S m) s -> (m < 2 ^ n)%nat -> (k < n)%nat -> (j < n)%nat ->
  Nat.testbit m k = false -> hk_relaxed (hkRelax cost m j s k) m j k.
Proof.
  intros Hi Hm Hk Hj Hb. unfold hk_relaxed. rewrite (hkRelax_low m j s k m j) by lia.
  pose proof (lor_pow2_lt m k n Hm Hk) as Hnm.
  unfold hkRelax. rewrite Hb. cbv zeta. destruct (fltb _ _) eqn:E.
  - unfold hkAt at 1. cbn [hk_dp]. erewrite tget_set_eq; [lia|apply Hi|assumption|assumption].
  - apply fltb_false in E; [exact E| |apply nn_num, (hk_nn _ _ Hi); assumption].
    apply nn_num, nn_add; [by apply (hk_nn _ _ Hi)|by apply nnf_nn, Hcost].
Qed.

Lemma hkRelax_keep m j s k Q j' k' : hk_inv (S m) s -> (m < 2 ^ n)%nat -> (k < n)%nat -> (Q <= m)%nat ->
  hk_relaxed s Q j' k' -> hk_relaxed (hkRelax cost m j s k) Q j' k'.
Proof.
  intros Hi Hm Hk HQ H. unfold hk_relaxed in *. rewrite (hkRelax_low m j s k Q j') by lia.
  etransitivity; [apply hkRelax_le; auto; apply Hi|exact H].
Qed.

(** One row: the invariant is kept, relaxed edges stay relaxed, and the edges
    out of [(m, j)] are relaxed. *)
Lemma hkRow_spec m j s : hk_inv (S m) s -> (m < 2 ^ n)%nat -> (j < n)%nat -> Nat.testbit m 0 = true ->
  let s' := hkRow cost n m s j in
  hk_inv (S m) s' /\
  (forall Q j' k', (Q <= m)%nat -> hk_relaxed s Q j' k' -> hk_relaxed s' Q j' k') /\
  (Nat.testbit m j = true -> forall k, (k < n)%nat -> Nat.testbit m k = false -> hk_relaxed s' m j k).
Proof.
  intros Hi Hm Hj H0. cbv zeta. unfold hkRow. destruct (negb (Nat.testbit m j)) eqn:Eb; cbn [orb].
  { split_and!; auto. intros Hb. by rewrite Hb in Eb. }
  apply negb_false_iff in Eb. destruct (is_pinf (hkAt s m j)) eqn:Ef.
  { split_and!; auto. intros _ k Hk Hb. unfold hk_relaxed.
    pose proof (fadd_ge_l _ _ (hk_nn _ _ Hi m j Hm Hj) (nnf_nn _ (proj1 (Hcost j k Hj Hk)))).
    apply is_pinf_spec in Ef as [_ Ef]. pose proof (fv_bound (hkAt s (Nat.lor m (2 ^ k)) k)). lia. }
  pose proof (fold_seq_ind (fun k s' => (hk_inv (S m) s' /\ is_pinf (hkAt s' m j) = false) /\
    (forall Q j' k', (Q <= m)%nat -> hk_relaxed s Q j' k' -> hk_relaxed s' Q j' k') /\
    (forall k', (k' < k)%nat -> Nat.testbit m k' = false -> hk_relaxed s' m j k'))
    (hkRelax cost m j) n 0 s) as H. destruct H as ((H1 & _) & H2 & H3).
  - split_and!; auto. intros; lia.
  - intros k s' Hk ((I1 & I2) & I3 & I4). split_and!.
    + apply hkRelax_inv; auto; lia.
    + by rewrite hkRelax_low by lia.
    + intros Q j' k' HQ HR. apply hkRelax_keep; auto; lia.
    + intros k' Hk' Hb. destruct (decide (k' = k)) as [->|]; [apply hkRelax_relaxed; auto; lia|].
      apply hkRelax_keep; auto; try lia. apply I4; auto; lia.
  - split_and!; auto.
Qed.

Definition hk_done (c : nat) (s : HKState) : Prop :=
  forall Q j k, (Q < c)%nat -> (j < n)%nat -> (k < n)%nat -> Nat.testbit Q 0 = true ->
    Nat.testbit Q j = true -> Nat.testbit Q k = false -> hk_relaxed s Q j k.

Lemma hkMask_spec m s : hk_inv m s -> hk_done m s -> (m < 2 ^ n)%nat ->
  hk_inv (S m) (hkMask cost n s m) /\ hk_done (S m) (hkMask cost n s m).
Proof.
  intros Hi Hd Hm. apply (hk_inv_next m (S m)) in Hi; [|lia]. unfold hkMask.
  destruct (Nat.testbit m 0) eqn:E0.
  2:{ split; [assumption|]. intros Q j k HQ Hj Hk H0. assert (Q ≠ m) by (intros ->; congruence).
      apply Hd; auto; lia. }
  pose proof (fold_seq_ind (fun r s' => hk_inv (S m) s' /\
    (forall Q j k, (Q <= m)%nat -> hk_relaxed s Q j k -> hk_relaxed s' Q j k) /\
    (forall j k, (j < r)%nat -> (k < n)%nat -> Nat.testbit m j = true -> Nat.testbit m k = false ->
       hk_relaxed s' m j k)) (hkRow cost n m) n 0 s) as H. destruct H as (H1 & H2 & H3).
  - split_and!; auto. intros; lia.
  - intros r s' Hr (I1 & I2 & I3). destruct (hkRow_spec m r s' I1 Hm ltac:(lia) E0) as (R1 & R2 & R3).
    split_and!; auto. intros j k Hj Hk Hb1 Hb2. destruct (decide (j = r)) as [->|]; [by apply R3|].
    apply R2; auto. apply I3; auto; lia.
  - split; [assumption|]. intros Q j k HQ Hj Hk HQ0 Hb1 Hb2.
    destruct (decide (Q = m)) as [->|]; [by apply H3|]. apply H2; [lia|]. apply Hd; auto; lia.
Qed.

Lemma hkFill_spec : (1 <= n)%nat -> hk_inv (2 ^ n) (hkFill cost n) /\ hk_done (2 ^ n) (hkFill cost n).
Proof.
  intros Hn. unfold hkFill.
  pose proof (fold_seq_ind (fun m s => hk_inv m s /\ hk_done m s) (hkMask cost n) (2 ^ n) 0 (hkInit n)) as H.
  apply H.
  - split; [by apply hkInit_inv|]. intros Q; lia.
  - intros m s Hm [H1 H2]. apply hkMask_spec; auto; lia.
Qed.
(** A path from the host over nodes below [n], each visited once. *)
Definition is_path (p : list nat) : Prop :=
  NoDup p /\ head p = Some 0%nat /\ Forall (fun i => (i < n)%nat) p.

Definition pathCost (p : list nat) : float64 := pathCostFrom cost f0 p.

Lemma is_path_snoc p k : p ≠ [] -> is_path (p ++ [k]) <-> is_path p /\ k ∉ p /\ (k < n)%nat.
Proof.
  intros Hne. unfold is_path. rewrite NoDup_app, Forall_app, Forall_singleton.
  pose proof (NoDup_singleton k). destruct p as [|a p]; [done|]. cbn [app head].
  setoid_rewrite list_elem_of_singleton. split.
  - intros ((H1 & H2 & _) & H3 & H4 & H5). split_and!; auto. intros Hk. by apply (H2 k).
  - intros ((H1 & H3 & H4) & H2 & H5). split_and!; auto. by intros x Hx ->.
Qed.

Lemma mask_of_lt p : is_path p -> (mask_of p < 2 ^ n)%nat.
Proof.
  intros (_ & _ & H). apply mask_lt_pow2. intros i Hi%mask_of_testbit. rewrite Forall_forall in H. by apply H.
Qed.

Lemma last_in (p : list nat) : p ≠ [] -> List.last p 0%nat ∈ p.
Proof.
  intros H. destruct p as [|p x] using rev_ind; [done|]. rewrite last_snoc_def. set_solver.
Qed.

Lemma is_path_last p : is_path p -> (List.last p 0 < n)%nat /\ Nat.testbit (mask_of p) (List.last p 0%nat) = true.
Proof.
  intros (_ & H1 & H2). assert (Hp : p ≠ []) by (destruct p; done).
  pose proof (last_in p Hp) as Hin. split; [|by apply mask_of_testbit]. rewrite Forall_forall in H2. by apply H2.
Qed.

Lemma is_path_host p : is_path p -> Nat.testbit (mask_of p) 0 = true.
Proof. intros (_ & H & _). destruct p; [done|]. injection H as ->. apply mask_of_testbit. left. Qed.

(** Path costs do not overflow: a path has at most [n] nodes. *)
Lemma pathCost_below p : (n <= 100)%nat -> is_path p ->
  below (200 + Z.of_nat (length p)) (pathCost p).
Proof.
  intros Hn. unfold pathCost. induction p as [|k p IH] using rev_ind; intros Hp; [by destruct Hp as (_ & ? & _)|].
  assert (Hlen : (length (p ++ [k]) <= n)%nat).
  { destruct Hp as (Hnd & _ & HF). rewrite <- (length_seq n 0). apply submseteq_length, NoDup_submseteq; [assumption|].
    intros x Hx. rewrite Forall_forall in HF. apply HF in Hx. apply list_elem_of_In, in_seq. lia. }
  rewrite length_app in *. cbn [length] in *. destruct p as [|a p].
  - apply (below_weaken 0); [|cbn; lia]. apply below_bool; reflexivity.
  - apply is_path_snoc in Hp as (Hp & _ & Hk); [|done]. rewrite pathCostFrom_snoc by done.
    destruct (is_path_last _ Hp) as [Hl _].
    pose proof (below_add _ _ _ _ (IH Hp) (Hcost _ k Hl Hk) ltac:(lia) ltac:(lia) ltac:(lia)) as B.
    eapply below_weaken; [exact B|]. cbn [length] in *. lia.
Qed.

Lemma hkFill_optimal p : (1 <= n)%nat -> is_path p ->
  fv (hkAt (hkFill cost n) (mask_of p) (List.last p 0%nat)) <= fv (pathCost p).
Proof.
  intros Hn. destruct (hkFill_spec Hn) as [Hi Hd]. unfold pathCost.
  induction p as [|k p IH] using rev_ind; intros Hp; [by destruct Hp as (_ & ? & _)|].
  rewrite last_snoc_def, mask_of_snoc. destruct p as [|a p].
  - destruct Hp as (_ & H & _). injection H as ->. change (Nat.lor (mask_of []) (2 ^ 0)) with 1%nat.
    rewrite (hk_start _ _ Hi). done.
  - apply is_path_snoc in Hp as (Hp & Hk & Hkn); [|done]. rewrite pathCostFrom_snoc by done.
    destruct (is_path_last _ Hp) as [Hl Hlb]. pose proof (mask_of_lt _ Hp) as Hm.
    etransitivity; [apply (Hd (mask_of (a :: p)) (List.last (a :: p) 0%nat) k); auto;
      [by apply is_path_host|by apply mask_of_notin]|].
    apply fadd_mono; try (by apply nnf_nn, Hcost); [by apply (hk_nn _ _ Hi)| |by apply IH|lia].
    assert (Hx : nn (pathCostFrom cost f0 (a :: p))); [|exact Hx].
    clear IH Hd Hk. induction p as [|y p IHp] using rev_ind; [apply nnf_nn, nnf_f0|].
    change (a :: p ++ [y]) with ((a :: p) ++ [y]) in *.
    apply is_path_snoc in Hp as (Hp & _ & Hy); [|done]. rewrite pathCostFrom_snoc by done.
    destruct (is_path_last _ Hp) as [Hl' Hlb']. apply nn_add; [|by apply nnf_nn, Hcost].
    apply IHp; auto. by apply mask_of_lt.
Qed.

(** A finite cell is the cost of the path its parents describe. *)
Lemma hkWalk_spec s : hk_inv (2 ^ n) s -> forall M j acc,
  (M < 2 ^ n)%nat -> (j < n)%nat -> is_pinf (hkAt s M j) = false ->
  exists p, is_path p /\ mask_of p = M /\ List.last p 0%nat = j /\ pathCost p = hkAt s M j /\
    hkWalk (hk_parent s) (length p) M (Z.of_nat j) acc = Some (p ++ acc).
Proof.
  intros Hi M. induction (lt_wf M) as [M _ IH]. intros j acc HM Hj Hfin.
  assert (Hpar : forall M' j', (M' < 2 ^ n)%nat -> (j' < n)%nat ->
            hk_parent s !! M' ≫= (.!! j') = Some (hkPar s M' j')).
  { intros M' j' HM' Hj'. destruct (hk_pshape _ _ Hi) as [Hl Hr]. unfold hkPar, tget.
    destruct (lookup_lt_is_Some_2 (hk_parent s) M') as [row Hrow]; [lia|]. rewrite Hrow. cbn.
    destruct (lookup_lt_is_Some_2 row j') as [c Hc]; [eapply Forall_lookup_1 in Hr; [|done]; lia|].
    by rewrite Hc. }
  destruct (decide ((M, j) = (1, 0)%nat)) as [[= -> ->]|Hne].
  - exists [0%nat]. split_and!; try done.
    + split_and!; [apply NoDup_singleton|done|by apply Forall_singleton].
    + symmetry. apply Hi.
    + cbn [length hkWalk]. change (Z.of_nat 0 <? 0) with false. cbn match. change (Z.to_nat (Z.of_nat 0)) with 0%nat.
      by rewrite Hpar.
  - destruct (hk_cells _ _ Hi M j HM Hj Hne) as [E|(Q & i & [Hmask Hfresh Hhost _ Hin Hp Hv Hpi _])];
      [rewrite E in Hfin; discriminate|].
    pose proof (lor_pow2_gt Q j Hfresh) as Hgt. rewrite <- Hmask in Hgt.
    pose proof (testbit_lt Q n i ltac:(lia) Hin) as Hin'.
    destruct (IH Q Hgt i (j :: acc) ltac:(lia) Hin' Hpi) as (p & P1 & P2 & P3 & P4 & P5).
    assert (Hpne : p ≠ []) by (intros ->; by destruct P1 as (_ & ? & _)).
    exists (p ++ [j]). split_and!.
    + apply is_path_snoc; [done|]. split_and!; auto. rewrite <- mask_of_testbit, P2. congruence.
    + by rewrite mask_of_snoc, P2.
    + apply last_snoc_def.
    + unfold pathCost in *. by rewrite pathCostFrom_snoc, P4, P3, Hv by done.
    + rewrite length_app, Nat.add_comm. cbn [length Nat.add hkWalk].
      rewrite (proj2 (Z.ltb_ge _ _)), Nat2Z.id by lia. rewrite Hpar by assumption. cbn [mbind option_bind].
      rewrite Hmask at 1. rewrite lxor_lor_pow2, Hp, P5 by assumption. by rewrite <- app_assoc.
Qed.

Lemma hkBestEnd_spec s : hk_inv (2 ^ n) s -> (1 <= n)%nat ->
  (hkBestEnd n s < n)%nat /\
  forall j, (j < n)%nat -> fv (hkAt s (2 ^ n - 1) (hkBestEnd n s)) <= fv (hkAt s (2 ^ n - 1) j).
Proof.
  intros Hi Hn. unfold hkBestEnd. cbv zeta. pose proof (Nat.pow_nonzero 2 n ltac:(lia)) as Hpow.
  assert (Hnn : forall j, (j < n)%nat -> num (hkAt s (2 ^ n - 1) j))
    by (intros; apply nn_num, (hk_nn _ _ Hi); lia).
  pose proof (fold_seq_ind (fun k r => (fst r < k)%nat /\ (fst r < n)%nat /\ snd r = hkAt s (2 ^ n - 1) (fst r) /\
    forall j, (j < k)%nat -> fv (snd r) <= fv (hkAt s (2 ^ n - 1) j))
    (fun '(bestEnd, best) j => if (hkAt s (2 ^ n - 1) j <? best)%f64 then (j, hkAt s (2 ^ n - 1) j)
                               else (bestEnd, best)) (n - 1) 1 (0%nat, hkAt s (2 ^ n - 1) 0)) as H.
  destruct (fold_left _ _ _) as [b v]. cbn [fst snd] in *. destruct H as (_ & H1 & -> & H3).
  - split_and!; auto; try lia. intros j Hj. by replace j with 0%nat by lia.
  - intros k [b' v'] Hk (I1 & I2 & I3 & I4). cbn [fst snd] in *. subst v'.
    destruct (fltb _ _) eqn:E; cbn [fst snd].
    + apply fltb_spec in E as (_ & _ & E). split_and!; auto; try lia. intros j Hj.
      destruct (decide (j = k)) as [->|]; [lia|]. specialize (I4 j ltac:(lia)). lia.
    + apply fltb_false in E; [|apply Hnn; lia|by apply Hnn]. split_and!; auto; try lia. intros j Hj.
      destruct (decide (j = k)) as [->|]; [lia|]. apply I4. lia.
  - split; [assumption|]. intros j Hj. apply H3. lia.
Qed.

(** Held-Karp returns a Hamiltonian path from the host, and the cheapest one. *)
Lemma hkPath_spec : (1 <= n <= 100)%nat ->
  exists p, hkPath cost n = Some p /\ is_path p /\ p ≡ₚ seq 0 n /\
    forall q, is_path q -> q ≡ₚ seq 0 n -> fv (pathCost p) <= fv (pathCost q).
Proof.
  intros Hn. destruct (hkFill_spec ltac:(lia)) as [Hi _]. set (s := hkFill cost n) in *.
  destruct (hkBestEnd_spec s Hi ltac:(lia)) as [HE Hmin].
  assert (Hfull : forall q, is_path q -> q ≡ₚ seq 0 n ->
            fv (hkAt s (2 ^ n - 1) (hkBestEnd n s)) <= fv (pathCost q)).
  { intros q Hq Hperm. etransitivity; [apply (Hmin (List.last q 0%nat)); by apply is_path_last|].
    replace (2 ^ n - 1)%nat with (mask_of q); [apply hkFill_optimal; auto; lia|].
    apply Nat.bits_inj. intros i. replace (2 ^ n - 1)%nat with (Nat.ones n) by (rewrite Nat.ones_equiv; lia).
    apply eq_true_iff_eq. rewrite mask_of_testbit, Hperm, list_elem_of_In, in_seq. split.
    - intros. apply Nat.ones_spec_low. lia.
    - intros Ho. destruct (decide (i < n)%nat); [lia|]. by rewrite Nat.ones_spec_high in Ho by lia. }
  assert (Hseq : is_path (seq 0 n)).
  { split_and!; [apply NoDup_seq|destruct n; [lia|done]|]. apply Forall_forall. intros i.
    rewrite list_elem_of_In, in_seq. lia. }
  pose proof (Hfull _ Hseq ltac:(done)) as Hle. pose proof (pathCost_below _ ltac:(lia) Hseq) as Hb.
  pose proof (proj2 (proj1 (is_fin_spec _) (below_fin _ _ Hb))) as Hlt.
  pose proof (Nat.pow_nonzero 2 n ltac:(lia)) as Hpow.
  destruct (hkWalk_spec s Hi (2 ^ n - 1)%nat (hkBestEnd n s) [] ltac:(lia) HE
      (not_pinf (hkAt s (2 ^ n - 1) (hkBestEnd n s)) ltac:(lia)))
    as (p & P1 & P2 & _ & P4 & P5).
  pose proof (mask_of_full p n (proj1 P1) P2) as Hperm. exists p. split_and!; auto.
  - unfold hkPath. cbv zeta. fold s. rewrite <- (length_seq n 0) at 1.
    rewrite <- Hperm. by rewrite P5, app_nil_r.
  - intros q Hq Hq'. rewrite P4. by apply Hfull.
Qed.
End HeldKarp.

(** ** Edge costs of well-formed inputs *)

Lemma edgeCost_below a b model links :
  params_ok model -> Forall link_ok links -> below 200 (edgeCost a b model links).
Proof.
  intros Hp Hl. unfold edgeCost. destruct (lookupLink links a b) as [l|] eqn:E.
  2:{ apply (below_weaken 20); [apply below_of_Z; lia|lia]. }
  destruct (lookupLink_ok links Hl _ _ _ E) as [Hr Hb]. cbv zeta. unfold bytesPerMs.
  destruct (Link_BandwidthGBs l <=? f0)%f64 eqn:E0.
  { change (f0 >? f0)%f64 with false. cbn match. apply (below_weaken 100); [exact Hr|lia]. }
  destruct (quantity_le0 _ Hb E0) as [A1 B1].
  pose proof (below_mul _ _ _ _ B1 below_1e9 ltac:(lia) ltac:(lia) ltac:(lia)) as B2.
  pose proof (above_mul _ _ _ _ A1 above_1e9 ltac:(lia) ltac:(lia) ltac:(lia) (below_fin _ _ B2)) as A2.
  assert (A3 : above 0 (of_Z 1000)) by (apply above_of_Z; split; [lia|]; vm_compute; discriminate).
  assert (B3 : below 10 (of_Z 1000)) by (apply below_of_Z; lia).
  pose proof (below_div _ _ _ _ B2 A3 ltac:(lia) ltac:(lia) ltac:(lia)) as B4.
  pose proof (above_div _ _ _ _ A2 B3 (above_pos _ _ A3 ltac:(lia)) ltac:(lia) ltac:(lia) ltac:(lia)
    (below_fin _ _ B4)) as A4.
  destruct (_ >? f0)%f64; [|apply (below_weaken 100); [exact Hr|lia]].
  assert (BB : below 64 (activationBytes model)).
  { apply (below_mul 63 1); try lia; [apply below_of_Z; pose proof (po_hidden _ Hp); lia|apply (below_of_Z 1 2); lia]. }
  pose proof (below_div _ _ _ _ BB A4 ltac:(lia) ltac:(lia) ltac:(lia)) as B5.
  pose proof (below_add _ _ _ _ Hr B5 ltac:(lia) ltac:(lia) ltac:(lia)) as B6.
  eapply below_weaken; [exact B6|lia].
Qed.

Lemma costTable_get nodes model links i j : (i < length nodes)%nat -> (j < length nodes)%nat ->
  tget f0 (costTable nodes model links) i j =
  if Nat.eqb i j then f0
  else edgeCost (Node_ID (nth_node nodes i)) (Node_ID (nth_node nodes j)) model links.
Proof.
  intros Hi Hj. unfold tget, costTable.
  assert (Hmap : forall {A} (f : nat -> A) n k, (k < n)%nat -> map f (seq 0 n) !! k = Some (f k)).
  { intros A f n k Hk. change (map f (seq 0 n)) with (f <$> seq 0 n).
    by rewrite list_lookup_fmap, (lookup_seq_lt _ _ _ Hk). }
  rewrite Hmap by assumption. cbn [mbind option_bind]. by rewrite Hmap.
Qed.

Lemma orderCostFrom_path nodes model links p : forall total,
  NoDup p -> Forall (fun i => (i < length nodes)%nat) p ->
  orderCostFrom total (map (nth_node nodes) p) model links =
  pathCostFrom (tget f0 (costTable nodes model links)) total p.
Proof.
  induction p as [|i p IH]; intros total Hnd Hlt; [done|]. destruct p as [|j p]; [done|].
  rewrite Forall_cons, Forall_cons in Hlt. destruct Hlt as (Hi & Hj & Hlt). apply NoDup_cons in Hnd as [Hij Hnd].
  cbn [map]. change (orderCostFrom total (nth_node nodes i :: nth_node nodes j :: map (nth_node nodes) p) model links)
    with (orderCostFrom (total + edgeCost (Node_ID (nth_node nodes i)) (Node_ID (nth_node nodes j)) model links)%f64
            (map (nth_node nodes) (j :: p)) model links).
  rewrite IH; [|done|by constructor]. cbn [pathCostFrom]. rewrite costTable_get by assumption.
  destruct (Nat.eqb_spec i j) as [->|]; [|done]. exfalso. apply Hij. left.
Qed.

Lemma map_nth_node nodes : map (nth_node nodes) (seq 0 (length nodes)) = nodes.
Proof.
  induction nodes as [|x l IH]; [done|]. cbn [length seq map]. f_equal.
  rewrite <- seq_shift, map_map. exact IH.
Qed.

(** A reordering that keeps the head is a path from index [0]. *)
Lemma reorder_path nodes other : nodes ≠ [] -> other ≡ₚ nodes -> head other = head nodes ->
  exists q, other = map (nth_node nodes) q /\ is_path (length nodes) q /\ q ≡ₚ seq 0 (length nodes).
Proof.
  intros Hne Hperm Hhead. destruct nodes as [|x l]; [done|]. destruct other as [|y o]; [done|].
  injection Hhead as ->. apply Permutation_cons_inv in Hperm.
  assert (Hl : l = map (nth_node (x :: l)) (seq 1 (length l))).
  { rewrite <- seq_shift, map_map. symmetry. apply map_nth_node. }
  rewrite Hl in Hperm. apply Permutation_map_inv in Hperm as (q & -> & Hq).
  exists (0%nat :: q). split; [done|]. assert (HP : 0%nat :: q ≡ₚ seq 0 (length (x :: l))) by (cbn; by rewrite <- Hq).
  split; [|exact HP]. split_and!.
  - rewrite HP. apply NoDup_seq.
  - done.
  - apply Forall_forall. intros i. rewrite HP, list_elem_of_In, in_seq. lia.
Qed.

Lemma heldKarp_spec nodes model links :
  nodes ≠ [] -> Z.of_nat (length nodes) <= orderingThresholdMax -> params_ok model -> Forall link_ok links ->
  exists order, heldKarpPath nodes model links = Some order /\ order ≡ₚ nodes /\ head order = head nodes /\
    forall other, other ≡ₚ nodes -> head other = head nodes ->
      (orderCost order model links <=? orderCost other model links)%f64 = true.
Proof.
  intros Hne Hlen Hp Hl. unfold heldKarpPath, orderingThresholdMax in *. cbv zeta.
  rewrite Z.gtb_ltb, (proj2 (Z.ltb_ge _ _)) by lia.
  assert (Hn : (1 <= length nodes <= 100)%nat) by (destruct nodes; [done|cbn [length] in *; lia]).
  assert (HC : forall i j, (i < length nodes)%nat -> (j < length nodes)%nat ->
            below 200 (tget f0 (costTable nodes model links) i j)).
  { intros i j Hi Hj. rewrite costTable_get by assumption. destruct (Nat.eqb i j).
    - apply below_bool; reflexivity.
    - by apply edgeCost_below. }
  destruct (hkPath_spec _ _ HC Hn) as (p & -> & Hpath & Hperm & Hopt). cbn [mbind option_bind].
  assert (Hcost : forall q, is_path (length nodes) q ->
            orderCost (map (nth_node nodes) q) model links = pathCost (tget f0 (costTable nodes model links)) q).
  { intros q (Hq1 & _ & Hq2). by apply orderCostFrom_path. }
  eexists. split; [reflexivity|]. split_and!.
  - rewrite Hperm. by rewrite map_nth_node.
  - destruct Hpath as (_ & Hh & _). destruct p; [done|]. injection Hh as ->. by destruct nodes.
  - intros other Hperm' Hhead. destruct (reorder_path nodes other Hne Hperm' Hhead) as (q & -> & Hq1 & Hq2).
    rewrite !Hcost by assumption. apply fleb_spec.
    split_and!; [apply nn_num, nnf_nn, (pathCost_below _ _ HC p); auto; lia
                |apply nn_num, nnf_nn, (pathCost_below _ _ HC q); auto; lia|by apply Hopt].
Qed.

(** ** The heuristic *)

Lemma reverseSegment_perm {A} i k (l : list A) : (i <= S k)%nat -> reverseSegment i k l ≡ₚ l.
Proof.
  intros H. unfold reverseSegment. rewrite reverse_Permutation.
  replace (skipn (S k) l) with (skipn (S k - i) (skipn i l)) by (rewrite drop_drop; f_equal; lia).
  by rewrite take_drop, take_drop.
Qed.

Lemma reverseSegment_head {A} i k (l : list A) : (0 < i)%nat -> head (reverseSegment i k l) = head l.
Proof. intros H. unfold reverseSegment. destruct i; [lia|]. destruct l; [|done]. by rewrite !drop_nil, !take_nil. Qed.

Lemma fsub_eps_le x : num x -> 0 <= fv x -> fv (x - twoOptImproveEps)%f64 <= fv x.
Proof.
  intros Hn H0. destruct (nn_cases x (conj Hn H0)) as [Hx|Hx].
  - rewrite (proj2 (fsub_fin x twoOptImproveEps (proj1 Hx) eq_refl)).
    rewrite <- (rndZ_SV (sf x)) at 2 by apply sf_valid. apply rndZ_mono. fold (fv x).
    assert (0 <= fv twoOptImproveEps) by (apply Z.leb_le; vm_compute; reflexivity). lia.
  - pose proof (fv_bound (x - twoOptImproveEps)%f64). rewrite (proj2 (sf_inf_nn x Hx)). lia.
Qed.

(** What a sweep keeps of the route it started from. *)
Definition two_opt_ok (model : ModelSpec) (links : list Link) (route : list Node) (s : TwoOpt) : Prop :=
  to_best s ≡ₚ route /\ head (to_best s) = head route /\ to_cost s = orderCost (to_best s) model links /\
  num (to_cost s) /\ 0 <= fv (to_cost s) <= fv (orderCost route model links).

Lemma orderCostFrom_nn model links order : params_ok model -> Forall link_ok links ->
  forall total, nn total -> nn (orderCostFrom total order model links).
Proof.
  intros Hp Hl. induction order as [|a order IH]; intros total Ht; [done|]. destruct order as [|b order]; [done|].
  apply IH, nn_add; [assumption|]. by apply nnf_nn, (edgeCost_below _ _ _ _ Hp Hl).
Qed.

Lemma twoOptTry_ok model links route s ik :
  params_ok model -> Forall link_ok links ->
  two_opt_ok model links route s -> (0 < fst ik < snd ik)%nat -> two_opt_ok model links route (twoOptTry model links s ik).
Proof.
  intros Hp Hl (H1 & H2 & H3 & H4 & H5) Hik. unfold twoOptTry. cbv zeta.
  destruct (fltb _ _) eqn:E; [|by unfold two_opt_ok; split_and!; try lia]. apply fltb_spec in E as (N & _ & E).
  pose proof (fsub_eps_le (to_cost s) H4 ltac:(lia)). unfold two_opt_ok. cbn [to_best to_cost].
  pose proof (orderCostFrom_nn model links (reverseSegment (fst ik) (snd ik) (to_best s)) Hp Hl f0
    (nnf_nn _ nnf_f0)) as [_ Hge]. fold (orderCost (reverseSegment (fst ik) (snd ik) (to_best s)) model links) in Hge.
  split_and!; auto; try lia.
  - by rewrite reverseSegment_perm by lia.
  - by rewrite reverseSegment_head by lia.
Qed.

Lemma twoOptPairs_lt n i k : (i, k) ∈ twoOptPairs n -> (0 < i < k)%nat.
Proof.
  intros H. apply list_elem_of_In, in_flat_map in H as (i' & Hi & Hk).
  apply in_map_iff in Hk as (k' & [= -> ->] & Hk). apply in_seq in Hi, Hk. lia.
Qed.

Lemma twoOptPasses_ok model links route n pass : params_ok model -> Forall link_ok links -> forall s,
  two_opt_ok model links route s -> two_opt_ok model links route (twoOptPasses pass n model links s).
Proof.
  intros Hp Hl. induction pass as [|pass IH]; intros s Hs; [done|]. cbn [twoOptPasses]. cbv zeta.
  assert (HF : forall iks s, two_opt_ok model links route s -> Forall (fun ik => 0 < fst ik < snd ik)%nat iks ->
            two_opt_ok model links route (fold_left (twoOptTry model links) iks s)).
  { induction iks as [|ik iks IHi]; intros s' Hs' HF; [done|]. apply Forall_cons in HF as [H1 H2].
    apply IHi; [|assumption]. by apply twoOptTry_ok. }
  specialize (HF (twoOptPairs n) (mkTwoOpt (to_best s) (to_cost s) false) Hs).
  destruct (to_improved _); [apply IH|]; apply HF; apply Forall_forall; intros [i k]; apply twoOptPairs_lt.
Qed.

Lemma two_opt_done model links route s : num (orderCost route model links) -> two_opt_ok model links route s ->
  to_best s ≡ₚ route /\ head (to_best s) = head route /\
  (orderCost (to_best s) model links <=? orderCost route model links)%f64 = true.
Proof.
  intros HN (H1 & H2 & H3 & H4 & H5). rewrite H3 in H4, H5. split_and!; auto. apply fleb_spec. split_and!; auto. lia.
Qed.

Lemma twoOptImprove_ok route model links : params_ok model -> Forall link_ok links ->
  twoOptImprove route model links ≡ₚ route /\ head (twoOptImprove route model links) = head route /\
  (orderCost (twoOptImprove route model links) model links <=? orderCost route model links)%f64 = true.
Proof.
  intros Hp Hl. pose proof (orderCostFrom_nn model links route Hp Hl f0 (nnf_nn _ nnf_f0)) as [HN H0].
  fold (orderCost route model links) in HN, H0. set (s0 := mkTwoOpt route (orderCost route model links) false).
  assert (Hs : two_opt_ok model links route s0).
  { unfold two_opt_ok, s0. cbn [to_best to_cost]. split_and!; auto; lia. }
  unfold twoOptImprove. cbv zeta. destruct (Nat.ltb _ _); [exact (two_opt_done _ _ _ _ HN Hs)|].
  apply (two_opt_done _ _ _ _ HN), twoOptPasses_ok; assumption.
Qed.

Lemma nearestNext_spec nodes model links visited cur :
  params_ok model -> Forall link_ok links ->
  (exists k, (k < length nodes)%nat /\ nth k visited false = false) ->
  exists k, nearestNext nodes model links visited cur = Some k /\ (k < length nodes)%nat /\
    nth k visited false = false /\
    forall k', (k' < length nodes)%nat -> nth k' visited false = false ->
      fv (edgeCost (Node_ID (nth_node nodes cur)) (Node_ID (nth_node nodes k)) model links) <=
      fv (edgeCost (Node_ID (nth_node nodes cur)) (Node_ID (nth_node nodes k')) model links).
Proof.
  intros Hp Hl (k0 & Hk0 & Hv0). unfold nearestNext.
  set (c := fun k => edgeCost (Node_ID (nth_node nodes cur)) (Node_ID (nth_node nodes k)) model links).
  assert (Hc : forall k, num (c k) /\ fv (c k) < INF).
  { intros k. pose proof (below_fin _ _ (edgeCost_below (Node_ID (nth_node nodes cur)) (Node_ID (nth_node nodes k))
      model links Hp Hl)) as H. apply is_fin_spec in H. unfold c. intuition lia. }
  pose proof (fold_seq_ind (fun m r =>
    ((r = (None, f_inf) /\ forall k, (k < m)%nat -> nth k visited false = true) \/
     exists k, r = (Some k, c k) /\ (k < m)%nat /\ nth k visited false = false) /\
    forall k, (k < m)%nat -> nth k visited false = false -> fv (snd r) <= fv (c k))
    (fun '(next, bestC) k => if nth k visited false then (next, bestC)
       else let c := edgeCost (Node_ID (nth_node nodes cur)) (Node_ID (nth_node nodes k)) model links in
            if (c <? bestC)%f64 then (Some k, c) else (next, bestC))
    (length nodes) 0 (None, f_inf)) as H. cbn [Nat.add] in H. destruct H as [H1 H2].
  - split; [left; split; [done|intros; lia]|intros; lia].
  - intros k [nx bc] Hk [I1 I2]. cbn [snd] in *. destruct (nth k visited false) eqn:Ev.
    + split; [|intros k' Hk' Hv'; apply I2; auto; destruct (decide (k' = k)); [congruence|lia]].
      destruct I1 as [[E I1]|(k' & E & I1 & I3)]; [left; split; [done|]|right; exists k'; split_and!; auto; lia].
      intros k' Hk'. destruct (decide (k' = k)) as [->|]; [done|]. apply I1. lia.
    + cbv zeta. fold (c k). destruct (Hc k) as [N1 N2]. destruct (fltb (c k) bc) eqn:E; cbn [snd].
      * apply fltb_spec in E as (_ & _ & E). split; [right; exists k; split_and!; auto; lia|].
        intros k' Hk' Hv'. destruct (decide (k' = k)) as [->|]; [lia|]. specialize (I2 k' ltac:(lia) Hv'). lia.
      * assert (Hle : fv bc <= fv (c k)).
        { apply fltb_false in E; auto. destruct I1 as [[[= -> ->] _]|(k' & [= -> ->] & _)]; [done|apply Hc]. }
        split; [|intros k' Hk' Hv'; destruct (decide (k' = k)) as [->|]; [done|apply I2; auto; lia]].
        destruct I1 as [[[= -> ->] _]|(k' & E' & ? & ?)]; [|right; exists k'; split_and!; auto; lia].
        exfalso. change (fv f_inf) with INF in Hle. lia.
  - destruct H1 as [[_ H1]|(k & E & H1 & H3)]; [rewrite H1 in Hv0; [discriminate|done]|].
    rewrite E in H2 |- *. exists k. split_and!; auto.
Qed.

(** The route so far: distinct nodes, exactly the visited ones. *)
Record route_ok (n : nat) (visited : list bool) (route : list nat) : Prop := {
  ro_path : is_path n route;
  ro_len : length visited = n;
  ro_visited : forall k, nth k visited false = true <-> k ∈ route
}.

Lemma nearestRoute_spec nodes model links todo : params_ok model -> Forall link_ok links ->
  forall visited cur route, route_ok (length nodes) visited route -> (length route + todo = length nodes)%nat ->
  exists p, nearestRoute nodes model links todo visited cur route = Some p /\
    is_path (length nodes) p /\ length p = length nodes.
Proof.
  intros Hp Hl. induction todo as [|todo IH]; intros visited cur route Hr Hlen; cbn [nearestRoute].
  { exists route. split_and!; [done|apply Hr|lia]. }
  destruct (nearestNext_spec nodes model links visited cur Hp Hl) as (k & -> & Hk & Hv & _).
  { destruct (decide (seq 0 (length nodes) ⊆ route)) as [Hsub|Hsub].
    - exfalso. pose proof (submseteq_length _ _ (NoDup_submseteq _ _ (NoDup_seq 0 (length nodes)) Hsub)) as H.
      rewrite length_seq in H. lia.
    - unfold subseteq, list_subseteq in Hsub.
      assert (exists k, k ∈ seq 0 (length nodes) /\ k ∉ route) as (k & Hk & Hkr).
      { destruct (Exists_dec (fun k => k ∉ route) (seq 0 (length nodes))) as [He|He].
        - apply Exists_exists in He as (k & H1 & H2). eauto.
        - exfalso. apply Hsub. intros k Hk. destruct (decide (k ∈ route)) as [|Hn]; [done|].
          exfalso. apply He, Exists_exists. eauto. }
      exists k. apply list_elem_of_In, in_seq in Hk. split; [lia|]. apply not_true_is_false.
      by rewrite (ro_visited _ _ _ Hr). }
  cbn [mbind option_bind]. assert (Hkr : k ∉ route) by (rewrite <- (ro_visited _ _ _ Hr); congruence).
  assert (Hne : route ≠ []) by (intros ->; by destruct (ro_path _ _ _ Hr) as (_ & ? & _)).
  apply IH; [|rewrite length_app; cbn; lia]. split.
  - apply is_path_snoc; auto. split_and!; auto. apply Hr.
  - rewrite length_insert. apply Hr.
  - intros k'. rewrite elem_of_app, list_elem_of_singleton, <- (ro_visited _ _ _ Hr), !nth_lookup.
    destruct (decide (k' = k)) as [->|Hkk].
    + rewrite list_lookup_insert_eq by (rewrite (ro_len _ _ _ Hr); lia). cbn. tauto.
    + rewrite list_lookup_insert_ne by done. tauto.
Qed.

Lemma is_path_perm n p : is_path n p -> length p = n -> p ≡ₚ seq 0 n.
Proof.
  intros (Hnd & _ & HF) Hlen. apply submseteq_length_Permutation.
  - apply NoDup_submseteq; [assumption|]. intros i Hi. rewrite Forall_forall in HF. apply HF in Hi.
    apply list_elem_of_In, in_seq. lia.
  - rewrite length_seq. lia.
Qed.

Lemma nearestNeighbor2Opt_spec nodes model links :
  nodes ≠ [] -> params_ok model -> Forall link_ok links ->
  exists route order, nearestNeighborOrder nodes model links = Some route /\
    nearestNeighbor2Opt nodes model links = Some order /\ order ≡ₚ nodes /\ head order = head nodes /\
    (orderCost order model links <=? orderCost route model links)%f64 = true.
Proof.
  intros Hne Hp Hl. unfold nearestNeighbor2Opt.
  assert (HR : exists route, nearestNeighborOrder nodes model links = Some route /\ route ≡ₚ nodes /\
            head route = head nodes).
  { unfold nearestNeighborOrder. destruct nodes as [|x l]; [done|]. set (nodes := x :: l). cbv zeta.
    assert (H1 : (1 <= length nodes)%nat) by (cbn; lia).
    destruct (nearestRoute_spec nodes model links (length nodes - 1) Hp Hl
      (<[0%nat := true]> (replicate (length nodes) false)) 0 [0%nat]) as (p & -> & Hpath & Hplen).
    - split.
      + split_and!; [apply NoDup_singleton|done|by apply Forall_singleton].
      + by rewrite length_insert, length_replicate.
      + intros k. rewrite list_elem_of_singleton, nth_lookup. destruct k as [|k].
        * rewrite list_lookup_insert_eq by (rewrite length_replicate; lia). cbn. tauto.
        * rewrite list_lookup_insert_ne by done. destruct (replicate _ _ !! S k) eqn:E; cbn; [|done].
          apply lookup_replicate in E as [-> _]. done.
    - cbn; lia.
    - cbn [mbind option_bind]. eexists. split_and!; [reflexivity| |].
      + rewrite (is_path_perm _ _ Hpath Hplen). by rewrite map_nth_node.
      + destruct Hpath as (_ & Hh & _). destruct p; [done|]. by injection Hh as ->. }
  destruct HR as (route & -> & Hperm & Hhead). cbn [mbind option_bind].
  destruct (twoOptImprove_ok route model links Hp Hl) as (H1 & H2 & H3).
  exists route, (twoOptImprove route model links). split_and!; auto; [by rewrite H1|by rewrite H2].
Qed.

(** ** [orderNodes] *)

Lemma swap0_perm l h : (h < length l)%nat -> swap0 l h ≡ₚ l /\ head (swap0 l h) = Some (nth_node l h).
Proof.
  intros Hh. destruct l as [|x l]; [cbn in Hh; lia|]. unfold swap0.
  destruct h as [|h]; [done|]. cbn in Hh.
  destruct (lookup_lt_is_Some_2 l h) as [y Hy]; [lia|].
  assert (E : nth_node (x :: l) (S h) = y) by (unfold nth_node; cbn; by apply nth_lookup_Some).
  rewrite E. split; [|done].
  change (<[S h := nth_node (x :: l) 0]> (<[0%nat := y]> (x :: l))) with (y :: <[h := x]> l).
  rewrite (insert_take_drop l h x) by lia. rewrite <- (take_drop_middle l h y Hy) at 3.
  rewrite <- !Permutation_middle. apply Permutation_swap.
Qed.

Lemma indexOfID_spec id nodes : forall i,
  match indexOfID id i nodes with
  | Some j => (i <= j < i + length nodes)%nat /\ Node_ID (nth_node nodes (j - i)) = id
  | None => Forall (fun n => Node_ID n ≠ id) nodes
  end.
Proof.
  induction nodes as [|n nodes IH]; intros i; cbn [indexOfID]; [constructor|].
  case_bool_decide as E.
  - rewrite Nat.sub_diag. split; [cbn; lia|done].
  - specialize (IH (S i)). destruct (indexOfID id (S i) nodes) as [j|]; [|by constructor].
    destruct IH as [H1 H2]. split; [cbn; lia|]. replace (j - i)%nat with (S (j - S i)) by lia. exact H2.
Qed.

Lemma mostCapableIndex_spec nodes : nodes ≠ [] -> Forall (fun n => num (usefulCapacity n)) nodes ->
  (mostCapableIndex nodes < length nodes)%nat /\
  Forall (fun n => fv (usefulCapacity n) <= fv (usefulCapacity (nth_node nodes (mostCapableIndex nodes)))) nodes.
Proof.
  intros Hne Hnum. assert (Hlen : (1 <= length nodes)%nat) by (destruct nodes; [done|cbn; lia]).
  assert (Hnn : forall k, (k < length nodes)%nat -> num (usefulCapacity (nth_node nodes k))).
  { intros k Hk. rewrite Forall_forall in Hnum. apply Hnum, list_elem_of_In, nth_In, Hk. }
  unfold mostCapableIndex.
  pose proof (fold_seq_ind (fun m r => (fst r < m)%nat /\ snd r = usefulCapacity (nth_node nodes (fst r)) /\
    (fst r < length nodes)%nat /\
    forall k, (k < m)%nat -> fv (usefulCapacity (nth_node nodes k)) <= fv (snd r))
    (fun '(best, bestCap) i => let cap := usefulCapacity (nth_node nodes i) in
       if (cap >? bestCap)%f64 then (i, cap) else (best, bestCap))
    (length nodes - 1) 1 (0%nat, usefulCapacity (nth_node nodes 0))) as H.
  destruct (fold_left _ _ _) as [b v]. cbn [fst snd] in *. destruct H as (_ & -> & H1 & H2).
  - split_and!; auto; try lia. intros k Hk. by replace k with 0%nat by lia.
  - intros k [b' v'] Hk (I1 & I2 & I3 & I4). cbn [fst snd] in *. subst v'. cbv zeta.
    destruct (fltb _ _) eqn:E; cbn [fst snd].
    + apply fltb_spec in E as (_ & _ & E). split_and!; auto; try lia. intros j Hj.
      destruct (decide (j = k)) as [->|]; [lia|]. specialize (I4 j ltac:(lia)). lia.
    + apply fltb_false in E; [|by apply Hnn|apply Hnn; lia]. split_and!; auto; try lia. intros j Hj.
      destruct (decide (j = k)) as [->|]; [lia|]. apply I4. lia.
  - split; [assumption|]. apply Forall_forall. intros n Hn.
    apply list_elem_of_lookup in Hn as [k Hk]. pose proof (lookup_lt_Some _ _ _ Hk).
    specialize (H2 k ltac:(lia)). unfold nth_node in H2 at 1. by rewrite (nth_lookup_Some _ _ _ _ Hk) in H2.
Qed.

Lemma fold_fst_lt {B} (f : nat -> bool) (g : nat -> B) (P : B -> nat -> bool) n : forall a b v,
  (b < a)%nat -> (fst (fold_left (fun '(best, bestV) i => if P bestV i then (i, g i) else (best, bestV))
                   (seq a n) (b, v)) < a + n)%nat.
Proof.
  induction n as [|n IH]; intros a b v Hb; cbn; [lia|].
  destruct (P v a); eapply Nat.lt_le_trans; try apply IH; lia.
Qed.

Lemma chooseHostIndex_lt nodes c : nodes ≠ [] -> (chooseHostIndex nodes c < length nodes)%nat.
Proof.
  intros Hne. assert (Hlen : (1 <= length nodes)%nat) by (destruct nodes; [done|cbn; lia]).
  assert (HM : (mostCapableIndex nodes < length nodes)%nat).
  { unfold mostCapableIndex. eapply Nat.lt_le_trans.
    - apply (fold_fst_lt (fun _ => true) (fun i => usefulCapacity (nth_node nodes i))
        (fun v i => (usefulCapacity (nth_node nodes i) >? v)%f64)). lia.
    - lia. }
  unfold chooseHostIndex. destruct (C_ForceHost c) as [h|]; [|done].
  pose proof (indexOfID_spec h nodes 0) as H. destruct (indexOfID h 0 nodes); [lia|done].
Qed.

(** The canonical order and the host that [orderNodes] picks. *)
Definition pipelineHost (nodes : list Node) (c : Constraints) : Node :=
  let ordered := go_sort idLess nodes in nth_node ordered (chooseHostIndex ordered c).

(** The pipeline host is the forced host whenever it is among the nodes, and
    otherwise a node of the greatest useful capacity. *)
Theorem pipelineHost_spec nodes c :
  nodes ≠ [] -> Forall (fun n => num (usefulCapacity n)) nodes ->
  pipelineHost nodes c ∈ nodes /\
  (forall h, C_ForceHost c = Some h -> h ∈ Node_ID <$> nodes -> Node_ID (pipelineHost nodes c) = h) /\
  ((forall h, C_ForceHost c = Some h -> h ∉ Node_ID <$> nodes) ->
   Forall (fun n => (usefulCapacity n <=? usefulCapacity (pipelineHost nodes c))%f64 = true) nodes).
Proof.
  intros Hne Hnum. unfold pipelineHost. cbv zeta. pose proof (go_sort_perm idLess nodes) as Hperm.
  set (l := go_sort idLess nodes) in *. assert (Hl : l ≠ []) by (intros E; rewrite E in Hperm; by apply Permutation_nil_l in Hperm).
  assert (Hin : forall k, (k < length l)%nat -> nth_node l k ∈ nodes).
  { intros k Hk. rewrite <- Hperm. by apply list_elem_of_In, nth_In. }
  split; [apply Hin, chooseHostIndex_lt, Hl|]. unfold chooseHostIndex. split.
  - intros h -> Hh. pose proof (indexOfID_spec h l 0) as H. destruct (indexOfID h 0 l) as [i|].
    + rewrite Nat.sub_0_r in H. apply H.
    + exfalso. rewrite <- Hperm in Hh. apply list_elem_of_fmap in Hh as (n & -> & Hn).
      rewrite Forall_forall in H. by apply (H n Hn).
  - intros Hno. assert (E : match C_ForceHost c with
        | Some h => match indexOfID h 0 l with Some i => i | None => mostCapableIndex l end
        | None => mostCapableIndex l end = mostCapableIndex l).
    { destruct (C_ForceHost c) as [h|]; [|done]. pose proof (indexOfID_spec h l 0) as H.
      destruct (indexOfID h 0 l) as [i|]; [|done]. exfalso. apply (Hno h eq_refl).
      destruct H as [H1 <-]. apply list_elem_of_fmap. exists (nth_node l (i - 0)). split; [done|]. apply Hin. lia. }
    rewrite E. destruct (mostCapableIndex_spec l Hl) as [H1 H2]; [by rewrite Hperm|].
    rewrite Hperm in H2. apply Forall_forall. intros n Hn. rewrite Forall_forall in H2, Hnum.
    apply fleb_spec. split_and!; [by apply Hnum|by apply Hnum, Hin|by apply H2].
Qed.

(** (C8) Up to the Held-Karp threshold the pipeline order is exact: it is a
    reordering of the nodes with the host first, and among all such reorderings it
    has the least total activation-transfer cost (sums in IEEE arithmetic). *)
Theorem orderNodes_exact threshold nodes model links c :
  (2 <= length nodes)%nat -> Z.of_nat (length nodes) <= threshold <= orderingThresholdMax ->
  params_ok model -> Forall link_ok links ->
  exists order, orderNodes threshold nodes model links c = Some order /\ order ≡ₚ nodes /\
    head order = Some (pipelineHost nodes c) /\
    forall other, other ≡ₚ nodes -> head other = Some (pipelineHost nodes c) ->
      (orderCost order model links <=? orderCost other model links)%f64 = true.
Proof.
  intros Hn Hth Hp Hl. unfold orderNodes. cbv zeta. rewrite (proj2 (Nat.leb_gt _ _)) by lia.
  rewrite (proj2 (Z.leb_le _ _)) by lia. pose proof (go_sort_perm idLess nodes) as Hperm.
  set (l := go_sort idLess nodes) in *. assert (Hlen : length l = length nodes) by (by rewrite Hperm).
  assert (Hne : l ≠ []) by (intros E; rewrite E in Hlen; cbn in Hlen; lia).
  destruct (swap0_perm l (chooseHostIndex l c) (chooseHostIndex_lt l c Hne)) as [S1 S2].
  set (l' := swap0 l _) in *. assert (Hlen' : length l' = length nodes) by (by rewrite S1).
  destruct (heldKarp_spec l' model links) as (order & E & P1 & P2 & P3); auto; [by intros E; rewrite E in S2|lia|].
  exists order. split; [exact E|]. split; [by rewrite P1, S1|]. split; [by rewrite P2, S2|].
  intros other Ho Hh. apply P3; [by rewrite Ho, S1|by rewrite Hh, S2].
Qed.

Lemma orderNodes_ok threshold nodes model links c : params_ok model -> Forall link_ok links ->
  exists order, orderNodes threshold nodes model links c = Some order /\ order ≡ₚ nodes.
Proof.
  intros Hp Hl. unfold orderNodes. cbv zeta. destruct (Nat.leb_spec (length nodes) 1); [by exists nodes|].
  pose proof (go_sort_perm idLess nodes) as Hperm.
  set (l := go_sort idLess nodes) in *. assert (Hlen : length l = length nodes) by (by rewrite Hperm).
  assert (Hne : l ≠ []) by (intros E; rewrite E in Hlen; cbn in Hlen; lia).
  destruct (swap0_perm l (chooseHostIndex l c) (chooseHostIndex_lt l c Hne)) as [S1 S2].
  set (l' := swap0 l _) in *. assert (Hne' : l' ≠ []) by (intros E; by rewrite E in S2).
  destruct (nearestNeighbor2Opt_spec l' model links Hne' Hp Hl) as (_ & o & _ & E1 & P & _ & _).
  destruct (_ <=? threshold); [|exists o; split; [done|by rewrite P, S1]].
  destruct (Z.le_gt_cases (Z.of_nat (length l')) orderingThresholdMax) as [Hle|Hgt].
  - destruct (heldKarp_spec l' model links Hne' Hle Hp Hl) as (o' & E2 & P' & _). exists o'. split; [done|by rewrite P', S1].
  - exists o. unfold heldKarpPath. cbv zeta. rewrite Z.gtb_ltb, (proj2 (Z.ltb_lt _ _)) by lia.
    split; [done|by rewrite P, S1].
Qed.

(** Ordering never panics and never loses or duplicates a node, on either
    side of the threshold; above it the 2-opt pass returns a route that starts at
    the same host and costs no more than the nearest-neighbour route. *)
Theorem orderNodes_total threshold nodes model links c :
  params_ok model -> Forall link_ok links ->
  (exists order, orderNodes threshold nodes model links c = Some order /\ order ≡ₚ nodes) /\
  (nodes ≠ [] -> exists route order, nearestNeighborOrder nodes model links = Some route /\
     nearestNeighbor2Opt nodes model links = Some order /\ order ≡ₚ nodes /\ head order = head nodes /\
     (orderCost order model links <=? orderCost route model links)%f64 = true).
Proof.
  intros Hp Hl. split; [by apply orderNodes_ok|]. intros Hne. by apply nearestNeighbor2Opt_spec.
Qed.

Lemma orderNodes_perm threshold nodes nodes' model links c :
  NoDup (Node_ID <$> nodes) -> nodes ≡ₚ nodes' ->
  orderNodes threshold nodes model links c = orderNodes threshold nodes' model links c.
Proof.
  intros Hnd Hp. unfold orderNodes. cbv zeta. rewrite <- (Permutation_length Hp).
  destruct (Nat.leb_spec (length nodes) 1) as [H1|H1].
  - f_equal. destruct nodes as [|x [|y l]]; [|symmetry|cbn in H1; lia].
    + by apply Permutation_nil_l in Hp.
    + by apply Permutation_singleton_l in Hp.
  - assert (E : go_sort idLess nodes = go_sort idLess nodes'); [|by rewrite E].
    apply go_sort_unique; auto.
    + intros x y. apply string_ltb_asym.
    + unfold not_less, idLess. intros x y z. rewrite !string_ltb_false. apply string_le_trans.
    + intros x y Hx Hy Hxy Hyx. apply (NoDup_fmap_inj_on Node_ID nodes); auto. by apply string_ltb_total.
Qed.

(** The order depends only on the set of nodes (with distinct IDs): it is
    the same for every permutation of the input, and therefore a fixed point, so
    that re-ordering an ordered pipeline changes nothing. This is what the
    co-optimisation loop of [multiNodePlan] relies on to stop. *)
Theorem orderNodes_canonical threshold nodes nodes' model links c order :
  NoDup (Node_ID <$> nodes) -> params_ok model -> Forall link_ok links ->
  orderNodes threshold nodes model links c = Some order ->
  (nodes ≡ₚ nodes' -> orderNodes threshold nodes' model links c = Some order) /\
  orderNodes threshold order model links c = Some order.
Proof.
  intros Hnd Hp Hl H. split.
  - intros HP. by rewrite <- (orderNodes_perm threshold nodes nodes').
  - destruct (orderNodes_ok threshold nodes model links c Hp Hl) as (o & E & HP). rewrite H in E. injection E as <-.
    by rewrite <- (orderNodes_perm threshold nodes order) by done.
Qed.

(** The ordering threshold read from the environment stays within
    [1 .. 20], whatever the variable holds, so that the Held-Karp tables never
    exceed [2^20] rows. *)
Theorem getEnvInt_range v def :
  1 <= def <= orderingThresholdMax -> 1 <= getEnvInt v def <= orderingThresholdMax.
Proof.
  intros Hd. unfold getEnvInt. case_bool_decide; [done|]. destruct (Atoi v) as [n|]; [|done].
  destruct (Z.ltb_spec n 1), (Z.gtb_spec n orderingThresholdMax); cbn; lia.
Qed.

(** ** Instances *)

Lemma exIDs_NoDup : NoDup (Node_ID <$> exNodes).
Proof. apply (bool_decide_unpack _). vm_compute. exact I. Qed.

Lemma pipelineHost_spec_witness : Node_ID (pipelineHost exNodes Constraints_zero) = "a"%string /\
  Forall (fun n => (usefulCapacity n <=? usefulCapacity (pipelineHost exNodes Constraints_zero))%f64 = true) exNodes.
Proof.
  split; [vm_compute; reflexivity|]. destruct (pipelineHost_spec exNodes Constraints_zero) as (_ & _ & H).
  - discriminate.
  - repeat constructor.
  - apply H. intros h E. discriminate E.
Defined.

Lemma orderNodes_exact_witness : exists order, orderNodes 10 exNodes exModel exLinks Constraints_zero = Some order /\
  (orderCost order exModel exLinks <=? orderCost [exA; exC; exB] exModel exLinks)%f64 = true.
Proof.
  destruct (orderNodes_exact 10 exNodes exModel exLinks Constraints_zero) as (order & E & _ & _ & H).
  - cbn. lia.
  - unfold orderingThresholdMax. cbn. lia.
  - check_inputs.
  - check_inputs.
  - exists order. split; [exact E|]. apply H; [|vm_compute; reflexivity]. unfold exNodes.
    apply perm_skip. apply perm_swap.
Defined.

Lemma orderNodes_total_witness : exists order, orderNodes 2 exNodes exModel exLinks Constraints_zero = Some order /\ order ≡ₚ exNodes.
Proof. apply (orderNodes_total 2 exNodes exModel exLinks Constraints_zero); check_inputs. Defined.

Lemma orderNodes_canonical_witness :
  orderNodes 10 [exC; exA; exB] exModel exLinks Constraints_zero = Some [exA; exB; exC].
Proof.
  destruct (orderNodes_canonical 10 exNodes [exC; exA; exB] exModel exLinks Constraints_zero [exA; exB; exC]) as [H _].
  - exact exIDs_NoDup.
  - check_inputs.
  - check_inputs.
  - vm_compute. reflexivity.
  - apply H. unfold exNodes. apply (Permutation_app_comm [exA; exB] [exC]).
Defined.

Lemma getEnvInt_range_witness : 1 <= getEnvInt "64" HeldKarpMaxNodes <= orderingThresholdMax.
Proof. apply (getEnvInt_range "64" HeldKarpMaxNodes). unfold HeldKarpMaxNodes, orderingThresholdMax. lia. Defined.
