(* ===== verification/Planner.v ===== *)
(** * Planner: phases A to F and the entry points

    [go/planner/plan/plan.go] ([planInternal] and its passes), [multinode.go],
    [draft.go] and [failover.go]. [go/planner/plan/replica.go] is in [Replica].

    The context is modelled by its answers to [ctx.Err()]: [poll k] is the answer
    to the [k]-th call. The goroutines of phase F each poll on their own, so the
    alternative for node [id] has its own answers. They share no state but the
    channel that collects their results, which are applied in pipeline order, so
    phase F is the sequential fold over the pipeline order. *)
From S2P Require Import Prelude Float64 PlanTypes CostModel Fixtures Partition Ordering.
Open Scope Z_scope.
Open Scope outcome_scope.

(** ** Node filter ([plan.go]) *)

Definition elemb (x : string) (l : list string) : bool := existsb (fun y => bool_decide (x = y)) l.

Definition applyNodeFilter (nodes : list Node) (c : Constraints) : list Node :=
  List.filter (fun n =>
    negb (elemb (Node_ID n) (C_ExcludeNodes c)) &&
    (match C_IncludeNodes c with [] => true | _ => elemb (Node_ID n) (C_IncludeNodes c) end)) nodes.

Definition planError (r : Reason) (deficit : float64) (suggestions : list string) : GoError :=
  ErrPlan (mkPlanError r deficit suggestions).

(** The pool filter of [planInternal] ([plan.go]). *)
Definition poolFilter (nodes : list Node) (c : Constraints) : Outcome (list Node) :=
  match C_AllowedNodeIDs c with
  | [] => Ok nodes
  | ids =>
      let filtered := List.filter (fun n => elemb (Node_ID n) ids) nodes in
      match filtered with
      | [] => Fail (planError (ReasonEmptyPool (Z.of_nat (length ids))) f0 [])
      | _ =>
          match C_ForceHost c with
          | Some h => if negb (bool_decide (h = EmptyString)) && negb (elemb h ids)
                      then Fail (planError (ReasonHostNotInPool h) f0 []) else Ok filtered
          | None => Ok filtered
          end
      end
  end.

(** ** Phase A: [selectQuantization] ([plan.go]) *)

Definition ramAggregate (nodes : list Node) : float64 :=
  fold_left (fun acc n => acc + Node_RAMAvailableGB n)%f64 nodes f0.

Definition rankedByQuality (qs : list Quantization) : list Quantization :=
  go_sort (fun a b => (Quant_Quality a >? Quant_Quality b)%f64) qs.

(** The memory a quantization asks of the fleet, as phase A adds it up. *)
Definition quantNeed (nodes : list Node) (kv : float64) (q : Quantization) : float64 :=
  (Quant_SizeGB q + kv + overheadOSRuntimeGB * of_Z (Z.of_nat (length nodes)))%f64.

Definition markEmulated (nodes : list Node) (q : Quantization) : Quantization :=
  set_EmulatedFP4 q (Quant_RequiresFP4 q && negb (anyFP4 nodes)).

Definition smallestQuant (ranked : list Quantization) : Quantization :=
  fold_left (fun s q => if (Quant_SizeGB q <? Quant_SizeGB s)%f64 then q else s) ranked (hd Quant_zero ranked).

Definition selectQuantization (nodes : list Node) (model : ModelSpec) (kv : float64) (c : Constraints)
    : Outcome Quantization :=
  match Model_Quantizations model with
  | [] => Fail (planError (ReasonNoQuantizations (Model_ID model)) f0
                  ["provide at least one Quantization in the ModelSpec"%string])
  | qs =>
      let agg := ramAggregate nodes in
      match C_ForceQuant c with
      | Some name =>
          match lookupQuant qs name with
          | None => Fail (planError (ReasonForcedQuantUnknown name (Model_ID model)) f0
                            ["pick one of the model's declared quantizations"%string])
          | Some q =>
              let q := markEmulated nodes q in
              if (agg <? quantNeed nodes kv q)%f64
              then Fail (planError (ReasonForcedQuantNoFit (Quant_Name q)) (quantNeed nodes kv q - agg)%f64
                           ["drop force_quant to let phase A choose"; "add memory"]%string)
              else Ok q
          end
      | None =>
          let ranked := rankedByQuality qs in
          match List.find (fun q => (agg >=? quantNeed nodes kv q)%f64) ranked with
          | Some q => Ok (markEmulated nodes q)
          | None => Fail (planError (ReasonTooLarge (Model_ID model))
                            (quantNeed nodes kv (smallestQuant ranked) - agg)%f64
                            ["add nodes or free memory"; "reduce ContextMax to shrink the KV cache";
                             "provide a smaller quantization"]%string)
          end
      end
  end.

(** ** Single-node plan ([plan.go]) *)

Definition singleNodePlan (n : Node) (model : ModelSpec) (quant : Quantization) (kv : float64) (c : Constraints)
    : DeploymentPlan :=
  let required := (Quant_SizeGB quant + kv + overheadOSRuntimeGB)%f64 in
  let headroom := (usefulMemory n - required)%f64 in
  {| Plan_PlanID := newPlanID (Model_ID model) (Node_ID n);
     Plan_ModelID := Model_ID model;
     Plan_Quantization := Quant_Name quant;
     Plan_Assignments := [mkAssign (Node_ID n) RoleHost 0 (Model_Layers model - 1) false];
     Plan_PipelineOrder := [Node_ID n];
     Plan_Estimated := estimateSingleNode n model quant headroom;
     Plan_Cost := f0;
     Plan_Explanation :=
       [NoteQuant (Quant_Name quant) (Quant_Quality quant); NoteSingleNode (Node_ID n);
        NoteSingleMemory (Quant_SizeGB quant) kv overheadOSRuntimeGB required (usefulMemory n) headroom]
       ++ (if Quant_EmulatedFP4 quant then [NoteEmulatedFP4] else [])
       ++ (match C_ForceHost c with
           | Some h => if bool_decide (h = Node_ID n) then [] else [NoteForceHostIgnored h (Node_ID n)]
           | None => []
           end);
     Plan_FailoverAlt := [] |}.

(** ** Memory check of the assembled plan ([plan.go]) *)

Definition constraintCulprit (c : Constraints) : Culprit :=
  if bool_decide (C_Pinned c = ∅) then
    match C_ForceNodeCount c with Some k => CulpritCount k | None => CulpritPlan end
  else match C_ForceNodeCount c with Some _ => CulpritPinAndCount | None => CulpritPin end.

Definition constraintSuggestions (c : Constraints) : list string :=
  match constraintCulprit c with
  | CulpritPinAndCount =>
      ["relax the pinned ranges"; "drop or raise force_node_count"; "add memory to the constrained node"]%string
  | CulpritPin =>
      ["pin the range to a node with more memory"; "pin fewer layers"; "drop the pin to let the DP balance the split"]%string
  | CulpritCount _ =>
      ["raise force_node_count to spread the model across more nodes"; "drop force_node_count to let phase B choose";
       "choose a smaller quantization"]%string
  | CulpritPlan => ["choose a smaller quantization"; "add nodes with more (V)RAM"]%string
  end.

(** One step of the aggregation: [layersOn] and [order]. *)
Definition layersStep (st : gmap string Z * list string) (a : Assignment) : gmap string Z * list string :=
  let '(layersOn, order) := st in
  let n := A_LayerEnd a - A_LayerStart a + 1 in
  match layersOn !! A_NodeID a with
  | Some k => (<[A_NodeID a := k + n]> layersOn, order)
  | None => (<[A_NodeID a := n]> layersOn, order ++ [A_NodeID a])
  end.

Definition layersPerNode (xs : list Assignment) : gmap string Z * list string := fold_left layersStep xs (∅, []).

(** What a node with [nLayers] layers needs, and what it may use. *)
Definition nodeRequired (model : ModelSpec) (quant : Quantization) (nLayers : Z) : float64 :=
  let weight := (Quant_SizeGB quant * of_Z nLayers / of_Z (Model_Layers model))%f64 in
  (weight + kvCachePerNode model nLayers (Model_ContextMax model) + overheadOSRuntimeGB)%f64.

Definition nodeLimit (n : Node) (multiNode : bool) : float64 :=
  if multiNode then (usefulMemoryForFit n * headroomKeep)%f64 else usefulMemoryForFit n.

Fixpoint checkNodes (layersOn : gmap string Z) (multiNode : bool) (order : list string) (nodeByID : gmap string Node)
    (model : ModelSpec) (quant : Quantization) (c : Constraints) : option GoError :=
  match order with
  | [] => None
  | id :: rest =>
      match nodeByID !! id with
      | None => Some (planError (ReasonUnknownNode id) f0 ["re-run planning against the current fleet"%string])
      | Some n =>
          let nLayers := default 0 (layersOn !! id) in
          let required := nodeRequired model quant nLayers in
          let limit := nodeLimit n multiNode in
          if (required >? limit)%f64
          then Some (planError (ReasonOverCapacity (constraintCulprit c) nLayers (Model_Layers model) id
                                  required limit multiNode)
                       (required - limit)%f64 (constraintSuggestions c))
          else checkNodes layersOn multiNode rest nodeByID model quant c
      end
  end.

Definition validatePlanMemory (plan : DeploymentPlan) (nodeByID : gmap string Node) (model : ModelSpec)
    (quant : Quantization) (c : Constraints) : option GoError :=
  match Plan_Assignments plan with
  | [] => None
  | xs =>
      let '(layersOn, order) := layersPerNode xs in
      checkNodes layersOn (Nat.ltb 1 (length order)) order nodeByID model quant c
  end.

(** ** Cost function ([multinode.go]) *)

Definition costW1Hops : float64 := of_Z 10.
Definition costW2LinkCost : float64 := f1.
Definition costW3Imbalance : float64 := of_Z 5.
Definition costW4Quality : float64 := of_Z 8.
Definition costW5FP4 : float64 := of_Z 6.

(** Indexing [nodeByID] with a missing key gives [Node{}]. *)
Definition nodeOf (nodeByID : gmap string Node) (id : string) : Node := default Node_zero (nodeByID !! id).

(** [prev] is the node of the previous stage. *)
Fixpoint stageTimesFrom (prev : option string) (xs : list Assignment) (nodeByID : gmap string Node)
    (model : ModelSpec) (quant : Quantization) (links : list Link) : list float64 :=
  match xs with
  | [] => []
  | a :: xs' =>
      let ct := match prev with
                | Some p => commTime model (lookupLink links p (A_NodeID a))
                | None => f0
                end in
      (computeTime (nodeOf nodeByID (A_NodeID a)) model quant (A_LayerStart a) (A_LayerEnd a + 1) + ct)%f64
      :: stageTimesFrom (Some (A_NodeID a)) xs' nodeByID model quant links
  end.

Definition stageTimesForPlan (xs : list Assignment) (nodeByID : gmap string Node) (model : ModelSpec)
    (quant : Quantization) (links : list Link) : list float64 :=
  stageTimesFrom None xs nodeByID model quant links.

Definition minStageHeadroom (xs : list Assignment) (nodeByID : gmap string Node) (model : ModelSpec)
    (quant : Quantization) : float64 :=
  let m := fold_left (fun m a =>
             let h := (usefulMemory (nodeOf nodeByID (A_NodeID a))
                       - stageMemNeed model quant (A_LayerStart a) (A_LayerEnd a + 1) (Model_ContextMax model))%f64 in
             if (h <? m)%f64 then h else m) xs f_inf in
  if is_pinf m then f0 else m.

Definition variance (xs : list float64) : float64 :=
  if Nat.ltb (length xs) 2 then f0
  else
    let n := of_Z (Z.of_nat (length xs)) in
    let mean := (fold_left fadd xs f0 / n)%f64 in
    (fold_left (fun sum x => sum + (x - mean) * (x - mean))%f64 xs f0 / n)%f64.

Fixpoint linkCostFrom (acc : float64) (order : list string) (links : list Link) (model : ModelSpec) : float64 :=
  match order with
  | a :: ((b :: _) as rest) => linkCostFrom (acc + commTime model (lookupLink links a b))%f64 rest links model
  | _ => acc
  end.

Definition costFunction (order : list string) (stageTimes : list float64) (quant : Quantization) (links : list Link)
    (model : ModelSpec) (c : Constraints) : float64 :=
  let hops := Z.max 0 (Z.of_nat (length order) - 1) in
  let linkCost := linkCostFrom f0 order links model in
  let imbalance := variance stageTimes in
  let qualityPenalty := (f1 - Quant_Quality quant)%f64 in
  let fp4Penalty := if Quant_EmulatedFP4 quant then f1 else f0 in
  let w4 := (costW4Quality + C_QualityWeightBias c)%f64 in
  (costW1Hops * of_Z hops + costW2LinkCost * linkCost + costW3Imbalance * imbalance
   + w4 * qualityPenalty + costW5FP4 * fp4Penalty)%f64.

(** ** Multi-node plan ([multinode.go]) *)

(** The co-optimisation loop: [fuel] more rounds may run. *)
Fixpoint coOptimise (fuel : nat) (threshold : Z) (order : list Node) (xs : list Assignment) (bottleneck : float64)
    (rounds : Z) (model : ModelSpec) (quant : Quantization) (links : list Link) (c : Constraints)
    : option (list Node * list Assignment * float64 * Z) :=
  match fuel with
  | O => Some (order, xs, bottleneck, rounds)
  | S fuel' =>
      reordered ← orderNodes threshold order model links c;
      if sameOrder order reordered then Some (order, xs, bottleneck, rounds)
      else
        '(xs', b') ← dpPartition reordered links model quant (Model_ContextMax model);
        coOptimise fuel' threshold reordered xs' b' (rounds + 1) model quant links c
  end.

(** [Some None] is the source's [nil]: no feasible partition on this subset. *)
Definition multiNodePlan (threshold : Z) (subset : list Node) (nodeByID : gmap string Node) (model : ModelSpec)
    (quant : Quantization) (links : list Link) (c : Constraints) : option (option DeploymentPlan) :=
  order ← orderNodes threshold subset model links c;
  '(xs, bottleneck) ← dpPartition order links model quant (Model_ContextMax model);
  '(order, xs, bottleneck, rounds) ←
    coOptimise (coOptMaxRounds - 1) threshold order xs bottleneck 1 model quant links c;
  match xs with
  | [] => Some None
  | _ =>
      let '(xs, pinNotes) := applyPinnedRanges xs order (C_Pinned c) in
      let pipelineOrder := map A_NodeID xs in
      let stageTimes := stageTimesForPlan xs nodeByID model quant links in
      let cost := costFunction pipelineOrder stageTimes quant links model c in
      let headroom := minStageHeadroom xs nodeByID model quant in
      let host := hd EmptyString pipelineOrder in
      Some (Some {|
        Plan_PlanID := newPlanID (Model_ID model) host;
        Plan_ModelID := Model_ID model;
        Plan_Quantization := Quant_Name quant;
        Plan_Assignments := xs;
        Plan_PipelineOrder := pipelineOrder;
        Plan_Estimated := estimateMultiNode bottleneck headroom model;
        Plan_Cost := cost;
        Plan_Explanation :=
          [NoteQuant (Quant_Name quant) (Quant_Quality quant); NoteSplit (Z.of_nat (length xs));
           NoteBottleneck bottleneck headroom]
          ++ map (fun a => NoteStage (A_NodeID a) (A_Role a) (A_LayerStart a) (A_LayerEnd a)
                    (stageMemNeed model quant (A_LayerStart a) (A_LayerEnd a + 1) (Model_ContextMax model))
                    (usefulMemory (nodeOf nodeByID (A_NodeID a)))) xs
          ++ (if Quant_EmulatedFP4 quant then [NoteEmulatedFP4] else [])
          ++ pinNotes
          ++ [NoteOrdering (Z.of_nat (length order) <=? threshold) host rounds]
          ++ (match C_ForceHost c with
              | Some h => if bool_decide (h = host) then [NoteForceHostHonoured h]
                          else [NoteForceHostNotInSubset h host]
              | None => []
              end);
        Plan_FailoverAlt := [] |})
  end.

(** ** Phase E: [placeDraft] ([draft.go]) *)

(** The index of the shard with the largest [LayerEnd], earliest on ties. *)
Definition tailIndex (xs : list Assignment) : nat :=
  fst (fold_left (fun '(tail, tailEnd) i =>
         let e := from_option A_LayerEnd 0 (xs !! i) in
         if e >? tailEnd then (i, e) else (tail, tailEnd))
       (seq 1 (length xs - 1)) (0%nat, from_option A_LayerEnd 0 (xs !! 0%nat))).

Definition placeDraft (plan : DeploymentPlan) (model : ModelSpec) : DeploymentPlan :=
  match Plan_Assignments plan with
  | [] => plan
  | xs =>
      if negb (Draft_Available (Model_Draft model)) then plan
      else
        let tail := tailIndex xs in
        let ys := alter (fun a => set_Draft a true) tail (map (fun a => set_Draft a false) xs) in
        let t := default (mkAssign "" RoleUnspecified 0 0 false) (ys !! tail) in
        let d := Model_Draft model in
        add_Explanation (set_Assignments plan ys)
          (if Nat.eqb (length ys) 1 then NoteDraftOnHost (Draft_Type d) (Draft_TailLayers d) (A_NodeID t)
           else NoteDraftOnTail (Draft_Type d) (Draft_TailLayers d) (A_NodeID t) (A_LayerStart t) (A_LayerEnd t))
  end.

(** ** Phase F: [computeFailoverPlans] ([failover.go]) *)

Definition nodesExcluding (nodes : list Node) (id : string) : list Node :=
  List.filter (fun n => negb (bool_decide (Node_ID n = id))) nodes.

(** The distinct nodes of the plan in pipeline order that have no entry yet. *)
Fixpoint failoverOrder (done : list string) (xs : list Assignment) : list string :=
  match xs with
  | [] => []
  | a :: xs' => if elemb (A_NodeID a) done then failoverOrder done xs'
                else A_NodeID a :: failoverOrder (A_NodeID a :: done) xs'
  end.

(** [alt dead] is what the goroutine for node [dead] sends on the channel. *)
Fixpoint applyFailovers (alt : string -> Outcome DeploymentPlan) (plan : DeploymentPlan) (order : list string)
    : Outcome DeploymentPlan :=
  match order with
  | [] => Ok plan
  | dead :: rest =>
      match alt dead with
      | Ok p => applyFailovers alt (set_FailoverAlt plan (Plan_FailoverAlt plan ++ [(dead, Some p)])) rest
      | Fail _ => applyFailovers alt (add_Explanation
                    (set_FailoverAlt plan (Plan_FailoverAlt plan ++ [(dead, None)])) (NoteFailoverImpossible dead)) rest
      | Panic => Panic
      end
  end.

Definition computeFailoverPlans (alt : string -> Outcome DeploymentPlan) (plan : DeploymentPlan)
    : Outcome DeploymentPlan :=
  applyFailovers alt plan (failoverOrder (map fst (Plan_FailoverAlt plan)) (Plan_Assignments plan)).

(** ** [planInternal] and [Plan] ([plan.go]) *)

Definition buildNodeByID (nodes : list Node) : gmap string Node :=
  fold_left (fun m n => <[Node_ID n := n]> m) nodes ∅.

(** The prefix-caching factor the KV estimate uses. *)
Definition minPCF (nodes : list Node) : float64 :=
  fold_left (fun m n =>
    if (Node_PrefixCachingFactor n >? f0)%f64 && (feqb m f0 || (Node_PrefixCachingFactor n <? m)%f64)
    then Node_PrefixCachingFactor n else m) nodes f0.

(** The selection loop over the candidate subsets; [k] numbers the polls. *)
Fixpoint selectSubset (poll : nat -> bool) (k : nat) (threshold : Z) (best : option DeploymentPlan)
    (subsets : list (list Node)) (nodeByID : gmap string Node) (model : ModelSpec) (quant : Quantization)
    (links : list Link) (c : Constraints) : Outcome (option DeploymentPlan) :=
  match subsets with
  | [] => Ok best
  | subset :: rest =>
      if poll k then Fail ErrContext
      else if Nat.ltb (length subset) 2 then selectSubset poll (S k) threshold best rest nodeByID model quant links c
      else
        let! cand := lift (multiNodePlan threshold subset nodeByID model quant links c) in
        let best := match cand, best with
                    | None, _ => best
                    | Some p, None => Some p
                    | Some p, Some b => if (Plan_Cost p <? Plan_Cost b)%f64 then Some p else best
                    end in
        selectSubset poll (S k) threshold best rest nodeByID model quant links c
  end.

(** Phases B to D: the assembled plan before the memory check. *)
Definition assemblePlan (poll : nat -> bool) (threshold : Z) (nodes : list Node) (links : list Link)
    (model : ModelSpec) (c : Constraints) (quant : Quantization) (kv : float64) : Outcome DeploymentPlan :=
  match candidateSubsets nodes model quant kv c with
  | [] =>
      let aggUseful := fold_left (fun acc n => acc + usefulMemory n)%f64 nodes f0 in
      Fail (planError (ReasonNoSubset (Model_ID model) (Quant_Name quant) (Z.of_nat (length nodes)))
        ((Quant_SizeGB quant + kv + overheadOSRuntimeGB * of_Z (Z.of_nat (length nodes))) - aggUseful)%f64
        ["choose a smaller quantization"; "reduce ContextMax to shrink the KV cache"; "add nodes with more (V)RAM"]%string)
  | (first :: _) as subsets =>
      match first with
      | [n] => Ok (singleNodePlan n model quant kv c)
      | _ =>
          let! best := selectSubset poll 1 threshold None subsets (buildNodeByID nodes) model quant links c in
          match best with
          | Some p => Ok p
          | None =>
              Fail (planError (ReasonNoPartition (Model_ID model) (Quant_Name quant) (Z.of_nat (length subsets))) f0
                ["choose a smaller quantization"; "reduce ContextMax to shrink the per-node KV cache";
                 "add nodes with more (V)RAM to relieve the tightest stage"]%string)
          end
      end
  end.

(** [failover] is phase F when [computeFailover] is set, given the filtered nodes. *)
Definition planInternal (poll : nat -> bool) (threshold : Z) (nodes : list Node) (links : list Link)
    (model : ModelSpec) (c : Constraints)
    (failover : option (list Node -> DeploymentPlan -> Outcome DeploymentPlan)) : Outcome DeploymentPlan :=
  if poll 0%nat then Fail ErrContext else
  let nodes := applyNodeFilter nodes c in
  match nodes with
  | [] => Fail (planError ReasonNoNodesAfterFilter f0
            ["widen include_nodes"; "remove some exclude_nodes"; "register more nodes"]%string)
  | _ =>
      let! nodes := poolFilter nodes c in
      if Model_Layers model <=? 0
      then Fail (planError (ReasonNoLayers (Model_ID model)) f0 ["provide a ModelSpec with Layers > 0"%string])
      else
        let kv := kvCacheInMemory model (Model_ContextMax model) (minPCF nodes) in
        let! quant := selectQuantization nodes model kv c in
        let! plan := assemblePlan poll threshold nodes links model c quant kv in
        match validatePlanMemory plan (buildNodeByID nodes) model quant c with
        | Some e => Fail e
        | None =>
            let plan := placeDraft plan model in
            match failover with
            | Some f => f nodes plan
            | None => Ok plan
            end
        end
  end.

(** [Plan]: [poll] for the caller, [polls id] for the goroutine of node [id]. *)
Definition Plan (poll : nat -> bool) (polls : string -> nat -> bool) (threshold : Z) (nodes : list Node)
    (links : list Link) (model : ModelSpec) (c : Constraints) : Outcome DeploymentPlan :=
  planInternal poll threshold nodes links model c
    (Some (fun nodes plan =>
       computeFailoverPlans (fun dead => planInternal (polls dead) threshold (nodesExcluding nodes dead) links model c None)
         plan)).

(** ** Filters *)

Lemma elemb_spec x l : elemb x l = true <-> x ∈ l.
Proof.
  unfold elemb. rewrite existsb_exists. setoid_rewrite bool_decide_eq_true. setoid_rewrite <- list_elem_of_In.
  split; [by intros (y & Hy & ->)|intros H; by exists x].
Qed.

(** The nodes the operator allows: not excluded, included, and in the pool. *)
Definition nodeAllowed (c : Constraints) (n : Node) : Prop :=
  Node_ID n ∉ C_ExcludeNodes c /\
  (C_IncludeNodes c = [] \/ Node_ID n ∈ C_IncludeNodes c) /\
  (C_AllowedNodeIDs c = [] \/ Node_ID n ∈ C_AllowedNodeIDs c).

Lemma applyNodeFilter_elem nodes c n : n ∈ applyNodeFilter nodes c <->
  n ∈ nodes /\ Node_ID n ∉ C_ExcludeNodes c /\ (C_IncludeNodes c = [] \/ Node_ID n ∈ C_IncludeNodes c).
Proof.
  unfold applyNodeFilter. rewrite list_elem_of_In, filter_In, <- list_elem_of_In, andb_true_iff, negb_true_iff.
  assert (Hx : elemb (Node_ID n) (C_ExcludeNodes c) = false <-> Node_ID n ∉ C_ExcludeNodes c)
    by (rewrite <- elemb_spec; destruct (elemb _ _); intuition congruence).
  rewrite Hx. destruct (C_IncludeNodes c) as [|i ids] eqn:E; [intuition|]. rewrite elemb_spec. intuition congruence.
Qed.

Lemma poolFilter_elem nodes c ns : poolFilter nodes c = Ok ns ->
  forall n, n ∈ ns <-> n ∈ nodes /\ (C_AllowedNodeIDs c = [] \/ Node_ID n ∈ C_AllowedNodeIDs c).
Proof.
  unfold poolFilter. intros H n. destruct (C_AllowedNodeIDs c) as [|i ids] eqn:E; [injection H as <-; tauto|].
  cbv zeta in H. assert (ns = List.filter (fun n => elemb (Node_ID n) (i :: ids)) nodes) as ->.
  { destruct (List.filter _ nodes); [discriminate|]. destruct (C_ForceHost c); [|congruence].
    destruct (_ && _); congruence. }
  rewrite list_elem_of_In, filter_In, <- list_elem_of_In, elemb_spec. intuition congruence.
Qed.

Lemma filters_nonempty nodes c ns : nodes ≠ [] -> poolFilter nodes c = Ok ns -> ns ≠ [].
Proof.
  unfold poolFilter. intros Hne H. destruct (C_AllowedNodeIDs c); [congruence|]. cbv zeta in H.
  destruct (List.filter _ nodes); [discriminate|]. destruct (C_ForceHost c); [destruct (_ && _)|]; congruence.
Qed.

(** ** Phase A is optimal *)

(** Phase A returns the best quantization that fits: without a forced choice
    the result is one of the model's quantizations, it fits the aggregate memory,
    and every quantization of strictly higher quality does not; a forced choice is
    honoured by name or refused. The emulation flag is set exactly when the
    quantization needs FP4 and no node has it. *)
Theorem selectQuantization_best nodes model kv c q :
  Forall (fun q => num (Quant_Quality q)) (Model_Quantizations model) ->
  selectQuantization nodes model kv c = Ok q ->
  (exists q0, q0 ∈ Model_Quantizations model /\ q = markEmulated nodes q0 /\
     (forall name, C_ForceQuant c = Some name -> Quant_Name q0 = name)) /\
  Quant_EmulatedFP4 q = (Quant_RequiresFP4 q && negb (anyFP4 nodes)) /\
  (C_ForceQuant c = None -> (ramAggregate nodes >=? quantNeed nodes kv q)%f64 = true /\
     forall q', q' ∈ Model_Quantizations model -> (Quant_Quality q' >? Quant_Quality q)%f64 = true ->
       (ramAggregate nodes >=? quantNeed nodes kv q')%f64 = false).
Proof.
  intros Hnum H. unfold selectQuantization in H. destruct (Model_Quantizations model) as [|q0 qs] eqn:Eq; [discriminate|].
  cbv zeta in H. destruct (C_ForceQuant c) as [name|].
  - destruct (lookupQuant (q0 :: qs) name) as [q1|] eqn:E; [|discriminate]. destruct (_ <? _)%f64; [discriminate|].
    injection H as <-. apply find_some in E as [E1 E2%bool_decide_eq_true]. split_and!; [|done|discriminate].
    exists q1. split_and!; [by apply list_elem_of_In|done|by intros ? [= <-]].
  - destruct (List.find _ _) as [q1|] eqn:E; [|discriminate]. injection H as <-.
    pose proof (go_sort_perm (fun a b => (Quant_Quality a >? Quant_Quality b)%f64) (q0 :: qs)) as Hperm.
    fold (rankedByQuality (q0 :: qs)) in Hperm. apply find_some in E as E'. destruct E' as [E1 E2].
    split_and!; [exists q1; split_and!; [by rewrite <- Hperm, list_elem_of_In|done|done]|done|].
    intros _. split; [exact E2|]. intros q' Hq' Hbetter. rewrite <- Hperm in Hq'.
    assert (HS : StronglySorted (not_less (fun a b => (Quant_Quality a >? Quant_Quality b)%f64)) (rankedByQuality (q0 :: qs))).
    { apply (go_sort_sorted _ (fun q => num (Quant_Quality q))); [| |exact Hnum].
      - intros x y Nx Ny Hxy. apply not_true_is_false. intros Hyx. apply fltb_spec in Hxy, Hyx. lia.
      - unfold not_less. intros x y z Nx Ny Nz Hxy Hyz. apply not_true_is_false. intros Hxz.
        apply fltb_false in Hxy, Hyz; auto. apply fltb_spec in Hxz. lia. }
    clear Hperm Hnum E1. induction HS as [|x l HS IH Hall]; [done|]. cbn [List.find] in E.
    destruct (fleb (quantNeed nodes kv x) (ramAggregate nodes)) eqn:Ex.
    + injection E as ->. apply elem_of_cons in Hq' as [->|Hq'].
      * apply fltb_spec in Hbetter as (_ & _ & Hlt). cbn in Hlt. lia.
      * rewrite Forall_forall in Hall. apply Hall in Hq'. unfold not_less in Hq'. cbn in Hbetter. congruence.
    + apply elem_of_cons in Hq' as [->|Hq']; [exact Ex|]. by apply IH.
Qed.

(** ** What makes a plan valid *)

(** Layers placed on a node, over all its shards. *)
Definition layersOf (id : string) (xs : list Assignment) : Z :=
  fold_right (fun a acc => if bool_decide (A_NodeID a = id) then A_LayerEnd a - A_LayerStart a + 1 + acc else acc) 0 xs.

(** The plan spans more than one node. *)
Definition spansMany (xs : list Assignment) : bool :=
  match xs with
  | [] => false
  | a :: xs' => existsb (fun b => negb (bool_decide (A_NodeID b = A_NodeID a))) xs'
  end.

(** The shards cover the model, and every node holds all its shards within the
    memory it may use. *)
Record plan_ok (nodes : list Node) (model : ModelSpec) (quant : Quantization) (p : DeploymentPlan) : Prop := {
  pk_cover : contiguousb 0 (Plan_Assignments p) (Model_Layers model) = true;
  pk_order : Plan_PipelineOrder p = map A_NodeID (Plan_Assignments p);
  pk_memory : forall id, id ∈ map A_NodeID (Plan_Assignments p) ->
    exists n, n ∈ nodes /\ Node_ID n = id /\
      (nodeRequired model quant (layersOf id (Plan_Assignments p))
       >? nodeLimit n (spansMany (Plan_Assignments p)))%f64 = false;
  pk_quant : Plan_Quantization p = Quant_Name quant;
  pk_model : Plan_ModelID p = Model_ID model;
  pk_roles : rolesb (Plan_Assignments p) = true;
  pk_some : Plan_Assignments p ≠ []
}.

(** *** The aggregation of [validatePlanMemory] *)

Lemma layersOf_app id xs ys : layersOf id (xs ++ ys) = layersOf id xs + layersOf id ys.
Proof. induction xs as [|a xs IH]; cbn; [done|]. fold (layersOf id (xs ++ ys)) (layersOf id xs). rewrite IH. case_bool_decide; lia. Qed.

Lemma layersPerNode_spec xs :
  let '(m, order) := layersPerNode xs in
  NoDup order /\ (forall id, id ∈ order <-> id ∈ map A_NodeID xs) /\
  (forall id, id ∈ order -> m !! id = Some (layersOf id xs)) /\ (forall id, id ∉ order -> m !! id = None).
Proof.
  unfold layersPerNode. induction xs as [|a xs IH] using rev_ind.
  - cbn. split_and!; try done; [constructor|intros id; set_solver].
  - rewrite fold_left_app. destruct (fold_left layersStep xs (∅, [])) as [m order]. destruct IH as (H1 & H2 & H3 & H4).
    cbn [fold_left layersStep]. assert (HL : forall id, layersOf id (xs ++ [a]) = layersOf id xs +
      if bool_decide (A_NodeID a = id) then A_LayerEnd a - A_LayerStart a + 1 else 0).
    { intros id. rewrite layersOf_app. cbn. case_bool_decide; lia. }
    rewrite map_app. cbn [map]. destruct (m !! A_NodeID a) as [k|] eqn:E.
    + assert (Hin : A_NodeID a ∈ order) by (destruct (decide (A_NodeID a ∈ order)); [done|rewrite H4 in E by done; done]).
      split_and!; auto.
      * intros id. rewrite elem_of_app, list_elem_of_singleton, H2. split; [auto|]. intros [?| ->]; [done|by apply H2].
      * intros id Hid. rewrite HL. rewrite lookup_insert. case_decide as Ed; [subst id|].
        -- rewrite (H3 _ Hin) in E. injection E as <-. rewrite bool_decide_true by done. f_equal; lia.
        -- rewrite bool_decide_false by done. rewrite (H3 _ Hid). f_equal; lia.
      * intros id Hid. rewrite lookup_insert_ne; [by apply H4|]. by intros <-.
    + assert (Hnin : A_NodeID a ∉ order) by (intros Hin; rewrite (H3 _ Hin) in E; done).
      assert (H0 : forall id, id ∉ order -> layersOf id xs = 0).
      { intros id Hid. rewrite H2 in Hid. clear - Hid. induction xs as [|b xs IH]; [done|]. cbn in Hid |- *.
        apply not_elem_of_cons in Hid as [Hb Hid]. rewrite bool_decide_false by done. by apply IH. }
      split_and!.
      * apply NoDup_app. split_and!; [done|set_solver|apply NoDup_singleton].
      * intros id. rewrite !elem_of_app, H2. done.
      * intros id Hid. rewrite HL, lookup_insert. case_decide as Ed; [subst id|].
        -- rewrite bool_decide_true, H0 by done. done.
        -- rewrite bool_decide_false by done. apply elem_of_app in Hid as [Hid|Hid]; [|set_solver].
           rewrite (H3 _ Hid). f_equal; lia.
      * intros id Hid. apply not_elem_of_app in Hid as [Hid Hne]. rewrite lookup_insert_ne; [by apply H4|set_solver].
Qed.

Lemma spansMany_order xs order : NoDup order -> (forall id, id ∈ order <-> id ∈ map A_NodeID xs) ->
  Nat.ltb 1 (length order) = spansMany xs.
Proof.
  intros Hnd Hin. apply eq_true_iff_eq. rewrite Nat.ltb_lt. destruct xs as [|a xs]; cbn [spansMany].
  - destruct order as [|x order]; [cbn; split; [lia|done]|]. exfalso.
    apply (not_elem_of_nil x), Hin. left.
  - rewrite existsb_exists. setoid_rewrite negb_true_iff. setoid_rewrite bool_decide_eq_false. split.
    + intros Hlen. destruct order as [|x [|y order]]; cbn in Hlen; try lia.
      assert (Hxy : x ≠ y) by (intros ->; apply NoDup_cons in Hnd as [Hn _]; apply Hn; left).
      assert (exists z, z ∈ map A_NodeID (a :: xs) /\ z ≠ A_NodeID a) as (z & Hz & Hne).
      { destruct (decide (x = A_NodeID a)) as [->|]; [exists y|exists x]; (split; [apply Hin; set_solver|congruence]). }
      cbn in Hz. apply elem_of_cons in Hz as [?|Hz]; [done|].
      apply list_elem_of_fmap in Hz as (b & -> & Hb). exists b. split; [by apply list_elem_of_In|done].
    + intros (b & Hb & Hne). apply list_elem_of_In in Hb.
      assert (H1 : A_NodeID a ∈ order) by (apply Hin; left).
      assert (H2 : A_NodeID b ∈ order) by (apply Hin; right; by apply list_elem_of_fmap_2).
      destruct order as [|x [|y order]]; cbn; try lia; set_solver.
Qed.

Lemma checkNodes_None m multi nodeByID model quant c order :
  checkNodes m multi order nodeByID model quant c = None ->
  forall id, id ∈ order -> exists n, nodeByID !! id = Some n /\
    (nodeRequired model quant (default 0 (m !! id)) >? nodeLimit n multi)%f64 = false.
Proof.
  induction order as [|x order IH]; intros H id Hid; [by apply not_elem_of_nil in Hid|]. cbn in H.
  destruct (nodeByID !! x) as [n|] eqn:E; [|done]. destruct (_ <? _)%f64 eqn:Ef; [done|].
  apply elem_of_cons in Hid as [->|Hid]; [eauto|by apply IH].
Qed.

Lemma buildNodeByID_spec nodes id n : buildNodeByID nodes !! id = Some n -> n ∈ nodes /\ Node_ID n = id.
Proof.
  unfold buildNodeByID. induction nodes as [|x nodes IH] using rev_ind; [done|].
  rewrite fold_left_app. cbn [fold_left]. rewrite lookup_insert. case_decide as Ed.
  - intros [= <-]. split; [set_solver|done].
  - intros H. destruct (IH H). split; [set_solver|done].
Qed.

Lemma validatePlanMemory_None nodes model quant c p :
  validatePlanMemory p (buildNodeByID nodes) model quant c = None ->
  forall id, id ∈ map A_NodeID (Plan_Assignments p) ->
    exists n, n ∈ nodes /\ Node_ID n = id /\
      (nodeRequired model quant (layersOf id (Plan_Assignments p))
       >? nodeLimit n (spansMany (Plan_Assignments p)))%f64 = false.
Proof.
  unfold validatePlanMemory. intros H id Hid. destruct (Plan_Assignments p) as [|a xs]; [by apply not_elem_of_nil in Hid|].
  pose proof (layersPerNode_spec (a :: xs)) as HS. destruct (layersPerNode (a :: xs)) as [m order].
  destruct HS as (H1 & H2 & H3 & _). rewrite (spansMany_order _ _ H1 H2) in H. rewrite <- H2 in Hid.
  destruct (checkNodes_None _ _ _ _ _ _ _ H id Hid) as (n & Hn & Hf).
  apply buildNodeByID_spec in Hn as [Hn1 Hn2]. rewrite (H3 _ Hid) in Hf. eauto.
Qed.

(** ** Assembled plans *)

Lemma sameOrder_eq a b : sameOrder a b = true -> map Node_ID a = map Node_ID b.
Proof.
  revert b. induction a as [|x a IH]; intros [|y b]; cbn; try done.
  rewrite andb_true_iff, bool_decide_eq_true. intros [-> H]. by rewrite (IH b).
Qed.

(** A plan before the memory check: it covers the layers, on nodes of [ns]. *)
Definition assembled (model : ModelSpec) (ns : list Node) (quant : Quantization) (p : DeploymentPlan) : Prop :=
  contiguousb 0 (Plan_Assignments p) (Model_Layers model) = true /\
  Plan_PipelineOrder p = map A_NodeID (Plan_Assignments p) /\
  (forall a, a ∈ Plan_Assignments p -> A_NodeID a ∈ map Node_ID ns) /\
  Plan_Quantization p = Quant_Name quant /\ Plan_ModelID p = Model_ID model /\ Plan_FailoverAlt p = [] /\
  Plan_Assignments p ≠ [] /\ rolesb (Plan_Assignments p) = true.

Lemma rolesb_ext xs ys : Forall2 (fun a b => A_Role b = A_Role a) xs ys -> rolesb ys = rolesb xs.
Proof.
  intros H. destruct H as [|a b xs ys Hab H]; [done|]. cbn. rewrite Hab. f_equal.
  induction H as [|x y xs ys Hxy _ IH]; [done|]. cbn. by rewrite Hxy, IH.
Qed.

Section Assemble.
Context (threshold : Z) (links : list Link) (model : ModelSpec) (c : Constraints).
Context (Hparams : params_ok model) (Hlinks : Forall link_ok links).

(** What the co-optimisation returns comes from the partition of the order it
    returns, a reordering of the subset. *)
Lemma coOptimise_ok quant fuel : forall order xs b rounds order' xs' b' r' ns,
  dpPartition order links model quant (Model_ContextMax model) = Some (xs, b) -> order ≡ₚ ns ->
  coOptimise fuel threshold order xs b rounds model quant links c = Some (order', xs', b', r') ->
  dpPartition order' links model quant (Model_ContextMax model) = Some (xs', b') /\ order' ≡ₚ ns.
Proof.
  induction fuel as [|fuel IH]; intros order xs b rounds order' xs' b' r' ns Hdp Hp H; cbn in H; [by simplify_eq|].
  destruct (orderNodes_ok threshold order model links c Hparams Hlinks) as (o & E & Ho). rewrite E in H. cbn in H.
  destruct (sameOrder order o); [by simplify_eq|].
  destruct (dpPartition o _ _ _ _) as [[xs1 b1]|] eqn:E1; [|done]. cbn in H.
  refine (IH o xs1 b1 (rounds + 1) _ _ _ _ _ E1 _ H). by rewrite Ho.
Qed.

Lemma multiNodePlan_ok quant subset nodeByID p :
  multiNodePlan threshold subset nodeByID model quant links c = Some (Some p) ->
  assembled model subset quant p.
Proof.
  unfold multiNodePlan. intros H. destruct (orderNodes_ok threshold subset model links c Hparams Hlinks) as (o & E & Ho).
  rewrite E in H. cbn [mbind option_bind] in H.
  destruct (dpPartition o _ _ _ _) as [[xs b]|] eqn:Edp; [|done]. cbn [mbind option_bind] in H.
  destruct (coOptimise _ _ _ _ _ _ _ _ _ _) as [[[[o' xs'] b'] r']|] eqn:Eco; [|done]. cbn [mbind option_bind] in H.
  destruct (coOptimise_ok quant _ _ _ _ _ _ _ _ _ subset Edp Ho Eco) as [Hdp Hp].
  destruct xs' as [|a xs']; [done|]. set (ys0 := a :: xs') in *.
  destruct (dpPartition_ok _ _ _ _ _ _ _ Hdp ltac:(done)) as (H1 & H2 & H3 & _).
  pose proof (applyPinnedRanges_step ys0 o' (C_Pinned c)) as Hpin.
  destruct (applyPinnedRanges ys0 o' (C_Pinned c)) as [ys notes]. cbn [fst] in Hpin.
  cbv zeta in H. injection H as <-. unfold assembled. cbn.
  split_and!; try done; [by rewrite (pin_step_contiguous _ _ _ _ Hpin)| | |].
  - intros x Hx. assert (Hsub : forall id, id ∈ Node_ID <$> o' -> id ∈ map Node_ID subset).
    { intros id Hid. change (id ∈ Node_ID <$> subset). by rewrite <- Hp. }
    apply list_elem_of_lookup in Hx as [k Hk]. destruct (Forall2_lookup_r _ _ _ _ _ Hpin Hk) as (y & Hy & _ & Hid).
    apply Hsub. destruct Hid as [-> |Hid]; [|done].
    assert (Hy' : A_NodeID y ∈ A_NodeID <$> ys0) by (by apply list_elem_of_fmap_2, (list_elem_of_lookup_2 _ k)).
    rewrite H3 in Hy'. apply list_elem_of_fmap in Hy' as (n & -> & Hn). apply list_elem_of_fmap_2.
    apply elem_of_take in Hn as (i & Hi & _). by eapply list_elem_of_lookup_2.
  - apply Forall2_length in Hpin. by destruct ys.
  - rewrite <- H2. apply rolesb_ext. eapply Forall2_impl; [exact Hpin|]. by intros x y [(_ & _ & ? & _) _].
Qed.

(** The selection loop returns one of the candidates. *)
Lemma selectSubset_ok poll quant nodeByID (P : DeploymentPlan -> Prop) subsets : forall k best p,
  (forall ns q, ns ∈ subsets -> multiNodePlan threshold ns nodeByID model quant links c = Some (Some q) -> P q) ->
  (forall b, best = Some b -> P b) ->
  selectSubset poll k threshold best subsets nodeByID model quant links c = Ok (Some p) -> P p.
Proof.
  induction subsets as [|ns subsets IH]; intros k best p Hall Hbest H; cbn [selectSubset] in H; [injection H as H; by apply Hbest|].
  destruct (poll k); [done|]. destruct (length ns <? 2)%nat.
  { eapply IH; [|exact Hbest|exact H]. intros; eapply Hall; [by right|done]. }
  apply obind_Ok in H as (cand & Hc%lift_Ok & H).
  eapply IH; [| |exact H]; [intros; eapply Hall; [by right|done]|].
  intros b Hb. destruct cand as [q|]; [|by apply Hbest]. specialize (Hall ns q ltac:(left) Hc).
  destruct best as [b0|]; [destruct (_ <? _)%f64|]; simplify_eq; auto.
Qed.

(** Every plan assembled by phases B to D covers the layers on fleet nodes. *)
Lemma assemblePlan_ok poll nodes quant kv p :
  nodes ≠ [] -> 0 < Model_Layers model ->
  assemblePlan poll threshold nodes links model c quant kv = Ok p ->
  assembled model nodes quant p.
Proof.
  intros Hne HL H. unfold assemblePlan in H.
  assert (Hsub : forall ns, ns ∈ candidateSubsets nodes model quant kv c -> forall n, n ∈ ns -> n ∈ nodes).
  { intros ns Hns n Hn. destruct (candidateSubsets_prefix _ _ _ _ _ _ Hne Hns) as (k & _ & ->).
    apply elem_of_take in Hn as (i & Hi & _). apply list_elem_of_lookup_2 in Hi.
    unfold rankedByCapacity in Hi. by rewrite go_sort_perm in Hi. }
  destruct (candidateSubsets nodes model quant kv c) as [|first rest]; [done|].
  assert (Hmulti : forall p, selectSubset poll 1 threshold None (first :: rest) (buildNodeByID nodes) model quant links c
                     = Ok (Some p) -> assembled model nodes quant p).
  { intros q Hs. refine (selectSubset_ok poll quant _ (assembled model nodes quant) _ _ _ _ _ _ Hs); [|done].
    intros ns q' Hns Hq. destruct (multiNodePlan_ok _ _ _ _ Hq) as (M1 & M2 & M3 & M4). split_and!; try tauto.
    intros a Ha. apply M3 in Ha. apply list_elem_of_fmap in Ha as (n & -> & Hn). apply list_elem_of_fmap_2.
    by apply (Hsub ns). }
  destruct first as [|n [|n' first]];
    try (apply obind_Ok in H as ([q|] & Hs & [= <-]); by apply Hmulti).
  injection H as <-. unfold assembled. cbn. split_and!; try done.
  - apply andb_true_iff. split; [apply Z.leb_le; lia|apply Z.eqb_eq; lia].
  - intros a ->%list_elem_of_singleton. cbn. apply list_elem_of_fmap_2, (Hsub [n]); [left|left].
Qed.
End Assemble.

(** ** Phase E *)

Definition same_place (a b : Assignment) : Prop :=
  A_NodeID b = A_NodeID a /\ A_LayerStart b = A_LayerStart a /\ A_LayerEnd b = A_LayerEnd a /\ A_Role b = A_Role a.

Lemma same_place_contiguous xs ys L : Forall2 same_place xs ys -> forall next, contiguousb next ys L = contiguousb next xs L.
Proof. induction 1 as [|a b xs ys (E1 & E2 & E3 & E4) _ IH]; intros; cbn; [done|]. by rewrite E2, E3, IH. Qed.

Lemma same_place_ids xs ys : Forall2 same_place xs ys -> map A_NodeID ys = map A_NodeID xs.
Proof. induction 1 as [|a b xs ys (E & _) _ IH]; cbn; [done|]. by rewrite E, IH. Qed.

Lemma same_place_layers id xs ys : Forall2 same_place xs ys -> layersOf id ys = layersOf id xs.
Proof. induction 1 as [|a b xs ys (E1 & E2 & E3 & E4) _ IH]; cbn; [done|]. unfold layersOf in IH. by rewrite E1, E2, E3, IH. Qed.

Lemma same_place_spans xs ys : Forall2 same_place xs ys -> spansMany ys = spansMany xs.
Proof.
  destruct 1 as [|a b xs ys (E1 & _) H]; [done|]. cbn [spansMany]. rewrite E1.
  induction H as [|a' b' xs ys (E & _) _ IH]; [done|]. cbn. by rewrite E, IH.
Qed.

Lemma tailIndex_spec xs : xs ≠ [] ->
  (tailIndex xs < length xs)%nat /\
  forall k a, xs !! k = Some a -> A_LayerEnd a <= from_option A_LayerEnd 0 (xs !! tailIndex xs).
Proof.
  intros Hne. assert (Hlen : (1 <= length xs)%nat) by (destruct xs; [done|cbn; lia]). unfold tailIndex.
  set (e := fun i => from_option A_LayerEnd 0 (xs !! i)).
  pose proof (fold_seq_ind (fun m r => (fst r < m)%nat /\ (fst r < length xs)%nat /\ snd r = e (fst r) /\
    forall k, (k < m)%nat -> e k <= snd r)
    (fun '(tail, tailEnd) i => let e := from_option A_LayerEnd 0 (xs !! i) in
       if e >? tailEnd then (i, e) else (tail, tailEnd)) (length xs - 1) 1 (0%nat, e 0%nat)) as H.
  change (from_option A_LayerEnd 0 (xs !! 0%nat)) with (e 0%nat).
  destruct (fold_left _ _ _) as [t v]. cbn [fst snd] in *. destruct H as (_ & H1 & -> & H3).
  - split_and!; auto; try lia. intros k Hk. by replace k with 0%nat by lia.
  - intros k [t' v'] Hk (I1 & I2 & I3 & I4). cbn [fst snd] in *. cbv zeta. fold (e k).
    destruct (Z.gtb_spec (e k) v'); cbn [fst snd]; (split_and!; auto; try lia); intros j Hj;
      (destruct (decide (j = k)) as [->|]; [lia|]); specialize (I4 j ltac:(lia)); lia.
  - split; [assumption|]. intros k a Ha. pose proof (lookup_lt_Some _ _ _ Ha). specialize (H3 k ltac:(lia)).
    unfold e in H3 at 1. by rewrite Ha in H3.
Qed.

Lemma placeDraft_place plan model : Forall2 same_place (Plan_Assignments plan) (Plan_Assignments (placeDraft plan model)).
Proof.
  assert (Hrefl : forall xs, Forall2 same_place xs xs) by (intros xs; unfold same_place; induction xs; constructor; auto).
  unfold placeDraft. destruct (Plan_Assignments plan) as [|a xs] eqn:E; [by rewrite E|].
  destruct (negb _); [by rewrite E|]. cbn [Plan_Assignments add_Explanation set_Assignments].
  apply Forall2_same_length_lookup_2; [by rewrite length_alter, length_map|].
  intros i x y Hx Hy. rewrite list_lookup_alter in Hy.
  assert (E' : map (fun a => set_Draft a false) (a :: xs) !! i = Some (set_Draft x false))
    by (etransitivity; [apply (list_lookup_fmap (fun a => set_Draft a false) (a :: xs) i)|by rewrite Hx]).
  case_decide as Et; [rewrite Et in Hy|]; rewrite E' in Hy; injection Hy as <-; by split_and!.
Qed.

Lemma placeDraft_keep plan model :
  Plan_PipelineOrder (placeDraft plan model) = Plan_PipelineOrder plan /\
  Plan_Quantization (placeDraft plan model) = Plan_Quantization plan /\
  Plan_ModelID (placeDraft plan model) = Plan_ModelID plan /\
  Plan_FailoverAlt (placeDraft plan model) = Plan_FailoverAlt plan.
Proof. unfold placeDraft. destruct (Plan_Assignments plan); [done|]. by destruct (negb _). Qed.

(** ** Phase F *)

Definition altOf (alt : string -> Outcome DeploymentPlan) (dead : string) : option DeploymentPlan :=
  match alt dead with Ok p => Some p | _ => None end.

Lemma applyFailovers_spec alt order : forall plan p, applyFailovers alt plan order = Ok p ->
  Plan_Assignments p = Plan_Assignments plan /\ Plan_PipelineOrder p = Plan_PipelineOrder plan /\
  Plan_Quantization p = Plan_Quantization plan /\ Plan_ModelID p = Plan_ModelID plan /\
  Plan_FailoverAlt p = Plan_FailoverAlt plan ++ map (fun dead => (dead, altOf alt dead)) order /\
  (forall x, x ∈ Plan_Explanation plan -> x ∈ Plan_Explanation p) /\
  forall dead, dead ∈ order -> alt dead ≠ Panic /\
    (altOf alt dead = None -> NoteFailoverImpossible dead ∈ Plan_Explanation p).
Proof.
  induction order as [|d order IH]; intros plan p H; cbn in H.
  { injection H as <-. cbn. rewrite app_nil_r. split_and!; try done. intros dead Hd. by apply not_elem_of_nil in Hd. }
  destruct (alt d) as [q|e|] eqn:E; [| |done]; apply IH in H as (H1 & H2 & H3 & H4 & H5 & H6 & H7); cbn in *.
  - split_and!; auto; [unfold altOf at 1; by rewrite H5, E, <- app_assoc|].
    intros dead [->|Hd]%elem_of_cons; [|by apply H7]. unfold altOf. rewrite E. done.
  - split_and!; auto; [unfold altOf at 1; by rewrite H5, E, <- app_assoc|intros x Hx; apply H6; set_solver|].
    intros dead [->|Hd]%elem_of_cons; [|by apply H7]. rewrite E. split; [done|]. intros _. apply H6. set_solver.
Qed.

Lemma failoverOrder_spec xs : forall done,
  NoDup (failoverOrder done xs) /\
  forall id, id ∈ failoverOrder done xs <-> id ∈ map A_NodeID xs /\ id ∉ done.
Proof.
  induction xs as [|a xs IH]; intros done; cbn; [split; [constructor|set_solver]|].
  destruct (elemb (A_NodeID a) done) eqn:E.
  - apply elemb_spec in E. destruct (IH done) as [H1 H2]. split; [done|]. intros id. rewrite H2. set_solver.
  - assert (Hn : A_NodeID a ∉ done) by (rewrite <- elemb_spec; congruence).
    destruct (IH (A_NodeID a :: done)) as [H1 H2]. split.
    + constructor; [rewrite H2; set_solver|done].
    + intros id. rewrite elem_of_cons, H2. destruct (decide (id = A_NodeID a)) as [->|]; set_solver.
Qed.

Lemma nodesExcluding_elem nodes id n : n ∈ nodesExcluding nodes id <-> n ∈ nodes /\ Node_ID n ≠ id.
Proof.
  unfold nodesExcluding. rewrite list_elem_of_In, filter_In, <- list_elem_of_In, negb_true_iff, bool_decide_eq_false. done.
Qed.

(** ** The planner *)

Lemma plan_ok_draft nodes model quant c p : assembled model nodes quant p ->
  validatePlanMemory p (buildNodeByID nodes) model quant c = None -> plan_ok nodes model quant (placeDraft p model).
Proof.
  intros (H1 & H2 & H3 & H4 & H5 & H6 & H7 & H8) HV. pose proof (placeDraft_place p model) as HP.
  destruct (placeDraft_keep p model) as (K1 & K2 & K3 & _). split.
  - by rewrite (same_place_contiguous _ _ _ HP).
  - by rewrite K1, (same_place_ids _ _ HP).
  - intros id Hid. rewrite (same_place_ids _ _ HP) in Hid.
    rewrite (same_place_layers _ _ _ HP), (same_place_spans _ _ HP). by eapply validatePlanMemory_None.
  - by rewrite K2.
  - by rewrite K3.
  - rewrite <- H8. apply rolesb_ext. eapply Forall2_impl; [exact HP|]. by intros x y (? & ? & ? & ?).
  - apply Forall2_length in HP. destruct (Plan_Assignments p); [done|]. by destruct (Plan_Assignments (placeDraft _ _)).
Qed.

Section Plans.
Context (threshold : Z) (links : list Link) (model : ModelSpec) (c : Constraints).
Context (Hparams : params_ok model) (Hlinks : Forall link_ok links).

(** The run of a successful planning call, up to phase F. *)
Lemma planInternal_run poll nodes failover p :
  planInternal poll threshold nodes links model c failover = Ok p ->
  exists ns quant p0,
    (forall n, n ∈ ns <-> n ∈ nodes /\ nodeAllowed c n) /\ 0 < Model_Layers model /\
    selectQuantization ns model (kvCacheInMemory model (Model_ContextMax model) (minPCF ns)) c = Ok quant /\
    assembled model ns quant p0 /\ plan_ok ns model quant (placeDraft p0 model) /\
    match failover with Some f => f ns (placeDraft p0 model) = Ok p | None => p = placeDraft p0 model end.
Proof.
  unfold planInternal. intros H. destruct (poll 0%nat); [done|]. cbv zeta in H.
  destruct (applyNodeFilter nodes c) as [|x l] eqn:EF; [done|].
  apply obind_Ok in H as (ns & Hns & H). destruct (Z.leb_spec (Model_Layers model) 0) as [|HL]; [done|].
  apply obind_Ok in H as (quant & Hq & H). apply obind_Ok in H as (p0 & Hp0 & H).
  assert (Hne : ns ≠ []) by (eapply filters_nonempty; [|exact Hns]; done).
  pose proof (assemblePlan_ok threshold links model c Hparams Hlinks poll ns quant _ p0 Hne HL Hp0) as HA.
  destruct (validatePlanMemory _ _ _ _ _) as [e|] eqn:EV; [done|].
  exists ns, quant, p0. split_and!; auto.
  - intros n. rewrite (poolFilter_elem _ _ _ Hns), <- EF, applyNodeFilter_elem. unfold nodeAllowed. tauto.
  - by eapply plan_ok_draft.
  - destruct failover; [done|by injection H].
Qed.

Lemma planInternal_no_panic poll nodes failover :
  (0 < Model_Layers model -> makeRows (Model_Layers model) = true) ->
  (forall f, failover = Some f -> forall ns p, f ns p ≠ Panic) ->
  planInternal poll threshold nodes links model c failover ≠ Panic.
Proof.
  intros HR Hf. unfold planInternal. destruct (poll 0%nat); [done|]. cbv zeta.
  destruct (applyNodeFilter nodes c) as [|x l] eqn:EF; [done|].
  apply obind_no_panic.
  { unfold poolFilter. destruct (C_AllowedNodeIDs c); [done|]. cbv zeta. destruct (List.filter _ _); [done|].
    destruct (C_ForceHost c); [by destruct (_ && _)|done]. }
  intros ns Hns. destruct (Z.leb_spec (Model_Layers model) 0) as [|HL]; [done|]. apply obind_no_panic.
  { unfold selectQuantization. destruct (Model_Quantizations model); [done|]. cbv zeta.
    destruct (C_ForceQuant c); [destruct (lookupQuant _ _); [by destruct (_ <? _)%f64|done]|by destruct (List.find _ _)]. }
  intros quant _. apply obind_no_panic.
  2:{ intros p _. destruct (validatePlanMemory _ _ _ _ _); [done|]. destruct failover as [f|]; [by apply (Hf f)|done]. }
  unfold assemblePlan. destruct (candidateSubsets _ _ _ _ _) as [|first rest]; [done|].
  assert (HS : forall subsets k best, selectSubset poll k threshold best subsets (buildNodeByID ns) model quant links c ≠ Panic).
  { induction subsets as [|s subsets IH]; intros k best; cbn [selectSubset]; [done|]. destruct (poll k); [done|].
    destruct (length s <? 2)%nat; [apply IH|]. apply obind_no_panic; [|intros; apply IH].
    assert (HD : forall o, exists xs b, dpPartition o links model quant (Model_ContextMax model) = Some (xs, b)).
    { intros o. destruct (dpPartition_cases o links model quant (Model_ContextMax model) (HR HL))
        as [[-> _]|(m & ends & _ & _ & _ & _ & _ & _ & _ & _ & _ & ->)]; eauto. }
    assert (HC : forall fuel o xs b r, exists res, coOptimise fuel threshold o xs b r model quant links c = Some res).
    { induction fuel as [|fuel IHf]; intros o xs b r; cbn [coOptimise]; [eauto|].
      destruct (orderNodes_ok threshold o model links c Hparams Hlinks) as (o' & -> & _). cbn [mbind option_bind].
      destruct (sameOrder _ _); [eauto|]. destruct (HD o') as (xs' & b' & ->). cbn [mbind option_bind]. apply IHf. }
    unfold multiNodePlan. destruct (orderNodes_ok threshold s model links c Hparams Hlinks) as (o & -> & _).
    cbn [mbind option_bind]. destruct (HD o) as (xs & b & ->). cbn [mbind option_bind].
    destruct (HC (coOptMaxRounds - 1)%nat o xs b 1) as ([[[o' xs'] b'] r'] & ->). cbn [mbind option_bind].
    destruct xs'; [done|]. by destruct (applyPinnedRanges _ _ _). }
  destruct first as [|n [|n' first]]; [|done|]; (apply obind_no_panic; [apply HS|intros [p|] _; done]).
Qed.
End Plans.

Lemma Plan_run_ok poll polls threshold nodes links model c p :
  Plan poll polls threshold nodes links model c = Ok p -> params_ok model -> Forall link_ok links ->
  exists ns quant, (forall n, n ∈ ns <-> n ∈ nodes /\ nodeAllowed c n) /\ plan_ok ns model quant p.
Proof.
  intros H Hp Hl. apply planInternal_run in H as (ns & quant & p0 & H1 & H2 & H3 & H4 & H5 & H6); auto.
  exists ns, quant. split; auto. apply applyFailovers_spec in H6 as (E1 & E2 & E3 & E4 & _).
  destruct H5. split; rewrite ?E1, ?E2, ?E3, ?E4; auto.
Qed.

(** (C1) Every plan the planner returns is valid: its shards cover the layers
    [0..L-1] contiguously and without overlap; every node it uses belongs to the
    fleet and is allowed by the include, exclude and pool constraints; each node
    holds all its shards (weights, KV share and one overhead) within its usable
    memory, with the headroom margin when the plan spans several nodes; the first
    shard is the host and every other one a worker; and the
    quantization is the one phase A selected. Forced counts, hosts and pins do not
    weaken this. *)
Theorem Plan_valid poll polls threshold nodes links model c p :
  params_ok model -> Forall link_ok links ->
  Plan poll polls threshold nodes links model c = Ok p ->
  exists ns quant,
    (forall n, n ∈ ns <-> n ∈ nodes /\ nodeAllowed c n) /\
    selectQuantization ns model (kvCacheInMemory model (Model_ContextMax model) (minPCF ns)) c = Ok quant /\
    plan_ok ns model quant p.
Proof.
  intros Hp Hl H. apply planInternal_run in H as (ns & quant & p0 & H1 & H2 & H3 & H4 & H5 & H6); auto.
  exists ns, quant. split_and!; auto. apply applyFailovers_spec in H6 as (E1 & E2 & E3 & E4 & _).
  destruct H5. split; rewrite ?E1, ?E2, ?E3, ?E4; auto.
Qed.

(** (C10) Failover alternatives: a returned plan has exactly one entry for every
    node it uses. A present alternative is itself a valid plan for the allowed fleet
    without the dead node, with the quantization phase A selects on that smaller
    fleet and within the memory of its nodes; it never uses the dead node, and
    carries no alternatives of its own, so that planning recurses one level. A nil
    entry means that planning without the node failed, and the explanation says
    so. The links and the parameters of the model are in range ([link_ok],
    [params_ok]). *)
Theorem Plan_failover poll polls threshold nodes links model c p :
  params_ok model -> Forall link_ok links ->
  Plan poll polls threshold nodes links model c = Ok p ->
  NoDup (map fst (Plan_FailoverAlt p)) /\
  (forall id, id ∈ map fst (Plan_FailoverAlt p) <-> id ∈ map A_NodeID (Plan_Assignments p)) /\
  (forall dead q, (dead, Some q) ∈ Plan_FailoverAlt p ->
     Plan_FailoverAlt q = [] /\ dead ∉ map A_NodeID (Plan_Assignments q) /\
     exists ns quant, (forall n, n ∈ ns <-> n ∈ nodes /\ nodeAllowed c n /\ Node_ID n ≠ dead) /\
       selectQuantization ns model (kvCacheInMemory model (Model_ContextMax model) (minPCF ns)) c = Ok quant /\
       plan_ok ns model quant q) /\
  (forall dead, (dead, None) ∈ Plan_FailoverAlt p ->
     NoteFailoverImpossible dead ∈ Plan_Explanation p /\
     exists ns e, (forall n, n ∈ ns <-> n ∈ nodes /\ nodeAllowed c n) /\
       planInternal (polls dead) threshold (nodesExcluding ns dead) links model c None = Fail e).
Proof.
  intros Hp Hl H. apply planInternal_run in H as (ns & quant & p0 & H1 & H2 & H3 & H4 & H5 & H6); auto.
  pose proof (placeDraft_keep p0 model) as (_ & _ & _ & K). assert (K0 : Plan_FailoverAlt p0 = []) by apply H4.
  rewrite K0 in K. unfold computeFailoverPlans in H6. rewrite K in H6. cbn [map] in H6.
  set (alt := fun dead => _) in H6.
  destruct (failoverOrder_spec (Plan_Assignments (placeDraft p0 model)) []) as [O1 O2].
  set (order := failoverOrder _ _) in *. apply applyFailovers_spec in H6 as (E1 & _ & _ & _ & E5 & _ & E7).
  rewrite K in E5. cbn [app] in E5. rewrite E5, E1, map_map. cbn [fst]. rewrite map_id.
  assert (Hin : forall dead o, (dead, o) ∈ map (fun dead => (dead, altOf alt dead)) order -> dead ∈ order /\ o = altOf alt dead).
  { intros dead o Hd. apply list_elem_of_fmap in Hd as (d & [= -> ->] & Hd). done. }
  split_and!; [done|intros id; rewrite O2; set_solver| |].
  - intros dead q Hq. apply Hin in Hq as [Hd Hq]. unfold altOf in Hq. destruct (alt dead) as [q'|e|] eqn:Ea; [|done|done].
    injection Hq as <-. unfold alt in Ea.
    apply planInternal_run in Ea as (ns' & quant' & q0 & A1 & _ & A3 & A4 & A5 & ->); auto.
    split; [rewrite (proj2 (proj2 (proj2 (placeDraft_keep q0 model)))); apply A4|].
    assert (A1' : forall n, n ∈ ns' <-> n ∈ nodes /\ nodeAllowed c n /\ Node_ID n ≠ dead).
    { intros n. rewrite A1, nodesExcluding_elem, H1. tauto. }
    split; [|by exists ns', quant']. intros Hu. destruct (pk_memory _ _ _ _ A5 dead Hu) as (n & Hn & Hid & _).
    apply A1' in Hn. tauto.
  - intros dead Hd. apply Hin in Hd as [Hd Hq]. destruct (E7 dead Hd) as [N1 N2]. split; [by apply N2|].
    exists ns. unfold altOf in Hq. destruct (alt dead) as [q'|e|] eqn:Ea; [done|eauto|done].
Qed.

Lemma makeRows_bound L : 0 < L -> L < 2 ^ 43 -> makeRows L = true.
Proof. intros H1 H2. apply andb_true_iff. split; apply Z.leb_le; lia. Qed.

Lemma Plan_returns poll polls threshold nodes links model c :
  params_ok model -> Forall link_ok links -> Model_Layers model < 2 ^ 43 ->
  Plan poll polls threshold nodes links model c ≠ Panic.
Proof.
  intros Hp Hl HL. apply planInternal_no_panic; auto using makeRows_bound. intros f [= <-] ns p.
  unfold computeFailoverPlans. generalize (failoverOrder (map fst (Plan_FailoverAlt p)) (Plan_Assignments p)).
  intros order. revert p. induction order as [|d order IH]; intros p; cbn; [done|].
  pose proof (planInternal_no_panic threshold links model c Hp Hl (polls d) (nodesExcluding ns d) None
    ltac:(auto using makeRows_bound) ltac:(done)) as Hn.
  destruct (planInternal _ _ _ _ _ _ None); [apply IH|apply IH|done].
Qed.

(** (C16) Planning never panics: for a model of fewer than [2^43] layers, whose
    tables the runtime can make, and for links and model parameters in range
    ([link_ok], [params_ok]), every call returns a plan or an error, whatever the
    fleet, the constraints and the cancellation of the context. A huge number of
    layers, such as that of [dpPartition_huge], does panic. *)
Theorem Plan_no_panic poll polls threshold nodes links model c :
  params_ok model -> Forall link_ok links -> Model_Layers model < 2 ^ 43 ->
  Plan poll polls threshold nodes links model c ≠ Panic.
Proof. apply Plan_returns. Qed.

(** ** Draft placement *)

Lemma contiguous_ends_le L xs : forall next, contiguousb next xs L = true ->
  (forall a, a ∈ xs -> A_LayerEnd a <= L - 1) /\ (xs ≠ [] -> exists a, a ∈ xs /\ A_LayerEnd a = L - 1) /\ next <= L.
Proof.
  induction xs as [|a xs IH]; intros next H; cbn in H.
  - apply Z.eqb_eq in H. split_and!; [|done|lia]. intros a Ha. by apply not_elem_of_nil in Ha.
  - apply andb_true_iff in H as [H Hr]. apply andb_true_iff in H as [H1%Z.eqb_eq H2%Z.leb_le].
    destruct (IH _ Hr) as (I1 & I2 & I3). split_and!; [| |lia].
    + intros b [->|Hb]%elem_of_cons; [lia|by apply I1].
    + intros _. destruct xs as [|b xs]; [exists a; split; [left|cbn in Hr; apply Z.eqb_eq in Hr; lia]|].
      destruct I2 as (b' & Hb & E); [done|]. exists b'. split; [by right|done].
Qed.

Lemma filter_single {A} (p : A -> bool) (xs : list A) t a :
  xs !! t = Some a -> p a = true -> (forall k b, xs !! k = Some b -> k ≠ t -> p b = false) -> List.filter p xs = [a].
Proof.
  revert t. induction xs as [|x xs IH]; intros [|t] Ha Hp Hall; cbn in Ha; try done.
  - injection Ha as ->. cbn. rewrite Hp. f_equal.
    assert (Hn : forall b, b ∈ xs -> p b = false).
    { intros b Hb. apply list_elem_of_lookup in Hb as [k Hk]. by apply (Hall (S k) b). }
    clear - Hn. induction xs as [|y ys IHy]; cbn; [done|]. rewrite (Hn y ltac:(left)). apply IHy.
    intros b Hb. apply Hn. by right.
  - cbn. rewrite (Hall 0%nat x eq_refl) by done. apply (IH t); auto. intros k b Hk Hne. apply (Hall (S k)); auto.
Qed.

(** Phase E marks exactly one shard when the model ships a draft, and that
    shard is the pipeline tail, the one that holds the last layer; nothing else of
    the placement changes. Without a draft the plan is unchanged. *)
Theorem placeDraft_tail plan model :
  contiguousb 0 (Plan_Assignments plan) (Model_Layers model) = true -> Plan_Assignments plan ≠ [] ->
  let xs := Plan_Assignments (placeDraft plan model) in
  Forall2 same_place (Plan_Assignments plan) xs /\
  (Draft_Available (Model_Draft model) = true ->
     exists t, List.filter A_Draft xs = [t] /\ t ∈ xs /\ A_LayerEnd t = Model_Layers model - 1) /\
  (Draft_Available (Model_Draft model) = false -> placeDraft plan model = plan).
Proof.
  intros Hc Hne. cbv zeta. split; [apply placeDraft_place|]. unfold placeDraft.
  destruct (Plan_Assignments plan) as [|a0 xs0] eqn:E; [done|]. set (xs := a0 :: xs0) in *. split.
  2:{ intros ->. done. }
  intros ->. cbn [negb Plan_Assignments add_Explanation set_Assignments].
  destruct (tailIndex_spec xs Hne) as [Ht Hmax]. set (t := tailIndex xs) in *.
  destruct (lookup_lt_is_Some_2 xs t Ht) as [a Ha]. rewrite Ha in Hmax. cbn [from_option] in Hmax.
  destruct (contiguous_ends_le _ _ _ Hc) as (L1 & L2 & _). destruct (L2 Hne) as (b & Hb & Eb).
  assert (Ea : A_LayerEnd a = Model_Layers model - 1).
  { apply list_elem_of_lookup in Hb as [k Hk]. specialize (Hmax k b Hk).
    specialize (L1 a (list_elem_of_lookup_2 _ _ _ Ha)). lia. }
  assert (HM : forall k, map (fun a => set_Draft a false) xs !! k = (fun a => set_Draft a false) <$> xs !! k)
    by (intros k; apply (list_lookup_fmap (fun a => set_Draft a false) xs k)).
  assert (HT : alter (fun a => set_Draft a true) t (map (fun a => set_Draft a false) xs) !! t = Some (set_Draft a true)).
  { rewrite list_lookup_alter, decide_True, HM, Ha by done. reflexivity. }
  exists (set_Draft a true). split_and!; [|by eapply list_elem_of_lookup_2|exact Ea].
  apply (filter_single _ _ t); auto. intros k b' Hk Hkt. rewrite list_lookup_alter, decide_False, HM in Hk by congruence.
  destruct (xs !! k); [|done]. by injection Hk as <-.
Qed.

(** ** Selection among the candidates *)

(** Strict comparison of costs, whatever they are (a NaN compares false). *)
Lemma flt_irrefl x : (x <? x)%f64 = false.
Proof. apply not_true_is_false. intros E. apply fltb_spec in E. lia. Qed.

Lemma flt_trans x y z : (x <? y)%f64 = true -> (y <? z)%f64 = true -> (x <? z)%f64 = true.
Proof. rewrite !fltb_spec. intros (? & ? & ?) (? & ? & ?). split_and!; auto. lia. Qed.

Lemma flt_not_trans x y z : (x <? y)%f64 = false -> (z <? y)%f64 = true -> (x <? z)%f64 = false.
Proof. intros E1 E2. apply not_true_is_false. intros E3. by rewrite (flt_trans _ _ _ E3 E2) in E1. Qed.

Lemma flt_asym x y : (x <? y)%f64 = true -> (y <? x)%f64 = false.
Proof. intros E. apply not_true_is_false. intros E'. pose proof (flt_trans _ _ _ E E') as H. by rewrite flt_irrefl in H. Qed.

Lemma selectSubset_best poll threshold nodeByID model quant links c subsets : forall k best p,
  selectSubset poll k threshold best subsets nodeByID model quant links c = Ok (Some p) ->
  (forall b, best = Some b -> p = b \/ (Plan_Cost p <? Plan_Cost b)%f64 = true) /\
  forall ns q, ns ∈ subsets -> (2 <= length ns)%nat ->
    multiNodePlan threshold ns nodeByID model quant links c = Some (Some q) -> (Plan_Cost q <? Plan_Cost p)%f64 = false.
Proof.
  induction subsets as [|s subsets IH]; intros k best p H; cbn [selectSubset] in H.
  - injection H as ->. split; [intros b [= ->]; by left|]. intros ns q Hns. by apply not_elem_of_nil in Hns.
  - destruct (poll k); [done|]. destruct (Nat.ltb_spec (length s) 2).
    + apply IH in H as [H1 H2]. split; [done|]. intros ns q [->|Hns]%elem_of_cons; [lia|by apply H2].
    + apply obind_Ok in H as (cand & Hc%lift_Ok & H). apply IH in H as [H1 H2]. destruct cand as [q0|].
      2:{ split; [done|]. intros ns q [->|Hns]%elem_of_cons; [congruence|by apply H2]. }
      assert (Hq0 : (exists b, best = Some b /\ (Plan_Cost q0 <? Plan_Cost b)%f64 = false /\
                               (p = b \/ (Plan_Cost p <? Plan_Cost b)%f64 = true)) \/
                    (p = q0 \/ (Plan_Cost p <? Plan_Cost q0)%f64 = true) /\
                    forall b, best = Some b -> (Plan_Cost q0 <? Plan_Cost b)%f64 = true).
      { destruct best as [b0|]; [|right; split; [by apply H1|done]].
        destruct (Plan_Cost q0 <? Plan_Cost b0)%f64 eqn:E; [right; split; [by apply H1|by intros b [= <-]]|].
        left. exists b0. split_and!; auto. }
      destruct Hq0 as [(b & -> & E & Hp)|[Hp Hb]].
      * split; [by intros b' [= <-]|]. intros ns q [->|Hns]%elem_of_cons; [|by apply H2]. rewrite Hc. intros _ [= <-].
        destruct Hp as [->|Hp]; [done|]. by eapply flt_not_trans.
      * split.
        -- intros b Hb'. right. specialize (Hb b Hb'). destruct Hp as [->|Hp]; [done|]. by eapply flt_trans.
        -- intros ns q [->|Hns]%elem_of_cons; [|by apply H2]. rewrite Hc. intros _ [= <-].
           destruct Hp as [->|Hp]; [apply flt_irrefl|by apply flt_asym].
Qed.

(** When the model is split, the planner returns the cheapest feasible
    candidate: no candidate subset of phase B yields a plan of strictly lower
    cost. When phase B finds that one node suffices it does not split (rule G3):
    the whole model goes to that node, at cost zero. *)
Theorem assemblePlan_cheapest poll threshold nodes links model c quant kv p :
  assemblePlan poll threshold nodes links model c quant kv = Ok p ->
  (forall n rest, candidateSubsets nodes model quant kv c = [n] :: rest -> p = singleNodePlan n model quant kv c) /\
  ((forall n rest, candidateSubsets nodes model quant kv c ≠ [n] :: rest) ->
   forall ns q, ns ∈ candidateSubsets nodes model quant kv c -> (2 <= length ns)%nat ->
     multiNodePlan threshold ns (buildNodeByID nodes) model quant links c = Some (Some q) ->
     (Plan_Cost q <? Plan_Cost p)%f64 = false).
Proof.
  intros H. unfold assemblePlan in H. destruct (candidateSubsets nodes model quant kv c) as [|first rest]; [done|].
  split.
  - intros n rest' [= -> ->]. by injection H.
  - intros Hno ns q Hns Hlen Hq. destruct first as [|n [|n' first]]; [|by destruct (Hno n rest)|];
      (apply obind_Ok in H as ([p'|] & Hs & [= <-]);
       destruct (selectSubset_best _ _ _ _ _ _ _ _ _ _ _ Hs) as [_ HB]; by apply (HB ns)).
Qed.

(** Co-optimisation converges at once: on nodes with distinct IDs the first
    re-ordering leaves the pipeline unchanged, so the loop stops after one round
    with the partition it started from, whatever the round limit. *)
Theorem coOptimise_converges fuel threshold subset links model quant c order xs bottleneck :
  NoDup (Node_ID <$> subset) -> params_ok model -> Forall link_ok links ->
  orderNodes threshold subset model links c = Some order ->
  coOptimise fuel threshold order xs bottleneck 1 model quant links c = Some (order, xs, bottleneck, 1).
Proof.
  intros Hnd Hp Hl Ho. destruct fuel as [|fuel]; [done|]. cbn [coOptimise].
  destruct (orderNodes_ok threshold subset model links c Hp Hl) as (o & E & HP). rewrite Ho in E. injection E as <-.
  rewrite <- (orderNodes_perm threshold subset order model links c Hnd ltac:(by symmetry)), Ho. cbn [mbind option_bind].
  assert (HS : forall l, sameOrder l l = true) by (induction l; cbn; [done|]; by rewrite bool_decide_true).
  by rewrite HS.
Qed.

(** ** Instances *)

Definition noCancel : nat -> bool := fun _ => false.

(** Two nodes are needed; the third is a spare. *)
Definition exDraftModel : ModelSpec :=
  mkModel "llama/test" false 6 (of_Z 24) (of_Z 24) 4096 8 128 AttentionGQA 4096 [exQ4; exQ8]
          (mkDraft true "mtp" 1) f0.

Definition exFleet : list Node := exNodes ++ [exNode "d" 64 24 300].

Definition exPlan : DeploymentPlan :=
  match Plan noCancel (fun _ => noCancel) 10 exFleet exLinks exDraftModel Constraints_zero with
  | Ok p => p
  | _ => singleNodePlan exA exDraftModel exQ4 f0 Constraints_zero
  end.

Lemma exPlan_run : Plan noCancel (fun _ => noCancel) 10 exFleet exLinks exDraftModel Constraints_zero = Ok exPlan.
Proof. vm_compute. reflexivity. Qed.

Lemma selectQuantization_best_witness :
  selectQuantization exNodes exModel f1 Constraints_zero = Ok exQ8 /\
  (ramAggregate exNodes >=? quantNeed exNodes f1 exQ8)%f64 = true.
Proof.
  assert (E : selectQuantization exNodes exModel f1 Constraints_zero = Ok exQ8) by (vm_compute; reflexivity).
  split; [exact E|]. destruct (selectQuantization_best exNodes exModel f1 Constraints_zero exQ8) as (_ & _ & H).
  - repeat constructor.
  - exact E.
  - apply (H eq_refl).
Defined.

Lemma Plan_valid_witness : contiguousb 0 (Plan_Assignments exPlan) 6 = true.
Proof.
  destruct (Plan_valid noCancel (fun _ => noCancel) 10 exFleet exLinks exDraftModel Constraints_zero exPlan)
    as (ns & quant & _ & _ & H); [check_inputs|check_inputs|exact exPlan_run|]. exact (pk_cover _ _ _ _ H).
Defined.

Lemma Plan_failover_witness : NoDup (map fst (Plan_FailoverAlt exPlan)).
Proof.
  destruct (Plan_failover noCancel (fun _ => noCancel) 10 exFleet exLinks exDraftModel Constraints_zero exPlan)
    as (H & _); [check_inputs|check_inputs|exact exPlan_run|]. exact H.
Defined.

Lemma Plan_no_panic_witness :
  Plan noCancel (fun _ => noCancel) 10 exFleet exLinks exDraftModel Constraints_zero ≠ Panic.
Proof.
  apply (Plan_no_panic noCancel (fun _ => noCancel) 10 exFleet exLinks exDraftModel Constraints_zero);
    [check_inputs|check_inputs|reflexivity].
Defined.

Lemma placeDraft_tail_witness :
  exists t, List.filter A_Draft (Plan_Assignments (placeDraft exPlan exDraftModel)) = [t] /\ A_LayerEnd t = 5.
Proof.
  destruct (placeDraft_tail exPlan exDraftModel) as (_ & H & _).
  - vm_compute. reflexivity.
  - vm_compute. discriminate.
  - destruct (H eq_refl) as (t & H1 & _ & H2). exists t. split; [exact H1|exact H2].
Defined.

Definition exAssembled : DeploymentPlan :=
  match assemblePlan noCancel 10 exNodes exLinks exModel Constraints_zero exQ8 f1 with
  | Ok p => p
  | _ => singleNodePlan exA exModel exQ8 f1 Constraints_zero
  end.

Lemma assemblePlan_cheapest_witness :
  assemblePlan noCancel 10 exNodes exLinks exModel Constraints_zero exQ8 f1 = Ok exAssembled /\
  forall q, multiNodePlan 10 exNodes (buildNodeByID exNodes) exModel exQ8 exLinks Constraints_zero = Some (Some q) ->
    (Plan_Cost q <? Plan_Cost exAssembled)%f64 = false.
Proof.
  assert (E : assemblePlan noCancel 10 exNodes exLinks exModel Constraints_zero exQ8 f1 = Ok exAssembled)
    by (vm_compute; reflexivity).
  assert (ES : map (map Node_ID) (candidateSubsets exNodes exModel exQ8 f1 Constraints_zero)
               = [["a"; "b"]; ["a"; "b"; "c"]]%string) by (vm_compute; reflexivity).
  split; [exact E|]. intros q Hq.
  destruct (assemblePlan_cheapest noCancel 10 exNodes exLinks exModel Constraints_zero exQ8 f1 exAssembled E) as [_ H].
  apply (H ltac:(intros n rest En; rewrite En in ES; discriminate ES) exNodes q); [|cbn; lia|exact Hq].
  apply (list_elem_of_lookup_2 _ 1). vm_compute. reflexivity.
Defined.

Lemma coOptimise_converges_witness : exists xs b,
  coOptimise 2 10 [exA; exB; exC] xs b 1 exModel exQ8 exLinks Constraints_zero = Some ([exA; exB; exC], xs, b, 1).
Proof.
  exists [], f0. apply (coOptimise_converges 2 10 exNodes exLinks exModel exQ8 Constraints_zero [exA; exB; exC] [] f0).
  - exact exIDs_NoDup.
  - check_inputs.
  - check_inputs.
  - vm_compute. reflexivity.
Defined.
