(* ===== verification/Replica.v ===== *)
(** * Replica: replica sets

    [go/planner/plan/replica.go]: [PlanReplicaSet] splits the fleet, ranked by
    memory, into contiguous groups and plans the model on each. Every call of
    [Plan] has its own context answers: [ctxs 0] and [ctxs 1] for the trial plans,
    [ctxs (2 + i)] for replica [i]. The goroutines share only the result channel,
    whose results are stored by index. *)
From stdpp Require Import pretty.
From S2P Require Import Prelude Float64 PlanTypes CostModel Fixtures Partition Ordering Planner.
Open Scope Z_scope.
Open Scope outcome_scope.

Inductive RoutingPolicy : Set := RoutingRoundRobin | RoutingLeastLoaded.

Record ReplicaSet : Type := mkReplicaSet {
  RS_ModelID : string;
  RS_Replicas : list DeploymentPlan;
  RS_Routing : RoutingPolicy
}.

Definition Contexts : Type := nat -> (nat -> bool) * (string -> nat -> bool).

Definition planAt (ctxs : Contexts) (k : nat) (threshold : Z) (nodes : list Node) (links : list Link)
    (model : ModelSpec) (c : Constraints) : Outcome DeploymentPlan :=
  Plan (fst (ctxs k)) (snd (ctxs k)) threshold nodes links model c.

Definition rankedByFit (nodes : list Node) : list Node :=
  go_sort (fun a b => (usefulMemoryForFit a >? usefulMemoryForFit b)%f64) nodes.

(** [ranked[start:end]] of replica [i]; the last group takes the remainder. *)
Definition replicaGroup (ranked : list Node) (replicaCount i : nat) : list Node :=
  let groupSize := (length ranked / replicaCount)%nat in
  let start := (i * groupSize)%nat in
  let end_ := if Nat.eqb i (replicaCount - 1) then length ranked else (start + groupSize)%nat in
  firstn (end_ - start) (skipn start ranked).

(** The first error in index order; a panic of any goroutine ends the program. *)
Definition panicked {A} (o : Outcome A) : bool := match o with Panic => true | _ => false end.

Fixpoint firstError (i : Z) (rs : list (Outcome DeploymentPlan)) : Outcome (list DeploymentPlan) :=
  match rs with
  | [] => Ok []
  | Ok p :: rest => let! ps := firstError (i + 1) rest in Ok (p :: ps)
  | Fail e :: _ => Fail (ErrReplica i e)
  | Panic :: _ => Panic
  end.

Definition collectReplicas (rs : list (Outcome DeploymentPlan)) : Outcome (list DeploymentPlan) :=
  if existsb panicked rs then Panic else firstError 0 rs.

(** The trial plan: the top half of the fleet, then the whole fleet. *)
Definition trialPlan (ctxs : Contexts) (threshold : Z) (ranked : list Node) (links : list Link) (model : ModelSpec)
    (c : Constraints) : Outcome DeploymentPlan :=
  match planAt ctxs 0 threshold (firstn (length ranked / 2 + 1) ranked) links model c with
  | Fail _ =>
      match planAt ctxs 1 threshold ranked links model c with
      | Fail e => Fail (ErrFleet e)
      | r => r
      end
  | r => r
  end.

Definition PlanReplicaSet (ctxs : Contexts) (threshold : Z) (nodes : list Node) (links : list Link)
    (model : ModelSpec) (c : Constraints) (replicaCount : Z) : Outcome ReplicaSet :=
  if replicaCount <=? 0 then Fail (ErrReplicaCount replicaCount)
  else if replicaCount =? 1 then
    let! dp := planAt ctxs 0 threshold nodes links model c in
    Ok (mkReplicaSet (Model_ID model) [dp] RoutingRoundRobin)
  else match nodes with
  | [] => Fail (planError ReasonNoNodes f0 ["register at least one node"%string])
  | _ =>
      let ranked := rankedByFit nodes in
      let! trialDP := trialPlan ctxs threshold ranked links model c in
      let kMin := Z.of_nat (length (Plan_Assignments trialDP)) in
      if Z.of_nat (length nodes) <? kMin * replicaCount
      then Fail (planError (ReasonTooFewNodes (Z.of_nat (length nodes)) replicaCount kMin) f0
                   ["add at least " +:+ pretty (kMin * replicaCount - Z.of_nat (length nodes)) +:+ " more nodes"; "reduce replicaCount"; "use a smaller quantization to lower k_min"]%string)
      else
        let n := Z.to_nat replicaCount in
        let! plans := collectReplicas (map (fun i =>
            planAt ctxs (2 + i) threshold (replicaGroup ranked n i) links model c) (seq 0 n)) in
        Ok (mkReplicaSet (Model_ID model) plans RoutingRoundRobin)
  end.

(** ** Replicas are disjoint *)

Lemma replicaGroup_range ranked n i x : (i < n)%nat -> x ∈ replicaGroup ranked n i ->
  exists k, ranked !! k = Some x /\ (i * (length ranked / n) <= k)%nat /\
    ((i < n - 1)%nat -> (k < (i + 1) * (length ranked / n))%nat).
Proof.
  intros Hi Hx. unfold replicaGroup in Hx. cbv zeta in Hx. apply elem_of_take in Hx as (j & Hj & Hlt).
  rewrite lookup_drop in Hj. eexists. split; [exact Hj|]. split; [lia|]. intros Hlast.
  destruct (Nat.eqb_spec i (n - 1)); lia.
Qed.

Lemma replicaGroup_disjoint ranked n i j x y : (i < j < n)%nat -> NoDup (Node_ID <$> ranked) ->
  x ∈ replicaGroup ranked n i -> y ∈ replicaGroup ranked n j -> Node_ID x ≠ Node_ID y.
Proof.
  intros Hij Hnd Hx Hy E. apply replicaGroup_range in Hx as (k & Hk & _ & Hk2); [|lia].
  apply replicaGroup_range in Hy as (k' & Hk' & Hk1' & _); [|lia]. specialize (Hk2 ltac:(lia)).
  assert (k = k'); [|subst; nia].
  eapply (NoDup_lookup _ _ _ (Node_ID x) Hnd); rewrite list_lookup_fmap; [by rewrite Hk|by rewrite Hk', E].
Qed.

Lemma firstError_Ok rs : forall i ps, firstError i rs = Ok ps -> Forall2 (fun r p => r = Ok p) rs ps.
Proof.
  induction rs as [|[p|e|] rs IH]; intros i ps H; cbn in H; try done; [injection H as <-; constructor|].
  apply obind_Ok in H as (ps' & H & [= <-]). constructor; [done|by eapply IH].
Qed.

Lemma PlanReplicaSet_groups ctxs threshold nodes links model c n rs :
  PlanReplicaSet ctxs threshold nodes links model c n = Ok rs -> 2 <= n ->
  Forall2 (fun i p => planAt ctxs (2 + i) threshold (replicaGroup (rankedByFit nodes) (Z.to_nat n) i) links model c = Ok p)
    (seq 0 (Z.to_nat n)) (RS_Replicas rs).
Proof.
  unfold PlanReplicaSet. intros H Hn. rewrite (proj2 (Z.leb_gt _ _)), (proj2 (Z.eqb_neq _ _)) in H by lia.
  destruct nodes as [|x l]; [done|]. cbv zeta in H. apply obind_Ok in H as (t & _ & H).
  destruct (_ <? _); [done|]. apply obind_Ok in H as (ps & H & [= <-]). cbn [RS_Replicas].
  unfold collectReplicas in H. destruct (existsb _ _); [done|]. apply firstError_Ok in H.
  by rewrite Forall2_fmap_l in H.
Qed.

(** A replica set holds exactly the requested number of plans; every replica
    is a valid plan over its own slice of the fleet, and with distinct node IDs no
    two replicas use a common node. *)
Theorem PlanReplicaSet_disjoint ctxs threshold nodes links model c n rs :
  params_ok model -> Forall link_ok links -> NoDup (Node_ID <$> nodes) ->
  PlanReplicaSet ctxs threshold nodes links model c n = Ok rs ->
  Z.of_nat (length (RS_Replicas rs)) = n /\ RS_ModelID rs = Model_ID model /\
  (forall p, p ∈ RS_Replicas rs ->
     contiguousb 0 (Plan_Assignments p) (Model_Layers model) = true /\
     forall id, id ∈ map A_NodeID (Plan_Assignments p) -> id ∈ Node_ID <$> nodes) /\
  (forall i j p q, (i < j)%nat -> RS_Replicas rs !! i = Some p -> RS_Replicas rs !! j = Some q ->
     forall id, id ∈ map A_NodeID (Plan_Assignments p) -> id ∉ map A_NodeID (Plan_Assignments q)).
Proof.
  intros Hp Hl Hnd H.
  assert (HV : forall k ns p, planAt ctxs k threshold ns links model c = Ok p ->
    contiguousb 0 (Plan_Assignments p) (Model_Layers model) = true /\
    forall id, id ∈ map A_NodeID (Plan_Assignments p) -> exists x, x ∈ ns /\ Node_ID x = id).
  { intros k ns p Hk. unfold planAt, Plan in Hk.
    apply planInternal_run in Hk as (ms & quant & p0 & M1 & _ & _ & _ & M5 & M6); auto.
    apply applyFailovers_spec in M6 as (E1 & _). rewrite E1. split; [apply M5|]. intros id Hid.
    destruct (pk_memory _ _ _ _ M5 id Hid) as (x & Hx & Hxid & _). apply M1 in Hx. exists x. tauto. }
  assert (Hid : RS_ModelID rs = Model_ID model).
  { unfold PlanReplicaSet in H. destruct (n <=? 0); [done|]. destruct (n =? 1).
    - apply obind_Ok in H as (? & _ & [= <-]). done.
    - destruct nodes; [done|]. apply obind_Ok in H as (? & _ & H). cbv zeta in H. destruct (_ <? _); [done|].
      apply obind_Ok in H as (? & _ & [= <-]). done. }
  destruct (Z.le_gt_cases 2 n) as [Hn|Hn].
  - pose proof (PlanReplicaSet_groups _ _ _ _ _ _ _ _ H Hn) as HG.
    assert (Hperm : rankedByFit nodes ≡ₚ nodes) by apply go_sort_perm.
    assert (HG' : forall i p, RS_Replicas rs !! i = Some p -> (i < Z.to_nat n)%nat /\
      planAt ctxs (2 + i) threshold (replicaGroup (rankedByFit nodes) (Z.to_nat n) i) links model c = Ok p).
    { intros i p Hi. destruct (Forall2_lookup_r _ _ _ _ _ HG Hi) as (k & Hk & HP).
      apply lookup_seq in Hk as [-> Hk]. split; [done|]. exact HP. }
    split_and!; [apply Forall2_length in HG; rewrite length_seq in HG; lia|done| |].
    + intros p Hin. apply list_elem_of_lookup in Hin as [i Hi]. destruct (HG' i p Hi) as [Hi' HP].
      destruct (HV _ _ _ HP) as [V1 V2]. split; [done|]. intros id Hu. destruct (V2 id Hu) as (x & Hx & <-).
      apply replicaGroup_range in Hx as (k & Hk & _); [|done]. rewrite <- Hperm.
      apply list_elem_of_fmap_2. by eapply list_elem_of_lookup_2.
    + intros i j p q Hij Hi Hj id Hu Hu'. destruct (HG' i p Hi) as [Hi' HP]. destruct (HG' j q Hj) as [Hj' HQ].
      destruct (proj2 (HV _ _ _ HP) id Hu) as (x & Hx & Ex). destruct (proj2 (HV _ _ _ HQ) id Hu') as (y & Hy & Ey).
      refine (replicaGroup_disjoint (rankedByFit nodes) (Z.to_nat n) i j x y _ _ Hx Hy _); [lia|by rewrite Hperm|congruence].
  - unfold PlanReplicaSet in H. destruct (Z.leb_spec n 0); [done|]. assert (n = 1) as -> by lia.
    cbn [Z.eqb Pos.eqb] in H. apply obind_Ok in H as (dp & Hdp & [= <-]). cbn [RS_Replicas length].
    destruct (HV _ _ _ Hdp) as [V1 V2]. split_and!; [done|done| |].
    + intros p ->%list_elem_of_singleton. split; [done|]. intros id Hu. destruct (V2 id Hu) as (x & Hx & <-).
      by apply list_elem_of_fmap_2.
    + intros i [|j] p q Hij _ Hj; [lia|done].
Qed.

(** ** Instances *)

Definition exTwins : list Node := [exA; exB; exNode "a2" 64 24 400; exNode "b2" 64 16 200].

Definition exReplicas : ReplicaSet :=
  match PlanReplicaSet (fun _ => (noCancel, fun _ => noCancel)) 10 exTwins exLinks exModel Constraints_zero 2 with
  | Ok rs => rs
  | _ => mkReplicaSet "" [] RoutingLeastLoaded
  end.

Lemma PlanReplicaSet_disjoint_witness : Z.of_nat (length (RS_Replicas exReplicas)) = 2.
Proof.
  apply (PlanReplicaSet_disjoint (fun _ => (noCancel, fun _ => noCancel)) 10 exTwins exLinks exModel Constraints_zero 2
           exReplicas).
  - check_inputs.
  - check_inputs.
  - apply (bool_decide_unpack _). vm_compute. exact I.
  - vm_compute. reflexivity.
Defined.
