(* ===== verification/Convert.v ===== *)
(** * Convert: domain types and the wire messages

    [go/planner/plan/convert.go]. The wire messages are the fields of
    [proto/purser/v1/common.proto] that the conversions read or write, with their
    widths: a [uint32] or [uint64] is a [Z] in its range, an enum the [int32] that
    protobuf carries. A [nil] message is [None]. The [Explanation] strings are the
    [Note]s of the model on both sides. *)
From S2P Require Import Prelude Float64 PlanTypes CostModel Fixtures Partition Ordering Planner.
Open Scope Z_scope.

(** ** Wire messages *)

Module Proto.
(** The enum values; an unknown number is a legal wire value. *)
Definition ATTENTION_TYPE_UNSPECIFIED : Z := 0.
Definition ATTENTION_TYPE_MHA : Z := 1.
Definition ATTENTION_TYPE_GQA : Z := 2.
Definition ATTENTION_TYPE_MLA : Z := 3.
Definition ATTENTION_TYPE_LINEAR : Z := 4.
Definition ROLE_UNSPECIFIED : Z := 0.
Definition ROLE_HOST : Z := 1.
Definition ROLE_WORKER : Z := 2.

Record Quantization : Type := mkQuantization {
  Name : string; SizeGb : float64; RequiresFp4 : bool; Quality : float64; EmulatedFp4 : bool }.

Record DraftInfo : Type := mkDraftInfo { Available : bool; Type_ : string; TailLayers : Z }.

Record ModelSpec : Type := mkModelSpec {
  ModelId : string; ParamsTotalB : float64; ParamsActiveB : float64; Layers : Z; HiddenSize : Z; NKvHeads : Z;
  HeadDim : Z; AttentionType : Z; ContextMax : Z; IsMoe : bool; Draft : option DraftInfo;
  Quantizations : list (option Quantization) }.

Record Assignment : Type := mkAssignment {
  NodeId : string; Role : Z; LayerStart : Z; LayerEnd : Z; ADraft : bool }.

Record PerfEstimate : Type := mkPerfEstimate {
  DecodeTokSMin : float64; DecodeTokSMax : float64; PrefillTokSMin : float64; PrefillTokSMax : float64;
  HeadroomGb : float64 }.

Record DeploymentPlan : Type := mkDeploymentPlan {
  PlanId : string; DModelId : string; DQuantization : string; Assignments : list (option Assignment);
  PipelineOrder : list string; Estimated : option PerfEstimate; Cost : float64; Explanation : list Note }.

Record GpuInfo : Type := mkGpuInfo { VramGb : float64; Count : Z; Unified : bool; Fp4Native : bool }.

(** [PrefixCachingFactor] is a wire [float], held as the [float64] it converts to. *)
Record HardwareProfile : Type := mkHardwareProfile {
  HNodeId : string; Backends : list Z; Gpus : list GpuInfo; RamTotalGb : float64; RamAvailableGb : float64;
  MemBandwidthGbs : float64; DiskFreeGb : float64; EngineVersions : gmap string string;
  PrefixCachingFactor : float64; KvSsdOffload : bool; HHostname : string; HOs : Z; HArch : Z }.

Record LinkMetric : Type := mkLinkMetric {
  FromNode : string; ToNode : string; BandwidthGbs : float64; RttMs : float64 }.
End Proto.

(** ** Numeric conversions *)

Definition u32 (i : Z) : Z := if i <? 0 then 0 else i mod 2 ^ 32.
Definition u64 (i : Z) : Z := if i <? 0 then 0 else i mod 2 ^ 64.

(** [int(x)] of an unsigned integer wraps into the signed 64-bit range. *)
Definition to_go_int (x : Z) : Z := (x + 2 ^ 63) mod 2 ^ 64 - 2 ^ 63.

(** ** Enums *)

Definition AttentionType_ToProto (a : AttentionType) : Z :=
  match a with
  | AttentionMHA => Proto.ATTENTION_TYPE_MHA
  | AttentionGQA => Proto.ATTENTION_TYPE_GQA
  | AttentionMLA => Proto.ATTENTION_TYPE_MLA
  | AttentionLinear => Proto.ATTENTION_TYPE_LINEAR
  | AttentionUnspecified => Proto.ATTENTION_TYPE_UNSPECIFIED
  end.

Definition AttentionTypeFromProto (p : Z) : AttentionType :=
  if p =? Proto.ATTENTION_TYPE_MHA then AttentionMHA
  else if p =? Proto.ATTENTION_TYPE_GQA then AttentionGQA
  else if p =? Proto.ATTENTION_TYPE_MLA then AttentionMLA
  else if p =? Proto.ATTENTION_TYPE_LINEAR then AttentionLinear
  else AttentionUnspecified.

Definition Role_ToProto (r : Role) : Z :=
  match r with
  | RoleHost => Proto.ROLE_HOST
  | RoleWorker => Proto.ROLE_WORKER
  | RoleUnspecified => Proto.ROLE_UNSPECIFIED
  end.

Definition RoleFromProto (p : Z) : Role :=
  if p =? Proto.ROLE_HOST then RoleHost else if p =? Proto.ROLE_WORKER then RoleWorker else RoleUnspecified.

(** ** Quantization, draft, model *)

Definition Quantization_ToProto (q : Quantization) : Proto.Quantization :=
  Proto.mkQuantization (Quant_Name q) (Quant_SizeGB q) (Quant_RequiresFP4 q) (Quant_Quality q) (Quant_EmulatedFP4 q).

Definition QuantizationFromProto (p : option Proto.Quantization) : Quantization :=
  match p with
  | None => Quant_zero
  | Some p => mkQuant (Proto.Name p) (Proto.SizeGb p) (Proto.RequiresFp4 p) (Proto.Quality p) (Proto.EmulatedFp4 p)
  end.

Definition DraftInfo_ToProto (d : DraftInfo) : Proto.DraftInfo :=
  Proto.mkDraftInfo (Draft_Available d) (Draft_Type d) (u32 (Draft_TailLayers d)).

Definition DraftInfoFromProto (p : option Proto.DraftInfo) : DraftInfo :=
  match p with
  | None => mkDraft false "" 0
  | Some p => mkDraft (Proto.Available p) (Proto.Type_ p) (to_go_int (Proto.TailLayers p))
  end.

Definition ModelSpec_ToProto (m : ModelSpec) : Proto.ModelSpec :=
  {| Proto.ModelId := Model_ID m;
     Proto.ParamsTotalB := Model_ParamsTotalB m;
     Proto.ParamsActiveB := Model_ParamsActiveB m;
     Proto.Layers := u32 (Model_Layers m);
     Proto.HiddenSize := u32 (Model_HiddenSize m);
     Proto.NKvHeads := u32 (Model_NKVHeads m);
     Proto.HeadDim := u32 (Model_HeadDim m);
     Proto.AttentionType := AttentionType_ToProto (Model_AttentionType m);
     Proto.ContextMax := u64 (Model_ContextMax m);
     Proto.IsMoe := Model_IsMoE m;
     Proto.Draft := Some (DraftInfo_ToProto (Model_Draft m));
     Proto.Quantizations := map (fun q => Some (Quantization_ToProto q)) (Model_Quantizations m) |}.

Definition ModelSpec_zero : ModelSpec :=
  mkModel "" false 0 f0 f0 0 0 0 AttentionUnspecified 0 [] (mkDraft false "" 0) f0.

Definition ModelSpecFromProto (p : option Proto.ModelSpec) : ModelSpec :=
  match p with
  | None => ModelSpec_zero
  | Some p =>
      {| Model_ID := Proto.ModelId p;
         Model_IsMoE := Proto.IsMoe p;
         Model_Layers := to_go_int (Proto.Layers p);
         Model_ParamsTotalB := Proto.ParamsTotalB p;
         Model_ParamsActiveB := Proto.ParamsActiveB p;
         Model_HiddenSize := to_go_int (Proto.HiddenSize p);
         Model_NKVHeads := to_go_int (Proto.NKvHeads p);
         Model_HeadDim := to_go_int (Proto.HeadDim p);
         Model_AttentionType := AttentionTypeFromProto (Proto.AttentionType p);
         Model_ContextMax := to_go_int (Proto.ContextMax p);
         Model_Quantizations := map QuantizationFromProto (Proto.Quantizations p);
         Model_Draft := DraftInfoFromProto (Proto.Draft p);
         Model_KVCompressionRatio := f0 |}
  end.

(** ** Assignments, estimates, plans *)

Definition Assignment_ToProto (a : Assignment) : Proto.Assignment :=
  Proto.mkAssignment (A_NodeID a) (Role_ToProto (A_Role a)) (u32 (A_LayerStart a)) (u32 (A_LayerEnd a)) (A_Draft a).

Definition AssignmentFromProto (p : option Proto.Assignment) : Assignment :=
  match p with
  | None => mkAssign "" RoleUnspecified 0 0 false
  | Some p => mkAssign (Proto.NodeId p) (RoleFromProto (Proto.Role p)) (to_go_int (Proto.LayerStart p))
                       (to_go_int (Proto.LayerEnd p)) (Proto.ADraft p)
  end.

Definition PerfEstimate_ToProto (p : PerfEstimate) : Proto.PerfEstimate :=
  Proto.mkPerfEstimate (Perf_DecodeTokSMin p) (Perf_DecodeTokSMax p) (Perf_PrefillTokSMin p) (Perf_PrefillTokSMax p)
    (Perf_HeadroomGB p).

Definition PerfEstimateFromProto (p : option Proto.PerfEstimate) : PerfEstimate :=
  match p with
  | None => mkPerf f0 f0 f0 f0 f0
  | Some p => mkPerf (Proto.DecodeTokSMin p) (Proto.DecodeTokSMax p) (Proto.PrefillTokSMin p) (Proto.PrefillTokSMax p)
                (Proto.HeadroomGb p)
  end.

Definition DeploymentPlan_ToProto (d : option DeploymentPlan) : option Proto.DeploymentPlan :=
  match d with
  | None => None
  | Some d =>
      Some {| Proto.PlanId := Plan_PlanID d;
              Proto.DModelId := Plan_ModelID d;
              Proto.DQuantization := Plan_Quantization d;
              Proto.Assignments := map (fun a => Some (Assignment_ToProto a)) (Plan_Assignments d);
              Proto.PipelineOrder := Plan_PipelineOrder d;
              Proto.Estimated := Some (PerfEstimate_ToProto (Plan_Estimated d));
              Proto.Cost := Plan_Cost d;
              Proto.Explanation := Plan_Explanation d |}
  end.

Definition DeploymentPlanFromProto (p : option Proto.DeploymentPlan) : option DeploymentPlan :=
  match p with
  | None => None
  | Some p =>
      Some {| Plan_PlanID := Proto.PlanId p;
              Plan_ModelID := Proto.DModelId p;
              Plan_Quantization := Proto.DQuantization p;
              Plan_Assignments := map AssignmentFromProto (Proto.Assignments p);
              Plan_PipelineOrder := Proto.PipelineOrder p;
              Plan_Estimated := PerfEstimateFromProto (Proto.Estimated p);
              Plan_Cost := Proto.Cost p;
              Plan_Explanation := Proto.Explanation p;
              Plan_FailoverAlt := [] |}
  end.

(** ** Hardware profiles and links *)

(** [Backend_name] trimmed and lower-cased; an unknown number has the empty name. *)
Definition backendName (b : Z) : string :=
  if b =? 0 then "unspecified" else if b =? 1 then "cuda" else if b =? 2 then "metal"
  else if b =? 3 then "rocm" else if b =? 4 then "cpu" else "".

Definition gpuStep (st : float64 * bool * bool) (g : Proto.GpuInfo) : float64 * bool * bool :=
  let '(vram, unified, fp4) := st in
  let count := if Proto.Count g =? 0 then 1 else Proto.Count g in
  ((vram + Proto.VramGb g * of_Z count)%f64,
   if Proto.Unified g then true else unified,
   if Proto.Fp4Native g then true else fp4).

Definition NodeFromHardwareProfile (p : option Proto.HardwareProfile) : Node :=
  match p with
  | None => Node_zero
  | Some p =>
      let '(vram, unified, fp4) := fold_left gpuStep (Proto.Gpus p) (f0, false, false) in
      {| Node_ID := Proto.HNodeId p;
         Node_RAMTotalGB := Proto.RamTotalGb p;
         Node_RAMAvailableGB := Proto.RamAvailableGb p;
         Node_VRAMGB := vram;
         Node_UnifiedMemory := unified;
         Node_MemBandwidthGBs := Proto.MemBandwidthGbs p;
         Node_Backends := map backendName (Proto.Backends p);
         Node_FP4Native := fp4;
         Node_EngineVersions := Proto.EngineVersions p;
         Node_DiskFreeGB := Proto.DiskFreeGb p;
         Node_KVSSDOffload := Proto.KvSsdOffload p;
         Node_PrefixCachingFactor := Proto.PrefixCachingFactor p |}
  end.

Definition LinkFromMetric (p : option Proto.LinkMetric) : Link :=
  match p with
  | None => mkLink "" "" f0 f0
  | Some p => mkLink (Proto.FromNode p) (Proto.ToNode p) (Proto.RttMs p) (Proto.BandwidthGbs p)
  end.

Definition Link_ToMetric (l : Link) : Proto.LinkMetric :=
  Proto.mkLinkMetric (Link_From l) (Link_To l) (Link_BandwidthGBs l) (Link_RTTms l).

(** ** Round trips *)

Definition fits_u32 (z : Z) : Prop := 0 <= z < 2 ^ 32.

Lemma u32_roundtrip z : fits_u32 z -> to_go_int (u32 z) = z.
Proof.
  unfold fits_u32, u32, to_go_int. intros H. rewrite (proj2 (Z.ltb_ge _ _)), (Z.mod_small z) by lia.
  rewrite Z.mod_small by lia. lia.
Qed.

Lemma u64_roundtrip z : 0 <= z < 2 ^ 63 -> to_go_int (u64 z) = z.
Proof.
  unfold u64, to_go_int. intros H. rewrite (proj2 (Z.ltb_ge _ _)), (Z.mod_small z) by lia.
  rewrite Z.mod_small by lia. lia.
Qed.

Lemma AttentionType_roundtrip a : AttentionTypeFromProto (AttentionType_ToProto a) = a.
Proof. by destruct a. Qed.

Lemma Role_roundtrip r : RoleFromProto (Role_ToProto r) = r.
Proof. by destruct r. Qed.

Record model_fits (m : ModelSpec) : Prop := {
  mf_layers : fits_u32 (Model_Layers m);
  mf_hidden : fits_u32 (Model_HiddenSize m);
  mf_heads : fits_u32 (Model_NKVHeads m);
  mf_dim : fits_u32 (Model_HeadDim m);
  mf_tail : fits_u32 (Draft_TailLayers (Model_Draft m));
  mf_context : 0 <= Model_ContextMax m < 2 ^ 63
}.

Definition drop_KVCompressionRatio (m : ModelSpec) : ModelSpec :=
  mkModel (Model_ID m) (Model_IsMoE m) (Model_Layers m) (Model_ParamsTotalB m) (Model_ParamsActiveB m)
    (Model_HiddenSize m) (Model_NKVHeads m) (Model_HeadDim m) (Model_AttentionType m) (Model_ContextMax m)
    (Model_Quantizations m) (Model_Draft m) f0.

(** A model specification survives the trip over the wire, for every value
    its wire fields can hold, except the KV compression ratio: the message has no
    field for it, so it always comes back as zero and the KV estimate falls back to
    the attention-type default. *)
Theorem ModelSpec_roundtrip m :
  model_fits m -> ModelSpecFromProto (Some (ModelSpec_ToProto m)) = drop_KVCompressionRatio m.
Proof.
  intros []. unfold ModelSpecFromProto, ModelSpec_ToProto, drop_KVCompressionRatio. cbn.
  rewrite !u32_roundtrip, u64_roundtrip, AttentionType_roundtrip by assumption. f_equal.
  - rewrite map_map. erewrite map_ext; [apply map_id|]. by intros [].
  - by destruct (Model_Draft m).
Qed.

Lemma Assignments_roundtrip xs :
  Forall (fun a => fits_u32 (A_LayerStart a) /\ fits_u32 (A_LayerEnd a)) xs ->
  map AssignmentFromProto (map (fun a => Some (Assignment_ToProto a)) xs) = xs.
Proof.
  intros H. rewrite map_map. induction H as [|a xs [H1 H2] _ IH]; [done|]. cbn [map]. rewrite IH. f_equal.
  unfold AssignmentFromProto, Assignment_ToProto. cbn.
  rewrite !u32_roundtrip, Role_roundtrip by assumption. by destruct a.
Qed.

Definition plan_fits (p : DeploymentPlan) : Prop :=
  Forall (fun a => fits_u32 (A_LayerStart a) /\ fits_u32 (A_LayerEnd a)) (Plan_Assignments p).

(** A deployment plan survives the trip over the wire with everything but its
    failover alternatives, which are not serialised and come back empty. *)
Theorem DeploymentPlan_roundtrip p :
  plan_fits p -> DeploymentPlanFromProto (DeploymentPlan_ToProto (Some p)) = Some (set_FailoverAlt p []).
Proof.
  intros H. unfold DeploymentPlanFromProto, DeploymentPlan_ToProto, set_FailoverAlt. cbn. do 2 f_equal.
  - by apply Assignments_roundtrip.
  - by destruct (Plan_Estimated p).
Qed.

(** A valid plan over a model whose layer count fits the wire is carried faithfully. *)
Lemma contiguous_fits L xs : L <= 2 ^ 32 -> forall next, 0 <= next -> contiguousb next xs L = true ->
  Forall (fun a => fits_u32 (A_LayerStart a) /\ fits_u32 (A_LayerEnd a)) xs.
Proof.
  intros HL. induction xs as [|a xs IH]; intros next Hn H; [constructor|]. pose proof (contiguous_ends_le _ _ _ H) as (HE & _).
  specialize (HE a ltac:(left)). cbn in H. apply andb_true_iff in H as [H Hr].
  apply andb_true_iff in H as [H1%Z.eqb_eq H2%Z.leb_le]. unfold fits_u32. constructor; [lia|].
  apply (IH (A_LayerEnd a + 1)); [lia|exact Hr].
Qed.

(** Plans produced by the planner are carried faithfully: for a model with at
    most [2^32] layers every plan [Plan] returns round-trips up to its failover
    alternatives. *)
Theorem Plan_wire_faithful poll polls threshold nodes links model c p :
  params_ok model -> Forall link_ok links -> Model_Layers model <= 2 ^ 32 ->
  Plan poll polls threshold nodes links model c = Ok p ->
  DeploymentPlanFromProto (DeploymentPlan_ToProto (Some p)) = Some (set_FailoverAlt p []).
Proof.
  intros Hp Hl HL H. unfold DeploymentPlanFromProto, DeploymentPlan_ToProto, set_FailoverAlt. cbn. do 2 f_equal.
  - apply planInternal_run in H as (ns & quant & p0 & _ & _ & _ & _ & H5 & H6); auto.
    apply applyFailovers_spec in H6 as (E1 & _). rewrite E1.
    apply Assignments_roundtrip, (contiguous_fits _ _ HL 0 ltac:(lia) (pk_cover _ _ _ _ H5)).
  - by destruct (Plan_Estimated p).
Qed.

(** A node built from a hardware profile is unified-memory, or FP4-native,
    exactly when one of its GPUs is, and a link metric round-trips through the
    planner's [Link]. *)
Theorem NodeFromHardwareProfile_gpus p l :
  Node_UnifiedMemory (NodeFromHardwareProfile (Some p)) = existsb Proto.Unified (Proto.Gpus p) /\
  Node_FP4Native (NodeFromHardwareProfile (Some p)) = existsb Proto.Fp4Native (Proto.Gpus p) /\
  LinkFromMetric (Some (Link_ToMetric l)) = l.
Proof.
  assert (H : forall gs v u f, let '(_, u', f') := fold_left gpuStep gs (v, u, f) in
    u' = u || existsb Proto.Unified gs /\ f' = f || existsb Proto.Fp4Native gs).
  { induction gs as [|g gs IH]; intros v u f; cbn; [by rewrite !orb_false_r|]. specialize (IH
      (v + Proto.VramGb g * of_Z (if Proto.Count g =? 0 then 1 else Proto.Count g))%f64
      (if Proto.Unified g then true else u) (if Proto.Fp4Native g then true else f)).
    destruct (fold_left gpuStep gs _) as [[v' u'] f']. destruct IH as [-> ->].
    destruct (Proto.Unified g), (Proto.Fp4Native g), u, f; done. }
  specialize (H (Proto.Gpus p) f0 false false). unfold NodeFromHardwareProfile.
  destruct (fold_left gpuStep _ _) as [[v u] f]. destruct H as [-> ->]. by destruct l.
Qed.

(** ** Instances *)

Lemma ModelSpec_roundtrip_witness :
  Model_Layers (ModelSpecFromProto (Some (ModelSpec_ToProto exModel))) = 6.
Proof.
  rewrite (ModelSpec_roundtrip exModel); [reflexivity|]. split; unfold fits_u32; cbn; lia.
Defined.

Lemma DeploymentPlan_roundtrip_witness :
  DeploymentPlanFromProto (DeploymentPlan_ToProto (Some exAssembled)) = Some (set_FailoverAlt exAssembled []).
Proof.
  apply (DeploymentPlan_roundtrip exAssembled). unfold plan_fits.
  apply (contiguous_fits 6 (Plan_Assignments exAssembled) ltac:(lia) 0 ltac:(lia)). vm_compute. reflexivity.
Defined.

Lemma Plan_wire_faithful_witness :
  DeploymentPlanFromProto (DeploymentPlan_ToProto (Some exPlan)) = Some (set_FailoverAlt exPlan []).
Proof.
  apply (Plan_wire_faithful noCancel (fun _ => noCancel) 10 exFleet exLinks exDraftModel Constraints_zero exPlan).
  - check_inputs.
  - check_inputs.
  - cbn. lia.
  - exact exPlan_run.
Defined.
