(* ===== verification/Text.v ===== *)
(** * Text: the parts of Go's text packages that the components use

    [unicode/utf8] (decoding, encoding), [unicode.IsSpace] and [strings.TrimSpace],
    [strings.ToLower], and [encoding/base64] with the alphabets and paddings of
    [RawURLEncoding] and [StdEncoding].

    A string is its bytes. A byte and a rune are [Z]s. The decoder of base64 follows
    [decodeQuantum]: line breaks are skipped, a final group of two or three characters
    is allowed without padding only, and the unused low bits of the last character are
    not looked at. The case table of Unicode is a parameter. *)
From S2P Require Import Prelude.
Open Scope Z_scope.

(** ** Bytes *)

Definition byteOf (a : ascii) : Z := Z.of_N (Ascii.N_of_ascii a).
Definition charOf (b : Z) : ascii := Ascii.ascii_of_N (Z.to_N b).

Fixpoint bytes (s : string) : list Z :=
  match s with EmptyString => [] | String a s => byteOf a :: bytes s end.
Fixpoint ofBytes (l : list Z) : string :=
  match l with [] => EmptyString | b :: l => String (charOf b) (ofBytes l) end.

Definition isByte (b : Z) : Prop := 0 <= b < 256.

(** ** UTF-8 *)

Definition RuneError : Z := 65533.

(** The range of the second byte after a given first one. *)
Definition acceptLow (b : Z) : Z := if b =? 224 then 160 else if b =? 240 then 144 else 128.
Definition acceptHigh (b : Z) : Z := if b =? 237 then 159 else if b =? 244 then 143 else 191.
Definition accepted (b0 b1 : Z) : bool := (acceptLow b0 <=? b1) && (b1 <=? acceptHigh b0).
Definition continues (b : Z) : bool := (128 <=? b) && (b <=? 191).

(** [[]rune(s)]: a byte that starts no valid encoding is [RuneError] of width one. *)
Fixpoint runes (l : list Z) : list Z :=
  match l with
  | [] => []
  | b0 :: r0 =>
      if b0 <? 128 then b0 :: runes r0
      else if (194 <=? b0) && (b0 <=? 223) then
        match r0 with
        | b1 :: r1 => if continues b1 then (b0 mod 32 * 64 + b1 mod 64) :: runes r1 else RuneError :: runes r0
        | [] => [RuneError]
        end
      else if (224 <=? b0) && (b0 <=? 239) then
        match r0 with
        | b1 :: b2 :: r2 =>
            if accepted b0 b1 && continues b2
            then (b0 mod 16 * 4096 + b1 mod 64 * 64 + b2 mod 64) :: runes r2 else RuneError :: runes r0
        | _ => RuneError :: runes r0
        end
      else if (240 <=? b0) && (b0 <=? 244) then
        match r0 with
        | b1 :: b2 :: b3 :: r3 =>
            if accepted b0 b1 && continues b2 && continues b3
            then (b0 mod 8 * 262144 + b1 mod 64 * 4096 + b2 mod 64 * 64 + b3 mod 64) :: runes r3
            else RuneError :: runes r0
        | _ => RuneError :: runes r0
        end
      else RuneError :: runes r0
  end.

(** A Unicode scalar value. *)
Definition validRune (r : Z) : bool :=
  ((0 <=? r) && (r <? 55296)) || ((57344 <=? r) && (r <=? 1114111)).

(** [utf8.AppendRune]. *)
Definition encodeRune (r : Z) : list Z :=
  let r := if validRune r then r else RuneError in
  if r <=? 127 then [r]
  else if r <=? 2047 then [192 + r / 64; 128 + r mod 64]
  else if r <=? 65535 then [224 + r / 4096; 128 + r / 64 mod 64; 128 + r mod 64]
  else [240 + r / 262144; 128 + r / 4096 mod 64; 128 + r / 64 mod 64; 128 + r mod 64].

(** ** Trimming and lower case *)

(** The encodings of the code points of [unicode.IsSpace]. *)
Definition spaceRunes : list Z :=
  [9; 10; 11; 12; 13; 32; 133; 160; 5760; 8232; 8233; 8239; 8287; 12288] ++ seqZ 8192 11.
Definition spaceBytes : list (list Z) := map encodeRune spaceRunes.

Fixpoint dropPrefix (p l : list Z) : option (list Z) :=
  match p, l with
  | [], _ => Some l
  | a :: p, b :: l => if a =? b then dropPrefix p l else None
  | _ :: _, [] => None
  end.

Fixpoint firstDrop (ps : list (list Z)) (l : list Z) : option (list Z) :=
  match ps with
  | [] => None
  | p :: ps => match dropPrefix p l with Some r => Some r | None => firstDrop ps l end
  end.

(** Every space has at least one byte, so the length of the text is enough fuel. *)
Fixpoint trimN (fuel : nat) (ps : list (list Z)) (l : list Z) : list Z :=
  match fuel with
  | O => l
  | S fuel => match firstDrop ps l with Some r => trimN fuel ps r | None => l end
  end.

Definition trimLeft (l : list Z) : list Z := trimN (length l) spaceBytes l.
Definition trimRight (l : list Z) : list Z := rev (trimN (length l) (map (@rev Z) spaceBytes) (rev l)).
Definition TrimSpace (s : string) : string := ofBytes (trimRight (trimLeft (bytes s))).

Class Unicode : Type := { unicode_ToLower : Z -> Z }.

Definition asciiLower (b : Z) : Z := if (65 <=? b) && (b <=? 90) then b + 32 else b.

Definition ToLower `{Unicode} (s : string) : string :=
  if forallb (fun b => b <? 128) (bytes s) then ofBytes (map asciiLower (bytes s))
  else ofBytes (flat_map (fun r => encodeRune (unicode_ToLower r)) (runes (bytes s))).

(** [strings.ReplaceAll(s, from, to)] of one character. *)
Fixpoint ReplaceChar (from to : ascii) (s : string) : string :=
  match s with
  | EmptyString => EmptyString
  | String a s => String (if Ascii.eqb a from then to else a) (ReplaceChar from to s)
  end.

(** ** Base64 *)

Inductive Encoding : Set := RawURLEncoding | StdEncoding.

(** The 63rd and 64th characters. *)
Definition plusChar (e : Encoding) : Z := match e with RawURLEncoding => 45 | StdEncoding => 43 end.
Definition slashChar (e : Encoding) : Z := match e with RawURLEncoding => 95 | StdEncoding => 47 end.
Definition padded (e : Encoding) : bool := match e with RawURLEncoding => false | StdEncoding => true end.
Definition padChar : Z := 61.

Definition b64char (e : Encoding) (n : Z) : Z :=
  if n <? 26 then 65 + n else if n <? 52 then 71 + n else if n <? 62 then n - 4
  else if n =? 62 then plusChar e else slashChar e.

Definition b64value (e : Encoding) (c : Z) : option Z :=
  if (65 <=? c) && (c <=? 90) then Some (c - 65)
  else if (97 <=? c) && (c <=? 122) then Some (c - 71)
  else if (48 <=? c) && (c <=? 57) then Some (c + 4)
  else if c =? plusChar e then Some 62 else if c =? slashChar e then Some 63 else None.

Fixpoint encode64 (e : Encoding) (l : list Z) : list Z :=
  match l with
  | [] => []
  | [a] => [b64char e (a / 4); b64char e (a mod 4 * 16)] ++ (if padded e then [padChar; padChar] else [])
  | [a; b] =>
      [b64char e (a / 4); b64char e (a mod 4 * 16 + b / 16); b64char e (b mod 16 * 4)]
      ++ (if padded e then [padChar] else [])
  | a :: b :: c :: r =>
      b64char e (a / 4) :: b64char e (a mod 4 * 16 + b / 16) :: b64char e (b mod 16 * 4 + c / 64)
      :: b64char e (c mod 64) :: encode64 e r
  end.

Definition isBreak (c : Z) : bool := (c =? 10) || (c =? 13).

(** The bytes of a full group and of the two partial ones. *)
Definition group3 (x y z : Z) : list Z := [x * 4 + y / 16; y mod 16 * 16 + z / 4].
Definition group4 (x y z v : Z) : list Z := group3 x y z ++ [z mod 4 * 64 + v].

(** [decodeQuantum], repeated; the line breaks are gone. *)
Fixpoint decodeQuanta (e : Encoding) (l : list Z) : option (list Z) :=
  match l with
  | [] => Some []
  | [_] => None
  | [c0; c1] =>
      if padded e then None
      else match b64value e c0, b64value e c1 with
           | Some x, Some y => Some [x * 4 + y / 16]
           | _, _ => None
           end
  | [c0; c1; c2] =>
      if padded e then None
      else match b64value e c0, b64value e c1, b64value e c2 with
           | Some x, Some y, Some z => Some (group3 x y z)
           | _, _, _ => None
           end
  | c0 :: c1 :: c2 :: c3 :: r =>
      match b64value e c0, b64value e c1 with
      | Some x, Some y =>
          match b64value e c2 with
          | None =>
              if padded e && (c2 =? padChar) && (c3 =? padChar) && bool_decide (r = [])
              then Some [x * 4 + y / 16] else None
          | Some z =>
              match b64value e c3 with
              | None => if padded e && (c3 =? padChar) && bool_decide (r = []) then Some (group3 x y z) else None
              | Some v => match decodeQuanta e r with Some t => Some (group4 x y z v ++ t) | None => None end
              end
          end
      | _, _ => None
      end
  end.

Definition decode64 (e : Encoding) (l : list Z) : option (list Z) :=
  decodeQuanta e (List.filter (fun c => negb (isBreak c)) l).

Definition EncodeToString (e : Encoding) (s : string) : string := ofBytes (encode64 e (bytes s)).
Definition DecodeString (e : Encoding) (s : string) : option string := ofBytes <$> decode64 e (bytes s).

(** ** Bytes and texts *)

Lemma byteOf_range a : isByte (byteOf a).
Proof. unfold isByte, byteOf. pose proof (Ascii.N_ascii_bounded a). lia. Qed.

Lemma bytes_range s : Forall isByte (bytes s).
Proof. induction s; cbn; constructor; auto using byteOf_range. Qed.

Lemma ofBytes_bytes s : ofBytes (bytes s) = s.
Proof.
  induction s as [|a s IH]; cbn; [done|]. rewrite IH. f_equal. unfold charOf, byteOf.
  by rewrite N2Z.id, Ascii.ascii_N_embedding.
Qed.

Lemma bytes_ofBytes l : Forall isByte l -> bytes (ofBytes l) = l.
Proof.
  induction 1 as [|b l [H1 H2] Hl IH]; cbn; [done|]. rewrite IH. f_equal. unfold byteOf, charOf.
  rewrite Ascii.N_ascii_embedding; lia.
Qed.

(** ** Base64 is inverted by its decoder *)

Definition isSextet (n : Z) : Prop := 0 <= n < 64.

(** A fact about the 64 digits, checked on each. *)
Lemma sextet_all (P : Z -> Prop) `{forall n, Decision (P n)} :
  forallb (fun n => bool_decide (P n)) (seqZ 0 64) = true -> forall n, isSextet n -> P n.
Proof.
  intros H0 n Hn. rewrite forallb_forall in H0. apply (bool_decide_unpack _), Is_true_true, H0.
  apply list_elem_of_In, elem_of_seqZ. unfold isSextet in Hn. lia.
Qed.

(** What the rest of the proof needs of a digit's character. *)
Definition digitChar (e : Encoding) (n c : Z) : Prop :=
  b64value e c = Some n /\ isBreak c = false /\ c ≠ 46 /\ 32 < c < 128.

#[local] Instance digitChar_dec e n c : Decision (digitChar e n c).
Proof. unfold digitChar. apply _. Defined.

Lemma b64char_digit e n : isSextet n -> digitChar e n (b64char e n).
Proof. revert n. destruct e; refine (sextet_all (fun n => digitChar _ n (b64char _ n)) _); vm_compute; reflexivity. Qed.

Ltac sextets := unfold isSextet, isByte in *; lia.

(** The four digits of three bytes. *)
Lemma sextets_of a b c : isByte a -> isByte b -> isByte c ->
  isSextet (a / 4) /\ isSextet (a mod 4 * 16 + b / 16) /\ isSextet (b mod 16 * 4 + c / 64) /\ isSextet (c mod 64).
Proof.
  intros Ha Hb Hc. unfold isByte, isSextet in *.
  repeat split; try (apply Z.mod_pos_bound; lia); Z.to_euclidean_division_equations; lia.
Qed.

Lemma group4_of a b c : isByte a -> isByte b -> isByte c ->
  group4 (a / 4) (a mod 4 * 16 + b / 16) (b mod 16 * 4 + c / 64) (c mod 64) = [a; b; c].
Proof.
  intros Ha Hb Hc. unfold group4, group3, isByte in *. cbn.
  repeat f_equal; Z.to_euclidean_division_equations; lia.
Qed.

(** Induction by groups of three bytes. *)
Lemma groups_ind (P : list Z -> Prop) :
  P [] -> (forall a, P [a]) -> (forall a b, P [a; b]) -> (forall a b c r, P r -> P (a :: b :: c :: r)) -> forall l, P l.
Proof. intros H0 H1 H2 H3. fix IH 1. intros [|a [|b [|c r]]]; [apply H0|apply H1|apply H2|apply H3, IH]. Qed.

(** A character that the decoder does not skip and that is not the separator of a key. *)
Definition plainChar (c : Z) : Prop := isBreak c = false /\ c ≠ 46 /\ 32 < c < 128.

Lemma b64char_plain e n : isSextet n -> plainChar (b64char e n).
Proof. intros H. by apply (b64char_digit e) in H as [_ ?]. Qed.

Lemma pad_plain : plainChar padChar.
Proof. by repeat split. Qed.

Lemma encode64_plain e l : Forall isByte l -> Forall plainChar (encode64 e l).
Proof.
  pose proof pad_plain as Hp.
  assert (Hz : isByte 0) by sextets.
  induction l as [|a|a b|a b c r IH] using groups_ind; intros H; cbn [encode64]; [constructor| | |].
  - apply Forall_cons_1 in H as [Ha _]. destruct (sextets_of a 0 0 Ha Hz Hz) as (H1 & H2 & _).
    rewrite Z.add_0_r in H2. destruct (padded e); repeat constructor; auto; by apply b64char_plain.
  - rewrite !Forall_cons in H. destruct H as (Ha & Hb & _). destruct (sextets_of a b 0 Ha Hb Hz) as (H1 & H2 & H3 & _).
    rewrite Z.add_0_r in H3. destruct (padded e); repeat constructor; auto; by apply b64char_plain.
  - rewrite !Forall_cons in H. destruct H as (Ha & Hb & Hc & Hr).
    destruct (sextets_of a b c Ha Hb Hc) as (H1 & H2 & H3 & H4). repeat (constructor; [by apply b64char_plain|]). auto.
Qed.

Lemma filter_plain l : Forall plainChar l -> List.filter (fun c => negb (isBreak c)) l = l.
Proof. induction 1 as [|c l [H _] Hl IH]; cbn; [done|]. by rewrite H, IH. Qed.

Lemma b64value_char e n : isSextet n -> b64value e (b64char e n) = Some n.
Proof. intros H. by apply (b64char_digit e) in H as [? _]. Qed.

Lemma b64value_pad e : b64value e padChar = None.
Proof. by destruct e. Qed.

Lemma decodeQuanta_encode64 e l : Forall isByte l -> decodeQuanta e (encode64 e l) = Some l.
Proof.
  assert (Hz : isByte 0) by sextets.
  induction l as [|a|a b|a b c r IH] using groups_ind; intros H; [done| | |]; rewrite !Forall_cons in H; cbn [encode64].
  - destruct H as (Ha & _). destruct (sextets_of a 0 0 Ha Hz Hz) as (H1 & H2 & _). rewrite Z.add_0_r in H2.
    pose proof (group4_of a 0 0 Ha Hz Hz) as G. rewrite !Z.add_0_r in G. injection G as G _.
    destruct (padded e) eqn:Ep; cbn [app decodeQuanta]; rewrite ?Ep, !b64value_char, ?b64value_pad by done; cbn; by rewrite G.
  - destruct H as (Ha & Hb & _). destruct (sextets_of a b 0 Ha Hb Hz) as (H1 & H2 & H3 & _). rewrite Z.add_0_r in H3.
    pose proof (group4_of a b 0 Ha Hb Hz) as G. rewrite !Z.add_0_r in G. injection G as G1 G2 _.
    unfold group3. destruct (padded e) eqn:Ep; cbn [app decodeQuanta]; rewrite ?Ep, !b64value_char, ?b64value_pad by done; cbn;
      unfold group3; by rewrite G1, G2.
  - destruct H as (Ha & Hb & Hc & Hr). destruct (sextets_of a b c Ha Hb Hc) as (H1 & H2 & H3 & H4).
    cbn [decodeQuanta]. rewrite !b64value_char, IH by done. by rewrite group4_of.
Qed.

Lemma encode64_bytes e l : Forall isByte l -> Forall isByte (encode64 e l).
Proof. intros H. eapply Forall_impl; [by apply encode64_plain|]. intros c (_ & _ & Hc). sextets. Qed.

(** Decoding gives back what was encoded, in both alphabets. *)
Lemma decode_encodeString e s : DecodeString e (EncodeToString e s) = Some s.
Proof.
  pose proof (bytes_range s) as H. unfold DecodeString, EncodeToString, decode64.
  rewrite bytes_ofBytes by by apply encode64_bytes.
  rewrite filter_plain, decodeQuanta_encode64 by by try apply encode64_plain. cbn. by rewrite ofBytes_bytes.
Qed.

(** ** UTF-8 is inverted by its decoder *)

(** The quotient of a bounded number. *)
Lemma div_range lo hi r k : 0 < k -> lo * k <= r < (hi + 1) * k -> lo <= r / k <= hi.
Proof. intros Hk Hr. split; [apply Z.div_le_lower_bound; lia|]. apply Z.lt_succ_r, Z.div_lt_upper_bound; lia. Qed.

Lemma continues_mod n : continues (128 + n mod 64) = true.
Proof. unfold continues. pose proof (Z.mod_pos_bound n 64). apply andb_true_intro. split; apply Z.leb_le; lia. Qed.

Lemma mod_continued n : (128 + n mod 64) mod 64 = n mod 64.
Proof. Z.to_euclidean_division_equations; lia. Qed.

Lemma accepted3 r : 2048 <= r <= 65535 -> validRune r = true -> accepted (224 + r / 4096) (128 + r / 64 mod 64) = true.
Proof.
  intros Hr Hv. unfold accepted, acceptLow, acceptHigh. apply andb_true_intro.
  assert (r < 55296 \/ 57344 <= r) as Hs by (unfold validRune in Hv; lia).
  split; apply Z.leb_le; repeat case_match; Z.to_euclidean_division_equations; lia.
Qed.

Lemma accepted4 r : 65536 <= r <= 1114111 -> accepted (240 + r / 262144) (128 + r / 4096 mod 64) = true.
Proof.
  intros Hr. unfold accepted, acceptLow, acceptHigh. apply andb_true_intro.
  split; apply Z.leb_le; repeat case_match; Z.to_euclidean_division_equations; lia.
Qed.

(** Opens the decoder at the first byte only, and decides the tests on it. *)
Ltac lead_byte r0 :=
  match goal with |- runes (?b0 :: ?l) = _ => set (r0 := l); cbn [runes] end;
  repeat (match goal with |- (if ?c then _ else _) = _ =>
    first [replace c with true by lia | replace c with false by lia] end; cbv beta iota);
  subst r0; cbv beta iota.

Lemma runes2 b0 b1 l : 194 <= b0 <= 223 -> continues b1 = true ->
  runes (b0 :: b1 :: l) = (b0 mod 32 * 64 + b1 mod 64) :: runes l.
Proof. intros H0 H1. lead_byte r0. by rewrite H1. Qed.

Lemma runes3 b0 b1 b2 l : 224 <= b0 <= 239 -> accepted b0 b1 = true -> continues b2 = true ->
  runes (b0 :: b1 :: b2 :: l) = (b0 mod 16 * 4096 + b1 mod 64 * 64 + b2 mod 64) :: runes l.
Proof. intros H0 H1 H2. lead_byte r0. by rewrite H1, H2. Qed.

Lemma runes4 b0 b1 b2 b3 l :
  240 <= b0 <= 244 -> accepted b0 b1 = true -> continues b2 = true -> continues b3 = true ->
  runes (b0 :: b1 :: b2 :: b3 :: l) = (b0 mod 8 * 262144 + b1 mod 64 * 4096 + b2 mod 64 * 64 + b3 mod 64) :: runes l.
Proof. intros H0 H1 H2 H3. lead_byte r0. by rewrite H1, H2, H3. Qed.

(** Decoding an encoded scalar value gives it back, and continues behind it. *)
Lemma runes_encodeRune r l : validRune r = true -> runes (encodeRune r ++ l) = r :: runes l.
Proof.
  intros Hv. assert (0 <= r <= 1114111) as Hr by (unfold validRune in Hv; lia). unfold encodeRune. rewrite Hv.
  destruct (Z.leb_spec r 127); [|destruct (Z.leb_spec r 2047); [|destruct (Z.leb_spec r 65535)]]; cbn [app].
  - lead_byte r0. done.
  - pose proof (div_range 2 31 r 64 ltac:(lia) ltac:(lia)).
    rewrite runes2 by (apply continues_mod || lia).
    rewrite mod_continued. f_equal. Z.to_euclidean_division_equations; lia.
  - pose proof (div_range 0 15 r 4096 ltac:(lia) ltac:(lia)).
    rewrite runes3 by (apply continues_mod || (apply accepted3; [lia|done]) || lia).
    rewrite !mod_continued. f_equal. Z.to_euclidean_division_equations; lia.
  - pose proof (div_range 0 4 r 262144 ltac:(lia) ltac:(lia)).
    rewrite runes4 by (apply continues_mod || (apply accepted4; lia) || lia).
    rewrite !mod_continued. f_equal. Z.to_euclidean_division_equations; lia.
Qed.

(** ** Trimming *)

(** No entry is empty or begins with [c]. *)
Definition noneStarts (c : Z) (ps : list (list Z)) : bool :=
  forallb (fun p => match p with [] => false | a :: _ => negb (a =? c) end) ps.

Lemma firstDrop_none ps c l : noneStarts c ps = true ->
  firstDrop ps (c :: l) = None.
Proof.
  induction ps as [|[|a p] ps IH]; cbn; [done|done|]. intros [H1 H2]%andb_prop. destruct (a =? c); [done|]. auto.
Qed.

(** No encoding of a space begins or ends with a printable ASCII character. *)
Lemma spaces_edge c : 32 < c < 128 ->
  noneStarts c spaceBytes = true /\
  noneStarts c (map (@rev Z) spaceBytes) = true.
Proof.
  intros Hc. assert (Hin : c ∈ seqZ 33 95) by (apply elem_of_seqZ; lia). revert c Hc Hin.
  assert (Hall : forallb (fun c =>
    noneStarts c spaceBytes &&
    noneStarts c (map (@rev Z) spaceBytes)) (seqZ 33 95) = true)
    by (vm_compute; reflexivity).
  intros c _ Hin. rewrite forallb_forall in Hall. apply andb_prop, Hall, list_elem_of_In, Hin.
Qed.

Lemma trimN_stop n ps c l : noneStarts c ps = true ->
  trimN n ps (c :: l) = c :: l.
Proof. intros H. destruct n; cbn [trimN]; [done|]. by rewrite firstDrop_none. Qed.

(** A text of printable ASCII characters has nothing to trim. *)
Lemma TrimSpace_plain s : Forall (fun c => 32 < c < 128) (bytes s) -> TrimSpace s = s.
Proof.
  intros H. rewrite <- (ofBytes_bytes s) at 2. unfold TrimSpace. f_equal. destruct (bytes s) as [|c l]; [done|].
  unfold trimLeft. rewrite trimN_stop by (apply Forall_cons_1 in H as [H _]; by apply spaces_edge).
  unfold trimRight. rewrite <- (rev_involutive (c :: l)) at 3. f_equal.
  assert (Hr : Forall (fun c => 32 < c < 128) (rev (c :: l))) by by apply Forall_rev.
  destruct (rev (c :: l)) as [|d r]; [by destruct (length (c :: l))|].
  apply trimN_stop. apply Forall_cons_1 in Hr as [Hd _]. by apply spaces_edge.
Qed.

(** A text that decoding and encoding its runes leaves as it is. *)
Definition validUTF8 (s : string) : Prop := flat_map encodeRune (runes (bytes s)) = bytes s.

(** ** Stand-ins for encoders

    A value as the bits of its number, for the concrete instances of parameters. *)
Fixpoint bits (p : positive) : string :=
  match p with xH => "c" | xO p => String "a" (bits p) | xI p => String "b" (bits p) end.

Fixpoint unbits (s : string) : option positive :=
  match s with
  | String c s =>
      if Ascii.eqb c "c" then Some xH
      else if Ascii.eqb c "a" then xO <$> unbits s else xI <$> unbits s
  | EmptyString => None
  end.

Definition toText {A} `{Countable A} (a : A) : string := bits (encode a).
Definition ofText {A} `{Countable A} (s : string) : option A := unbits s ≫= decode.

Lemma ofText_toText {A} `{Countable A} (a : A) : ofText (toText a) = Some a.
Proof.
  unfold ofText, toText. assert (Hb : forall p, unbits (bits p) = Some p) by (induction p as [p IH|p IH|]; cbn; [by rewrite IH..|done]).
  rewrite Hb. apply decode_encode.
Qed.

Lemma toText_nonempty {A} `{Countable A} (a : A) : toText a ≠ ""%string.
Proof. unfold toText. by destruct (encode a). Qed.
