(* ===== verification/AuditChain.v ===== *)
(** * AuditChain: the hash-chained audit log

    [go/controlplane/audit]: the canonical encoding of an entry, the chain rule, the
    verification of a chain ([audit.go]), the in-memory store ([store.go]) and the log
    that appends to it ([log.go]). Bytes are the characters of a [string]; [uint64]
    arithmetic wraps. SHA-256 is a parameter: what is used of it is that a digest has
    32 bytes, and the theorem on tampering says for which inputs it must not collide. *)
From S2P Require Import Prelude.
Open Scope Z_scope.

(** ** Bytes *)

Definition byteOf (z : Z) : ascii := ascii_of_N (Z.to_N z).

(** [binary.PutUvarint]: seven bits a byte, the low ones first; a [uint64] needs at
    most ten ([binary.MaxVarintLen64]). *)
Fixpoint uvarintN (n : nat) (v : Z) : string :=
  match n with
  | O => ""
  | S n => if v <? 128 then String (byteOf v) "" else String (byteOf (v mod 128 + 128)) (uvarintN n (v / 128))
  end.

Definition writeUvarint (v : Z) : string := uvarintN 10 v.

(** [binary.PutVarint]: [ux := uint64(x) << 1; if x < 0 { ux = ^ux }]. *)
Definition zigzag (x : Z) : Z := if x <? 0 then 2 ^ 64 - 1 - (2 * x) mod 2 ^ 64 else (2 * x) mod 2 ^ 64.

Definition writeVarint (v : Z) : string := writeUvarint (zigzag v).

Definition writeBytesField (b : string) : string := writeUvarint (Z.of_nat (String.length b) mod 2 ^ 64) +:+ b.

(** ** [encoding/hex] *)

Definition hexDigit (z : Z) : ascii := byteOf (if z <? 10 then 48 + z else 87 + z).

Fixpoint hexEncode (s : string) : string :=
  match s with
  | EmptyString => EmptyString
  | String c s =>
      let v := Z.of_N (N_of_ascii c) in
      String (hexDigit (v / 16)) (String (hexDigit (v mod 16)) (hexEncode s))
  end.

(** [fromHexChar] accepts both cases. *)
Definition fromHexChar (c : ascii) : option Z :=
  let v := Z.of_N (N_of_ascii c) in
  if (48 <=? v) && (v <=? 57) then Some (v - 48)
  else if (97 <=? v) && (v <=? 102) then Some (v - 87)
  else if (65 <=? v) && (v <=? 70) then Some (v - 55)
  else None.

Fixpoint hexDecode (s : string) : option string :=
  match s with
  | EmptyString => Some EmptyString
  | String _ EmptyString => None
  | String a (String b s) =>
      match fromHexChar a, fromHexChar b with
      | Some x, Some y => option_map (String (byteOf (16 * x + y))) (hexDecode s)
      | _, _ => None
      end
  end.

(** ** Entries *)

Definition GenesisPrevHash : string := "0000000000000000000000000000000000000000000000000000000000000000".
Definition FirstSeq : Z := 1.
Definition canonicalVersion : string := "purser.audit.v1".

(** A nil [Details] map reads, and encodes, as the empty one. *)
Record Entry : Type := mkEntry {
  Seq : Z; TimeUnixNano : Z; Actor : string; Action : string; Target : string; Details : gmap string string;
  PrevHash : string; Hash : string }.

(** The [Details], in the order of their keys. *)
Definition sortedDetails (d : gmap string string) : list (string * string) :=
  go_sort (fun a b => String.ltb (fst a) (fst b)) (map_to_list d).

Fixpoint writeDetails (l : list (string * string)) : string :=
  match l with
  | [] => ""
  | (k, v) :: l => writeBytesField k +:+ writeBytesField v +:+ writeDetails l
  end.

Definition CanonicalBytes (e : Entry) : string :=
  writeBytesField canonicalVersion +:+ writeUvarint (Seq e) +:+ writeVarint (TimeUnixNano e) +:+
  writeBytesField (Actor e) +:+ writeBytesField (Action e) +:+ writeBytesField (Target e) +:+
  writeUvarint (Z.of_nat (length (sortedDetails (Details e))) mod 2 ^ 64) +:+ writeDetails (sortedDetails (Details e)).

Inductive VerifyKind : Set := KindSeq | KindLink | KindHash.
Record VerifyError : Type := mkVerifyError { VE_Index : nat; VE_Seq : Z; VE_Kind : VerifyKind }.

Inductive AppendError : Set := ErrContext | ErrPrevHash | ErrNonContiguous | ErrUnlinked.

Section Chain.
Context (sha256 : string -> string).

Definition ComputeHash (e : Entry) : option string :=
  match hexDecode (PrevHash e) with
  | None => None
  | Some prev => Some (hexEncode (sha256 (prev +:+ CanonicalBytes e)))
  end.

(** [Verify] from index [i] with the preceding hash [prev]. *)
Fixpoint verifyFrom (i : nat) (prev : string) (entries : list Entry) : option VerifyError :=
  match entries with
  | [] => None
  | e :: entries =>
      if negb (Seq e =? (FirstSeq + Z.of_nat i) mod 2 ^ 64) then Some (mkVerifyError i (Seq e) KindSeq)
      else if negb (PrevHash e =? prev)%string then Some (mkVerifyError i (Seq e) KindLink)
      else match ComputeHash e with
           | None => Some (mkVerifyError i (Seq e) KindHash)
           | Some want =>
               if negb (Hash e =? want)%string then Some (mkVerifyError i (Seq e) KindHash)
               else verifyFrom (S i) (Hash e) entries
           end
  end.

Definition Verify (entries : list Entry) : option VerifyError := verifyFrom 0 GenesisPrevHash entries.

(** ** The store and the log: the [ctx] answers are polled in order. *)

Definition tailHash (entries : list Entry) : string :=
  match last entries with Some e => Hash e | None => GenesisPrevHash end.

Definition MemStore_Append (done : bool) (e : Entry) (entries : list Entry) : AppendError + (Entry * list Entry) :=
  if done then inl ErrContext
  else if negb (Seq e =? (FirstSeq + Z.of_nat (length entries)) mod 2 ^ 64) then inl ErrNonContiguous
  else if negb (PrevHash e =? tailHash entries)%string then inl ErrUnlinked
  else inr (e, entries ++ [e]).

Definition MemStore_Last (done : bool) (entries : list Entry) : AppendError + option Entry :=
  if done then inl ErrContext else inr (last entries).

Definition Log_Append (ctx : nat -> bool) (now : Z) (actor action target : string) (details : gmap string string)
    (entries : list Entry) : AppendError + (Entry * list Entry) :=
  if ctx 0%nat then inl ErrContext else
  match MemStore_Last (ctx 1%nat) entries with
  | inl e => inl e
  | inr l =>
      let '(seq, prev) := match l with
                          | Some e => ((Seq e + 1) mod 2 ^ 64, Hash e)
                          | None => (FirstSeq, GenesisPrevHash)
                          end in
      let e := mkEntry seq now actor action target details prev "" in
      match ComputeHash e with
      | None => inl ErrPrevHash
      | Some h => MemStore_Append (ctx 2%nat) (mkEntry seq now actor action target details prev h) entries
      end
  end.
End Chain.

(** ** Encodings are prefix-free *)

Lemma byteOf_inj a b : 0 <= a < 256 -> 0 <= b < 256 -> byteOf a = byteOf b -> a = b.
Proof.
  intros Ha Hb H. apply (f_equal N_of_ascii) in H. unfold byteOf in H.
  rewrite !N_ascii_embedding in H by (apply N2Z.inj_lt; rewrite Z2N.id; lia). lia.
Qed.

Lemma uvarintN_inj n : forall v v' r r', 0 <= v < 128 ^ Z.of_nat n -> 0 <= v' < 128 ^ Z.of_nat n ->
  uvarintN n v +:+ r = uvarintN n v' +:+ r' -> v = v' /\ r = r'.
Proof.
  induction n as [|n IH]; intros v v' r r' Hv Hv' H; [cbn in *; split; [lia|done]|].
  rewrite Nat2Z.inj_succ, Z.pow_succ_r in Hv, Hv' by lia. cbn [uvarintN] in H.
  assert (Hm : forall x, 0 <= x mod 128 < 128) by (intros x; apply Z.mod_pos_bound; lia).
  assert (Hd : forall x, 0 <= x < 128 * 128 ^ Z.of_nat n -> 0 <= x / 128 < 128 ^ Z.of_nat n).
  { intros x Hx. split; [apply Z.div_pos; lia|apply Z.div_lt_upper_bound; lia]. }
  pose proof (Hm v) as Hm1. pose proof (Hm v') as Hm2.
  destruct (Z.ltb_spec v 128), (Z.ltb_spec v' 128); cbn in H; injection H as E1 E2.
  - apply byteOf_inj in E1; [done|lia..].
  - apply byteOf_inj in E1; lia.
  - apply byteOf_inj in E1; lia.
  - apply byteOf_inj in E1; [|lia..]. apply IH in E2 as [E2 ->]; [|by apply Hd..]. split; [|done].
    rewrite (Z.div_mod v 128), (Z.div_mod v' 128) by lia. lia.
Qed.

Definition u64_range (v : Z) : Prop := 0 <= v < 2 ^ 64.

Lemma writeUvarint_inj v v' r r' : u64_range v -> u64_range v' ->
  writeUvarint v +:+ r = writeUvarint v' +:+ r' -> v = v' /\ r = r'.
Proof.
  intros Hv Hv'. assert (2 ^ 64 <= 128 ^ Z.of_nat 10) by (vm_compute; discriminate).
  apply uvarintN_inj; unfold u64_range in *; lia.
Qed.

Definition i64_range (x : Z) : Prop := - 2 ^ 63 <= x < 2 ^ 63.

Lemma zigzag_range x : u64_range (zigzag x).
Proof.
  unfold u64_range, zigzag. pose proof (Z.mod_pos_bound (2 * x) (2 ^ 64) ltac:(lia)). destruct (x <? 0); lia.
Qed.

Lemma zigzag_inj x y : i64_range x -> i64_range y -> zigzag x = zigzag y -> x = y.
Proof.
  unfold i64_range, zigzag. intros Hx Hy. change (2 ^ 64) with (2 * 2 ^ 63). rewrite !Zmult_mod_distr_l.
  assert (Hneg : forall z, - 2 ^ 63 <= z < 0 -> z mod 2 ^ 63 = z + 2 ^ 63 \/ z mod 2 ^ 63 = 0 /\ z = - 2 ^ 63).
  { intros z Hz. destruct (Z.eq_dec z (- 2 ^ 63)) as [->|]; [right; split; reflexivity|]. left.
    symmetry. apply (Z.mod_unique z (2 ^ 63) (-1)); lia. }
  destruct (Z.ltb_spec x 0), (Z.ltb_spec y 0); rewrite ?(Z.mod_small x), ?(Z.mod_small y) by lia;
    try (pose proof (Hneg x ltac:(lia))); try (pose proof (Hneg y ltac:(lia))); lia.
Qed.

(** Lengths of Go values fit in an [int]. *)
Definition len_ok (n : nat) : Prop := Z.of_nat n < 2 ^ 63.

Lemma writeBytesField_inj a b r r' : len_ok (String.length a) -> len_ok (String.length b) ->
  writeBytesField a +:+ r = writeBytesField b +:+ r' -> a = b /\ r = r'.
Proof.
  unfold len_ok, writeBytesField. intros Ha Hb H. rewrite !app_string_assoc in H.
  rewrite !Z.mod_small in H by lia. apply writeUvarint_inj in H as [Hl H]; [|unfold u64_range; lia..].
  apply app_string_inj; [lia|done].
Qed.

Definition pair_ok (p : string * string) : Prop := len_ok (String.length (fst p)) /\ len_ok (String.length (snd p)).

Lemma writeDetails_inj l l' : length l = length l' -> Forall pair_ok l -> Forall pair_ok l' ->
  writeDetails l = writeDetails l' -> l = l'.
Proof.
  revert l'. induction l as [|[k v] l IH]; intros [|[k' v'] l'] Hl H1 H2 H; try done. cbn [writeDetails] in H.
  inversion H1 as [|? ? [A1 A2] H1']; inversion H2 as [|? ? [B1 B2] H2']; subst. cbn in *.
  apply writeBytesField_inj in H as [-> H]; [|done..]. apply writeBytesField_inj in H as [-> H]; [|done..].
  f_equal. apply IH; auto.
Qed.

(** ** The canonical encoding determines the content *)

(** What a Go value of type [Entry] satisfies. *)
Record entry_ok (e : Entry) : Prop := {
  eo_seq : u64_range (Seq e);
  eo_time : i64_range (TimeUnixNano e);
  eo_actor : len_ok (String.length (Actor e));
  eo_action : len_ok (String.length (Action e));
  eo_target : len_ok (String.length (Target e));
  eo_size : len_ok (size (Details e));
  eo_details : map_Forall (fun k v => pair_ok (k, v)) (Details e) }.

Definition same_content (e e' : Entry) : Prop :=
  Seq e = Seq e' /\ TimeUnixNano e = TimeUnixNano e' /\ Actor e = Actor e' /\ Action e = Action e' /\
  Target e = Target e' /\ Details e = Details e'.

Lemma sortedDetails_length d : length (sortedDetails d) = size d.
Proof. unfold sortedDetails. by rewrite go_sort_length, length_map_to_list. Qed.

Lemma sortedDetails_ok d : map_Forall (fun k v => pair_ok (k, v)) d -> Forall pair_ok (sortedDetails d).
Proof.
  intros H. unfold sortedDetails. rewrite go_sort_perm, Forall_forall. intros [k v] Hin%elem_of_map_to_list.
  exact (H k v Hin).
Qed.

Lemma sortedDetails_inj d d' : sortedDetails d = sortedDetails d' -> d = d'.
Proof.
  intros H. apply map_to_list_inj. rewrite <- (go_sort_perm (fun a b => String.ltb (fst a) (fst b)) (map_to_list d)).
  rewrite <- (go_sort_perm (fun a b => String.ltb (fst a) (fst b)) (map_to_list d')). unfold sortedDetails in H. by rewrite H.
Qed.

Lemma canonical_content e e' : entry_ok e -> entry_ok e' -> CanonicalBytes e = CanonicalBytes e' -> same_content e e'.
Proof.
  intros [A1 A2 A3 A4 A5 A6 A7] [B1 B2 B3 B4 B5 B6 B7] H. unfold CanonicalBytes in H.
  apply app_string_inj in H as [_ H]; [|done]. apply writeUvarint_inj in H as [H1 H]; [|done..].
  apply writeUvarint_inj in H as [H2 H]; [|apply zigzag_range..]. apply zigzag_inj in H2; [|done..].
  apply writeBytesField_inj in H as [H3 H]; [|done..]. apply writeBytesField_inj in H as [H4 H]; [|done..].
  apply writeBytesField_inj in H as [H5 H]; [|done..]. rewrite !sortedDetails_length in H. unfold len_ok in A6, B6.
  rewrite !Z.mod_small in H by lia. apply writeUvarint_inj in H as [H6 H]; [|unfold u64_range; lia..].
  apply writeDetails_inj in H; [|rewrite !sortedDetails_length; lia|by apply sortedDetails_ok..].
  repeat split; auto. by apply sortedDetails_inj.
Qed.

(** ** Hexadecimal *)

(** The two digits of a byte decode to it. *)
Definition hexOk (c : ascii) : bool :=
  let v := Z.of_N (N_of_ascii c) in
  match fromHexChar (hexDigit (v / 16)), fromHexChar (hexDigit (v mod 16)) with
  | Some x, Some y => Ascii.eqb (byteOf (16 * x + y)) c
  | _, _ => false
  end.

Lemma hex_byte c :
  let v := Z.of_N (N_of_ascii c) in
  exists x y, fromHexChar (hexDigit (v / 16)) = Some x /\ fromHexChar (hexDigit (v mod 16)) = Some y /\
    byteOf (16 * x + y) = c.
Proof.
  intros v. assert (Hall : forallb (fun n => hexOk (ascii_of_nat n)) (seq 0 256) = true) by (vm_compute; reflexivity).
  rewrite forallb_forall in Hall. specialize (Hall (nat_of_ascii c)).
  rewrite in_seq, ascii_nat_embedding in Hall. pose proof (nat_ascii_bounded c). specialize (Hall ltac:(lia)).
  unfold hexOk in Hall. fold v in Hall. destruct (fromHexChar (hexDigit (v / 16))) as [x|]; [|done].
  destruct (fromHexChar (hexDigit (v mod 16))) as [y|]; [|done]. exists x, y. by apply Ascii.eqb_eq in Hall.
Qed.

Lemma hexDecode_encode s : hexDecode (hexEncode s) = Some s.
Proof.
  induction s as [|c s IH]; [done|]. cbn [hexEncode hexDecode]. destruct (hex_byte c) as (x & y & -> & -> & H).
  by rewrite IH, H.
Qed.

Lemma hexEncode_length s : String.length (hexEncode s) = (2 * String.length s)%nat.
Proof. induction s as [|c s IH]; [done|]. cbn. rewrite IH. lia. Qed.

Definition zeros32 : string := String.string_of_list_ascii (replicate 32 (ascii_of_N 0)).

Lemma Genesis_hex : GenesisPrevHash = hexEncode zeros32.
Proof. reflexivity. Qed.

Section ChainProofs.
Context (sha256 : string -> string) (sha256_length : forall x, String.length (sha256 x) = 32%nat).

(** The input of the digest that entry [e] carries. *)
Definition preimage (e : Entry) : string := default "" (hexDecode (PrevHash e)) +:+ CanonicalBytes e.

(** A stored hash: the digest of 32 bytes, in lower-case hexadecimal. *)
Definition digest_hex (h : string) : Prop := exists d, String.length d = 32%nat /\ h = hexEncode d.

Lemma ComputeHash_digest e h : digest_hex (PrevHash e) -> ComputeHash sha256 e = Some h ->
  h = hexEncode (sha256 (preimage e)) /\ digest_hex h.
Proof.
  intros (d & Hd & Hp) H. unfold ComputeHash, preimage in *. rewrite Hp, hexDecode_encode in *. injection H as <-.
  split; [done|]. eexists. split; [apply sha256_length|done].
Qed.

Lemma ComputeHash_some e : digest_hex (PrevHash e) -> exists h, ComputeHash sha256 e = Some h.
Proof. intros (d & _ & Hp). unfold ComputeHash. rewrite Hp, hexDecode_encode. eauto. Qed.

Lemma verifyFrom_cons i prev e es :
  verifyFrom sha256 i prev (e :: es) = None <->
  Seq e = (FirstSeq + Z.of_nat i) mod 2 ^ 64 /\ PrevHash e = prev /\ ComputeHash sha256 e = Some (Hash e) /\
  verifyFrom sha256 (S i) (Hash e) es = None.
Proof.
  cbn [verifyFrom]. destruct (Z.eqb_spec (Seq e) ((FirstSeq + Z.of_nat i) mod 2 ^ 64)); cbn [negb]; [|split; [done|tauto]].
  destruct (String.eqb_spec (PrevHash e) prev); cbn [negb]; [|split; [done|tauto]].
  destruct (ComputeHash sha256 e) as [h|]; [|split; [done|]; by intros (_ & _ & ? & _)].
  destruct (String.eqb_spec (Hash e) h) as [<-|Hn]; cbn [negb]; [tauto|]. split; [done|].
  intros (_ & _ & [= ->] & _). done.
Qed.

Lemma verifyFrom_snoc es : forall i prev e,
  verifyFrom sha256 i prev (es ++ [e]) = None <->
  verifyFrom sha256 i prev es = None /\ Seq e = (FirstSeq + Z.of_nat (i + length es)) mod 2 ^ 64 /\
  PrevHash e = match last es with Some l => Hash l | None => prev end /\ ComputeHash sha256 e = Some (Hash e).
Proof.
  induction es as [|x es IH]; intros i prev e; cbn [app].
  - rewrite verifyFrom_cons. cbn. rewrite Nat.add_0_r. tauto.
  - rewrite !verifyFrom_cons, IH. cbn [length]. rewrite <- Nat.add_succ_comm.
    assert (Hl : match last (x :: es) with Some l => Hash l | None => prev end =
                 match last es with Some l => Hash l | None => Hash x end).
    { rewrite last_cons. by destruct (last es). }
    rewrite Hl. tauto.
Qed.

(** The tail hash of a verified chain is a digest. *)
Lemma Verify_tail es : Verify sha256 es = None -> digest_hex (tailHash es).
Proof.
  induction es as [|e es IH] using rev_ind; intros H; [exists zeros32; split; reflexivity|].
  unfold Verify in *. apply verifyFrom_snoc in H as (H1 & _ & H3 & H4). unfold tailHash. rewrite last_snoc.
  eapply ComputeHash_digest in H4 as [_ H4]; [done|]. rewrite H3. exact (IH H1).
Qed.
End ChainProofs.

(** The log keeps its chain verifiable: an append to a chain that verifies, with a
    live context and fewer than [2^64 - 1] entries, succeeds, adds exactly one entry at
    the end, with the given content and the next sequence number, linked to the former
    tail, and the longer chain verifies again. *)
Theorem Log_Append_verifies (sha256 : string -> string) ctx now actor action target details es :
  (forall x, String.length (sha256 x) = 32%nat) -> Verify sha256 es = None -> Z.of_nat (length es) < 2 ^ 64 - 1 ->
  (forall k, ctx k = false) ->
  exists e, Log_Append sha256 ctx now actor action target details es = inr (e, es ++ [e]) /\
    Seq e = FirstSeq + Z.of_nat (length es) /\ PrevHash e = tailHash es /\
    same_content e (mkEntry (Seq e) now actor action target details "" "") /\ Verify sha256 (es ++ [e]) = None.
Proof.
  intros Hsha Hv Hn Hctx. pose proof (Verify_tail sha256 Hsha es Hv) as Ht.
  unfold Log_Append, MemStore_Last. rewrite !Hctx.
  assert (Hl : (match last es with Some e => ((Seq e + 1) mod 2 ^ 64, Hash e) | None => (FirstSeq, GenesisPrevHash) end) =
               (FirstSeq + Z.of_nat (length es), tailHash es)).
  { unfold tailHash. destruct es as [|x xs _] using rev_ind; [done|]. rewrite last_snoc.
    unfold Verify in Hv. apply verifyFrom_snoc in Hv as (_ & -> & _). rewrite length_app in Hn |- *. cbn [length] in *.
    unfold FirstSeq in *. rewrite (Z.mod_small (1 + _)), Z.mod_small by lia. f_equal. lia. }
  rewrite Hl. set (e0 := mkEntry _ _ _ _ _ _ _ "").
  destruct (ComputeHash_some sha256 e0 Ht) as (h & Eh). rewrite Eh.
  set (e := mkEntry _ _ _ _ _ _ _ h). exists e. unfold MemStore_Append.
  assert (Hseq : Seq e = (FirstSeq + Z.of_nat (length es)) mod 2 ^ 64) by (rewrite Z.mod_small; unfold FirstSeq; [done|lia]).
  rewrite (proj2 (Z.eqb_eq _ _) Hseq), (proj2 (String.eqb_eq (PrevHash e) (tailHash es)) eq_refl). cbn [negb].
  split; [done|]. split; [done|]. split; [done|]. split; [done|]. apply verifyFrom_snoc. split; [exact Hv|].
  split; [exact Hseq|]. split; [unfold e, tailHash; cbn; by destruct (last es)|exact Eh].
Qed.

(** (C9) The chain is tamper-evident against an anchored head: two chains that verify
    and end in the same hash are the same chain, entry by entry, including their
    lengths, provided SHA-256 does not collide on the inputs hashed in them, nor maps
    one of them to the 32 zero bytes that stand for the genesis. No
    change, insertion, deletion, truncation or reordering keeps the head. *)
Theorem Verify_tamper_evident (sha256 : string -> string) es es' :
  (forall x, String.length (sha256 x) = 32%nat) ->
  (forall e e', e ∈ es -> e' ∈ es' -> sha256 (preimage e) = sha256 (preimage e') -> preimage e = preimage e') ->
  (forall e d, e ∈ es ++ es' -> sha256 (preimage e) = d -> d ≠ zeros32) ->
  Forall entry_ok es -> Forall entry_ok es' ->
  Verify sha256 es = None -> Verify sha256 es' = None -> tailHash es = tailHash es' -> es = es'.
Proof.
  intros Hsha. revert es'. induction es as [|e es IH] using rev_ind; intros es' Hcol Hz Hok Hok' Hv Hv' Hh.
  - destruct es' as [|e' es' _] using rev_ind; [done|]. exfalso. pose proof (Verify_tail sha256 Hsha es') as Ht.
    apply verifyFrom_snoc in Hv' as (W1 & W2 & W3 & W4). unfold tailHash in Hh at 2. rewrite last_snoc in Hh.
    cbn in Hh. apply (ComputeHash_digest sha256 Hsha) in W4 as [W4 _]; [|rewrite W3; by apply Ht].
    apply (Hz e' (sha256 (preimage e'))); [set_solver|done|].
    rewrite <- Hh, Genesis_hex in W4. apply (f_equal hexDecode) in W4. rewrite !hexDecode_encode in W4. congruence.
  - destruct es' as [|e' es' _] using rev_ind.
    { exfalso. pose proof (Verify_tail sha256 Hsha es) as Ht.
      apply verifyFrom_snoc in Hv as (W1 & W2 & W3 & W4). unfold tailHash in Hh at 1. rewrite last_snoc in Hh.
      cbn in Hh. apply (ComputeHash_digest sha256 Hsha) in W4 as [W4 _]; [|rewrite W3; by apply Ht].
      apply (Hz e (sha256 (preimage e))); [set_solver|done|].
      rewrite Hh, Genesis_hex in W4. apply (f_equal hexDecode) in W4. rewrite !hexDecode_encode in W4. congruence. }
    pose proof (Verify_tail sha256 Hsha es) as Ht. pose proof (Verify_tail sha256 Hsha es') as Ht'.
    apply verifyFrom_snoc in Hv as (V1 & V2 & V3 & V4). apply verifyFrom_snoc in Hv' as (W1 & W2 & W3 & W4).
    apply Forall_app in Hok as [Hok He]. apply Forall_app in Hok' as [Hok' He'].
    apply Forall_inv in He, He'. unfold tailHash in Hh. rewrite !last_snoc in Hh.
    specialize (Ht V1). specialize (Ht' W1).
    apply (ComputeHash_digest sha256 Hsha) in V4 as [V4 _]; [|by rewrite V3].
    apply (ComputeHash_digest sha256 Hsha) in W4 as [W4 _]; [|by rewrite W3].
    assert (Hp : preimage e = preimage e').
    { apply Hcol; [set_solver..|]. rewrite <- Hh in W4. rewrite W4 in V4.
      apply (f_equal hexDecode) in V4. rewrite !hexDecode_encode in V4. congruence. }
    change (PrevHash e = tailHash es) in V3. change (PrevHash e' = tailHash es') in W3.
    assert (Hprev : tailHash es = tailHash es' /\ CanonicalBytes e = CanonicalBytes e').
    { unfold preimage in Hp. rewrite V3, W3 in Hp. destruct Ht as (d & Hd & Ed), Ht' as (d' & Hd' & Ed').
      rewrite Ed, Ed' in Hp |- *. rewrite !hexDecode_encode in Hp. cbn in Hp. apply app_string_inj in Hp as [-> Hp]; [done|lia]. }
    destruct Hprev as [Ht1 Hc]. apply canonical_content in Hc as (C1 & C2 & C3 & C4 & C5 & C6); [|done..].
    assert (Ees : es = es').
    { apply IH; auto; [intros; apply Hcol; set_solver|intros x d Hx; apply Hz; set_solver]. }
    subst es'. f_equal. f_equal. destruct e, e'. cbn in *. congruence.
Qed.

(** ** Witnesses: a chain of two entries under a checksum in place of SHA-256. *)

Fixpoint checksum (acc : Z) (s : string) : Z :=
  match s with EmptyString => acc | String c s => checksum ((31 * acc + Z.of_N (N_of_ascii c)) mod 251) s end.

Definition toyHash (s : string) : string :=
  String (byteOf (1 + checksum 0 s)) (String.string_of_list_ascii (replicate 31 "x"%char)).

Definition exEntry (seq : Z) (actor prev hash : string) : Entry :=
  mkEntry seq 1700000000 actor "node.delete" "n1" {[ "why" := "drain" ]} prev hash.

Definition exHashed (seq : Z) (actor prev : string) : Entry :=
  exEntry seq actor prev (default "" (ComputeHash toyHash (exEntry seq actor prev ""))).

Definition exFirst : Entry := exHashed 1 "alice" GenesisPrevHash.
Definition exChain : list Entry := [exFirst; exHashed 2 "bob" (Hash exFirst)].

(** The same chain, built by the log. *)
Definition exAppend (actor : string) (es : list Entry) : list Entry :=
  match Log_Append toyHash (fun _ => false) 1700000000 actor "node.delete" "n1" {[ "why" := "drain" ]} es with
  | inr (_, es) => es
  | inl _ => es
  end.

Definition exLogged : list Entry := exAppend "bob" (exAppend "alice" []).

Lemma Log_Append_verifies_witness :
  exists e, Log_Append toyHash (fun _ => false) 5 "carol" "key.revoke" "k9" ∅ exChain = inr (e, exChain ++ [e]) /\
    Verify toyHash (exChain ++ [e]) = None.
Proof.
  destruct (Log_Append_verifies toyHash (fun _ => false) 5 "carol" "key.revoke" "k9" ∅ exChain)
    as (e & H1 & _ & _ & _ & H2); [reflexivity|vm_compute; reflexivity|vm_compute; reflexivity|reflexivity|]. eauto.
Defined.

Lemma exEntry_ok seq actor prev hash : u64_range seq -> len_ok (String.length actor) -> entry_ok (exEntry seq actor prev hash).
Proof.
  intros Hs Ha. split; cbn [exEntry Seq TimeUnixNano Actor Action Target Details].
  - exact Hs.
  - unfold i64_range. lia.
  - exact Ha.
  - vm_compute; reflexivity.
  - vm_compute; reflexivity.
  - rewrite map_size_singleton. vm_compute; reflexivity.
  - intros k v H. apply lookup_singleton_Some in H as [<- <-]. split; vm_compute; reflexivity.
Qed.

Lemma exChain_ok : Forall entry_ok exChain.
Proof.
  apply Forall_cons_2; [|apply Forall_cons_2; [|apply Forall_nil_2]]; apply exEntry_ok;
    first [unfold u64_range; lia|vm_compute; reflexivity].
Qed.

Lemma toyHash_nonzero x : toyHash x ≠ zeros32.
Proof.
  intros H. apply (f_equal (fun s => match s with String _ (String c _) => c | _ => "x"%char end)) in H. discriminate H.
Qed.

Lemma exPreimages : forall e e', e ∈ exChain -> e' ∈ exChain ->
  toyHash (preimage e) = toyHash (preimage e') -> preimage e = preimage e'.
Proof.
  assert (Hne : String.eqb (toyHash (preimage exFirst)) (toyHash (preimage (exHashed 2 "bob" (Hash exFirst)))) = false)
    by (vm_compute; reflexivity).
  apply String.eqb_neq in Hne. unfold exChain. intros e e' He He'.
  apply elem_of_cons in He as [->|He]; apply elem_of_cons in He' as [->|He'];
    repeat match goal with H : _ ∈ [_] |- _ => apply list_elem_of_singleton in H as -> end; intros H; congruence.
Qed.

Lemma Verify_tamper_evident_witness : exChain = exLogged.
Proof.
  assert (E : exLogged = exChain) by (vm_compute; reflexivity).
  apply (Verify_tamper_evident toyHash exChain exLogged); rewrite ?E.
  - reflexivity.
  - exact exPreimages.
  - intros e d _ <-. apply toyHash_nonzero.
  - exact exChain_ok.
  - exact exChain_ok.
  - vm_compute; reflexivity.
  - vm_compute; reflexivity.
  - reflexivity.
Defined.
