(* ===== verification/Cluster.v ===== *)
(** * Cluster: the world the control plane acts on

    The control plane ([go/controlplane]) talks to a database, to the agents, to
    the gateway and to the clock. [World] holds what its calls change: the tables of
    the registry, the gateway's routing table and the log of the commands it has
    issued. What those services answer is an [Env]: a function of the number of the
    call, so that every schedule of faults, delays and replies is some [Env], and a
    theorem about an arbitrary [Env] holds under all of them.

    Operations are in the state monad [M]; a Go error result is an [Error] value in
    the result, as in the source, so that a caller that ignores an error is a
    definition that ignores it. *)
From S2P Require Import Prelude Float64 PlanTypes CostModel Fixtures Partition Ordering Planner Convert.
Open Scope Z_scope.

(** ** Errors

    [fmt.Errorf] with [%w] is [Wrap]; [errors.Is] looks through it. *)
Inductive Error : Type :=
| ErrNotFound
| ErrUnique
| ErrConflict
| ErrIO (what : string)
| ErrorString (msg : string)
| Wrap (msg : string) (e : Error)
| Join (es : list Error).

Fixpoint isNotFound (e : Error) : bool :=
  match e with
  | ErrNotFound => true
  | Wrap _ e => isNotFound e
  | Join es => existsb isNotFound es
  | _ => false
  end.

(** ** Time

    An instant is its count of nanoseconds from the Unix epoch; the zero [time.Time]
    is midnight of 1 January of year 1. [Sub] saturates at the ends of [int64]. *)
Definition Time : Type := Z.
Definition Duration : Type := Z.
Definition zeroTime : Time := - (62135596800 * 10 ^ 9).
Definition IsZero (t : Time) : bool := t =? zeroTime.
Definition Second : Duration := 10 ^ 9.
Definition Minute : Duration := 60 * Second.
Definition Sub (t u : Time) : Duration := Z.max (- 2 ^ 63) (Z.min (2 ^ 63 - 1) (t - u)).

Lemma Sub_ge t u d : d <= 2 ^ 63 - 1 -> d <= Sub t u -> - 2 ^ 63 < d -> u + d <= t.
Proof. unfold Sub. lia. Qed.

Lemma Sub_lt t u d : - 2 ^ 63 < d <= 2 ^ 63 - 1 -> (Sub t u < d <-> t - u < d).
Proof. unfold Sub. lia. Qed.

(** ** Rows of the registry ([registry/types.go]) and the orchestrator's detail *)

Record EngineRef : Type := mkEngineRef {
  ER_NodeID : string; ER_AgentAddr : string; ER_Role : string; ER_Handle : string }.

Record DeploymentDetail : Type := mkDetail {
  DD_ModelID : string; DD_Quantization : string; DD_HostNodeID : string; DD_Endpoint : string;
  DD_Engines : list EngineRef; DD_FailoverPlanID : string; DD_Error : string }.

Definition DeploymentDetail_zero : DeploymentDetail := mkDetail "" "" "" "" [] "" "".

Module Row.
Record Node : Type := mkNode {
  ID : string; Hostname : string; OS : string; Arch : string; RAMGB : float64; VRAMGB : float64;
  State : string; AdvertisedAgentAddr : string; AdvertisedInferenceAddr : string; LastSeen : Time;
  HardwareProfile : string; CreatedAt : Time; UpdatedAt : Time }.

Record Model : Type := mkModel {
  MID : string; Family : string; Architecture : string; ParamsTotalB : float64; Engine : string;
  Type_ : string; Spec : string; Source : string; MCreatedAt : Time; MUpdatedAt : Time }.

(** [Plan] is the JSON blob of a [DeploymentPlan]: the message it decodes to, or
    [None] when [protojson] cannot decode it. *)
Record Plan : Type := mkPlan {
  PID : string; PModelID : string; PQuantization : string; PCost : float64;
  PPlan : option Proto.DeploymentPlan; PCreatedAt : Time }.

(** [Detail] is the JSON blob of a [DeploymentDetail], [None] when it is empty or
    cannot be decoded. *)
Record Deployment : Type := mkDeployment {
  DID : string; DModelID : string; DPlanID : string; DState : string;
  DDetail : option DeploymentDetail; DCreatedAt : Time; DUpdatedAt : Time }.

(** What the caller of [AppendAudit] fills in. [Details] lists the members of the JSON
    object with their values as [detailsToMap] reads them. *)
Record AuditEntry : Type := mkAuditEntry {
  Actor : string; Action : string; Target : string; Details : list (string * string); ACreatedAt : Time }.

(** The row of [audit_log]: the entry and the columns of the chain; [seq] is [NULL] in a
    row from before the chain. *)
Record AuditRow : Type := mkAuditRow {
  AREntry : AuditEntry; ARSeq : option Z; ARPrevHash : string; ARHash : string }.

Record Link : Type := mkLink {
  LFromNode : string; LToNode : string; LBandwidthGBs : float64; LRTTMs : float64; LMeasuredAt : Time }.

Record Cert : Type := mkCert {
  CSerial : string; CSubject : string; CRole : string; CPEM : string; CNotBefore : Time; CNotAfter : Time;
  CState : string; CCreatedAt : Time }.

(** ** Rows of the tenancy tables *)

Record Organization : Type := mkOrganization {
  OID : string; OName : string; OSlug : string; ODescription : string; OCreatedAt : Time; OUpdatedAt : Time }.

Record Team : Type := mkTeam {
  TID : string; TOrgID : string; TName : string; TSlug : string; TDescription : string;
  TCreatedAt : Time; TUpdatedAt : Time }.

Record PlatformUser : Type := mkPlatformUser {
  UID : string; UEmail : string; UDisplayName : string; UAuthMethod : string; UCreatedAt : Time;
  ULastSeenAt : option Time }.

(** The aliases [UserID] and [CreatedAt] of the Go structs hold the same values. *)
Record OrgMember : Type := mkOrgMember {
  OMOrgID : string; OMUserSub : string; OMRole : string; OMInvitedBy : string; OMJoinedAt : Time }.

Record TeamMember : Type := mkTeamMember {
  TMTeamID : string; TMUserSub : string; TMRoleID : string; TMInvitedBy : string; TMJoinedAt : Time }.

(** [ROrgID] is empty for a built-in role, whose column is [NULL]. *)
Record CustomRole : Type := mkCustomRole {
  RID : string; ROrgID : string; RName : string; RDescription : string; RPermissions : list string;
  RIsSystem : bool; RCreatedAt : Time; RUpdatedAt : Time }.

Record NodePool : Type := mkNodePool {
  NPID : string; NPName : string; NPDescription : string; NPOwnerType : string; NPOwnerID : string;
  NPPolicy : string; NPCreatedAt : Time; NPUpdatedAt : Time }.

Record PoolTeamQuota : Type := mkPoolTeamQuota {
  PQPoolID : string; PQTeamID : string; PQMaxDeployments : Z; PQMaxGPUNodes : Z; PQPriority : Z;
  PQCreatedAt : Time; PQUpdatedAt : Time }.

Record SLOConfigRow : Type := mkSLOConfigRow {
  SLModelID : string; SLTTFTMs : Z; SLTBTMs : Z; SLTargetCompliance : float64; SLUpdatedAt : Time }.
(** ** Rows of the enterprise tables *)

(** A [NULL] [created_by] reads as the empty string. *)
Record APIKeyRow : Type := mkAPIKeyRow {
  AKID : string; AKName : string; AKKeyHash : string; AKTenant : string; AKRole : string; AKQuota : Z;
  AKEnabled : bool; AKCreatedAt : Time; AKUpdatedAt : Time; AKExpiresAt : option Time; AKLastUsedAt : option Time;
  AKPredecessorID : string; AKRotatedAt : option Time; AKScopes : list string; AKCreatedBy : string }.

Record APIKeyAccessEntry : Type := mkAPIKeyAccessEntry {
  AEAPIKeyID : string; AEKeyHash : string; AEMethod : string; AEPath : string; AEIPPrefix : string;
  AEUserAgent : string; AEStatusCode : Z; AERequestAt : Time }.

Record OIDCSessionRow : Type := mkOIDCSessionRow {
  OSTokenHash : string; OSSub : string; OSEmail : string; OSIDPIssuer : string; OSAuthMethod : string;
  OSCreatedAt : Time; OSExpiresAt : Time; OSRevoked : bool; OSRevokedAt : option Time; OSRefreshTokenEnc : string;
  OSAccessTokenExpiry : option Time }.

Record PKCEState : Type := mkPKCEState { PKVerifier : string; PKExpiresAt : Time }.

Record ServiceAccount : Type := mkServiceAccount {
  SAID : string; SAName : string; SATenant : string; SADescription : string; SARole : string; SAScopes : list string;
  SAClientID : string; SAClientSecretHash : string; SAEnabled : bool; SAExpiresAt : option Time;
  SALastUsedAt : option Time; SACreatedAt : Time; SAUpdatedAt : Time }.

Record UsageRow : Type := mkUsageRow {
  UGAPIKeyID : string; UGModelID : string; UGInputTokens : Z; UGOutputTokens : Z; UGRequestAt : Time }.

(** The handlers join the votes to an approval; the row has no column for them. *)
Record ApprovalVote : Type := mkApprovalVote {
  VID : Z; VApprovalID : Z; VReviewer : string; VVotedAt : Time; VVote : string; VNotes : string; VIPAddress : string }.

Record DeploymentApproval : Type := mkDeploymentApproval {
  APID : Z; APDeploymentID : string; APModelID : string; APRequester : string; APRequestedAt : Time;
  APStatus : string; APReviewer : string; APReviewedAt : option Time; APNotes : string;
  APRequiredApprovals : Z; APExpiresAt : option Time }.

(** [IEOffset] is the zone of the timestamp as seconds east of UTC: the column holds
    the instant in UTC, so a row has the offset 0. *)
Record InferenceEvent : Type := mkInferenceEvent {
  IERequestID : string; IEAPIKeyHash : string; IEModelID : string; IETenantID : string; IETimestamp : Time; IEOffset : Z;
  IEPromptTokens : Z; IECompletionTokens : Z; IEEndpoint : string; IEClientIPPrefix : string; IELatencyMs : float64;
  IEFinishReason : string; IEModelRevision : string; IEModelQuantization : string; IENodeID : string;
  IEInferenceEngine : string }.

(** A row of [inference_audit_log] with its chain fields. *)
Record InferenceRow : Type := mkInferenceRow {
  IRID : Z; IREvent : InferenceEvent; IRSeq : option Z; IRPrevHash : string; IRHash : string }.

Record GDPRErasureLog : Type := mkGDPRErasureLog {
  GESubjectHash : string; GEErasedAt : Time; GEErasedBy : string; GEReason : string; GEEventsErased : Z;
  GEErasureType : string }.

Record DataPlane : Type := mkDataPlane {
  DPID : string; DPName : string; DPDescription : string; DPTier : string; DPGatewayURL : string; DPStatus : string;
  DPJoinTokenHash : string; DPConfigSnapshot : string; DPLastHeartbeat : option Time; DPCreatedAt : Time;
  DPUpdatedAt : Time }.

Record Policy : Type := mkPolicy {
  PYID : Z; PYName : string; PYRego : string; PYEnabled : bool; PYCreatedAt : Time; PYUpdatedAt : Time }.

Record PlatformOrg : Type := mkPlatformOrg {
  POID : string; POName : string; PODescription : string; POCreatedAt : Time; POUpdatedAt : Time }.

Record PlatformTeam : Type := mkPlatformTeam {
  PTID : string; PTOrgID : string; PTName : string; PTDescription : string; PTCreatedAt : Time; PTUpdatedAt : Time }.

Record PricingTier : Type := mkPricingTier { ThresholdTokens : Z; Multiplier : float64 }.

Record ModelPricing : Type := mkModelPricing {
  MPModelID : string; MPEffectiveFrom : Time; MPInputPricePer1K : float64; MPOutputPricePer1K : float64;
  MPTiers : list PricingTier }.

Record TenantQuota : Type := mkTenantQuota {
  TQTenantID : string; TQMonthlyRequests : Z; TQMaxConcurrent : Z; TQRequestsPerSec : float64; TQInputTPM : Z;
  TQOutputTPM : Z; TQMonthlyInputTokens : Z; TQMonthlyOutputTokens : Z; TQMonthlyCostBudget : float64;
  TQAlertAtPercent : Z; TQInheritFromParent : bool; TQUpdatedAt : Time }.

Record TenantQuotaUsage : Type := mkTenantQuotaUsage {
  TSTenantID : string; TSPeriodStart : Time; TSRequestsUsed : Z; TSInputTokensUsed : Z; TSOutputTokensUsed : Z;
  TSCostUsedUSD : float64; TSLastUpdated : Time }.
End Row.

(** The tables of [registry/platform_sqlite.go], by their primary keys. A node is in
    at most one pool. *)
Record PlatformTables : Type := mkPlatformTables {
  pt_orgs : gmap string Row.Organization;
  pt_teams : gmap string Row.Team;
  pt_users : gmap string Row.PlatformUser;
  pt_orgMembers : gmap (string * string) Row.OrgMember;
  pt_teamMembers : gmap (string * string) Row.TeamMember;
  pt_roles : gmap string Row.CustomRole;
  pt_pools : gmap string Row.NodePool;
  pt_poolMembers : gmap string string;
  pt_quotas : gmap (string * string) Row.PoolTeamQuota;
  pt_slo : gmap string Row.SLOConfigRow }.

Definition PlatformTables_empty : PlatformTables := mkPlatformTables ∅ ∅ ∅ ∅ ∅ ∅ ∅ ∅ ∅ ∅.

(** The tables of [enterprise_sqlite.go] and of the API keys, by their primary keys. *)
Record CredentialTables : Type := mkCredentialTables {
  ct_keys : gmap string Row.APIKeyRow;
  ct_keyAccess : list Row.APIKeyAccessEntry;
  ct_sessions : gmap string Row.OIDCSessionRow;
  ct_pkce : gmap string Row.PKCEState;
  ct_accounts : gmap string Row.ServiceAccount;
  ct_usage : list Row.UsageRow }.

(** The tables with an [AUTOINCREMENT] key, in the order of that key. *)
Record ReviewTables : Type := mkReviewTables {
  rt_approvals : list Row.DeploymentApproval;
  rt_votes : list Row.ApprovalVote }.

Record InferenceTables : Type := mkInferenceTables {
  it_events : list Row.InferenceRow;
  it_erasures : list Row.GDPRErasureLog }.

(** [lt_nodePlane] is the column [nodes.dataplane_id], absent for [NULL]. *)
Record PlaneTables : Type := mkPlaneTables {
  lt_planes : gmap string Row.DataPlane;
  lt_nodePlane : gmap string string;
  lt_policies : gmap string Row.Policy }.

(** The tables of the roles subsystem and of billing; a price and a usage row are keyed
    by the text of their time. *)
Record TenancyTables : Type := mkTenancyTables {
  yt_orgs : gmap string Row.PlatformOrg;
  yt_teams : gmap string Row.PlatformTeam;
  yt_pricing : gmap (string * string) Row.ModelPricing;
  yt_quotas : gmap string Row.TenantQuota;
  yt_usage : gmap (string * string) Row.TenantQuotaUsage }.

Record EnterpriseTables : Type := mkEnterpriseTables {
  et_credentials : CredentialTables;
  et_review : ReviewTables;
  et_inference : InferenceTables;
  et_planes : PlaneTables;
  et_tenancy : TenancyTables }.

Definition EnterpriseTables_empty : EnterpriseTables :=
  mkEnterpriseTables (mkCredentialTables ∅ [] ∅ ∅ ∅ []) (mkReviewTables [] []) (mkInferenceTables [] [])
    (mkPlaneTables ∅ ∅ ∅) (mkTenancyTables ∅ ∅ ∅ ∅ ∅).

Record Database : Type := mkDatabase {
  db_nodes : gmap string Row.Node;
  db_models : gmap string Row.Model;
  db_plans : gmap string Row.Plan;
  db_deployments : gmap string Row.Deployment;
  db_audit : list Row.AuditRow;
  db_links : gmap (string * string) Row.Link;
  db_certs : gmap string Row.Cert;
  db_platform : PlatformTables;
  db_enterprise : EnterpriseTables }.

(** ** The gateway and the agents *)

Record RouteUpdate : Type := mkRouteUpdate {
  RU_ModelID : string; RU_Endpoint : string; RU_DeploymentID : string; RU_Quantization : string;
  RU_State : string }.

Record StartEngineRequest : Type := mkStartEngineRequest {
  SE_ModelRef : string; SE_Role : Z; SE_LayerStart : Z; SE_LayerEnd : Z; SE_Peers : list string;
  SE_Quantization : string; SE_Draft : bool }.

Inductive EngineEventKind : Set := EventUnspecified | EventLoading | EventReady | EventError | EventMetrics.

(** One result of [stream.Recv()]. *)
Inductive Recv : Type :=
| RecvEvent (kind : EngineEventKind) (detail : string)
| RecvEOF
| RecvErr (e : Error).

(** One HTTP exchange with the gateway: the request is lost, the gateway applies it
    and the reply is lost, or the gateway replies. It applies a request exactly when
    it answers with a 2xx status. *)
Inductive Exchange : Type :=
| NotSent (e : Error)
| ReplyLost (e : Error)
| Reply (status : Z).

(** What becomes of a request whose URL ends in a model id that is not escaped: the URL
    does not parse, no route of the gateway matches its path, or the gateway serves it
    for the id it reads there. *)
Inductive Delivery : Type :=
| BadURL (e : Error)
| NoRoute
| Received (id : string).

(** Ids of letters, digits and [-._~:@], which stand for themselves in a path segment. *)
Definition plainChar (c : ascii) : bool :=
  let n := N_of_ascii c in
  (((48 <=? n) && (n <=? 58)) || ((64 <=? n) && (n <=? 90)) || ((97 <=? n) && (n <=? 122)) ||
   (n =? 45) || (n =? 46) || (n =? 95) || (n =? 126))%N.

Definition plainID (id : string) : bool :=
  negb (id =? "")%string && forallb plainChar (String.list_ascii_of_string id).

(** The commands the control plane issues, with the answers it waited for. *)
Inductive Command : Type :=
| CStart (addr : string) (req : StartEngineRequest) (r : Error + string)
| CStop (addr handle : string) (r : option Error)
| CUpsert (u : RouteUpdate)
| CDelete (modelID : string)
| CWebhook (eventType deploymentID nodeID : string).

Record World : Type := mkWorld {
  w_tick : nat;
  w_db : Database;
  w_routes : gmap string RouteUpdate;
  w_trace : list Command }.

(** ** The environment *)

Class Env : Type := {
  (** [StartEngine] at call [t]: the RPC's error, or what [Recv] returns before the
      step's deadline; when the list runs out the deadline passes. *)
  env_start : nat -> string -> StartEngineRequest -> Error + list Recv;
  env_stop : nat -> string -> string -> option Error;
  env_http : nat -> Exchange;
  (** Whether the context is done while a retry waits. *)
  env_done : nat -> option Error;
  env_db : nat -> option Error;
  env_now : nat -> Time;
  (** [hex.EncodeToString] of fresh random bytes. *)
  env_rand : nat -> string;
  (** The order in which Go ranges over a map and in which the database returns
      rows whose sort keys do not decide it. *)
  env_order : forall A : Type, nat -> list A -> list A;
  (** [net/url] and the gateway's router, on an id in the path. *)
  env_path : string -> Delivery;
  (** [sha256.Sum256], the raw digest. *)
  env_sha256 : string -> string }.

Class EnvLaws (E : Env) : Prop := {
  env_order_perm : forall A t (l : list A), env_order A t l ≡ₚ l }.

(** A plain id in the path is received as it is. *)
Class PathLaws (E : Env) : Prop := {
  env_path_plain : forall id, plainID id = true -> env_path id = Received id }.

(** A database that never fails. *)
Class HealthyDB (E : Env) : Prop := { env_db_healthy : forall t, env_db t = None }.

(** A gateway that serves every request. *)
Class HealthyGateway (E : Env) : Prop := { env_http_healthy : forall t, env_http t = Reply 200 }.

(** ** The monad *)

Definition M (A : Type) : Type := World -> A * World.

Definition cret {A} (a : A) : M A := fun w => (a, w).
Definition cbind {A B} (m : M A) (k : A -> M B) : M B := fun w => let (a, w') := m w in k a w'.

Declare Scope cluster_scope.
Delimit Scope cluster_scope with cluster.
Notation "'let*' x ':=' m 'in' k" := (cbind m (fun x => k))
  (at level 200, x pattern, m at level 100, k at level 200) : cluster_scope.
Notation "m ';;;' k" := (cbind m (fun _ => k)) (at level 199, right associativity) : cluster_scope.
Open Scope cluster_scope.

(** Calls are numbered. *)
Definition next : M nat := fun w => (w_tick w, mkWorld (S (w_tick w)) (w_db w) (w_routes w) (w_trace w)).
Definition get_db : M Database := fun w => (w_db w, w).
Definition put_db (db : Database) : M unit := fun w => ((), mkWorld (w_tick w) db (w_routes w) (w_trace w)).
Definition get_routes : M (gmap string RouteUpdate) := fun w => (w_routes w, w).
Definition put_routes (r : gmap string RouteUpdate) : M unit :=
  fun w => ((), mkWorld (w_tick w) (w_db w) r (w_trace w)).
Definition emit (c : Command) : M unit :=
  fun w => ((), mkWorld (w_tick w) (w_db w) (w_routes w) (w_trace w ++ [c])).

Lemma cbind_run {A B} (m : M A) (k : A -> M B) w : cbind m k w = k (fst (m w)) (snd (m w)).
Proof. unfold cbind. by destruct (m w). Qed.

Lemma cbind_inv {A B} (m : M A) (k : A -> M B) w b w' :
  cbind m k w = (b, w') -> exists a w1, m w = (a, w1) /\ k a w1 = (b, w').
Proof. unfold cbind. destruct (m w) as [a w1]. eauto. Qed.

(** Splits a run of a sequence of calls into its steps. *)
Ltac run_step H :=
  match type of H with
  | cbind _ _ _ = _ =>
      let a := fresh "r" in let w := fresh "w" in let H1 := fresh "Hrun" in
      apply cbind_inv in H as (a & w & H1 & H)
  end.

(** ** What a call may change

    [leaves P m]: running [m] keeps [P] between the worlds before and after. *)
Definition leaves {A} (R : World -> World -> Prop) (m : M A) : Prop := forall w, R w (snd (m w)).

Lemma leaves_ret {A} R (a : A) : Reflexive R -> leaves R (cret a).
Proof. intros HR w. apply HR. Qed.

Lemma leaves_bind {A B} R (m : M A) (k : A -> M B) :
  Transitive R -> leaves R m -> (forall a, leaves R (k a)) -> leaves R (cbind m k).
Proof. intros HT Hm Hk w. rewrite cbind_run. eapply HT; [apply Hm|apply Hk]. Qed.

(** The trace only grows, by commands that satisfy [P]. *)
Definition issues (P : Command -> Prop) (w w' : World) : Prop :=
  exists l, w_trace w' = w_trace w ++ l /\ Forall P l.

Global Instance issues_refl P : Reflexive (issues P).
Proof. intros w. exists []. by rewrite app_nil_r. Qed.

Global Instance issues_trans P : Transitive (issues P).
Proof.
  intros w1 w2 w3 (l1 & E1 & H1) (l2 & E2 & H2). exists (l1 ++ l2). rewrite E2, E1, app_assoc.
  split; [done|]. by apply Forall_app.
Qed.

(** Everything but the call counter and the gateway is as before. *)
Definition same_db (w w' : World) : Prop := w_db w' = w_db w.
Definition same_routes (w w' : World) : Prop := w_routes w' = w_routes w.
Definition same_trace (w w' : World) : Prop := w_trace w' = w_trace w.

Global Instance same_db_pre : PreOrder same_db.
Proof. split; unfold same_db; congruence. Qed.
Global Instance same_routes_pre : PreOrder same_routes.
Proof. split; unfold same_routes; congruence. Qed.
Global Instance same_trace_pre : PreOrder same_trace.
Proof. split; unfold same_trace; congruence. Qed.
