(* ===== verification/Timestamp.v ===== *)
(** * Timestamp: times as the registry stores them

    [registry/sqlite.go] keeps every [time.Time] as text in the layout
    [time.RFC3339Nano], in UTC: [fmtTime] and [parseTime] with the calendar behind
    them. [database/sql] and SQLite compare and sort that text, so the order of the
    texts is what [ORDER BY created_at] and [expires_at > ?] see. *)
From stdpp Require Import pretty.
From S2P Require Import Prelude Cluster.
Open Scope Z_scope.

(** ** The calendar

    The proleptic Gregorian calendar, in 400-year eras whose years begin in March;
    [civil] is the year, month and day of a day counted from 1 January 1970. *)

Definition yearOfEra (doe : Z) : Z := (doe - doe / 1460 + doe / 36524 - doe / 146096) / 365.
Definition dayOfYear (doe : Z) : Z := doe - (365 * yearOfEra doe + yearOfEra doe / 4 - yearOfEra doe / 100).
Definition marchMonth (doy : Z) : Z := (5 * doy + 2) / 153.

Definition civil (days : Z) : Z * Z * Z :=
  let z := days + 719468 in
  let era := z / 146097 in
  let doe := z mod 146097 in
  let doy := dayOfYear doe in
  let mp := marchMonth doy in
  let m := if mp <? 10 then mp + 3 else mp - 9 in
  let y := yearOfEra doe + era * 400 + (if m <=? 2 then 1 else 0) in
  (y, m, doy - (153 * mp + 2) / 5 + 1).

Definition daysOf (y m d : Z) : Z :=
  let y := if m <=? 2 then y - 1 else y in
  let mp := if m <=? 2 then m + 9 else m - 3 in
  let yoe := y mod 400 in
  y / 400 * 146097 + (yoe * 365 + yoe / 4 - yoe / 100 + ((153 * mp + 2) / 5 + d - 1)) - 719468.

Definition isLeap (y : Z) : bool := (y mod 4 =? 0) && (negb (y mod 100 =? 0) || (y mod 400 =? 0)).

Definition daysIn (m y : Z) : Z :=
  if m =? 2 then (if isLeap y then 29 else 28)
  else if (m =? 4) || (m =? 6) || (m =? 9) || (m =? 11) then 30 else 31.

(** ** Texts *)

Definition digit (n : Z) : ascii := Ascii.ascii_of_nat (48 + Z.to_nat n).

(** [n] in exactly [k] decimal digits. *)
Fixpoint digits (k : nat) (n : Z) : string :=
  match k with
  | O => ""
  | S k => String (digit (n / 10 ^ Z.of_nat k)) (digits k (n mod 10 ^ Z.of_nat k))
  end.

(** The [k] digits of a fraction without the zeros at the end. *)
Fixpoint fracDigits (k : nat) (n : Z) : string :=
  match k with
  | O => ""
  | S k => if n =? 0 then "" else String (digit (n / 10 ^ Z.of_nat k)) (fracDigits k (n mod 10 ^ Z.of_nat k))
  end.

Definition yearText (y : Z) : string :=
  let sign : string := (if (y <? 0)%Z then "-" else "")%string in
  let n : string := (if (Z.abs y <=? 9999)%Z then digits 4 (Z.abs y) else pretty (Z.abs y))%string in
  sign +:+ n.

Definition dayText (days : Z) : string :=
  let '(y, m, d) := civil days in yearText y +:+ "-" +:+ digits 2 m +:+ "-" +:+ digits 2 d.

Definition clockText (sod : Z) : string :=
  digits 2 (sod / 3600)%Z +:+ ":" +:+ digits 2 (sod / 60 mod 60)%Z +:+ ":" +:+ digits 2 (sod mod 60)%Z.

Definition fracText (ns : Z) : string := if ns =? 0 then "" else "." +:+ fracDigits 9 ns.

Definition fmtTime (t : Time) : string :=
  let sec := t / Second in
  dayText (sec / 86400)%Z +:+ "T" +:+ clockText (sec mod 86400)%Z +:+ fracText (t mod Second)%Z +:+ "Z".

(** ** Parsing: texts whose zone is [Z], the only one [fmtTime] writes. *)

Definition digitOf (c : ascii) : option Z :=
  let n := Z.of_nat (Ascii.nat_of_ascii c) - 48 in if (0 <=? n) && (n <=? 9) then Some n else None.

Fixpoint readDigits (k : nat) (acc : Z) (s : string) : option (Z * string) :=
  match k, s with
  | O, _ => Some (acc, s)
  | S k, String c s => match digitOf c with Some n => readDigits k (acc * 10 + n) s | None => None end
  | S _, EmptyString => None
  end.

Definition readChar (c : ascii) (s : string) : option string :=
  match s with String a s => if Ascii.eqb a c then Some s else None | EmptyString => None end.

(** The digits after the point, each worth a tenth of the one before it; digits
    beyond the ninth are worth nothing. *)
Fixpoint readFrac (unit acc : Z) (s : string) : Z * string :=
  match s with
  | String c s' => match digitOf c with Some n => readFrac (unit / 10) (acc + n * unit) s' | None => (acc, s) end
  | EmptyString => (acc, s)
  end.

Definition parseRFC3339 (s : string) : option Time :=
  '(y, s) ← readDigits 4 0 s; s ← readChar "-" s;
  '(m, s) ← readDigits 2 0 s; s ← readChar "-" s;
  '(d, s) ← readDigits 2 0 s; s ← readChar "T" s;
  '(hh, s) ← readDigits 2 0 s; s ← readChar ":" s;
  '(mm, s) ← readDigits 2 0 s; s ← readChar ":" s;
  '(ss, s) ← readDigits 2 0 s;
  '(ns, s) ← (match readChar "." s with
              | Some (String c _ as s) => match digitOf c with Some _ => Some (readFrac (10 ^ 8) 0 s) | None => None end
              | Some EmptyString => None
              | None => Some (0, s)
              end);
  s ← readChar "Z" s;
  if (s =? "")%string && (1 <=? m) && (m <=? 12) && (1 <=? d) && (d <=? daysIn m y) && (hh <? 24) && (mm <? 60) && (ss <? 60)
  then Some ((daysOf y m d * 86400 + hh * 3600 + mm * 60 + ss) * Second + ns) else None.

(** A [NULL], an empty text and a text that is no time read as the zero time. *)
Definition parseTime (s : option string) : Time :=
  match s with
  | None => zeroTime
  | Some s => if (s =? "")%string then zeroTime else default zeroTime (parseRFC3339 s)
  end.

(** [NULL] for the zero time. *)
Definition fmtNullTime (t : Time) : option string := if IsZero t then None else Some (fmtTime t).

(** The instants of the years 0 to 9999. *)
Definition fourDigitYear (t : Time) : Prop :=
  daysOf 0 1 1 * 86400 * Second <= t < daysOf 10000 1 1 * 86400 * Second.

(** ** The calendar is a bijection *)

Ltac zdiv := Z.to_euclidean_division_equations; lia.

Lemma yearOfEra_range doe : 0 <= doe < 146097 -> 0 <= yearOfEra doe <= 399.
Proof. unfold yearOfEra. intros. zdiv. Qed.

Lemma dayOfYear_range doe : 0 <= doe < 146097 -> 0 <= dayOfYear doe <= 365.
Proof. unfold dayOfYear, yearOfEra. intros. zdiv. Qed.

Lemma yearOfEra_mono a b : 0 <= a <= b -> b < 146097 -> yearOfEra a <= yearOfEra b.
Proof. unfold yearOfEra. intros. zdiv. Qed.

Lemma dayOfYear_leap doe : 0 <= doe < 146097 -> dayOfYear doe = 365 -> isLeap (yearOfEra doe + 1) = true.
Proof.
  intros Hd H. pose proof (yearOfEra_range _ Hd) as Hr.
  assert (Hdoe : doe = 365 * yearOfEra doe + yearOfEra doe / 4 - yearOfEra doe / 100 + 365) by (unfold dayOfYear in H; lia).
  remember (yearOfEra doe) as y eqn:Hy. unfold yearOfEra in Hy. rewrite Hdoe in Hy. unfold isLeap.
  destruct ((y + 1) mod 4 =? 0) eqn:E1, ((y + 1) mod 100 =? 0) eqn:E2, ((y + 1) mod 400 =? 0) eqn:E3; cbn;
    try reflexivity; exfalso; zdiv.
Qed.

Lemma marchMonth_range doy : 0 <= doy <= 365 -> 0 <= marchMonth doy <= 11.
Proof. unfold marchMonth. intros. zdiv. Qed.

(** The March-based year, month and day behind [civil]. *)
Lemma civil_fields days y m d :
  civil days = (y, m, d) ->
  exists doe era, days + 719468 = era * 146097 + doe /\ 0 <= doe < 146097 /\
    12 * y + m - 3 = 12 * (yearOfEra doe + era * 400) + marchMonth (dayOfYear doe) /\
    1 <= m <= 12 /\ (m <= 2 <-> 10 <= marchMonth (dayOfYear doe)) /\
    d = dayOfYear doe - (153 * marchMonth (dayOfYear doe) + 2) / 5 + 1.
Proof.
  unfold civil. set (z := days + 719468). intros H. exists (z mod 146097), (z / 146097).
  assert (Hz : 0 <= z mod 146097 < 146097) by (apply Z.mod_pos_bound; lia).
  pose proof (marchMonth_range _ (dayOfYear_range _ Hz)) as Hm.
  split; [rewrite Z.mul_comm; apply Z.div_mod; lia|]. split; [done|].
  destruct (Z.ltb_spec (marchMonth (dayOfYear (z mod 146097))) 10).
  - rewrite (proj2 (Z.leb_gt _ _)) in H by lia. injection H as <- <- <-. repeat split; try lia.
  - rewrite (proj2 (Z.leb_le _ _)) in H by lia. injection H as <- <- <-. repeat split; try lia.
Qed.

Lemma daysOf_civil days y m d : civil days = (y, m, d) -> daysOf y m d = days.
Proof.
  intros H. apply civil_fields in H as (doe & era & Hz & Hdoe & Hk & Hm & Hmp & ->).
  pose proof (yearOfEra_range _ Hdoe) as Hy. pose proof (dayOfYear_range _ Hdoe) as Hd.
  pose proof (marchMonth_range _ Hd) as Hmr.
  assert (Hdoy : dayOfYear doe = doe - (365 * yearOfEra doe + yearOfEra doe / 4 - yearOfEra doe / 100)) by done.
  unfold daysOf. set (yoe := yearOfEra doe) in *. set (mp := marchMonth (dayOfYear doe)) in *.
  assert (Hdiv : forall n, n = yoe + era * 400 -> n / 400 = era /\ n mod 400 = yoe) by (intros n ->; zdiv).
  destruct (Z.leb_spec m 2).
  - destruct (Hdiv (y - 1)) as [-> ->]; [lia|]. replace (m + 9) with mp by lia. lia.
  - destruct (Hdiv y) as [-> ->]; [lia|]. replace (m - 3) with mp by lia. lia.
Qed.

Lemma isLeap_shift y k : isLeap (y + k * 400) = isLeap y.
Proof.
  unfold isLeap. replace ((y + k * 400) mod 4) with (y mod 4) by zdiv.
  replace ((y + k * 400) mod 100) with (y mod 100) by zdiv. by rewrite Z.mod_add by lia.
Qed.

Lemma civil_valid days y m d : civil days = (y, m, d) -> 1 <= m <= 12 /\ 1 <= d <= daysIn m y.
Proof.
  intros H. apply civil_fields in H as (doe & era & Hz & Hdoe & Hk & Hm & Hmp & ->). split; [done|].
  pose proof (dayOfYear_range _ Hdoe) as Hd. pose proof (dayOfYear_leap _ Hdoe) as Hl.
  set (doy := dayOfYear doe) in *. set (mp := marchMonth doy) in *. pose proof (marchMonth_range _ Hd) as Hmr. fold mp in Hmr.
  assert (Hmp' : 153 * mp <= 5 * doy + 2 < 153 * mp + 153) by (unfold mp, marchMonth; zdiv).
  unfold daysIn. destruct (Z.eqb_spec m 2) as [->|Hm2].
  - assert (Hy : y = yearOfEra doe + 1 + era * 400) by lia. assert (mp = 11) by lia.
    replace (153 * mp + 2) with 1685 by lia. change (1685 / 5) with 337.
    destruct (isLeap y) eqn:El; [lia|]. rewrite Hy, isLeap_shift in El.
    assert (doy ≠ 365) by (intros Hx; rewrite Hl in El by done; done). lia.
  - assert (Hcase : mp = 0 \/ mp = 1 \/ mp = 2 \/ mp = 3 \/ mp = 4 \/ mp = 5 \/ mp = 6 \/ mp = 7 \/ mp = 8 \/ mp = 9 \/ mp = 10)
      by lia.
    repeat (destruct Hcase as [Hcase|Hcase]); rewrite Hcase in *;
      match goal with |- context [?a / 5] => let v := eval vm_compute in (a / 5) in change (a / 5) with v end;
      repeat (match goal with |- context [m =? ?k] => destruct (Z.eqb_spec m k) end); cbn; lia.
Qed.

(** ** Reading what was written *)

Lemma digitOf_digit n : 0 <= n <= 9 -> digitOf (digit n) = Some n.
Proof.
  intros H. assert (Hall : Forall (fun d => digitOf (digit d) = Some d) (seqZ 0 10)) by (apply (bool_decide_unpack _); reflexivity).
  rewrite Forall_forall in Hall. apply Hall. apply elem_of_seqZ. lia.
Qed.

(** The leading digit of a number below [10 ^ (k + 1)], and the rest. *)
Lemma lead_digit k n :
  0 <= n < 10 ^ Z.of_nat (S k) ->
  0 <= n / 10 ^ Z.of_nat k <= 9 /\ 0 <= n mod 10 ^ Z.of_nat k < 10 ^ Z.of_nat k /\
  n = n / 10 ^ Z.of_nat k * 10 ^ Z.of_nat k + n mod 10 ^ Z.of_nat k.
Proof.
  rewrite Nat2Z.inj_succ, Z.pow_succ_r by lia. intros H. assert (Hp : 0 < 10 ^ Z.of_nat k) by (apply Z.pow_pos_nonneg; lia).
  split; [split; [apply Z.div_pos; lia|]|split; [by apply Z.mod_pos_bound|]].
  - assert (n / 10 ^ Z.of_nat k < 10) by (apply Z.div_lt_upper_bound; lia). lia.
  - rewrite Z.mul_comm. apply Z.div_mod. lia.
Qed.

Lemma append_String c (s r : string) : String c s +:+ r = String c (s +:+ r).
Proof. done. Qed.

Lemma readDigits_digits k n acc s :
  0 <= n < 10 ^ Z.of_nat k -> readDigits k acc (digits k n +:+ s) = Some (acc * 10 ^ Z.of_nat k + n, s).
Proof.
  revert n acc. induction k as [|k IH]; intros n acc Hn.
  - change (10 ^ Z.of_nat 0) with 1 in *. cbn. do 2 f_equal. lia.
  - destruct (lead_digit k n Hn) as (Hd & Hr & He). cbn [digits]. rewrite append_String. cbn [readDigits].
    rewrite digitOf_digit, IH by done. do 2 f_equal. rewrite Nat2Z.inj_succ, Z.pow_succ_r by lia. lia.
Qed.

Lemma readFrac_fracDigits k n acc u s :
  (k ≠ 0%nat -> u = 10 ^ (Z.of_nat k - 1)) -> 0 <= n < 10 ^ Z.of_nat k ->
  readFrac u acc (fracDigits k n +:+ String "Z" s) = (acc + n, String "Z" s).
Proof.
  revert n acc u. induction k as [|k IH]; intros n acc u Hu Hn.
  - change (10 ^ Z.of_nat 0) with 1 in *. transitivity (acc, String "Z" s); [done|]. f_equal. lia.
  - cbn [fracDigits]. destruct (Z.eqb_spec n 0) as [->|Hz]; [by rewrite Z.add_0_r|].
    destruct (lead_digit k n Hn) as (Hd & Hr & He). rewrite append_String. cbn [readFrac]. rewrite digitOf_digit by done.
    assert (Hk : u = 10 ^ Z.of_nat k) by (rewrite Hu by done; f_equal; lia). rewrite IH; [|intros Hk0|done].
    + f_equal. rewrite Hk. lia.
    + rewrite Hk. replace (Z.of_nat k) with (Z.succ (Z.of_nat k - 1)) at 1 by lia.
      rewrite Z.pow_succ_r, Z.mul_comm, Z.div_mul by lia. done.
Qed.

Lemma fourDigitYear_year t y m d : fourDigitYear t -> civil (t / Second / 86400) = (y, m, d) -> 0 <= y <= 9999.
Proof.
  intros Ht H. assert (Hd : daysOf 0 1 1 <= t / Second / 86400 < daysOf 10000 1 1).
  { unfold fourDigitYear in Ht. revert Ht. set (a := daysOf 0 1 1). set (b := daysOf 10000 1 1). intros Ht.
    assert (a * 86400 <= t / Second < b * 86400) by (unfold Second in *; zdiv). zdiv. }
  change (daysOf 0 1 1) with (-719528) in Hd. change (daysOf 10000 1 1) with 2932897 in Hd.
  apply civil_fields in H as (doe & era & Hz & Hdoe & Hk & Hm & Hmp & ->).
  pose proof (yearOfEra_range _ Hdoe) as Hy. pose proof (dayOfYear_range _ Hdoe) as Hdy.
  pose proof (marchMonth_range _ Hdy) as Hmr.
  assert (Hend : era = 24 -> doe <= 146036) by lia. assert (Hstart : era = -1 -> 146037 <= doe) by lia.
  unfold yearOfEra, dayOfYear, yearOfEra, marchMonth in *. zdiv.
Qed.

Lemma yearText_four y : 0 <= y <= 9999 -> yearText y = digits 4 y.
Proof.
  intros H. unfold yearText. rewrite Z.abs_eq by lia. rewrite (proj2 (Z.ltb_ge _ _)) by lia.
  by rewrite (proj2 (Z.leb_le _ _)) by lia.
Qed.

Lemma string_app_assoc (a b c : string) : (a +:+ b) +:+ c = a +:+ b +:+ c.
Proof. induction a as [|x a IH]; [done|]. by rewrite !append_String, IH. Qed.

Lemma digits2 n : 0 <= n < 100 -> forall acc s, readDigits 2 acc (digits 2 n +:+ s) = Some (acc * 100 + n, s).
Proof. intros Hn acc s. by apply (readDigits_digits 2). Qed.

Lemma digits4 n s : 0 <= n <= 9999 -> readDigits 4 0 (digits 4 n +:+ s) = Some (n, s).
Proof. intros Hn. rewrite (readDigits_digits 4); [done|]. change (10 ^ Z.of_nat 4) with 10000. lia. Qed.

(** The time of day. *)
Lemma clock_fields sod : 0 <= sod < 86400 ->
  0 <= sod / 3600 < 24 /\ 0 <= sod / 60 mod 60 < 60 /\ 0 <= sod mod 60 < 60 /\
  sod = sod / 3600 * 3600 + sod / 60 mod 60 * 60 + sod mod 60.
Proof. intros. zdiv. Qed.

Lemma readChar_append c s : readChar c (String c "" +:+ s) = Some s.
Proof. rewrite append_String. cbn [readChar]. by rewrite Ascii.eqb_refl. Qed.

(** The fraction and the zone at the end of a text. *)
Lemma read_fraction ns : 0 <= ns < Second ->
  (match readChar "." (fracText ns +:+ "Z") with
   | Some (String c _ as s) => match digitOf c with Some _ => Some (readFrac (10 ^ 8) 0 s) | None => None end
   | Some EmptyString => None
   | None => Some (0, fracText ns +:+ "Z")
   end) = Some (ns, "Z"%string).
Proof.
  intros Hns. unfold fracText. destruct (Z.eqb_spec ns 0) as [->|Hz]; [done|].
  rewrite string_app_assoc, readChar_append.
  pose proof (readFrac_fracDigits 9 ns 0 (10 ^ 8) "" ltac:(done) Hns) as Hf.
  assert (Hh : exists c s, fracDigits 9 ns +:+ "Z" = String c s /\ digitOf c ≠ None).
  { assert (Hd : 0 <= ns / 10 ^ 8 <= 9) by (unfold Second in Hns; zdiv).
    exists (digit (ns / 10 ^ 8)), (fracDigits 8 (ns mod 10 ^ 8) +:+ "Z"). rewrite digitOf_digit by done. split; [|done].
    rewrite <- append_String. f_equal. cbn [fracDigits]. by rewrite (proj2 (Z.eqb_neq _ _)). }
  destruct Hh as (c & s & Hs & Hc). rewrite Hs in *. destruct (digitOf c); [|done]. by rewrite Hf.
Qed.

Lemma parse_fmtTime t : fourDigitYear t -> parseRFC3339 (fmtTime t) = Some t.
Proof.
  intros Ht. unfold fmtTime, dayText. destruct (civil (t / Second / 86400)) as [[y m] d] eqn:Hc.
  pose proof (fourDigitYear_year _ _ _ _ Ht Hc) as Hy. pose proof (civil_valid _ _ _ _ Hc) as [Hm Hd].
  assert (Hd' : d < 100) by (unfold daysIn in Hd; repeat case_match; lia).
  assert (Hs : 0 <= t / Second mod 86400 < 86400) by (apply Z.mod_pos_bound; lia).
  assert (Hns : 0 <= t mod Second < Second) by (apply Z.mod_pos_bound; unfold Second; lia).
  destruct (clock_fields _ Hs) as (Hh & Hmi & Hse & Hsum). rewrite yearText_four by done. unfold clockText, parseRFC3339.
  rewrite !string_app_assoc, digits4 by done. cbn [mbind option_bind]. rewrite readChar_append. cbn [mbind option_bind].
  rewrite digits2 by lia. cbn [mbind option_bind]. rewrite readChar_append. cbn [mbind option_bind].
  rewrite digits2 by lia. cbn [mbind option_bind]. rewrite readChar_append. cbn [mbind option_bind].
  rewrite digits2 by lia. cbn [mbind option_bind]. rewrite readChar_append. cbn [mbind option_bind].
  rewrite digits2 by lia. cbn [mbind option_bind]. rewrite readChar_append. cbn [mbind option_bind].
  rewrite digits2 by lia. cbn [mbind option_bind]. rewrite read_fraction by done. cbn [mbind option_bind].
  change (readChar "Z" "Z") with (Some ""%string). cbn [mbind option_bind]. rewrite !Z.mul_0_l, !Z.add_0_l.
  change ((""%string =? "")%string) with true. cbn [andb].
  repeat match goal with |- context [?a <=? ?b] => rewrite (proj2 (Z.leb_le a b)) by lia end.
  repeat match goal with |- context [?a <? ?b] => rewrite (proj2 (Z.ltb_lt a b)) by lia end. cbn [andb].
  rewrite (daysOf_civil _ _ _ _ Hc). f_equal.
  transitivity (t / Second * Second + t mod Second); [|rewrite Z.mul_comm; symmetry; apply Z.div_mod; unfold Second; lia].
  f_equal. f_equal. pose proof (Z.div_mod (t / Second) 86400 ltac:(lia)) as Hdm. lia.
Qed.

(** ** The order of the texts *)

Lemma compare_append (p q s r : string) :
  String.length p = String.length q ->
  String.compare (p +:+ s) (q +:+ r) = match String.compare p q with Eq => String.compare s r | c => c end.
Proof.
  revert q. induction p as [|a p IH]; intros [|b q] Hl; cbn in Hl; try done.
  rewrite !append_String. cbn. destruct (Ascii.compare a b); try done. apply IH. lia.
Qed.

Lemma compare_refl (s : string) : String.compare s s = Eq.
Proof. induction s as [|c s IH]; [done|]. cbn. unfold Ascii.compare. by rewrite N.compare_refl. Qed.

Lemma digits_length k n : String.length (digits k n) = k.
Proof. revert n. induction k as [|k IH]; intros n; cbn [digits String.length]; [done|]. by rewrite IH. Qed.

Lemma digit_compare a b : 0 <= a <= 9 -> 0 <= b <= 9 -> Ascii.compare (digit a) (digit b) = Z.compare a b.
Proof.
  intros Ha Hb. assert (Hca : a = 0 \/ a = 1 \/ a = 2 \/ a = 3 \/ a = 4 \/ a = 5 \/ a = 6 \/ a = 7 \/ a = 8 \/ a = 9) by lia.
  assert (Hcb : b = 0 \/ b = 1 \/ b = 2 \/ b = 3 \/ b = 4 \/ b = 5 \/ b = 6 \/ b = 7 \/ b = 8 \/ b = 9) by lia.
  repeat (destruct Hca as [->|Hca]); try subst; repeat (destruct Hcb as [->|Hcb]); try subst; reflexivity.
Qed.

Lemma digits_compare k a b :
  0 <= a < 10 ^ Z.of_nat k -> 0 <= b < 10 ^ Z.of_nat k -> String.compare (digits k a) (digits k b) = Z.compare a b.
Proof.
  revert a b. induction k as [|k IH]; intros a b Ha Hb.
  - change (10 ^ Z.of_nat 0) with 1 in *. assert (a = 0) as -> by lia. assert (b = 0) as -> by lia. done.
  - destruct (lead_digit k a Ha) as (Da & Ra & Ea). destruct (lead_digit k b Hb) as (Db & Rb & Eb).
    cbn [digits String.compare]. rewrite digit_compare, IH by done.
    set (p := 10 ^ Z.of_nat k) in *. rewrite Ea at 3. rewrite Eb at 3.
    destruct (Z.compare_spec (a / p) (b / p)) as [->|Hlt|Hgt]; symmetry.
    + destruct (Z.compare_spec (a mod p) (b mod p)); [apply Z.compare_eq_iff|apply Z.compare_lt_iff|apply Z.compare_gt_iff]; lia.
    + apply Z.compare_lt_iff. nia.
    + apply Z.compare_gt_iff. nia.
Qed.

(** Two days compare as their dates do. *)
Lemma civil_order a b ya ma da yb mb db :
  a < b -> civil a = (ya, ma, da) -> civil b = (yb, mb, db) ->
  ya < yb \/ ya = yb /\ (ma < mb \/ ma = mb /\ da < db).
Proof.
  intros Hab Ha Hb. pose proof (daysOf_civil _ _ _ _ Ha) as Ea. pose proof (daysOf_civil _ _ _ _ Hb) as Eb.
  apply civil_fields in Ha as (doa & ea & Za & Ra & Ka & Ma & _ & ->).
  apply civil_fields in Hb as (dob & eb & Zb & Rb & Kb & Mb & _ & ->).
  assert (Hk : 12 * ya + ma <= 12 * yb + mb).
  { pose proof (yearOfEra_range _ Ra). pose proof (yearOfEra_range _ Rb).
    pose proof (marchMonth_range _ (dayOfYear_range _ Ra)). pose proof (marchMonth_range _ (dayOfYear_range _ Rb)).
    assert (Hera : ea < eb \/ ea = eb /\ doa < dob) by lia. destruct Hera as [|[-> Hdo]]; [nia|].
    pose proof (yearOfEra_mono doa dob ltac:(lia) ltac:(lia)) as Hy.
    destruct (decide (yearOfEra doa = yearOfEra dob)) as [Heq|]; [|lia].
    assert (dayOfYear doa <= dayOfYear dob) by (unfold dayOfYear; rewrite Heq; lia).
    assert (marchMonth (dayOfYear doa) <= marchMonth (dayOfYear dob)) by (unfold marchMonth; apply Z.div_le_mono; lia). lia. }
  destruct (decide (ya = yb)) as [->|]; [right|left; lia]. split; [done|].
  destruct (decide (ma = mb)) as [->|]; [right|left; lia]. split; [done|].
  unfold daysOf in Ea, Eb. lia.
Qed.

(** The text up to the second. *)
Definition secondText (sec : Z) : string := dayText (sec / 86400)%Z +:+ "T" +:+ clockText (sec mod 86400)%Z.

Lemma fmtTime_split t : fmtTime t = secondText (t / Second) +:+ (fracText (t mod Second) +:+ "Z").
Proof. unfold fmtTime, secondText. by rewrite !string_app_assoc. Qed.

Lemma compare_field k a b s r :
  0 <= a < 10 ^ Z.of_nat k -> 0 <= b < 10 ^ Z.of_nat k ->
  String.compare (digits k a +:+ s) (digits k b +:+ r) = match a ?= b with Eq => String.compare s r | c => c end.
Proof. intros Ha Hb. rewrite compare_append by (by rewrite !digits_length). by rewrite digits_compare. Qed.

Lemma compare_mark (c : ascii) (s r : string) :
  String.compare (String c "" +:+ s) (String c "" +:+ r) = String.compare s r.
Proof. rewrite !append_String. cbn. unfold Ascii.compare. by rewrite N.compare_refl. Qed.

(** Two clocks compare as the seconds of the day. *)
Lemma clockText_compare a b s r :
  0 <= a < 86400 -> 0 <= b < 86400 -> a < b -> String.compare (clockText a +:+ s) (clockText b +:+ r) = Lt.
Proof.
  intros Ha Hb Hab. unfold clockText. rewrite !string_app_assoc.
  destruct (clock_fields _ Ha) as (? & ? & ? & Ea). destruct (clock_fields _ Hb) as (? & ? & ? & Eb).
  rewrite (compare_field 2), compare_mark, (compare_field 2), compare_mark, (compare_field 2)
    by (change (10 ^ Z.of_nat 2) with 100; lia).
  destruct (Z.compare_spec (a / 3600) (b / 3600)) as [E1|E1|E1]; [|done|lia].
  destruct (Z.compare_spec (a / 60 mod 60) (b / 60 mod 60)) as [E2|E2|E2]; [|done|lia].
  destruct (Z.compare_spec (a mod 60) (b mod 60)) as [E3|E3|E3]; [lia|done|lia].
Qed.

Lemma dayText_compare a b ya ma da yb mb db s r :
  a < b -> civil a = (ya, ma, da) -> civil b = (yb, mb, db) -> 0 <= ya <= 9999 -> 0 <= yb <= 9999 ->
  String.compare (dayText a +:+ s) (dayText b +:+ r) = Lt.
Proof.
  intros Hab Ha Hb Hya Hyb. unfold dayText. rewrite Ha, Hb. rewrite !yearText_four by done. rewrite !string_app_assoc.
  pose proof (civil_order _ _ _ _ _ _ _ _ Hab Ha Hb) as Hord.
  apply civil_valid in Ha as [? Hda]. apply civil_valid in Hb as [? Hdb].
  assert (da < 100 /\ db < 100) by (unfold daysIn in Hda, Hdb; repeat case_match; lia).
  rewrite (compare_field 4) by (change (10 ^ Z.of_nat 4) with 10000; lia).
  rewrite compare_mark, (compare_field 2), compare_mark, (compare_field 2) by (change (10 ^ Z.of_nat 2) with 100; lia).
  destruct (Z.compare_spec ya yb) as [E1|E1|E1]; [|done|lia].
  destruct (Z.compare_spec ma mb) as [E2|E2|E2]; [|done|lia].
  destruct (Z.compare_spec da db) as [E3|E3|E3]; [lia|done|lia].
Qed.

Lemma fmtTime_compare t u :
  fourDigitYear t -> fourDigitYear u -> t / Second < u / Second -> String.compare (fmtTime t) (fmtTime u) = Lt.
Proof.
  intros Ht Hu Htu. unfold fmtTime.
  assert (Hs : forall x, 0 <= x mod 86400 < 86400) by (intros; apply Z.mod_pos_bound; lia).
  destruct (decide (t / Second / 86400 = u / Second / 86400)) as [Hd|Hd].
  - rewrite Hd, compare_append by done. rewrite compare_refl, compare_mark. apply clockText_compare; [done..|]. zdiv.
  - destruct (civil (t / Second / 86400)) as [[ya ma] da] eqn:Ha. destruct (civil (u / Second / 86400)) as [[yb mb] db] eqn:Hb.
    apply (dayText_compare _ _ ya ma da yb mb db); [zdiv|done|done|exact (fourDigitYear_year _ _ _ _ Ht Ha)|exact (fourDigitYear_year _ _ _ _ Hu Hb)].
Qed.

Lemma parseTime_stored t : fourDigitYear t -> parseTime (Some (fmtTime t)) = t.
Proof.
  intros Ht. pose proof (parse_fmtTime t Ht) as Hp. unfold parseTime. rewrite Hp. cbn.
  destruct (String.eqb_spec (fmtTime t) "") as [He|]; [by rewrite He in Hp|done].
Qed.

(** (C35) Every time of a year from 0 to 9999 is read back from the database exactly as
    it was written, to the nanosecond, and the texts sort as the times do whenever the
    times lie in different seconds: a row SQLite finds before another by
    [ORDER BY created_at] is not a second or more after it. *)
Theorem parseTime_fmtTime t u :
  fourDigitYear t -> fourDigitYear u ->
  parseTime (Some (fmtTime t)) = t /\
  (t / Second < u / Second -> String.ltb (fmtTime t) (fmtTime u) = true) /\
  (String.leb (fmtTime t) (fmtTime u) = true -> t / Second <= u / Second).
Proof.
  intros Ht Hu. split; [|split].
  - by apply parseTime_stored.
  - intros Hlt. unfold String.ltb. by rewrite fmtTime_compare.
  - unfold String.leb. intros Hle. destruct (Z.le_gt_cases (t / Second) (u / Second)) as [|Hgt]; [done|].
    rewrite String.compare_antisym, (fmtTime_compare u t) in Hle by (done || lia). done.
Qed.

Lemma parseTime_fmtTime_witness :
  fmtTime 1709211600500000000 = "2024-02-29T13:00:00.5Z"%string /\
  parseTime (Some (fmtTime 1709211600500000000)) = 1709211600500000000.
Proof.
  split; [vm_compute; reflexivity|].
  apply (parseTime_fmtTime 1709211600500000000 1709211601500000000); vm_compute; split; (reflexivity || discriminate).
Defined.

(** Within a second the texts do not sort as the times do: the zeros [RFC3339Nano]
    drops put [.5Z] after [.51Z]. *)
Example same_second_order :
  let t := 1709211600500000000 in let u := 1709211600510000000 in
  t < u /\ String.ltb (fmtTime u) (fmtTime t) = true.
Proof. split; [lia|vm_compute; reflexivity]. Qed.
