(* ===== verification/Registry.v ===== *)
(** * Registry: the tables of the control plane

    [go/controlplane/registry/sqlite.go]: the nodes, models, plans, deployments and
    audit rows. Each table is a map from its primary key; a statement is one
    numbered call, which the database may refuse. A [time.Time] is stored in UTC
    with nanoseconds and the zero time as [NULL], so it reads back as it was. *)
From S2P Require Import Prelude Float64 PlanTypes CostModel Fixtures Partition Ordering Planner Convert AuditChain Cluster.
Import Row.
Open Scope Z_scope.

Section Registry.
Context `{E : Env}.

(** ** Statements *)

Definition nowUTC : M Time := let* t := next in cret (env_now t).

(** A [SELECT]: the fault is wrapped, [k] decides the rest. *)
Definition query {A} (what : string) (k : Database -> Error + A) : M (Error + A) :=
  let* t := next in
  let* db := get_db in
  match env_db t with
  | Some e => cret (inl (Wrap what e))
  | None => cret (k db)
  end.

(** An [INSERT], [UPDATE] or [DELETE]: [inl] leaves the database as it was. *)
Definition exec (what : string) (k : Database -> Error + Database) : M (option Error) :=
  let* t := next in
  let* db := get_db in
  match env_db t with
  | Some e => cret (Some (Wrap what e))
  | None =>
      match k db with
      | inl e => cret (Some e)
      | inr db' => put_db db' ;;; cret None
      end
  end.

Definition jsonOrEmpty (b : string) : string := if (b =? "")%string then "{}"%string else b.

(** [INSERT] of a row whose key must be new. *)
Definition insertRow {A} (what : string) (tbl : gmap string A) (k : string) (row : A) : Error + gmap string A :=
  match tbl !! k with
  | Some _ => inl (Wrap what ErrUnique)
  | None => inr (<[k := row]> tbl)
  end.

(** [UPDATE ... WHERE id=?] and [mustAffect]: [f] is the row after the [SET]. *)
Definition updateRow {A} (tbl : gmap string A) (k : string) (f : A -> A) : Error + gmap string A :=
  match tbl !! k with
  | Some row => inr (<[k := f row]> tbl)
  | None => inl ErrNotFound
  end.

(** [DELETE ... WHERE id=?] and [mustAffect]. *)
Definition deleteRow {A} (tbl : gmap string A) (k : string) : Error + gmap string A :=
  match tbl !! k with
  | Some _ => inr (delete k tbl)
  | None => inl ErrNotFound
  end.

Definition getRow {A} (tbl : gmap string A) (k : string) : Error + A :=
  match tbl !! k with Some row => inr row | None => inl ErrNotFound end.

(** [SELECT ... ORDER BY id]. *)
Definition byKey {A} (key : A -> string) (tbl : gmap string A) : list A :=
  go_sort (fun a b => String.ltb (key a) (key b)) (map snd (map_to_list tbl)).

Definition result_map {A B} (f : A -> B) (r : Error + A) : Error + B :=
  match r with inl e => inl e | inr a => inr (f a) end.

(** ** Nodes *)

Definition with_nodes (db : Database) (t : gmap string Node) : Database :=
  mkDatabase t (db_models db) (db_plans db) (db_deployments db) (db_audit db)
    (db_links db) (db_certs db) (db_platform db) (db_enterprise db).

(** The node's [CreatedAt] and [UpdatedAt] are set in place. *)
Definition CreateNode (n : Node) : M (option Error) :=
  let* now := nowUTC in
  let created := if IsZero (CreatedAt n) then now else CreatedAt n in
  exec "registry: create node" (fun db =>
    result_map (with_nodes db)
      (insertRow "registry: create node" (db_nodes db) (ID n)
        (mkNode (ID n) (Hostname n) (OS n) (Arch n) (RAMGB n) (VRAMGB n) (State n) (AdvertisedAgentAddr n)
           (AdvertisedInferenceAddr n) (LastSeen n) (jsonOrEmpty (HardwareProfile n)) created now))).

Definition GetNode (id : string) : M (Error + Node) :=
  query "registry: get node" (fun db => getRow (db_nodes db) id).

Definition ListNodes : M (Error + list Node) :=
  query "registry: list nodes" (fun db => inr (byKey ID (db_nodes db))).

Definition UpdateNode (n : Node) : M (option Error) :=
  let* now := nowUTC in
  exec "registry: update node" (fun db =>
    result_map (with_nodes db)
      (updateRow (db_nodes db) (ID n) (fun row =>
        mkNode (ID row) (Hostname n) (OS n) (Arch n) (RAMGB n) (VRAMGB n) (State n) (AdvertisedAgentAddr n)
          (AdvertisedInferenceAddr n) (LastSeen n) (jsonOrEmpty (HardwareProfile n)) (CreatedAt row) now))).

Definition with_platform (db : Database) (t : PlatformTables) : Database :=
  mkDatabase (db_nodes db) (db_models db) (db_plans db) (db_deployments db) (db_audit db)
    (db_links db) (db_certs db) t (db_enterprise db).

Definition with_poolMembers (t : PlatformTables) (l : gmap string string) : PlatformTables :=
  mkPlatformTables (pt_orgs t) (pt_teams t) (pt_users t) (pt_orgMembers t) (pt_teamMembers t) (pt_roles t)
    (pt_pools t) l (pt_quotas t) (pt_slo t).

Definition with_enterprise (db : Database) (t : EnterpriseTables) : Database :=
  mkDatabase (db_nodes db) (db_models db) (db_plans db) (db_deployments db) (db_audit db)
    (db_links db) (db_certs db) (db_platform db) t.

Definition with_planes (t : EnterpriseTables) (l : PlaneTables) : EnterpriseTables :=
  mkEnterpriseTables (et_credentials t) (et_review t) (et_inference t) l (et_tenancy t).

Definition with_nodePlane (t : PlaneTables) (l : gmap string string) : PlaneTables :=
  mkPlaneTables (lt_planes t) l (lt_policies t).

(** The node's pool and data plane go with its row:
    [node_pool_members.node_id] refers to the node with [ON DELETE CASCADE], and
    [dataplane_id] is a column of the row. *)
Definition forgetNode (id : string) (db : Database) : Database :=
  let db := with_platform db (with_poolMembers (db_platform db) (delete id (pt_poolMembers (db_platform db)))) in
  let planes := et_planes (db_enterprise db) in
  with_enterprise db (with_planes (db_enterprise db) (with_nodePlane planes (delete id (lt_nodePlane planes)))).

Definition DeleteNode (id : string) : M (option Error) :=
  exec "registry: delete node" (fun db =>
    result_map (fun nodes => forgetNode id (with_nodes db nodes)) (deleteRow (db_nodes db) id)).

(** ** Models: the table has no column for [Type]. *)

Definition with_models (db : Database) (t : gmap string Model) : Database :=
  mkDatabase (db_nodes db) t (db_plans db) (db_deployments db) (db_audit db)
    (db_links db) (db_certs db) (db_platform db) (db_enterprise db).

Definition CreateModel (m : Model) : M (option Error) :=
  let* now := nowUTC in
  let created := if IsZero (MCreatedAt m) then now else MCreatedAt m in
  exec "registry: create model" (fun db =>
    result_map (with_models db)
      (insertRow "registry: create model" (db_models db) (MID m)
        (mkModel (MID m) (Family m) (Architecture m) (ParamsTotalB m) (Engine m) "" (jsonOrEmpty (Spec m))
           (jsonOrEmpty (Source m)) created now))).

Definition GetModel (id : string) : M (Error + Model) :=
  query "registry: get model" (fun db => getRow (db_models db) id).

Definition ListModels : M (Error + list Model) :=
  query "registry: list models" (fun db => inr (byKey MID (db_models db))).

Definition UpdateModel (m : Model) : M (option Error) :=
  let* now := nowUTC in
  exec "registry: update model" (fun db =>
    result_map (with_models db)
      (updateRow (db_models db) (MID m) (fun row =>
        mkModel (MID row) (Family m) (Architecture m) (ParamsTotalB m) (Engine m) (Type_ row)
          (jsonOrEmpty (Spec m)) (jsonOrEmpty (Source m)) (MCreatedAt row) now))).

Definition DeleteModel (id : string) : M (option Error) :=
  exec "registry: delete model" (fun db => result_map (with_models db) (deleteRow (db_models db) id)).

(** ** Plans *)

Definition with_plans (db : Database) (t : gmap string Plan) : Database :=
  mkDatabase (db_nodes db) (db_models db) t (db_deployments db) (db_audit db)
    (db_links db) (db_certs db) (db_platform db) (db_enterprise db).

Definition CreatePlan (p : Plan) : M (option Error) :=
  let* created := (if IsZero (PCreatedAt p) then nowUTC else cret (PCreatedAt p)) in
  exec "registry: create plan" (fun db =>
    result_map (with_plans db)
      (insertRow "registry: create plan" (db_plans db) (PID p)
        (mkPlan (PID p) (PModelID p) (PQuantization p) (PCost p) (PPlan p) created))).

Definition GetPlan (id : string) : M (Error + Plan) :=
  query "registry: get plan" (fun db => getRow (db_plans db) id).

(** [ORDER BY created_at] compares formatted times; the order is the
    environment's. *)
Definition ListPlans : M (Error + list Plan) :=
  let* t := next in
  query "registry: list plans" (fun db => inr (env_order Plan t (map snd (map_to_list (db_plans db))))).

Definition DeletePlan (id : string) : M (option Error) :=
  exec "registry: delete plan" (fun db => result_map (with_plans db) (deleteRow (db_plans db) id)).

(** ** Deployments *)

Definition with_deployments (db : Database) (t : gmap string Deployment) : Database :=
  mkDatabase (db_nodes db) (db_models db) (db_plans db) t (db_audit db)
    (db_links db) (db_certs db) (db_platform db) (db_enterprise db).

Definition CreateDeployment (d : Deployment) : M (option Error) :=
  let* now := nowUTC in
  let created := if IsZero (DCreatedAt d) then now else DCreatedAt d in
  exec "registry: create deployment" (fun db =>
    result_map (with_deployments db)
      (insertRow "registry: create deployment" (db_deployments db) (DID d)
        (mkDeployment (DID d) (DModelID d) (DPlanID d) (DState d) (DDetail d) created now))).

Definition GetDeployment (id : string) : M (Error + Deployment) :=
  query "registry: get deployment" (fun db => getRow (db_deployments db) id).

Definition ListDeployments : M (Error + list Deployment) :=
  let* t := next in
  query "registry: list deployments"
    (fun db => inr (env_order Deployment t (map snd (map_to_list (db_deployments db))))).

Definition UpdateDeployment (d : Deployment) : M (option Error) :=
  let* now := nowUTC in
  exec "registry: update deployment" (fun db =>
    result_map (with_deployments db)
      (updateRow (db_deployments db) (DID d) (fun row =>
        mkDeployment (DID row) (DModelID d) (DPlanID d) (DState d) (DDetail d) (DCreatedAt row) now))).

Definition DeleteDeployment (id : string) : M (option Error) :=
  exec "registry: delete deployment"
    (fun db => result_map (with_deployments db) (deleteRow (db_deployments db) id)).

(** ** Links *)

Definition with_links (db : Database) (t : gmap (string * string) Link) : Database :=
  mkDatabase (db_nodes db) (db_models db) (db_plans db) (db_deployments db) (db_audit db) t (db_certs db) (db_platform db) (db_enterprise db).

Definition UpsertLink (l : Link) : M (option Error) :=
  let* measured := (if IsZero (LMeasuredAt l) then nowUTC else cret (LMeasuredAt l)) in
  exec "registry: upsert link" (fun db =>
    inr (with_links db (<[(LFromNode l, LToNode l) :=
      mkLink (LFromNode l) (LToNode l) (LBandwidthGBs l) (LRTTMs l) measured]> (db_links db)))).

(** [ORDER BY from_node, to_node]. *)
Definition linkLess (a b : Link) : bool :=
  String.ltb (LFromNode a) (LFromNode b)
  || (LFromNode a =? LFromNode b)%string && String.ltb (LToNode a) (LToNode b).

Definition ListLinks : M (Error + list Link) :=
  query "registry: list links" (fun db => inr (go_sort linkLess (map snd (map_to_list (db_links db))))).

(** ** Certificates *)

Definition with_certs (db : Database) (t : gmap string Cert) : Database :=
  mkDatabase (db_nodes db) (db_models db) (db_plans db) (db_deployments db) (db_audit db) (db_links db) t (db_platform db) (db_enterprise db).

Definition CreateCert (c : Cert) : M (option Error) :=
  let* created := (if IsZero (CCreatedAt c) then nowUTC else cret (CCreatedAt c)) in
  let state := if (CState c =? "")%string then "issued"%string else CState c in
  exec "registry: create cert" (fun db =>
    result_map (with_certs db)
      (insertRow "registry: create cert" (db_certs db) (CSerial c)
        (mkCert (CSerial c) (CSubject c) (CRole c) (CPEM c) (CNotBefore c) (CNotAfter c) state created))).

Definition GetCert (serial : string) : M (Error + Cert) :=
  query "registry: get cert" (fun db => getRow (db_certs db) serial).

(** [ORDER BY created_at] compares formatted times; the order is the
    environment's. *)
Definition ListCerts : M (Error + list Cert) :=
  let* t := next in
  query "registry: list certs" (fun db => inr (env_order Cert t (map snd (map_to_list (db_certs db))))).

Definition UpdateCert (c : Cert) : M (option Error) :=
  exec "registry: update cert" (fun db =>
    result_map (with_certs db)
      (updateRow (db_certs db) (CSerial c) (fun row =>
        mkCert (CSerial row) (CSubject c) (CRole c) (CPEM c) (CNotBefore c) (CNotAfter c) (CState c) (CCreatedAt row)))).

Definition DeleteCert (serial : string) : M (option Error) :=
  exec "registry: delete cert" (fun db => result_map (with_certs db) (deleteRow (db_certs db) serial)).

(** ** Audit: one row at the end of the log, chained to the one before it *)

(** [CreatedAt.UnixNano()], an [int64]. *)
Definition UnixNano (t : Time) : Z := (t + 2 ^ 63) mod 2 ^ 64 - 2 ^ 63.

(** [ChainEntry]; [e.Seq] is a [uint64] and 0 for a row without one. *)
Definition ChainEntry (r : AuditRow) : AuditChain.Entry :=
  let e := AREntry r in
  AuditChain.mkEntry (default 0 (ARSeq r) mod 2 ^ 64) (UnixNano (ACreatedAt e)) (Actor e) (Action e) (Target e)
    (list_to_map (reverse (Details e))) (ARPrevHash r) (ARHash r).

(** [WHERE seq IS NOT NULL ORDER BY seq DESC LIMIT 1]. *)
Definition auditTail (rows : list AuditRow) : option (Z * string) :=
  fold_left (fun best r =>
    match ARSeq r, best with
    | None, _ => best
    | Some s, Some (s', _) => if s' <? s then Some (s, ARHash r) else best
    | Some s, None => Some (s, ARHash r)
    end) rows None.

Definition nextInChain (rows : list AuditRow) : Z * string :=
  match auditTail rows with
  | None => (FirstSeq, GenesisPrevHash)
  | Some (s, h) => ((s + 1) mod 2 ^ 64, h)
  end.

(** [int64(e.Seq)], the column. *)
Definition seqColumn (seq : Z) : Z := if seq <? 2 ^ 63 then seq else seq - 2 ^ 64.

(** The transaction: read the tail, hash, insert under the unique index on [seq]. *)
Definition chainAudit (e : AuditEntry) (rows : list AuditRow) : Error + list AuditRow :=
  let '(seq, prev) := nextInChain rows in
  match ComputeHash env_sha256 (ChainEntry (mkAuditRow e (Some seq) prev ""%string)) with
  | None => inl (Wrap "registry: append audit: hash" (ErrorString "invalid prev hash"))
  | Some h =>
      if existsb (fun r => bool_decide (ARSeq r = Some (seqColumn seq))) rows
      then inl (Wrap "registry: append audit" ErrUnique)
      else inr (rows ++ [mkAuditRow e (Some (seqColumn seq)) prev h])
  end.

Definition with_audit (db : Database) (l : list AuditRow) : Database :=
  mkDatabase (db_nodes db) (db_models db) (db_plans db) (db_deployments db) l
    (db_links db) (db_certs db) (db_platform db) (db_enterprise db).

Definition AppendAudit (e : AuditEntry) : M (option Error) :=
  let* created := (if IsZero (ACreatedAt e) then nowUTC else cret (ACreatedAt e)) in
  exec "registry: append audit" (fun db =>
    result_map (with_audit db)
      (chainAudit (mkAuditEntry (Actor e) (Action e) (Target e) (Details e) created) (db_audit db))).

(** ** What a statement does

    It touches neither the gateway nor the trace; an [exec] that reports no error
    has applied its change, and one that reports an error has changed nothing. *)

Definition outside_same (w w' : World) : Prop := w_routes w' = w_routes w /\ w_trace w' = w_trace w.

Lemma nowUTC_spec w t w' : nowUTC w = (t, w') -> w_db w' = w_db w /\ outside_same w w'.
Proof. intros [= <- <-]. done. Qed.

Lemma query_spec {A} what (k : Database -> Error + A) w r w' :
  query what k w = (r, w') ->
  w_db w' = w_db w /\ outside_same w w' /\
  match env_db (w_tick w) with Some e => r = inl (Wrap what e) | None => r = k (w_db w) end.
Proof.
  unfold query, cbind, next, get_db, cret. cbn. destruct (env_db (w_tick w)); intros [= <- <-]; done.
Qed.

Lemma exec_spec what k w r w' :
  exec what k w = (r, w') ->
  outside_same w w' /\
  match r with
  | None => k (w_db w) = inr (w_db w')
  | Some e => w_db w' = w_db w /\ (env_db (w_tick w) ≠ None \/ k (w_db w) = inl e)
  end.
Proof.
  unfold exec, cbind, next, get_db, put_db, cret. cbn.
  destruct (env_db (w_tick w)) eqn:Ed; [intros [= <- <-]; cbn; repeat split; by left|].
  destruct (k (w_db w)) as [e|db'] eqn:Ek; intros [= <- <-]; cbn; repeat split; auto.
Qed.

Lemma query_healthy {A} what (k : Database -> Error + A) w r w' :
  HealthyDB E -> query what k w = (r, w') -> r = k (w_db w).
Proof. intros [Hd] H. apply query_spec in H as (_ & _ & H). by rewrite Hd in H. Qed.

Lemma exec_healthy what k w r w' db :
  HealthyDB E -> exec what k w = (r, w') -> k (w_db w) = inr db -> r = None /\ w_db w' = db.
Proof.
  intros [Hd] H Hk. apply exec_spec in H as (_ & H). destruct r as [e|].
  - destruct H as (_ & [H|H]); [by rewrite Hd in H|congruence].
  - split; [done|]. congruence.
Qed.

(** The row of deployment [id]. *)
Definition deployment (w : World) (id : string) : option Deployment := db_deployments (w_db w) !! id.

(** Only the audit log and the row of deployment [id] may differ. *)
Definition only_deployment (id : string) (w w' : World) : Prop :=
  db_nodes (w_db w') = db_nodes (w_db w) /\ db_models (w_db w') = db_models (w_db w) /\
  db_plans (w_db w') = db_plans (w_db w) /\
  forall k, k ≠ id -> deployment w' k = deployment w k.

#[export] Instance only_deployment_pre id : PreOrder (only_deployment id).
Proof.
  split; [by intros w; repeat split|]. intros w1 w2 w3 (A1 & A2 & A3 & A4) (B1 & B2 & B3 & B4).
  repeat split; [congruence..|]. intros k Hk. rewrite B4, A4 by done. done.
Qed.

Lemma same_db_only id w w' : w_db w' = w_db w -> only_deployment id w w'.
Proof. intros H. unfold only_deployment, deployment. by rewrite H. Qed.

#[export] Instance outside_same_pre : PreOrder outside_same.
Proof. split; unfold outside_same; [done|]. intros ??? [] []. split; congruence. Qed.

Lemma CreateDeployment_spec d w r w' :
  CreateDeployment d w = (r, w') ->
  outside_same w w' /\ only_deployment (DID d) w w' /\
  match r with
  | None => deployment w (DID d) = None /\ exists created now,
      deployment w' (DID d) =
        Some (mkDeployment (DID d) (DModelID d) (DPlanID d) (DState d) (DDetail d) created now)
  | Some _ => w_db w' = w_db w
  end.
Proof.
  unfold CreateDeployment. intros H. run_step H. apply nowUTC_spec in Hrun as (Hdb & Ho).
  apply exec_spec in H as (Ho' & H). split; [by etrans|]. rewrite Hdb in H. destruct r as [e|].
  - destruct H as [H _]. split; [by apply same_db_only|done].
  - unfold insertRow in H. case_match; [done|]. cbn in H. injection H as H.
    unfold only_deployment, deployment. rewrite <- H. cbn. repeat split; [|done|].
    + intros k Hk. by rewrite lookup_insert_ne.
    + do 2 eexists. by rewrite lookup_insert_eq.
Qed.

Lemma UpdateDeployment_spec d w r w' :
  UpdateDeployment d w = (r, w') ->
  outside_same w w' /\ only_deployment (DID d) w w' /\
  match r with
  | None => exists row now, deployment w (DID d) = Some row /\
      deployment w' (DID d) = Some (mkDeployment (DID row) (DModelID d) (DPlanID d) (DState d) (DDetail d)
                                      (DCreatedAt row) now)
  | Some _ => w_db w' = w_db w /\ (HealthyDB E -> deployment w (DID d) = None)
  end.
Proof.
  unfold UpdateDeployment. intros H. run_step H. apply nowUTC_spec in Hrun as (Hdb & Ho).
  apply exec_spec in H as (Ho' & H). split; [by etrans|]. rewrite Hdb in H. unfold deployment.
  destruct r as [e|].
  - destruct H as [H Hk]. split; [by apply same_db_only|]. split; [done|]. intros [Hd].
    destruct Hk as [Hk|Hk]; [by rewrite Hd in Hk|]. unfold updateRow in Hk. by case_match.
  - unfold updateRow in H. case_match; [|done]. cbn in H. injection H as H.
    unfold only_deployment, deployment. rewrite <- H. cbn. repeat split.
    + intros k Hk. by rewrite lookup_insert_ne.
    + do 2 eexists. split; [done|]. by rewrite lookup_insert_eq.
Qed.

Lemma chainAudit_spec e rows rows' : chainAudit e rows = inr rows' ->
  exists r, rows' = rows ++ [r] /\ AREntry r = e.
Proof.
  unfold chainAudit. destruct (nextInChain rows) as [seq prev]. destruct (ComputeHash _ _); [|done].
  destruct (existsb _ _); [done|]. intros [= <-]. by eexists.
Qed.

(** Either nothing changed or one row was added to the log. *)
Lemma AppendAudit_log e w x w' : AppendAudit e w = (x, w') ->
  outside_same w w' /\
  exists log, w_db w' = with_audit (w_db w) log /\
    (log = db_audit (w_db w) \/
     exists r, log = db_audit (w_db w) ++ [r] /\ Action (AREntry r) = Action e /\ Target (AREntry r) = Target e).
Proof.
  unfold AppendAudit. intros H. run_step H.
  assert (Hn : w_db w0 = w_db w /\ outside_same w w0).
  { destruct (IsZero (ACreatedAt e)); [by apply nowUTC_spec in Hrun|]. by injection Hrun as <- <-. }
  destruct Hn as (Hdb & Ho). apply exec_spec in H as (Ho' & H). split; [by etrans|]. rewrite Hdb in H.
  destruct x; [exists (db_audit (w_db w)); destruct H as [-> _]; split; [by destruct (w_db w)|by left]|].
  destruct (chainAudit _ _) eqn:Hc; [done|]. injection H as <-. apply chainAudit_spec in Hc as (row & -> & He).
  eexists. split; [done|]. right. exists row. by rewrite He.
Qed.

Lemma AppendAudit_db e w r w' : AppendAudit e w = (r, w') -> exists l, w_db w' = with_audit (w_db w) l.
Proof. intros (_ & l & Hl & _)%AppendAudit_log. eauto. Qed.

Lemma AppendAudit_spec e w r w' :
  AppendAudit e w = (r, w') ->
  outside_same w w' /\ db_nodes (w_db w') = db_nodes (w_db w) /\ db_models (w_db w') = db_models (w_db w) /\
  db_plans (w_db w') = db_plans (w_db w) /\ db_deployments (w_db w') = db_deployments (w_db w).
Proof. intros (Ho & l & -> & _)%AppendAudit_log. done. Qed.

Lemma GetDeployment_spec id w r w' :
  GetDeployment id w = (r, w') ->
  w_db w' = w_db w /\ outside_same w w' /\
  match r with inr d => deployment w id = Some d | inl _ => HealthyDB E -> deployment w id = None end.
Proof.
  unfold GetDeployment. intros H. apply query_spec in H as (Hd & Ho & Hr). split; [done|]. split; [done|].
  unfold getRow, deployment in *. destruct r as [e|d].
  - intros [Hh]. rewrite Hh in Hr. by case_match.
  - destruct (env_db (w_tick w)); [done|]. case_match; congruence.
Qed.
End Registry.

(** A router that knows plain ids only. *)
Definition plainPath (id : string) : Delivery := if plainID id then Received id else NoRoute.

(** An environment in which nothing fails; the clock is the call counter. *)
Definition calmEnv : Env := {|
  env_start _ _ _ := inr []; env_stop _ _ _ := None; env_http _ := Reply 200; env_done _ := None; env_db _ := None;
  env_now t := Z.of_nat t; env_rand _ := "0a"%string; env_order _ _ l := l; env_path := plainPath;
  env_sha256 := toyHash |}.

#[export] Instance calmEnv_db : HealthyDB calmEnv.
Proof. by split. Qed.

#[export] Instance calmEnv_paths : PathLaws calmEnv.
Proof. split. intros id H. cbn. unfold plainPath. by rewrite H. Qed.

#[export] Instance calmEnv_laws : EnvLaws calmEnv.
Proof. by split. Qed.

Definition emptyDatabase : Database := mkDatabase ∅ ∅ ∅ ∅ [] ∅ ∅ PlatformTables_empty EnterpriseTables_empty.
Definition emptyWorld : World := mkWorld 0 emptyDatabase ∅ [].
