(* ===== verification/AuditLog.v ===== *)
(** * AuditLog: the administrative audit log of the registry

    [ListAudit] of [go/controlplane/registry/sqlite.go] and the endpoint that verifies the
    chain, [handleEnterpriseAuditLog] of [go/controlplane/server/server.go]. The rows are
    written by [AppendAudit] (Registry.v) and checked by [audit.Verify] (AuditChain.v):
    what the first writes, the second accepts. *)
From S2P Require Import Prelude Float64 AuditChain Cluster Registry.
Import Row.
Open Scope Z_scope.

Definition defaultAuditLimit : Z := 100.

Section AuditLog.
Context `{E : Env}.

(** [ORDER BY id DESC LIMIT ?]; the list is in the order of [id]. *)
Definition ListAudit (limit : Z) : M (Error + list AuditRow) :=
  let limit := if limit <=? 0 then 100 else limit in
  query "registry: list audit" (fun db => inr (take (Z.to_nat limit) (reverse (db_audit db)))).

(** [rows[i].Seq], a [uint64]; 0 for [NULL]. *)
Definition rowSeq (r : AuditRow) : Z := default 0 (ARSeq r) mod 2 ^ 64.

(** The rows of a page, oldest first, without those from before the chain. *)
Definition chainEntries (rows : list AuditRow) : list Entry :=
  map ChainEntry (List.filter (fun r => negb (rowSeq r <? FirstSeq)) (reverse rows)).

Inductive AuditAnswer : Type :=
| PaymentRequired
| ListFailed (e : Error)
| AuditLog (entries : list Entry) (verified : option VerifyError).

(** The [limit] of the query, when it parses. *)
Definition auditLimit (limitParam : option Z) : Z :=
  match limitParam with Some n => if 0 <? n then n else defaultAuditLimit | None => defaultAuditLimit end.

Definition handleEnterpriseAuditLog (licensed : bool) (limitParam : option Z) : M AuditAnswer :=
  if negb licensed then cret PaymentRequired
  else
    let* rows := ListAudit (auditLimit limitParam) in
    match rows with
    | inl e => cret (ListFailed e)
    | inr rows => let entries := chainEntries rows in cret (AuditLog entries (Verify env_sha256 entries))
    end.

(** Several appends, with whatever answers of the database. *)
Fixpoint appendAll (es : list AuditEntry) : M (list (option Error)) :=
  match es with
  | [] => cret []
  | e :: es => let* r := AppendAudit e in let* rs := appendAll es in cret (r :: rs)
  end.

(** ** The chain of the table *)

(** The positions of the rows of [new], a part of a chain whose first row has position [n]. *)
Definition numbered (n : Z) (new : list AuditRow) : Prop :=
  forall i r, new !! i = Some r -> ARSeq r = Some (n + Z.of_nat i).

Lemma numbered_filter n new : numbered n new -> 1 <= n -> n + Z.of_nat (length new) <= 2 ^ 63 ->
  List.filter (fun r => negb (rowSeq r <? FirstSeq)) new = new.
Proof.
  revert n. induction new as [|r new IH]; intros n Hn H1 H2; [done|]. cbn [length] in H2. cbn [List.filter].
  assert (Hr : rowSeq r = n).
  { unfold rowSeq. rewrite (Hn 0%nat r eq_refl). change (default 0 (Some ?x)) with x. rewrite Z.mod_small; lia. }
  rewrite Hr, (proj2 (Z.ltb_ge n FirstSeq)) by (unfold FirstSeq; lia). cbn [negb]. f_equal. apply (IH (n + 1)); [|lia..].
  intros i r' Hi. rewrite (Hn (S i) r' Hi). f_equal. lia.
Qed.

Lemma old_filter old : Forall (fun r => ARSeq r = None) old -> List.filter (fun r => negb (rowSeq r <? FirstSeq)) old = [].
Proof. induction 1 as [|r old Hr _ IH]; [done|]. cbn [List.filter]. unfold rowSeq at 1. by rewrite Hr, IH. Qed.

Lemma auditTail_snoc rows r : auditTail (rows ++ [r]) =
  match ARSeq r, auditTail rows with
  | None, t => t
  | Some s, Some (s', h) => if s' <? s then Some (s, ARHash r) else Some (s', h)
  | Some s, None => Some (s, ARHash r)
  end.
Proof. unfold auditTail. rewrite fold_left_app. cbn. repeat case_match; congruence. Qed.

(** The tail read by [AppendAudit] is the last row of the chain. *)
Lemma auditTail_split old new : Forall (fun r => ARSeq r = None) old -> numbered 1 new ->
  auditTail (old ++ new) = (fun r => (Z.of_nat (length new), ARHash r)) <$> last new.
Proof.
  intros Ho. induction new as [|r new IH] using rev_ind; intros Hn.
  - rewrite app_nil_r. cbn. unfold auditTail. induction Ho as [|r old Hr _ IH]; cbn; [done|]. rewrite Hr. apply IH. 
  - rewrite app_assoc, auditTail_snoc, last_snoc, length_app.
    rewrite (Hn (length new) r) by (by rewrite lookup_app_r, Nat.sub_diag by lia). rewrite IH.
    2:{ intros i r' Hi. apply Hn. rewrite lookup_app_l; [done|]. by eapply lookup_lt_Some. }
    destruct (last new) eqn:El; cbn.
    + rewrite (proj2 (Z.ltb_lt _ _)) by lia. f_equal. f_equal. lia.
    + apply last_None in El as ->. done.
Qed.

(** A table whose chained rows have the positions 1, 2, 3, ... behind the rows from
    before the chain, and verify. *)
Definition chainRows (old new : list AuditRow) (rows : list AuditRow) : Prop :=
  rows = old ++ new /\ Forall (fun r => ARSeq r = None) old /\ numbered 1 new /\
  Verify env_sha256 (map ChainEntry new) = None.

Lemma tailHash_rows new : tailHash (map ChainEntry new) = match last new with Some r => ARHash r | None => GenesisPrevHash end.
Proof. unfold tailHash. change (map ChainEntry new) with (ChainEntry <$> new). rewrite fmap_last. by destruct (last new). Qed.

(** The hash before the next row decodes. *)
Lemma tailHash_decodes es : Verify env_sha256 es = None -> is_Some (hexDecode (tailHash es)).
Proof.
  destruct es as [|e es _] using rev_ind; intros H; [by eexists|]. unfold Verify in H.
  apply verifyFrom_snoc in H as (_ & _ & _ & H). unfold tailHash. rewrite last_snoc. unfold ComputeHash in H.
  destruct (hexDecode (PrevHash e)); [|done]. injection H as <-. rewrite hexDecode_encode. by eexists.
Qed.

Lemma position_free old new n : Forall (fun r => ARSeq r = None) old -> numbered 1 new -> n = Z.of_nat (length new) + 1 ->
  existsb (fun r => bool_decide (ARSeq r = Some n)) (old ++ new) = false.
Proof.
  intros Ho Hn ->. apply not_true_is_false. intros (r & Hr & Hb)%existsb_exists. apply bool_decide_eq_true in Hb.
  apply list_elem_of_In, elem_of_app in Hr as [Hr|Hr].
  - rewrite Forall_forall in Ho. specialize (Ho r Hr). congruence.
  - apply list_elem_of_lookup in Hr as (i & Hi). pose proof (lookup_lt_Some _ _ _ Hi). rewrite (Hn i r Hi) in Hb.
    injection Hb. lia.
Qed.

Lemma nextInChain_rows old new : Forall (fun r => ARSeq r = None) old -> numbered 1 new -> Z.of_nat (length new) + 1 < 2 ^ 63 ->
  nextInChain (old ++ new) = (Z.of_nat (length new) + 1, tailHash (map ChainEntry new)).
Proof.
  intros Ho Hn Hl. unfold nextInChain. rewrite (auditTail_split old new Ho Hn), tailHash_rows.
  destruct (last new) eqn:El; cbn; [rewrite Z.mod_small by lia; done|]. by apply last_None in El as ->.
Qed.

Lemma chainAudit_keeps e old new rows : chainRows old new rows -> Z.of_nat (length new) + 1 < 2 ^ 63 ->
  exists r, chainAudit e rows = inr (rows ++ [r]) /\ AREntry r = e /\ chainRows old (new ++ [r]) (rows ++ [r]).
Proof.
  intros (-> & Ho & Hn & Hv) Hlen. unfold chainAudit. rewrite (nextInChain_rows old new Ho Hn Hlen).
  destruct (tailHash_decodes _ Hv) as (d & Hd).
  assert (Hh : exists h, forall x, ComputeHash env_sha256 (ChainEntry (mkAuditRow e (Some (Z.of_nat (length new) + 1))
             (tailHash (map ChainEntry new)) x)) = Some h).
  { exists (hexEncode (env_sha256 (d +:+ CanonicalBytes (ChainEntry
      (mkAuditRow e (Some (Z.of_nat (length new) + 1)) (tailHash (map ChainEntry new)) ""%string))))). intros x.
    unfold ComputeHash. cbn [ChainEntry PrevHash ARPrevHash]. rewrite Hd. reflexivity. }
  destruct Hh as (h & Hh). rewrite (Hh ""%string). unfold seqColumn. rewrite (proj2 (Z.ltb_lt _ _)) by lia.
  rewrite (position_free old new) by done. eexists. split; [done|]. split; [done|]. split; [by rewrite app_assoc|]. split; [done|]. split.
  - intros i x Hi. apply lookup_app_Some in Hi as [Hi|[Hge Hi]]; [by apply Hn|].
    destruct (i - length new)%nat eqn:Ei; [|done]. injection Hi as <-. cbn. f_equal. lia.
  - rewrite map_app. cbn [map]. apply verifyFrom_snoc. split; [exact Hv|]. split; [|split; [reflexivity|apply Hh]].
    cbn. rewrite length_map, !Z.mod_small by (unfold FirstSeq; lia). unfold FirstSeq. lia.
Qed.

Lemma AppendAudit_keeps e old new w r w' : chainRows old new (db_audit (w_db w)) -> Z.of_nat (length new) + 1 < 2 ^ 63 ->
  AppendAudit e w = (r, w') ->
  (r = None /\ exists row, chainRows old (new ++ [row]) (db_audit (w_db w')) /\ Actor (AREntry row) = Actor e /\
     Action (AREntry row) = Action e /\ Target (AREntry row) = Target e /\ Details (AREntry row) = Details e) \/
  (r ≠ None /\ w_db w' = w_db w /\ (HealthyDB E -> False)).
Proof.
  intros Hc Hl H. unfold AppendAudit in H. run_step H.
  assert (Hn : w_db w0 = w_db w) by (destruct (IsZero (ACreatedAt e)); [by apply nowUTC_spec in Hrun as (? & _)|by injection Hrun as <- <-]).
  apply exec_spec in H as (_ & H). rewrite Hn in H.
  destruct (chainAudit_keeps (mkAuditEntry (Actor e) (Action e) (Target e) (Details e) r0) old new _ Hc Hl)
    as (row & Hrow & Hr & Hc'). rewrite Hrow in H. destruct r as [err|].
  - right. destruct H as [H [Hd|Hd]]; [|done]. split; [done|]. split; [done|]. intros HH. by rewrite env_db_healthy in Hd.
  - left. split; [done|]. injection H as H. exists row. rewrite <- H. cbn [with_audit db_audit]. rewrite Hr. done.
Qed.

(** The entries that the registry accepted. *)
Fixpoint accepted (es : list AuditEntry) (rs : list (option Error)) : list AuditEntry :=
  match es, rs with
  | e :: es, None :: rs => e :: accepted es rs
  | _ :: es, Some _ :: rs => accepted es rs
  | _, _ => []
  end.

Definition sameAction (e : AuditEntry) (r : AuditRow) : Prop :=
  Actor (AREntry r) = Actor e /\ Action (AREntry r) = Action e /\ Target (AREntry r) = Target e /\
  Details (AREntry r) = Details e.

Lemma appendAll_keeps old es : forall new w rs w', chainRows old new (db_audit (w_db w)) ->
  Z.of_nat (length new + length es) < 2 ^ 63 -> appendAll es w = (rs, w') ->
  exists added, chainRows old (new ++ added) (db_audit (w_db w')) /\ Forall2 sameAction (accepted es rs) added /\
    (HealthyDB E -> rs = replicate (length es) None).
Proof.
  induction es as [|e es IH]; intros new w rs w' Hc Hl H; cbn [appendAll length] in *.
  - injection H as <- <-. exists []. rewrite app_nil_r. done.
  - run_step H. run_step H. injection H as <- <-.
    apply (AppendAudit_keeps e old new) in Hrun as [(-> & row & Hc' & Hrow)|(Hr & Hdb & Hh)]; [| |done|lia].
    + apply (IH (new ++ [row])) in Hrun0 as (added & H1 & H2 & H3); [|done|rewrite length_app; cbn; lia].
      exists (row :: added). rewrite <- app_assoc in H1. split; [exact H1|]. split; [by constructor|]. intros Hd. cbn. by rewrite (H3 Hd).
    + destruct r as [err|]; [|done]. rewrite <- Hdb in Hc. apply (IH new) in Hrun0 as (added & H1 & H2 & _); [|done|lia].
      exists added. split; [done|]. split; [done|]. intros Hd. by destruct (Hh Hd).
Qed.

Lemma reverse_take {A} k (l : list A) : reverse (take k (reverse l)) = drop (length l - k) l.
Proof. by rewrite take_reverse, reverse_involutive. Qed.

(** The verdict on the last [limit] rows of a chain. *)
Lemma window_verdict old new limit : Forall (fun r => ARSeq r = None) old -> numbered 1 new ->
  Verify env_sha256 (map ChainEntry new) = None -> Z.of_nat (length new) < 2 ^ 63 -> 0 < limit ->
  let entries := chainEntries (take (Z.to_nat limit) (reverse (old ++ new))) in
  if Z.of_nat (length new) <=? limit then entries = map ChainEntry new /\ Verify env_sha256 entries = None
  else Verify env_sha256 entries = Some (mkVerifyError 0 (Z.of_nat (length new) - limit + 1) KindSeq).
Proof.
  intros Ho Hn Hv Hlen Hlim. cbv zeta. unfold chainEntries. rewrite reverse_take, length_app.
  destruct (Z.leb_spec (Z.of_nat (length new)) limit) as [Hle|Hgt].
  - assert (Hd : List.filter (fun r => negb (rowSeq r <? FirstSeq)) (drop (length old + length new - Z.to_nat limit) (old ++ new)) = new).
    { rewrite drop_app_le by lia. rewrite List.filter_app, (numbered_filter 1 new) by (done || lia).
      by rewrite old_filter by (by apply Forall_drop). }
    by rewrite Hd.
  - rewrite drop_app_ge by lia. set (k := (length old + length new - Z.to_nat limit - length old)%nat).
    assert (Hk : (k < length new)%nat) by lia.
    assert (Hnk : numbered (Z.of_nat k + 1) (drop k new)).
    { intros i r Hi. rewrite lookup_drop in Hi. rewrite (Hn _ r Hi). f_equal. lia. }
    rewrite (numbered_filter _ _ Hnk) by (rewrite ?length_drop; lia).
    destruct (drop k new) as [|r rest] eqn:Ed; [apply (f_equal length) in Ed; rewrite length_drop in Ed; cbn in Ed; lia|].
    pose proof (Hnk 0%nat r eq_refl) as Hr. unfold Verify. cbn [map verifyFrom].
    assert (Hs : Seq (ChainEntry r) = Z.of_nat (length new) - limit + 1).
    { cbn [ChainEntry Seq]. rewrite Hr. change (default 0 (Some ?x)) with x. rewrite Nat2Z.inj_0, Z.mod_small; lia. }
    rewrite Hs, (proj2 (Z.eqb_neq _ _)); [done|]. unfold FirstSeq. rewrite Z.mod_small; lia.
Qed.
End AuditLog.

(** ** Theorems *)

(** (C32) What [AppendAudit] writes, [audit.Verify] accepts. From a log whose chain verifies
    (rows from before the chain may precede it) and that stays below 2^63 rows, any
    appends, whatever the database answers, leave a log in which exactly the accepted
    entries were added, in order and with their content, at the next positions of the
    chain, and which verifies; without database errors every append is accepted. When
    its query succeeds, the endpoint of a licensed server then changes nothing and
    reports all chained entries as verified when their number is within its limit (100 by
    default); beyond it, it reports a break at the oldest row of the window although
    nothing was changed. *)
Theorem audit_log_verifies `{E : Env} es old new w rs w' :
  chainRows old new (db_audit (w_db w)) -> Z.of_nat (length new + length es) < 2 ^ 63 ->
  appendAll es w = (rs, w') ->
  exists added, chainRows old (new ++ added) (db_audit (w_db w')) /\ Forall2 sameAction (accepted es rs) added /\
    (HealthyDB E -> rs = replicate (length es) None) /\
    forall limitParam entries verdict w'',
      handleEnterpriseAuditLog true limitParam w' = (AuditLog entries verdict, w'') ->
      let n := Z.of_nat (length (new ++ added)) in let limit := auditLimit limitParam in
      w_db w'' = w_db w' /\
      if n <=? limit then entries = map ChainEntry (new ++ added) /\ verdict = None
      else verdict = Some (mkVerifyError 0 (n - limit + 1) KindSeq).
Proof.
  intros Hc Hl H. pose proof H as H'. apply (appendAll_keeps old es new) in H as (added & H1 & H2 & H3); [|done..].
  exists added. split; [done|]. split; [done|]. split; [done|]. intros limitParam entries verdict w'' Hh.
  assert (Hle : (length added <= length es)%nat).
  { rewrite <- (Forall2_length _ _ _ H2). clear. revert rs. induction es as [|e es IH]; intros [|[]]; cbn; try lia; specialize (IH l); lia. }
  cbv zeta. unfold handleEnterpriseAuditLog in Hh. cbn [negb] in Hh. run_step Hh. apply query_spec in Hrun as (Hd & _ & Hr).
  destruct r as [e|rows]; [done|]. destruct (env_db _); [done|]. injection Hr as ->. injection Hh as <- <- <-. split; [done|].
  destruct H1 as (-> & Ho & Hn & Hv).
  assert (Hp : 0 < auditLimit limitParam) by (unfold auditLimit, defaultAuditLimit; destruct limitParam as [z|]; [destruct (Z.ltb_spec 0 z)|]; lia).
  rewrite (proj2 (Z.leb_gt _ _) Hp).
  apply (window_verdict old (new ++ added) (auditLimit limitParam)); [done..|rewrite length_app; lia|done].
Qed.

(** ** Instances *)

Definition exAudit (who : string) : AuditEntry := mkAuditEntry who "node.drain" "n1" [("why", "upgrade")]%string zeroTime.

Lemma chainRows_empty `{E : Env} : chainRows [] [] (db_audit (w_db emptyWorld)).
Proof. split_and!; [done|constructor| |reflexivity]. by intros i r Hi. Qed.

Lemma audit_log_verifies_witness :
  let w' := snd (appendAll (E := calmEnv) [exAudit "ann"; exAudit "bob"] emptyWorld) in
  exists entries, fst (handleEnterpriseAuditLog (E := calmEnv) true None w') = AuditLog entries None /\ length entries = 2%nat.
Proof.
  intros w'.
  destruct (audit_log_verifies (E := calmEnv) [exAudit "ann"; exAudit "bob"] [] [] emptyWorld _ _ (chainRows_empty (E := calmEnv)) eq_refl
    (surjective_pairing (appendAll (E := calmEnv) [exAudit "ann"; exAudit "bob"] emptyWorld))) as (added & _ & Ha & Hh & Hv).
  specialize (Hh calmEnv_db). rewrite Hh in Ha. cbn in Ha. apply Forall2_length in Ha. cbn in Ha.
  destruct (handleEnterpriseAuditLog (E := calmEnv) true None w') as [a w''] eqn:Hrun.
  assert (Hans : exists entries v, a = AuditLog entries v).
  { apply (f_equal fst) in Hrun. cbn [fst] in Hrun. rewrite <- Hrun. do 2 eexists. reflexivity. }
  destruct Hans as (entries & v & ->). destruct (Hv None entries v w'' Hrun) as (_ & H). cbn [app] in H. rewrite <- Ha in H.
  destruct H as [-> ->]. exists (map ChainEntry added). split; [reflexivity|]. rewrite length_map. lia.
Defined.

(** Past the limit an untouched log is reported as broken. *)
Example untouched_reported_broken :
  let w' := snd (appendAll (E := calmEnv) (replicate 3 (exAudit "ann")) emptyWorld) in
  exists entries, fst (handleEnterpriseAuditLog (E := calmEnv) true (Some 2) w') = AuditLog entries (Some (mkVerifyError 0 2 KindSeq)).
Proof. vm_compute. eexists. reflexivity. Qed.
