(* ===== verification/Statements.v ===== *)
(** * Statements: how the registry runs SQL

    The shapes of the statements of [enterprise_sqlite.go], [approvals_sqlite.go] and
    the other files of the registry beyond [sqlite.go]'s: a statement whose error is
    returned as it is, one that counts the rows it touched, a step of a transaction;
    the aggregates and the ordering of SQLite; and what it means for a call to keep an
    invariant of the database. *)
From S2P Require Import Prelude Cluster Registry Timestamp.
Open Scope Z_scope.

Section Statements.
Context `{E : Env}.

(** One statement: a fault or a refusal leaves the database as it was. *)
Definition statement {A} (wrap : Error -> Error) (k : Database -> Error + (A * Database)) : M (Error + A) :=
  let* t := next in
  let* db := get_db in
  match env_db t with
  | Some e => cret (inl (wrap e))
  | None =>
      match k db with
      | inl e => cret (inl e)
      | inr (a, db') => put_db db' ;;; cret (inr a)
      end
  end.

(** The error of a call without another result. *)
Definition errorOf {A} (r : Error + A) : option Error := match r with inl e => Some e | inr _ => None end.

(** [_, err := ExecContext(...); return err]. *)
Definition execRaw (k : Database -> Database) : M (option Error) :=
  let* r := statement id (fun db => inr ((), k db)) in cret (errorOf r).

(** [BeginTx], a statement of a transaction, or [Commit]: whether the database takes it.
    What a transaction changes is written with its commit. *)
Definition attempt (wrap : Error -> Error) : M (option Error) :=
  let* t := next in cret (match env_db t with Some e => Some (wrap e) | None => None end).

(** ** What a statement does *)

Lemma statement_spec {A} wrap (k : Database -> Error + (A * Database)) w r w' :
  statement wrap k w = (r, w') ->
  outside_same w w' /\
  match r with
  | inr a => k (w_db w) = inr (a, w_db w')
  | inl e => w_db w' = w_db w /\ (env_db (w_tick w) ≠ None \/ k (w_db w) = inl e)
  end.
Proof.
  unfold statement, cbind, next, get_db, put_db, cret. cbn.
  destruct (env_db (w_tick w)) eqn:Ed; [intros [= <- <-]; cbn; repeat split; by left|].
  destruct (k (w_db w)) as [e|[a db']] eqn:Ek; intros [= <- <-]; cbn; repeat split; auto.
Qed.

Lemma statement_healthy {A} `{!HealthyDB E} wrap (k : Database -> Error + (A * Database)) w a db :
  k (w_db w) = inr (a, db) -> statement wrap k w = (inr a, mkWorld (S (w_tick w)) db (w_routes w) (w_trace w)).
Proof. intros Hk. unfold statement, cbind, next, get_db, put_db, cret. cbn. by rewrite env_db_healthy, Hk. Qed.

Lemma execRaw_spec k w r w' :
  execRaw k w = (r, w') ->
  outside_same w w' /\ match r with None => w_db w' = k (w_db w) | Some _ => w_db w' = w_db w end.
Proof.
  unfold execRaw. intros H. run_step H. apply statement_spec in Hrun as (Ho & Hr). injection H as <- <-.
  split; [done|]. destruct r0 as [e|[]]; cbn; [by destruct Hr|]. by injection Hr.
Qed.

Lemma attempt_spec wrap w r w' :
  attempt wrap w = (r, w') -> w_db w' = w_db w /\ outside_same w w' /\ (HealthyDB E -> r = None).
Proof.
  unfold attempt, cbind, next, cret. cbn. intros [= <- <-]. split; [done|]. split; [done|].
  intros [Hh]. by rewrite Hh.
Qed.

(** ** Invariants of the database *)

(** The call keeps [I], whatever the database answers. *)
Definition maintains {A} (I : Database -> Prop) (m : M A) : Prop := forall w, I (w_db w) -> I (w_db (snd (m w))).

Section Maintains.
Context (I : Database -> Prop).

Lemma maintains_ret {A} (a : A) : maintains I (cret a).
Proof. by intros w. Qed.

Lemma maintains_bind {A B} (m : M A) (k : A -> M B) :
  maintains I m -> (forall a, maintains I (k a)) -> maintains I (cbind m k).
Proof. intros Hm Hk w Hw. rewrite cbind_run. by apply Hk, Hm. Qed.

Lemma maintains_next : maintains I next.
Proof. by intros w. Qed.

Lemma maintains_now : maintains I nowUTC.
Proof. by intros w. Qed.

Lemma maintains_get : maintains I get_db.
Proof. by intros w. Qed.

Lemma maintains_put db : I db -> maintains I (put_db db).
Proof. by intros H w. Qed.

Lemma maintains_attempt wrap : maintains I (attempt wrap).
Proof. by intros w. Qed.

Lemma maintains_query {A} what (k : Database -> Error + A) : maintains I (query what k).
Proof. intros w Hw. destruct (query what k w) as [r w'] eqn:H. apply query_spec in H as (H & _). cbn. by rewrite H. Qed.

Lemma maintains_exec what k : (forall db db', I db -> k db = inr db' -> I db') -> maintains I (exec what k).
Proof.
  intros Hk w Hw. destruct (exec what k w) as [r w'] eqn:H. apply exec_spec in H as (_ & H). cbn.
  destruct r; [destruct H as [-> _]; done|]. by eapply Hk.
Qed.

Lemma maintains_statement {A} wrap (k : Database -> Error + (A * Database)) :
  (forall db a db', I db -> k db = inr (a, db') -> I db') -> maintains I (statement wrap k).
Proof.
  intros Hk w Hw. destruct (statement wrap k w) as [r w'] eqn:H. apply statement_spec in H as (_ & H). cbn.
  destruct r; [by destruct H as [-> _]|]. by eapply Hk.
Qed.

Lemma maintains_execRaw k : (forall db, I db -> I (k db)) -> maintains I (execRaw k).
Proof.
  intros Hk w Hw. destruct (execRaw k w) as [r w'] eqn:H. apply execRaw_spec in H as (_ & H). cbn.
  destruct r; rewrite H; auto.
Qed.

Lemma maintains_AppendAudit e :
  (forall db l, I db -> I (with_audit db l)) -> maintains I (AppendAudit e).
Proof.
  intros Ha. apply maintains_bind; [case_match; [apply maintains_now|apply maintains_ret]|]. intros created.
  apply maintains_exec. intros db db' Hdb Hk. destruct (chainAudit _ _); [done|]. injection Hk as <-. by apply Ha.
Qed.
End Maintains.

(** The results of a sequence of calls. *)
Fixpoint runAll {Op} (run : Op -> M unit) (ops : list Op) : M unit :=
  match ops with [] => cret () | op :: ops => run op ;;; runAll run ops end.

Lemma maintains_runAll {Op} I (run : Op -> M unit) ops :
  (forall op, maintains I (run op)) -> maintains I (runAll run ops).
Proof.
  intros H. induction ops as [|op ops IH]; [apply maintains_ret|]. cbn [runAll].
  apply maintains_bind; [apply H|]. by intros [].
Qed.

Definition ignore {A} (m : M A) : M unit := let* _ := m in cret ().

Lemma ignore_run {A} (m : M A) w r w' : ignore m w = (r, w') -> exists a, m w = (a, w').
Proof. unfold ignore, cbind, cret. destruct (m w) as [a w1]. intros [= _ <-]. eauto. Qed.

Lemma maintains_ignore {A} I (m : M A) : maintains I m -> maintains I (ignore m).
Proof. intros H. apply maintains_bind; [done|]. intros. apply maintains_ret. Qed.
End Statements.

#[export] Hint Resolve maintains_ret maintains_next maintains_now maintains_get maintains_attempt maintains_query
  maintains_ignore : purser.

(** Splits a sequence of calls into its statements. *)
Ltac maintains_steps :=
  repeat lazymatch goal with
  | |- maintains _ (cbind _ _) => apply maintains_bind; [|intros ?]
  | |- maintains _ (let _ := _ in _) => cbv zeta
  | |- maintains _ (if _ then _ else _) => case_match
  | |- maintains _ (match _ with _ => _ end) => case_match
  | |- maintains _ (exec _ _) => apply maintains_exec; intros db db' Hdb
  | |- maintains _ (statement _ _) => apply maintains_statement; intros db ? db' Hdb
  | |- maintains _ (execRaw _) => apply maintains_execRaw; intros db Hdb
  | |- maintains _ (AppendAudit _) => apply maintains_AppendAudit; intros db l Hdb
  | |- maintains _ _ => solve [auto with purser]
  end.

(** ** Reading rows in order *)

(** [ORDER BY column DESC] of a column of times: the texts are compared, and rows of
    equal text come as the database returns them. *)
Definition newestFirst {A} (at_ : A -> Time) (rows : list A) : list A :=
  go_sort (fun a b => String.ltb (fmtTime (at_ b)) (fmtTime (at_ a))) rows.

Definition oldestFirst {A} (at_ : A -> Time) (rows : list A) : list A :=
  go_sort (fun a b => String.ltb (fmtTime (at_ a)) (fmtTime (at_ b))) rows.

(** ** Aggregates *)

Definition int64Max : Z := 2 ^ 63 - 1.

(** [SUM] over [INTEGER]s: SQLite raises an error when a partial sum leaves [int64]. *)
Fixpoint sqlSum (acc : Z) (l : list Z) : option Z :=
  match l with
  | [] => Some acc
  | x :: l => let s := acc + x in if (- 2 ^ 63 <=? s) && (s <=? int64Max) then sqlSum s l else None
  end.

Definition integerOverflow : Error := ErrorString "integer overflow".

Lemma sqlSum_spec l acc s : sqlSum acc l = Some s -> s = acc + fold_right Z.add 0 l.
Proof.
  revert acc. induction l as [|x l IH]; intros acc; cbn [sqlSum fold_right]; [intros [= <-]; lia|].
  destruct (_ && _); [|done]. intros H. apply IH in H. lia.
Qed.

(** A sum of counts that stays within [int64] is never refused. *)
Lemma sqlSum_total l acc :
  Forall (fun x => 0 <= x) l -> 0 <= acc -> acc + fold_right Z.add 0 l <= int64Max ->
  sqlSum acc l = Some (acc + fold_right Z.add 0 l).
Proof.
  intros Hl. revert acc. induction Hl as [|x l Hx Hl IH]; intros acc Ha Hs; cbn [sqlSum fold_right] in *; [f_equal; lia|].
  assert (Hf : 0 <= fold_right Z.add 0 l) by (clear -Hl; induction Hl; cbn; lia).
  rewrite (proj2 (Z.leb_le _ _)), (proj2 (Z.leb_le _ _)) by lia. cbn. rewrite IH by lia. f_equal. lia.
Qed.

(** ** Maps filled by a loop *)

Section Filled.
Context {A V : Type} (keep : A -> bool) (key : A -> string) (val : A -> V).

Definition filled (l : list A) (m : gmap string V) : gmap string V :=
  fold_left (fun m a => if keep a then <[key a := val a]> m else m) l m.

Lemma filled_source l m k v :
  filled l m !! k = Some v -> m !! k = Some v \/ exists a, a ∈ l /\ keep a = true /\ key a = k /\ v = val a.
Proof.
  revert m. induction l as [|a l IH]; intros m; [by left|]. cbn. intros [H|(b & Hb & H)]%IH; [|right; set_solver].
  destruct (keep a) eqn:Ha; [|by left]. destruct (decide (key a = k)) as [<-|Hk].
  - rewrite lookup_insert_eq in H. injection H as <-. right. exists a. set_solver.
  - rewrite lookup_insert_ne in H by done. by left.
Qed.

(** The value of a key that only equal values are written to. *)
Lemma filled_value l m k v :
  (forall a, a ∈ l -> keep a = true -> key a = k -> val a = v) ->
  m !! k = Some v \/ (exists a, a ∈ l /\ keep a = true /\ key a = k) -> filled l m !! k = Some v.
Proof.
  revert m. induction l as [|a l IH]; intros m Hv H; cbn.
  - destruct H as [H|(a & Ha & _)]; [done|]. set_solver.
  - apply IH; [intros b Hb; apply Hv; set_solver|]. destruct H as [H|(b & Hb & Hkeep & Hk)].
    + left. destruct (keep a) eqn:Ha; [|done]. destruct (decide (key a = k)) as [<-|Hne].
      * rewrite lookup_insert_eq. f_equal. apply Hv; set_solver.
      * by rewrite lookup_insert_ne.
    + apply elem_of_cons in Hb as [->|Hb]; [|right; eauto]. left. rewrite Hkeep, Hk, lookup_insert_eq. f_equal.
      apply Hv; set_solver.
Qed.

Lemma filled_total l m k :
  is_Some (m !! k) \/ (exists a, a ∈ l /\ keep a = true /\ key a = k) -> is_Some (filled l m !! k).
Proof.
  revert m. induction l as [|a l IH]; intros m H; cbn; [destruct H as [H|(a & Ha & _)]; [done|set_solver]|].
  apply IH. destruct H as [H|(b & Hb & Hkeep & Hk)].
  - left. destruct (keep a); [|done]. destruct (decide (key a = k)) as [<-|Hne].
    + rewrite lookup_insert_eq. eauto.
    + by rewrite lookup_insert_ne.
  - apply elem_of_cons in Hb as [->|Hb]; [|right; eauto]. left. rewrite Hkeep, Hk, lookup_insert_eq. eauto.
Qed.
End Filled.
