(* ===== verification/Gateway.v ===== *)
(** * Gateway: route synchronisation

    [go/controlplane/orchestrator/gateway.go]. The gateway's table maps a model to
    its route; [PUT] stores a route, [DELETE] removes it (and is idempotent), [GET]
    lists the table in key order ([rust/crates/gateway/src/routes/management.rs]).
    The id of a [DELETE] is put into the path as it is: only a plain id is sure to
    arrive (for others, see [env_path]).
    [GatewaySync] is the Go interface; [HTTPGatewaySync] and [NopGatewaySync] are
    its implementations, and the classes below are what the orchestrator may rely
    on. *)
From S2P Require Import Prelude Float64 PlanTypes CostModel Fixtures Partition Ordering Planner Convert Cluster.
Open Scope Z_scope.

(** [ListRoutes] is [None] when the implementation is no [RouteLister]. *)
Record GatewaySync : Type := mkGatewaySync {
  UpsertRoute : RouteUpdate -> M (option Error);
  DeleteRoute : string -> M (option Error);
  ListRoutes : option (M (Error + list RouteUpdate)) }.

(** Route calls leave the registry alone and issue route commands only. *)
Class GatewayFrame (g : GatewaySync) : Prop := {
  upsert_db : forall u, leaves same_db (UpsertRoute g u);
  upsert_issues : forall u, leaves (issues (fun c => c = CUpsert u)) (UpsertRoute g u);
  delete_db : forall m, leaves same_db (DeleteRoute g m);
  delete_issues : forall m, leaves (issues (fun c => c = CDelete m)) (DeleteRoute g m) }.

(** A call that reports success has taken effect, and no call touches another
    model's route; for a deletion, when the id is plain. *)
Class GatewayEffect (g : GatewaySync) : Prop := {
  upsert_done : forall u w, fst (UpsertRoute g u w) = None ->
    w_routes (snd (UpsertRoute g u w)) = <[RU_ModelID u := u]> (w_routes w);
  upsert_other : forall u w m, m ≠ RU_ModelID u ->
    w_routes (snd (UpsertRoute g u w)) !! m = w_routes w !! m;
  delete_done : forall m w, plainID m = true -> fst (DeleteRoute g m w) = None ->
    w_routes (snd (DeleteRoute g m w)) = delete m (w_routes w);
  delete_other : forall m w m', plainID m = true -> m' ≠ m -> w_routes (snd (DeleteRoute g m w)) !! m' = w_routes w !! m' }.

(** A gateway whose calls report success. *)
Class GatewayUp (g : GatewaySync) : Prop := {
  upsert_up : forall u w, fst (UpsertRoute g u w) = None;
  delete_up : forall m w, plainID m = true -> fst (DeleteRoute g m w) = None }.

(** A gateway that can be listed: reading changes nothing, and a listing that
    succeeds is the table. *)
Class GatewayLister (g : GatewaySync) (l : M (Error + list RouteUpdate)) : Prop := {
  lister : ListRoutes g = Some l;
  list_keeps : forall w, w_db (l w).2 = w_db w /\ w_routes (l w).2 = w_routes w /\ w_trace (l w).2 = w_trace w;
  list_exact : forall w rs, fst (l w) = inr rs -> rs ≡ₚ map snd (map_to_list (w_routes w)) }.

Section HTTP.
Context `{E : Env}.

Record GatewayOptions : Type := mkGatewayOptions {
  Opt_Addr : string; Opt_Token : string; Opt_Retries : Z; Opt_RetryDelay : Duration }.

Record HTTPGateway : Type := mkHTTPGateway {
  HG_baseURL : string; HG_token : string; HG_retries : Z; HG_delay : Duration }.

(** [strings.TrimRight(s, "/")]. *)
Fixpoint trimSlashes (s : string) : string :=
  match s with
  | EmptyString => EmptyString
  | String c s' =>
      let r := trimSlashes s' in
      if (r =? "")%string && Ascii.eqb c "/"%char then EmptyString else String c r
  end.

Definition NewHTTPGatewaySync (opts : GatewayOptions) : HTTPGateway :=
  {| HG_baseURL := trimSlashes (Opt_Addr opts);
     HG_token := Opt_Token opts;
     HG_retries := if Opt_Retries opts <=? 0 then 3 else Opt_Retries opts;
     HG_delay := if Opt_RetryDelay opts <=? 0 then 500 * 10 ^ 6 else Opt_RetryDelay opts |}.

(** One exchange; [eff] is what the gateway does with the request. *)
Definition do (eff : M unit) : M (option Error) :=
  let* t := next in
  match env_http t with
  | NotSent e => cret (Some e)
  | ReplyLost e => eff ;;; cret (Some e)
  | Reply status =>
      if (status <? 200) || (300 <=? status) then cret (Some (ErrorString "gateway returned"))
      else eff ;;; cret None
  end.

(** The [select] before attempt [n > 0]: the context's error when it is done. *)
Definition backoff (first : bool) : M (option Error) :=
  if first then cret None else let* t := next in cret (env_done t).

(** One exchange for a path that the gateway does not serve, and one for a URL that
    [http.NewRequest] refuses. *)
Definition doUnrouted : M (option Error) :=
  let* t := next in
  cret (Some (match env_http t with NotSent e | ReplyLost e => e | Reply _ => ErrorString "gateway returned 404" end)).

Definition doRefused (e : Error) : M (option Error) := cret (Some e).

(** [attempts] are left; [first] marks attempt 0, which does not wait. *)
Fixpoint doWithRetry_loop (send : M (option Error)) (attempts : nat) (first : bool) (lastErr : Error) : M (option Error) :=
  match attempts with
  | O => cret (Some (Wrap "gatewaysync: failed after retries" lastErr))
  | S attempts =>
      let* stop := backoff first in
      match stop with
      | Some e => cret (Some e)
      | None =>
          let* err := send in
          match err with
          | None => cret None
          | Some e => doWithRetry_loop send attempts false e
          end
      end
  end.

Definition doWithRetry (g : HTTPGateway) (send : M (option Error)) : M (option Error) :=
  doWithRetry_loop send (Z.to_nat (HG_retries g + 1)) true (ErrorString "").

(** [doRead]: a [GET] changes nothing; the body is the table in key order. *)
Definition doRead : M (Error + list RouteUpdate) :=
  let* t := next in
  let* routes := get_routes in
  match env_http t with
  | NotSent e => cret (inl e)
  | ReplyLost e => cret (inl e)
  | Reply status =>
      if (status <? 200) || (300 <=? status) then cret (inl (ErrorString "gateway returned"))
      else cret (inr (go_sort (fun a b => String.ltb (RU_ModelID a) (RU_ModelID b))
                        (map snd (map_to_list routes))))
  end.

Fixpoint get_loop (attempts : nat) (first : bool) (lastErr : Error) : M (Error + list RouteUpdate) :=
  match attempts with
  | O => cret (inl (Wrap "gatewaysync: GET failed after retries" lastErr))
  | S attempts =>
      let* stop := backoff first in
      match stop with
      | Some e => cret (inl e)
      | None =>
          let* r := doRead in
          match r with
          | inr body => cret (inr body)
          | inl e => get_loop attempts false e
          end
      end
  end.

Definition get (g : HTTPGateway) : M (Error + list RouteUpdate) :=
  get_loop (Z.to_nat (HG_retries g + 1)) true (ErrorString "").

Definition HTTP_UpsertRoute (g : HTTPGateway) (u : RouteUpdate) : M (option Error) :=
  emit (CUpsert u) ;;;
  doWithRetry g (do (let* r := get_routes in put_routes (<[RU_ModelID u := u]> r))).

Definition HTTP_DeleteRoute (g : HTTPGateway) (modelID : string) : M (option Error) :=
  emit (CDelete modelID) ;;;
  doWithRetry g
    match env_path modelID with
    | Received id => do (let* r := get_routes in put_routes (delete id r))
    | NoRoute => doUnrouted
    | BadURL e => doRefused e
    end.

Definition HTTP_ListRoutes (g : HTTPGateway) : M (Error + list RouteUpdate) := get g.

Definition HTTPGatewaySync (g : HTTPGateway) : GatewaySync :=
  mkGatewaySync (HTTP_UpsertRoute g) (HTTP_DeleteRoute g) (Some (HTTP_ListRoutes g)).

Definition NopGatewaySync : GatewaySync :=
  mkGatewaySync (fun _ => cret None) (fun _ => cret None) None.

(** ** Frames *)

Lemma leaves_next R : (forall w n, R w (mkWorld n (w_db w) (w_routes w) (w_trace w))) -> leaves R next.
Proof. intros H w. apply H. Qed.

Lemma leaves_do R eff :
  Transitive R -> Reflexive R -> (forall w n, R w (mkWorld n (w_db w) (w_routes w) (w_trace w))) ->
  leaves R eff -> leaves R (do eff).
Proof.
  intros HT HR Ht He. apply leaves_bind; [done|by apply leaves_next|]. intros t.
  destruct (env_http t); [by apply leaves_ret|apply leaves_bind; [done..|intros; by apply leaves_ret]|].
  case_match; [by apply leaves_ret|]. apply leaves_bind; [done..|intros; by apply leaves_ret].
Qed.

Lemma leaves_delivery R d eff :
  Transitive R -> Reflexive R -> (forall w n, R w (mkWorld n (w_db w) (w_routes w) (w_trace w))) ->
  (forall id, leaves R (eff id)) ->
  leaves R match d with Received id => do (eff id) | NoRoute => doUnrouted | BadURL e => doRefused e end.
Proof.
  intros HT HR Ht He. destruct d; [by apply leaves_ret| |by apply leaves_do].
  apply leaves_bind; [done|by apply leaves_next|intros; by apply leaves_ret].
Qed.

Lemma leaves_retry R send :
  Transitive R -> Reflexive R -> (forall w n, R w (mkWorld n (w_db w) (w_routes w) (w_trace w))) ->
  leaves R send -> forall n first e, leaves R (doWithRetry_loop send n first e).
Proof.
  intros HT HR Ht He n. induction n as [|n IH]; intros first e; cbn [doWithRetry_loop]; [by apply leaves_ret|].
  apply leaves_bind; [done| |].
  - destruct first; [by apply leaves_ret|]. apply leaves_bind; [done|by apply leaves_next|].
    intros; by apply leaves_ret.
  - intros [e'|]; [by apply leaves_ret|]. apply leaves_bind; [done..|].
    intros [e'|]; [apply IH|by apply leaves_ret].
Qed.

Lemma emit_issues c : leaves (issues (fun c' => c' = c)) (emit c).
Proof. intros w. exists [c]. split; [done|]. by repeat constructor. Qed.

Lemma same_trace_issues P w w' : w_trace w' = w_trace w -> issues P w w'.
Proof. intros H. exists []. by rewrite app_nil_r. Qed.

#[export] Instance HTTP_frame g : GatewayFrame (HTTPGatewaySync g).
Proof.
  split; intros u.
  - apply leaves_bind; [apply _|done|]. intros _. apply leaves_retry; [apply _..|done|]. by apply leaves_do; [apply _..| |].
  - apply leaves_bind; [apply _|apply emit_issues|]. intros _.
    apply leaves_retry; [apply _..| |apply leaves_do; [apply _..| |]]; intros w; intros; by apply same_trace_issues.
  - apply leaves_bind; [apply _|done|]. intros _. apply leaves_retry; [apply _..|done|]. by apply leaves_delivery; [apply _..| |].
  - apply leaves_bind; [apply _|apply emit_issues|]. intros _.
    apply leaves_retry; [apply _..| |apply leaves_delivery; [apply _..| |intros id]]; intros w; intros; by apply same_trace_issues.
Qed.

#[export] Instance Nop_frame : GatewayFrame NopGatewaySync.
Proof. split; intros u w; cbn; [done|apply issues_refl|done|apply issues_refl]. Qed.

(** ** Effects

    A request that changes the table by an idempotent [f] has, after any number of
    attempts, been applied or not; when the client reports success it has. *)
Definition route_change (f : gmap string RouteUpdate -> gmap string RouteUpdate) : M unit :=
  let* r := get_routes in put_routes (f r).

Lemma do_effect f w :
  match do (route_change f) w with
  | (None, w') => w_routes w' = f (w_routes w)
  | (Some _, w') => w_routes w' = w_routes w \/ w_routes w' = f (w_routes w)
  end.
Proof.
  unfold do. rewrite cbind_run. cbn [next fst snd].
  destruct (env_http (w_tick w)) as [e|e|status]; [by left|by right|].
  by destruct ((status <? 200) || (300 <=? status)); [left|].
Qed.

Lemma doWithRetry_effect f n : (forall r, f (f r) = f r) -> forall first e w,
  match doWithRetry_loop (do (route_change f)) n first e w with
  | (None, w') => w_routes w' = f (w_routes w)
  | (Some _, w') => w_routes w' = w_routes w \/ w_routes w' = f (w_routes w)
  end.
Proof.
  intros Hf. induction n as [|n IH]; intros first e w; cbn [doWithRetry_loop]; [by left|].
  rewrite cbind_run. assert (Hs : w_routes (backoff first w).2 = w_routes w) by (by destruct first).
  destruct (backoff first w) as [[e'|] w1]; cbn [fst snd] in *; [by left|]. rewrite cbind_run.
  pose proof (do_effect f w1) as Hd. destruct (do (route_change f) w1) as [[e'|] w2]; cbn [fst snd]; [|cbn; congruence].
  specialize (IH false e' w2). destruct (doWithRetry_loop _ _ _ _ w2) as [[e''|] w3];
    destruct Hd as [Hd|Hd]; rewrite Hd, Hs, ?Hf in IH; auto. destruct IH; auto.
Qed.

#[export] Instance HTTP_effect g : PathLaws E -> GatewayEffect (HTTPGatewaySync g).
Proof.
  intros HP.
  assert (Hu : forall u w, match HTTP_UpsertRoute g u w with
    | (None, w') => w_routes w' = <[RU_ModelID u := u]> (w_routes w)
    | (Some _, w') => w_routes w' = w_routes w \/ w_routes w' = <[RU_ModelID u := u]> (w_routes w) end).
  { intros u w. unfold HTTP_UpsertRoute. rewrite cbind_run.
    exact (doWithRetry_effect (fun r => <[RU_ModelID u := u]> r) _ (fun r => insert_insert_eq _ _ _ _) _ _ (emit (CUpsert u) w).2). }
  assert (Hd : forall m w, plainID m = true -> match HTTP_DeleteRoute g m w with
    | (None, w') => w_routes w' = delete m (w_routes w)
    | (Some _, w') => w_routes w' = w_routes w \/ w_routes w' = delete m (w_routes w) end).
  { intros m w Hm. unfold HTTP_DeleteRoute. rewrite cbind_run, (env_path_plain m Hm).
    exact (doWithRetry_effect (fun r => delete m r) _ (fun r => delete_delete_eq _ _) _ _ (emit (CDelete m) w).2). }
  split; cbn [HTTPGatewaySync UpsertRoute DeleteRoute].
  - intros u w H. specialize (Hu u w). destruct (HTTP_UpsertRoute g u w) as [[e|] w']; [done|exact Hu].
  - intros u w m Hm. specialize (Hu u w). destruct (HTTP_UpsertRoute g u w) as [[e|] w']; cbn [snd].
    + destruct Hu as [H|H]; rewrite H; [done|]. by rewrite lookup_insert_ne.
    + rewrite Hu. by rewrite lookup_insert_ne.
  - intros m w Hp H. specialize (Hd m w Hp). destruct (HTTP_DeleteRoute g m w) as [[e|] w']; [done|exact Hd].
  - intros m w m' Hp Hm. specialize (Hd m w Hp). destruct (HTTP_DeleteRoute g m w) as [[e|] w']; cbn [snd].
    + destruct Hd as [H|H]; rewrite H; [done|]. by rewrite lookup_delete_ne.
    + rewrite Hd. by rewrite lookup_delete_ne.
Qed.

Lemma get_loop_spec n : forall first e w r w', get_loop n first e w = (r, w') ->
  w_db w' = w_db w /\ w_routes w' = w_routes w /\ w_trace w' = w_trace w /\
  forall rs, r = inr rs -> rs ≡ₚ map snd (map_to_list (w_routes w)).
Proof.
  induction n as [|n IH]; intros first e w r w'; cbn [get_loop]; [by intros [= <- <-]|]. intros H.
  run_step H. assert (Hb : w_db w0 = w_db w /\ w_routes w0 = w_routes w /\ w_trace w0 = w_trace w).
  { unfold backoff in Hrun. destruct first; by injection Hrun as _ <-. }
  destruct Hb as (B1 & B2 & B3). destruct r0 as [e'|]; [by injection H as <- <-|]. run_step H.
  assert (Hd : w_db w1 = w_db w0 /\ w_routes w1 = w_routes w0 /\ w_trace w1 = w_trace w0 /\
               forall rs, r0 = inr rs -> rs ≡ₚ map snd (map_to_list (w_routes w0))).
  { unfold doRead in Hrun0. run_step Hrun0. injection Hrun1 as <- <-. run_step Hrun0. injection Hrun1 as <- <-.
    cbn [w_routes] in Hrun0. destruct (env_http (w_tick w0)) as [e1|e1|status]; [by injection Hrun0 as <- <-..|].
    destruct ((status <? 200) || (300 <=? status)); injection Hrun0 as <- <-; [done|]. split_and!; [done..|].
    intros rs [= <-]. apply go_sort_perm. }
  destruct Hd as (D1 & D2 & D3 & D4). destruct r0 as [e'|body].
  - apply IH in H as (I1 & I2 & I3 & I4). rewrite I1, I2, I3, D1, D2, D3. split_and!; auto.
    intros rs Hrs. rewrite (I4 rs Hrs), D2, B2. done.
  - injection H as <- <-. split_and!; [congruence..|]. intros rs Hrs. rewrite (D4 rs Hrs), B2. done.
Qed.

#[export] Instance HTTP_lister g : GatewayLister (HTTPGatewaySync g) (HTTP_ListRoutes g).
Proof.
  split; [done| |]; intros w; unfold HTTP_ListRoutes, get;
    destruct (get_loop _ true (ErrorString "") w) as [r w'] eqn:H; apply get_loop_spec in H as (H1 & H2 & H3 & H4);
    [done|]. exact H4.
Qed.

(** The client of a gateway that serves every request reports success. *)
#[export] Instance HTTP_up g : PathLaws E -> HealthyGateway E -> 0 <= HG_retries g -> GatewayUp (HTTPGatewaySync g).
Proof.
  intros HP [Hh] Hr.
  assert (H : forall f w, fst (doWithRetry g (do (route_change f)) w) = None).
  { intros f w. unfold doWithRetry. replace (Z.to_nat (HG_retries g + 1)) with (S (Z.to_nat (HG_retries g))) by lia.
    cbn [doWithRetry_loop]. rewrite cbind_run. cbn [backoff cret fst snd]. rewrite cbind_run.
    unfold do. rewrite (cbind_run next). cbn [next fst snd]. rewrite Hh. done. }
  split.
  - intros u w. cbn [HTTPGatewaySync UpsertRoute]. unfold HTTP_UpsertRoute. rewrite cbind_run. apply H.
  - intros m w Hm. cbn [HTTPGatewaySync DeleteRoute]. unfold HTTP_DeleteRoute. rewrite cbind_run, (env_path_plain m Hm). apply H.
Qed.

Lemma HTTP_lists g w : HealthyGateway E -> 0 <= HG_retries g -> exists rs, fst (HTTP_ListRoutes g w) = inr rs.
Proof.
  intros [Hh] Hr. unfold HTTP_ListRoutes, get.
  replace (Z.to_nat (HG_retries g + 1)) with (S (Z.to_nat (HG_retries g))) by lia.
  cbn [get_loop]. rewrite cbind_run. cbn [backoff cret fst snd]. rewrite cbind_run.
  unfold doRead. rewrite (cbind_run next). cbn [next fst snd]. rewrite cbind_run. rewrite Hh. by eexists.
Qed.
End HTTP.
