(* ===== verification/Orchestrator.v ===== *)
(** * Orchestrator: applying deployment plans

    [go/controlplane/orchestrator/orchestrator.go] and [resolver.go]. [Apply] starts
    the workers of a plan one by one, waits for each to be ready, starts the host
    with the workers as peers, records the deployment and publishes its route; any
    failure stops what was started, in reverse. The agents, the database and the
    gateway answer as the [Env] says; the trace of the [World] is the sequence of
    commands that reached them. *)
From stdpp Require Import pretty.
From S2P Require Import Prelude Float64 PlanTypes CostModel Fixtures Partition Ordering Planner Convert Cluster Registry Gateway.
Import Row.
Open Scope Z_scope.

Definition StateProvisioning : string := "DEPLOYMENT_STATE_PROVISIONING".
Definition StateActive : string := "DEPLOYMENT_STATE_ACTIVE".
Definition StateStopping : string := "DEPLOYMENT_STATE_STOPPING".
Definition StateStopped : string := "DEPLOYMENT_STATE_STOPPED".
Definition StateFailed : string := "DEPLOYMENT_STATE_FAILED".

Definition DefaultStepTimeout : Duration := 2 * Minute.
Definition DefaultAgentPort : Z := 50151.
Definition DefaultInferencePort : Z := 8000.

Record Endpoint : Type := mkEndpoint { AgentAddr : string; InferenceAddr : string }.

Record Resolver : Type := mkResolver { Resolve : string -> M (Error + Endpoint) }.

(** A resolver only reads. *)
Class ResolverFrame (r : Resolver) : Prop := {
  resolve_db : forall id, leaves same_db (Resolve r id);
  resolve_routes : forall id, leaves same_routes (Resolve r id);
  resolve_trace : forall id, leaves same_trace (Resolve r id) }.

Definition zeroAssignment : Proto.Assignment := Proto.mkAssignment "" 0 0 0 false.

(** ** [partition]: a nil assignment reads as the zero message. *)
Fixpoint partition_loop (l : list (option Proto.Assignment)) (workers : list Proto.Assignment)
    (host : option Proto.Assignment) : Error + (list Proto.Assignment * Proto.Assignment) :=
  match l with
  | [] =>
      match host with
      | None => inl (ErrorString "orchestrator: plan has no HOST assignment")
      | Some h => inr (workers, h)
      end
  | a :: l =>
      let a := default zeroAssignment a in
      if Proto.Role a =? Proto.ROLE_WORKER then partition_loop l (workers ++ [a]) host
      else if Proto.Role a =? Proto.ROLE_HOST then
        match host with
        | Some _ => inl (ErrorString "orchestrator: plan has more than one HOST assignment")
        | None => partition_loop l workers (Some a)
        end
      else inl (ErrorString "orchestrator: assignment has unspecified role")
  end.

Definition partition (plan : Proto.DeploymentPlan) : Error + (list Proto.Assignment * Proto.Assignment) :=
  partition_loop (Proto.Assignments plan) [] None.

(** ** Reading the event stream until READY *)
Fixpoint awaitReady (addr : string) (evs : list Recv) : Error + string :=
  match evs with
  | [] => inl (ErrorString "timed out waiting for READY")
  | RecvEOF :: _ => inl (ErrorString "engine stream closed before READY")
  | RecvErr e :: _ => inl (Wrap "engine stream error" e)
  | RecvEvent EventReady detail :: _ => inr detail
  | RecvEvent EventError detail :: _ => inl (ErrorString ("engine reported error: " +:+ detail))
  | RecvEvent _ _ :: evs => awaitReady addr evs
  end.

Section Orchestrator.
Context `{E : Env}.

(** ** Resolvers *)

(** [net.JoinHostPort]. *)
Definition JoinHostPort (host port : string) : string :=
  if existsb (Ascii.eqb ":"%char) (String.list_ascii_of_string host) then "[" +:+ host +:+ "]:" +:+ port
  else host +:+ ":" +:+ port.

Definition RegistryResolver_Resolve (agentPort infPort : Z) (nodeID : string) : M (Error + Endpoint) :=
  let* r := GetNode nodeID in
  match r with
  | inl e => cret (inl (Wrap "orchestrator: resolve node" e))
  | inr n =>
      let agent := AdvertisedAgentAddr n in
      let inf := AdvertisedInferenceAddr n in
      if (agent =? "")%string || (inf =? "")%string then
        if (Hostname n =? "")%string then
          cret (inl (ErrorString "orchestrator: node has neither an advertised address nor a hostname to resolve"))
        else
          cret (inr (mkEndpoint
            (if (agent =? "")%string then JoinHostPort (Hostname n) (pretty agentPort) else agent)
            (if (inf =? "")%string then JoinHostPort (Hostname n) (pretty infPort) else inf)))
      else cret (inr (mkEndpoint agent inf))
  end.

Definition NewRegistryResolver (agentPort infPort : Z) : Resolver :=
  let agentPort := if agentPort =? 0 then DefaultAgentPort else agentPort in
  let infPort := if infPort =? 0 then DefaultInferencePort else infPort in
  mkResolver (RegistryResolver_Resolve agentPort infPort).

Definition MapResolver (m : gmap string Endpoint) : Resolver :=
  mkResolver (fun id =>
    match m !! id with
    | Some ep => cret (inr ep)
    | None => cret (inl (ErrorString "orchestrator: no endpoint for node"))
    end).

(** ** The orchestrator: [O_agents] is [agents != nil]. *)
Record Orchestrator : Type := mkOrchestrator {
  O_agents : bool; O_resolver : Resolver; O_gateway : GatewaySync; O_stepTO : Duration }.

Definition New (agents : bool) (res : option Resolver) (gw : option GatewaySync) (to : Duration) : Orchestrator :=
  {| O_agents := agents;
     O_resolver := default (NewRegistryResolver 0 0) res;
     O_gateway := default NopGatewaySync gw;
     O_stepTO := if to <=? 0 then DefaultStepTimeout else to |}.

Definition newID (prefix : string) : M string :=
  let* t := next in cret (prefix +:+ "-" +:+ env_rand t).

(** The errors of [persist] and [audit] are logged. *)
Definition persist (dep : Deployment) (state : string) (detail : DeploymentDetail) : M unit :=
  UpdateDeployment (mkDeployment (DID dep) (DModelID dep) (DPlanID dep) state (Some detail) (DCreatedAt dep)
    (DUpdatedAt dep)) ;;;
  cret ().

Definition audit (action target : string) (details : list (string * string)) : M unit :=
  AppendAudit (mkAuditEntry "orchestrator" action target details zeroTime) ;;; cret ().

Definition startAndWaitReady (addr : string) (req : StartEngineRequest) : M (Error + string) :=
  let* t := next in
  let r := match env_start t addr req with
           | inl e => inl (Wrap ("start engine on " +:+ addr) e)
           | inr evs => awaitReady addr evs
           end in
  emit (CStart addr req r) ;;;
  cret r.

(** The error of [StopEngine] is logged and dropped. *)
Definition stopEngine (e : EngineRef) : M unit :=
  let* t := next in
  emit (CStop (ER_AgentAddr e) (ER_Handle e) (env_stop t (ER_AgentAddr e) (ER_Handle e))).

Fixpoint stopAll (engines : list EngineRef) : M unit :=
  match engines with
  | [] => cret ()
  | e :: engines => stopEngine e ;;; stopAll engines
  end.

Definition rollback (engines : list EngineRef) : M unit := stopAll (reverse engines).

Definition notifyGatewayUp (o : Orchestrator) (depID : string) (detail : DeploymentDetail) : M unit :=
  UpsertRoute (O_gateway o)
    (mkRouteUpdate (DD_ModelID detail) (DD_Endpoint detail) depID (DD_Quantization detail) "active") ;;;
  cret ().

(** ** Apply *)

Definition workerReq (plan : Proto.DeploymentPlan) (w : Proto.Assignment) : StartEngineRequest :=
  mkStartEngineRequest (Proto.DModelId plan) Proto.ROLE_WORKER (Proto.LayerStart w) (Proto.LayerEnd w) []
    (Proto.DQuantization plan) (Proto.ADraft w).

Definition hostReq (plan : Proto.DeploymentPlan) (h : Proto.Assignment) (peers : list string) : StartEngineRequest :=
  mkStartEngineRequest (Proto.DModelId plan) Proto.ROLE_HOST (Proto.LayerStart h) (Proto.LayerEnd h) peers
    (Proto.DQuantization plan) (Proto.ADraft h).

(** The worker loop: the engines started so far, and the peers' addresses or the
    reason and cause of the failure. *)
Fixpoint startWorkers (o : Orchestrator) (plan : Proto.DeploymentPlan) (ws : list Proto.Assignment)
    (started : list EngineRef) (peers : list string) : M (list EngineRef * (string * Error + list string)) :=
  match ws with
  | [] => cret (started, inr peers)
  | w :: ws =>
      let* r := Resolve (O_resolver o) (Proto.NodeId w) in
      match r with
      | inl e => cret (started, inl ("resolve worker " +:+ Proto.NodeId w, e))
      | inr ep =>
          let* h := startAndWaitReady (AgentAddr ep) (workerReq plan w) in
          match h with
          | inl e => cret (started, inl ("worker " +:+ Proto.NodeId w +:+ " not ready", e))
          | inr handle =>
              startWorkers o plan ws
                (started ++ [mkEngineRef (Proto.NodeId w) (AgentAddr ep) "worker" handle])
                (peers ++ [InferenceAddr ep])
          end
      end
  end.

Definition baseDetail (plan : Proto.DeploymentPlan) : DeploymentDetail :=
  mkDetail (Proto.DModelId plan) (Proto.DQuantization plan) "" "" [] "" "".

(** The closure [fail]. *)
Definition fail (dep : Deployment) (plan : Proto.DeploymentPlan) (started : list EngineRef) (reason : string)
    (cause : Error) : M (string * option Error) :=
  rollback started ;;;
  persist dep StateFailed
    (mkDetail (Proto.DModelId plan) (Proto.DQuantization plan) "" "" started "" reason) ;;;
  audit "deployment.failed" (DID dep) [("reason", reason)]%string ;;;
  cret (DID dep, Some (Wrap ("orchestrator: deployment " +:+ DID dep +:+ " failed: " +:+ reason) cause)).

Definition Apply (o : Orchestrator) (plan : option Proto.DeploymentPlan) : M (string * option Error) :=
  if negb (O_agents o) then cret (""%string, Some (ErrorString "orchestrator: no AgentClient configured")) else
  match plan with
  | None => cret (""%string, Some (ErrorString "orchestrator: nil plan"))
  | Some plan =>
      match partition plan with
      | inl e => cret (""%string, Some e)
      | inr (workers, host) =>
          let* depID := newID "dep" in
          let dep := mkDeployment depID (Proto.DModelId plan) (Proto.PlanId plan) StateProvisioning
                       (Some (baseDetail plan)) zeroTime zeroTime in
          let* err := CreateDeployment dep in
          match err with
          | Some e => cret (""%string, Some (Wrap "orchestrator: create deployment" e))
          | None =>
              audit "deployment.provisioning" depID
                [("model_id", Proto.DModelId plan); ("plan_id", Proto.PlanId plan)]%string ;;;
              let* (started, r) := startWorkers o plan workers [] [] in
              match r with
              | inl (reason, cause) => fail dep plan started reason cause
              | inr peers =>
                  let* r := Resolve (O_resolver o) (Proto.NodeId host) in
                  match r with
                  | inl e => fail dep plan started ("resolve host " +:+ Proto.NodeId host) e
                  | inr ep =>
                      let* h := startAndWaitReady (AgentAddr ep) (hostReq plan host peers) in
                      match h with
                      | inl e => fail dep plan started ("host " +:+ Proto.NodeId host +:+ " not ready") e
                      | inr handle =>
                          let started := started ++ [mkEngineRef (Proto.NodeId host) (AgentAddr ep) "host" handle] in
                          let detail := mkDetail (Proto.DModelId plan) (Proto.DQuantization plan)
                                          (Proto.NodeId host) ("http://" +:+ InferenceAddr ep) started "" "" in
                          persist dep StateActive detail ;;;
                          audit "deployment.active" depID
                            [("host", Proto.NodeId host); ("endpoint", DD_Endpoint detail)]%string ;;;
                          notifyGatewayUp o depID detail ;;;
                          cret (depID, None)
                      end
                  end
              end
          end
      end
  end.

(** ** Teardown and RestartEngine *)

Definition detailOf (d : Deployment) : DeploymentDetail := default DeploymentDetail_zero (DDetail d).

Definition Teardown (o : Orchestrator) (deploymentID : string) : M (option Error) :=
  let* r := GetDeployment deploymentID in
  match r with
  | inl e => cret (Some (Wrap "orchestrator: teardown" e))
  | inr dep =>
      let detail := detailOf dep in
      persist dep StateStopping detail ;;;
      audit "deployment.stopping" deploymentID [] ;;;
      rollback (DD_Engines detail) ;;;
      (if (DD_ModelID detail =? "")%string then cret None else DeleteRoute (O_gateway o) (DD_ModelID detail)) ;;;
      persist dep StateStopped detail ;;;
      audit "deployment.stopped" deploymentID [] ;;;
      cret None
  end.

(** The first engine of the node, and its index. *)
Fixpoint findEngine (nodeID : string) (i : nat) (l : list EngineRef) : option (nat * EngineRef) :=
  match l with
  | [] => None
  | e :: l => if (ER_NodeID e =? nodeID)%string then Some (i, e) else findEngine nodeID (S i) l
  end.

Definition restartReq (detail : DeploymentDetail) (ref : EngineRef) : StartEngineRequest :=
  mkStartEngineRequest (DD_ModelID detail)
    (if (ER_Role ref =? "host")%string then Proto.ROLE_HOST else Proto.ROLE_WORKER) 0 0 []
    (DD_Quantization detail) false.

Definition RestartEngine (deploymentID nodeID : string) : M (option Error) :=
  let* r := GetDeployment deploymentID in
  match r with
  | inl e => cret (Some (Wrap "orchestrator: restart" e))
  | inr dep =>
      let detail := detailOf dep in
      match findEngine nodeID 0 (DD_Engines detail) with
      | None => cret (Some (ErrorString "orchestrator: node not part of deployment"))
      | Some (idx, ref) =>
          let* h := startAndWaitReady (ER_AgentAddr ref) (restartReq detail ref) in
          match h with
          | inl e => cret (Some (Wrap "orchestrator: restart node" e))
          | inr handle =>
              let ref' := mkEngineRef (ER_NodeID ref) (ER_AgentAddr ref) (ER_Role ref) handle in
              persist dep StateActive
                (mkDetail (DD_ModelID detail) (DD_Quantization detail) (DD_HostNodeID detail) (DD_Endpoint detail)
                   (<[idx := ref']> (DD_Engines detail)) (DD_FailoverPlanID detail) (DD_Error detail)) ;;;
              audit "engine.restarted" deploymentID [("node", nodeID)]%string ;;;
              cret None
          end
      end
  end.

(** ** The steps *)

Lemma persist_spec dep st det w u w' :
  persist dep st det w = (u, w') ->
  outside_same w w' /\ only_deployment (DID dep) w w' /\
  (HealthyDB E -> forall row, deployment w (DID dep) = Some row -> exists now,
     deployment w' (DID dep) =
       Some (mkDeployment (DID row) (DModelID dep) (DPlanID dep) st (Some det) (DCreatedAt row) now)).
Proof.
  unfold persist. intros H. run_step H. injection H as _ <-. apply UpdateDeployment_spec in Hrun as (Ho & Hd & Hr).
  split; [done|]. split; [done|]. intros Hh row Hrow. destruct r as [e|].
  - destruct Hr as [_ Hr]. by rewrite (Hr Hh : deployment w (DID dep) = None) in Hrow.
  - destruct Hr as (row' & now & H1 & H2). exists now.
    change (deployment w (DID dep) = Some row') in H1. rewrite (H2 : deployment w0 (DID dep) = _).
    assert (row' = row) as -> by congruence. done.
Qed.

Lemma audit_spec a t l w u w' :
  audit a t l w = (u, w') ->
  outside_same w w' /\ (forall id, only_deployment id w w') /\ forall id, deployment w' id = deployment w id.
Proof.
  unfold audit. intros H. run_step H. injection H as _ <-.
  apply AppendAudit_spec in Hrun as (Ho & H1 & H2 & H3 & H4). split; [done|].
  assert (Hd : forall id, deployment w0 id = deployment w id) by (intros id; unfold deployment; by rewrite H4).
  split; [|done]. intros id. repeat split; auto.
Qed.

Lemma newID_spec p w id w' : newID p w = (id, w') ->
  w_db w' = w_db w /\ outside_same w w' /\ exists rnd, id = p +:+ "-" +:+ rnd.
Proof. intros [= <- <-]. split; [done|]. split; [done|]. eauto. Qed.

(** One stop for each engine, in order, with the agent's own answer. *)
Definition stops : list EngineRef -> list Command -> Prop :=
  Forall2 (fun e c => exists t,
    c = CStop (ER_AgentAddr e) (ER_Handle e) (env_stop t (ER_AgentAddr e) (ER_Handle e))).

Lemma stopAll_spec l : forall w u w', stopAll l w = (u, w') ->
  w_db w' = w_db w /\ w_routes w' = w_routes w /\ exists cs, stops l cs /\ w_trace w' = w_trace w ++ cs.
Proof.
  induction l as [|e l IH]; intros w u w'; cbn [stopAll].
  - intros [= _ <-]. split; [done|]. split; [done|]. exists []. rewrite app_nil_r. by split; [constructor|].
  - intros H. run_step H. unfold stopEngine in Hrun. run_step Hrun. injection Hrun0 as <- <-. injection Hrun as _ <-.
    apply IH in H as (H1 & H2 & cs & H3 & H4). split; [done|]. split; [done|].
    eexists (_ :: cs). cbn in H4. rewrite <- app_assoc in H4. split; [|exact H4]. constructor; [by eexists|done].
Qed.

Lemma rollback_spec l w u w' : rollback l w = (u, w') ->
  w_db w' = w_db w /\ w_routes w' = w_routes w /\ exists cs, stops (reverse l) cs /\ w_trace w' = w_trace w ++ cs.
Proof. apply stopAll_spec. Qed.

(** The engines that reached READY and whose stop no agent acknowledged. *)
Definition stoppedIn (cmds : list Command) (addr handle : string) : bool :=
  existsb (fun c => match c with CStop a h None => (a =? addr)%string && (h =? handle)%string | _ => false end) cmds.

Definition stillUp (cmds : list Command) : list (string * string) :=
  flat_map (fun c => match c with
                     | CStart addr _ (inr handle) => if stoppedIn cmds addr handle then [] else [(addr, handle)]
                     | _ => []
                     end) cmds.

Lemma startAndWaitReady_spec addr req w r w' : startAndWaitReady addr req w = (r, w') ->
  w_db w' = w_db w /\ w_routes w' = w_routes w /\ w_trace w' = w_trace w ++ [CStart addr req r].
Proof. unfold startAndWaitReady. intros H. run_step H. injection Hrun as <- <-. by injection H as <- <-. Qed.

(** An engine that is up: its assignment, where it runs and its handle. *)
Record Launch : Type := mkLaunch { L_assignment : Proto.Assignment; L_endpoint : Endpoint; L_handle : string }.

Definition launchRef (role : string) (l : Launch) : EngineRef :=
  mkEngineRef (Proto.NodeId (L_assignment l)) (AgentAddr (L_endpoint l)) role (L_handle l).

Definition workerCmd (plan : Proto.DeploymentPlan) (l : Launch) : Command :=
  CStart (AgentAddr (L_endpoint l)) (workerReq plan (L_assignment l)) (inr (L_handle l)).

Definition hostCmd (plan : Proto.DeploymentPlan) (peers : list string) (l : Launch) : Command :=
  CStart (AgentAddr (L_endpoint l)) (hostReq plan (L_assignment l) peers) (inr (L_handle l)).

Definition peersOf (ls : list Launch) : list string := map (fun l => InferenceAddr (L_endpoint l)) ls.

(** A command that started no engine. *)
Definition failedStart (c : Command) : Prop := exists addr req e, c = CStart addr req (inl e).

Lemma startWorkers_spec o plan (HR : ResolverFrame (O_resolver o)) ws :
  forall started peers w st r w', startWorkers o plan ws started peers w = ((st, r), w') ->
  w_db w' = w_db w /\ w_routes w' = w_routes w /\
  exists ls last, st = started ++ map (launchRef "worker") ls /\
    w_trace w' = w_trace w ++ map (workerCmd plan) ls ++ last /\
    match r with
    | inr ps => last = [] /\ ps = peers ++ peersOf ls /\ map L_assignment ls = ws
    | inl _ => (length last <= 1)%nat /\ Forall failedStart last /\
               exists a rest, ws = map L_assignment ls ++ a :: rest
    end.
Proof.
  induction ws as [|a ws IH]; intros started peers w st r w'; cbn [startWorkers].
  - intros [= <- <- <-]. split; [done|]. split; [done|]. exists [], []. cbn. by rewrite !app_nil_r.
  - intros H. run_step H. pose proof (resolve_db (Proto.NodeId a) w) as R1.
    pose proof (resolve_routes (Proto.NodeId a) w) as R2. pose proof (resolve_trace (Proto.NodeId a) w) as R3.
    rewrite Hrun in R1, R2, R3. unfold same_db, same_routes, same_trace in *. cbn in R1, R2, R3.
    destruct r0 as [e|ep].
    { injection H as <- <- <-. split; [done|]. split; [done|]. exists [], []. cbn.
      rewrite !app_nil_r. repeat split; [done..|lia|constructor|]. by exists a, ws. }
    run_step H. apply startAndWaitReady_spec in Hrun0 as (S1 & S2 & S3). destruct r0 as [e|h].
    { injection H as <- <- <-. split; [congruence|]. split; [congruence|].
      exists [], [CStart (AgentAddr ep) (workerReq plan a) (inl e)]. cbn. rewrite app_nil_r, S3, R3.
      repeat split; [lia| |by exists a, ws]. constructor; [|constructor]. by do 3 eexists. }
    apply IH in H as (T1 & T2 & ls & last & T3 & T4 & T5). split; [congruence|]. split; [congruence|].
    exists (mkLaunch a ep h :: ls), last. cbn. rewrite <- app_assoc in T3. split; [done|].
    split; [rewrite T4, S3, R3, <- app_assoc; done|].
    destruct r as [e|ps]; [destruct T5 as (B1 & B2 & a' & rest & ->); eauto 10|].
    destruct T5 as (-> & -> & <-). rewrite <- app_assoc. done.
Qed.

Lemma fail_spec dep plan started reason cause w r w' :
  fail dep plan started reason cause w = (r, w') ->
  (exists e, r = (DID dep, Some e)) /\ w_routes w' = w_routes w /\
  (exists cs, stops (reverse started) cs /\ w_trace w' = w_trace w ++ cs) /\ only_deployment (DID dep) w w' /\
  (HealthyDB E -> is_Some (deployment w (DID dep)) -> exists row, deployment w' (DID dep) = Some row /\
     DState row = StateFailed /\ DD_Engines (detailOf row) = started /\ DD_Error (detailOf row) = reason).
Proof.
  unfold fail. intros H. run_step H. apply rollback_spec in Hrun as (A1 & A2 & cs & As & A3).
  run_step H. apply persist_spec in Hrun as ((B1 & B1') & B2 & B3).
  run_step H. apply audit_spec in Hrun as ((C1 & C1') & C2 & C3). injection H as <- <-.
  split; [eauto|]. split; [congruence|]. split; [exists cs; split; [done|congruence]|]. split.
  - etrans; [by apply same_db_only|]. etrans; [apply B2|apply C2].
  - intros Hh [row Hrow]. assert (Hrow' : deployment w0 (DID dep) = Some row) by (unfold deployment; by rewrite A1).
    destruct (B3 Hh row Hrow') as (now & Hn). rewrite C3, Hn. eauto.
Qed.

(** ** What [partition] accepts *)

Definition isWorker (a : Proto.Assignment) : bool := Proto.Role a =? Proto.ROLE_WORKER.
Definition isHost (a : Proto.Assignment) : bool := Proto.Role a =? Proto.ROLE_HOST.

Definition assignmentsOf (l : list (option Proto.Assignment)) : list Proto.Assignment :=
  map (default zeroAssignment) l.

Lemma partition_loop_spec l : forall ws host ws' h,
  partition_loop l ws host = inr (ws', h) <->
  Forall (fun a => isWorker a = true \/ isHost a = true) (assignmentsOf l) /\
  ws' = ws ++ List.filter isWorker (assignmentsOf l) /\
  match host with
  | None => List.filter isHost (assignmentsOf l) = [h]
  | Some h0 => h = h0 /\ List.filter isHost (assignmentsOf l) = []
  end.
Proof.
  induction l as [|a l IH]; intros ws host ws' h; cbn [partition_loop].
  - destruct host as [h0|]; cbn; rewrite app_nil_r; split.
    + intros [= -> ->]. done.
    + intros (_ & -> & -> & _). done.
    + done.
    + by intros (_ & _ & ?).
  - change (assignmentsOf (a :: l)) with (default zeroAssignment a :: assignmentsOf l).
    generalize (default zeroAssignment a). intros b. rewrite Forall_cons. cbn [List.filter].
    change (Proto.Role b =? Proto.ROLE_WORKER) with (isWorker b).
    change (Proto.Role b =? Proto.ROLE_HOST) with (isHost b).
    destruct (isWorker b) eqn:Ew.
    + assert (isHost b = false) as ->.
      { unfold isWorker, isHost in *. apply Z.eqb_eq in Ew. by rewrite Ew. }
      rewrite IH, <- app_assoc. cbn [app]. intuition.
    + destruct (isHost b) eqn:Eh; [|split; [done|]; intros ((Hb & _) & _); by destruct Hb].
      destruct host as [h0|]; [split; [done|]; by intros (_ & _ & _ & ?)|]. rewrite IH. split.
      * intros (HF & -> & -> & ->). auto.
      * intros ((_ & HF) & -> & [= -> ->]). auto.
Qed.

Lemma partition_iff plan ws h :
  partition plan = inr (ws, h) <->
  Forall (fun a => isWorker a = true \/ isHost a = true) (assignmentsOf (Proto.Assignments plan)) /\
  ws = List.filter isWorker (assignmentsOf (Proto.Assignments plan)) /\
  List.filter isHost (assignmentsOf (Proto.Assignments plan)) = [h].
Proof. apply (partition_loop_spec _ [] None). Qed.

(** ** Apply *)

Context (o : Orchestrator) (HR : ResolverFrame (O_resolver o)) (HG : GatewayFrame (O_gateway o)).

(** The row of an active deployment. *)
Definition activeDetail (plan : Proto.DeploymentPlan) (ls : list Launch) (host : Launch) : DeploymentDetail :=
  mkDetail (Proto.DModelId plan) (Proto.DQuantization plan) (Proto.NodeId (L_assignment host))
    ("http://" +:+ InferenceAddr (L_endpoint host))
    (map (launchRef "worker") ls ++ [launchRef "host" host]) "" "".

Definition routeOf (depID : string) (d : DeploymentDetail) : RouteUpdate :=
  mkRouteUpdate (DD_ModelID d) (DD_Endpoint d) depID (DD_Quantization d) "active".

(** The three ways [Apply] ends: refused before anything was started, rolled back,
    or active. *)
Definition refused (w : World) (id : string) (err : option Error) (w' : World) : Prop :=
  id = ""%string /\ err ≠ None /\ w_routes w' = w_routes w /\ w_trace w' = w_trace w /\
  db_deployments (w_db w') = db_deployments (w_db w).

Definition rolledBack (plan : Proto.DeploymentPlan) (w : World) (id : string) (err : option Error) (w' : World)
    (ls : list Launch) : Prop :=
  err ≠ None /\ deployment w id = None /\ only_deployment id w w' /\ w_routes w' = w_routes w /\
  (exists last stopped, (length last <= 1)%nat /\ Forall failedStart last /\
     stops (reverse (map (launchRef "worker") ls)) stopped /\
     w_trace w' = w_trace w ++ map (workerCmd plan) ls ++ last ++ stopped) /\
  (HealthyDB E -> exists row, deployment w' id = Some row /\ DState row = StateFailed /\
     DD_Engines (detailOf row) = map (launchRef "worker") ls).

Definition activated (plan : Proto.DeploymentPlan) (w : World) (id : string) (err : option Error) (w' : World)
    (ls : list Launch) (host : Launch) : Prop :=
  err = None /\ deployment w id = None /\ only_deployment id w w' /\
  partition plan = inr (map L_assignment ls, L_assignment host) /\
  (exists cmds, Forall (fun c => c = CUpsert (routeOf id (activeDetail plan ls host))) cmds /\
     w_trace w' = w_trace w ++ map (workerCmd plan) ls ++ [hostCmd plan (peersOf ls) host] ++ cmds) /\
  (GatewayEffect (O_gateway o) -> forall m, m ≠ Proto.DModelId plan -> w_routes w' !! m = w_routes w !! m) /\
  (GatewayEffect (O_gateway o) -> GatewayUp (O_gateway o) ->
     w_routes w' !! Proto.DModelId plan = Some (routeOf id (activeDetail plan ls host))) /\
  (HealthyDB E -> exists row, deployment w' id = Some row /\ DState row = StateActive /\
     DDetail row = Some (activeDetail plan ls host) /\
     DID row = id /\ DModelID row = Proto.DModelId plan /\ DPlanID row = Proto.PlanId plan).

Lemma fail_rolledBack plan ls last reason cause w w1 dep r w' :
  fail dep plan (map (launchRef "worker") ls) reason cause w1 = (r, w') ->
  deployment w (DID dep) = None -> only_deployment (DID dep) w w1 -> w_routes w1 = w_routes w ->
  w_trace w1 = w_trace w ++ map (workerCmd plan) ls ++ last -> (length last <= 1)%nat -> Forall failedStart last ->
  is_Some (deployment w1 (DID dep)) ->
  fst r = DID dep /\ rolledBack plan w (DID dep) (snd r) w' ls.
Proof.
  intros H H1 H2 H3 H4 H5 H6 H7. apply fail_spec in H as ((e & ->) & A1 & (cs & As & A2) & A3 & A4).
  split; [done|]. split; [done|]. split; [done|]. split; [by etrans|]. split; [congruence|]. split.
  - exists last, cs. split_and!; [done..|]. by rewrite A2, H4, <- !app_assoc.
  - intros Hh. destruct (A4 Hh H7) as (row & R1 & R2 & R3 & _). eauto.
Qed.

(** The tail of [Apply] once the host is ready. *)
Lemma activate_run plan ls host w w1 depID dep u w' :
  DID dep = depID -> DModelID dep = Proto.DModelId plan -> DPlanID dep = Proto.PlanId plan ->
  (persist dep StateActive (activeDetail plan ls host) ;;;
   audit "deployment.active" depID
     [("host", Proto.NodeId (L_assignment host)); ("endpoint", DD_Endpoint (activeDetail plan ls host))]%string ;;;
   notifyGatewayUp o depID (activeDetail plan ls host) ;;;
   cret (depID, None)) w1 = (u, w') ->
  deployment w depID = None -> only_deployment depID w w1 -> w_routes w1 = w_routes w ->
  w_trace w1 = w_trace w ++ map (workerCmd plan) ls ++ [hostCmd plan (peersOf ls) host] ->
  (exists row, deployment w1 depID = Some row /\ DID row = depID) -> partition plan = inr (map L_assignment ls, L_assignment host) ->
  fst u = depID /\ activated plan w depID (snd u) w' ls host.
Proof.
  intros <- Hmodel Hplan H H1 H2 H3 H4 (row0 & H5 & H5') H6. run_step H. apply persist_spec in Hrun as ((A1 & A1') & A2 & A3).
  run_step H. apply audit_spec in Hrun as ((B1 & B1') & B2 & B3). run_step H. injection H as <- <-.
  unfold notifyGatewayUp in Hrun. run_step Hrun. injection Hrun as _ <-.
  change (mkRouteUpdate _ _ _ _ _) with (routeOf (DID dep) (activeDetail plan ls host)) in Hrun0.
  set (rt := routeOf _ _) in *.
  pose proof (upsert_db rt w2) as C1. pose proof (upsert_issues rt w2) as C2.
  pose proof (fun HE : GatewayEffect (O_gateway o) => upsert_other rt w2) as C3.
  pose proof (fun HE : GatewayEffect (O_gateway o) => upsert_done rt w2) as C4.
  pose proof (fun HU : GatewayUp (O_gateway o) => upsert_up rt w2) as C5.
  rewrite Hrun0 in C1, C2, C3, C4, C5. cbn [fst snd] in *. destruct C2 as (cmds & C2 & C2').
  split; [done|]. split; [done|]. split; [done|]. split; [|split; [done|split; [|split; [|split]]]].
  - etrans; [apply H2|]. etrans; [apply A2|]. etrans; [apply B2|]. by apply same_db_only.
  - exists cmds. split; [done|]. rewrite C2, B1', A1', H4, <- !app_assoc. done.
  - intros HE m Hm. rewrite (C3 HE m Hm), B1, A1. by rewrite H3.
  - intros HE HU. rewrite (C4 HE (C5 HU)). apply lookup_insert_eq.
  - intros Hh. destruct (A3 Hh row0 H5) as (now & Hn). exists (mkDeployment (DID row0) (DModelID dep) (DPlanID dep)
      StateActive (Some (activeDetail plan ls host)) (DCreatedAt row0) now).
    split; [|by split_and!]. rewrite <- Hn, <- B3. unfold deployment. by rewrite C1.
Qed.

Lemma Apply_run plan w id err w' :
  Apply o (Some plan) w = ((id, err), w') ->
  refused w id err w' \/ (exists ls, rolledBack plan w id err w' ls) \/
  (exists ls host, activated plan w id err w' ls host).
Proof.
  unfold Apply. intros H. destruct (negb (O_agents o)); [injection H as <- <- <-; by left|].
  destruct (partition plan) as [e|[ws h]] eqn:Hp; [injection H as <- <- <-; by left|].
  run_step H. apply newID_spec in Hrun as (A1 & A2 & rnd & A3). run_step H.
  pose proof Hrun as Hc. apply CreateDeployment_spec in Hc as (B1 & B2 & B3). cbn [DID] in *.
  destruct r0 as [e|].
  { injection H as <- <- <-. left. destruct A2, B1. split; [done|]. rewrite B3, A1. repeat split; congruence. }
  right. destruct B3 as (B3 & created & now & B4). run_step H.
  apply audit_spec in Hrun0 as (C1 & C2 & C3). run_step H. destruct r1 as [st r1].
  apply (startWorkers_spec o plan HR) in Hrun0 as (D1 & D2 & ls & last & D3 & D4 & D5). cbn [app] in D3. subst st.
  pose (dep0 := mkDeployment r (Proto.DModelId plan) (Proto.PlanId plan) StateProvisioning (Some (baseDetail plan))
                  zeroTime zeroTime).
  assert (F0 : deployment w r = None) by (rewrite <- B3; unfold deployment; by rewrite A1).
  assert (F1 : only_deployment r w w3).
  { etrans; [by apply same_db_only|]. etrans; [apply B2|]. etrans; [apply C2|]. by apply same_db_only. }
  assert (F2 : w_routes w3 = w_routes w) by (destruct A2, B1, C1; congruence).
  assert (F3 : w_trace w3 = w_trace w ++ map (workerCmd plan) ls ++ last).
  { rewrite D4. destruct A2, B1, C1. congruence. }
  assert (F5 : exists row, deployment w3 r = Some row /\ DID row = r).
  { unfold deployment in *. rewrite D1. fold (deployment w2 r). unfold deployment. rewrite C3, B4. by eexists. }
  assert (F4 : is_Some (deployment w3 r)) by (destruct F5 as (row & -> & _); by eexists).
  clear A1 A2 A3 B1 B2 B3 B4 C1 C2 C3 D1 D2 D4 Hrun.
  destruct r1 as [[reason cause]|peers].
  { destruct D5 as (L1 & L2 & _). left. exists ls.
    destruct (fail_rolledBack plan ls last reason cause w w3 dep0 _ _ H F0 F1 F2 F3 L1 L2 F4)
      as (E1 & E2). cbn in E1, E2. by subst. }
  destruct D5 as (-> & -> & <-). rewrite app_nil_r in F3. cbn [app] in H. run_step H.
  pose proof (resolve_db (Proto.NodeId h) w3) as R1. pose proof (resolve_routes (Proto.NodeId h) w3) as R2.
  pose proof (resolve_trace (Proto.NodeId h) w3) as R3. rewrite Hrun in R1, R2, R3.
  unfold same_db, same_routes, same_trace in *. cbn [snd] in R1, R2, R3.
  assert (F4' : forall w4, w_db w4 = w_db w3 -> is_Some (deployment w4 r)).
  { intros wx Hw. unfold deployment. by rewrite Hw. }
  assert (F1' : forall w4, w_db w4 = w_db w3 -> only_deployment r w w4).
  { intros wx Hw. etrans; [apply F1|]. by apply same_db_only. }
  destruct r1 as [e|ep].
  { left. exists ls. edestruct (fail_rolledBack plan ls [] _ _ w w4 dep0 _ _ H F0 (F1' _ R1)
      (eq_trans R2 F2)) as (E1 & E2); [rewrite app_nil_r; congruence|cbn; lia|done|by apply F4'|].
    cbn in E1, E2. by subst. }
  run_step H. apply startAndWaitReady_spec in Hrun0 as (S1 & S2 & S3). destruct r1 as [e|hh].
  { left. exists ls. edestruct (fail_rolledBack plan ls [CStart (AgentAddr ep) (hostReq plan h (peersOf ls)) (inl e)]
      _ _ w w5 dep0 _ _ H F0) as (E1 & E2);
      [apply F1'; congruence|congruence|rewrite S3, R3, F3, <- app_assoc; done|cbn; lia
      |constructor; [by do 3 eexists|done]|apply F4'; congruence|]. cbn in E1, E2. by subst. }
  right. exists ls, (mkLaunch h ep hh).
  edestruct (activate_run plan ls (mkLaunch h ep hh) w w5 r dep0 _ _ eq_refl eq_refl eq_refl H F0) as (E1 & E2);
    [apply F1'; congruence|congruence|rewrite S3, R3, F3, <- app_assoc; done
    |unfold deployment; rewrite S1, R1; exact F5|exact Hp|].
  cbn in E1, E2. by subst.
Qed.

(** When the agents acknowledge the stops, no engine that was READY is left. *)
Lemma rolledBack_down plan ls last stopped :
  (forall t a h, env_stop t a h = None) -> Forall failedStart last ->
  stops (reverse (map (launchRef "worker") ls)) stopped ->
  stillUp (map (workerCmd plan) ls ++ last ++ stopped) = [].
Proof.
  intros Ha Hl Hs. set (cmds := _ ++ last ++ stopped).
  assert (Hup : forall c, c ∈ cmds -> match c with CStart addr _ (inr h) => stoppedIn cmds addr h = true | _ => True end).
  { intros c Hc. apply elem_of_app in Hc as [Hc|[Hc|Hc]%elem_of_app].
    - apply list_elem_of_fmap in Hc as (l & -> & Hl'). apply existsb_exists.
      assert (Hr : launchRef "worker" l ∈ reverse (map (launchRef "worker") ls)) by (by apply elem_of_reverse, list_elem_of_fmap_2).
      apply list_elem_of_lookup in Hr as (i & Hi). destruct (Forall2_lookup_l _ _ _ _ _ Hs Hi) as (c & Hc & t & ->).
      eexists. split; [apply list_elem_of_In, elem_of_app; right; apply elem_of_app; right; by eapply list_elem_of_lookup_2|].
      cbn. by rewrite Ha, !String.eqb_refl.
    - rewrite Forall_forall in Hl. destruct (Hl _ Hc) as (a & r & e & ->). done.
    - apply list_elem_of_lookup in Hc as (i & Hi). by destruct (Forall2_lookup_r _ _ _ _ _ Hs Hi) as (e & _ & t & ->). }
  unfold stillUp. clearbody cmds. clear Hs Hl.
  assert (Hl : forall c, c ∈ cmds -> c ∈ cmds) by done. revert Hl. generalize cmds at 1 4. intros l Hl.
  induction l as [|c l IH]; [done|]. cbn. rewrite IH by (intros c' Hc'; apply Hl; by right). rewrite app_nil_r.
  specialize (Hup c (Hl c ltac:(left))). destruct c as [addr req [e|h]| | | |]; try done. by rewrite Hup.
Qed.

(** ** Resolvers only read *)

#[export] Instance RegistryResolver_frame a i : ResolverFrame (NewRegistryResolver a i).
Proof.
  assert (H : forall a' i' id w, w_db (RegistryResolver_Resolve a' i' id w).2 = w_db w /\
                outside_same w (RegistryResolver_Resolve a' i' id w).2).
  { intros a' i' id w. unfold RegistryResolver_Resolve. rewrite cbind_run.
    destruct (GetNode id w) as [r w1] eqn:Eg. apply query_spec in Eg as (H1 & H2 & _). cbn [fst snd].
    destruct r as [e|n]; [done|]. repeat case_match; done. }
  split; intros id w; cbn [NewRegistryResolver Resolve]; apply H.
Qed.

#[export] Instance MapResolver_frame m : ResolverFrame (MapResolver m).
Proof. split; intros id w; cbn; by destruct (m !! id). Qed.

(** ** Teardown *)

Lemma Teardown_run id dep w err w' :
  HealthyDB E -> deployment w id = Some dep -> DID dep = id -> Teardown o id w = (err, w') ->
  let d := detailOf dep in
  err = None /\ only_deployment id w w' /\
  (exists now, deployment w' id = Some (mkDeployment id (DModelID dep) (DPlanID dep) StateStopped (Some d)
                                          (DCreatedAt dep) now)) /\
  (exists stopped cmds, stops (reverse (DD_Engines d)) stopped /\ w_trace w' = w_trace w ++ stopped ++ cmds /\
     Forall (fun c => c = CDelete (DD_ModelID d)) cmds) /\
  (GatewayEffect (O_gateway o) -> plainID (DD_ModelID d) = true -> forall m, m ≠ DD_ModelID d -> w_routes w' !! m = w_routes w !! m) /\
  (GatewayEffect (O_gateway o) -> GatewayUp (O_gateway o) -> plainID (DD_ModelID d) = true ->
     w_routes w' !! DD_ModelID d = None).
Proof.
  intros Hh Hdep Hid H d. unfold Teardown in H. run_step H.
  apply GetDeployment_spec in Hrun as (G1 & (G2 & G2') & G3).
  destruct r as [e|dep']; [by rewrite (G3 Hh) in Hdep|]. assert (dep' = dep) as -> by congruence. clear G3.
  change (detailOf dep) with d in H.
  run_step H. apply persist_spec in Hrun as ((P1 & P1') & P2 & P3).
  run_step H. apply audit_spec in Hrun as ((A1 & A1') & A2 & A3).
  run_step H. apply rollback_spec in Hrun as (R1 & R2 & cs & Rs & R3).
  run_step H. run_step H. apply persist_spec in Hrun0 as ((Q1 & Q1') & Q2 & Q3).
  run_step H. apply audit_spec in Hrun0 as ((B1 & B1') & B2 & B3). injection H as <- <-.
  rewrite Hid in *.
  assert (HD : w_db w4 = w_db w3 /\
    (exists cmds, w_trace w4 = w_trace w3 ++ cmds /\ Forall (fun c => c = CDelete (DD_ModelID d)) cmds) /\
    (GatewayEffect (O_gateway o) -> plainID (DD_ModelID d) = true -> forall m, m ≠ DD_ModelID d -> w_routes w4 !! m = w_routes w3 !! m) /\
    (GatewayEffect (O_gateway o) -> GatewayUp (O_gateway o) -> plainID (DD_ModelID d) = true ->
       w_routes w4 !! DD_ModelID d = None)).
  { destruct (String.eqb_spec (DD_ModelID d) "").
    - injection Hrun as _ <-. split; [done|]. split; [exists []; by rewrite app_nil_r|].
      split; [done|]. intros _ _ Hp. unfold plainID in Hp. by rewrite (proj2 (String.eqb_eq _ _)) in Hp by done.
    - pose proof (delete_db (DD_ModelID d) w3) as C1. pose proof (delete_issues (DD_ModelID d) w3) as C2.
      pose proof (fun HE : GatewayEffect (O_gateway o) => delete_other (DD_ModelID d) w3) as C3.
      pose proof (fun HE : GatewayEffect (O_gateway o) => delete_done (DD_ModelID d) w3) as C4.
      pose proof (fun HU : GatewayUp (O_gateway o) => delete_up (DD_ModelID d) w3) as C5.
      rewrite Hrun in C1, C2, C3, C4, C5. cbn [fst snd] in *. split; [done|]. split; [done|]. split; [intros HE Hp m; by apply (C3 HE)|].
      intros HE HU Hp. rewrite (C4 HE Hp (C5 HU Hp)). apply lookup_delete_eq. }
  destruct HD as (D1 & (cmds & D2 & D2') & D3 & D4).
  assert (Hr : w_routes w3 = w_routes w) by congruence. assert (Hr' : w_routes w6 = w_routes w4) by congruence.
  split; [done|]. split; [|split; [|split; [|split]]].
  - etrans; [by apply same_db_only|]. etrans; [apply P2|]. etrans; [apply A2|]. etrans; [by apply same_db_only|].
    etrans; [by apply same_db_only|]. etrans; [apply Q2|apply B2].
  - destruct (P3 Hh dep) as (t1 & N1); [unfold deployment in *; by rewrite G1|]. rewrite Hid in N1.
    destruct (Q3 Hh (mkDeployment id (DModelID dep) (DPlanID dep) StateStopping (Some d) (DCreatedAt dep) t1))
      as (t2 & N2); [|rewrite B3, N2; eauto].
    rewrite <- N1, <- A3. unfold deployment. by rewrite D1, R1.
  - exists cs, cmds. split; [done|]. split; [|done]. rewrite B1', Q1', D2, R3, A1', P1', G2', <- app_assoc. done.
  - intros HE Hp m Hm. by rewrite Hr', (D3 HE Hp m Hm), Hr.
  - intros HE HU Hp. by rewrite Hr', (D4 HE HU Hp).
Qed.

(** ** When everything answers *)

(** Every agent brings its engine to READY within the deadline. *)
Definition agentsReady : Prop :=
  forall t addr req, exists evs handle, env_start t addr req = inr evs /\ awaitReady addr evs = inr handle.

Definition resolvable (a : Proto.Assignment) : Prop :=
  forall w, exists ep, fst (Resolve (O_resolver o) (Proto.NodeId a) w) = inr ep.

Lemma startAndWaitReady_ready addr req w r w' :
  agentsReady -> startAndWaitReady addr req w = (r, w') -> exists handle, r = inr handle.
Proof.
  intros Ha H. unfold startAndWaitReady in H. run_step H. injection Hrun as <- <-. injection H as <- _.
  destruct (Ha (w_tick w) addr req) as (evs & handle & -> & ->). eauto.
Qed.

Lemma startWorkers_ready plan ws : agentsReady -> Forall resolvable ws -> forall started peers w st r w',
  startWorkers o plan ws started peers w = ((st, r), w') -> exists ps, r = inr ps.
Proof.
  intros Ha. induction 1 as [|a ws Hr _ IH]; intros started peers w st r w' H; cbn [startWorkers] in H.
  - injection H as _ <- _. eauto.
  - run_step H. destruct (Hr w) as (ep & Hep). rewrite Hrun in Hep. cbn in Hep. subst r0.
    run_step H. apply startAndWaitReady_ready in Hrun0 as (h & ->); [|done]. by apply IH in H.
Qed.

Lemma Apply_ready plan ws h w id err w' :
  O_agents o = true -> partition plan = inr (ws, h) -> HealthyDB E ->
  deployment w ("dep-" +:+ env_rand (w_tick w)) = None ->
  Forall resolvable (ws ++ [h]) -> agentsReady -> Apply o (Some plan) w = ((id, err), w') -> err = None.
Proof.
  intros Hag Hp Hh Hf [Hr Hr']%Forall_app Ha H. apply Forall_inv in Hr'.
  unfold Apply in H. rewrite Hag, Hp in H. cbn [negb] in H. run_step H. injection Hrun as <- <-. run_step H.
  destruct r as [e|].
  { exfalso. unfold CreateDeployment in Hrun. run_step Hrun. injection Hrun0 as <- <-.
    apply exec_spec in Hrun as (_ & _ & [Hd|Hk]); [by rewrite env_db_healthy in Hd|].
    unfold insertRow in Hk. match type of Hk with context [?m !! ?k] => destruct (m !! k) eqn:Hl; [|done] end.
    discriminate (eq_trans (eq_sym Hl) Hf). }
  run_step H. run_step H. destruct r0 as [st r0].
  apply (startWorkers_ready plan ws Ha Hr) in Hrun1 as (ps & ->). run_step H. destruct (Hr' w2) as (ep & Hep).
  rewrite Hrun1 in Hep. cbn in Hep. subst r0. run_step H.
  apply startAndWaitReady_ready in Hrun2 as (hd & ->); [|done]. do 3 run_step H. by injection H.
Qed.
End Orchestrator.

(** ** Theorems *)

(** (C3) A deployment that [Apply] reports as active was started in order: every
    worker of the plan, one after the other, each READY before the next, and only
    then the single host, whose peers are exactly the workers' inference addresses
    in that order; each request carries its shard's layers. The only other commands
    are publications of the route. The route table is untouched elsewhere and, if
    the gateway accepts it, maps the model to the host. The registry, unless it
    refuses writes, holds the deployment as ACTIVE with all engines and handles, and
    no other deployment changed. This holds whatever the agents, the database and
    the gateway answer. *)
Theorem Apply_active `{E : Env} o (HR : ResolverFrame (O_resolver o)) (HG : GatewayFrame (O_gateway o)) plan w id w' :
  Apply o (Some plan) w = ((id, None), w') -> exists ls host, activated o plan w id None w' ls host.
Proof.
  intros H. apply Apply_run in H; [|done..].
  destruct H as [(_ & Hn & _)|[(ls & Hn & _)|H]]; [by destruct Hn..|exact H].
Qed.

(** (C4) A failed [Apply] rolls back: it either did nothing at all, or a stop was issued
    for every engine that had reached READY, in the reverse of the order in which they
    were started, after at most one start that did not succeed; no route was published
    or removed; and the registry, unless it refuses writes, holds the deployment as
    FAILED. When the agents acknowledge these stops, no engine that was READY is left.
    The answers to the stops are otherwise ignored, and the start that did not succeed
    is never stopped, although its engine may still come up. *)
Theorem Apply_rollback `{E : Env} o (HR : ResolverFrame (O_resolver o)) (HG : GatewayFrame (O_gateway o)) plan w id e w' :
  Apply o (Some plan) w = ((id, Some e), w') ->
  refused w id (Some e) w' \/
  (exists ls, rolledBack plan w id (Some e) w' ls) /\
  ((forall t a h, env_stop t a h = None) ->
   exists cmds, w_trace w' = w_trace w ++ cmds /\ stillUp cmds = []).
Proof.
  intros H. apply Apply_run in H; [|done..].
  destruct H as [H|[(ls & H)|(ls & host & Hn & _)]]; [by left| |done]. right. split; [by exists ls|].
  intros Ha. destruct H as (_ & _ & _ & _ & (last & stopped & _ & Hl & Hs & Ht) & _).
  eexists. split; [exact Ht|]. by apply rolledBack_down.
Qed.

(** (C17) When the plan has one host, its nodes resolve, every agent brings its engine
    to READY, the database accepts the statements and the fresh identifier is new,
    [Apply] succeeds. *)
Theorem Apply_succeeds `{E : Env} o plan ws h w :
  O_agents o = true -> partition plan = inr (ws, h) -> HealthyDB E ->
  deployment w ("dep-" +:+ env_rand (w_tick w)) = None ->
  Forall (resolvable o) (ws ++ [h]) -> agentsReady ->
  exists id w', Apply o (Some plan) w = ((id, None), w').
Proof.
  intros H1 H2 H3 H4 H5 H6. destruct (Apply o (Some plan) w) as [[id err] w'] eqn:H.
  assert (err = None) as -> by (eapply (Apply_ready o plan ws h); eauto). eauto.
Qed.

(** [Teardown] of a recorded deployment stops all its engines, the host first
    and then the workers in reverse, before it removes the model's route, and marks
    it STOPPED, keeping its detail; no other deployment and, if the model's id is plain,
    no other model's route changes. *)
Theorem Teardown_stops `{E : Env} o (HG : GatewayFrame (O_gateway o)) id dep w err w' :
  HealthyDB E -> deployment w id = Some dep -> DID dep = id -> Teardown o id w = (err, w') ->
  let d := detailOf dep in
  err = None /\ only_deployment id w w' /\
  (exists now, deployment w' id = Some (mkDeployment id (DModelID dep) (DPlanID dep) StateStopped (Some d)
                                          (DCreatedAt dep) now)) /\
  (exists stopped cmds, stops (reverse (DD_Engines d)) stopped /\ w_trace w' = w_trace w ++ stopped ++ cmds /\
     Forall (fun c => c = CDelete (DD_ModelID d)) cmds) /\
  (GatewayEffect (O_gateway o) -> plainID (DD_ModelID d) = true -> forall m, m ≠ DD_ModelID d -> w_routes w' !! m = w_routes w !! m) /\
  (GatewayEffect (O_gateway o) -> GatewayUp (O_gateway o) -> plainID (DD_ModelID d) = true ->
     w_routes w' !! DD_ModelID d = None).
Proof. apply Teardown_run, HG. Qed.

(** [RestartEngine] issues exactly one start, for the node's engine, and never
    stops the old one. When the engine is ready the deployment is ACTIVE with that
    engine's handle replaced and everything else kept; a node outside the deployment
    or a failed start leaves the registry as it was. The request names the model, the
    role and the quantization, but neither the shard's layers nor, for a host, the
    workers. *)
Theorem RestartEngine_spec `{E : Env} id node dep w err w' :
  HealthyDB E -> deployment w id = Some dep -> DID dep = id -> RestartEngine id node w = (err, w') ->
  let d := detailOf dep in
  match findEngine node 0 (DD_Engines d) with
  | None => err ≠ None /\ w_trace w' = w_trace w /\ w_db w' = w_db w
  | Some (idx, ref) =>
      let req := restartReq d ref in
      SE_LayerStart req = 0 /\ SE_LayerEnd req = 0 /\ SE_Peers req = [] /\
      exists r, w_trace w' = w_trace w ++ [CStart (ER_AgentAddr ref) req r] /\
        match r with
        | inl _ => err ≠ None /\ w_db w' = w_db w
        | inr handle => err = None /\ only_deployment id w w' /\ exists row, deployment w' id = Some row /\
            DState row = StateActive /\
            DD_Engines (detailOf row) =
              <[idx := mkEngineRef (ER_NodeID ref) (ER_AgentAddr ref) (ER_Role ref) handle]> (DD_Engines d)
        end
  end.
Proof.
  intros Hh Hdep Hid H d. unfold RestartEngine in H. run_step H.
  apply GetDeployment_spec in Hrun as (G1 & (G2 & G2') & G3).
  destruct r as [e|dep']; [by rewrite (G3 Hh) in Hdep|]. assert (dep' = dep) as -> by congruence. clear G3.
  change (detailOf dep) with d in H. destruct (findEngine node 0 (DD_Engines d)) as [[idx ref]|].
  2:{ by injection H as <- <-. }
  intros req. split; [done|]. split; [done|]. split; [done|]. run_step H.
  apply startAndWaitReady_spec in Hrun as (S1 & S2 & S3). exists r. destruct r as [e|handle].
  - injection H as <- <-. split; [by rewrite S3, G2'|]. split; [done|]. congruence.
  - run_step H. apply persist_spec in Hrun as ((P1 & P1') & P2 & P3).
    run_step H. apply audit_spec in Hrun as ((A1 & A1') & A2 & A3). injection H as <- <-.
    split; [by rewrite A1', P1', S3, G2'|]. split; [done|]. rewrite Hid in *. split.
    + etrans; [by apply same_db_only|]. etrans; [by apply same_db_only|]. etrans; [apply P2|apply A2].
    + destruct (P3 Hh dep) as (now & N); [unfold deployment in *; by rewrite S1, G1|]. rewrite A3, N. eauto.
Qed.

Lemma rolesb_filters a rest :
  rolesb (a :: rest) = true ->
  Forall (fun x => isWorker x = true \/ isHost x = true) (map Assignment_ToProto (a :: rest)) /\
  List.filter isWorker (map Assignment_ToProto (a :: rest)) = map Assignment_ToProto rest /\
  List.filter isHost (map Assignment_ToProto (a :: rest)) = [Assignment_ToProto a].
Proof.
  cbn [rolesb]. intros [Ha Hrest]%andb_true_iff. apply bool_decide_eq_true in Ha.
  assert (Hr : Forall (fun x => isWorker x = true /\ isHost x = false) (map Assignment_ToProto rest)).
  { rewrite Forall_forall. intros x Hx. apply list_elem_of_fmap in Hx as (b & -> & Hb).
    rewrite forallb_forall in Hrest. specialize (Hrest b (proj1 (list_elem_of_In _ _) Hb)).
    apply bool_decide_eq_true in Hrest. unfold isWorker, isHost, Assignment_ToProto. cbn. by rewrite Hrest. }
  assert (Ha' : isWorker (Assignment_ToProto a) = false /\ isHost (Assignment_ToProto a) = true).
  { unfold isWorker, isHost, Assignment_ToProto. cbn. by rewrite Ha. }
  destruct Ha' as [E1 E2]. cbn [map List.filter]. rewrite E1, E2. induction Hr as [|x l [Hx1 Hx2] _ IH]; cbn.
  - split; [|done]. constructor; [by right|constructor].
  - rewrite Hx1, Hx2. destruct IH as (I1 & I2 & I3). inversion I1; subst.
    split; [constructor; [by right|]; constructor; [by left|done]|]. split; [by f_equal|done].
Qed.

Lemma Plan_partition poll polls threshold nodes links model c p pp :
  params_ok model -> Forall link_ok links ->
  Planner.Plan poll polls threshold nodes links model c = Ok p -> DeploymentPlan_ToProto (Some p) = Some pp ->
  exists a rest, Plan_Assignments p = a :: rest /\
    partition pp = inr (map Assignment_ToProto rest, Assignment_ToProto a).
Proof.
  intros Hp Hl H [= <-]. apply planInternal_run in H as (ns & quant & p0 & _ & _ & _ & _ & H5 & H6); auto.
  apply applyFailovers_spec in H6 as (E1 & _). rewrite E1. destruct H5 as [_ _ _ _ _ Hr Hn].
  destruct (Plan_Assignments (placeDraft p0 model)) as [|a rest]; [done|]. exists a, rest. split; [done|].
  apply partition_iff. cbn [Proto.Assignments]. unfold assignmentsOf. rewrite map_map.
  destruct (rolesb_filters a rest Hr) as (F1 & F2 & F3). split; [exact F1|]. split; [by rewrite <- F2|exact F3].
Qed.

(** What the planner returns the orchestrator can deploy: on the wire, every plan
    of [Plan] has exactly one host, its first shard, and [partition] yields it with the
    remaining shards as workers, in pipeline order. *)
Theorem Plan_deployable poll polls threshold nodes links model c p pp :
  params_ok model -> Forall link_ok links ->
  Planner.Plan poll polls threshold nodes links model c = Ok p -> DeploymentPlan_ToProto (Some p) = Some pp ->
  exists a rest, Plan_Assignments p = a :: rest /\
    partition pp = inr (map Assignment_ToProto rest, Assignment_ToProto a).
Proof. apply Plan_partition. Qed.

(** ** A concrete cluster

    Two nodes; the agents answer LOADING and then READY with a handle named after
    their address, except that the one at [bad] reports an error. *)
Definition exEnv (bad : option string) : Env := {|
  env_start _ addr _ :=
    if bool_decide (bad = Some addr) then inr [RecvEvent EventLoading ""; RecvEvent EventError "oom"]
    else inr [RecvEvent EventLoading ""; RecvEvent EventReady ("h@" +:+ addr)];
  env_stop _ _ _ := None; env_http _ := Reply 200; env_done _ := None; env_db _ := None;
  env_now t := Z.of_nat t; env_rand _ := "0a"; env_order _ _ l := l; env_path := plainPath;
  env_sha256 s := s |}.

#[export] Instance exEnv_db bad : HealthyDB (exEnv bad).
Proof. by split. Qed.

#[export] Instance exEnv_gateway bad : HealthyGateway (exEnv bad).
Proof. by split. Qed.

#[export] Instance exEnv_paths bad : PathLaws (exEnv bad).
Proof. split. intros id H. cbn. unfold plainPath. by rewrite H. Qed.

#[export] Instance exEnv_laws bad : EnvLaws (exEnv bad).
Proof. by split. Qed.

Definition exEndpoints : gmap string Endpoint :=
  {[ "a" := mkEndpoint "a:1" "10.0.0.1:8000"; "b" := mkEndpoint "b:1" "10.0.0.2:8000" ]}%string.

Definition exOrch (bad : option string) : Orchestrator :=
  mkOrchestrator true (MapResolver exEndpoints) (HTTPGatewaySync (E := exEnv bad) (mkHTTPGateway "http://gw" "t" 3 1))
    DefaultStepTimeout.

Definition exHost : Proto.Assignment := Proto.mkAssignment "a" Proto.ROLE_HOST 0 3 false.
Definition exWorker : Proto.Assignment := Proto.mkAssignment "b" Proto.ROLE_WORKER 4 5 true.

Definition exProtoPlan : Proto.DeploymentPlan :=
  Proto.mkDeploymentPlan "plan-1" "m" "q4" [Some exHost; Some exWorker] ["a"; "b"]%string None f0 [].

Definition exWorld : World := mkWorld 0 (mkDatabase ∅ ∅ ∅ ∅ [] ∅ ∅ PlatformTables_empty EnterpriseTables_empty) ∅ [].

Definition exApply (bad : option string) : (string * option Error) * World :=
  Apply (E := exEnv bad) (exOrch bad) (Some exProtoPlan) exWorld.

Lemma Apply_active_witness :
  fst (exApply None) = ("dep-0a"%string, None) /\
  exists ls host, activated (E := exEnv None) (exOrch None) exProtoPlan exWorld "dep-0a" None (snd (exApply None)) ls host.
Proof.
  assert (Hr : fst (exApply None) = ("dep-0a"%string, None)) by (vm_compute; reflexivity).
  split; [exact Hr|]. apply (Apply_active (E := exEnv None) (exOrch None) _ _ exProtoPlan exWorld "dep-0a").
  rewrite <- Hr. unfold exApply. by destruct (Apply _ _ _).
Defined.

Lemma Apply_rollback_witness :
  let r := exApply (Some "a:1"%string) in
  w_trace (snd r) =
    [CStart "b:1" (workerReq exProtoPlan exWorker) (inr "h@b:1"%string);
     CStart "a:1" (hostReq exProtoPlan exHost ["10.0.0.2:8000"%string]) (inl (ErrorString "engine reported error: oom"));
     CStop "b:1" "h@b:1" None] /\
  exists e, (refused exWorld (fst (fst r)) (Some e) (snd r) \/
             exists ls, rolledBack (E := exEnv (Some "a:1"%string)) exProtoPlan exWorld (fst (fst r)) (Some e) (snd r) ls).
Proof.
  intros r. split; [vm_compute; reflexivity|].
  assert (Hr : exists e, snd (fst r) = Some e) by (eexists; vm_compute; reflexivity). destruct Hr as (e & Hr). exists e.
  destruct (Apply_rollback (E := exEnv (Some "a:1"%string)) (exOrch (Some "a:1"%string)) _ _ exProtoPlan exWorld
    (fst (fst r)) e (snd r)) as [H|[H _]]; [|by left|by right].
  change (r = (fst (fst r), Some e, snd r)). rewrite <- Hr. by destruct r as [[? ?] ?].
Defined.

Lemma Apply_succeeds_witness :
  exists id w', Apply (E := exEnv None) (exOrch None) (Some exProtoPlan) exWorld = ((id, None), w').
Proof.
  apply (Apply_succeeds (E := exEnv None) (exOrch None) exProtoPlan [exWorker] exHost exWorld);
    [done|done|apply exEnv_db|done| |].
  - constructor; [|constructor; [|constructor]]; intros w; eexists; reflexivity.
  - intros t addr req. do 2 eexists. split; reflexivity.
Defined.

Definition exDeployment : Deployment :=
  mkDeployment "dep-0a" "m" "plan-1" StateActive
    (Some (mkDetail "m" "q4" "a" "http://10.0.0.1:8000"
       [mkEngineRef "b" "b:1" "worker" "h@b:1"; mkEngineRef "a" "a:1" "host" "h@a:1"] "" "")) 1 7.

Definition exActiveWorld : World :=
  mkWorld 20 (mkDatabase ∅ ∅ ∅ {[ "dep-0a" := exDeployment ]} [] ∅ ∅ PlatformTables_empty EnterpriseTables_empty)
    {[ "m" := mkRouteUpdate "m" "http://10.0.0.1:8000" "dep-0a" "q4" "active" ]} [].

Lemma Teardown_stops_witness :
  exists now, deployment (snd (Teardown (E := exEnv None) (exOrch None) "dep-0a" exActiveWorld)) "dep-0a" =
    Some (mkDeployment "dep-0a" "m" "plan-1" StateStopped (DDetail exDeployment) 1 now).
Proof.
  destruct (Teardown (E := exEnv None) (exOrch None) "dep-0a" exActiveWorld) as [err w'] eqn:H.
  refine (proj1 (proj2 (proj2 (Teardown_stops (E := exEnv None) (exOrch None) _ "dep-0a" exDeployment exActiveWorld err w'
            _ _ _ H)))); reflexivity.
Defined.

Lemma RestartEngine_spec_witness :
  exists row, deployment (snd (RestartEngine (E := exEnv None) "dep-0a" "a" exActiveWorld)) "dep-0a" = Some row /\
    DState row = StateActive.
Proof.
  destruct (RestartEngine (E := exEnv None) "dep-0a" "a" exActiveWorld) as [err w'] eqn:H.
  pose proof (RestartEngine_spec (E := exEnv None) "dep-0a" "a" exDeployment exActiveWorld err w' _ eq_refl eq_refl H)
    as (_ & _ & _ & r & Ht & Hr).
  destruct r as [e|handle].
  - exfalso. destruct Hr as [He _]. apply He. clear -H. vm_compute in H. by injection H.
  - destruct Hr as (_ & _ & row & H1 & H2 & _). eauto.
Defined.

Lemma Plan_deployable_witness :
  exists a rest pp, Plan_Assignments exPlan = a :: rest /\ DeploymentPlan_ToProto (Some exPlan) = Some pp /\
    partition pp = inr (map Assignment_ToProto rest, Assignment_ToProto a).
Proof.
  destruct (DeploymentPlan_ToProto (Some exPlan)) as [pp|] eqn:Epp; [|discriminate Epp].
  destruct (Plan_deployable noCancel (fun _ => noCancel) 10 exFleet exLinks exDraftModel Constraints_zero exPlan pp)
    as (a & rest & H1 & H2); [check_inputs|check_inputs|exact exPlan_run|exact Epp|]. eauto 10.
Defined.
