(* ===== verification/RouteReconciler.v ===== *)
(** * RouteReconciler: converging the gateway's routing table

    [go/controlplane/orchestrator/route_reconciler.go]. A pass computes the desired
    routes from the ACTIVE deployments, observes the gateway's table, upserts every
    desired route and deletes every observed one that is not desired. The set
    [pushed] is the reconciler's own state. *)
From S2P Require Import Prelude Float64 PlanTypes CostModel Fixtures Partition Ordering Planner Convert Cluster Registry Gateway Orchestrator.
Import Row.
Open Scope Z_scope.

Definition DefaultRouteReconcileInterval : Duration := 30 * Second.
Definition defaultRouteRetryDelay : Duration := 5 * Second.

Record RouteReconciler : Type := mkRouteReconciler { RR_gw : GatewaySync; RR_interval : Duration; RR_retry : Duration }.

Definition NewRouteReconciler (gw : option GatewaySync) (interval : Duration) : RouteReconciler :=
  let interval := if interval <=? 0 then DefaultRouteReconcileInterval else interval in
  {| RR_gw := default NopGatewaySync gw;
     RR_interval := interval;
     RR_retry := if interval <? defaultRouteRetryDelay then interval else defaultRouteRetryDelay |}.

(** The route of a deployment, if it is ACTIVE and has a model and an endpoint. *)
Definition desiredRoute (dep : Deployment) : option RouteUpdate :=
  if negb (DState dep =? StateActive)%string then None else
  let detail := detailOf dep in
  let modelID := if (DModelID dep =? "")%string then DD_ModelID detail else DModelID dep in
  if (modelID =? "")%string || (DD_Endpoint detail =? "")%string then None
  else Some (mkRouteUpdate modelID (DD_Endpoint detail) (DID dep) (DD_Quantization detail) "active").

(** The map the loop builds: a later deployment of the same model overwrites. *)
Definition desiredStep (out : gmap string RouteUpdate) (dep : Deployment) : gmap string RouteUpdate :=
  match desiredRoute dep with Some u => <[RU_ModelID u := u]> out | None => out end.

Section RouteReconciler.
Context `{E : Env}.

Definition desiredRoutes : M (Error + gmap string RouteUpdate) :=
  let* r := ListDeployments in
  match r with
  | inl e => cret (inl (Wrap "route reconcile: list deployments" e))
  | inr deps => cret (inr (fold_left desiredStep deps ∅))
  end.

Definition pushedIDs (pushed : gset string) : M (list string) :=
  let* t := next in cret (env_order string t (elements pushed)).

Definition observe (r : RouteReconciler) (pushed : gset string) : M (list string) :=
  match ListRoutes (RR_gw r) with
  | Some lister =>
      let* l := lister in
      match l with
      | inr routes => cret (map RU_ModelID routes)
      | inl _ => pushedIDs pushed
      end
  | None => pushedIDs pushed
  end.

(** [for modelID, u := range desired]. *)
Fixpoint pushAll (g : GatewaySync) (us : list (string * RouteUpdate)) (pushed : gset string) (errs : list Error)
    : M (gset string * list Error) :=
  match us with
  | [] => cret (pushed, errs)
  | (modelID, u) :: us =>
      let* err := UpsertRoute g u in
      match err with
      | Some e => pushAll g us pushed (errs ++ [Wrap ("upsert " +:+ modelID) e])
      | None => pushAll g us ({[ modelID ]} ∪ pushed) errs
      end
  end.

(** [for _, modelID := range observed]. *)
Fixpoint dropStale (g : GatewaySync) (desired : gmap string RouteUpdate) (ids : list string) (pushed : gset string)
    (errs : list Error) : M (gset string * list Error) :=
  match ids with
  | [] => cret (pushed, errs)
  | modelID :: ids =>
      match desired !! modelID with
      | Some _ => dropStale g desired ids pushed errs
      | None =>
          let* err := DeleteRoute g modelID in
          match err with
          | Some e => dropStale g desired ids pushed (errs ++ [Wrap ("delete " +:+ modelID) e])
          | None => dropStale g desired ids (pushed ∖ {[ modelID ]}) errs
          end
      end
  end.

Definition Reconcile (r : RouteReconciler) (pushed : gset string) : M (option Error * gset string) :=
  let* d := desiredRoutes in
  match d with
  | inl e => cret (Some e, pushed)
  | inr desired =>
      let* observed := observe r pushed in
      let* t := next in
      let* (pushed, errs) := pushAll (RR_gw r) (env_order _ t (map_to_list desired)) pushed [] in
      let* (pushed, errs) := dropStale (RR_gw r) desired observed pushed errs in
      cret (match errs with [] => None | _ => Some (Join errs) end, pushed)
  end.

(** The wait before the next pass of [Run]. *)
Definition runDelay (r : RouteReconciler) (err : option Error) : Duration :=
  match err with Some _ => RR_retry r | None => RR_interval r end.

(** [Run]: the passes and the waits before them, until the context is done.
    [fuel] bounds the number of passes looked at. *)
Fixpoint Run (fuel : nat) (r : RouteReconciler) (delay : Duration) (pushed : gset string) : M (list Duration) :=
  match fuel with
  | O => cret []
  | S fuel =>
      let* t := next in
      if (0 <? delay) && bool_decide (env_done t ≠ None) then cret [] else
      let* (err, pushed) := Reconcile r pushed in
      let* t := next in
      match env_done t with
      | Some _ => cret [delay]
      | None => let* ds := Run fuel r (runDelay r err) pushed in cret (delay :: ds)
      end
  end.

(** ** The desired routes *)

Lemma desiredRoute_spec dep u :
  desiredRoute dep = Some u <->
  DState dep = StateActive /\ RU_ModelID u ≠ ""%string /\ RU_Endpoint u ≠ ""%string /\
  u = mkRouteUpdate (if (DModelID dep =? "")%string then DD_ModelID (detailOf dep) else DModelID dep)
        (DD_Endpoint (detailOf dep)) (DID dep) (DD_Quantization (detailOf dep)) "active".
Proof.
  unfold desiredRoute. destruct (String.eqb_spec (DState dep) StateActive) as [Hs|Hs]; cbn [negb]; [|split; [done|tauto]].
  set (m := if (DModelID dep =? "")%string then _ else _).
  destruct (String.eqb_spec m "") as [Hm|Hm]; cbn [orb]; [|destruct (String.eqb_spec (DD_Endpoint (detailOf dep)) "")].
  - split; [done|]. by intros (_ & Hn & _ & ->).
  - split; [done|]. by intros (_ & _ & Hn & ->).
  - split; [intros [= <-]; done|]. by intros (_ & _ & _ & ->).
Qed.

(** Every entry comes from a listed deployment, and every routable deployment has
    an entry for its model. *)
Lemma desired_fold deps : forall out,
  let d := fold_left desiredStep deps out in
  (forall m u, d !! m = Some u -> out !! m = Some u \/ RU_ModelID u = m /\ exists dep, dep ∈ deps /\ desiredRoute dep = Some u) /\
  (forall dep u, dep ∈ deps -> desiredRoute dep = Some u -> is_Some (d !! RU_ModelID u)) /\
  (forall m, is_Some (out !! m) -> is_Some (d !! m)).
Proof.
  induction deps as [|dep deps IH]; intros out; cbn [fold_left].
  - split; [auto|]. split; [|auto]. intros dep u Hd%elem_of_nil. done.
  - destruct (IH (desiredStep out dep)) as (I1 & I2 & I3). cbv zeta. unfold desiredStep in *.
    destruct (desiredRoute dep) as [u0|] eqn:E0; split_and!.
    + intros m u Hm. destruct (I1 m u Hm) as [Ho|(Hk & dep' & H1 & H2)].
      * apply lookup_insert_Some in Ho as [[<- <-]|[_ Ho]]; [|by left]. right. split; [done|]. exists dep. split; [left|done].
      * right. split; [done|]. exists dep'. split; [by right|done].
    + intros dep' u [->|Hd]%elem_of_cons Hu; [|by apply (I2 dep')]. simplify_eq. apply I3.
      rewrite lookup_insert_eq. done.
    + intros m Hm. apply I3. destruct (decide (RU_ModelID u0 = m)) as [<-|]; [by rewrite lookup_insert_eq|].
      by rewrite lookup_insert_ne.
    + intros m u Hm. destruct (I1 m u Hm) as [Ho|(Hk & dep' & H1 & H2)]; [by left|].
      right. split; [done|]. exists dep'. split; [by right|done].
    + intros dep' u [->|Hd]%elem_of_cons Hu; [congruence|by apply (I2 dep')].
    + done.
Qed.

(** ** A pass *)

Context (g : GatewaySync) (HF : GatewayFrame g) (HE : GatewayEffect g).

Lemma pushAll_spec us : Forall (fun p => fst p = RU_ModelID (snd p)) us -> NoDup (map fst us) ->
  forall pushed errs w p errs' w', pushAll g us pushed errs w = ((p, errs'), w') ->
  w_db w' = w_db w /\ (exists new, errs' = errs ++ new) /\
  (errs' = [] -> w_routes w' = list_to_map us ∪ w_routes w).
Proof.
  induction 1 as [|[k u] us Hk _ IH]; intros Hnd pushed errs w p errs' w'; cbn [pushAll].
  - intros [= _ <- <-]. split; [done|]. split; [exists []; by rewrite app_nil_r|]. intros _. cbn. by rewrite (left_id_L ∅ (∪)).
  - cbn in Hk. subst k. inversion Hnd as [|? ? Hni Hnd']; subst. intros H. run_step H.
    pose proof (upsert_db u w) as U1. pose proof (upsert_done u w) as U2. rewrite Hrun in U1, U2. cbn [fst snd] in *.
    destruct r as [e|]; apply IH in H as (I1 & (new & I2) & I3); try done.
    + split; [congruence|]. split; [exists ([Wrap ("upsert " +:+ RU_ModelID u) e] ++ new); by rewrite app_assoc|].
      intros ->. by destruct errs.
    + split; [congruence|]. split; [eauto|]. intros Hn. rewrite (I3 Hn), (U2 eq_refl). cbn.
      rewrite <- insert_union_r by (by apply not_elem_of_list_to_map_1). by rewrite insert_union_l.
Qed.

Lemma dropStale_spec d ids : Forall (fun m => d !! m = None -> plainID m = true) ids ->
  forall pushed errs w p errs' w', dropStale g d ids pushed errs w = ((p, errs'), w') ->
  w_db w' = w_db w /\ (exists new, errs' = errs ++ new) /\
  (errs' = [] -> forall m, w_routes w' !! m =
     if bool_decide (m ∈ ids) && bool_decide (d !! m = None) then None else w_routes w !! m).
Proof.
  induction 1 as [|k ids Hp _ IH]; intros pushed errs w p errs' w'; cbn [dropStale].
  - intros [= _ <- <-]. split; [done|]. split; [exists []; by rewrite app_nil_r|]. done.
  - destruct (d !! k) as [u|] eqn:Ek.
    + intros H. apply IH in H as (I1 & I2 & I3). split; [done|]. split; [done|]. intros Hn m. rewrite (I3 Hn m).
      destruct (decide (m = k)) as [->|Hm]; [rewrite Ek, !andb_false_r; done|].
      by rewrite (bool_decide_ext (m ∈ k :: ids) (m ∈ ids)) by set_solver.
    + intros H. run_step H. pose proof (delete_db k w) as U1. pose proof (delete_done k w (Hp eq_refl)) as U2.
      rewrite Hrun in U1, U2. cbn [fst snd] in *.
      destruct r as [e|]; apply IH in H as (I1 & (new & I2) & I3); try done.
      * split; [congruence|]. split; [exists ([Wrap ("delete " +:+ k) e] ++ new); by rewrite app_assoc|].
        intros ->. by destruct errs.
      * split; [congruence|]. split; [eauto|]. intros Hn m. rewrite (I3 Hn m), (U2 eq_refl).
        destruct (decide (m = k)) as [->|Hm].
        -- rewrite Ek, lookup_delete_eq. rewrite (bool_decide_true (k ∈ k :: ids)) by set_solver.
           by repeat case_match.
        -- rewrite lookup_delete_ne by done. by rewrite (bool_decide_ext (m ∈ k :: ids) (m ∈ ids)) by set_solver.
Qed.

(** The desired table of a world: it depends on the listing order of the
    deployments only when a model has several ACTIVE ones. *)
Definition desiredOf (t : nat) (w : World) : gmap string RouteUpdate :=
  fold_left desiredStep (env_order Deployment t (map snd (map_to_list (db_deployments (w_db w))))) ∅.

Lemma desiredRoutes_spec w r w' : desiredRoutes w = (r, w') ->
  w_db w' = w_db w /\ outside_same w w' /\ forall d, r = inr d -> d = desiredOf (w_tick w) w.
Proof.
  unfold desiredRoutes, ListDeployments. intros H. run_step H. run_step Hrun. injection Hrun0 as <- <-.
  apply query_spec in Hrun as (Q1 & Q2 & Q3). cbn [w_db w_tick] in *.
  destruct r0 as [e|deps]; injection H as <- <-; split_and!; try done.
  intros d [= <-]. destruct (env_db _); [done|]. by injection Q3 as ->.
Qed.

Lemma desired_keys t w m u : desiredOf t w !! m = Some u -> RU_ModelID u = m.
Proof.
  unfold desiredOf. intros H. apply (proj1 (desired_fold _ ∅)) in H as [H|[H _]]; [by rewrite lookup_empty in H|done].
Qed.

(** Every route of the table is stored under its model. *)
Definition table_wf (routes : gmap string RouteUpdate) : Prop :=
  forall m u, routes !! m = Some u -> RU_ModelID u = m.

(** The ids a pass compares with the desired ones: the gateway's, or, when it cannot be
    listed, those pushed before. *)
Definition observedIDs (l : M (Error + list RouteUpdate)) (pushed : gset string) (w : World) (ids : list string) : Prop :=
  (exists w0 e, fst (l w0) = inl e) /\ ids ≡ₚ elements pushed \/
  (forall m, m ∈ ids <-> is_Some (w_routes w !! m)).

Lemma observe_spec rr pushed w ids w' l : RR_gw rr = g -> EnvLaws E -> GatewayLister g l -> table_wf (w_routes w) ->
  observe rr pushed w = (ids, w') ->
  w_db w' = w_db w /\ w_routes w' = w_routes w /\ observedIDs l pushed w ids.
Proof.
  intros Hg HL Hl Hwf H. unfold observe in H. rewrite Hg, lister in H. run_step H.
  destruct (list_keeps w) as (K1 & K2 & _). rewrite Hrun in K1, K2. cbn [snd] in *. destruct r as [e|rs].
  - unfold pushedIDs in H. run_step H. injection Hrun0 as <- <-. injection H as <- <-. split; [done|]. split; [done|].
    left. split; [by exists w, e; rewrite Hrun|]. apply env_order_perm.
  - injection H as <- <-. split; [done|]. split; [done|]. right. intros m.
    pose proof (list_exact w rs) as Hex. rewrite Hrun in Hex. specialize (Hex eq_refl).
    change (map RU_ModelID rs) with (RU_ModelID <$> rs). rewrite list_elem_of_fmap. setoid_rewrite Hex.
    change (map snd (map_to_list (w_routes w))) with (snd <$> map_to_list (w_routes w)). split.
    + intros (u & -> & Hu). apply list_elem_of_fmap in Hu as ([k u'] & -> & Hu%elem_of_map_to_list). cbn in *.
      rewrite (Hwf k u' Hu). by eexists.
    + intros (u & Hu). exists u. split; [by rewrite (Hwf m u Hu)|]. apply list_elem_of_fmap. exists (m, u).
      split; [done|]. by apply elem_of_map_to_list.
Qed.

Lemma Reconcile_outcome rr pushed w err pushed' w' l : RR_gw rr = g ->
  EnvLaws E -> GatewayLister g l -> table_wf (w_routes w) ->
  (forall m, is_Some (w_routes w !! m) \/ m ∈ pushed -> plainID m = true) ->
  Reconcile rr pushed w = ((err, pushed'), w') ->
  w_db w' = w_db w /\
  (err = None -> exists ids, observedIDs l pushed w ids /\
     forall m, w_routes w' !! m = match desiredOf (w_tick w) w !! m with
                                  | Some u => Some u
                                  | None => if bool_decide (m ∈ ids) then None else w_routes w !! m
                                  end).
Proof.
  intros Hg HL Hl Hwf Hplain H. unfold Reconcile in H. run_step H.
  apply desiredRoutes_spec in Hrun as (D1 & (D2 & D2') & D3).
  destruct r as [e|d]; [by injection H as <- <- <-|]. specialize (D3 d eq_refl). run_step H. rename r into ids.
  apply (observe_spec rr pushed w0 ids w1 l) in Hrun as (K1 & K2 & Hids); [|done|done|done|by rewrite D2].
  unfold observedIDs in Hids. rewrite D2 in Hids. run_step H. injection Hrun as <- <-. rewrite Hg in H.
  run_step H. destruct r as [p1 e1]. run_step H. destruct r as [p2 e2]. injection H as <- <- <-.
  set (us := env_order _ _ (map_to_list d)) in *.
  assert (Hus : us ≡ₚ map_to_list d) by apply env_order_perm.
  assert (Hkeys : Forall (fun p => fst p = RU_ModelID (snd p)) us).
  { rewrite Hus. rewrite Forall_forall. intros [m u] Hmu%elem_of_map_to_list. cbn. rewrite D3 in Hmu.
    by apply desired_keys in Hmu. }
  assert (Hnd : NoDup (map fst us)).
  { change (NoDup (us.*1)). rewrite Hus. apply NoDup_fst_map_to_list. }
  apply (pushAll_spec us Hkeys Hnd) in Hrun as (P1 & (n1 & P2) & P3).
  apply dropStale_spec in Hrun0 as (S1 & (n2 & S2) & S3).
  2:{ rewrite Forall_forall. intros m Hm _. apply Hplain. destruct Hids as [(_ & Hids)|Hids]; [right|left; by apply Hids].
      rewrite Hids in Hm. by apply elem_of_elements. }
  cbn in P1, P3. split; [congruence|].
  intros Herr. assert (e2 = []) as -> by (by destruct e2). symmetry in S2. apply app_nil in S2 as [-> ->].
  exists ids. split; [exact Hids|]. intros m. rewrite (S3 eq_refl m), (P3 eq_refl), K2, D2, <- D3.
  assert (Hlm : list_to_map us = d) by (rewrite <- (list_to_map_to_list d); apply list_to_map_proper; [exact Hnd|done]).
  rewrite Hlm. destruct (d !! m) as [u|] eqn:Em.
  - rewrite (bool_decide_false (Some u = None)), andb_false_r by done. by apply lookup_union_Some_l.
  - rewrite (bool_decide_true (None = None)), andb_true_r by done. case_bool_decide; [done|]. by rewrite lookup_union_r.
Qed.

(** When the listing succeeds the table is the desired one. *)
Lemma observed_converges l pushed w (d routes : gmap string RouteUpdate) ids : (forall w, exists rs, fst (l w) = inr rs) ->
  observedIDs l pushed w ids ->
  (forall m, routes !! m = match d !! m with Some u => Some u | None => if bool_decide (m ∈ ids) then None else w_routes w !! m end) ->
  routes = d.
Proof.
  intros Hl [[(w0 & e & He) _]|Hids] Hr; [destruct (Hl w0) as (rs & Hrs); congruence|]. apply map_eq. intros m. rewrite Hr.
  destruct (d !! m); [done|]. case_bool_decide as Hm; [done|]. rewrite Hids in Hm. by destruct (w_routes w !! m); [destruct Hm|].
Qed.

(** A gateway that accepts every call gives no errors. *)
Lemma pushAll_up us : GatewayUp g -> forall pushed errs w, snd (fst (pushAll g us pushed errs w)) = errs.
Proof.
  intros HU. induction us as [|[k u] us IH]; intros pushed errs w; cbn [pushAll]; [done|].
  rewrite cbind_run, upsert_up. apply IH.
Qed.

Lemma dropStale_up d ids : GatewayUp g -> Forall (fun m => plainID m = true) ids -> forall pushed errs w, snd (fst (dropStale g d ids pushed errs w)) = errs.
Proof.
  intros HU. induction 1 as [|k ids Hk _ IH]; intros pushed errs w; cbn [dropStale]; [done|].
  destruct (d !! k); [apply IH|]. rewrite cbind_run, delete_up by done. apply IH.
Qed.

Lemma Reconcile_up rr pushed w l : RR_gw rr = g -> GatewayUp g -> HealthyDB E ->
  EnvLaws E -> GatewayLister g l -> table_wf (w_routes w) ->
  (forall m, is_Some (w_routes w !! m) \/ m ∈ pushed -> plainID m = true) ->
  fst (fst (Reconcile rr pushed w)) = None.
Proof.
  intros Hg HU Hh HL Hl Hwf Hplain. destruct (Reconcile rr pushed w) as [[err p'] w'] eqn:H. cbn. unfold Reconcile in H.
  rewrite Hg in H. run_step H. destruct r as [e|d].
  { exfalso. unfold desiredRoutes, ListDeployments in Hrun. run_step Hrun. run_step Hrun0.
    apply query_healthy in Hrun0; [|done]. subst r. done. }
  apply desiredRoutes_spec in Hrun as (_ & (D2 & _) & _).
  run_step H. apply (observe_spec rr pushed w0 r w1 l) in Hrun as (_ & _ & Hids); [|done|done|done|by rewrite D2].
  unfold observedIDs in Hids. rewrite D2 in Hids.
  assert (Hp : Forall (fun m => plainID m = true) r).
  { rewrite Forall_forall. intros m Hm. apply Hplain. destruct Hids as [(_ & Hids)|Hids]; [right|left; by apply Hids].
    rewrite Hids in Hm. by apply elem_of_elements. }
  run_step H. injection Hrun as <- <-. run_step H. destruct r0 as [p1 e1]. run_step H. destruct r0 as [p2 e2].
  injection H as <- _ _. pose proof (dropStale_up d r HU Hp p1 e1 w2) as E2. rewrite Hrun0 in E2.
  match type of Hrun with pushAll _ ?us ?p ?es ?w = _ => pose proof (pushAll_up us HU p es w) as E1 end.
  rewrite Hrun in E1. cbn in E1, E2. by subst.
Qed.
End RouteReconciler.

(** What the desired table holds. *)
Lemma desiredOf_spec `{E : Env} t w : EnvLaws E ->
  (forall m u, desiredOf t w !! m = Some u -> RU_ModelID u = m /\
     exists id dep, deployment w id = Some dep /\ DState dep = StateActive /\ desiredRoute dep = Some u) /\
  (forall id dep u, deployment w id = Some dep -> desiredRoute dep = Some u -> is_Some (desiredOf t w !! RU_ModelID u)).
Proof.
  intros HL. pose proof (desired_fold (env_order Deployment t (map snd (map_to_list (db_deployments (w_db w))))) ∅)
    as (D1 & D2 & _). split.
  - intros m u Hm. destruct (D1 m u Hm) as [Hn|(Hk & dep & Hd & Hu)]; [by rewrite lookup_empty in Hn|].
    split; [done|]. rewrite env_order_perm in Hd. change (dep ∈ snd <$> map_to_list (db_deployments (w_db w))) in Hd.
    apply list_elem_of_fmap in Hd as ([id dep'] & -> & Hin%elem_of_map_to_list). exists id, dep'.
    split; [done|]. split; [|done]. by apply desiredRoute_spec in Hu as (? & _).
  - intros id dep u Hd Hu. apply (D2 dep u); [|done]. rewrite env_order_perm.
    change (dep ∈ snd <$> map_to_list (db_deployments (w_db w))). apply list_elem_of_fmap. exists (id, dep).
    split; [done|]. by apply elem_of_map_to_list.
Qed.

(** ** Theorems *)

(** (C7) A pass of the route reconciler that reports no error, and could list the gateway,
    has converged: the gateway's table is exactly the desired one, one route per model
    with an ACTIVE, routable deployment and nothing else, whatever the table held before
    (a restarted gateway's empty table, or stale routes), and however many attempts were
    lost or answered twice on the way. When the listing fails the pass may still report
    no error: then every desired route is in the table, the routes this reconciler
    pushed before and no longer desires are gone, and any other stale route stays. The
    registry is only read. The ids of the routes the pass may delete are plain: they are
    put into the path of the request unescaped. *)
Theorem Reconcile_converges `{E : Env} rr l pushed w err pushed' w' :
  EnvLaws E -> GatewayFrame (RR_gw rr) -> GatewayEffect (RR_gw rr) -> GatewayLister (RR_gw rr) l ->
  table_wf (w_routes w) -> (forall m, is_Some (w_routes w !! m) \/ m ∈ pushed -> plainID m = true) ->
  Reconcile rr pushed w = ((err, pushed'), w') ->
  w_db w' = w_db w /\
  (err = None -> exists d,
   (forall m u, d !! m = Some u -> RU_ModelID u = m /\
      exists id dep, deployment w id = Some dep /\ DState dep = StateActive /\ desiredRoute dep = Some u) /\
   (forall id dep u, deployment w id = Some dep -> desiredRoute dep = Some u -> is_Some (d !! RU_ModelID u)) /\
   ((forall w, exists rs, fst (l w) = inr rs) -> w_routes w' = d) /\
   ((exists w0 e, fst (l w0) = inl e) -> w_routes w' = d \/
      forall m, w_routes w' !! m = match d !! m with
                                   | Some u => Some u
                                   | None => if bool_decide (m ∈ pushed) then None else w_routes w !! m
                                   end)).
Proof.
  intros H1 H2 H3 H4 H5 H6 H. apply (Reconcile_outcome (RR_gw rr) H2 H3 rr _ _ _ _ _ l eq_refl) in H as (A1 & A2); [|done..].
  split; [done|]. intros He. destruct (A2 He) as (ids & Hids & Hr). exists (desiredOf (w_tick w) w).
  destruct (desiredOf_spec (w_tick w) w H1) as (S1 & S2). split; [exact S1|]. split; [exact S2|]. split.
  - intros Hl. by eapply observed_converges.
  - intros _. destruct Hids as [[_ Hids]|Hids].
    + right. intros m. rewrite Hr. rewrite (bool_decide_ext (m ∈ ids) (m ∈ pushed)); [done|].
      rewrite Hids. apply elem_of_elements.
    + left. apply map_eq. intros m. rewrite Hr. destruct (desiredOf (w_tick w) w !! m); [done|]. case_bool_decide as Hm; [done|].
      rewrite Hids in Hm. by destruct (w_routes w !! m); [destruct Hm|].
Qed.

Lemma Reconcile_live_run `{E : Env} hg interval pushed w :
  HealthyDB E -> HealthyGateway E -> EnvLaws E -> PathLaws E -> 0 <= HG_retries hg -> table_wf (w_routes w) ->
  (forall m, is_Some (w_routes w !! m) \/ m ∈ pushed -> plainID m = true) ->
  let rr := NewRouteReconciler (Some (HTTPGatewaySync hg)) interval in
  fst (fst (Reconcile rr pushed w)) = None /\ w_routes (snd (Reconcile rr pushed w)) = desiredOf (w_tick w) w.
Proof.
  intros H1 H2 H3 HP H4 H5 H6 rr. pose proof (HTTP_up hg HP H2 H4) as HU.
  assert (He : fst (fst (Reconcile rr pushed w)) = None).
  { eapply (Reconcile_up (HTTPGatewaySync hg)); try apply _; done. }
  split; [exact He|]. destruct (Reconcile rr pushed w) as [[err p'] w'] eqn:H. cbn [fst snd] in *.
  apply (Reconcile_outcome (HTTPGatewaySync hg) _ _ rr _ _ _ _ _ (HTTP_ListRoutes hg) eq_refl) in H as (_ & H); [|done|apply _|done|done].
  destruct (H He) as (ids & Hids & Hr). eapply (observed_converges _ pushed w); [intros w0; by apply HTTP_lists|exact Hids|exact Hr].
Qed.

(** A pass against a gateway and a database that answer reports no error, so
    that the table converges in one pass. *)
Theorem Reconcile_live `{E : Env} hg interval pushed w :
  HealthyDB E -> HealthyGateway E -> EnvLaws E -> PathLaws E -> 0 <= HG_retries hg -> table_wf (w_routes w) ->
  (forall m, is_Some (w_routes w !! m) \/ m ∈ pushed -> plainID m = true) ->
  let rr := NewRouteReconciler (Some (HTTPGatewaySync hg)) interval in
  fst (fst (Reconcile rr pushed w)) = None /\ w_routes (snd (Reconcile rr pushed w)) = desiredOf (w_tick w) w.
Proof. apply Reconcile_live_run. Qed.

(** ** Witnesses: a restarted gateway that also holds a stale route. *)

Definition exStaleWorld : World :=
  mkWorld 20 (mkDatabase ∅ ∅ ∅ {[ "dep-0a" := exDeployment ]} [] ∅ ∅ PlatformTables_empty EnterpriseTables_empty)
    {[ "old" := mkRouteUpdate "old" "http://10.0.0.9:8000" "dep-x" "q4" "active" ]} [].

Lemma exStale_wf : table_wf (w_routes exStaleWorld).
Proof. intros m u H. cbn in H. apply lookup_singleton_Some in H as [<- <-]. done. Qed.

Lemma exStale_plain m : is_Some (w_routes exStaleWorld !! m) \/ m ∈ (∅ : gset string) -> plainID m = true.
Proof. intros [(u & H)|H]; [|set_solver]. cbn in H. apply lookup_singleton_Some in H as [<- _]. reflexivity. Qed.

Definition exGateway : HTTPGateway := mkHTTPGateway "http://gw" "t" 3 1.

Definition exRoutes : RouteReconciler := NewRouteReconciler (Some (HTTPGatewaySync (E := exEnv None) exGateway)) 0.

Lemma Reconcile_live_witness :
  w_routes (snd (Reconcile (E := exEnv None) exRoutes ∅ exStaleWorld)) =
    desiredOf (E := exEnv None) 20 exStaleWorld /\
  desiredOf (E := exEnv None) 20 exStaleWorld =
    {[ "m" := mkRouteUpdate "m" "http://10.0.0.1:8000" "dep-0a" "q4" "active" ]}%string.
Proof.
  split; [|vm_compute; reflexivity].
  apply (Reconcile_live (E := exEnv None) exGateway 0 ∅ exStaleWorld); [apply _..|cbn; lia|exact exStale_wf|exact exStale_plain].
Defined.

Lemma Reconcile_converges_witness :
  is_Some (w_routes (snd (Reconcile (E := exEnv None) exRoutes ∅ exStaleWorld)) !! "m"%string).
Proof.
  destruct (Reconcile (E := exEnv None) exRoutes ∅ exStaleWorld) as [[err p'] w'] eqn:H.
  assert (He : err = None) by (vm_compute in H; by injection H as <- _ _).
  destruct (Reconcile_converges (E := exEnv None) exRoutes (HTTP_ListRoutes (E := exEnv None) exGateway) ∅ exStaleWorld
    err p' w') as (_ & Hc); [apply _|apply HTTP_frame|apply HTTP_effect, _|apply HTTP_lister|exact exStale_wf|exact exStale_plain|exact H|].
  destruct (Hc He) as (d & _ & Hd & Ht & _). cbn [snd]. rewrite Ht by (intros w; apply HTTP_lists; [apply _|cbn; lia]).
  apply (Hd "dep-0a"%string exDeployment (mkRouteUpdate "m" "http://10.0.0.1:8000" "dep-0a" "q4" "active")); reflexivity.
Defined.

(** A model whose id has a slash: no route of the gateway matches the path of the
    deletion, so that the stale route stays and every pass fails. *)
Example slash_never_deleted :
  let w := mkWorld 20 (w_db emptyWorld) {[ "org/llama"%string := mkRouteUpdate "org/llama" "http://10.0.0.9:8000" "dep-x" "q4" "active" ]} [] in
  let '((err, _), w') := Reconcile (E := exEnv None) exRoutes ∅ w in
  err ≠ None /\ w_routes w' = w_routes w.
Proof. vm_compute. split; [discriminate|reflexivity]. Qed.
