(* ===== verification/Reconciler.v ===== *)
(** * Reconciler: the self-healing control loop

    [go/controlplane/reconciler/reconciler.go] and [actuator.go]. A pass observes the
    discrepancies between the recorded deployments and the reported nodes, counts
    how long each has persisted, and acts on those past the thresholds as the
    automation policy allows. The tracker is the loop's state; the clock, the
    database and the order in which Go ranges over the map of nodes are the [Env]'s.
    Metrics and log lines are left out. *)
From S2P Require Import Prelude Float64 PlanTypes CostModel Fixtures Partition Ordering Planner Convert Cluster Registry Gateway Orchestrator RouteReconciler.
Import Row.
Open Scope Z_scope.

(** ** Policy *)

Inductive AutomationLevel : Set :=
| AutomationAuto
| AutomationApprovalRequired
| AutomationNotifyOnly
| AutomationUnknown.

Definition AutomationLevel_String (l : AutomationLevel) : string :=
  match l with
  | AutomationAuto => "auto"
  | AutomationApprovalRequired => "approval_required"
  | AutomationNotifyOnly => "notify_only"
  | AutomationUnknown => "unknown"
  end.

Definition EventEngineDown : string := "engine_down".
Definition EventNodeDown : string := "node_down".
Definition EventNewNode : string := "new_node".
Definition EventOrphanDeployment : string := "orphan_deployment".

Definition DefaultLevels : gmap string AutomationLevel :=
  {[ EventEngineDown := AutomationAuto;
     EventNodeDown := AutomationApprovalRequired;
     EventOrphanDeployment := AutomationApprovalRequired;
     EventNewNode := AutomationNotifyOnly ]}.

(** A nil [Levels] map reads as empty. *)
Record Config : Type := mkConfig {
  Cfg_Interval : Duration; Cfg_Hysteresis : Duration; Cfg_FailureThreshold : Z; Cfg_NodeTimeout : Duration;
  Cfg_ActionCooldown : Duration; Cfg_Levels : gmap string AutomationLevel; Cfg_WebhookURL : string;
  Cfg_WebhookRetries : Z }.

Definition DefaultConfig : Config :=
  mkConfig (10 * Second) (30 * Second) 3 (45 * Second) (2 * Minute) DefaultLevels "" 0.

(** A missing type reads as the zero level. *)
Definition level (c : Config) (t : string) : AutomationLevel :=
  match Cfg_Levels c !! t with
  | Some l => l
  | None => default AutomationAuto (DefaultLevels !! t)
  end.

(** ** Collaborators *)

Record Actuator : Type := mkActuator {
  act_RestartEngine : string -> string -> M (option Error);
  act_Failover : string -> M (option Error);
  act_Cleanup : string -> M (option Error) }.

Definition FailoverPlanner : Type := string -> M (Error + Proto.DeploymentPlan).

Record Event : Type := mkEvent {
  Ev_Type : string; Ev_DeploymentID : string; Ev_NodeID : string; Ev_Level : AutomationLevel; Ev_Acted : bool;
  Ev_Reason : string }.

Record Report : Type := mkReport { Detected : list Event; Acted : list Event }.

Record discrepancy : Type := mkDiscrepancy { d_typ : string; d_depID : string; d_nodeID : string }.

Definition keyOf (typ depID nodeID : string) : string := typ +:+ "|" +:+ depID +:+ "|" +:+ nodeID.
Definition key (d : discrepancy) : string := keyOf (d_typ d) (d_depID d) (d_nodeID d).
Definition evKey (e : Event) : string := keyOf (Ev_Type e) (Ev_DeploymentID e) (Ev_NodeID e).

Record discState : Type := mkDiscState {
  firstSeen : Time; count : Z; seenThis : bool; lastActed : Time }.

Notation Tracker := (gmap string discState).

Record Reconciler : Type := mkReconciler {
  rc_act : option Actuator; rc_planner : option FailoverPlanner; rc_cfg : Config }.

Definition New (act : option Actuator) (planner : option FailoverPlanner) (cfg : Config) : Reconciler :=
  mkReconciler act planner
    (mkConfig (if Cfg_Interval cfg <=? 0 then Cfg_Interval DefaultConfig else Cfg_Interval cfg)
       (Cfg_Hysteresis cfg)
       (if Cfg_FailureThreshold cfg <=? 0 then 1 else Cfg_FailureThreshold cfg)
       (if Cfg_NodeTimeout cfg <=? 0 then Cfg_NodeTimeout DefaultConfig else Cfg_NodeTimeout cfg)
       (Cfg_ActionCooldown cfg) (Cfg_Levels cfg) (Cfg_WebhookURL cfg) (Cfg_WebhookRetries cfg)).

(** ** Node health *)

Definition nodeStateReady : string := "NODE_STATE_READY".
Definition nodeStateRunning : string := "NODE_STATE_RUNNING".
Definition nodeStateUnreachable : string := "NODE_STATE_UNREACHABLE".
Definition nodeStateDecommissioned : string := "NODE_STATE_DECOMMISSIONED".

Definition nodeDown (c : Config) (n : Node) (now : Time) : bool :=
  if (State n =? nodeStateUnreachable)%string || (State n =? nodeStateDecommissioned)%string then true
  else if IsZero (LastSeen n) then Cfg_NodeTimeout c <? Sub now (CreatedAt n)
  else Cfg_NodeTimeout c <? Sub now (LastSeen n).

Definition engineHealthy (n : Node) : bool :=
  (State n =? nodeStateRunning)%string || (State n =? nodeStateReady)%string.

Definition failoverIsTerminal (state : string) : bool :=
  (state =? StateStopped)%string || (state =? StateFailed)%string.

Definition decodeDetail (d : Deployment) : DeploymentDetail := default DeploymentDetail_zero (DDetail d).

(** The engines of one ACTIVE deployment. *)
Definition observeEngine (c : Config) (byID : gmap string Node) (now : Time) (depID : string) (e : EngineRef)
    : list discrepancy :=
  match byID !! ER_NodeID e with
  | None => [mkDiscrepancy EventNodeDown depID (ER_NodeID e)]
  | Some n =>
      if nodeDown c n now then [mkDiscrepancy EventNodeDown depID (ER_NodeID e)]
      else if engineHealthy n then [] else [mkDiscrepancy EventEngineDown depID (ER_NodeID e)]
  end.

Section Reconciler.
Context `{E : Env}.

(** ** Observation *)

(** The loop over the deployments: the discrepancies and the claimed nodes. *)
Fixpoint observeDeps (c : Config) (byID : gmap string Node) (now : Time) (deps : list Deployment)
    (out : list discrepancy) (claimed : gset string) : M (list discrepancy * gset string) :=
  match deps with
  | [] => cret (out, claimed)
  | d :: deps =>
      if negb (DState d =? StateActive)%string then observeDeps c byID now deps out claimed else
      let detail := decodeDetail d in
      let* orphan := (if (DD_ModelID detail =? "")%string then cret false
                      else let* r := GetModel (DD_ModelID detail) in
                           cret (match r with inl e => isNotFound e | inr _ => false end)) in
      if orphan : bool then
        observeDeps c byID now deps (out ++ [mkDiscrepancy EventOrphanDeployment (DID d) ""]) claimed
      else
        observeDeps c byID now deps (out ++ flat_map (observeEngine c byID now (DID d)) (DD_Engines detail))
          (claimed ∪ list_to_set (map ER_NodeID (DD_Engines detail)))
  end.

Definition newNode (c : Config) (claimed : gset string) (now : Time) (n : Node) : list discrepancy :=
  if bool_decide (ID n ∈ claimed) then []
  else if (State n =? nodeStateReady)%string && negb (nodeDown c n now)
  then [mkDiscrepancy EventNewNode "" (ID n)] else [].

Definition observe (c : Config) (deps : list Deployment) (byID : gmap string Node) (now : Time)
    : M (list discrepancy) :=
  let* (out, claimed) := observeDeps c byID now deps [] ∅ in
  let* t := next in
  cret (out ++ flat_map (newNode c claimed now) (env_order Node t (map snd (map_to_list byID)))).

(** ** Action *)

Definition audit (action : string) (ev : Event) : M unit :=
  AppendAudit (mkAuditEntry "reconciler" action (Ev_DeploymentID ev) [] zeroTime) ;;; cret ().

Definition act_failed (ev : Event) : M bool := audit "reconciler.action_failed" ev ;;; cret false.

(** The call of the actuator at the end of [handleNodeDown]. *)
Definition failoverCall (act : Actuator) (ev : Event) : M bool :=
  let* err := act_Failover act (Ev_DeploymentID ev) in
  match err with
  | Some _ => act_failed ev
  | None => audit "reconciler.failover.initiated" ev ;;; cret true
  end.

Definition handleNodeDown (act : Actuator) (planner : option FailoverPlanner) (ev : Event) : M bool :=
  match planner with
  | None => failoverCall act ev
  | Some plan =>
      let* r := GetDeployment (Ev_DeploymentID ev) in
      match r with
      | inl _ => act_failed ev
      | inr dep =>
          if failoverIsTerminal (DState dep) then cret false else
          let detail := decodeDetail dep in
          if (DD_ModelID detail =? "")%string then failoverCall act ev else
          let* p := plan (DD_ModelID detail) in
          match p with
          | inl _ => audit "reconciler.failover.no_capacity" ev ;;; cret false
          | inr newPlan =>
              let* t := next in
              let planID := Proto.PlanId newPlan +:+ "-fo-" +:+ env_rand t in
              let newPlan := Proto.mkDeploymentPlan planID (Proto.DModelId newPlan) (Proto.DQuantization newPlan)
                               (Proto.Assignments newPlan) (Proto.PipelineOrder newPlan) (Proto.Estimated newPlan)
                               (Proto.Cost newPlan) (Proto.Explanation newPlan) in
              let* perr := CreatePlan (mkPlan planID (Proto.DModelId newPlan) (Proto.DQuantization newPlan)
                                         (Proto.Cost newPlan) (Some newPlan) zeroTime) in
              match perr with
              | Some _ => act_failed ev
              | None =>
                  let detail := mkDetail (DD_ModelID detail) (DD_Quantization detail) (DD_HostNodeID detail)
                                  (DD_Endpoint detail) (DD_Engines detail) planID (DD_Error detail) in
                  let* uerr := UpdateDeployment (mkDeployment (DID dep) (DModelID dep) (DPlanID dep) (DState dep)
                                                   (Some detail) (DCreatedAt dep) (DUpdatedAt dep)) in
                  match uerr with
                  | Some _ => act_failed ev
                  | None => failoverCall act ev
                  end
              end
          end
      end
  end.

(** The outcome of a plain action. *)
Definition finish (ev : Event) (err : option Error) : M bool :=
  match err with
  | Some _ => act_failed ev
  | None => audit "reconciler.acted" ev ;;; cret true
  end.

(** The webhook runs in its own goroutine: the command marks its launch. *)
Definition dispatch (rc : Reconciler) (ev : Event) : M bool :=
  match Ev_Level ev with
  | AutomationNotifyOnly => audit "reconciler.notify" ev ;;; cret false
  | AutomationApprovalRequired =>
      audit "reconciler.pending_approval" ev ;;;
      (if (Cfg_WebhookURL (rc_cfg rc) =? "")%string then cret ()
       else emit (CWebhook (Ev_Type ev) (Ev_DeploymentID ev) (Ev_NodeID ev))) ;;;
      cret false
  | AutomationAuto =>
      match rc_act rc with
      | None => cret false
      | Some act =>
          if (Ev_Type ev =? EventNodeDown)%string then handleNodeDown act (rc_planner rc) ev
          else if (Ev_Type ev =? EventEngineDown)%string then
            let* err := act_RestartEngine act (Ev_DeploymentID ev) (Ev_NodeID ev) in finish ev err
          else if (Ev_Type ev =? EventOrphanDeployment)%string then
            let* err := act_Cleanup act (Ev_DeploymentID ev) in finish ev err
          else if (Ev_Type ev =? EventNewNode)%string then audit "reconciler.notify" ev ;;; cret false
          else finish ev None
      end
  | AutomationUnknown => cret false
  end.

(** ** The pass *)

Definition eligible (c : Config) (now : Time) (st : discState) : bool :=
  (Cfg_FailureThreshold c <=? count st) && (Cfg_Hysteresis c <=? Sub now (firstSeen st)).

Definition cooling (c : Config) (now : Time) (st : discState) : bool :=
  negb (IsZero (lastActed st)) && (Sub now (lastActed st) <? Cfg_ActionCooldown c).

Definition bump (now : Time) (tr : Tracker) (k : string) : discState :=
  let st := default (mkDiscState now 0 false zeroTime) (tr !! k) in
  mkDiscState (firstSeen st) (count st + 1) true (lastActed st).

(** The loop over the observed discrepancies. *)
Fixpoint passLoop (rc : Reconciler) (now : Time) (ds : list discrepancy) (tr : Tracker) (rep : Report)
    : M (Report * Tracker) :=
  match ds with
  | [] => cret (rep, tr)
  | d :: ds =>
      let st := bump now tr (key d) in
      let ev acted reason :=
        mkEvent (d_typ d) (d_depID d) (d_nodeID d) (level (rc_cfg rc) (d_typ d)) acted reason in
      if eligible (rc_cfg rc) now st && negb (cooling (rc_cfg rc) now st) then
        let* acted := dispatch rc (ev false "") in
        if acted : bool then
          passLoop rc now ds
            (<[key d := mkDiscState (firstSeen st) (count st) true now]> tr)
            (mkReport (Detected rep ++ [ev true ""]) (Acted rep ++ [ev true ""]))
        else
          passLoop rc now ds (<[key d := st]> tr)
            (mkReport (Detected rep ++ [ev false ("pending_" +:+ AutomationLevel_String (level (rc_cfg rc) (d_typ d)))])
               (Acted rep))
      else
        passLoop rc now ds (<[key d := st]> tr)
          (mkReport
             (Detected rep ++ [ev false (if negb (eligible (rc_cfg rc) now st) then "within_hysteresis"
                                         else "action_cooldown")])
             (Acted rep))
  end.

Definition clearSeen (st : discState) : discState :=
  mkDiscState (firstSeen st) (count st) false (lastActed st).

Definition Reconcile (rc : Reconciler) (tr : Tracker) : M (Error + Report * Tracker) :=
  let* now := nowUTC in
  let* r := ListDeployments in
  match r with
  | inl e => cret (inl e)
  | inr deps =>
      let* r := ListNodes in
      match r with
      | inl e => cret (inl e)
      | inr nodes =>
          let byID := list_to_map (map (fun n => (ID n, n)) (reverse nodes)) in
          let* observed := observe (rc_cfg rc) deps byID now in
          let* (rep, tr) := passLoop rc now observed (clearSeen <$> tr) (mkReport [] []) in
          cret (inr (rep, filter (fun kv => seenThis (snd kv) = true) tr))
      end
  end.

(** ** The orchestrator as actuator ([actuator.go]) *)

Definition Failover (o : Orchestrator) (deploymentID : string) : M (option Error) :=
  let* r := GetDeployment deploymentID in
  match r with
  | inl e => cret (Some (Wrap "failover: load deployment" e))
  | inr dep =>
      let detail := decodeDetail dep in
      if (DD_FailoverPlanID detail =? "")%string
      then cret (Some (ErrorString "failover: deployment has no alternate plan")) else
      let* r := GetPlan (DD_FailoverPlanID detail) in
      match r with
      | inl e => cret (Some (Wrap "failover: load alternate plan" e))
      | inr planRow =>
          match PPlan planRow with
          | None => cret (Some (ErrorString "failover: decode alternate plan"))
          | Some plan =>
              let* (_, err) := Apply o (Some plan) in
              match err with
              | Some e => cret (Some (Wrap "failover: apply alternate plan" e))
              | None => Teardown o deploymentID ;;; cret None
              end
          end
      end
  end.

Definition OrchestratorActuator (o : Orchestrator) : Actuator :=
  mkActuator RestartEngine (Failover o) (Teardown o).

(** ** Status: the tracker grouped by event type *)

(** [strings.Cut(k, "|")], the part before the separator. *)
Fixpoint cutKey (k : string) : string :=
  match k with
  | EmptyString => EmptyString
  | String ch k => if Ascii.eqb ch "|"%char then EmptyString else String ch (cutKey k)
  end.

(** The number of tracked entries of a type and the age of the oldest, in
    nanoseconds, never below zero. *)
Definition statusStep (now : Time) (acc : gmap string (Z * Duration)) (kv : string * discState)
    : gmap string (Z * Duration) :=
  let typ := cutKey (fst kv) in
  let '(tracked, oldest) := default (0, 0) (acc !! typ) in
  let age := Sub now (firstSeen (snd kv)) in
  <[typ := (tracked + 1, if oldest <? age then age else oldest)]> acc.

Definition StatusTracker (now : Time) (tr : Tracker) : gmap string (Z * Duration) :=
  fold_left (statusStep now) (map_to_list tr) ∅.
End Reconciler.

(** ** The tracker as a summary of the past passes

    A [Pass] is what one pass saw and acted on; a history lists them, newest first.
    The run of a discrepancy is the unbroken sequence of most recent passes that saw
    it; the tracker holds exactly the summary of each run. *)

Record Pass : Type := mkPass { p_now : Time; p_seen : list string; p_acted : list string }.

Definition passOf (now : Time) (rep : Report) : Pass :=
  mkPass now (map evKey (Detected rep)) (map evKey (Acted rep)).

Fixpoint runOf (k : string) (h : list Pass) : list Pass :=
  match h with
  | [] => []
  | p :: h => if bool_decide (k ∈ p_seen p) then p :: runOf k h else []
  end.

Definition occurrences (k : string) (l : list string) : Z := Z.of_nat (length (filter (fun x => x = k) l)).

Fixpoint sightings (k : string) (run : list Pass) : Z :=
  match run with [] => 0 | p :: run => occurrences k (p_seen p) + sightings k run end.

Fixpoint lastAct (k : string) (run : list Pass) : Time :=
  match run with
  | [] => zeroTime
  | p :: run => if bool_decide (k ∈ p_acted p) then p_now p else lastAct k run
  end.

(** The time of the oldest pass of a run. *)
Fixpoint since (run : list Pass) : Time :=
  match run with
  | [] => zeroTime
  | p :: run => match run with [] => p_now p | _ => since run end
  end.

Definition summary (k : string) (run : list Pass) : discState :=
  mkDiscState (since run) (sightings k run) true (lastAct k run).

Definition summarize (k : string) (run : list Pass) : option discState :=
  match run with [] => None | _ => Some (summary k run) end.

Definition tracks (h : list Pass) (tr : Tracker) : Prop := forall k, tr !! k = summarize k (runOf k h).

(** In the middle of pass [e]. *)
Definition tracking (h : list Pass) (e : Pass) (tr : Tracker) : Prop :=
  (forall k, k ∈ p_acted e -> k ∈ p_seen e) /\
  forall k, tr !! k = if bool_decide (k ∈ p_seen e) then Some (summary k (e :: runOf k h))
                      else clearSeen <$> summarize k (runOf k h).

Definition see (e : Pass) (k : string) : Pass := mkPass (p_now e) (p_seen e ++ [k]) (p_acted e).
Definition doAct (e : Pass) (k : string) : Pass := mkPass (p_now e) (p_seen e) (p_acted e ++ [k]).

Lemma occurrences_snoc k k' l :
  occurrences k (l ++ [k']) = occurrences k l + if bool_decide (k' = k) then 1 else 0.
Proof.
  unfold occurrences. rewrite filter_app, length_app. rewrite filter_cons, filter_nil.
  case_decide; case_bool_decide; try done; cbn; lia.
Qed.

Lemma occurrences_0 k l : k ∉ l -> occurrences k l = 0.
Proof.
  unfold occurrences. induction l as [|x l IH]; intros H; [done|]. apply not_elem_of_cons in H as [Hx Hl].
  rewrite filter_cons, decide_False by congruence. by apply IH.
Qed.

Lemma bump_summary h e tr k :
  tracking h e tr -> bump (p_now e) tr k = summary k (see e k :: runOf k h).
Proof.
  intros [Ha Ht]. unfold bump, summary. rewrite Ht. case_bool_decide as Hk; cbn [default from_option id].
  - cbn [see p_now p_seen p_acted sightings lastAct since]. rewrite occurrences_snoc, bool_decide_true by done.
    unfold summary. cbn [firstSeen count lastActed sightings since lastAct].
    f_equal; solve [lia|by destruct (runOf k h)|done].
  - cbn [see p_now p_seen p_acted sightings lastAct since]. rewrite occurrences_snoc, (bool_decide_true (k = k)) by done.
    rewrite occurrences_0, (bool_decide_false (k ∈ p_acted e)) by auto.
    destruct (runOf k h) as [|p run]; cbn [summarize fmap option_fmap option_map default from_option id]; [done|].
    unfold clearSeen, summary. cbn [firstSeen count lastActed]. f_equal; solve [lia|done].
Qed.

Lemma tracking_see h e tr k :
  tracking h e tr -> tracking h (see e k) (<[k := summary k (see e k :: runOf k h)]> tr).
Proof.
  intros [Ha Ht]. split; [intros k' Hk'; cbn; apply elem_of_app; left; auto|]. intros k'.
  destruct (decide (k' = k)) as [->|Hk].
  - rewrite lookup_insert_eq, bool_decide_true; [done|]. cbn. set_solver.
  - rewrite lookup_insert_ne, Ht by done. cbn [see p_seen].
    rewrite (bool_decide_ext (k' ∈ p_seen e ++ [k]) (k' ∈ p_seen e)) by set_solver. case_bool_decide; [|done].
    unfold summary. cbn [see p_now p_seen p_acted sightings lastAct since].
    rewrite occurrences_snoc, (bool_decide_false (k = k')), Z.add_0_r by done. done.
Qed.

Lemma tracking_act h e tr k :
  tracking h e tr -> k ∈ p_seen e ->
  tracking h (doAct e k)
    (<[k := mkDiscState (since (e :: runOf k h)) (sightings k (e :: runOf k h)) true (p_now e)]> tr).
Proof.
  intros [Ha Ht] Hin. split; [intros k' [Hk'|Hk']%elem_of_app; cbn; [auto|set_solver]|]. intros k'.
  destruct (decide (k' = k)) as [->|Hk].
  - rewrite lookup_insert_eq, bool_decide_true by done. unfold summary. cbn [doAct p_now p_seen p_acted sightings lastAct since].
    rewrite (bool_decide_true (k ∈ p_acted e ++ [k])) by set_solver. done.
  - rewrite lookup_insert_ne, Ht by done. cbn [doAct p_seen]. case_bool_decide; [|done].
    unfold summary. cbn [doAct p_now p_seen p_acted sightings lastAct since].
    by rewrite (bool_decide_ext (k' ∈ p_acted e ++ [k]) (k' ∈ p_acted e)) by set_solver.
Qed.

Section Loop.
Context `{E : Env} (rc : Reconciler).

(** Only an AUTO event with an actuator is ever acted on. *)
Lemma dispatch_acts ev w w' : dispatch rc ev w = (true, w') -> Ev_Level ev = AutomationAuto /\ rc_act rc ≠ None.
Proof.
  unfold dispatch. intros H. destruct (Ev_Level ev); [split; [done|]; by destruct (rc_act rc)| | |done].
  - do 2 run_step H. done.
  - run_step H. done.
Qed.

(** When an event may be acted on: the discrepancy has been seen often enough and
    for long enough in an unbroken run of passes that includes this one, and the
    previous action of the run, if any, is at least the cooldown ago. *)
Definition due (h : list Pass) (e : Pass) (ev : Event) : Prop :=
  let k := evKey ev in
  Ev_Level ev = AutomationAuto /\ level (rc_cfg rc) (Ev_Type ev) = AutomationAuto /\ rc_act rc ≠ None /\
  k ∈ p_seen e /\
  Cfg_FailureThreshold (rc_cfg rc) <= sightings k (e :: runOf k h) /\
  Cfg_Hysteresis (rc_cfg rc) <= Sub (p_now e) (since (e :: runOf k h)) /\
  (0 < Cfg_ActionCooldown (rc_cfg rc) -> IsZero (lastAct k (runOf k h)) = false ->
     Cfg_ActionCooldown (rc_cfg rc) <= Sub (p_now e) (lastAct k (runOf k h))).

Lemma due_mono h e e' ev : p_now e' = p_now e ->
  (exists l, p_seen e' = p_seen e ++ l) -> due h e ev -> due h e' ev.
Proof.
  intros Hn (l & Hl) (H1 & H2 & H3 & H4 & H5 & H6 & H7). unfold due. cbn [sightings since] in *. rewrite Hn, Hl.
  split_and!; auto; [apply elem_of_app; by left|].
  assert (occurrences (evKey ev) (p_seen e) <= occurrences (evKey ev) (p_seen e ++ l)); [|lia].
  unfold occurrences. rewrite filter_app, length_app. lia.
Qed.

Lemma cooling_same_pass now st : IsZero now = false -> 0 < Cfg_ActionCooldown (rc_cfg rc) ->
  lastActed st = now -> cooling (rc_cfg rc) now st = true.
Proof.
  intros Hz Hc Hl. unfold cooling. rewrite Hl, Hz. cbn. apply Z.ltb_lt. unfold Sub. lia.
Qed.

Lemma passLoop_spec h ds : forall now tr rep w rep' tr' w',
  IsZero now = false -> tracking h (passOf now rep) tr -> Forall (due h (passOf now rep)) (Acted rep) ->
  passLoop rc now ds tr rep w = ((rep', tr'), w') ->
  tracking h (passOf now rep') tr' /\ Forall (due h (passOf now rep')) (Acted rep') /\
  map evKey (Detected rep') = map evKey (Detected rep) ++ map key ds.
Proof.
  induction ds as [|d ds IH]; intros now tr rep w rep' tr' w' Hz Ht Hdue; cbn [passLoop].
  { intros [= <- <- <-]. by rewrite app_nil_r. }
  pose proof (bump_summary h _ tr (key d) Ht : bump now tr (key d) = _) as Hb. rewrite Hb.
  set (e := passOf now rep) in *. set (st := summary (key d) (see e (key d) :: runOf (key d) h)) in *.
  pose proof (tracking_see h e tr (key d) Ht) as Hs. fold st in Hs.
  assert (Hmono : forall rep1 l, map evKey (Detected rep1) = map evKey (Detected rep) ++ l ->
    Forall (due h (passOf now rep1)) (Acted rep)).
  { intros rep1 l Hl. eapply Forall_impl; [exact Hdue|]. intros ev. apply due_mono; [done|]. exists l. exact Hl. }
  (* an event that is only detected *)
  assert (Hno : forall reason tr1 w1, tr1 = <[key d := st]> tr ->
    passLoop rc now ds tr1 (mkReport (Detected rep ++ [mkEvent (d_typ d) (d_depID d) (d_nodeID d)
      (level (rc_cfg rc) (d_typ d)) false reason]) (Acted rep)) w1 = ((rep', tr'), w') ->
    tracking h (passOf now rep') tr' /\ Forall (due h (passOf now rep')) (Acted rep') /\
    map evKey (Detected rep') = map evKey (Detected rep) ++ map key (d :: ds)).
  { intros reason tr1 w1 -> H. eapply IH in H; [|exact Hz| |].
    - destruct H as (I1 & I2 & I3). cbn [Detected] in I3. rewrite map_app, <- app_assoc in I3. auto.
    - unfold passOf. cbn [Detected Acted]. rewrite map_app. exact Hs.
    - cbn [Acted]. apply (Hmono _ [key d]). cbn [Detected]. by rewrite map_app. }
  destruct (eligible (rc_cfg rc) now st && negb (cooling (rc_cfg rc) now st)) eqn:Eg; [|by apply Hno].
  intros H. run_step H. destruct r; [|by eapply Hno].
  apply dispatch_acts in Hrun as (Hl & Hact). cbn [Ev_Level] in Hl.
  apply andb_true_iff in Eg as [Eel Ecool%negb_true_iff]. unfold eligible in Eel.
  apply andb_true_iff in Eel as [E1%Z.leb_le E2%Z.leb_le].
  set (ev := mkEvent (d_typ d) (d_depID d) (d_nodeID d) (level (rc_cfg rc) (d_typ d)) true "") in *.
  assert (Hdev : due h (see e (key d)) ev).
  { unfold due. change (evKey ev) with (key d). split_and!; auto; [cbn; set_solver|]. intros Hc Hlast.
    destruct (decide (key d ∈ p_acted e)) as [Hin|Hni].
    - rewrite (cooling_same_pass now st Hz Hc) in Ecool; [done|]. unfold st, summary. cbn [lastActed lastAct see p_acted p_now].
      by rewrite bool_decide_true.
    - unfold cooling, st, summary in Ecool. cbn [lastActed lastAct see p_acted] in Ecool.
      rewrite bool_decide_false in Ecool by done. rewrite Hlast in Ecool. cbn in Ecool. apply Z.ltb_ge in Ecool. exact Ecool. }
  eapply IH in H; [|exact Hz| |].
  - destruct H as (I1 & I2 & I3). cbn [Detected] in I3. rewrite map_app, <- app_assoc in I3. auto.
  - unfold passOf. cbn [Detected Acted]. rewrite !map_app. cbn [map]. change (evKey ev) with (key d).
    rewrite <- (insert_insert_eq tr (key d) _ st).
    apply (tracking_act h (see e (key d)) _ (key d) Hs). cbn. set_solver.
  - cbn [Acted]. apply Forall_app. split; [apply (Hmono _ [key d]); cbn [Detected]; by rewrite map_app|].
    constructor; [|constructor]. eapply due_mono; [| |exact Hdev]; [done|]. exists []. unfold passOf. cbn.
    by rewrite map_app, app_nil_r.
Qed.
End Loop.

Section Passes.
Context `{E : Env} (rc : Reconciler).

Lemma tracking_start h now (tr : Tracker) : tracks h tr -> tracking h (passOf now (mkReport [] [])) (clearSeen <$> tr).
Proof. intros Ht. split; [done|]. intros k. rewrite lookup_fmap, Ht. done. Qed.

Lemma tracking_end h e (tr : Tracker) :
  tracking h e tr -> tracks (e :: h) (filter (fun kv => seenThis (snd kv) = true) tr).
Proof.
  intros [_ Ht] k. cbn [runOf]. specialize (Ht k). case_bool_decide as Hk.
  - apply map_lookup_filter_Some. split; [exact Ht|done].
  - apply map_lookup_filter_None. right. intros st Hst. rewrite Ht in Hst.
    destruct (summarize k (runOf k h)); [|done]. injection Hst as <-. done.
Qed.

Lemma Reconcile_run h tr w rep tr' w' :
  tracks h tr -> IsZero (env_now (w_tick w)) = false -> Reconcile rc tr w = (inr (rep, tr'), w') ->
  let e := passOf (env_now (w_tick w)) rep in tracks (e :: h) tr' /\ Forall (due rc h e) (Acted rep).
Proof.
  intros Ht Hz H. unfold Reconcile in H. run_step H. injection Hrun as <- <-. run_step H.
  destruct r as [e|deps]; [done|]. run_step H. destruct r as [e|nodes]; [done|]. run_step H. run_step H.
  destruct r0 as [rep0 tr0]. injection H as <- <- <-.
  apply (passLoop_spec rc h) in Hrun2 as (H1 & H2 & _); [|done|by apply tracking_start|constructor].
  split; [by apply tracking_end|done].
Qed.

(** The passes of a control loop that starts with an empty tracker. Between two
    passes the world changes in any way; a pass that cannot read the registry
    leaves no trace. *)
Inductive passes : list Pass -> Tracker -> Prop :=
| passes_start : passes [] ∅
| passes_done h tr w rep tr' w' :
    passes h tr -> IsZero (env_now (w_tick w)) = false -> Reconcile rc tr w = (inr (rep, tr'), w') ->
    passes (passOf (env_now (w_tick w)) rep :: h) tr'
| passes_failed h tr w e w' : passes h tr -> Reconcile rc tr w = (inl e, w') -> passes h tr.

Lemma passes_tracks h tr : passes h tr -> tracks h tr.
Proof.
  induction 1 as [|h tr w rep tr' w' _ IH Hz H|h tr w e w' _ IH _]; [|exact (proj1 (Reconcile_run _ _ _ _ _ _ IH Hz H))|done].
  intros k. cbn. apply lookup_empty.
Qed.

(** ** What a pass may do under a policy *)

Definition harmless (c : Command) : Prop :=
  (exists addr req r, c = CStart addr req r) \/ (exists t d n, c = CWebhook t d n).

(** Engine starts and webhooks only; the routes and the plans stay. *)
Definition mild (w w' : World) : Prop :=
  issues harmless w w' /\ w_routes w' = w_routes w /\ db_plans (w_db w') = db_plans (w_db w) /\
  dom (db_deployments (w_db w')) = dom (db_deployments (w_db w)).

#[export] Instance mild_pre : PreOrder mild.
Proof.
  split; [intros w; split_and!; try done; apply issues_refl|].
  intros w1 w2 w3 (A1 & A2 & A3 & A4) (B1 & B2 & B3 & B4). split_and!; [by etrans|congruence..].
Qed.

Lemma mild_quiet w w' : w_trace w' = w_trace w -> w_routes w' = w_routes w -> w_db w' = w_db w -> mild w w'.
Proof. intros H1 H2 H3. unfold mild. rewrite H2, H3. split_and!; try done. exists []. by rewrite app_nil_r. Qed.

Lemma mild_nowUTC : leaves mild nowUTC.
Proof. intros w. by apply mild_quiet. Qed.

Lemma mild_query {A} what (k : Database -> Error + A) : leaves mild (query what k).
Proof.
  intros w. destruct (query what k w) as [r w'] eqn:H. apply query_spec in H as (H1 & (H2 & H3) & _).
  by apply mild_quiet.
Qed.

Lemma mild_next : leaves mild next.
Proof. intros w. by apply mild_quiet. Qed.

Lemma mild_audit a ev : leaves mild (audit a ev).
Proof.
  intros w. unfold audit. rewrite cbind_run. cbn [cret snd].
  destruct (AppendAudit _ w) as [r w'] eqn:H. apply AppendAudit_spec in H as ((H1 & H2) & _ & _ & H3 & H4).
  unfold mild. cbn. rewrite H1, H3, H4. split_and!; try done. exists []. by rewrite app_nil_r.
Qed.

Lemma mild_update d : leaves mild (UpdateDeployment d).
Proof.
  intros w. destruct (UpdateDeployment d w) as [r w'] eqn:H. cbn. pose proof H as H'.
  apply UpdateDeployment_spec in H as ((H1 & H2) & (_ & _ & H3 & H4) & H5).
  unfold mild. rewrite H1, H3. split_and!; try done; [exists []; by rewrite app_nil_r|].
  apply set_eq. intros k. rewrite !elem_of_dom. unfold deployment in *.
  destruct (decide (k = DID d)) as [->|Hk]; [|by rewrite H4].
  destruct r as [e|]; [by destruct H5 as [-> _]|]. destruct H5 as (row & now & -> & ->). split; by eexists.
Qed.

Lemma mild_start addr req : leaves mild (startAndWaitReady addr req).
Proof.
  intros w. destruct (startAndWaitReady addr req w) as [r w'] eqn:H. apply startAndWaitReady_spec in H as (H1 & H2 & H3).
  unfold mild. cbn. rewrite H1, H2. split_and!; try done. eexists. split; [exact H3|].
  constructor; [|constructor]. left. eauto.
Qed.

Lemma mild_oaudit a t l : leaves mild (Orchestrator.audit a t l).
Proof.
  intros w. unfold Orchestrator.audit. rewrite cbind_run. cbn [cret snd].
  destruct (AppendAudit _ w) as [r w'] eqn:H. apply AppendAudit_spec in H as ((H1 & H2) & _ & _ & H3 & H4).
  unfold mild. cbn. rewrite H1, H3, H4. split_and!; try done. exists []. by rewrite app_nil_r.
Qed.

#[local] Hint Resolve mild_nowUTC mild_query mild_next mild_audit mild_oaudit mild_update mild_start : purser.

(** Splits a sequence of calls that are each known to be mild. *)
Ltac mild_steps :=
  lazymatch goal with
  | |- leaves mild (cret _) => apply leaves_ret; apply _
  | |- leaves mild (cbind _ _) => apply leaves_bind; [apply _|mild_steps|intros ?; mild_steps]
  | |- leaves mild _ => auto with purser
  | _ => idtac
  end.

Lemma mild_restart id node : leaves mild (RestartEngine id node).
Proof.
  unfold RestartEngine. apply leaves_bind; [apply _|apply mild_query|]. intros [e|dep]; [mild_steps|].
  destruct (findEngine _ _ _) as [[idx ref]|]; [|mild_steps].
  apply leaves_bind; [apply _|apply mild_start|]. intros [e|h]; [mild_steps|]. unfold persist. mild_steps.
Qed.

Lemma mild_ListDeployments : leaves mild ListDeployments.
Proof. apply leaves_bind; [apply _|apply mild_next|]. intros t. apply mild_query. Qed.

Lemma mild_ListNodes : leaves mild ListNodes.
Proof. apply mild_query. Qed.

Lemma mild_GetModel id : leaves mild (GetModel id).
Proof. apply mild_query. Qed.

Lemma mild_observeDeps c byID now deps : forall out claimed, leaves mild (observeDeps c byID now deps out claimed).
Proof.
  induction deps as [|d deps IH]; intros out claimed; cbn [observeDeps]; [mild_steps|].
  destruct (negb _); [apply IH|]. apply leaves_bind; [apply _| |].
  - destruct (_ =? _)%string; [mild_steps|]. apply leaves_bind; [apply _|apply mild_GetModel|]. intros r. mild_steps.
  - intros [|]; apply IH.
Qed.

Lemma mild_observe c deps byID now : leaves mild (observe c deps byID now).
Proof.
  unfold observe. apply leaves_bind; [apply _|apply mild_observeDeps|]. intros [out claimed].
  apply leaves_bind; [apply _|apply mild_next|]. intros t. mild_steps.
Qed.

(** The types that [observe] reports. *)
Definition knownType (t : string) : Prop := t ∈ [EventEngineDown; EventNodeDown; EventNewNode; EventOrphanDeployment].

Lemma observeDeps_types c byID now deps : forall out claimed w,
  Forall (fun d => knownType (d_typ d)) out ->
  Forall (fun d => knownType (d_typ d)) (fst (fst (observeDeps c byID now deps out claimed w))).
Proof.
  induction deps as [|d deps IH]; intros out claimed w Ho; cbn [observeDeps]; [done|].
  destruct (negb _); [by apply IH|]. rewrite cbind_run.
  match goal with |- context [if fst ?x then _ else _] => destruct (fst x) end.
  - apply IH. apply Forall_app. split; [done|]. constructor; [|done]. unfold knownType. cbn. set_solver.
  - apply IH. apply Forall_app. split; [done|]. apply Forall_flat_map, Forall_forall. intros e _. unfold observeEngine.
    repeat case_match; repeat constructor; unfold knownType; cbn; set_solver.
Qed.

Lemma observe_types c deps byID now w : Forall (fun d => knownType (d_typ d)) (fst (observe c deps byID now w)).
Proof.
  unfold observe. rewrite cbind_run. pose proof (observeDeps_types c byID now deps [] ∅ w ltac:(constructor)) as H.
  destruct (observeDeps c byID now deps [] ∅ w) as [[out claimed] w1]. cbn [fst snd] in *. rewrite cbind_run. cbn [cret fst].
  apply Forall_app. split; [done|]. apply Forall_flat_map, Forall_forall. intros n _. unfold newNode.
  repeat case_match; repeat constructor; unfold knownType; cbn; set_solver.
Qed.

(** Failover and clean-up are not automatic. *)
Definition cautious (c : Config) : Prop :=
  level c EventNodeDown ≠ AutomationAuto /\ level c EventOrphanDeployment ≠ AutomationAuto.

Lemma mild_dispatch o ev : rc_act rc = Some (OrchestratorActuator o) -> cautious (rc_cfg rc) ->
  Ev_Level ev = level (rc_cfg rc) (Ev_Type ev) -> knownType (Ev_Type ev) -> leaves mild (dispatch rc ev).
Proof.
  intros Ha [Hc1 Hc2] Hl Hk. unfold dispatch. rewrite Ha. destruct (Ev_Level ev) eqn:El.
  - destruct (String.eqb_spec (Ev_Type ev) EventNodeDown) as [E1|E1]; [rewrite E1 in Hl; congruence|].
    destruct (String.eqb_spec (Ev_Type ev) EventEngineDown) as [E2|E2].
    { apply leaves_bind; [apply _|apply mild_restart|]. intros [e|]; unfold finish, act_failed; mild_steps. }
    destruct (String.eqb_spec (Ev_Type ev) EventOrphanDeployment) as [E3|E3]; [rewrite E3 in Hl; congruence|].
    destruct (String.eqb_spec (Ev_Type ev) EventNewNode) as [E4|E4]; [mild_steps|]. unfold finish. mild_steps.
  - apply leaves_bind; [apply _|apply mild_audit|]. intros _. apply leaves_bind; [apply _| |intros _; mild_steps].
    destruct (_ =? _)%string; [mild_steps|]. intros w. split_and!; try done. eexists. split; [done|].
    constructor; [|constructor]. right. eauto.
  - mild_steps.
  - mild_steps.
Qed.

Lemma mild_passLoop o ds : rc_act rc = Some (OrchestratorActuator o) -> cautious (rc_cfg rc) ->
  Forall (fun d => knownType (d_typ d)) ds -> forall now tr rep, leaves mild (passLoop rc now ds tr rep).
Proof.
  intros Ha Hc. induction 1 as [|d ds Hk _ IH]; intros now tr rep; cbn [passLoop]; [mild_steps|].
  destruct (_ && _); [|apply IH]. apply leaves_bind; [apply _|by apply (mild_dispatch o)|]. intros [|]; apply IH.
Qed.

Lemma mild_Reconcile o tr : rc_act rc = Some (OrchestratorActuator o) -> cautious (rc_cfg rc) ->
  leaves mild (Reconcile rc tr).
Proof.
  intros Ha Hc w. unfold Reconcile. rewrite cbind_run. etrans; [apply mild_nowUTC|].
  generalize (snd (nowUTC w)) (fst (nowUTC w)). clear w. intros w now.
  rewrite cbind_run. etrans; [apply mild_ListDeployments|].
  generalize (snd (ListDeployments w)) (fst (ListDeployments w)). clear w. intros w [e|deps]; [done|].
  rewrite cbind_run. etrans; [apply mild_ListNodes|].
  generalize (snd (ListNodes w)) (fst (ListNodes w)). clear w. intros w [e|nodes]; [done|].
  rewrite cbind_run. set (byID := list_to_map _). etrans; [|].
  { apply (mild_observe (rc_cfg rc) deps byID now). }
  pose proof (observe_types (rc_cfg rc) deps byID now w) as Ht.
  generalize dependent (fst (observe (rc_cfg rc) deps byID now w)).
  generalize (snd (observe (rc_cfg rc) deps byID now w)). clear w. intros w ds Ht.
  rewrite cbind_run. etrans; [exact (mild_passLoop o ds Ha Hc Ht now (clearSeen <$> tr) (mkReport [] []) w)|].
  destruct (passLoop rc now ds (clearSeen <$> tr) (mkReport [] []) w) as [[rep0 tr0] w1]. done.
Qed.
End Passes.

Section Observe.
Context `{E : Env} (c : Config) (byID : gmap string Node) (now : Time).

(** The deployment's model is not in the catalogue. *)
Definition orphaned (models : gmap string Model) (d : Deployment) : bool :=
  negb (DD_ModelID (decodeDetail d) =? "")%string && bool_decide (models !! DD_ModelID (decodeDetail d) = None).

Definition isActive (d : Deployment) : bool := (DState d =? StateActive)%string.

Definition depDiscrepancies (models : gmap string Model) (d : Deployment) : list discrepancy :=
  if negb (isActive d) then []
  else if orphaned models d then [mkDiscrepancy EventOrphanDeployment (DID d) ""]
  else flat_map (observeEngine c byID now (DID d)) (DD_Engines (decodeDetail d)).

Definition depClaims (models : gmap string Model) (d : Deployment) : gset string :=
  if negb (isActive d) || orphaned models d then ∅ else list_to_set (map ER_NodeID (DD_Engines (decodeDetail d))).

Lemma observeDeps_healthy (HD : HealthyDB E) deps : forall out claimed w,
  let '((o, cl), w') := observeDeps c byID now deps out claimed w in
  o = out ++ flat_map (depDiscrepancies (db_models (w_db w))) deps /\
  cl = claimed ∪ ⋃ map (depClaims (db_models (w_db w))) deps.
Proof.
  induction deps as [|d deps IH]; intros out claimed w; cbn [observeDeps].
  { cbn. rewrite app_nil_r. split; [done|]. set_solver. }
  cbn [flat_map map]. unfold depDiscrepancies at 1, depClaims at 1, isActive.
  destruct (DState d =? StateActive)%string; cbn [negb orb].
  2:{ specialize (IH out claimed w). destruct (observeDeps _ _ _ _ _ _ _) as [[o cl] w']. destruct IH as [-> ->].
      cbn [app]. split; [done|]. rewrite union_list_cons. set_solver. }
  rewrite cbind_run.
  assert (Ho : forall m : M bool,
    m = (if (DD_ModelID (decodeDetail d) =? "")%string then cret false
         else let* r := GetModel (DD_ModelID (decodeDetail d)) in
              cret (match r with inl e => isNotFound e | inr _ => false end)) ->
    fst (m w) = orphaned (db_models (w_db w)) d /\ w_db (snd (m w)) = w_db w).
  { intros m ->. unfold orphaned. destruct (_ =? "")%string; [done|]. cbn [negb andb]. rewrite cbind_run.
    destruct (GetModel _ w) as [r w1] eqn:Eg. pose proof Eg as Eg'. apply query_healthy in Eg; [|done].
    apply query_spec in Eg' as (Ed & _). cbn. split; [|done]. subst r. unfold getRow.
    destruct (db_models (w_db w) !! _); done. }
  specialize (Ho _ eq_refl) as [-> Hdb]. set (w1 := snd _) in *. clearbody w1.
  destruct (orphaned (db_models (w_db w)) d).
  - specialize (IH (out ++ [mkDiscrepancy EventOrphanDeployment (DID d) ""]) claimed w1). rewrite Hdb in IH.
    destruct (observeDeps _ _ _ _ _ _ _) as [[o cl] w']. destruct IH as [-> ->]. rewrite <- app_assoc.
    split; [done|]. rewrite union_list_cons. set_solver.
  - match goal with |- context [observeDeps _ _ _ deps ?o ?cl w1] => specialize (IH o cl w1) end. rewrite Hdb in IH.
    destruct (observeDeps _ _ _ _ _ _ _) as [[o cl] w']. destruct IH as [-> ->]. rewrite <- app_assoc.
    split; [done|]. rewrite union_list_cons. by rewrite (assoc_L (∪)).
Qed.
End Observe.

(** ** Theorems *)

(** (C6) The tracker refines the history of the loop: after any sequence of passes it
    holds, for every discrepancy that the latest pass saw and for no other, the time
    of the first pass of the current unbroken run of passes that saw it, the number
    of sightings in that run, and the time of the run's latest action. *)
Theorem tracker_refines `{E : Env} rc h tr : passes rc h tr -> tracks h tr.
Proof. apply passes_tracks. Qed.

(** (C5) The loop acts only when it is due: the event's level is AUTO and an actuator
    is configured, the discrepancy was seen at least [FailureThreshold] times and
    first at least [Hysteresis] ago in the current unbroken run of passes, and with a
    positive cooldown the run's previous action is at least [ActionCooldown] ago. *)
Theorem Reconcile_due `{E : Env} rc h tr w rep tr' w' :
  passes rc h tr -> IsZero (env_now (w_tick w)) = false -> Reconcile rc tr w = (inr (rep, tr'), w') ->
  Forall (due rc h (passOf (env_now (w_tick w)) rep)) (Acted rep).
Proof. intros Hp Hz H. apply (Reconcile_run rc h tr w rep tr' w'); [by eapply passes_tracks|done..]. Qed.

(** Safe by default: under a policy in which neither failover nor clean-up is
    automatic, such as the default one, a pass over the real orchestrator issues
    nothing but engine starts and webhooks: it stops no engine, changes no route,
    stores no plan and neither creates nor deletes a deployment. *)
Theorem Reconcile_cautious `{E : Env} rc o tr w :
  rc_act rc = Some (OrchestratorActuator o) -> cautious (rc_cfg rc) -> mild w (snd (Reconcile rc tr w)).
Proof. intros Ha Hc. by apply (mild_Reconcile rc o). Qed.

(** What a pass observes, when the registry answers: exactly one orphan for every
    ACTIVE deployment whose model left the catalogue; for every engine of any other
    ACTIVE deployment a node-down if its node is gone or down, an engine-down if the
    node is up but neither RUNNING nor READY, and nothing if it is; and a new-node for
    every READY, live node that no such deployment claims. *)
Theorem observe_exact `{E : Env} c deps byID now w :
  HealthyDB E -> EnvLaws E ->
  let models := db_models (w_db w) in
  let claimed := ⋃ map (depClaims models) deps in
  exists nodes, nodes ≡ₚ map snd (map_to_list byID) /\
  fst (observe c deps byID now w) =
    flat_map (depDiscrepancies c byID now models) deps ++
    flat_map (fun n => if bool_decide (ID n ∉ claimed /\ State n = nodeStateReady /\ nodeDown c n now = false)
                       then [mkDiscrepancy EventNewNode "" (ID n)] else []) nodes.
Proof.
  intros HD HL models claimed. unfold observe. rewrite cbind_run.
  pose proof (observeDeps_healthy c byID now HD deps [] ∅ w) as H.
  destruct (observeDeps c byID now deps [] ∅ w) as [[out cl] w']. destruct H as [-> ->]. cbn [fst snd].
  rewrite cbind_run. cbn [next cret fst snd]. exists (env_order Node (w_tick w') (map snd (map_to_list byID))).
  split; [apply env_order_perm|]. cbn [app]. f_equal. apply flat_map_ext. intros n. unfold newNode.
  rewrite (left_id_L ∅ (∪)). fold models claimed.
  destruct (decide (ID n ∈ claimed)) as [Hin|Hni].
  - rewrite (bool_decide_true (ID n ∈ claimed)), bool_decide_false by tauto. done.
  - rewrite (bool_decide_false (ID n ∈ claimed)) by done.
    destruct (String.eqb_spec (State n) nodeStateReady), (nodeDown c n now); cbn [negb andb];
      first [rewrite bool_decide_true by tauto; done|rewrite bool_decide_false by (intros (_ & ? & ?); congruence); done].
Qed.

Section Failover.
Context `{E : Env} (o : Orchestrator) (HR : ResolverFrame (O_resolver o)) (HG : GatewayFrame (O_gateway o)).

(** The run of a failover that reports success: the alternate plan is active under a
    new identifier, then the failed deployment is torn down. *)
Lemma Failover_run id dep w w' : HealthyDB E -> deployment w id = Some dep -> DID dep = id ->
  Failover o id w = (None, w') ->
  exists plan new w1 ls host err, deployment w new = None /\ activated o plan w new None w1 ls host /\
    deployment w1 id = Some dep /\ Teardown o id w1 = (err, w') /\
    exists row, db_plans (w_db w) !! DD_FailoverPlanID (decodeDetail dep) = Some row /\ PPlan row = Some plan.
Proof.
  intros Hh Hdep Hid H. unfold Failover in H. run_step H. apply GetDeployment_spec in Hrun as (G1 & (G2 & G2') & G3).
  destruct r as [e|dep']; [done|]. assert (dep' = dep) as -> by congruence. clear G3.
  destruct (_ =? "")%string; [done|]. run_step H. pose proof Hrun as Hq. apply query_healthy in Hq; [|done].
  apply query_spec in Hrun as (Q1 & (Q2 & Q3) & _). unfold getRow in Hq.
  destruct (db_plans (w_db w0) !! DD_FailoverPlanID (decodeDetail dep)) as [row|] eqn:Erow; subst r; [|done].
  destruct (PPlan row) as [plan|] eqn:Epl; [|done]. run_step H. destruct r as [new err].
  destruct err as [e|]; [done|]. run_step H. injection H as <-.
  apply Apply_run in Hrun as [(_ & Hn & _)|[(ls & Hn & _)|(ls & host & HA)]]; [by destruct Hn..| |done|done].
  assert (Hsame : forall k, deployment w1 k = deployment w k) by (intros k; unfold deployment; by rewrite Q1, G1).
  assert (HA' : activated o plan w new None w2 ls host).
  { destruct HA as (A1 & A2 & (A3 & A3' & A3'' & A3c) & A4 & (cmds & A5 & A5') & A6 & A7 & A8).
    split; [done|]. split; [by rewrite <- Hsame|]. split; [|split; [done|split; [|split; [|split; [|done]]]]].
    - split_and!; [congruence..|]. intros k Hk. by rewrite A3c, Hsame.
    - exists cmds. split; [done|]. rewrite A5'. congruence.
    - intros HE m Hm. rewrite (A6 HE m Hm). congruence.
    - done. }
  exists plan, new, w2, ls, host, r. split; [by destruct HA' as (_ & ? & _)|]. split; [done|]. split; [|split; [done|]].
  - destruct HA' as (_ & A2 & (_ & _ & _ & A3) & _). rewrite A3; [done|]. congruence.
  - exists row. rewrite <- G1. done.
Qed.
End Failover.

(** Failover takes its own replacement off the gateway. When [Failover] succeeds
    for a deployment and an alternate plan of the same model, the alternate is ACTIVE
    and the failed deployment STOPPED, but the model has no route: [Apply] publishes
    the alternate's route and the teardown of the failed deployment then deletes the
    route of that model. *)
Theorem Failover_unroutes `{E : Env} o id dep w w' :
  ResolverFrame (O_resolver o) -> GatewayFrame (O_gateway o) -> GatewayEffect (O_gateway o) -> GatewayUp (O_gateway o) ->
  HealthyDB E -> deployment w id = Some dep -> DID dep = id -> plainID (DD_ModelID (detailOf dep)) = true ->
  Failover o id w = (None, w') ->
  w_routes w' !! DD_ModelID (detailOf dep) = None /\
  (exists now, deployment w' id = Some (mkDeployment id (DModelID dep) (DPlanID dep) StateStopped (Some (detailOf dep))
                                          (DCreatedAt dep) now)) /\
  exists new row, new ≠ id /\ deployment w' new = Some row /\ DState row = StateActive.
Proof.
  intros HR HG HE HU Hh Hdep Hid Hm H. apply (Failover_run o HR HG id dep) in H; [|done..].
  destruct H as (plan & new & w1 & ls & host & err & Hnew & HA & Hdep1 & HT & _).
  apply (Teardown_run o HG id dep) in HT as (_ & (_ & _ & _ & T1) & T2 & _ & _ & T3); [|done..].
  split; [by apply T3|]. split; [done|]. destruct HA as (_ & _ & _ & _ & _ & _ & _ & HA).
  destruct (HA Hh) as (row & R1 & R2 & _). exists new, row. assert (new ≠ id) by congruence.
  split; [done|]. split; [|done]. by rewrite T1.
Qed.

(** A deployment activated from a plan is routable. *)
Lemma activated_route plan new row ls host :
  DState row = StateActive -> DDetail row = Some (activeDetail plan ls host) -> DID row = new ->
  DModelID row = Proto.DModelId plan -> Proto.DModelId plan ≠ ""%string ->
  desiredRoute row = Some (routeOf new (activeDetail plan ls host)).
Proof.
  intros H1 H2 H3 H4 H5. apply desiredRoute_spec. unfold detailOf, decodeDetail. rewrite H2, H3, H4.
  split; [done|]. split; [exact H5|]. split; [done|]. cbn. by rewrite (proj2 (String.eqb_neq _ _) H5).
Qed.

(** (C18) Failover recovers the service with the next pass of the route reconciler. After
    a failover that reports success, the stored alternate plan of the failed deployment is
    ACTIVE under a new identifier, with one engine for each of its assignments, and the
    failed deployment is STOPPED. After a pass of the route reconciler the model of that
    plan is routed again, to an ACTIVE deployment of that model; and when the model has no
    other ACTIVE deployment, to the new one, at the address of its host. The database and
    the gateway answer, the ids of the routes in the table are plain. *)
Theorem Failover_recovers `{E : Env} hg res interval agents to pushed id dep w w' :
  let gw := HTTPGatewaySync hg in
  let o := Orchestrator.New agents (Some res) (Some gw) to in
  let rr := NewRouteReconciler (Some gw) interval in
  ResolverFrame res -> EnvLaws E -> PathLaws E -> HealthyGateway E -> 0 <= HG_retries hg ->
  HealthyDB E -> deployment w id = Some dep -> DID dep = id -> Failover o id w = (None, w') -> table_wf (w_routes w') ->
  (forall m, is_Some (w_routes w' !! m) \/ m ∈ pushed -> plainID m = true) ->
  exists planRow plan new row ls host old,
    db_plans (w_db w) !! DD_FailoverPlanID (decodeDetail dep) = Some planRow /\ PPlan planRow = Some plan /\
    deployment w new = None /\ deployment w' new = Some row /\ DState row = StateActive /\
    DModelID row = Proto.DModelId plan /\ DDetail row = Some (activeDetail plan ls host) /\
    partition plan = inr (map L_assignment ls, L_assignment host) /\
    deployment w' id = Some old /\ DState old = StateStopped /\
    let routes := w_routes (snd (RouteReconciler.Reconcile rr pushed w')) in
    (Proto.DModelId plan ≠ ""%string ->
     exists u id' dep', routes !! Proto.DModelId plan = Some u /\ deployment w' id' = Some dep' /\
       DState dep' = StateActive /\ desiredRoute dep' = Some u) /\
    (Proto.DModelId plan ≠ ""%string ->
     (forall id' dep' u, deployment w' id' = Some dep' -> desiredRoute dep' = Some u -> RU_ModelID u = Proto.DModelId plan -> id' = new) ->
     routes !! Proto.DModelId plan = Some (routeOf new (activeDetail plan ls host))).
Proof.
  intros gw o rr HR HL HP Hg Hr Hh Hdep Hid H Hwf Hplain. apply (Failover_run o HR _ id dep) in H; [|done..].
  destruct H as (plan & new & w1 & ls & host & err & Hnew & HA & Hdep1 & HT & planRow & Hrow & Hplan).
  apply (Teardown_run o _ id dep) in HT as (_ & (_ & _ & _ & T1) & (now & T2) & _); [|done..].
  destruct HA as (_ & _ & _ & Hpart & _ & _ & _ & HA).
  destruct (HA Hh) as (row & R1 & R2 & R3 & R4 & R5 & _). assert (Hne : new ≠ id) by congruence.
  rewrite <- (T1 new Hne) in R1. exists planRow, plan, new, row, ls, host. eexists. cbv zeta.
  split_and!; [done..|exact T2|done| |];
  destruct (Reconcile_live_run hg interval pushed w') as (_ & Hrt); try done; cbv zeta; fold gw rr in Hrt; rewrite Hrt;
  destruct (desiredOf_spec (w_tick w') w' HL) as (D1 & D2);
  intros Hm; pose proof (activated_route plan new row ls host R2 R3 R4 R5 Hm) as Hd;
  destruct (D2 new row _ R1 Hd) as [u' Hu']; destruct (D1 _ _ Hu') as (Hk & id' & dep' & X1 & X2 & X3).
  - exists u', id', dep'. done.
  - intros Honly. assert (id' = new) as -> by (by apply (Honly id' dep' u')). 
    change (RU_ModelID (routeOf new (activeDetail plan ls host))) with (Proto.DModelId plan) in Hu'. rewrite Hu'. congruence.
Qed.

(** ** Witnesses *)

Definition exOldDep : Deployment :=
  mkDeployment "dep-old" "m" "plan-0" StateActive
    (Some (mkDetail "m" "q4" "x" "http://10.0.0.7:8000"
       [mkEngineRef "b" "b:1" "worker" "h1"; mkEngineRef "x" "x:1" "host" "h2"] "plan-fo" "")) 1 7.

Definition exModelRow : Model := mkModel "m" "" "" f1 "" "" "{}" "{}" 1 1.

Definition exNodeRow (id state : string) : Node :=
  mkNode id id "" "" f1 f1 state "" "" 10 "{}" 1 10.

(** Node [b] is up but its engine is not; node [x] is gone; node [a] is spare. *)
Definition exFailWorld : World :=
  mkWorld 20
    (mkDatabase {[ "a" := exNodeRow "a" nodeStateReady; "b" := exNodeRow "b" "NODE_STATE_LOADING" ]}%string
       {[ "m" := exModelRow ]}%string
       {[ "plan-fo" := mkPlan "plan-fo" "m" "q4" f1 (Some exProtoPlan) 1 ]}%string
       {[ "dep-old" := exOldDep ]}%string [] ∅ ∅ PlatformTables_empty EnterpriseTables_empty)
    {[ "m" := mkRouteUpdate "m" "http://10.0.0.7:8000" "dep-old" "q4" "active" ]}%string [].

Definition exRc (threshold : Z) : Reconciler :=
  New (Some (OrchestratorActuator (E := exEnv None) (exOrch None))) None
    (mkConfig 0 0 threshold 0 0 DefaultLevels "" 0).

Definition exPass (threshold : Z) (w : World) : (Error + Report * Tracker) * World :=
  Reconcile (E := exEnv None) (exRc threshold) ∅ w.

(** The types of the events a pass acted on, and how many it detected. *)
Definition outcome (r : Error + Report * Tracker) : option (list string * nat) :=
  match r with inl _ => None | inr (rep, _) => Some (map Ev_Type (Acted rep), length (Detected rep)) end.

Lemma outcome_Some r l n : outcome r = Some (l, n) ->
  exists rep tr, r = inr (rep, tr) /\ map Ev_Type (Acted rep) = l /\ length (Detected rep) = n.
Proof. destruct r as [e|[rep tr]]; [done|]. intros [= <- <-]. eauto. Qed.

Lemma exPass_ok : outcome (fst (exPass 1 exFailWorld)) = Some ([EventEngineDown], 3%nat).
Proof. vm_compute. reflexivity. Qed.

Lemma exPass_run : exists rep tr w', exPass 1 exFailWorld = (inr (rep, tr), w') /\ map Ev_Type (Acted rep) = [EventEngineDown].
Proof.
  destruct (outcome_Some _ _ _ exPass_ok) as (rep & tr & H & Ha & _). exists rep, tr, (snd (exPass 1 exFailWorld)).
  split; [|exact Ha]. rewrite <- H. by destruct (exPass 1 exFailWorld).
Qed.

Lemma tracker_refines_witness : exists h tr, length h = 1%nat /\ tracks h tr.
Proof.
  destruct exPass_run as (rep & tr & w' & H & _).
  exists [passOf 20 rep], tr. split; [done|]. apply (tracker_refines (E := exEnv None) (exRc 1)).
  exact (passes_done (E := exEnv None) (exRc 1) [] ∅ exFailWorld rep tr w' (passes_start _) eq_refl H).
Defined.

Lemma Reconcile_due_witness :
  exists rep tr w', exPass 1 exFailWorld = (inr (rep, tr), w') /\
    map Ev_Type (Acted rep) = [EventEngineDown] /\ Forall (due (exRc 1) [] (passOf 20 rep)) (Acted rep).
Proof.
  destruct exPass_run as (rep & tr & w' & H & Ha). exists rep, tr, w'. split; [exact H|]. split; [exact Ha|].
  exact (Reconcile_due (E := exEnv None) (exRc 1) [] ∅ exFailWorld rep tr w' (passes_start _) eq_refl H).
Defined.

Lemma Reconcile_cautious_witness : mild exFailWorld (snd (Reconcile (E := exEnv None) (exRc 1) ∅ exFailWorld)).
Proof.
  apply (Reconcile_cautious (E := exEnv None) (exRc 1) (exOrch None) ∅ exFailWorld); [reflexivity|].
  split; vm_compute; discriminate.
Defined.

Lemma observe_exact_witness :
  exists nodes, fst (observe (E := exEnv None) (rc_cfg (exRc 1)) [exOldDep] (db_nodes (w_db exFailWorld)) 20 exFailWorld) =
    [mkDiscrepancy EventEngineDown "dep-old" "b"; mkDiscrepancy EventNodeDown "dep-old" "x"] ++ nodes.
Proof.
  destruct (observe_exact (E := exEnv None) (rc_cfg (exRc 1)) [exOldDep] (db_nodes (w_db exFailWorld)) 20 exFailWorld)
    as (ns & _ & H); [apply _|apply _|]. rewrite H. eexists. reflexivity.
Defined.

Lemma exFailover_run : exists w', Failover (E := exEnv None) (exOrch None) "dep-old" exFailWorld = (None, w').
Proof. eexists. vm_compute. reflexivity. Qed.

Lemma Failover_unroutes_witness :
  exists w', Failover (E := exEnv None) (exOrch None) "dep-old" exFailWorld = (None, w') /\ w_routes w' !! "m"%string = None.
Proof.
  destruct exFailover_run as (w' & H). exists w'. split; [exact H|].
  apply (Failover_unroutes (E := exEnv None) (exOrch None) "dep-old" exOldDep exFailWorld w');
    [apply MapResolver_frame|apply HTTP_frame|apply HTTP_effect, _|apply HTTP_up; [apply _|apply _|cbn; lia]|apply _
    |reflexivity|reflexivity|reflexivity|exact H].
Defined.

Lemma exTable_wf w' : Failover (E := exEnv None) (exOrch None) "dep-old" exFailWorld = (None, w') -> w_routes w' = ∅.
Proof. intros H. vm_compute in H. injection H as <-. reflexivity. Qed.

Lemma empty_plain (routes : gmap string RouteUpdate) : routes = ∅ ->
  forall m, is_Some (routes !! m) \/ m ∈ (∅ : gset string) -> plainID m = true.
Proof. intros -> m [[u H]|H]; [by rewrite lookup_empty in H|by apply not_elem_of_empty in H]. Qed.

Lemma Failover_recovers_witness :
  exists w' new row, Failover (E := exEnv None) (exOrch None) "dep-old" exFailWorld = (None, w') /\
    deployment w' new = Some row /\ DState row = StateActive.
Proof.
  destruct exFailover_run as (w' & H). exists w'.
  destruct (Failover_recovers (E := exEnv None) exGateway (MapResolver exEndpoints) 0 true DefaultStepTimeout ∅
    "dep-old" exOldDep exFailWorld w') as (planRow & plan & new & row & ls & host & old & _ & _ & _ & H1 & H2 & _);
    [apply MapResolver_frame|apply _|apply _|apply _|cbn; lia|apply _|reflexivity|reflexivity|exact H| | |].
  { intros m u Hm. rewrite (exTable_wf w' H) in Hm. by rewrite lookup_empty in Hm. }
  { exact (empty_plain (w_routes w') (exTable_wf w' H)). }
  eauto 10.
Defined.

(** Two shards of one deployment on node [b]. *)
Definition exTwinWorld : World :=
  mkWorld 20
    (mkDatabase {[ "b" := exNodeRow "b" "NODE_STATE_LOADING" ]}%string {[ "m" := exModelRow ]}%string ∅
       {[ "dep-old" := mkDeployment "dep-old" "m" "plan-0" StateActive
            (Some (mkDetail "m" "q4" "b" "http://10.0.0.7:8000"
              [mkEngineRef "b" "b:1" "worker" "h1"; mkEngineRef "b" "b:1" "host" "h2"] "" "")) 1 7 ]}%string [] ∅ ∅ PlatformTables_empty EnterpriseTables_empty)
    ∅ [].

(** The failure threshold counts observations, not passes: a node that holds two
    shards of a deployment, as pinned layers allow, is counted twice in a pass, so that
    with a threshold of two consecutive passes the very first pass acts. *)
Example threshold_counts_engines :
  Cfg_FailureThreshold (rc_cfg (exRc 2)) = 2 /\
  outcome (fst (Reconcile (E := exEnv None) (exRc 2) ∅ exTwinWorld)) = Some ([EventEngineDown], 2%nat).
Proof. split; vm_compute; reflexivity. Qed.
