(* ===== verification/Permissions.v ===== *)
(** * Permissions: the permission engine

    [go/controlplane/permissions]: the catalogue of permission strings
    ([permissions.go]) and the engine that matches, merges and derives them
    ([engine.go]). *)
From S2P Require Import Prelude.
Local Open Scope string_scope.

(** ** The catalogue ([permissions.go]) *)

Definition PermPlatformUsersView : string := "platform:users:view".
Definition PermPlatformUsersManage : string := "platform:users:manage".
Definition PermPlatformOrgsView : string := "platform:orgs:view".
Definition PermPlatformOrgsManage : string := "platform:orgs:manage".
Definition PermPlatformAuditView : string := "platform:audit:view".
Definition PermOrgMembersView : string := "org:members:view".
Definition PermOrgMembersManage : string := "org:members:manage".
Definition PermOrgRolesView : string := "org:roles:view".
Definition PermOrgRolesManage : string := "org:roles:manage".
Definition PermOrgTeamsView : string := "org:teams:view".
Definition PermOrgTeamsManage : string := "org:teams:manage".
Definition PermOrgBillingView : string := "org:billing:view".
Definition PermOrgBillingManage : string := "org:billing:manage".
Definition PermOrgAuditView : string := "org:audit:view".
Definition PermOrgPolicyView : string := "org:policy:view".
Definition PermOrgPolicyManage : string := "org:policy:manage".
Definition PermTeamModelsView : string := "team:models:view".
Definition PermTeamModelsDeploy : string := "team:models:deploy".
Definition PermTeamModelsDelete : string := "team:models:delete".
Definition PermTeamNodesView : string := "team:nodes:view".
Definition PermTeamNodesManage : string := "team:nodes:manage".
Definition PermTeamMetricsView : string := "team:metrics:view".
Definition PermTeamAuditView : string := "team:audit:view".
Definition PermTeamAPIKeysView : string := "team:apikeys:view".
Definition PermTeamAPIKeysManage : string := "team:apikeys:manage".
Definition PermTeamConfigView : string := "team:config:view".
Definition PermTeamConfigApply : string := "team:config:apply".
Definition PermTeamApprovalVote : string := "team:approval:vote".
Definition PermInferenceCall : string := "inference:call".
Definition PermInferenceStream : string := "inference:stream".
Definition PermInferenceAuditView : string := "inference:audit:view".
Definition PermInferenceUsageView : string := "inference:usage:view".
Definition PermInferenceQuotaManage : string := "inference:quota:manage".

Record PermDesc : Type := mkPermDesc { Key : string; Description : string; Scope_ : string }.

Definition All : list PermDesc :=
  [
    mkPermDesc PermPlatformUsersView "List and read platform users" "platform";
    mkPermDesc PermPlatformUsersManage "Create and deactivate platform users" "platform";
    mkPermDesc PermPlatformOrgsView "List and read organisations" "platform";
    mkPermDesc PermPlatformOrgsManage "Create and manage organisations" "platform";
    mkPermDesc PermPlatformAuditView "Read the platform-level audit log" "platform";
    mkPermDesc PermOrgMembersView "List org members" "org";
    mkPermDesc PermOrgMembersManage "Add and remove org members" "org";
    mkPermDesc PermOrgRolesView "List custom roles in an org" "org";
    mkPermDesc PermOrgRolesManage "Create, edit, and delete custom roles in an org" "org";
    mkPermDesc PermOrgTeamsView "List teams within an org" "org";
    mkPermDesc PermOrgTeamsManage "Create and manage teams within an org" "org";
    mkPermDesc PermOrgBillingView "View billing and quota information" "org";
    mkPermDesc PermOrgBillingManage "Adjust billing limits and quotas" "org";
    mkPermDesc PermOrgAuditView "Read the org-level audit log" "org";
    mkPermDesc PermOrgPolicyView "Read OPA/Rego policies in an org" "org";
    mkPermDesc PermOrgPolicyManage "Create and edit policies within an org" "org";
    mkPermDesc PermTeamModelsView "List models registered to the team" "team";
    mkPermDesc PermTeamModelsDeploy "Deploy models to the team's node pool" "team";
    mkPermDesc PermTeamModelsDelete "Remove model deployments in the team" "team";
    mkPermDesc PermTeamNodesView "List nodes registered to the team" "team";
    mkPermDesc PermTeamNodesManage "Enroll and drain nodes in the team" "team";
    mkPermDesc PermTeamMetricsView "Read live metrics for the team's resources" "team";
    mkPermDesc PermTeamAuditView "Read the team-level audit log" "team";
    mkPermDesc PermTeamAPIKeysView "List API keys scoped to the team" "team";
    mkPermDesc PermTeamAPIKeysManage "Create and revoke API keys in the team" "team";
    mkPermDesc PermTeamConfigView "Read the team's desired-state config" "team";
    mkPermDesc PermTeamConfigApply "Apply config-as-code to the team" "team";
    mkPermDesc PermTeamApprovalVote "Cast an approval vote for team deployments" "team";
    mkPermDesc PermInferenceCall "Call the inference API (/v1/...)" "inference";
    mkPermDesc PermInferenceStream "Stream inference responses" "inference";
    mkPermDesc PermInferenceAuditView "Read inference audit logs for the team" "inference";
    mkPermDesc PermInferenceUsageView "Read per-request token usage" "inference";
    mkPermDesc PermInferenceQuotaManage "Adjust inference quotas" "inference"
  ].

(** ** Matching ([engine.go]) *)

(** The body of the loop of [Has] for one held permission. *)
Definition grants (p required : string) : bool :=
  (p =? required)
  || (HasSuffix p ":*" && HasPrefix required (TrimSuffix p "*"))
  || ((p =? "inference:*") && HasPrefix required "inference:").

Fixpoint Has (effective : list string) (required : string) : bool :=
  match effective with
  | [] => false
  | p :: effective => if grants p required then true else Has effective required
  end.

Fixpoint HasAll (effective required : list string) : bool :=
  match required with
  | [] => true
  | r :: required => if negb (Has effective r) then false else HasAll effective required
  end.

Fixpoint HasAny (effective required : list string) : bool :=
  match required with
  | [] => false
  | r :: required => if Has effective r then true else HasAny effective required
  end.

(** ** Built-in roles *)

Record BuiltinRole : Type := mkBuiltinRole { R_ID : string; R_Name : string; R_Permissions : list string }.

Definition SystemRoles : list BuiltinRole := [
  mkBuiltinRole "platform_admin" "Platform Administrator" [
    "platform:orgs:create"; "platform:orgs:delete";
    "platform:pools:manage"; "platform:users:invite";
    "org:teams:create"; "org:teams:delete";
    "org:members:invite"; "org:members:remove";
    "org:roles:create"; "org:roles:delete"; "org:pools:request";
    "team:models:deploy"; "team:models:undeploy";
    "team:keys:create"; "team:keys:revoke";
    "team:members:view"; "team:members:invite"; "team:members:remove";
    "team:metrics:view"; "team:approvals:view"; "team:approvals:review";
    "inference:call"];
  mkBuiltinRole "org_admin" "Organization Administrator" [
    "org:teams:create"; "org:teams:delete";
    "org:members:invite"; "org:members:remove";
    "org:roles:create"; "org:roles:delete"; "org:pools:request";
    "team:models:deploy"; "team:models:undeploy";
    "team:keys:create"; "team:keys:revoke";
    "team:members:view"; "team:members:invite"; "team:members:remove";
    "team:metrics:view"; "team:approvals:view"; "team:approvals:review";
    "inference:call"];
  mkBuiltinRole "team_admin" "Team Administrator" [
    "team:models:deploy"; "team:models:undeploy";
    "team:keys:create"; "team:keys:revoke";
    "team:members:view"; "team:members:invite"; "team:members:remove";
    "team:metrics:view"; "team:approvals:view"; "team:approvals:review";
    "inference:call"];
  mkBuiltinRole "developer" "Developer" [
    "team:models:deploy"; "team:models:undeploy";
    "team:keys:create";
    "team:metrics:view";
    "inference:call"];
  mkBuiltinRole "viewer" "Viewer" [
    "team:members:view";
    "team:metrics:view";
    "team:approvals:view"];
  mkBuiltinRole "inference_only" "Inference Only" ["inference:call"]
].

Record Context_ : Type := mkContext {
  Ctx_UserID : string; Ctx_Email : string; Ctx_TeamID : string; Ctx_OrgID : string;
  Ctx_Permissions : list string; Ctx_IsOrgAdmin : bool; Ctx_IsPlatformAdmin : bool;
  Ctx_LegacyAPIKeyRole : string }.

(** The search of a role by its ID; [None] when the loop ends. *)
Fixpoint roleByID (id : string) (roles : list BuiltinRole) : option (list string) :=
  match roles with
  | [] => None
  | r :: roles => if R_ID r =? id then Some (R_Permissions r) else roleByID id roles
  end.

(** A [nil] slice is the empty list. *)
Definition legacyRolePerms (role : string) : list string :=
  if role =? "admin" then default [] (roleByID "platform_admin" SystemRoles)
  else if role =? "viewer" then default [] (roleByID "viewer" SystemRoles)
  else if role =? "inference" then ["inference:call"]
  else [].

Definition FromLegacyRole (keyID role : string) : Context_ :=
  mkContext keyID "" "" "" (legacyRolePerms role) false (role =? "admin") role.

(** ** Merging *)

(** The inner loop over one set, with the [seen] map and the result. *)
Definition mergeStep (st : gset string * list string) (p : string) : gset string * list string :=
  let '(seen, result) := st in
  if decide (p ∈ seen) then st else ({[ p ]} ∪ seen, (result ++ [p])%list).

Definition Merge (permSets : list (list string)) : list string :=
  let '(_, result) := fold_left (fun st ps => fold_left mergeStep ps st) permSets (∅, []) in
  go_sort String.ltb result.

(** ** What [Has] decides *)

Lemma TrimSuffix_wildcard scope : TrimSuffix (scope +:+ ":*") "*" = scope +:+ ":".
Proof. change ":*" with (":" +:+ "*"). rewrite <- app_string_assoc. apply TrimSuffix_app. Qed.

Lemma grants_spec p required :
  grants p required = true <-> p = required \/ exists scope rest, p = scope +:+ ":*" /\ required = scope +:+ ":" +:+ rest.
Proof.
  unfold grants. rewrite !orb_true_iff, !andb_true_iff, !String.eqb_eq, HasSuffix_spec, !HasPrefix_spec. split.
  - intros [[H|[[scope ->] [rest H]]]|[-> [rest ->]]]; [by left| |].
    + right. exists scope, rest. split; [done|]. by rewrite TrimSuffix_wildcard, app_string_assoc in H.
    + right. by exists "inference", rest.
  - intros [->|(scope & rest & -> & ->)]; [by left; left|]. left; right. split; [by exists scope|].
    exists rest. by rewrite TrimSuffix_wildcard, app_string_assoc.
Qed.

Lemma Has_exists eff r : Has eff r = true <-> exists p, p ∈ eff /\ grants p r = true.
Proof.
  induction eff as [|q eff IH]; cbn [Has].
  - split; [done|]. intros (p & H & _). by apply elem_of_nil in H.
  - destruct (grants q r) eqn:E.
    + split; [|done]. intros _. exists q. split; [by left|done].
    + rewrite IH. split; intros (p & H & G); exists p; (split; [|done]).
      * by right.
      * apply elem_of_cons in H as [->|H]; [congruence|done].
Qed.

Lemma HasAll_Forall eff rs : HasAll eff rs = true <-> Forall (fun r => Has eff r = true) rs.
Proof.
  induction rs as [|r rs IH]; cbn [HasAll]; [by split|]. rewrite Forall_cons, <- IH. destruct (Has eff r); cbn; naive_solver.
Qed.

Lemma HasAny_Exists eff rs : HasAny eff rs = true <-> Exists (fun r => Has eff r = true) rs.
Proof.
  induction rs as [|r rs IH]; cbn [HasAny]; [by rewrite Exists_nil|].
  rewrite Exists_cons, <- IH. destruct (Has eff r); naive_solver.
Qed.

(** A set of permissions grants exactly its members and what its wildcards
    cover: [scope:*] grants the permissions below [scope:], at any depth, and
    nothing outside it; [HasAll] and [HasAny] ask this of every and of some
    required permission. *)
Theorem Has_spec eff rs :
  (forall r, Has eff r = true <->
     r ∈ eff \/ exists scope rest, scope +:+ ":*" ∈ eff /\ r = scope +:+ ":" +:+ rest) /\
  (HasAll eff rs = true <-> forall r, r ∈ rs -> Has eff r = true) /\
  (HasAny eff rs = true <-> exists r, r ∈ rs /\ Has eff r = true).
Proof.
  split_and!.
  - intros r. rewrite Has_exists. setoid_rewrite grants_spec. naive_solver.
  - by rewrite HasAll_Forall, Forall_forall.
  - by rewrite HasAny_Exists, list.Exists_exists.
Qed.

(** ** Delegation *)

Lemma string_snoc s : s = "" \/ exists t c, s = t +:+ String c "".
Proof.
  induction s as [|a s IH]; [by left|]. right. destruct IH as [->|(t & c & ->)]; [by exists "", a|by exists (String a t), c].
Qed.

Lemma string_snoc_inj a b c d : a +:+ String c "" = b +:+ String d "" -> a = b /\ c = d.
Proof.
  intros H. pose proof (f_equal String.length H) as L. rewrite !string_length_app in L. cbn in L.
  apply app_string_inj in H as [-> H]; [|lia]. by injection H.
Qed.

Lemma grants_trans q p r : grants q p = true -> grants p r = true -> grants q r = true.
Proof.
  rewrite !grants_spec. intros [->|(s1 & t1 & -> & H1)]; [done|].
  intros [<-|(s2 & t2 & E & ->)]; [right; by exists s1, t1|]. right. subst p.
  destruct (string_snoc t1) as [->|(t & c & ->)].
  - change (":" +:+ "") with ":" in E. change ":*" with (":" +:+ "*") in E. rewrite <- app_string_assoc in E.
    by apply string_snoc_inj in E as [_ ?].
  - change ":*" with (":" +:+ "*") in E. rewrite <- !app_string_assoc in E. apply string_snoc_inj in E as [E _].
    exists s1, (t +:+ t2). split; [done|]. by rewrite <- app_string_assoc, <- E, !app_string_assoc.
Qed.

Lemma HasAll_covers eff ps r : HasAll eff ps = true -> Has ps r = true -> Has eff r = true.
Proof.
  rewrite HasAll_Forall, Forall_forall, !Has_exists. intros HA (p & Hp & G).
  specialize (HA p Hp). apply Has_exists in HA as (q & Hq & G'). exists q. split; [done|]. by eapply grants_trans.
Qed.

(** Delegation is safe: whoever holds every permission of a set, wildcards
    of the set included, holds everything the set grants; and merging sets that
    are all covered stays covered. *)
Theorem HasAll_delegation eff pss :
  (forall ps, ps ∈ pss -> HasAll eff ps = true) ->
  forall r, existsb (fun ps => Has ps r) pss = true -> Has eff r = true.
Proof.
  intros HA r. rewrite existsb_exists. intros (ps & Hp & H). apply list_elem_of_In in Hp.
  by apply (HasAll_covers eff ps); [apply HA|].
Qed.

Lemma HasAll_delegation_witness :
  Has ["team:*"; "inference:call"] "team:keys:create" = true.
Proof.
  apply (HasAll_delegation ["team:*"; "inference:call"] [["team:keys:*"; "inference:call"]]); [|reflexivity].
  intros ps H. apply list_elem_of_singleton in H as ->. reflexivity.
Defined.

(** ** Merging *)

Lemma mergeStep_spec seen res p seen' res' :
  (forall x, x ∈ seen <-> x ∈ res) -> NoDup res -> mergeStep (seen, res) p = (seen', res') ->
  (forall x, x ∈ seen' <-> x ∈ res') /\ NoDup res' /\ (forall x, x ∈ res' <-> x ∈ res \/ x = p).
Proof.
  intros Hs Hn. unfold mergeStep. case_decide as D; intros [= <- <-].
  - split_and!; [done|done|]. intros x. split; [by left|]. intros [H| ->]; [done|by apply Hs].
  - split_and!.
    + intros x. rewrite elem_of_union, elem_of_singleton, elem_of_app, list_elem_of_singleton, Hs. naive_solver.
    + apply NoDup_app. split_and!; [done| |apply NoDup_singleton]. intros x Hx Hp%list_elem_of_singleton. subst.
      by apply D, Hs.
    + intros x. by rewrite elem_of_app, list_elem_of_singleton.
Qed.

Lemma mergeSet_spec ps : forall seen res seen' res',
  (forall x, x ∈ seen <-> x ∈ res) -> NoDup res -> fold_left mergeStep ps (seen, res) = (seen', res') ->
  (forall x, x ∈ seen' <-> x ∈ res') /\ NoDup res' /\ (forall x, x ∈ res' <-> x ∈ res \/ x ∈ ps).
Proof.
  induction ps as [|p ps IH]; intros seen res seen' res' Hs Hn H; cbn [fold_left] in H.
  - injection H as <- <-. split_and!; [done|done|]. intros x. rewrite elem_of_nil. naive_solver.
  - destruct (mergeStep (seen, res) p) as [s1 r1] eqn:E. apply mergeStep_spec in E as (A1 & A2 & A3); [|done..].
    apply IH in H as (B1 & B2 & B3); [|done..]. split_and!; [done|done|].
    intros x. rewrite B3, A3, elem_of_cons. naive_solver.
Qed.

Lemma mergeAll_spec pss : forall seen res seen' res',
  (forall x, x ∈ seen <-> x ∈ res) -> NoDup res ->
  fold_left (fun st ps => fold_left mergeStep ps st) pss (seen, res) = (seen', res') ->
  NoDup res' /\ (forall x, x ∈ res' <-> x ∈ res \/ exists ps, ps ∈ pss /\ x ∈ ps).
Proof.
  induction pss as [|ps pss IH]; intros seen res seen' res' Hs Hn H; cbn [fold_left] in H.
  - injection H as <- <-. split; [done|]. intros x. setoid_rewrite elem_of_nil. naive_solver.
  - destruct (fold_left mergeStep ps (seen, res)) as [s1 r1] eqn:E. apply mergeSet_spec in E as (A1 & A2 & A3); [|done..].
    apply IH in H as (B1 & B2); [|done..]. split; [done|]. intros x. rewrite B2, A3. setoid_rewrite elem_of_cons. naive_solver.
Qed.

Lemma Merge_elem pss x : x ∈ Merge pss <-> exists ps, ps ∈ pss /\ x ∈ ps.
Proof.
  unfold Merge. destruct (fold_left _ pss (∅, [])) as [seen res] eqn:E. apply mergeAll_spec in E as [_ H].
  - rewrite go_sort_perm, H, elem_of_nil. naive_solver.
  - intros y. by rewrite elem_of_empty, elem_of_nil.
  - constructor.
Qed.

Lemma Merge_NoDup pss : NoDup (Merge pss).
Proof.
  unfold Merge. destruct (fold_left _ pss (∅, [])) as [seen res] eqn:E. rewrite go_sort_perm.
  apply mergeAll_spec in E as [H _]; [done| |constructor]. intros y. by rewrite elem_of_empty, elem_of_nil.
Qed.

Lemma string_not_less_trans a b c : not_less String.ltb a b -> not_less String.ltb b c -> not_less String.ltb a c.
Proof. unfold not_less. rewrite !string_ltb_false. apply string_le_trans. Qed.

(** Merging is union: the result holds every permission of the sets once, in
    ascending order, grants exactly what some set grants, and depends neither on
    the order of the sets nor on repetitions. *)
Theorem Merge_spec pss :
  (forall x, x ∈ Merge pss <-> exists ps, ps ∈ pss /\ x ∈ ps) /\
  NoDup (Merge pss) /\ StronglySorted (not_less String.ltb) (Merge pss) /\
  (forall r, Has (Merge pss) r = existsb (fun ps => Has ps r) pss) /\
  (forall pss', (forall x, (exists ps, ps ∈ pss /\ x ∈ ps) <-> (exists ps, ps ∈ pss' /\ x ∈ ps)) -> Merge pss' = Merge pss).
Proof.
  assert (HS : forall l, StronglySorted (not_less String.ltb) (Merge l)).
  { intros l. unfold Merge. destruct (fold_left _ l _). apply (go_sort_sorted String.ltb (fun _ => True)).
    - intros x y _ _. apply string_ltb_asym.
    - intros x y z _ _ _. apply string_not_less_trans.
    - by apply Forall_true. }
  split_and!; [apply Merge_elem|apply Merge_NoDup|apply HS| |].
  - intros r. apply eq_true_iff_eq. rewrite Has_exists, existsb_exists. setoid_rewrite Merge_elem.
    setoid_rewrite Has_exists. setoid_rewrite <- list_elem_of_In. naive_solver.
  - intros pss' H. eapply (StronglySorted_unique_strong (not_less String.ltb)); [|apply HS|apply HS|].
    + intros x y _ _. unfold not_less. intros H1 H2. by apply string_ltb_total.
    + apply NoDup_Permutation; [apply Merge_NoDup..|]. intros x. rewrite !Merge_elem. symmetry. apply H.
Qed.

(** ** Roles *)

Definition rolePerms (id : string) : list string := default [] (roleByID id SystemRoles).

(** The role ids from the bottom up: each pair is a role and one that covers it. *)
Definition roleOrder : list (string * string) :=
  [("org_admin", "platform_admin"); ("team_admin", "org_admin"); ("developer", "team_admin");
   ("viewer", "team_admin"); ("inference_only", "developer")].

(** The built-in roles form a hierarchy: each role grants whatever the roles
    below it grant. The roles of old keys inherit it: [admin] covers every other
    role, a key with an unknown role holds nothing, and only [admin] is marked as
    platform administrator. *)
Theorem SystemRoles_hierarchy :
  (forall low high r, (low, high) ∈ roleOrder -> Has (rolePerms low) r = true -> Has (rolePerms high) r = true) /\
  (forall id role r, Has (Ctx_Permissions (FromLegacyRole id role)) r = true ->
     Has (rolePerms "platform_admin") r = true /\ role ∈ ["admin"; "viewer"; "inference"]) /\
  (forall id role, Ctx_IsPlatformAdmin (FromLegacyRole id role) = true <-> role = "admin").
Proof.
  split_and!.
  - intros low high r Hin. apply HasAll_covers. revert Hin.
    assert (H : forallb (fun '(l, h) => HasAll (rolePerms h) (rolePerms l)) roleOrder = true) by (vm_compute; reflexivity).
    rewrite forallb_forall in H. intros Hin. apply list_elem_of_In in Hin. apply (H _ Hin).
  - intros id role r. cbn [FromLegacyRole Ctx_Permissions]. unfold legacyRolePerms.
    destruct (String.eqb_spec role "admin") as [->|_]; [intros H; split; [exact H|by left]|].
    destruct (String.eqb_spec role "viewer") as [->|_].
    { intros H. split; [|by right; left].
      apply (HasAll_covers _ (rolePerms "viewer")); [vm_compute; reflexivity|exact H]. }
    destruct (String.eqb_spec role "inference") as [->|_]; [|done].
    intros H. split; [|by right; right; left].
    apply (HasAll_covers _ ["inference:call"]); [vm_compute; reflexivity|exact H].
  - intros id role. apply String.eqb_eq.
Qed.

(** The catalogue that is served as the list of all permissions leaves out most of
    what the built-in roles hold, and is not in the order its comment states. *)
Lemma All_incomplete :
  List.filter (fun p => negb (existsb (fun d => Key d =? p) All)) (rolePerms "platform_admin") =
  ["platform:orgs:create"; "platform:orgs:delete"; "platform:pools:manage"; "platform:users:invite";
   "org:teams:create"; "org:teams:delete"; "org:members:invite"; "org:members:remove"; "org:roles:create";
   "org:roles:delete"; "org:pools:request"; "team:models:undeploy"; "team:keys:create"; "team:keys:revoke";
   "team:members:view"; "team:members:invite"; "team:members:remove"; "team:approvals:view"; "team:approvals:review"].
Proof. vm_compute. reflexivity. Qed.
