(* ===== verification/Access.v ===== *)
(** * Access: who may call the management API

    [go/controlplane/server]: the OIDC, rate-limit and RBAC middleware of
    [server.go], the route table and the permission check of [rbac_v2.go], the
    session tokens of [auth.go] and the service-account tokens of
    [service_accounts.go]; from the registry the reads they make
    ([sqlite.go], [enterprise_sqlite.go], [platform_sqlite.go]).

    A request is what the middleware reads of it; the verdict is whether the next
    handler runs, with which context, or what is answered instead. The times and
    the database faults of one request are a [Moment]: each query and each reading
    of the clock happens at most once in a request, so they are named by their
    place. Hashes, MACs and the decoders of base64 and JSON are parameters. The
    limiters of [golang.org/x/time/rate] are their answers. *)
From S2P Require Import Prelude Cluster Permissions.
Import Row.
Local Open Scope string_scope.

(** ** Parameters *)

Record saTokenClaims : Type := mkSAClaims { SA_Exp : Z; SA_Role : string; SA_Tenant : string; SA_Type : string }.

Record sessionClaims : Type := mkSessionClaims { SC_Sub : string; SC_Email : string; SC_Exp : Z }.

Class Crypto : Type := {
  sha256HexOf : string -> string;
  hmacSHA256 : string -> string -> string;
  b64encode : string -> string;
  b64decode : string -> option string;
  encodeSession : sessionClaims -> string;
  decodeSession : string -> option sessionClaims;
  decodeSA : string -> option saTokenClaims }.

(** ** Rows of the registry *)

(** [expires_at] is the stored text, or [NULL]. *)
Record APIKey : Type := mkAPIKey {
  K_ID : string; K_KeyHash : string; K_Tenant : string; K_Role : string; K_Enabled : bool;
  K_ExpiresAt : option string }.

Record OIDCSession : Type := mkOIDCSession {
  OS_TokenHash : string; OS_Sub : string; OS_Email : string; OS_ExpiresAt : string; OS_Revoked : bool }.

(** The tables by their unique keys. *)
Record AuthTables : Type := mkAuthTables {
  t_keys : gmap string APIKey;
  t_sessions : gmap string OIDCSession;
  t_platform : PlatformTables }.

Inductive Query : Set :=
| QSession | QHasKey | QKey | QTeam | QOrgMember | QOrgAdminRole | QTeamMember | QTeamRole | QBuiltinRole.

Record Moment : Type := mkMoment {
  m_fault : Query -> option Error;
  m_sessionUnix : Z;
  m_saUnix : Z;
  m_sessionText : string;
  m_keyText : string;
  m_allowIP : bool;
  m_allowKey : bool }.

(** ** The server and a request *)

Record TokenClaims : Type := mkTokenClaims {
  TC_Sub : string; TC_Email : string; TC_Tenant : string; TC_Groups : list string; TC_Roles : list string }.

(** [VerifyClaims] when the verifier also implements [GroupClaimsVerifier]. *)
Record TokenVerifier : Type := mkVerifier {
  VerifyToken : string -> option (string * string);
  VerifyClaims : option (string -> option TokenClaims) }.

Record Server : Type := mkServer {
  s_oidcVerifier : option TokenVerifier;
  s_oidcGroupMappings : gmap string string;
  s_oidcRedirectURI : option string;
  s_internalToken : string;
  s_sessionSecret : string;
  s_reg : option AuthTables;
  s_limitIP : bool;
  s_limitKey : bool;
  s_hasAnyAPIKeyCache : bool }.

(** An absent header is the empty string. *)
Record Request : Type := mkRequest {
  Method : string; Path : string; Authorization : string; InternalToken : string;
  SessionCookie : option string; Accept : string }.

Record ReqContext : Type := mkReqContext {
  ctxKeyOIDCSub : option string; ctxKeyOIDCEmail : option string; ctxKeyOIDCRole : option string;
  ctxKeyOIDCTenant : option string; ctxKeyAPIKey : option APIKey }.

Definition Background : ReqContext := mkReqContext None None None None None.

Inductive Verdict : Type :=
| Next (ctx : ReqContext)
| Refuse (status : Z) (message : string)
| Redirect (location : string)
| NoContent.

Definition MethodOptions : string := "OPTIONS".
Definition MethodGet : string := "GET".

(** ** The route table ([rbac_v2.go]) *)

Record routeKey : Type := mkRouteKey { rk_method : string; rk_path : string }.

#[export] Instance routeKey_eq_dec : EqDecision routeKey.
Proof. solve_decision. Defined.

(** With the values of the constants of [registry/types.go]. *)
Definition routePermission : list (routeKey * string) :=
  [
    (mkRouteKey "GET" "/api/v1/nodes", "team:metrics:view");
    (mkRouteKey "POST" "/api/v1/nodes/{id}/drain", "team:models:deploy");
    (mkRouteKey "DELETE" "/api/v1/nodes/{id}", "org:pools:request");
    (mkRouteKey "GET" "/api/v1/models", "team:metrics:view");
    (mkRouteKey "POST" "/api/v1/models", "team:models:deploy");
    (mkRouteKey "DELETE" "/api/v1/models/{id}", "team:models:undeploy");
    (mkRouteKey "POST" "/api/v1/models/{id}/deploy", "team:models:deploy");
    (mkRouteKey "GET" "/api/v1/deployments", "team:metrics:view");
    (mkRouteKey "DELETE" "/api/v1/deployments/{id}", "team:models:undeploy");
    (mkRouteKey "GET" "/api/v1/apikeys", "team:metrics:view");
    (mkRouteKey "POST" "/api/v1/apikeys", "team:keys:create");
    (mkRouteKey "DELETE" "/api/v1/apikeys/{id}", "team:keys:revoke");
    (mkRouteKey "POST" "/api/v1/apikeys/{id}/rotate", "team:keys:create");
    (mkRouteKey "GET" "/api/v1/enterprise/audit-log", "team:metrics:view");
    (mkRouteKey "GET" "/api/v1/inference-audit", "team:metrics:view");
    (mkRouteKey "GET" "/api/v1/approvals", "team:approvals:view");
    (mkRouteKey "POST" "/api/v1/approvals/{deploymentId}/approve", "team:approvals:review");
    (mkRouteKey "POST" "/api/v1/approvals/{deploymentId}/reject", "team:approvals:review");
    (mkRouteKey "GET" "/api/v1/policies", "team:metrics:view");
    (mkRouteKey "PUT" "/api/v1/policies/{name}", "org:roles:create");
    (mkRouteKey "DELETE" "/api/v1/policies/{name}", "org:roles:delete");
    (mkRouteKey "POST" "/api/v1/config/apply", "team:models:deploy");
    (mkRouteKey "POST" "/api/v1/config/diff", "team:metrics:view");
    (mkRouteKey "POST" "/api/v1/platform/orgs", "platform:orgs:create");
    (mkRouteKey "DELETE" "/api/v1/platform/orgs/{id}", "platform:orgs:delete");
    (mkRouteKey "POST" "/api/v1/platform/pools", "platform:pools:manage")
  ].

Definition isParam (pat : string) : bool := HasPrefix pat "{" && HasSuffix pat "}".

Fixpoint matchSegments (pats urls : list string) : bool :=
  match pats, urls with
  | [], _ => true
  | pat :: pats, url :: urls =>
      if isParam pat then matchSegments pats urls
      else if negb (pat =? url) then false else matchSegments pats urls
  | _ :: _, [] => false
  end.

Definition segments (s : string) : list string := Split (Trim s "/") "/".

Definition matchPattern (pattern urlPath : string) : bool :=
  let patParts := segments pattern in
  let urlParts := segments urlPath in
  if negb (Nat.eqb (length patParts) (length urlParts)) then false else matchSegments patParts urlParts.

(** A lookup in the map. *)
Fixpoint routeLookup (k : routeKey) (routes : list (routeKey * string)) : option string :=
  match routes with
  | [] => None
  | (rk, perm) :: routes => if decide (rk = k) then Some perm else routeLookup k routes
  end.

(** One turn of the scan for the longest matching pattern. *)
Definition scanStep (method urlPath : string) (st : nat * string) (e : routeKey * string) : nat * string :=
  let '(bestLen, bestPerm) := st in
  let '(rk, perm) := e in
  if negb (rk_method rk =? method) then (bestLen, bestPerm)
  else if matchPattern (rk_path rk) urlPath
  then if Nat.ltb bestLen (String.length (rk_path rk)) then (String.length (rk_path rk), perm) else (bestLen, bestPerm)
  else (bestLen, bestPerm).

(** [scan] is the table in the order in which the range over the map visits it. *)
Definition matchRoutePermission (scan : list (routeKey * string)) (method urlPath : string) : string :=
  match routeLookup (mkRouteKey method urlPath) scan with
  | Some perm => perm
  | None => snd (fold_left (scanStep method urlPath) scan (0%nat, ""))
  end.

(** ** Reads of the registry *)

Section Reads.
Context (m : Moment) (db : AuthTables).

(** A row or the error: a fault of the database, or [ErrNotFound]. *)
Definition fetch {A} (q : Query) (what : string) (row : option A) : Error + A :=
  match m_fault m q with
  | Some e => inl (Wrap what e)
  | None => match row with Some a => inr a | None => inl ErrNotFound end
  end.

(** [expires_at IS NULL OR expires_at > ?] compares text. *)
Definition keyLive (k : APIKey) : bool :=
  K_Enabled k && match K_ExpiresAt k with None => true | Some exp => String.ltb (m_keyText m) exp end.

Definition GetAPIKeyByHash (keyHash : string) : Error + APIKey :=
  fetch QKey "registry: get api_key by hash"
    (match t_keys db !! keyHash with Some k => if keyLive k then Some k else None | None => None end).

(** The count and the error of the scan. *)
Definition HasAnyAPIKey : bool * option Error :=
  match m_fault m QHasKey with
  | Some e => (false, Some e)
  | None => (existsb (fun kv => K_Enabled (snd kv)) (map_to_list (t_keys db)), None)
  end.

Definition GetOIDCSession (tokenHash : string) : Error + OIDCSession :=
  fetch QSession "registry: get oidc session"
    (match t_sessions db !! tokenHash with
     | Some s => if negb (OS_Revoked s) && String.ltb (m_sessionText m) (OS_ExpiresAt s) then Some s else None
     | None => None
     end).

Definition GetTeam (id : string) : Error + Team :=
  fetch QTeam ("registry: get team " +:+ id) (pt_teams (t_platform db) !! id).

Definition GetOrgMember (orgID userID : string) : Error + OrgMember :=
  fetch QOrgMember ("registry: get org member " +:+ orgID) (pt_orgMembers (t_platform db) !! (orgID, userID)).

Definition GetTeamMember (teamID userID : string) : Error + TeamMember :=
  fetch QTeamMember ("registry: get team member " +:+ teamID) (pt_teamMembers (t_platform db) !! (teamID, userID)).

(** [WHERE org_id IS NULL AND id = ?] for the empty organisation, else
    [WHERE org_id = ? AND id = ?]; [q] is the place of the call. *)
Definition GetCustomRole (q : Query) (orgID roleID : string) : Error + CustomRole :=
  fetch q ("registry: get custom role " +:+ roleID)
    (match pt_roles (t_platform db) !! roleID with
     | Some r => if ROrgID r =? orgID then Some r else None
     | None => None
     end).

Record EffectivePermissions : Type := mkEffective {
  EP_TeamID : string; EP_OrgID : string; EP_UserSub : string; EP_RoleID : string; EP_RoleName : string;
  EP_Permissions : list string; EP_IsOrgAdmin : bool }.

(** The role of the team member: the organisation's own, or else a built-in one. *)
Definition teamRole (orgID roleID : string) : Error + CustomRole :=
  match GetCustomRole QTeamRole orgID roleID with
  | inl e => if isNotFound e then GetCustomRole QBuiltinRole "" roleID else inl e
  | inr r => inr r
  end.

Definition GetEffectivePermissions (userID teamID : string) : Error + EffectivePermissions :=
  match GetTeam teamID with
  | inl e => inl (Wrap "registry: get effective permissions" e)
  | inr team =>
      let orgID := TOrgID team in
      let isOrgAdmin :=
        match GetOrgMember orgID userID with inr om => OMRole om =? "org_admin" | inl _ => false end in
      let permSet : gset string :=
        if isOrgAdmin then
          match GetCustomRole QOrgAdminRole "" "org_admin" with
          | inr r => list_to_set (RPermissions r)
          | inl _ => ∅
          end
        else ∅ in
      let '(roleID, roleName, permSet) :=
        match GetTeamMember teamID userID with
        | inr tm =>
            if TMRoleID tm =? "" then ("", "", permSet)
            else match teamRole orgID (TMRoleID tm) with
                 | inr r => (TMRoleID tm, RName r, permSet ∪ list_to_set (RPermissions r))
                 | inl _ => ("", "", permSet)
                 end
        | inl _ => ("", "", permSet)
        end in
      inr (mkEffective teamID orgID userID roleID roleName (go_sort String.ltb (elements permSet)) isOrgAdmin)
  end.
End Reads.

(** ** Tokens ([auth.go], [service_accounts.go]) *)

Fixpoint cutFirst (c : ascii) (s : string) : option (string * string) :=
  match s with
  | EmptyString => None
  | String a s =>
      if Ascii.eqb a c then Some ("", s)
      else match cutFirst c s with Some (x, y) => Some (String a x, y) | None => None end
  end.

Fixpoint cutLast (c : ascii) (s : string) : option (string * string) :=
  match s with
  | EmptyString => None
  | String a s =>
      match cutLast c s with
      | Some (x, y) => Some (String a x, y)
      | None => if Ascii.eqb a c then Some ("", s) else None
      end
  end.

Definition sessionTTL : Z := 8 * 3600.

Section Middleware.
Context `{C : Crypto}.

Definition signSession (secret : string) (unix : Z) (sub email : string) : string :=
  let encoded := b64encode (encodeSession (mkSessionClaims sub email (unix + sessionTTL))) in
  encoded +:+ "." +:+ b64encode (hmacSHA256 secret encoded).

(** The claims, or [None] for any of its errors. *)
Definition verifySession (secret : string) (unix : Z) (token : string) : option (string * string) :=
  match cutLast "." token with
  | None => None
  | Some (encoded, sig) =>
      if negb (sig =? b64encode (hmacSHA256 secret encoded)) then None
      else match b64decode encoded with
           | None => None
           | Some payload =>
               match decodeSession payload with
               | None => None
               | Some claims => if (SC_Exp claims <? unix)%Z then None else Some (SC_Sub claims, SC_Email claims)
               end
           end
  end.

Definition parseServiceAccountToken (secret : string) (unix : Z) (token : string) : option saTokenClaims :=
  if (secret =? "") || (token =? "") then None
  else match cutFirst "." token with
       | None => None
       | Some (payloadEnc, sigEnc) =>
           if (payloadEnc =? "") || (sigEnc =? "") then None
           else match cutFirst "." sigEnc with
                | Some _ => None
                | None =>
                    match b64decode payloadEnc, b64decode sigEnc with
                    | Some payload, Some sig =>
                        if negb (sig =? hmacSHA256 secret payload) then None
                        else match decodeSA payload with
                             | None => None
                             | Some claims =>
                                 if negb (SA_Type claims =? "service_account") then None
                                 else if (SA_Exp claims <? unix)%Z then None else Some claims
                             end
                    | _, _ => None
                    end
                end
       end.

(** ** Headers *)

Definition validateInternalToken (s : Server) (provided : string) : bool :=
  if s_internalToken s =? "" then false else provided =? s_internalToken s.

Definition bearerToken (r : Request) : string := default "" (CutPrefix (Authorization r) "Bearer ").

(** The UTF-8 encodings of the code points of [unicode.IsSpace]. *)
Definition spaces : list string :=
  map (fun l => String.string_of_list_ascii (map Ascii.ascii_of_nat l))
    (app [[9]; [10]; [11]; [12]; [13]; [32]; [194; 133]; [194; 160]; [225; 154; 128];
      [226; 128; 168]; [226; 128; 169]; [226; 128; 175]; [226; 129; 159]; [227; 128; 128]]
      (map (fun k => [226; 128; 128 + k]) (seq 0 11)))%nat.

(** [strings.TrimSpace(s) == ""]; every space has at least one byte. *)
Fixpoint blankN (fuel : nat) (s : string) : bool :=
  match fuel with
  | O => s =? ""
  | S fuel => (s =? "") || existsb (fun sp => match CutPrefix s sp with Some r => blankN fuel r | None => false end) spaces
  end.
Definition blank (s : string) : bool := blankN (String.length s) s.

(** [strings.Contains]. *)
Fixpoint Contains (s sub : string) : bool :=
  HasPrefix s sub || match s with EmptyString => false | String _ s => Contains s sub end.

(** ** OIDC ([server.go]) *)

Definition rolePriority (role : string) : Z :=
  if role =? "admin" then 3 else if role =? "inference" then 2 else if role =? "viewer" then 1 else 0.

Definition resolveGroupRole (s : Server) (groups : list string) : string :=
  fst (fold_left (fun '(best, bestPri) g =>
         match s_oidcGroupMappings s !! g with
         | Some role => if (bestPri <? rolePriority role)%Z then (role, rolePriority role) else (best, bestPri)
         | None => (best, bestPri)
         end) groups ("", 0%Z)).

Definition unauthorized : Verdict := Refuse 401 "valid OIDC token required".

(** Step 4: the bearer token is an ID token; [ctx] is the context so far. *)
Definition verifyBearer (s : Server) (v : TokenVerifier) (rawToken : string) (ctx : ReqContext) : Verdict :=
  match VerifyClaims v with
  | Some verifyClaims =>
      match verifyClaims rawToken with
      | None => unauthorized
      | Some claims =>
          let oidcRole :=
            if decide (s_oidcGroupMappings s = ∅) then ""
            else resolveGroupRole s (TC_Groups claims ++ TC_Roles claims)%list in
          Next (mkReqContext (Some (TC_Sub claims)) (Some (TC_Email claims))
                  (if oidcRole =? "" then ctxKeyOIDCRole ctx else Some oidcRole)
                  (if TC_Tenant claims =? "" then ctxKeyOIDCTenant ctx else Some (TC_Tenant claims))
                  (ctxKeyAPIKey ctx))
      end
  | None =>
      match VerifyToken v rawToken with
      | None => unauthorized
      | Some (sub, email) =>
          Next (mkReqContext (Some sub) (Some email) (ctxKeyOIDCRole ctx) (ctxKeyOIDCTenant ctx) (ctxKeyAPIKey ctx))
      end
  end.

(** Step 5: the session cookie, checked against the session store. *)
Definition sessionUser (s : Server) (m : Moment) (r : Request) : option (string * string) :=
  if s_sessionSecret s =? "" then None
  else match SessionCookie r with
       | None => None
       | Some cookie =>
           match verifySession (s_sessionSecret s) (m_sessionUnix m) cookie with
           | None => None
           | Some (sub, email) =>
               match s_reg s with
               | None => Some (sub, email)
               | Some db =>
                   match GetOIDCSession m db (sha256HexOf cookie) with
                   | inl _ => None
                   | inr _ => Some (sub, email)
                   end
               end
           end
       end.

(** Steps 5 and 6: a session, or a redirect of browsers to the login, or 401. *)
Definition sessionOrRefuse (s : Server) (m : Moment) (r : Request) (ctx : ReqContext) : Verdict :=
  match sessionUser s m r with
  | Some (sub, email) =>
      Next (mkReqContext (Some sub) (Some email) (ctxKeyOIDCRole ctx) (ctxKeyOIDCTenant ctx) (ctxKeyAPIKey ctx))
  | None =>
      if Contains (Accept r) "text/html"
         && match s_oidcRedirectURI s with Some uri => negb (uri =? "") | None => false end
      then Redirect "/auth/login" else unauthorized
  end.

Definition loginPaths : list string :=
  ["/auth/login"; "/auth/callback"; "/auth/logout"; "/auth/backchannel-logout"; "/auth/ldap-login"].

Definition oidcMiddleware (s : Server) (m : Moment) (r : Request) (ctx : ReqContext) : Verdict :=
  match s_oidcVerifier s with
  | None => Next ctx
  | Some v =>
      if decide (Path r ∈ loginPaths) then Next ctx
      else if validateInternalToken s (InternalToken r) then Next ctx
      else match CutPrefix (Authorization r) "Bearer " with
           | Some rawToken =>
               if negb (blank rawToken) then verifyBearer s v rawToken ctx else sessionOrRefuse s m r ctx
           | None => sessionOrRefuse s m r ctx
           end
  end.

(** ** The rate limit ([server.go]) *)

Definition rbacPublicPaths : list string :=
  ["/api/v1/cluster/health"; "/api/v1/cluster/status"; "/api/v1/openapi.json"; "/api/v1/platform/health";
   "/auth/token"; "/auth/ldap-login"].

Definition publicGet (r : Request) : bool :=
  (Method r =? MethodGet) && bool_decide (Path r ∈ rbacPublicPaths).

Definition rateLimitExempt (r : Request) : bool := publicGet r.

Definition rateLimitMiddleware (s : Server) (m : Moment) (r : Request) (ctx : ReqContext) : Verdict :=
  if rateLimitExempt r then Next ctx
  else if s_limitIP s && negb (m_allowIP m) then Refuse 429 "too many requests; slow down and retry"
  else
    let tok := bearerToken r in
    if s_limitKey s && negb (tok =? "") && ((s_internalToken s =? "") || negb (tok =? s_internalToken s))
       && negb (m_allowKey m)
    then Refuse 429 "API key rate limit exceeded; slow down and retry"
    else Next ctx.

(** ** Permissions of a request ([rbac_v2.go]) *)

Definition resolvePermissions (s : Server) (m : Moment) (ctx : ReqContext) : Context_ :=
  match ctxKeyAPIKey ctx with
  | None =>
      let oidcRole := default "" (ctxKeyOIDCRole ctx) in
      FromLegacyRole "oidc" (if oidcRole =? "" then "viewer" else oidcRole)
  | Some key =>
      let fallback := FromLegacyRole (K_ID key) (K_Role key) in
      match s_reg s with
      | Some db =>
          if K_Tenant key =? "" then fallback
          else match GetEffectivePermissions m db (K_ID key) (K_Tenant key) with
               | inr ep =>
                   match EP_Permissions ep with
                   | [] => fallback
                   | _ => mkContext (K_ID key) "" (K_Tenant key) (EP_OrgID ep) (EP_Permissions ep)
                            (EP_IsOrgAdmin ep) (K_Role key =? "admin") ""
                   end
               | inl _ => fallback
               end
      | None => fallback
      end
  end.

Definition checkPermission (s : Server) (m : Moment) (ctx : ReqContext) (required : string) : bool :=
  let c := resolvePermissions s m ctx in
  if Ctx_IsPlatformAdmin c then true else Has (Ctx_Permissions c) required.

(** ** RBAC ([server.go]) *)

Definition managementPath (r : Request) : bool := HasPrefix (Path r) "/api/v1/".

Definition readOnly (message : string) (r : Request) (ctx : ReqContext) : Verdict :=
  if negb (Method r =? MethodGet) then Refuse 403 message else Next ctx.

Definition noManagement (message : string) (r : Request) (ctx : ReqContext) : Verdict :=
  if managementPath r then Refuse 403 message else Next ctx.

(** The switch on a role that OIDC assigned. *)
Definition oidcRoleGate (role : string) (r : Request) (ctx : ReqContext) : Verdict :=
  if role =? "admin" then Next ctx
  else if role =? "viewer" then readOnly "OIDC-assigned viewer role allows read-only access" r ctx
  else if role =? "inference" then noManagement "OIDC-assigned inference role cannot manage the cluster" r ctx
  else readOnly "OIDC-assigned viewer role allows read-only access" r ctx.

(** The switch on the role of a service account. *)
Definition saRoleGate (role : string) (r : Request) (ctx : ReqContext) : Verdict :=
  if role =? "admin" then Next ctx
  else if role =? "viewer" then readOnly "service account viewer role allows read-only access" r ctx
  else noManagement "service account inference role cannot manage the cluster" r ctx.

(** The switch on the role of an API key. *)
Definition keyRoleGate (role : string) (r : Request) (ctx : ReqContext) : Verdict :=
  if role =? "admin" then Next ctx
  else if role =? "viewer" then readOnly "this API key has viewer role (read-only)" r ctx
  else if role =? "inference" then noManagement "this API key has inference role and cannot manage the cluster" r ctx
  else readOnly "this API key has viewer role (read-only)" r ctx.

(** Step 3: no bearer token. The second component is [hasAnyAPIKeyCache] after the
    request. *)
Definition anonymous (s : Server) (m : Moment) (r : Request) (ctx : ReqContext) : Verdict * bool :=
  let cache := s_hasAnyAPIKeyCache s in
  if negb (managementPath r) then (Next ctx, cache)
  else if validateInternalToken s (InternalToken r) then (Next ctx, cache)
  else match s_oidcVerifier s with
       | Some _ => (Refuse 401 "authentication required: provide a valid API key or OIDC token", cache)
       | None =>
           if cache then (Refuse 401 "authentication required", cache)
           else match s_reg s with
                | Some db =>
                    match HasAnyAPIKey m db with
                    | (true, None) => (Refuse 401 "authentication required", true)
                    | _ => (Next ctx, cache)
                    end
                | None => (Next ctx, cache)
                end
       end.

Definition withKey (ctx : ReqContext) (k : APIKey) : ReqContext :=
  mkReqContext (ctxKeyOIDCSub ctx) (ctxKeyOIDCEmail ctx) (ctxKeyOIDCRole ctx) (ctxKeyOIDCTenant ctx) (Some k).

(** Step 4 and on: the bearer token as an API key. *)
Definition keyGate (scan : list (routeKey * string)) (s : Server) (m : Moment) (r : Request) (ctx : ReqContext)
    (token : string) : Verdict :=
  match s_reg s with
  | None => Next ctx
  | Some db =>
      match GetAPIKeyByHash m db (sha256HexOf token) with
      | inl _ => Next ctx
      | inr matched =>
          let ctx := withKey ctx matched in
          let required := matchRoutePermission scan (Method r) (Path r) in
          if negb (required =? "")
          then if negb (checkPermission s m ctx required) then Refuse 403 "insufficient permissions" else Next ctx
          else keyRoleGate (K_Role matched) r ctx
      end
  end.

Definition rbacMiddleware (scan : list (routeKey * string)) (s : Server) (m : Moment) (r : Request)
    (ctx : ReqContext) : Verdict * bool :=
  let cache := s_hasAnyAPIKeyCache s in
  if publicGet r then (Next ctx, cache)
  else
    let token := bearerToken r in
    if validateInternalToken s token then (Next ctx, cache)
    else
      let oidcRole := default "" (ctxKeyOIDCRole ctx) in
      if negb (oidcRole =? "") then (oidcRoleGate oidcRole r ctx, cache)
      else match parseServiceAccountToken (s_sessionSecret s) (m_saUnix m) token with
           | Some claims => (saRoleGate (SA_Role claims) r ctx, cache)
           | None =>
               if token =? "" then anonymous s m r ctx
               else (keyGate scan s m r ctx token, cache)
           end.

(** An [OPTIONS] request ends here with 204, whatever its origin; what else the
    middleware does is to set response headers. *)
Definition isOptions (r : Request) : bool := (Method r =? MethodOptions)%string.

Definition corsMiddleware (r : Request) (next : Verdict * bool) (cache : bool) : Verdict * bool :=
  if isOptions r then (NoContent, cache) else next.

(** Behind it: OIDC, then the rate limit, then RBAC, then the mux. *)
Definition authChain (scan : list (routeKey * string)) (s : Server) (m : Moment) (r : Request) : Verdict * bool :=
  match oidcMiddleware s m r Background with
  | Next ctx =>
      match rateLimitMiddleware s m r ctx with
      | Next ctx => rbacMiddleware scan s m r ctx
      | v => (v, s_hasAnyAPIKeyCache s)
      end
  | v => (v, s_hasAnyAPIKeyCache s)
  end.

(** The chain of [New]; [GET /metrics] is served outside it. *)
Definition serve (scan : list (routeKey * string)) (s : Server) (m : Moment) (r : Request) : Verdict * bool :=
  corsMiddleware r (authChain scan s m r) (s_hasAnyAPIKeyCache s).
End Middleware.

(** ** The route table is unambiguous *)

(** Two lists of segments that some path matches both. *)
Fixpoint overlapSegments (p q : list string) : bool :=
  match p, q with
  | [], [] => true
  | a :: p, b :: q => (isParam a || isParam b || (a =? b)) && overlapSegments p q
  | _, _ => false
  end.

Definition overlap (p q : string) : bool := overlapSegments (segments p) (segments q).

Lemma cutFirst_app c x y : cutFirst c x = None -> cutFirst c (x +:+ String c y) = Some (x, y).
Proof.
  induction x as [|a x IH]; intros H.
  - change (cutFirst c (String c y) = Some (""%string, y)). cbn. by rewrite Ascii.eqb_refl.
  - change (cutFirst c (String a (x +:+ String c y)) = Some (String a x, y)). cbn in H |- *.
    destruct (Ascii.eqb a c); [done|]. destruct (cutFirst c x) as [[]|]; [done|]. by rewrite IH.
Qed.

Lemma matchSegments_overlap u : forall p q, length p = length u -> length q = length u ->
  matchSegments p u = true -> matchSegments q u = true -> overlapSegments p q = true.
Proof.
  induction u as [|x u IH]; intros [|a p] [|b q] Hp Hq H1 H2; try done. cbn in *.
  apply andb_true_iff. destruct (isParam a) eqn:Ea, (isParam b) eqn:Eb; cbn.
  - split; [done|]. apply IH; auto.
  - split; [done|]. destruct (b =? x); [|done]. apply IH; auto.
  - split; [done|]. destruct (a =? x); [|done]. apply IH; auto.
  - destruct (String.eqb_spec a x) as [->|]; [|done]. destruct (String.eqb_spec b x) as [->|]; [|done].
    split; [apply String.eqb_refl|]. apply IH; auto.
Qed.

Lemma matchPattern_overlap p q u : matchPattern p u = true -> matchPattern q u = true -> overlap p q = true.
Proof.
  unfold matchPattern. destruct (Nat.eqb_spec (length (segments p)) (length (segments u))) as [Hp|]; [|done].
  destruct (Nat.eqb_spec (length (segments q)) (length (segments u))) as [Hq|]; [|done]. cbn.
  by apply matchSegments_overlap.
Qed.

Lemma matchPattern_refl p : matchPattern p p = true.
Proof.
  unfold matchPattern. rewrite Nat.eqb_refl. cbn. induction (segments p) as [|a l IH]; [done|]. cbn.
  rewrite String.eqb_refl. cbn. by destruct (isParam a).
Qed.

(** Entry [e] serves the request. *)
Definition routeMatches (method urlPath : string) (e : routeKey * string) : bool :=
  (rk_method (fst e) =? method) && matchPattern (rk_path (fst e)) urlPath.

Lemma routes_unique method url e e' : e ∈ routePermission -> e' ∈ routePermission ->
  routeMatches method url e = true -> routeMatches method url e' = true -> e = e'.
Proof.
  assert (H : forallb (fun e => forallb (fun e' =>
            negb ((rk_method (fst e) =? rk_method (fst e')) && overlap (rk_path (fst e)) (rk_path (fst e')))
            || bool_decide (e = e')) routePermission) routePermission = true) by (vm_compute; reflexivity).
  intros H1%list_elem_of_In H2%list_elem_of_In M1 M2. rewrite forallb_forall in H. specialize (H _ H1).
  rewrite forallb_forall in H. specialize (H _ H2). unfold routeMatches in *.
  apply andb_true_iff in M1 as [E1%String.eqb_eq M1], M2 as [E2%String.eqb_eq M2].
  rewrite E1, E2, String.eqb_refl, (matchPattern_overlap _ _ url M1 M2) in H. cbn in H. by apply bool_decide_eq_true in H.
Qed.

Lemma routes_proper e : e ∈ routePermission -> snd e ≠ "" /\ (0 < String.length (rk_path (fst e)))%nat.
Proof.
  assert (H : forallb (fun e => negb (snd e =? "") && Nat.ltb 0 (String.length (rk_path (fst e)))) routePermission = true)
    by (vm_compute; reflexivity).
  intros He%list_elem_of_In. rewrite forallb_forall in H. apply H, andb_true_iff in He as [H1 H2].
  apply negb_true_iff, String.eqb_neq in H1. apply Nat.ltb_lt in H2. done.
Qed.

Lemma scanStep_eq method url st e : scanStep method url st e =
  if routeMatches method url e && Nat.ltb (fst st) (String.length (rk_path (fst e)))
  then (String.length (rk_path (fst e)), snd e) else st.
Proof.
  destruct st as [n p], e as [rk perm]. unfold scanStep, routeMatches. cbn [fst snd].
  destruct (rk_method rk =? method); cbn; [|done]. destruct (matchPattern _ _); cbn [andb]; [|done]. by case_match.
Qed.

Lemma scan_none method url scan : forallb (fun e => negb (routeMatches method url e)) scan = true ->
  forall st, fold_left (scanStep method url) scan st = st.
Proof.
  induction scan as [|e scan IH]; intros H st; [done|]. cbn in *. apply andb_true_iff in H as [H1 H2].
  rewrite scanStep_eq. apply negb_true_iff in H1. rewrite H1. cbn. by apply IH.
Qed.

Lemma scan_some method url e scan : (forall e', e' ∈ scan -> routeMatches method url e' = true -> e' = e) ->
  (0 < String.length (rk_path (fst e)))%nat -> routeMatches method url e = true ->
  forall st, st = (String.length (rk_path (fst e)), snd e) \/ st = (0%nat, "") /\ e ∈ scan ->
  fold_left (scanStep method url) scan st = (String.length (rk_path (fst e)), snd e).
Proof.
  intros Hu Hl He. induction scan as [|e' scan IH]; intros st Hst.
  - destruct Hst as [->|[_ H]]; [done|by apply elem_of_nil in H].
  - cbn [fold_left]. apply IH; [intros e'' Hin; apply Hu; by right|]. rewrite scanStep_eq.
    destruct (routeMatches method url e') eqn:Em.
    + rewrite (Hu e' ltac:(by left) Em). left. destruct Hst as [->|[-> _]]; cbn [fst snd andb].
      * by rewrite Nat.ltb_irrefl; cbn.
      * by rewrite (proj2 (Nat.ltb_lt _ _) Hl).
    + cbn. destruct Hst as [->|[-> Hin]]; [by left|right]. split; [done|].
      apply elem_of_cons in Hin as [->|Hin]; [congruence|done].
Qed.

Lemma routeLookup_elem k perm scan : routeLookup k scan = Some perm -> (k, perm) ∈ scan.
Proof.
  induction scan as [|[rk p] scan IH]; [done|]. cbn. case_decide as E; [|by right; apply IH].
  intros [= ->]. subst. by left.
Qed.

Lemma matchRoute_cases scan method url : scan ≡ₚ routePermission ->
  (exists path, (mkRouteKey method path, matchRoutePermission scan method url) ∈ routePermission /\
     matchPattern path url = true) \/
  (matchRoutePermission scan method url = "" /\
   forall path perm, (mkRouteKey method path, perm) ∈ routePermission -> matchPattern path url = false).
Proof.
  intros Hp. unfold matchRoutePermission. destruct (routeLookup _ scan) as [perm|] eqn:El.
  { apply routeLookup_elem in El. rewrite Hp in El. left. exists url. split; [done|apply matchPattern_refl]. }
  destruct (forallb (fun e => negb (routeMatches method url e)) scan) eqn:Ef.
  - right. rewrite scan_none by done. split; [done|]. intros path perm Hin. rewrite <- Hp in Hin.
    apply list_elem_of_In in Hin. rewrite forallb_forall in Ef. apply Ef in Hin. unfold routeMatches in Hin. cbn in Hin.
    rewrite String.eqb_refl in Hin. by apply negb_true_iff in Hin.
  - left. apply not_true_iff_false in Ef.
    assert (He : exists e, e ∈ routePermission /\ routeMatches method url e = true).
    { destruct (existsb (routeMatches method url) scan) eqn:Ee.
      - apply existsb_exists in Ee as (e & He & Hm). exists e. rewrite <- Hp. by apply list_elem_of_In in He.
      - exfalso. apply Ef, forallb_forall. intros e He. apply negb_true_iff, not_true_iff_false. intros Hm.
        apply not_true_iff_false in Ee. apply Ee, existsb_exists. by exists e. }
    destruct He as (e & Hin & Hm). rewrite (scan_some method url e); [|..|by apply routes_proper|done|].
    + exists (rk_path (fst e)). cbn. unfold routeMatches in Hm. apply andb_true_iff in Hm as [<-%String.eqb_eq Hm].
      split; [|done]. by destruct e as [[] ?].
    + intros e' He' Hm'. rewrite Hp in He'. by eapply routes_unique.
    + right. by rewrite Hp.
Qed.

(** The route table decides: a request needs exactly the permission of the one
    entry whose method and pattern it matches, and none when no entry matches. No
    two entries match the same request, so that the answer does not depend on the
    order in which Go visits the map. *)
Theorem matchRoutePermission_spec scan method url : scan ≡ₚ routePermission ->
  (forall path perm, (mkRouteKey method path, perm) ∈ routePermission -> matchPattern path url = true ->
     matchRoutePermission scan method url = perm) /\
  ((forall path perm, (mkRouteKey method path, perm) ∈ routePermission -> matchPattern path url = false) ->
     matchRoutePermission scan method url = "").
Proof.
  intros Hp. destruct (matchRoute_cases scan method url Hp) as [(path & Hin & Hm)|[H1 H2]].
  - split.
    + intros path' perm Hin' Hm'.
      assert (H : (mkRouteKey method path, matchRoutePermission scan method url) = (mkRouteKey method path', perm)).
      { apply (routes_unique method url); [done|done|..]; unfold routeMatches; cbn; by rewrite String.eqb_refl. }
      by injection H.
    + intros H. rewrite (H _ _ Hin) in Hm. done.
  - split; [|done]. intros path perm Hin Hm. rewrite (H2 _ _ Hin) in Hm. done.
Qed.

Lemma matchRoutePermission_spec_witness :
  matchRoutePermission (reverse routePermission) "POST" "/api/v1/nodes/n1/drain" = "team:models:deploy".
Proof.
  apply (matchRoutePermission_spec (reverse routePermission) "POST" "/api/v1/nodes/n1/drain"
           ltac:(apply reverse_Permutation)) with (path := "/api/v1/nodes/{id}/drain"); [|reflexivity].
  apply list_elem_of_In. vm_compute. tauto.
Defined.

(** ** What each credential opens *)

Section Verdicts.
Context `{C : Crypto} (scan : list (routeKey * string)) (Hscan : scan ≡ₚ routePermission).

(** The request reaches the lookup of its bearer token, which is the live key [k]. *)
Record presentsKey (s : Server) (m : Moment) (r : Request) (ctx : ReqContext) (k : APIKey) : Prop := {
  pk_private : publicGet r = false;
  pk_external : validateInternalToken s (bearerToken r) = false;
  pk_noRole : ctxKeyOIDCRole ctx = None;
  pk_notSA : parseServiceAccountToken (s_sessionSecret s) (m_saUnix m) (bearerToken r) = None;
  pk_token : bearerToken r ≠ "";
  pk_found : exists db, s_reg s = Some db /\ GetAPIKeyByHash m db (sha256HexOf (bearerToken r)) = inr k }.

Definition keyVerdict (s : Server) (m : Moment) (r : Request) (ctx : ReqContext) (k : APIKey) : Verdict :=
  let required := matchRoutePermission scan (Method r) (Path r) in
  if negb (required =? "")
  then if negb (checkPermission s m (withKey ctx k) required) then Refuse 403 "insufficient permissions"
       else Next (withKey ctx k)
  else keyRoleGate (K_Role k) r (withKey ctx k).

Lemma rbac_key s m r ctx k : presentsKey s m r ctx k ->
  rbacMiddleware scan s m r ctx = (keyVerdict s m r ctx k, s_hasAnyAPIKeyCache s).
Proof.
  intros [H1 H2 H3 H4 H5 (db & H6 & H7)]. unfold rbacMiddleware. cbv zeta. rewrite H1, H2, H3, H4. cbn [default negb].
  apply String.eqb_neq in H5. rewrite H5. unfold keyGate. by rewrite H6, H7.
Qed.

Lemma required_route r : matchRoutePermission scan (Method r) (Path r) ≠ "" ->
  exists path, (mkRouteKey (Method r) path, matchRoutePermission scan (Method r) (Path r)) ∈ routePermission /\
    matchPattern path (Path r) = true.
Proof. intros H. destruct (matchRoute_cases scan (Method r) (Path r) Hscan) as [?|[? _]]; [done|by destruct H]. Qed.

(** A key without a team has the permissions of its role. *)
Lemma check_teamless s m ctx k required : K_Tenant k = "" ->
  checkPermission s m (withKey ctx k) required = (K_Role k =? "admin") || Has (legacyRolePerms (K_Role k)) required.
Proof.
  intros H. unfold checkPermission, resolvePermissions. cbn [withKey ctxKeyAPIKey]. rewrite H.
  cbn [String.eqb]. destruct (s_reg s); cbn [FromLegacyRole Ctx_IsPlatformAdmin Ctx_Permissions];
    by destruct (K_Role k =? "admin").
Qed.

(** The entries of the table whose permission satisfies [P] satisfy [Q]. *)
Lemma routes_check (P Q : routeKey -> string -> bool) rk perm : (rk, perm) ∈ routePermission ->
  forallb (fun '(rk, perm) => negb (P rk perm) || Q rk perm) routePermission = true -> P rk perm = true -> Q rk perm = true.
Proof.
  intros Hin%list_elem_of_In H HP. rewrite forallb_forall in H. apply H in Hin. by rewrite HP in Hin.
Qed.

(** What the role of an API key without a team opens: [admin] everything;
    [inference] nothing under [/api/v1/]; every other role, unknown ones included,
    only reads, apart from the preview [POST /api/v1/config/diff]. *)
Theorem key_roles s m r ctx k : presentsKey s m r ctx k -> K_Tenant k = "" ->
  (K_Role k = "admin" -> fst (rbacMiddleware scan s m r ctx) = Next (withKey ctx k)) /\
  (K_Role k = "inference" -> managementPath r = true -> exists msg, fst (rbacMiddleware scan s m r ctx) = Refuse 403 msg) /\
  (K_Role k ≠ "admin" -> K_Role k ≠ "inference" ->
   fst (rbacMiddleware scan s m r ctx) = Next (withKey ctx k) ->
   Method r = "GET" \/ Method r = "POST" /\ matchPattern "/api/v1/config/diff" (Path r) = true).
Proof.
  intros Hk Ht. rewrite (rbac_key s m r ctx k Hk). cbn [fst]. unfold keyVerdict. cbv zeta.
  set (req := matchRoutePermission scan (Method r) (Path r)). rewrite (check_teamless s m ctx k req Ht). split_and!.
  - intros ->. by destruct (req =? "").
  - intros -> Hm. destruct (String.eqb_spec req "") as [_|Hr]; cbn [negb].
    + unfold keyRoleGate, noManagement. rewrite Hm. cbn. eauto.
    + apply required_route in Hr as (path & Hin & _).
      assert (Hf : negb (Has (legacyRolePerms "inference") req) = true).
      { apply (routes_check (fun _ _ => true) (fun _ p => negb (Has (legacyRolePerms "inference") p)) _ _ Hin);
          vm_compute; reflexivity. }
      apply negb_true_iff in Hf. rewrite Hf. cbn. eauto.
  - intros H1%String.eqb_neq H2%String.eqb_neq. rewrite H1. destruct (String.eqb_spec req "") as [_|Hr]; cbn [negb].
    + unfold keyRoleGate, readOnly. rewrite H1, H2.
      destruct (String.eqb_spec (Method r) MethodGet); [by left|]. by destruct (K_Role k =? "viewer").
    + apply required_route in Hr as (path & Hin & Hm). cbn [orb].
      destruct (Has (legacyRolePerms (K_Role k)) req) eqn:Hh; [|done]. intros _.
      assert (Hv : Has (legacyRolePerms "viewer") req = true).
      { destruct (String.eqb_spec (K_Role k) "viewer") as [<-|Hv]; [done|]. unfold legacyRolePerms in Hh.
        apply String.eqb_neq in Hv. by rewrite H1, Hv, H2 in Hh. }
      assert (Hq : (Method r =? "GET") || (Method r =? "POST") && (path =? "/api/v1/config/diff") = true).
      { apply (routes_check (fun _ p => Has (legacyRolePerms "viewer") p)
                 (fun rk _ => (rk_method rk =? "GET") || (rk_method rk =? "POST") && (rk_path rk =? "/api/v1/config/diff"))
                 _ _ Hin); [vm_compute; reflexivity|exact Hv]. }
      apply orb_true_iff in Hq as [Hq%String.eqb_eq|Hq]; [by left|].
      apply andb_true_iff in Hq as [Hq%String.eqb_eq Hp%String.eqb_eq]. subst path. by right.
Qed.

(** The limiters let the request through. *)
Definition unlimited (s : Server) (m : Moment) : Prop :=
  (s_limitIP s = true -> m_allowIP m = true) /\ (s_limitKey s = true -> m_allowKey m = true).

Lemma rateLimit_pass s m r ctx : unlimited s m -> rateLimitMiddleware s m r ctx = Next ctx.
Proof.
  intros [H1 H2]. unfold rateLimitMiddleware. destruct (rateLimitExempt r); [done|]. cbv zeta.
  destruct (s_limitIP s); [rewrite H1 by done|]; cbn [andb negb];
    destruct (s_limitKey s); [rewrite H2 by done; by rewrite !andb_false_r|done|rewrite H2 by done; by rewrite !andb_false_r|done].
Qed.


(** The installation asks for credentials: OIDC is configured, or an enabled API key is
    stored, and is either known already or found by a query that does not fail. *)
Definition secured (s : Server) (m : Moment) : Prop :=
  s_oidcVerifier s ≠ None \/ s_hasAnyAPIKeyCache s = true \/
  exists db h k, s_reg s = Some db /\ t_keys db !! h = Some k /\ K_Enabled k = true /\ m_fault m QHasKey = None.

Lemma HasAnyAPIKey_spec m db : HasAnyAPIKey m db = (true, None) <->
  m_fault m QHasKey = None /\ exists h k, t_keys db !! h = Some k /\ K_Enabled k = true.
Proof.
  unfold HasAnyAPIKey. destruct (m_fault m QHasKey); [naive_solver|].
  assert (H : existsb (fun kv => K_Enabled (snd kv)) (map_to_list (t_keys db)) = true <->
              exists h k, t_keys db !! h = Some k /\ K_Enabled k = true).
  { rewrite existsb_exists. setoid_rewrite <- list_elem_of_In. split.
    - intros ([h k] & Hin%elem_of_map_to_list & He). eauto.
    - intros (h & k & Hk & He). exists (h, k). by rewrite elem_of_map_to_list. }
  rewrite <- H. destruct (existsb _ _); naive_solver.
Qed.

Lemma anonymous_closed s m r ctx : secured s m -> managementPath r = true ->
  validateInternalToken s (InternalToken r) = false -> exists msg, fst (anonymous s m r ctx) = Refuse 401 msg.
Proof.
  intros Hs Hm Hi. unfold anonymous. cbv zeta. rewrite Hm, Hi. cbn [negb].
  destruct (s_oidcVerifier s) eqn:Ev; [cbn; eauto|]. destruct (s_hasAnyAPIKeyCache s) eqn:Ec; [cbn; eauto|].
  destruct Hs as [?|[?|(db & h & k & E1 & E2 & E3 & E4)]]; [congruence..|]. rewrite E1.
  rewrite (proj2 (HasAnyAPIKey_spec m db)) by eauto. cbn. eauto.
Qed.


Lemma parseSA_empty secret unix : parseServiceAccountToken secret unix "" = None.
Proof. unfold parseServiceAccountToken. by rewrite orb_true_r. Qed.

Lemma rbac_anonymous s m r ctx : publicGet r = false -> bearerToken r = "" -> ctxKeyOIDCRole ctx = None ->
  rbacMiddleware scan s m r ctx = anonymous s m r ctx.
Proof.
  intros H1 H2 H3. unfold rbacMiddleware. cbv zeta. rewrite H1, H2, H3, parseSA_empty. cbn [default].
  unfold validateInternalToken. destruct (s_internalToken s); done.
Qed.

(** The request carries no credential at all. *)
Record bare (s : Server) (r : Request) : Prop := {
  bare_bearer : Authorization r = "";
  bare_internal : validateInternalToken s (InternalToken r) = false;
  bare_cookie : SessionCookie r = None }.

Lemma oidc_bare s m r : bare s r -> Path r ∉ loginPaths -> s_oidcVerifier s ≠ None ->
  oidcMiddleware s m r Background = unauthorized \/ oidcMiddleware s m r Background = Redirect "/auth/login".
Proof.
  intros [H1 H2 H3] Hp Hv. unfold oidcMiddleware. destruct (s_oidcVerifier s); [|done].
  rewrite decide_False, H2, H1 by done. cbn. unfold sessionOrRefuse, sessionUser. rewrite H3.
  destruct (s_sessionSecret s =? ""); case_match; auto.
Qed.

Lemma management_not_login r : managementPath r = true -> Path r ∉ loginPaths.
Proof.
  intros Hm Hin. unfold managementPath in Hm. unfold loginPaths in Hin. rewrite !elem_of_cons, elem_of_nil in Hin.
  destruct Hin as [E|[E|[E|[E|[E|[]]]]]]; by rewrite E in Hm.
Qed.


Lemma keyGate_unknown s m r ctx token :
  (forall db, s_reg s = Some db -> exists e, GetAPIKeyByHash m db (sha256HexOf token) = inl e) ->
  keyGate scan s m r ctx token = Next ctx.
Proof. intros H. unfold keyGate. destruct (s_reg s) as [db|]; [|done]. by destruct (H db eq_refl) as [e ->]. Qed.

(** Fail open: with OIDC off, a bearer token that is no key, no service-account
    token and not the internal token reaches every handler with every method but [OPTIONS], even
    when keys exist and the same request without the token is refused. So does the
    token of a key that was disabled or has expired, or any token while the key
    table cannot be read. *)
Theorem unknown_bearer_open s m r :
  s_oidcVerifier s = None -> unlimited s m ->
  bearerToken r ≠ "" -> validateInternalToken s (bearerToken r) = false ->
  parseServiceAccountToken (s_sessionSecret s) (m_saUnix m) (bearerToken r) = None ->
  (forall db, s_reg s = Some db ->
     m_fault m QKey ≠ None \/ t_keys db !! sha256HexOf (bearerToken r) = None \/
     exists k, t_keys db !! sha256HexOf (bearerToken r) = Some k /\ keyLive m k = false) ->
  isOptions r = false -> serve scan s m r = (Next Background, s_hasAnyAPIKeyCache s).
Proof.
  intros Hv Hu Ht Hi Hsa Hdb Hopt. unfold serve, corsMiddleware, authChain, oidcMiddleware. rewrite Hopt. rewrite Hv, rateLimit_pass by done.
  unfold rbacMiddleware. cbv zeta. destruct (publicGet r); [done|]. rewrite Hi, Hsa. cbn [default negb].
  change (negb (default "" (ctxKeyOIDCRole Background) =? "")) with false. cbn match.
  apply String.eqb_neq in Ht. rewrite Ht, keyGate_unknown; [done|]. intros db E. unfold GetAPIKeyByHash, fetch.
  destruct (m_fault m QKey); [eauto|]. destruct (Hdb db E) as [?|[->|(k & -> & ->)]]; [done|eauto..].
Qed.

(** Browser sessions do not reach the API: with OIDC on, a request that a valid
    session cookie authenticates, without a bearer token, is refused by the role
    check with 401 on every path under [/api/v1/] but the public reads. *)
Theorem session_refused s m r sub email :
  s_oidcVerifier s ≠ None -> unlimited s m -> sessionUser s m r = Some (sub, email) ->
  Authorization r = "" -> validateInternalToken s (InternalToken r) = false ->
  managementPath r = true -> publicGet r = false -> isOptions r = false ->
  oidcMiddleware s m r Background = Next (mkReqContext (Some sub) (Some email) None None None) /\
  exists msg, fst (serve scan s m r) = Refuse 401 msg.
Proof.
  intros Hv Hu Hs Ha Hi Hm Hg Hopt. pose proof (management_not_login r Hm) as Hl.
  assert (Ho : oidcMiddleware s m r Background = Next (mkReqContext (Some sub) (Some email) None None None)).
  { unfold oidcMiddleware. destruct (s_oidcVerifier s); [|done]. rewrite decide_False, Hi, Ha by done. cbn.
    unfold sessionOrRefuse. by rewrite Hs. }
  split; [done|]. unfold serve, corsMiddleware, authChain. rewrite Hopt, Ho, rateLimit_pass by done. rewrite rbac_anonymous; [|done| |done].
  - apply anonymous_closed; [by left|done|done].
  - unfold bearerToken. by rewrite Ha.
Qed.

(** The public reads are not public under OIDC: a probe of the health endpoints
    without credentials is refused with 401, or sent to the login, by the OIDC
    check, which runs before the role check that lists those paths as public. *)
Theorem public_probe_refused s m r : s_oidcVerifier s ≠ None -> bare s r -> publicGet r = true ->
  Path r ≠ "/auth/ldap-login" ->
  fst (rbacMiddleware scan s m r Background) = Next Background /\
  (fst (serve scan s m r) = unauthorized \/ fst (serve scan s m r) = Redirect "/auth/login").
Proof.
  intros Hv Hb Hg Hp. split; [unfold rbacMiddleware; cbv zeta; by rewrite Hg|].
  assert (Hl : Path r ∉ loginPaths).
  { unfold publicGet in Hg. apply andb_true_iff in Hg as [_ Hg]. apply bool_decide_eq_true in Hg.
    unfold rbacPublicPaths, loginPaths in *. rewrite !elem_of_cons, elem_of_nil in *. intuition congruence. }
  assert (Hopt : isOptions r = false).
  { unfold publicGet in Hg. apply andb_true_iff in Hg as [Hg _]. apply String.eqb_eq in Hg. unfold isOptions. by rewrite Hg. }
  unfold serve, corsMiddleware, authChain. rewrite Hopt. destruct (oidc_bare s m r Hb Hl Hv) as [->| ->]; cbn; auto.
Qed.
End Verdicts.

(** ** Team permissions *)

Lemma fetch_inr {A} m q what (row : option A) a : fetch m q what row = inr a -> row = Some a.
Proof. unfold fetch. repeat case_match; congruence. Qed.

Lemma GetCustomRole_org m db q org id r : GetCustomRole m db q org id = inr r ->
  pt_roles (t_platform db) !! id = Some r /\ ROrgID r = org.
Proof.
  intros H%fetch_inr. repeat case_match; simplify_eq/=. split; [done|]. by apply String.eqb_eq.
Qed.

Lemma teamRole_org m db org id r : teamRole m db org id = inr r ->
  pt_roles (t_platform db) !! id = Some r /\ (ROrgID r = "" \/ ROrgID r = org).
Proof.
  unfold teamRole. destruct (GetCustomRole m db QTeamRole org id) as [e|r'] eqn:E.
  - destruct (isNotFound e); [|done]. intros [H1 H2]%GetCustomRole_org. auto.
  - intros [= ->]. apply GetCustomRole_org in E as [H1 H2]. auto.
Qed.

(** The user administers the organisation. *)
Definition orgAdmin (db : AuthTables) (org user : string) : Prop :=
  exists om, pt_orgMembers (t_platform db) !! (org, user) = Some om /\ OMRole om = "org_admin".

(** The team gave the user the role. *)
Definition givenRole (db : AuthTables) (team user id : string) : Prop :=
  exists tm, pt_teamMembers (t_platform db) !! (team, user) = Some tm /\ TMRoleID tm = id.

(** Team isolation: the permissions of a user in a team are those of the
    built-in [org_admin] role, when the user administers the team's organisation,
    and of the role the team gave the user, which is built in or belongs to that
    organisation; roles of other organisations never count. They are listed once
    each, in ascending order. *)
Theorem GetEffectivePermissions_isolated m db user team ep :
  GetEffectivePermissions m db user team = inr ep ->
  (exists x, pt_teams (t_platform db) !! team = Some x /\ TOrgID x = EP_OrgID ep) /\
  (EP_IsOrgAdmin ep = true -> orgAdmin db (EP_OrgID ep) user) /\
  (forall p, p ∈ EP_Permissions ep -> exists id r, pt_roles (t_platform db) !! id = Some r /\ p ∈ RPermissions r /\
     (id = "org_admin" /\ ROrgID r = "" /\ orgAdmin db (EP_OrgID ep) user \/
      givenRole db team user id /\ (ROrgID r = "" \/ ROrgID r = EP_OrgID ep))) /\
  NoDup (EP_Permissions ep) /\ StronglySorted (not_less String.ltb) (EP_Permissions ep).
Proof.
  unfold GetEffectivePermissions. destruct (GetTeam m db team) as [e|x] eqn:Et; [done|]. apply fetch_inr in Et.
  cbv zeta. set (org := TOrgID x).
  set (adm := match GetOrgMember m db org user with inr om => OMRole om =? "org_admin" | inl _ => false end).
  assert (Hadm : adm = true -> orgAdmin db org user).
  { unfold adm. destruct (GetOrgMember m db org user) as [|om] eqn:Em; [done|]. apply fetch_inr in Em.
    intros Ho%String.eqb_eq. by exists om. }
  set (base := if adm then match GetCustomRole m db QOrgAdminRole "" "org_admin" with
                           | inr r => list_to_set (RPermissions r) | inl _ => ∅ end else ∅ : gset string).
  assert (Hbase : forall p, p ∈ base -> exists r, pt_roles (t_platform db) !! "org_admin" = Some r /\ ROrgID r = "" /\
                    p ∈ RPermissions r /\ orgAdmin db org user).
  { intros p. unfold base. destruct adm; [|by rewrite elem_of_empty].
    destruct (GetCustomRole m db QOrgAdminRole "" "org_admin") as [|r] eqn:Er; [by rewrite elem_of_empty|].
    apply GetCustomRole_org in Er as [H1 H2]. rewrite elem_of_list_to_set. exists r. auto. }
  set (st := match GetTeamMember m db team user with inr _ => _ | inl _ => _ end).
  assert (Hst : forall p, p ∈ snd st -> p ∈ base \/ exists id r, givenRole db team user id /\
                  pt_roles (t_platform db) !! id = Some r /\ p ∈ RPermissions r /\ (ROrgID r = "" \/ ROrgID r = org)).
  { intros p. unfold st. destruct (GetTeamMember m db team user) as [|tm] eqn:Eg; [by left|]. apply fetch_inr in Eg.
    destruct (TMRoleID tm =? ""); [by left|]. destruct (teamRole m db org (TMRoleID tm)) as [|r] eqn:Er; [by left|]. cbn [snd].
    apply teamRole_org in Er as [H1 H2]. rewrite elem_of_union, elem_of_list_to_set. intros [?|?]; [by left|right].
    exists (TMRoleID tm), r. split; [by exists tm|auto]. }
  destruct st as [[rid rname] perms]. intros [= <-]. cbn [EP_OrgID EP_IsOrgAdmin EP_Permissions] in *. split_and!; [by exists x|done|..].
  - intros p. rewrite go_sort_perm, elem_of_elements. intros Hp. destruct (Hst p Hp) as [Hb|(id & r & H1 & H2 & H3 & H4)].
    + destruct (Hbase p Hb) as (r & H1 & H2 & H3 & H4). exists "org_admin", r. split_and!; [done|done|by left].
    + exists id, r. split_and!; [done|done|by right].
  - rewrite go_sort_perm. apply NoDup_elements.
  - apply (go_sort_sorted String.ltb (fun _ => True)); [| |by apply Forall_true].
    + intros a b _ _. apply string_ltb_asym.
    + intros a b c _ _ _. apply string_not_less_trans.
Qed.

(** ** Sessions and group roles *)

Lemma cutLast_spec c s x y : cutLast c s = Some (x, y) -> s = x +:+ String c y /\ cutLast c y = None.
Proof.
  revert x y. induction s as [|a s IH]; intros x y; [done|]. cbn. destruct (cutLast c s) as [[x' y']|] eqn:E.
  - intros [= <- <-]. destruct (IH x' y' eq_refl) as [-> H]. done.
  - destruct (Ascii.eqb_spec a c) as [->|]; [|done]. by intros [= <- <-].
Qed.

Lemma cutLast_app c x y : cutLast c y = None -> cutLast c (x +:+ String c y) = Some (x, y).
Proof.
  intros Hy. induction x as [|a x IH].
  - change (cutLast c (String c y) = Some ("", y)). cbn. by rewrite Hy, Ascii.eqb_refl.
  - change (cutLast c (String a (x +:+ String c y)) = Some (String a x, y)). cbn. by rewrite IH.
Qed.

(** Session cookies: whatever [verifySession] accepts carries the server's MAC
    over its first part and claims that have not expired; and a cookie is accepted,
    with the user it was signed for, for exactly its eight hours, provided base64
    and JSON decode what they encode and base64 text has no dot. *)
Theorem session_token `{C : Crypto} secret :
  (forall now token sub email, verifySession secret now token = Some (sub, email) ->
     exists encoded payload exp,
       token = encoded +:+ "." +:+ b64encode (hmacSHA256 secret encoded) /\ b64decode encoded = Some payload /\
       decodeSession payload = Some (mkSessionClaims sub email exp) /\ (now <= exp)%Z) /\
  (forall issued now sub email,
     let claims := mkSessionClaims sub email (issued + sessionTTL) in
     let mac := hmacSHA256 secret (b64encode (encodeSession claims)) in
     b64decode (b64encode (encodeSession claims)) = Some (encodeSession claims) ->
     decodeSession (encodeSession claims) = Some claims -> cutLast "." (b64encode mac) = None ->
     verifySession secret now (signSession secret issued sub email) =
     if (now <=? issued + 8 * 3600)%Z then Some (sub, email) else None).
Proof.
  split.
  - intros now token sub email. unfold verifySession. destruct (cutLast "." token) as [[encoded sig]|] eqn:E; [|done].
    apply cutLast_spec in E as [-> _]. destruct (String.eqb_spec sig (b64encode (hmacSHA256 secret encoded))) as [->|]; [|done].
    cbn [negb]. destruct (b64decode encoded) as [payload|] eqn:Ep; [|done].
    destruct (decodeSession payload) as [[sub' email' exp]|] eqn:Ed; [|done]. cbn [SC_Exp SC_Sub SC_Email].
    destruct (Z.ltb_spec exp now); [done|]. intros [= <- <-]. by exists encoded, payload, exp.
  - intros issued now sub email claims mac H1 H2 H3. unfold verifySession, signSession. fold claims. fold mac.
    change ("." +:+ b64encode mac) with (String "." (b64encode mac)). rewrite cutLast_app by done. fold mac.
    rewrite String.eqb_refl. cbn [negb]. rewrite H1, H2. cbn [claims SC_Exp SC_Sub SC_Email]. unfold sessionTTL.
    destruct (Z.ltb_spec (issued + 8 * 3600) now), (Z.leb_spec now (issued + 8 * 3600)); done || lia.
Qed.

Lemma rolePriority_nonneg r : (0 <= rolePriority r)%Z.
Proof. unfold rolePriority. repeat case_match; lia. Qed.

(** A role of positive priority is determined by it. *)
Lemma rolePriority_inj a b : a = "" \/ (0 < rolePriority a)%Z -> b = "" \/ (0 < rolePriority b)%Z ->
  rolePriority a = rolePriority b -> a = b.
Proof.
  intros Ha Hb. unfold rolePriority in *.
  destruct (String.eqb_spec a "admin"), (String.eqb_spec a "inference"), (String.eqb_spec a "viewer"),
    (String.eqb_spec b "admin"), (String.eqb_spec b "inference"), (String.eqb_spec b "viewer"); intros H;
    try congruence; try lia; destruct Ha, Hb; try congruence; lia.
Qed.

Lemma groupFold_spec s groups : forall best,
  best = "" \/ (0 < rolePriority best)%Z ->
  let res := fold_left (fun '(best, bestPri) g =>
         match s_oidcGroupMappings s !! g with
         | Some role => if (bestPri <? rolePriority role)%Z then (role, rolePriority role) else (best, bestPri)
         | None => (best, bestPri)
         end) groups (best, rolePriority best) in
  snd res = rolePriority (fst res) /\ (rolePriority best <= snd res)%Z /\
  (forall g role, g ∈ groups -> s_oidcGroupMappings s !! g = Some role -> (rolePriority role <= snd res)%Z) /\
  (fst res = best \/ exists g, g ∈ groups /\ s_oidcGroupMappings s !! g = Some (fst res)) /\
  (fst res = "" \/ (0 < rolePriority (fst res))%Z).
Proof.
  induction groups as [|g groups IH]; intros best Hb; cbn [fold_left].
  - cbn. split_and!; [done|lia| |by left|done]. intros g role H. by apply elem_of_nil in H.
  - destruct (s_oidcGroupMappings s !! g) as [role|] eqn:Eg.
    + destruct (Z.ltb_spec (rolePriority best) (rolePriority role)) as [Hlt|Hge].
      * destruct (IH role) as (A1 & A2 & A3 & A4 & A5); [right; pose proof (rolePriority_nonneg best); lia|].
        split_and!; [done|lia| | |done].
        -- intros g' role' [->|Hin]%elem_of_cons E; [replace role' with role by congruence; done|by apply (A3 g')].
        -- right. destruct A4 as [A4|(g' & Hg & E)]; [exists g; rewrite A4; split; [by left|done]|].
           exists g'. split; [by right|done].
      * destruct (IH best Hb) as (A1 & A2 & A3 & A4 & A5). split_and!; [done|done| | |done].
        -- intros g' role' [->|Hin]%elem_of_cons E; [replace role' with role by congruence; lia|by apply (A3 g')].
        -- destruct A4 as [A4|(g' & Hg & E)]; [by left|right]. exists g'. split; [by right|done].
    + destruct (IH best Hb) as (A1 & A2 & A3 & A4 & A5). split_and!; [done|done| | |done].
      * intros g' role' [->|Hin]%elem_of_cons E; [congruence|by apply (A3 g')].
      * destruct A4 as [A4|(g' & Hg & E)]; [by left|right]. exists g'. split; [by right|done].
Qed.

Lemma resolveGroupRole_spec s groups :
  (forall g role, g ∈ groups -> s_oidcGroupMappings s !! g = Some role ->
     (rolePriority role <= rolePriority (resolveGroupRole s groups))%Z) /\
  (resolveGroupRole s groups = "" \/
   exists g, g ∈ groups /\ s_oidcGroupMappings s !! g = Some (resolveGroupRole s groups)) /\
  (resolveGroupRole s groups = "" \/ (0 < rolePriority (resolveGroupRole s groups))%Z).
Proof.
  unfold resolveGroupRole. destruct (groupFold_spec s groups "" ltac:(by left)) as (A1 & A2 & A3 & A4 & A5).
  change (rolePriority "") with 0%Z in *. rewrite A1 in A3. split_and!; [exact A3|exact A4|exact A5].
Qed.

(** Group mapping: a user gets the strongest role that any of the groups maps
    to, in the order admin, inference, viewer, and no role when no group maps to
    one of the three; the order of the groups does not matter. *)
Theorem resolveGroupRole_max s groups :
  (forall g role, g ∈ groups -> s_oidcGroupMappings s !! g = Some role ->
     (rolePriority role <= rolePriority (resolveGroupRole s groups))%Z) /\
  (resolveGroupRole s groups = "" \/
   exists g, g ∈ groups /\ s_oidcGroupMappings s !! g = Some (resolveGroupRole s groups)) /\
  (forall groups', groups' ≡ₚ groups -> resolveGroupRole s groups' = resolveGroupRole s groups).
Proof.
  destruct (resolveGroupRole_spec s groups) as (H1 & H2 & H3). split_and!; [done|done|]. intros groups' Hp.
  destruct (resolveGroupRole_spec s groups') as (G1 & G2 & G3). apply rolePriority_inj; [done|done|].
  apply Z.le_antisymm.
  - destruct G2 as [->|(g & Hg & Hm)]; [apply rolePriority_nonneg|]. rewrite Hp in Hg. by apply (H1 g).
  - destruct H2 as [->|(g & Hg & Hm)]; [apply rolePriority_nonneg|]. rewrite <- Hp in Hg. by apply (G1 g).
Qed.

(** ** Instances *)

Section Examples.

(** Transparent stand-ins for the parameters, on which the theorems are evaluated. *)
Definition toyClaims : sessionClaims := mkSessionClaims "alice" "alice@example.com" 28800.
Local Instance toyCrypto : Crypto := {|
  sha256HexOf := fun s => s;
  hmacSHA256 := fun k d => k +:+ d;
  b64encode := fun s => s;
  b64decode := Some;
  encodeSession := fun _ => "claims";
  decodeSession := fun p => if p =? "claims" then Some toyClaims else None;
  decodeSA := fun _ => None |}.

Definition exKeyOf (token role : string) (enabled : bool) : APIKey := mkAPIKey "k1" token "" role enabled None.

Definition exTables (role : string) (enabled : bool) : AuthTables :=
  mkAuthTables {["tok" := exKeyOf "tok" role enabled]} {["claims.kclaims" := mkOIDCSession "claims.kclaims" "alice" "" "2030" false]}
    (mkPlatformTables ∅ {["ml" := mkTeam "ml" "acme" "ML" "ml" "" 0 0]} ∅
       {[("acme", "k1") := mkOrgMember "acme" "k1" "org_admin" "" 0]} {[("ml", "k1") := mkTeamMember "ml" "k1" "developer" "" 0]}
       {["developer" := mkCustomRole "developer" "" "Developer" "" ["team:models:deploy"; "inference:call"] true 0 0;
         "org_admin" := mkCustomRole "org_admin" "" "Admin" "" ["org:teams:create"] true 0 0]} ∅ ∅ ∅ ∅).

Definition exServer (oidc : bool) (tables : AuthTables) : Server :=
  mkServer (if oidc then Some (mkVerifier (fun _ => None) None) else None) ∅ None "" "k" (Some tables) false false false.

Definition exMoment : Moment := mkMoment (fun _ => None) 100 100 "2026" "2026" true true.

Definition exRequest (method path auth : string) (cookie : option string) : Request :=
  mkRequest method path auth "" cookie "".

Definition exDelete (auth : string) : Request := exRequest "DELETE" "/api/v1/deployments/d1" auth None.

Lemma key_roles_witness :
  fst (rbacMiddleware routePermission (exServer false (exTables "admin" true)) exMoment (exDelete "Bearer tok") Background)
  = Next (withKey Background (exKeyOf "tok" "admin" true)).
Proof.
  apply (key_roles routePermission (reflexivity _) (exServer false (exTables "admin" true)) exMoment
           (exDelete "Bearer tok") Background (exKeyOf "tok" "admin" true)); [|reflexivity|reflexivity].
  split; [vm_compute; reflexivity..| |].
  - vm_compute. discriminate.
  - exists (exTables "admin" true). split; vm_compute; reflexivity.
Defined.


(** A key is stored, and the query that looks for one fails: an anonymous request deletes
    a deployment. *)
Example has_key_fault_open :
  let m := mkMoment (fun q => match q with QHasKey => Some (ErrIO "disk") | _ => None end) 100 100 "2026" "2026" true true in
  fst (serve routePermission (exServer false (exTables "viewer" true)) m (exDelete "")) = Next Background.
Proof. vm_compute. reflexivity. Qed.

(** The live viewer key may not delete a deployment; after it is disabled, its token
    may. *)
Lemma unknown_bearer_open_witness :
  serve routePermission (exServer false (exTables "viewer" true)) exMoment (exDelete "Bearer tok")
    = (Refuse 403 "insufficient permissions", false) /\
  serve routePermission (exServer false (exTables "viewer" false)) exMoment (exDelete "Bearer tok")
    = (Next Background, false).
Proof.
  split; [vm_compute; reflexivity|].
  apply (unknown_bearer_open routePermission (exServer false (exTables "viewer" false)) exMoment (exDelete "Bearer tok")).
  - reflexivity.
  - split; discriminate.
  - vm_compute. discriminate.
  - vm_compute. reflexivity.
  - vm_compute. reflexivity.
  - intros db [= <-]. right; right. exists (exKeyOf "tok" "viewer" false). split; vm_compute; reflexivity.
  - reflexivity.
Defined.

Definition exCookieRequest : Request := exRequest "GET" "/api/v1/nodes" "" (Some "claims.kclaims").

Lemma session_refused_witness :
  exists msg, fst (serve routePermission (exServer true (exTables "viewer" true)) exMoment exCookieRequest) = Refuse 401 msg.
Proof.
  apply (session_refused routePermission (exServer true (exTables "viewer" true)) exMoment exCookieRequest
           "alice" "alice@example.com").
  - discriminate.
  - split; discriminate.
  - vm_compute. reflexivity.
  - reflexivity.
  - reflexivity.
  - reflexivity.
  - reflexivity.
  - reflexivity.
Defined.

Definition exProbe : Request := exRequest "GET" "/api/v1/platform/health" "" None.

Lemma public_probe_refused_witness :
  fst (serve routePermission (exServer true (exTables "viewer" true)) exMoment exProbe) = unauthorized \/
  fst (serve routePermission (exServer true (exTables "viewer" true)) exMoment exProbe) = Redirect "/auth/login".
Proof.
  apply (public_probe_refused routePermission (exServer true (exTables "viewer" true)) exMoment exProbe).
  - discriminate.
  - split; reflexivity.
  - vm_compute. reflexivity.
  - vm_compute. discriminate.
Defined.

Definition exEffective : EffectivePermissions :=
  mkEffective "ml" "acme" "k1" "developer" "Developer" ["inference:call"; "org:teams:create"; "team:models:deploy"] true.

Lemma GetEffectivePermissions_isolated_witness :
  GetEffectivePermissions exMoment (exTables "viewer" true) "k1" "ml" = inr exEffective /\
  StronglySorted (not_less String.ltb) (EP_Permissions exEffective).
Proof.
  assert (H : GetEffectivePermissions exMoment (exTables "viewer" true) "k1" "ml" = inr exEffective) by (vm_compute; reflexivity).
  split; [exact H|]. apply (GetEffectivePermissions_isolated exMoment (exTables "viewer" true) "k1" "ml" exEffective H).
Defined.

Lemma session_token_witness :
  verifySession "k" 100 (signSession "k" 0 "alice" "alice@example.com") = Some ("alice", "alice@example.com").
Proof.
  destruct (session_token "k") as [_ H]. apply (H 0%Z 100%Z "alice" "alice@example.com"); vm_compute; reflexivity.
Defined.

Definition exGroups : Server :=
  mkServer None {["ops" := "admin"; "dev" := "viewer"]} None "" "" None false false false.

Lemma resolveGroupRole_max_witness : resolveGroupRole exGroups ["ops"; "dev"] = resolveGroupRole exGroups ["dev"; "ops"].
Proof. apply (resolveGroupRole_max exGroups ["dev"; "ops"]). apply Permutation_swap. Defined.
End Examples.
