(* ===== verification/Platform.v ===== *)
(** * Platform: organisations, teams, roles and node pools

    [go/controlplane/registry/platform_sqlite.go] and [slo_sqlite.go]: the tables of
    the multi-tenant model. Each operation is one statement, with the constraints of
    [schema.sql]: primary and unique keys, foreign keys with their actions, and the
    check on the policy of a pool. *)
From S2P Require Import Prelude Float64 Cluster Registry Permissions.
Import Row.
Open Scope Z_scope.

Definition ForeignKeyFailed : Error := ErrorString "FOREIGN KEY constraint failed".
Definition CheckFailed : Error := ErrorString "CHECK constraint failed".

(** ** Updates of one table *)

Section Setters.
Context (t : PlatformTables).
Definition set_orgs x := mkPlatformTables x (pt_teams t) (pt_users t) (pt_orgMembers t) (pt_teamMembers t)
  (pt_roles t) (pt_pools t) (pt_poolMembers t) (pt_quotas t) (pt_slo t).
Definition set_teams x := mkPlatformTables (pt_orgs t) x (pt_users t) (pt_orgMembers t) (pt_teamMembers t)
  (pt_roles t) (pt_pools t) (pt_poolMembers t) (pt_quotas t) (pt_slo t).
Definition set_users x := mkPlatformTables (pt_orgs t) (pt_teams t) x (pt_orgMembers t) (pt_teamMembers t)
  (pt_roles t) (pt_pools t) (pt_poolMembers t) (pt_quotas t) (pt_slo t).
Definition set_orgMembers x := mkPlatformTables (pt_orgs t) (pt_teams t) (pt_users t) x (pt_teamMembers t)
  (pt_roles t) (pt_pools t) (pt_poolMembers t) (pt_quotas t) (pt_slo t).
Definition set_teamMembers x := mkPlatformTables (pt_orgs t) (pt_teams t) (pt_users t) (pt_orgMembers t) x
  (pt_roles t) (pt_pools t) (pt_poolMembers t) (pt_quotas t) (pt_slo t).
Definition set_roles x := mkPlatformTables (pt_orgs t) (pt_teams t) (pt_users t) (pt_orgMembers t) (pt_teamMembers t)
  x (pt_pools t) (pt_poolMembers t) (pt_quotas t) (pt_slo t).
Definition set_pools x := mkPlatformTables (pt_orgs t) (pt_teams t) (pt_users t) (pt_orgMembers t) (pt_teamMembers t)
  (pt_roles t) x (pt_poolMembers t) (pt_quotas t) (pt_slo t).
Definition set_quotas x := mkPlatformTables (pt_orgs t) (pt_teams t) (pt_users t) (pt_orgMembers t) (pt_teamMembers t)
  (pt_roles t) (pt_pools t) (pt_poolMembers t) x (pt_slo t).
Definition set_slo x := mkPlatformTables (pt_orgs t) (pt_teams t) (pt_users t) (pt_orgMembers t) (pt_teamMembers t)
  (pt_roles t) (pt_pools t) (pt_poolMembers t) (pt_quotas t) x.
End Setters.

Section Platform.
Context `{E : Env}.

(** A statement on these tables; [k] also sees the nodes, which pool members refer
    to. *)
Definition pexec (what : string) (k : gmap string Node -> PlatformTables -> Error + PlatformTables) : M (option Error) :=
  exec what (fun db => match k (db_nodes db) (db_platform db) with
                       | inl e => inl (Wrap what e)
                       | inr t => inr (with_platform db t)
                       end).

Definition pquery {A} (what : string) (k : PlatformTables -> Error + A) : M (Error + A) :=
  query what (fun db => k (db_platform db)).

(** [mustAffect] returns [ErrNotFound] unwrapped. *)
Definition pexecMust (what : string) (k : PlatformTables -> Error + option PlatformTables) : M (option Error) :=
  exec what (fun db => match k (db_platform db) with
                       | inl e => inl (Wrap what e)
                       | inr None => inl ErrNotFound
                       | inr (Some t) => inr (with_platform db t)
                       end).

(** Some other row has the same value of a unique column. *)
Definition taken {K A} `{Countable K} (tbl : gmap K A) (k : K) (same : A -> bool) : bool :=
  existsb (fun kv => negb (bool_decide (fst kv = k)) && same (snd kv)) (map_to_list tbl).

(** ** Organisations *)

Definition CreateOrganization (o : Organization) : M (option Error) :=
  let* now := nowUTC in
  let created := if IsZero (OCreatedAt o) then now else OCreatedAt o in
  pexec "registry: create organization" (fun _ t =>
    match pt_orgs t !! OID o with
    | Some _ => inl ErrUnique
    | None =>
        if taken (pt_orgs t) (OID o) (fun r => OSlug r =? OSlug o)%string then inl ErrUnique
        else inr (set_orgs t (<[OID o := mkOrganization (OID o) (OName o) (OSlug o) (ODescription o) created now]>
                                (pt_orgs t)))
    end).

Definition GetOrganization (id : string) : M (Error + Organization) :=
  pquery "registry: get organization" (fun t => getRow (pt_orgs t) id).

Definition GetOrganizationBySlug (slug : string) : M (Error + Organization) :=
  pquery "registry: get organization by slug" (fun t =>
    match List.filter (fun o => OSlug o =? slug)%string (map snd (map_to_list (pt_orgs t))) with
    | o :: _ => inr o
    | [] => inl ErrNotFound
    end).

(** [ORDER BY] a text column: rows with the same text come in any order. *)
Definition orderBy {A} (key : A -> string) (n : nat) (rows : list A) : list A :=
  go_sort (fun a b => String.ltb (key a) (key b)) (env_order A n rows).

Definition ListOrganizations : M (Error + list Organization) :=
  let* n := next in
  pquery "registry: list organizations" (fun t => inr (orderBy OName n (map snd (map_to_list (pt_orgs t))))).

Definition UpdateOrganization (o : Organization) : M (option Error) :=
  let* now := nowUTC in
  pexecMust "registry: update organization" (fun t =>
    match pt_orgs t !! OID o with
    | None => inr None
    | Some r =>
        if taken (pt_orgs t) (OID o) (fun r => OSlug r =? OSlug o)%string then inl ErrUnique
        else inr (Some (set_orgs t (<[OID o := mkOrganization (OID r) (OName o) (OSlug o) (ODescription o) (OCreatedAt r) now]>
                                      (pt_orgs t))))
    end).

(** The teams of the organisation go with it ([ON DELETE CASCADE]), and their quotas
    with them. *)
Definition DeleteOrganization (id : string) : M (option Error) :=
  pexecMust "registry: delete organization" (fun t =>
    match pt_orgs t !! id with
    | None => inr None
    | Some _ =>
        let teams := filter (fun kv => TOrgID (snd kv) ≠ id) (pt_teams t) in
        inr (Some (set_quotas (set_teams (set_orgs t (delete id (pt_orgs t))) teams)
                     (filter (fun kv => is_Some (teams !! PQTeamID (snd kv))) (pt_quotas t))))
    end).

(** ** Teams *)

Definition CreateTeam (x : Team) : M (option Error) :=
  let* now := nowUTC in
  let created := if IsZero (TCreatedAt x) then now else TCreatedAt x in
  pexec "registry: create team" (fun _ t =>
    match pt_teams t !! TID x with
    | Some _ => inl ErrUnique
    | None =>
        if taken (pt_teams t) (TID x) (fun r => (TOrgID r =? TOrgID x) && (TSlug r =? TSlug x))%string then inl ErrUnique
        else match pt_orgs t !! TOrgID x with
             | None => inl ForeignKeyFailed
             | Some _ =>
                 inr (set_teams t (<[TID x := mkTeam (TID x) (TOrgID x) (TName x) (TSlug x) (TDescription x) created now]>
                                     (pt_teams t)))
             end
    end).

Definition UpdateTeam (x : Team) : M (option Error) :=
  let* now := nowUTC in
  pexecMust "registry: update team" (fun t =>
    match pt_teams t !! TID x with
    | None => inr None
    | Some r =>
        if taken (pt_teams t) (TID x) (fun r' => (TOrgID r' =? TOrgID r) && (TSlug r' =? TSlug x))%string then inl ErrUnique
        else inr (Some (set_teams t (<[TID x := mkTeam (TID r) (TOrgID r) (TName x) (TSlug x) (TDescription x) (TCreatedAt r) now]>
                                       (pt_teams t))))
    end).

Definition DeleteTeam (id : string) : M (option Error) :=
  pexecMust "registry: delete team" (fun t =>
    match pt_teams t !! id with
    | None => inr None
    | Some _ =>
        inr (Some (set_quotas (set_teams t (delete id (pt_teams t)))
                     (filter (fun kv => PQTeamID (snd kv) ≠ id) (pt_quotas t))))
    end).

(** ** Users *)

Definition UpsertPlatformUser (u : PlatformUser) : M (option Error) :=
  let* now := nowUTC in
  let created := if IsZero (UCreatedAt u) then now else UCreatedAt u in
  pexec "registry: upsert platform user" (fun _ t =>
    if taken (pt_users t) (UID u) (fun r => UEmail r =? UEmail u)%string then inl ErrUnique
    else inr (set_users t (<[UID u :=
      match pt_users t !! UID u with
      | Some r => mkPlatformUser (UID r) (UEmail u) (UDisplayName u) (UAuthMethod u) (UCreatedAt r) (ULastSeenAt r)
      | None => mkPlatformUser (UID u) (UEmail u) (UDisplayName u) (UAuthMethod u) created (ULastSeenAt u)
      end]> (pt_users t)))).

Definition UpdatePlatformUserLastSeen (id : string) (at_ : Time) : M (option Error) :=
  pexecMust "registry: update user last_seen" (fun t =>
    match pt_users t !! id with
    | None => inr None
    | Some r => inr (Some (set_users t (<[id := mkPlatformUser (UID r) (UEmail r) (UDisplayName r) (UAuthMethod r)
                                                  (UCreatedAt r) (Some at_)]> (pt_users t))))
    end).

(** ** Memberships *)

(** An existing row is kept. *)
Definition AddOrgMember (m : OrgMember) : M (option Error) :=
  let* joined := (if IsZero (OMJoinedAt m) then nowUTC else cret (OMJoinedAt m)) in
  pexec "registry: add org member" (fun _ t =>
    inr (match pt_orgMembers t !! (OMOrgID m, OMUserSub m) with
         | Some _ => t
         | None => set_orgMembers t (<[(OMOrgID m, OMUserSub m) :=
             mkOrgMember (OMOrgID m) (OMUserSub m) (OMRole m) (OMInvitedBy m) joined]> (pt_orgMembers t))
         end)).

Definition RemoveOrgMember (orgID userID : string) : M (option Error) :=
  pexecMust "registry: remove org member" (fun t =>
    match pt_orgMembers t !! (orgID, userID) with
    | None => inr None
    | Some _ => inr (Some (set_orgMembers t (delete (orgID, userID) (pt_orgMembers t))))
    end).

(** Only the role of an existing row changes. *)
Definition UpsertOrgMember (m : OrgMember) : M (option Error) :=
  let* joined := (if IsZero (OMJoinedAt m) then nowUTC else cret (OMJoinedAt m)) in
  pexec "registry: upsert org member" (fun _ t =>
    inr (set_orgMembers t (<[(OMOrgID m, OMUserSub m) :=
      match pt_orgMembers t !! (OMOrgID m, OMUserSub m) with
      | Some r => mkOrgMember (OMOrgID r) (OMUserSub r) (OMRole m) (OMInvitedBy r) (OMJoinedAt r)
      | None => mkOrgMember (OMOrgID m) (OMUserSub m) (OMRole m) (OMInvitedBy m) joined
      end]> (pt_orgMembers t)))).

(** The statement of [AddTeamMember] and of [UpsertTeamMember]: only the role of an
    existing row changes. *)
Definition writeTeamMember (what : string) (m : TeamMember) : M (option Error) :=
  let* joined := (if IsZero (TMJoinedAt m) then nowUTC else cret (TMJoinedAt m)) in
  pexec what (fun _ t =>
    inr (set_teamMembers t (<[(TMTeamID m, TMUserSub m) :=
      match pt_teamMembers t !! (TMTeamID m, TMUserSub m) with
      | Some r => mkTeamMember (TMTeamID r) (TMUserSub r) (TMRoleID m) (TMInvitedBy r) (TMJoinedAt r)
      | None => mkTeamMember (TMTeamID m) (TMUserSub m) (TMRoleID m) (TMInvitedBy m) joined
      end]> (pt_teamMembers t)))).

Definition AddTeamMember (m : TeamMember) : M (option Error) := writeTeamMember "registry: add team member" m.
Definition UpsertTeamMember (m : TeamMember) : M (option Error) := writeTeamMember "registry: upsert team member" m.

Definition RemoveTeamMember (teamID userID : string) : M (option Error) :=
  pexecMust "registry: remove team member" (fun t =>
    match pt_teamMembers t !! (teamID, userID) with
    | None => inr None
    | Some _ => inr (Some (set_teamMembers t (delete (teamID, userID) (pt_teamMembers t))))
    end).

(** ** Roles *)

(** [UNIQUE (org_id, name)]: the [NULL] of built-in roles equals nothing. *)
Definition roleNameTaken (t : PlatformTables) (id org name : string) : bool :=
  negb (org =? "")%string && taken (pt_roles t) id (fun r => (ROrgID r =? org) && (RName r =? name))%string.

Definition CreateCustomRole (r : CustomRole) : M (option Error) :=
  let* now := nowUTC in
  let created := if IsZero (RCreatedAt r) then now else RCreatedAt r in
  exec "registry: create custom role" (fun db =>
    let t := db_platform db in
    match pt_roles t !! RID r with
    | Some _ => inl ErrConflict
    | None =>
        if roleNameTaken t (RID r) (ROrgID r) (RName r) then inl ErrConflict
        else inr (with_platform db (set_roles t (<[RID r :=
          mkCustomRole (RID r) (ROrgID r) (RName r) (RDescription r) (RPermissions r) (RIsSystem r) created created]>
            (pt_roles t))))
    end).

Definition roleRow (t : PlatformTables) (orgID roleID : string) : option CustomRole :=
  match pt_roles t !! roleID with
  | Some r => if (ROrgID r =? orgID)%string then Some r else None
  | None => None
  end.

Definition UpdateCustomRole (r : CustomRole) : M (option Error) :=
  let* now := nowUTC in
  exec "registry: update custom role" (fun db =>
    let t := db_platform db in
    match roleRow t (ROrgID r) (RID r) with
    | None => inl ErrNotFound
    | Some row =>
        if roleNameTaken t (RID r) (ROrgID r) (RName r) then inl ErrConflict
        else inr (with_platform db (set_roles t (<[RID r :=
          mkCustomRole (RID row) (ROrgID row) (RName r) (RDescription r) (RPermissions r) (RIsSystem row) (RCreatedAt row) now]>
            (pt_roles t))))
    end).

(** The second query only words the error. *)
Definition DeleteCustomRole (orgID roleID : string) : M (option Error) :=
  let* r := (let* t := next in
             let* db := get_db in
             match env_db t with
             | Some e => cret (inl (Wrap "registry: delete custom role" e))
             | None =>
                 match roleRow (db_platform db) orgID roleID with
                 | Some row =>
                     if RIsSystem row then cret (inr false)
                     else put_db (with_platform db (set_roles (db_platform db) (delete roleID (pt_roles (db_platform db))))) ;;;
                          cret (inr true)
                 | None => cret (inr false)
                 end
             end) in
  match r with
  | inl e => cret (Some e)
  | inr true => cret None
  | inr false =>
      let* q := pquery "registry: delete custom role"
                  (fun t => match roleRow t orgID roleID with Some _ => inr () | None => inl ErrNotFound end) in
      match q with
      | inl ErrNotFound => cret (Some ErrNotFound)
      | _ => cret (Some (ErrorString "registry: delete custom role: cannot delete system role"))
      end
  end.

Definition IsCustomRoleInUse (roleID : string) : M (Error + bool) :=
  pquery "registry: is custom role in use" (fun t =>
    inr (existsb (fun kv => TMRoleID (snd kv) =? roleID)%string (map_to_list (pt_teamMembers t)))).

(** [ON CONFLICT(id) DO NOTHING] for each built-in role, one statement each. *)
Fixpoint seedRoles (now : Time) (roles : list BuiltinRole) : M (option Error) :=
  match roles with
  | [] => cret None
  | b :: roles =>
      let* err := pexec "registry: seed system role" (fun _ t =>
        inr (match pt_roles t !! R_ID b with
             | Some _ => t
             | None => set_roles t (<[R_ID b := mkCustomRole (R_ID b) "" (R_Name b) "" (R_Permissions b) true now now]>
                                      (pt_roles t))
             end)) in
      match err with Some e => cret (Some e) | None => seedRoles now roles end
  end.

Definition SeedSystemRoles : M (option Error) := let* now := nowUTC in seedRoles now SystemRoles.

(** ** Node pools *)

Definition validPolicy (p : string) : bool := (p =? "exclusive")%string || (p =? "shared")%string.

Definition CreateNodePool (p : NodePool) : M (option Error) :=
  let* now := nowUTC in
  let created := if IsZero (NPCreatedAt p) then now else NPCreatedAt p in
  pexec "registry: create node pool" (fun _ t =>
    if negb (validPolicy (NPPolicy p)) then inl CheckFailed
    else match pt_pools t !! NPID p with
         | Some _ => inl ErrUnique
         | None => inr (set_pools t (<[NPID p := mkNodePool (NPID p) (NPName p) (NPDescription p) (NPOwnerType p)
                                                  (NPOwnerID p) (NPPolicy p) created now]> (pt_pools t)))
         end).

Definition GetNodePool (id : string) : M (Error + NodePool) :=
  pquery "registry: get node pool" (fun t => getRow (pt_pools t) id).

Definition ListNodePools : M (Error + list NodePool) :=
  let* n := next in
  pquery "registry: list node pools" (fun t => inr (orderBy NPName n (map snd (map_to_list (pt_pools t))))).

Definition UpdateNodePool (p : NodePool) : M (option Error) :=
  let* now := nowUTC in
  pexecMust "registry: update node pool" (fun t =>
    match pt_pools t !! NPID p with
    | None => inr None
    | Some r =>
        if negb (validPolicy (NPPolicy p)) then inl CheckFailed
        else inr (Some (set_pools t (<[NPID p := mkNodePool (NPID r) (NPName p) (NPDescription p) (NPOwnerType p)
                                                  (NPOwnerID p) (NPPolicy p) (NPCreatedAt r) now]> (pt_pools t))))
    end).

(** Members forbid the deletion ([ON DELETE RESTRICT]); quotas go with the pool. *)
Definition DeleteNodePool (id : string) : M (option Error) :=
  pexecMust "registry: delete node pool" (fun t =>
    match pt_pools t !! id with
    | None => inr None
    | Some _ =>
        if existsb (fun kv => (snd kv =? id)%string) (map_to_list (pt_poolMembers t)) then inl ForeignKeyFailed
        else inr (Some (set_quotas (set_pools t (delete id (pt_pools t)))
                          (filter (fun kv => PQPoolID (snd kv) ≠ id) (pt_quotas t))))
    end).

(** A node moves from the pool it was in. *)
Definition AddNodeToPool (nodeID poolID : string) : M (option Error) :=
  pexec "registry: add node to pool" (fun nodes t =>
    match nodes !! nodeID, pt_pools t !! poolID with
    | Some _, Some _ => inr (with_poolMembers t (<[nodeID := poolID]> (pt_poolMembers t)))
    | _, _ => inl ForeignKeyFailed
    end).

Definition RemoveNodeFromPool (nodeID : string) : M (option Error) :=
  pexecMust "registry: remove node from pool" (fun t =>
    match pt_poolMembers t !! nodeID with
    | None => inr None
    | Some _ => inr (Some (with_poolMembers t (delete nodeID (pt_poolMembers t))))
    end).

Definition GetNodePool_ByNode (nodeID : string) : M (Error + NodePool) :=
  pquery "registry: get pool by node" (fun t =>
    match pt_poolMembers t !! nodeID ≫= (pt_pools t !!.) with Some p => inr p | None => inl ErrNotFound end).

Definition ListNodesInPool (poolID : string) : M (Error + list string) :=
  pquery "registry: list nodes in pool" (fun t =>
    inr (go_sort String.ltb (map fst (List.filter (fun kv => (snd kv =? poolID)%string) (map_to_list (pt_poolMembers t)))))).

(** The rows of the first query: members of the exclusive pools that the team owns. *)
Definition exclusiveNodes (t : PlatformTables) (teamID : string) : list string :=
  map fst (List.filter (fun kv =>
    match pt_pools t !! snd kv with
    | Some p => (NPOwnerType p =? "team") && (NPOwnerID p =? teamID) && (NPPolicy p =? "exclusive")
    | None => false
    end)%string (map_to_list (pt_poolMembers t))).

(** The rows of the second query: members of shared pools where the team has a
    quota. *)
Definition sharedNodes (t : PlatformTables) (teamID : string) : list string :=
  map fst (List.filter (fun kv =>
    match pt_pools t !! snd kv with
    | Some p => (NPPolicy p =? "shared")%string && bool_decide (is_Some (pt_quotas t !! (NPID p, teamID)))
    | None => false
    end) (map_to_list (pt_poolMembers t))).

(** [seen] and [ids]. *)
Definition collect (st : gset string * list string) (id : string) : gset string * list string :=
  let '(seen, ids) := st in if decide (id ∈ seen) then st else ({[ id ]} ∪ seen, ids ++ [id]).

(** The rows of each query come in any order. *)
Definition GetAllowedNodeIDs (teamID : string) : M (Error + list string) :=
  let* n1 := next in
  let* own := pquery "registry: get allowed nodes (exclusive)" (fun t => inr (env_order string n1 (exclusiveNodes t teamID))) in
  match own with
  | inl e => cret (inl e)
  | inr own =>
      let* n2 := next in
      let* shared := pquery "registry: get allowed nodes (shared)" (fun t => inr (env_order string n2 (sharedNodes t teamID))) in
      match shared with
      | inl e => cret (inl e)
      | inr shared => cret (inr (snd (fold_left collect shared (fold_left collect own (∅, [])))))
      end
  end.

(** ** Quotas and service levels *)

Definition UpsertPoolTeamQuota (q : PoolTeamQuota) : M (option Error) :=
  let* now := nowUTC in
  let created := if IsZero (PQCreatedAt q) then now else PQCreatedAt q in
  pexec "registry: upsert pool team quota" (fun _ t =>
    match pt_pools t !! PQPoolID q, pt_teams t !! PQTeamID q with
    | Some _, Some _ =>
        inr (set_quotas t (<[(PQPoolID q, PQTeamID q) :=
          mkPoolTeamQuota (PQPoolID q) (PQTeamID q) (PQMaxDeployments q) (PQMaxGPUNodes q) (PQPriority q)
            (match pt_quotas t !! (PQPoolID q, PQTeamID q) with Some r => PQCreatedAt r | None => created end) now]>
            (pt_quotas t)))
    | _, _ => inl ForeignKeyFailed
    end).

Definition DeletePoolTeamQuota (poolID teamID : string) : M (option Error) :=
  pexecMust "registry: delete pool team quota" (fun t =>
    match pt_quotas t !! (poolID, teamID) with
    | None => inr None
    | Some _ => inr (Some (set_quotas t (delete (poolID, teamID) (pt_quotas t))))
    end).

Definition UpsertSLOConfig (c : SLOConfigRow) : M (option Error) :=
  let* now := nowUTC in
  pexec "registry: upsert_slo_config" (fun _ t =>
    inr (set_slo t (<[SLModelID c := mkSLOConfigRow (SLModelID c) (SLTTFTMs c) (SLTBTMs c) (SLTargetCompliance c) now]>
                      (pt_slo t)))).
End Platform.

(** ** Integrity *)

(** The state that the constraints promise. *)
Record platform_wf (nodes : gmap string Node) (t : PlatformTables) : Prop := {
  wf_org_id : forall id o, pt_orgs t !! id = Some o -> OID o = id;
  wf_org_slug : forall a b o o', pt_orgs t !! a = Some o -> pt_orgs t !! b = Some o' -> OSlug o = OSlug o' -> a = b;
  wf_team_id : forall id x, pt_teams t !! id = Some x -> TID x = id /\ is_Some (pt_orgs t !! TOrgID x);
  wf_team_slug : forall a b x y, pt_teams t !! a = Some x -> pt_teams t !! b = Some y ->
    TOrgID x = TOrgID y -> TSlug x = TSlug y -> a = b;
  wf_user_email : forall a b u v, pt_users t !! a = Some u -> pt_users t !! b = Some v -> UEmail u = UEmail v -> a = b;
  wf_role_id : forall id r, pt_roles t !! id = Some r -> RID r = id;
  wf_role_name : forall a b r s, pt_roles t !! a = Some r -> pt_roles t !! b = Some s ->
    ROrgID r ≠ ""%string -> ROrgID r = ROrgID s -> RName r = RName s -> a = b;
  wf_pool : forall id p, pt_pools t !! id = Some p -> NPID p = id /\ validPolicy (NPPolicy p) = true;
  wf_member : forall n p, pt_poolMembers t !! n = Some p -> is_Some (nodes !! n) /\ is_Some (pt_pools t !! p);
  wf_quota : forall k q, pt_quotas t !! k = Some q -> k = (PQPoolID q, PQTeamID q) /\
    is_Some (pt_pools t !! PQPoolID q) /\ is_Some (pt_teams t !! PQTeamID q) }.

Lemma platform_wf_empty : platform_wf ∅ PlatformTables_empty.
Proof. split; intros *; cbn; rewrite ?lookup_empty; done. Qed.

Lemma taken_false {K A} `{Countable K} (tbl : gmap K A) k same k' a :
  taken tbl k same = false -> tbl !! k' = Some a -> same a = true -> k' = k.
Proof.
  intros Ht Hl Hs. destruct (decide (k' = k)); [done|]. exfalso. apply not_true_iff_false in Ht. apply Ht.
  apply existsb_exists. exists (k', a). split; [by apply list_elem_of_In, elem_of_map_to_list|]. cbn.
  by rewrite bool_decide_false, Hs.
Qed.

(** Reads the value of an updated table at a key. *)
Ltac at_key :=
  match goal with
  | H : <[?k := _]> _ !! ?k' = Some _ |- _ =>
      apply lookup_insert_Some in H as [(? & ?)|(? & H)]; simplify_eq/=
  | H : delete _ _ !! _ = Some _ |- _ => apply lookup_delete_Some in H as (? & H)
  | H : filter _ _ !! _ = Some _ |- _ => apply map_lookup_filter_Some in H as (H & ?); cbn in *
  end.

(** The rest of the tables is as before. *)
Ltac keep H := destruct H; split; cbn; try assumption.

Section Integrity.
Context `{E : Env} (I : gmap string Node -> PlatformTables -> Prop).

Definition holds (w : World) : Prop := I (db_nodes (w_db w)) (db_platform (w_db w)).

(** The call keeps [I], whatever the database answers. *)
Definition keeps {A} (m : M A) : Prop := forall w, holds w -> holds (snd (m w)).

Lemma keeps_ret {A} (a : A) : keeps (cret a).
Proof. by intros w. Qed.

Lemma keeps_bind {A B} (m : M A) (k : A -> M B) : keeps m -> (forall a, keeps (k a)) -> keeps (cbind m k).
Proof. intros Hm Hk w Hw. rewrite cbind_run. by apply Hk, Hm. Qed.

Lemma keeps_next : keeps next.
Proof. by intros w. Qed.

Lemma keeps_now : keeps nowUTC.
Proof. by intros w. Qed.

Lemma keeps_query {A} what (k : Database -> Error + A) : keeps (query what k).
Proof.
  intros w Hw. destruct (query what k w) as [r w'] eqn:H. apply query_spec in H as (H & _). unfold holds in *. cbn.
  by rewrite H.
Qed.

Lemma keeps_pquery {A} what (k : PlatformTables -> Error + A) : keeps (pquery what k).
Proof. apply keeps_query. Qed.

Lemma keeps_exec what k :
  (forall db db', k db = inr db' -> I (db_nodes db) (db_platform db) -> I (db_nodes db') (db_platform db')) ->
  keeps (exec what k).
Proof.
  intros Hk w Hw. destruct (exec what k w) as [r w'] eqn:H. apply exec_spec in H as (_ & H). unfold holds in *. cbn.
  destruct r; [destruct H as [-> _]; done|]. by eapply Hk.
Qed.

Lemma keeps_pexec what k :
  (forall nodes t t', k nodes t = inr t' -> I nodes t -> I nodes t') -> keeps (pexec what k).
Proof.
  intros Hk. apply keeps_exec. intros db db'. destruct (k (db_nodes db) (db_platform db)) eqn:Ek; [done|].
  intros [= <-]. cbn. by apply Hk.
Qed.

Lemma keeps_pexecMust what k :
  (forall nodes t t', k t = inr (Some t') -> I nodes t -> I nodes t') -> keeps (pexecMust what k).
Proof.
  intros Hk. apply keeps_exec. intros db db'. destruct (k (db_platform db)) as [|[t'|]] eqn:Ek; [done| |done].
  intros [= <-]. cbn. by apply Hk.
Qed.
End Integrity.

#[export] Hint Resolve keeps_ret keeps_next keeps_now keeps_query keeps_pquery : purser.

(** Splits a sequence of calls into its statements. *)
Ltac keeps_steps :=
  repeat lazymatch goal with
  | |- keeps _ (cbind _ _) => apply keeps_bind; [|intros ?]
  | |- keeps _ (if _ then _ else _) => case_match
  | |- keeps _ (match _ with _ => _ end) => case_match
  | |- keeps _ (pexec _ _) => apply keeps_pexec; intros nodes t t'
  | |- keeps _ (pexecMust _ _) => apply keeps_pexecMust; intros nodes t t'
  | |- keeps _ (exec _ _) => apply keeps_exec; intros db db'
  | |- keeps _ _ => solve [auto with purser]
  end.

Lemma is_Some_insert {K A} `{Countable K} (m : gmap K A) i x k : is_Some (m !! k) -> is_Some (<[i := x]> m !! k).
Proof. intros H'. destruct (decide (i = k)) as [->|]; [by rewrite lookup_insert_eq|by rewrite lookup_insert_ne]. Qed.

Lemma is_Some_filter {K A} `{Countable K} (P : K * A -> Prop) `{!forall x, Decision (P x)} (m : gmap K A) k a :
  m !! k = Some a -> P (k, a) -> is_Some (filter P m !! k).
Proof. intros H1 H2. exists a. by apply map_lookup_filter_Some. Qed.

Lemma is_Some_delete {K A} `{Countable K} (m : gmap K A) i k : i ≠ k -> is_Some (m !! k) -> is_Some (delete i m !! k).
Proof. intros H1 H2. by rewrite lookup_delete_ne. Qed.

Lemma roleRow_Some t org id r : roleRow t org id = Some r -> pt_roles t !! id = Some r /\ ROrgID r = org.
Proof.
  unfold roleRow. repeat case_match; intros; simplify_eq. split; [done|]. by apply String.eqb_eq.
Qed.

Lemma roleNameTaken_false t id org name id' r :
  roleNameTaken t id org name = false -> pt_roles t !! id' = Some r -> org ≠ ""%string ->
  ROrgID r = org -> RName r = name -> id' = id.
Proof.
  unfold roleNameTaken. intros Ht Hl He Ho Hn. apply andb_false_iff in Ht as [Ht|Ht].
  - by apply negb_false_iff, String.eqb_eq in Ht.
  - eapply taken_false; [exact Ht|exact Hl|]. cbn. by rewrite Ho, Hn, !String.eqb_refl.
Qed.

(** A unique column: the new value is no other row's. *)
Ltac unique :=
  match goal with
  | Ht : roleNameTaken _ _ _ _ = false |- ?a = ?b =>
      first [ eapply (roleNameTaken_false _ _ _ _ a _ Ht) | symmetry; eapply (roleNameTaken_false _ _ _ _ b _ Ht) ];
      [ eassumption | congruence.. ]
  | Ht : taken _ _ _ = false |- ?a = ?b =>
      first [ eapply (taken_false _ _ _ a _ Ht) | symmetry; eapply (taken_false _ _ _ b _ Ht) ];
      [ eassumption | cbn; rewrite ?andb_true_iff, ?String.eqb_eq; intuition congruence ]
  end.

(** Looks up the updated tables and closes what the unchanged ones give. *)
Ltac table_facts :=
  repeat match goal with
  | W : forall _ _, ?tbl !! _ = Some _ -> _ /\ _, H : ?tbl !! _ = Some _ |- _ =>
      let Hf := fresh "Hf" in pose proof (W _ _ H) as Hf; clear H; destruct_and! Hf; simplify_eq/=
  end.

Ltac table_goal :=
  repeat match goal with |- _ /\ _ => split end;
  try solve [ done | by apply negb_false_iff | eauto using is_Some_insert, is_Some_delete, is_Some_filter | unique ].

Ltac tables := intros; repeat at_key; simplify_eq/=; try solve [ eauto | unique ]; table_facts; table_goal.

Lemma no_member (l : gmap string string) p n :
  existsb (fun kv => (snd kv =? p)%string) (map_to_list l) = false -> l !! n = Some p -> False.
Proof.
  intros He Hl. apply not_true_iff_false in He. apply He, existsb_exists. exists (n, p).
  split; [by apply list_elem_of_In, elem_of_map_to_list|apply String.eqb_refl].
Qed.

Section IntegrityOps.
Context `{E : Env}.

Ltac statement :=
  keeps_steps; cbv zeta; repeat case_match; try discriminate; intros [= <-] Hw;
  repeat match goal with H : roleRow _ _ _ = Some _ |- _ => apply roleRow_Some in H as (? & ?) end;
  keep Hw; tables.

Lemma keeps_CreateOrganization o : keeps platform_wf (CreateOrganization o).
Proof.
  unfold CreateOrganization. statement.
Qed.

Lemma keeps_UpdateOrganization o : keeps platform_wf (UpdateOrganization o).
Proof.
  unfold UpdateOrganization. statement.
Qed.

Lemma keeps_DeleteOrganization o : keeps platform_wf (DeleteOrganization o).
Proof.
  unfold DeleteOrganization. statement.
Qed.

Lemma keeps_CreateTeam o : keeps platform_wf (CreateTeam o).
Proof.
  unfold CreateTeam. statement.
Qed.

Lemma keeps_UpdateTeam o : keeps platform_wf (UpdateTeam o).
Proof.
  unfold UpdateTeam. statement.
Qed.

Lemma keeps_DeleteTeam o : keeps platform_wf (DeleteTeam o).
Proof.
  unfold DeleteTeam. statement.
Qed.

Lemma keeps_UpsertPlatformUser u : keeps platform_wf (UpsertPlatformUser u).
Proof.
  unfold UpsertPlatformUser. statement.
Qed.

Lemma keeps_UpdatePlatformUserLastSeen u a : keeps platform_wf (UpdatePlatformUserLastSeen u a).
Proof.
  unfold UpdatePlatformUserLastSeen. statement.
Qed.
Lemma keeps_AddOrgMember m : keeps platform_wf (AddOrgMember m).
Proof.
  unfold AddOrgMember. statement.
Qed.

Lemma keeps_RemoveOrgMember o u : keeps platform_wf (RemoveOrgMember o u).
Proof.
  unfold RemoveOrgMember. statement.
Qed.

Lemma keeps_UpsertOrgMember m : keeps platform_wf (UpsertOrgMember m).
Proof.
  unfold UpsertOrgMember. statement.
Qed.

Lemma keeps_writeTeamMember what m : keeps platform_wf (writeTeamMember what m).
Proof.
  unfold writeTeamMember. statement.
Qed.

Lemma keeps_AddTeamMember m : keeps platform_wf (AddTeamMember m).
Proof. apply keeps_writeTeamMember. Qed.

Lemma keeps_UpsertTeamMember m : keeps platform_wf (UpsertTeamMember m).
Proof. apply keeps_writeTeamMember. Qed.

Lemma keeps_RemoveTeamMember x u : keeps platform_wf (RemoveTeamMember x u).
Proof.
  unfold RemoveTeamMember. statement.
Qed.

Lemma keeps_CreateCustomRole r : keeps platform_wf (CreateCustomRole r).
Proof.
  unfold CreateCustomRole. statement.
Qed.

Lemma keeps_UpdateCustomRole r : keeps platform_wf (UpdateCustomRole r).
Proof.
  unfold UpdateCustomRole. statement.
Qed.

Lemma keeps_CreateNodePool p : keeps platform_wf (CreateNodePool p).
Proof.
  unfold CreateNodePool. statement.
Qed.

Lemma keeps_UpdateNodePool p : keeps platform_wf (UpdateNodePool p).
Proof.
  unfold UpdateNodePool. statement.
Qed.

Lemma keeps_DeleteNodePool id : keeps platform_wf (DeleteNodePool id).
Proof.
  unfold DeleteNodePool. keeps_steps. repeat case_match; try discriminate. intros [= <-] Hw.
  keep Hw; try solve [tables]. intros m p Hm. destruct (wf_member0 _ _ Hm). split; [done|].
  apply is_Some_delete; [|done]. intros ->. eapply no_member; eassumption.
Qed.

Lemma keeps_AddNodeToPool n p : keeps platform_wf (AddNodeToPool n p).
Proof.
  unfold AddNodeToPool. statement.
Qed.

Lemma keeps_RemoveNodeFromPool n : keeps platform_wf (RemoveNodeFromPool n).
Proof.
  unfold RemoveNodeFromPool. statement.
Qed.

Lemma keeps_UpsertPoolTeamQuota q : keeps platform_wf (UpsertPoolTeamQuota q).
Proof.
  unfold UpsertPoolTeamQuota. statement.
Qed.

Lemma keeps_DeletePoolTeamQuota p x : keeps platform_wf (DeletePoolTeamQuota p x).
Proof.
  unfold DeletePoolTeamQuota. statement.
Qed.

Lemma keeps_UpsertSLOConfig c : keeps platform_wf (UpsertSLOConfig c).
Proof.
  unfold UpsertSLOConfig. statement.
Qed.

Lemma DeleteCustomRole_keeps I o r :
  (forall nodes t row, roleRow t o r = Some row -> RIsSystem row = false ->
     I nodes t -> I nodes (set_roles t (delete r (pt_roles t)))) ->
  keeps I (DeleteCustomRole o r).
Proof.
  intros HI. unfold DeleteCustomRole. apply keeps_bind; [|intros ?; keeps_steps].
  intros w Hw. unfold cbind, next, get_db, put_db, cret. cbn.
  destruct (env_db (w_tick w)); [done|]. destruct (roleRow _ _ _) as [row|] eqn:Er; [|done].
  destruct (RIsSystem row) eqn:Es; [done|]. by apply (HI _ _ row).
Qed.

Lemma keeps_DeleteCustomRole o r : keeps platform_wf (DeleteCustomRole o r).
Proof. apply DeleteCustomRole_keeps. intros nodes t row _ _ Hw. keep Hw; tables. Qed.

Lemma keeps_seedRoles now l : keeps platform_wf (seedRoles now l).
Proof. induction l as [|b l IH]; cbn [seedRoles]; statement. Qed.

Lemma keeps_CreateNode n : keeps platform_wf (CreateNode n).
Proof.
  unfold CreateNode, insertRow. keeps_steps; cbv zeta; repeat case_match; try discriminate;
    intros [= <-] Hw; cbn; keep Hw; tables.
Qed.

Lemma keeps_UpdateNode n : keeps platform_wf (UpdateNode n).
Proof.
  unfold UpdateNode, updateRow. keeps_steps; cbv zeta; repeat case_match; try discriminate;
    intros [= <-] Hw; cbn; keep Hw; tables.
Qed.

Lemma keeps_DeleteNode n : keeps platform_wf (DeleteNode n).
Proof.
  unfold DeleteNode, deleteRow. keeps_steps; cbv zeta; repeat case_match; try discriminate;
    intros [= <-] Hw; cbn; keep Hw; tables.
Qed.
End IntegrityOps.

(** ** Every sequence of operations *)

(** The operations that change the tables. *)
Inductive PlatformOp : Type :=
| OpCreateOrganization (o : Organization) | OpUpdateOrganization (o : Organization) | OpDeleteOrganization (id : string)
| OpCreateTeam (x : Team) | OpUpdateTeam (x : Team) | OpDeleteTeam (id : string)
| OpUpsertUser (u : PlatformUser) | OpUserSeen (id : string) (at_ : Time)
| OpAddOrgMember (m : OrgMember) | OpRemoveOrgMember (orgID userID : string) | OpUpsertOrgMember (m : OrgMember)
| OpUpsertTeamMember (m : TeamMember) | OpRemoveTeamMember (teamID userID : string)
| OpCreateRole (r : CustomRole) | OpUpdateRole (r : CustomRole) | OpDeleteRole (orgID roleID : string) | OpSeedRoles
| OpCreatePool (p : NodePool) | OpUpdatePool (p : NodePool) | OpDeletePool (id : string)
| OpAddNode (nodeID poolID : string) | OpRemoveNode (nodeID : string)
| OpUpsertQuota (q : PoolTeamQuota) | OpDeleteQuota (poolID teamID : string) | OpUpsertSLO (c : SLOConfigRow)
| OpCreateNode (n : Node) | OpUpdateNode (n : Node) | OpDeleteNode (id : string).

Section Sequences.
Context `{E : Env}.

Definition perform (op : PlatformOp) : M (option Error) :=
  match op with
  | OpCreateOrganization o => CreateOrganization o | OpUpdateOrganization o => UpdateOrganization o
  | OpDeleteOrganization id => DeleteOrganization id
  | OpCreateTeam x => CreateTeam x | OpUpdateTeam x => UpdateTeam x | OpDeleteTeam id => DeleteTeam id
  | OpUpsertUser u => UpsertPlatformUser u | OpUserSeen id t => UpdatePlatformUserLastSeen id t
  | OpAddOrgMember m => AddOrgMember m | OpRemoveOrgMember o u => RemoveOrgMember o u
  | OpUpsertOrgMember m => UpsertOrgMember m | OpUpsertTeamMember m => UpsertTeamMember m
  | OpRemoveTeamMember t u => RemoveTeamMember t u
  | OpCreateRole r => CreateCustomRole r | OpUpdateRole r => UpdateCustomRole r
  | OpDeleteRole o r => DeleteCustomRole o r | OpSeedRoles => SeedSystemRoles
  | OpCreatePool p => CreateNodePool p | OpUpdatePool p => UpdateNodePool p | OpDeletePool id => DeleteNodePool id
  | OpAddNode n p => AddNodeToPool n p | OpRemoveNode n => RemoveNodeFromPool n
  | OpUpsertQuota q => UpsertPoolTeamQuota q | OpDeleteQuota p t => DeletePoolTeamQuota p t
  | OpUpsertSLO c => UpsertSLOConfig c
  | OpCreateNode n => CreateNode n | OpUpdateNode n => UpdateNode n | OpDeleteNode id => DeleteNode id
  end.

(** The results of the operations, in order. *)
Fixpoint performAll (ops : list PlatformOp) : M (list (option Error)) :=
  match ops with
  | [] => cret []
  | op :: ops => let* e := perform op in let* es := performAll ops in cret (e :: es)
  end.

Lemma keeps_performAll I ops : (forall op, keeps I (perform op)) -> keeps I (performAll ops).
Proof.
  intros Hop. induction ops as [|op ops IH]; cbn [performAll]; [apply keeps_ret|].
  apply keeps_bind; [apply Hop|]. intros e. apply keeps_bind; [exact IH|]. intros es. apply keeps_ret.
Qed.

Lemma keeps_perform op : keeps platform_wf (perform op).
Proof.
  destruct op; cbn [perform];
    auto using keeps_CreateOrganization, keeps_UpdateOrganization, keeps_DeleteOrganization, keeps_CreateTeam,
      keeps_UpdateTeam, keeps_DeleteTeam, keeps_UpsertPlatformUser, keeps_UpdatePlatformUserLastSeen,
      keeps_AddOrgMember, keeps_RemoveOrgMember, keeps_UpsertOrgMember, keeps_UpsertTeamMember, keeps_RemoveTeamMember,
      keeps_CreateCustomRole, keeps_UpdateCustomRole, keeps_DeleteCustomRole, keeps_CreateNodePool,
      keeps_UpdateNodePool, keeps_DeleteNodePool, keeps_AddNodeToPool, keeps_RemoveNodeFromPool,
      keeps_UpsertPoolTeamQuota, keeps_DeletePoolTeamQuota, keeps_UpsertSLOConfig, keeps_CreateNode, keeps_UpdateNode,
      keeps_DeleteNode.
  unfold SeedSystemRoles. apply keeps_bind; [apply keeps_now|]. intros. apply keeps_seedRoles.
Qed.

(** Referential integrity: whatever sequence of operations runs on the tenancy tables and
    whatever calls the database refuses in between, the slugs of organisations and the
    emails stay unique, and so do the slugs of the teams of one organisation and the names
    of the roles of one organisation; every team has its organisation, every pool member
    its node and its pool, every quota its pool and its team, and pools one of the two
    policies. *)
Theorem platform_integrity ops w :
  holds platform_wf w -> holds platform_wf (snd (performAll ops w)).
Proof. apply keeps_performAll, keeps_perform. Qed.

(** *** Built-in roles *)

Definition systemRole (id org : string) (nodes : gmap string Node) (t : PlatformTables) : Prop :=
  exists r, pt_roles t !! id = Some r /\ RIsSystem r = true /\ ROrgID r = org.

Lemma systemRole_roles id org nodes nodes' t t' :
  pt_roles t' = pt_roles t -> systemRole id org nodes t -> systemRole id org nodes' t'.
Proof. unfold systemRole. by intros ->. Qed.

Lemma systemRole_insert id org nodes t k r :
  (forall r0, pt_roles t !! k = Some r0 -> RIsSystem r = RIsSystem r0 /\ ROrgID r = ROrgID r0) ->
  systemRole id org nodes t -> systemRole id org nodes (set_roles t (<[k := r]> (pt_roles t))).
Proof.
  intros Hk (r0 & H1 & H2 & H3). unfold systemRole. cbn. destruct (decide (k = id)) as [->|].
  - exists r. rewrite lookup_insert_eq. destruct (Hk _ H1). split; [done|]. split; congruence.
  - exists r0. by rewrite lookup_insert_ne.
Qed.

Lemma systemRole_delete id org nodes t k r :
  pt_roles t !! k = Some r -> RIsSystem r = false ->
  systemRole id org nodes t -> systemRole id org nodes (set_roles t (delete k (pt_roles t))).
Proof.
  intros H1 H2 (r0 & H3 & H4 & H5). exists r0. cbn. rewrite lookup_delete_ne; [done|]. intros ->. congruence.
Qed.

Lemma systemRole_seedRoles id org now l : keeps (systemRole id org) (seedRoles now l).
Proof.
  induction l as [|b l IH]; cbn [seedRoles]; keeps_steps.
  case_match; intros [= <-]; [done|]. apply systemRole_insert. congruence.
Qed.

Ltac unfold_op :=
  unfold CreateOrganization, UpdateOrganization, DeleteOrganization, CreateTeam, UpdateTeam, DeleteTeam,
    UpsertPlatformUser, UpdatePlatformUserLastSeen, AddOrgMember, RemoveOrgMember, UpsertOrgMember, UpsertTeamMember, writeTeamMember,
    RemoveTeamMember, CreateCustomRole, UpdateCustomRole, CreateNodePool, UpdateNodePool, DeleteNodePool, AddNodeToPool,
    RemoveNodeFromPool, UpsertPoolTeamQuota, DeletePoolTeamQuota, UpsertSLOConfig, CreateNode, UpdateNode, DeleteNode.

Lemma systemRole_perform id org op : keeps (systemRole id org) (perform op).
Proof.
  destruct op; cbn [perform].
  all: try (unfold_op; unfold insertRow, updateRow, deleteRow;
            keeps_steps; cbv zeta; repeat case_match; try discriminate;
            intros [= <-]; try done; cbn; by apply systemRole_roles).
  - unfold CreateCustomRole. keeps_steps; cbv zeta; repeat case_match; try discriminate; intros [= <-]; cbn;
      apply systemRole_insert; congruence.
  - unfold UpdateCustomRole. keeps_steps; cbv zeta; repeat case_match; try discriminate; intros [= <-]; cbn.
    apply systemRole_insert. intros r0 Hr0. destruct (roleRow_Some _ _ _ _ H). cbn. split; congruence.
  - apply DeleteCustomRole_keeps. intros nodes t row Hr Hs. apply (systemRole_delete _ _ _ _ _ row); [|done].
    by apply roleRow_Some in Hr as [].
  - unfold SeedSystemRoles. apply keeps_bind; [apply keeps_now|]. intros. apply systemRole_seedRoles.
Qed.

(** Built-in roles are never lost: no sequence of operations deletes a system
    role, turns it into an ordinary role or moves it to an organisation. *)
Theorem system_role_kept ops id org w :
  holds (systemRole id org) w -> holds (systemRole id org) (snd (performAll ops w)).
Proof. apply keeps_performAll, systemRole_perform. Qed.

(** With a healthy database seeding stores every built-in role that is missing and
    leaves the stored ones as they are. *)
Lemma seedRoles_run `{!HealthyDB E} now l w :
  exists w', seedRoles now l w = (None, w') /\
    forall id, pt_roles (db_platform (w_db w')) !! id =
      match pt_roles (db_platform (w_db w)) !! id with
      | Some r => Some r
      | None => match List.find (fun b => R_ID b =? id)%string l with
                | Some b => Some (mkCustomRole (R_ID b) "" (R_Name b) "" (R_Permissions b) true now now)
                | None => None
                end
      end.
Proof.
  revert w. induction l as [|b l IH]; intros w; cbn [seedRoles].
  { exists w. split; [done|]. intros id. by destruct (_ !! _). }
  rewrite cbind_run. unfold pexec, exec, cbind, next, get_db, put_db, cret. cbn. rewrite env_db_healthy. cbn.
  set (w1 := mkWorld _ _ _ _). destruct (IH w1) as (w' & Hrun & Hl). exists w'. split; [exact Hrun|]. intros id.
  rewrite Hl. subst w1. cbn. destruct (pt_roles (db_platform (w_db w)) !! R_ID b) as [r|] eqn:Eb; cbn.
  - destruct (R_ID b =? id)%string eqn:Ei; [|done]. apply String.eqb_eq in Ei as <-. by rewrite Eb.
  - destruct (R_ID b =? id)%string eqn:Ei.
    + apply String.eqb_eq in Ei as <-. by rewrite lookup_insert_eq, Eb.
    + apply String.eqb_neq in Ei. by rewrite lookup_insert_ne.
Qed.
End Sequences.

(** ** Node isolation *)

(** The pool policy: a node of an exclusive pool is for the owning team alone, a node
    of a shared pool for the teams with a quota. *)
Definition node_allowed (t : PlatformTables) (team node : string) : Prop :=
  exists pid p, pt_poolMembers t !! node = Some pid /\ pt_pools t !! pid = Some p /\
    ((NPPolicy p = "exclusive"%string /\ NPOwnerType p = "team"%string /\ NPOwnerID p = team) \/
     (NPPolicy p = "shared"%string /\ is_Some (pt_quotas t !! (NPID p, team)))).

Lemma members_filter (l : gmap string string) (f : string -> bool) n :
  n ∈ map fst (List.filter (fun kv => f (snd kv)) (map_to_list l)) <-> exists p, l !! n = Some p /\ f p = true.
Proof.
  rewrite list_elem_of_In, in_map_iff. setoid_rewrite filter_In. setoid_rewrite <- list_elem_of_In. split.
  - intros ([n' p] & <- & Hm & Hf). exists p. by apply elem_of_map_to_list in Hm.
  - intros (p & Hl & Hf). exists (n, p). by rewrite elem_of_map_to_list.
Qed.

Lemma exclusiveNodes_spec t team n :
  n ∈ exclusiveNodes t team <->
  exists pid p, pt_poolMembers t !! n = Some pid /\ pt_pools t !! pid = Some p /\
    NPPolicy p = "exclusive"%string /\ NPOwnerType p = "team"%string /\ NPOwnerID p = team.
Proof.
  unfold exclusiveNodes.
  rewrite (members_filter _ (fun pid => match pt_pools t !! pid with Some p => _ | None => false end)). split.
  - intros (pid & Hl & Hp). exists pid. destruct (pt_pools t !! pid) as [p|]; [|done]. exists p.
    rewrite !andb_true_iff, !String.eqb_eq in Hp. naive_solver.
  - intros (pid & p & Hl & Hp & H1 & H2 & H3). exists pid. rewrite Hp, !andb_true_iff, !String.eqb_eq. naive_solver.
Qed.

Lemma sharedNodes_spec t team n :
  n ∈ sharedNodes t team <->
  exists pid p, pt_poolMembers t !! n = Some pid /\ pt_pools t !! pid = Some p /\
    NPPolicy p = "shared"%string /\ is_Some (pt_quotas t !! (NPID p, team)).
Proof.
  unfold sharedNodes.
  rewrite (members_filter _ (fun pid => match pt_pools t !! pid with Some p => _ | None => false end)). split.
  - intros (pid & Hl & Hp). exists pid. destruct (pt_pools t !! pid) as [p|]; [|done]. exists p.
    rewrite andb_true_iff, String.eqb_eq, bool_decide_eq_true in Hp. naive_solver.
  - intros (pid & p & Hl & Hp & H1 & H2). exists pid. rewrite Hp, andb_true_iff, String.eqb_eq, bool_decide_eq_true. naive_solver.
Qed.

Lemma collect_spec a b ids :
  snd (fold_left collect b (fold_left collect a (∅, []))) = ids ->
  NoDup ids /\ forall x, x ∈ ids <-> x ∈ a \/ x ∈ b.
Proof.
  intros <-. destruct (fold_left collect a (∅, [])) as [s1 r1] eqn:E1. destruct (fold_left collect b (s1, r1)) as [s2 r2] eqn:E2.
  apply mergeSet_spec in E1 as (A1 & A2 & A3);
    [|intros x; by rewrite elem_of_empty, elem_of_nil|apply NoDup_nil_2].
  apply mergeSet_spec in E2 as (B1 & B2 & B3); [|done..]. split; [done|]. intros x. cbn. rewrite B3, A3, elem_of_nil.
  naive_solver.
Qed.

Section Isolation.
Context `{E : Env} `{!EnvLaws E}.

Lemma GetAllowedNodeIDs_run team w r w' :
  GetAllowedNodeIDs team w = (r, w') ->
  w_db w' = w_db w /\ outside_same w w' /\
  match r with
  | inr ids => NoDup ids /\ forall n, n ∈ ids <-> node_allowed (db_platform (w_db w)) team n
  | inl _ => HealthyDB E -> False
  end.
Proof.
  unfold GetAllowedNodeIDs. intros H. run_step H. injection Hrun as <- <-. run_step H.
  apply query_spec in Hrun as (Hd1 & Ho1 & Hr1). cbn in Hd1, Hr1.
  destruct r0 as [e|own].
  { injection H as <- <-. split_and!; [done|done|]. intros [Hh]. by rewrite Hh in Hr1. }
  run_step H. injection Hrun as <- <-. run_step H. apply query_spec in Hrun as (Hd2 & Ho2 & Hr2). cbn in Hd2, Hr2.
  destruct r0 as [e'|shared].
  { injection H as <- <-. split_and!; [congruence|by etrans|]. intros [Hh]. by rewrite Hh in Hr2. }
  injection H as <- <-. split; [congruence|]. split; [by etrans|].
  destruct (env_db _) in Hr1; [done|]. destruct (env_db _) in Hr2; [done|]. injection Hr1 as ->. injection Hr2 as ->.
  edestruct collect_spec as [Hn Hi]; [reflexivity|]. split; [exact Hn|].
  intros n. rewrite Hd1 in Hi |- *. rewrite Hi, !env_order_perm, exclusiveNodes_spec, sharedNodes_spec. unfold node_allowed. naive_solver.
Qed.

(** Node isolation: the nodes a team may use are, without repetition, exactly
    the members of its own exclusive pools and of the shared pools in which it has a
    quota; in particular a node of an exclusive pool is given to one team at most. *)
Theorem GetAllowedNodeIDs_exact team w ids w' :
  GetAllowedNodeIDs team w = (inr ids, w') ->
  NoDup ids /\ (forall n, n ∈ ids <-> node_allowed (db_platform (w_db w)) team n) /\
  (forall n pid p, n ∈ ids -> pt_poolMembers (db_platform (w_db w)) !! n = Some pid ->
     pt_pools (db_platform (w_db w)) !! pid = Some p -> NPPolicy p = "exclusive"%string -> NPOwnerID p = team).
Proof.
  intros (_ & _ & Hn & Hspec)%GetAllowedNodeIDs_run. split_and!; [done|done|]. intros n pid p Hn' Hm Hp Hx.
  apply Hspec in Hn' as (pid' & p' & ? & ? & [?|[? ?]]); naive_solver congruence.
Qed.
End Isolation.

(** ** A concrete tenancy *)

Section Witnesses.
#[local] Existing Instance calmEnv.
Local Open Scope string_scope.

Definition exOrg : Organization := mkOrganization "o1" "Acme" "acme" "" 0 0.
Definition exTeam (id slug : string) : Team := mkTeam id "o1" slug slug "" 0 0.
Definition exPool (id owner policy : string) : NodePool := mkNodePool id id "" "team" owner policy 0 0.
Definition exNode (id : string) : Node := mkNode id "h" "linux" "amd64" f0 f0 "READY" "" "" 0 "" 0 0.

(** The second organisation has the slug of the first, and the last pool a member
    that does not exist. *)
Definition exOps : list PlatformOp :=
  [ OpSeedRoles; OpCreateOrganization exOrg; OpCreateOrganization (mkOrganization "o2" "Acme" "acme" "" 0 0);
    OpCreateTeam (exTeam "t1" "ml"); OpCreateTeam (exTeam "t2" "web");
    OpCreateNode (exNode "n1"); OpCreateNode (exNode "n2");
    OpCreatePool (exPool "p1" "t1" "exclusive"); OpCreatePool (exPool "p2" "t1" "shared");
    OpAddNode "n1" "p1"; OpAddNode "n2" "p2"; OpAddNode "n3" "p2";
    OpUpsertQuota (mkPoolTeamQuota "p2" "t2" 1 1 0 0 0); OpDeleteRole "" "viewer" ].

Definition exWorld : World := snd (performAll exOps emptyWorld).

Lemma platform_integrity_witness :
  fst (performAll exOps emptyWorld) =
    [None; None; Some (Wrap "registry: create organization" ErrUnique); None; None; None; None; None; None; None; None;
     Some (Wrap "registry: add node to pool" ForeignKeyFailed); None;
     Some (ErrorString "registry: delete custom role: cannot delete system role")] /\
  holds platform_wf exWorld.
Proof. split; [vm_compute; reflexivity|]. apply platform_integrity. apply platform_wf_empty. Defined.

Lemma system_role_kept_witness :
  holds (systemRole "viewer" "") (snd (performAll [OpDeleteRole "" "viewer"; OpDeleteOrganization "o1"] exWorld)).
Proof.
  apply system_role_kept. eexists. split; [vm_compute; reflexivity|]. split; reflexivity.
Defined.

Lemma GetAllowedNodeIDs_exact_witness :
  fst (GetAllowedNodeIDs "t1" exWorld) = inr ["n1"] /\ fst (GetAllowedNodeIDs "t2" exWorld) = inr ["n2"] /\
  (forall n, n ∈ ["n1"] <-> node_allowed (db_platform (w_db exWorld)) "t1" n).
Proof.
  split; [vm_compute; reflexivity|]. split; [vm_compute; reflexivity|].
  apply (GetAllowedNodeIDs_exact "t1" exWorld _ (snd (GetAllowedNodeIDs "t1" exWorld))). vm_compute. reflexivity.
Defined.
End Witnesses.
