(* ===== verification/Pki.v ===== *)
(** * Pki: the internal certificate authority

    [go/controlplane/pki]: the authority of [ca.go], which generates or loads a root,
    issues, revokes and verifies leaf certificates and rotates the root with a grace
    period, and the envelope of [crypto.go] for the key on disk.

    A certificate is the record of what its DER text says, with the key that signed
    it; what [crypto/x509] does with it, [CreateCertificate] and [Verify], is written
    out for the fields the authority sets. Encodings, random numbers and ciphers are
    parameters; every call that reads entropy, signs or touches a file may fail. The
    fields of the authority are passed and returned, also when an error is: its
    callers keep the object. The lock is not visible, each operation being one step. *)
From stdpp Require Import pretty.
From S2P Require Import Prelude Float64 Cluster Registry.
Import Row.
Open Scope Z_scope.

(** ** Certificates *)

Inductive ExtKeyUsage : Set := ExtKeyUsageClientAuth | ExtKeyUsageServerAuth.

#[global] Instance ExtKeyUsage_eq_dec : EqDecision ExtKeyUsage.
Proof. solve_decision. Defined.

(** The subject is the common name and the organisational unit; [X_PublicKey] names
    the key pair, [X_SignedBy] the key pair that signed. [X_MaxPathLen] is negative
    when there is no limit. *)
Record Certificate : Type := mkCertificate {
  X_Serial : Z; X_CommonName : string; X_OU : string; X_NotBefore : Time; X_NotAfter : Time;
  X_IsCA : bool; X_MaxPathLen : Z; X_CertSign : bool; X_ExtKeyUsage : list ExtKeyUsage; X_DNSNames : list string;
  X_CRL : list string; X_PublicKey : string; X_Issuer : string * string; X_SignedBy : string }.

#[global] Instance Certificate_eq_dec : EqDecision Certificate.
Proof. solve_decision. Defined.

Definition X_Subject (c : Certificate) : string * string := (X_CommonName c, X_OU c).

(** [SerialNumber.String()]. *)
Definition serialText (n : Z) : string := pretty n.

(** DER times have whole seconds. *)
Definition truncSecond (t : Time) : Time := t / Second * Second.

(** A template, without the issuer and the keys. *)
Record Template : Type := mkTemplate {
  TP_Serial : Z; TP_CommonName : string; TP_OU : string; TP_NotBefore : Time; TP_NotAfter : Time; TP_IsCA : bool;
  TP_MaxPathLen : Z; TP_CertSign : bool; TP_ExtKeyUsage : list ExtKeyUsage; TP_DNSNames : list string; TP_CRL : list string }.

Definition TP_Subject (x : Template) : string * string := (TP_CommonName x, TP_OU x).

Definition fromTemplate (x : Template) (issuer : string * string) (pub priv : string) : Certificate :=
  mkCertificate (TP_Serial x) (TP_CommonName x) (TP_OU x) (truncSecond (TP_NotBefore x)) (truncSecond (TP_NotAfter x))
    (TP_IsCA x) (TP_MaxPathLen x) (TP_CertSign x) (TP_ExtKeyUsage x) (TP_DNSNames x) (TP_CRL x) pub issuer priv.

Class PkiEnv : Type := {
  pk_fault : nat -> option Error;
  (** [n] random bytes. *)
  pk_bytes : nat -> nat -> string;
  (** [rand.Int] below [2 ^ 128]. *)
  pk_int : nat -> Z;
  (** A fresh key pair. *)
  pk_key : nat -> string;
  (** What [CreateCertificate] can write as DER: names that are UTF-8, DNS names in
      ASCII, years of four digits. *)
  x509_encodable : Template -> bool;
  encodeCert : Certificate -> string;
  decodeCert : string -> option Certificate;
  encodeKey : string -> string;
  decodeKey : string -> option string;
  argon2IDKey : string -> string -> string;
  gcmSeal : string -> string -> string -> string;
  gcmOpen : string -> string -> string -> option string }.

(** What the documentation of those packages promises. *)
Class PkiLaws (P : PkiEnv) : Prop := {
  decode_encodeCert : forall x issuer pub priv, x509_encodable x = true ->
    decodeCert (encodeCert (fromTemplate x issuer pub priv)) = Some (fromTemplate x issuer pub priv);
  decode_encodeKey : forall k, decodeKey (encodeKey k) = Some k;
  encodeKey_pem : forall k, String.substring 0 4 (encodeKey k) = "----"%string;
  pk_bytes_length : forall t n, String.length (pk_bytes t n) = n;
  gcm_open_seal : forall k n pt, gcmOpen k n (gcmSeal k n pt) = Some pt }.

(** ** Constants *)

Definition RoleCA : string := "ca".
Definition RoleAgent : string := "agent".
Definition RoleGateway : string := "gateway".
Definition StateIssued : string := "issued".
Definition StateRevoked : string := "revoked".
Definition StateRotated : string := "rotated".
Definition Hour : Duration := 3600 * Second.
Definition DefaultCATTL : Duration := 10 * 365 * 24 * Hour.
Definition DefaultLeafTTL : Duration := 90 * 24 * Hour.
Definition RotationGracePeriod : Duration := 72 * Hour.
Definition crlDistributionPoint : string := "http://control-plane.purser.internal/pki/crl.pem".

(** ** Requests and the authority *)

(** No caller sets [IPAddresses], which is left out. *)
Record CertRequest : Type := mkCertRequest {
  CQ_CommonName : string; CQ_Role : string; CQ_DNSNames : list string; CQ_TTL : Duration }.

Record IssuedCert : Type := mkIssuedCert {
  IC_Serial : string; IC_CertPEM : string; IC_KeyPEM : string; IC_NotBefore : Time; IC_NotAfter : Time }.

Record Options : Type := mkOptions { CommonName : string; Dir : string; CATTL : Duration; LeafTTL : Duration }.

Record Authority : Type := mkAuthority {
  a_leafTTL : Duration;
  a_activeCert : option Certificate; a_activeKey : option string; a_activePEM : string;
  a_oldCert : option Certificate; a_oldExpiry : Time;
  a_rootCert : option Certificate;
  a_dir : string; a_caTTL : Duration; a_caName : string }.

Definition with_active (a : Authority) (c : Certificate) (key pem : string) : Authority :=
  mkAuthority (a_leafTTL a) (Some c) (Some key) pem (a_oldCert a) (a_oldExpiry a) (a_rootCert a) (a_dir a) (a_caTTL a)
    (a_caName a).

Definition with_old (a : Authority) (c : option Certificate) (expiry : Time) : Authority :=
  mkAuthority (a_leafTTL a) (a_activeCert a) (a_activeKey a) (a_activePEM a) c expiry (a_rootCert a) (a_dir a) (a_caTTL a)
    (a_caName a).

(** The files [ca.crt] and [ca.key] of the directory, and
    [PURSER_PKI_KEY_PASSPHRASE]. *)
Record Host : Type := mkHost { h_crt : option string; h_key : option string; h_passphrase : string }.

(** A call whose failure is returned. *)
Definition ebind {A B} (m : M (Error + A)) (k : A -> M (Error + B)) : M (Error + B) :=
  let* r := m in match r with inl e => cret (inl e) | inr a => k a end.

Notation "'let!' x ':=' m 'in' k" := (ebind m (fun x => k))
  (at level 200, x pattern, m at level 100, k at level 200) : cluster_scope.

Section Pki.
Context `{E : Env} `{P : PkiEnv}.

(** A call to the cryptographic packages or the file system. *)
Definition attempt {A} (what : string) (result : nat -> A) : M (Error + A) :=
  let* t := next in
  cret (match pk_fault t with Some e => inl (Wrap what e) | None => inr (result t) end).

(** ** The key on disk ([crypto.go]) *)

Definition purkMagic : string := "PURK".

Definition encryptKeyPEM (keyPEM passphrase : string) : M (Error + string) :=
  if (passphrase =? "")%string then cret (inr keyPEM)
  else
    let! salt := attempt "pki: generate salt" (fun t => pk_bytes t 16) in
    let dk := argon2IDKey passphrase salt in
    let! nonce := attempt "pki: generate nonce" (fun t => pk_bytes t 12) in
    cret (inr (purkMagic +:+ salt +:+ nonce +:+ gcmSeal dk nonce keyPEM)).

Definition decryptKeyPEM (data passphrase : string) : Error + string :=
  if negb (String.substring 0 4 data =? purkMagic)%string then inr data
  else if (passphrase =? "")%string then inl (ErrorString "pki: key is encrypted but PURSER_PKI_KEY_PASSPHRASE is not set")
  else if (String.length data <? 20)%nat then inl (ErrorString "pki: encrypted key too short")
  else
    let salt := String.substring 4 16 data in
    let rest := String.substring 20 (String.length data - 20) data in
    if (String.length rest <? 12)%nat then inl (ErrorString "pki: invalid encrypted key format")
    else
      match gcmOpen (argon2IDKey passphrase salt) (String.substring 0 12 rest)
              (String.substring 12 (String.length rest - 12) rest) with
      | None => inl (ErrorString "pki: decrypt key")
      | Some plaintext => inr plaintext
      end.

(** ** [crypto/x509] *)

(** [CreateCertificate] refuses a template it cannot encode and a private key that is not
    the parent's; [None] is the template as its own parent. *)
Definition CreateCertificate (what : string) (x : Template) (parent : option Certificate) (pub priv : string)
    : M (Error + Certificate) :=
  if negb (x509_encodable x) then cret (inl (Wrap what (ErrorString "x509: cannot encode the template")))
  else match parent with
  | None => attempt what (fun _ => fromTemplate x (TP_Subject x) pub priv)
  | Some c =>
      if (X_PublicKey c =? priv)%string then attempt what (fun _ => fromTemplate x (X_Subject c) pub priv)
      else cret (inl (Wrap what (ErrorString "x509: provided PrivateKey doesn't match parent's PublicKey")))
  end.

Definition validAt (now : Time) (c : Certificate) : bool := (X_NotBefore c <=? now) && (now <=? X_NotAfter c).

(** [root] may have signed [leaf]. *)
Definition signs (now : Time) (leaf root : Certificate) : bool :=
  bool_decide (X_Issuer leaf = X_Subject root) && (X_SignedBy leaf =? X_PublicKey root)%string && X_IsCA root
  && X_CertSign root && validAt now root.

Definition usageOK (c : Certificate) : bool :=
  match X_ExtKeyUsage c with [] => true | l => bool_decide (ExtKeyUsageClientAuth ∈ l) end.

(** [Verify] with roots, a time and client authentication, and no intermediates: the
    chain is the leaf alone, when it is itself a root, or the leaf and its signer. *)
Definition x509Verify (roots : list Certificate) (now : Time) (leaf : Certificate) : bool :=
  validAt now leaf && usageOK leaf && (bool_decide (leaf ∈ roots) || existsb (signs now leaf) roots).

(** ** The authority ([ca.go]) *)

(** A random positive serial. *)
Definition randSerial : M (Error + Z) := attempt "pki: serial" (fun t => pk_int t + 1).

(** Its errors are dropped. *)
Definition recordCA (cert : Certificate) (crtPEM : string) : M unit :=
  let rec := mkCert (serialText (X_Serial cert)) (X_CommonName cert) RoleCA crtPEM (X_NotBefore cert) (X_NotAfter cert)
               StateIssued zeroTime in
  let* r := GetCert (serialText (X_Serial cert)) in
  match r with
  | inr _ => UpdateCert rec ;;; cret ()
  | inl _ => CreateCert rec ;;; cret ()
  end.

Definition writeDisk (h : Host) (crtPEM keyPEM : string) : M (option Error * Host) :=
  let* r := attempt "pki: mkdir" (fun _ => ()) in
  match r with
  | inl e => cret (Some e, h)
  | inr _ =>
      let* r := attempt "pki: write ca.crt" (fun _ => ()) in
      match r with
      | inl e => cret (Some e, h)
      | inr _ =>
          let h := mkHost (Some crtPEM) (h_key h) (h_passphrase h) in
          let* r := encryptKeyPEM keyPEM (h_passphrase h) in
          match r with
          | inl e => cret (Some (Wrap "pki: encrypt ca.key" e), h)
          | inr encKey =>
              let* r := attempt "pki: write ca.key" (fun _ => ()) in
              match r with
              | inl e => cret (Some e, h)
              | inr _ => cret (None, mkHost (h_crt h) (Some encKey) (h_passphrase h))
              end
          end
      end
  end.

(** The self-signed root. *)
Definition rootTemplate (a : Authority) (serial : Z) (now : Time) : Template :=
  mkTemplate serial (a_caName a) RoleCA (now - Minute) (now + a_caTTL a) true 1 true [] [] [].

(** The new root is active before it is written; an error leaves it so. *)
Definition generate (a : Authority) (h : Host) : M (option Error * Authority * Host) :=
  let* r := (let! key := attempt "pki: generate CA key" pk_key in
             let! serial := randSerial in
             let* now := nowUTC in
             let! cert := CreateCertificate "pki: create CA cert" (rootTemplate a serial now) None key key in
             cret (inr (key, cert))) in
  match r with
  | inl e => cret (Some e, a, h)
  | inr (key, cert) =>
      let crtPEM := encodeCert cert in
      let a := with_active a cert key crtPEM in
      let* (err, h) := (if (a_dir a =? "")%string then cret (None, h) else writeDisk h crtPEM (encodeKey key)) in
      match err with
      | Some e => cret (Some e, a, h)
      | None => recordCA cert crtPEM ;;; cret (None, a, h)
      end
  end.

Definition adopt (a : Authority) (h : Host) (crtPEM keyPEM : string) : M (option Error * Authority) :=
  match decodeCert crtPEM with
  | None => cret (Some (ErrorString "pki: invalid CA certificate PEM"), a)
  | Some cert =>
      match decryptKeyPEM keyPEM (h_passphrase h) with
      | inl e => cret (Some (Wrap "pki: decrypt CA key" e), a)
      | inr decrypted =>
          match decodeKey decrypted with
          | None => cret (Some (ErrorString "pki: invalid CA key PEM"), a)
          | Some key => recordCA cert crtPEM ;;; cret (None, with_active a cert key crtPEM)
          end
      end
  end.

Definition loadOrCreate (a : Authority) (h : Host) : M (option Error * Authority * Host) :=
  match h_crt h, h_key h with
  | Some crtPEM, Some keyPEM =>
      if (a_dir a =? "")%string then generate a h
      else let* (err, a) := adopt a h crtPEM keyPEM in cret (err, a, h)
  | _, _ => generate a h
  end.

Definition NewAuthority (opts : Options) (h : Host) : M (Error + Authority * Host) :=
  let a := mkAuthority (if LeafTTL opts =? 0 then DefaultLeafTTL else LeafTTL opts) None None "" None zeroTime None
             (Dir opts) (if CATTL opts =? 0 then DefaultCATTL else CATTL opts)
             (if (CommonName opts =? "")%string then "Purser Control Plane CA" else CommonName opts) in
  let* (err, a, h) := loadOrCreate a h in
  match err with Some e => cret (inl e) | None => cret (inr (a, h)) end.

Definition intermediateTemplate (serial : Z) (now : Time) : Template :=
  mkTemplate serial "Purser Intermediate CA" RoleCA (now - Minute) (now + 2 * 365 * 24 * Hour) true 0 true [] [] [].

(** A nil certificate or key makes the signature panic; the constructor excludes it. *)
Definition GenerateIntermediate (a : Authority) : M (Error + Authority) :=
  let! key := attempt "pki: generate intermediate key" pk_key in
  let! serial := randSerial in
  let* now := nowUTC in
  match a_activeCert a, a_activeKey a with
  | Some rootCert, Some rootKey =>
      let! cert := CreateCertificate "pki: sign intermediate" (intermediateTemplate serial now) (Some rootCert) key rootKey in
      let certPEM := encodeCert cert in
      recordCA cert certPEM ;;;
      cret (inr (mkAuthority (a_leafTTL a) (Some cert) (Some key) certPEM None zeroTime (Some rootCert) (a_dir a) (a_caTTL a)
                   "Purser Intermediate CA"))
  | _, _ => cret (inl (ErrorString "panic"))
  end.

Definition CACertificate (a : Authority) : Error + Certificate :=
  match a_activeCert a with None => inl (ErrorString "pki: CA not initialized") | Some c => inr c end.

Definition CACert (a : Authority) : option Certificate := a_activeCert a.
Definition CACertPEM (a : Authority) : string := a_activePEM a.

(** The trusted roots at a time. *)
Definition CertPool (a : Authority) (now : Time) : list Certificate :=
  option_list (a_activeCert a) ++ option_list (a_rootCert a)
  ++ (match a_oldCert a with Some c => if now <? a_oldExpiry a then [c] else [] | None => [] end).

Definition leafTemplate (req : CertRequest) (role : string) (serial : Z) (notBefore notAfter : Time) : Template :=
  mkTemplate serial (CQ_CommonName req) role notBefore notAfter false (-1) false
    [ExtKeyUsageClientAuth; ExtKeyUsageServerAuth] (CQ_DNSNames req) [crlDistributionPoint].

Definition Issue (a : Authority) (req : CertRequest) : M (Error + IssuedCert) :=
  if (CQ_CommonName req =? "")%string then cret (inl (ErrorString "pki: issue requires a CommonName"))
  else
    match a_activeCert a, a_activeKey a with
    | Some caCert, Some caKey =>
        let! leafKey := attempt "pki: generate leaf key" pk_key in
        let! serial := randSerial in
        let ttl := if CQ_TTL req <=? 0 then a_leafTTL a else CQ_TTL req in
        let role := if (CQ_Role req =? "")%string then RoleAgent else CQ_Role req in
        let* now := nowUTC in
        let notBefore := now - Minute in
        let notAfter := now + ttl in
        let! cert := CreateCertificate "pki: sign leaf cert" (leafTemplate req role serial notBefore notAfter) (Some caCert)
                       leafKey caKey in
        let crtPEM := encodeCert cert in
        let* err := CreateCert (mkCert (serialText serial) (CQ_CommonName req) role crtPEM notBefore notAfter StateIssued zeroTime) in
        match err with
        | Some e => cret (inl (Wrap "pki: persist issued cert" e))
        | None => cret (inr (mkIssuedCert (serialText serial) crtPEM (encodeKey leafKey) notBefore notAfter))
        end
    | _, _ => cret (inl (ErrorString "pki: CA not initialized"))
    end.

Definition with_state (c : Cert) (state : string) : Cert :=
  mkCert (CSerial c) (CSubject c) (CRole c) (CPEM c) (CNotBefore c) (CNotAfter c) state (CCreatedAt c).

Definition Revoke (serial : string) : M (option Error) :=
  let* r := GetCert serial in
  match r with
  | inl e => cret (Some (Wrap "pki: revoke" e))
  | inr c =>
      let* err := UpdateCert (with_state c StateRevoked) in
      cret (match err with Some e => Some (Wrap "pki: revoke" e) | None => None end)
  end.

Definition IsRevoked (serial : string) : M (Error + bool) :=
  let* r := GetCert serial in
  cret (match r with inl e => inl e | inr c => inr (CState c =? StateRevoked)%string end).

(** The old root moves to the grace slot before anything can fail. *)
Definition Rotate (a : Authority) (h : Host) : M ((Error + Certificate) * Authority * Host) :=
  let* now := nowUTC in
  let a := match a_activeCert a with Some c => with_old a (Some c) (now + RotationGracePeriod) | None => a end in
  (match a_activeCert a with
   | Some prev =>
       let* r := GetCert (serialText (X_Serial prev)) in
       match r with
       | inr c => UpdateCert (with_state c StateRotated) ;;; cret ()
       | inl _ => cret ()
       end
   | None => cret ()
   end) ;;;
  let* (err, a, h) := generate a h in
  match err with Some e => cret (inl e, a, h) | None => cret (CACertificate a, a, h) end.

Definition ForceGraceExpiry (a : Authority) : M Authority :=
  let* now := nowUTC in cret (with_old a (a_oldCert a) (now - Second)).

Definition VerifyClient (a : Authority) (certPEM : string) : M (Error + Certificate) :=
  match decodeCert certPEM with
  | None => cret (inl (ErrorString "pki: invalid certificate PEM"))
  | Some leaf =>
      let* poolNow := nowUTC in
      let* now := nowUTC in
      if negb (x509Verify (CertPool a poolNow) now leaf) then cret (inl (ErrorString "pki: verify leaf"))
      else
        let* r := IsRevoked (serialText (X_Serial leaf)) in
        match r with
        | inr true => cret (inl (ErrorString "pki: certificate is revoked"))
        | _ => cret (inr leaf)
        end
  end.
End Pki.

(** ** The envelope *)

Lemma substring_app_r a : forall b n m, String.substring (String.length a + n) m (a +:+ b) = String.substring n m b.
Proof. induction a as [|c a IH]; intros b n m; [done|]. apply IH. Qed.

Lemma substring_app_l a : forall b, String.substring 0 (String.length a) (a +:+ b) = a.
Proof.
  induction a as [|c a IH]; intros b; [by destruct b|]. change (String c (String.substring 0 (String.length a) (a +:+ b)) = String c a).
  by rewrite IH.
Qed.

Lemma substring_all a : String.substring 0 (String.length a) a = a.
Proof. induction a as [|c a IH]; [done|]. cbn. by rewrite IH. Qed.

Lemma ebind_inv {A B} (m : M (Error + A)) (k : A -> M (Error + B)) w b w' :
  ebind m k w = (inr b, w') -> exists a w1, m w = (inr a, w1) /\ k a w1 = (inr b, w').
Proof.
  unfold ebind. intros (r & w1 & H1 & H2)%cbind_inv. destruct r as [e|a]; [done|]. by exists a, w1.
Qed.

(** Splits a run of fallible calls that succeeds. *)
Ltac run_try H :=
  match type of H with
  | ebind _ _ _ = _ =>
      let a := fresh "r" in let w := fresh "w" in let H1 := fresh "Hrun" in
      apply ebind_inv in H as (a & w & H1 & H)
  end.

Section Envelope.
Context `{E : Env} `{P : PkiEnv} `{!PkiLaws P}.

Lemma attempt_inv {A} what (f : nat -> A) w a w' :
  attempt what f w = (inr a, w') -> a = f (w_tick w) /\ w_db w' = w_db w.
Proof. unfold attempt, cbind, next, cret. cbn. destruct (pk_fault (w_tick w)); [done|]. by intros [= <- <-]. Qed.

Lemma open_sealed salt nonce ct pass :
  String.length salt = 16%nat -> String.length nonce = 12%nat -> pass ≠ ""%string ->
  decryptKeyPEM (purkMagic +:+ salt +:+ nonce +:+ ct) pass =
  match gcmOpen (argon2IDKey pass salt) nonce ct with Some pt => inr pt | None => inl (ErrorString "pki: decrypt key") end.
Proof.
  intros Hs Hn Hp. unfold decryptKeyPEM. set (data := purkMagic +:+ _).
  assert (H1 : String.substring 0 4 data = purkMagic) by apply (substring_app_l purkMagic).
  assert (H2 : String.substring 4 16 data = salt).
  { unfold data. rewrite (substring_app_r purkMagic _ 0 16), <- Hs. apply substring_app_l. }
  assert (Hlen : String.length data = (20 + String.length (nonce +:+ ct))%nat).
  { unfold data. rewrite !string_length_app, Hs. reflexivity. }
  assert (H3 : String.substring 20 (String.length data - 20) data = nonce +:+ ct).
  { rewrite Hlen. replace (20 + String.length (nonce +:+ ct) - 20)%nat with (String.length (nonce +:+ ct)) by lia.
    unfold data. rewrite (substring_app_r purkMagic _ 16). replace 16%nat with (String.length salt + 0)%nat by lia.
    rewrite substring_app_r. apply substring_all. }
  rewrite H1, String.eqb_refl. cbn [negb]. apply String.eqb_neq in Hp. rewrite Hp, H2, H3, Hlen.
  rewrite (proj2 (Nat.ltb_ge _ _)) by lia. rewrite string_length_app, Hn.
  rewrite (proj2 (Nat.ltb_ge _ _)) by lia. replace (12 + String.length ct - 12)%nat with (String.length ct) by lia.
  rewrite <- Hn. rewrite substring_app_l. replace (String.length nonce) with (String.length nonce + 0)%nat by lia.
  rewrite substring_app_r, substring_all. reflexivity.
Qed.

(** The key on disk: whatever passphrase the authority writes its key with, the
    same passphrase reads it back; with a passphrase the text is an envelope, which
    is refused without one. *)
Theorem encryptKeyPEM_roundtrip key pass w data w' :
  encryptKeyPEM (encodeKey key) pass w = (inr data, w') ->
  decryptKeyPEM data pass = inr (encodeKey key) /\
  (pass ≠ ""%string -> String.substring 0 4 data = purkMagic /\ exists e, decryptKeyPEM data "" = inl e).
Proof.
  unfold encryptKeyPEM. destruct (String.eqb_spec pass "") as [->|Hp].
  - intros [= <- _]. split; [|done]. unfold decryptKeyPEM. by rewrite encodeKey_pem.
  - intros H. run_try H. apply attempt_inv in Hrun as [-> _]. run_try H. apply attempt_inv in Hrun as [-> _].
    injection H as <- _. split.
    + rewrite open_sealed by (done || apply pk_bytes_length). by rewrite gcm_open_seal.
    + intros _. assert (Hm : forall x, String.substring 0 4 (purkMagic +:+ x) = purkMagic)
        by (intros; apply (substring_app_l purkMagic)).
      split; [apply Hm|]. unfold decryptKeyPEM. rewrite Hm. by eexists.
Qed.
End Envelope.

(** ** Issued certificates *)

Section Issued.
Context `{E : Env} `{P : PkiEnv} `{!PkiLaws P}.

Lemma CreateCertificate_inv what x parent pub priv w c w' :
  CreateCertificate what x parent pub priv w = (inr c, w') ->
  w_db w' = w_db w /\ x509_encodable x = true /\
  match parent with
  | Some ca => X_PublicKey ca = priv /\ c = fromTemplate x (X_Subject ca) pub priv
  | None => c = fromTemplate x (TP_Subject x) pub priv
  end.
Proof.
  unfold CreateCertificate. destruct (x509_encodable x); [|done]. cbn [negb]. destruct parent as [ca|].
  - destruct (String.eqb_spec (X_PublicKey ca) priv) as [->|]; [|done]. by intros [-> ->]%attempt_inv.
  - by intros [-> ->]%attempt_inv.
Qed.

Lemma CreateCert_inv c w w' : CreateCert c w = (None, w') -> CState c ≠ ""%string ->
  db_certs (w_db w) !! CSerial c = None /\
  exists created, w_db w' = with_certs (w_db w) (<[CSerial c := mkCert (CSerial c) (CSubject c) (CRole c) (CPEM c) (CNotBefore c)
                    (CNotAfter c) (CState c) created]> (db_certs (w_db w))).
Proof.
  unfold CreateCert. intros H Hs. run_step H. apply String.eqb_neq in Hs. rewrite Hs in H.
  assert (Hd : w_db w0 = w_db w). { destruct (IsZero (CCreatedAt c)); by injection Hrun as _ <-. }
  apply exec_spec in H as [_ H]. rewrite Hd in H. unfold insertRow in H. case_match; [done|]. injection H as <-.
  split; [done|]. by eexists.
Qed.

(** What a successful [Issue] leaves behind. *)
Record issued (a : Authority) (req : CertRequest) (w w' : World) (ic : IssuedCert) (ca leaf : Certificate) : Prop := {
  is_active : a_activeCert a = Some ca;
  is_pem : IC_CertPEM ic = encodeCert leaf;
  is_read : decodeCert (IC_CertPEM ic) = Some leaf;
  is_serial : IC_Serial ic = serialText (X_Serial leaf);
  is_name : X_CommonName leaf = CQ_CommonName req;
  is_role : X_OU leaf = if (CQ_Role req =? "")%string then RoleAgent else CQ_Role req;
  is_issuer : X_Issuer leaf = X_Subject ca;
  is_signer : X_SignedBy leaf = X_PublicKey ca;
  is_leaf : X_IsCA leaf = false;
  is_usage : usageOK leaf = true;
  is_from : X_NotBefore leaf = truncSecond (IC_NotBefore ic);
  is_until : X_NotAfter leaf = truncSecond (IC_NotAfter ic);
  is_fresh : db_certs (w_db w) !! IC_Serial ic = None;
  is_row : exists created, w_db w' = with_certs (w_db w) (<[IC_Serial ic :=
             mkCert (IC_Serial ic) (CQ_CommonName req) (X_OU leaf) (IC_CertPEM ic) (IC_NotBefore ic) (IC_NotAfter ic) StateIssued
               created]> (db_certs (w_db w))) }.

Lemma Issue_inv a req w ic w' : Issue a req w = (inr ic, w') -> exists ca leaf, issued a req w w' ic ca leaf.
Proof.
  unfold Issue. destruct (CQ_CommonName req =? "")%string; [done|].
  destruct (a_activeCert a) as [ca|] eqn:Ea; [|done]. destruct (a_activeKey a) as [key|]; [|done]. intros H.
  run_try H. apply attempt_inv in Hrun as [-> D1]. run_try H. apply attempt_inv in Hrun as [-> D2].
  run_step H. apply nowUTC_spec in Hrun as [D3 _].
  run_try H. apply CreateCertificate_inv in Hrun as (D4 & Henc & <- & ->). run_step H.
  match type of Hrun with _ = (?r, _) => destruct r; [done|] end. injection H as <- <-.
  apply CreateCert_inv in Hrun as (Hf & created & Hd); [|done]. cbn in Hf, Hd.
  eexists ca, _. split; try done; cbn [IC_Serial].
  - by apply decode_encodeCert.
  - by rewrite <- D1, <- D2, <- D3, <- D4.
  - exists created. rewrite Hd, D4, D3, D2, D1. reflexivity.
Qed.

(** [VerifyClient] as a formula: the chain, and no row that says revoked, as far as
    the registry answers. *)
Definition accepted (a : Authority) (w : World) (leaf : Certificate) : Prop :=
  x509Verify (CertPool a (env_now (w_tick w))) (env_now (S (w_tick w))) leaf = true /\
  forall c, db_certs (w_db w) !! serialText (X_Serial leaf) = Some c -> CState c = StateRevoked ->
    env_db (S (S (w_tick w))) ≠ None.

Lemma VerifyClient_spec a pem w :
  match fst (VerifyClient a pem w) with
  | inr leaf => decodeCert pem = Some leaf /\ accepted a w leaf
  | inl _ => forall leaf, decodeCert pem = Some leaf -> ~ accepted a w leaf
  end.
Proof.
  unfold VerifyClient. destruct (decodeCert pem) as [leaf|]; [|done]. unfold accepted.
  unfold nowUTC, IsRevoked, GetCert, query, getRow, cbind, next, get_db, cret. cbn.
  destruct (x509Verify _ _ leaf) eqn:Hv; cbn; [|intros ? [= <-] [Hv2 _]; congruence].
  destruct (env_db _) as [e|]; cbn; [naive_solver|].
  destruct (db_certs (w_db w) !! serialText (X_Serial leaf)) as [c|] eqn:Hc; cbn; [|by rewrite Hc].
  destruct (String.eqb_spec (CState c) StateRevoked).
  - intros ? [= <-] [_ H]. rewrite Hc in H. by eapply H.
  - split; [done|]. split; [done|]. intros c' Hc'. rewrite Hc in Hc'. by injection Hc' as <-.
Qed.

Lemma VerifyClient_accepts a pem leaf w : decodeCert pem = Some leaf -> fst (VerifyClient a pem w) = inr leaf <-> accepted a w leaf.
Proof.
  intros Hd. pose proof (VerifyClient_spec a pem w) as H. rewrite Hd in H.
  destruct (fst _) as [e|l]; [|naive_solver]. split; [done|]. intros Ha. by destruct (H leaf).
Qed.

(** The registry answers the query at a call, and says that a certificate is revoked. *)
Definition saysRevoked (w : World) (t : nat) (serial : string) : Prop :=
  env_db t = None /\ exists r, db_certs (w_db w) !! serial = Some r /\ CState r = StateRevoked.

(** (C34) Issued certificates are honoured: at any time within the validity of the
    certificate and of the root that issued it (which is marked as a signing authority),
    an authority that still trusts that root accepts the PEM text that [Issue] returned,
    as a certificate of the requested name and role, exactly when the registry does not
    say that it is revoked: also when the registry has no row for it, or does not
    answer. *)
Theorem Issue_verifies a req w ic w1 ca a2 w2 :
  Issue a req w = (inr ic, w1) -> a_activeCert a = Some ca -> X_IsCA ca && X_CertSign ca = true ->
  ca ∈ CertPool a2 (env_now (w_tick w2)) -> validAt (env_now (S (w_tick w2))) ca = true ->
  IC_NotBefore ic <= env_now (S (w_tick w2)) <= truncSecond (IC_NotAfter ic) ->
  exists leaf, decodeCert (IC_CertPEM ic) = Some leaf /\ X_CommonName leaf = CQ_CommonName req /\
    X_OU leaf = (if (CQ_Role req =? "")%string then RoleAgent else CQ_Role req) /\
    (fst (VerifyClient a2 (IC_CertPEM ic) w2) = inr leaf <-> ~ saysRevoked w2 (2 + w_tick w2) (IC_Serial ic)).
Proof.
  intros (ca' & leaf & [])%Issue_inv Hca Hok Hpool Hvalid Hwin. simplify_eq. exists leaf.
  split_and!; [done|done|done|]. rewrite (VerifyClient_accepts _ _ leaf) by done. unfold accepted, saysRevoked.
  rewrite <- is_serial0. split; [intros [_ H] (Hdb & r & Hr & Hs); by apply (H r)|].
  intros Hrow. split; [|intros c Hc Hs Hdb; apply Hrow; by eauto]. unfold x509Verify. rewrite is_usage0.
  assert (Hl : validAt (env_now (S (w_tick w2))) leaf = true).
  { unfold validAt. rewrite is_from0, is_until0, andb_true_iff, !Z.leb_le. split; [|lia].
    unfold truncSecond, Second in *. pose proof (Z.mul_div_le (IC_NotBefore ic) (10 ^ 9)). lia. }
  rewrite Hl. cbn. apply orb_true_iff. right. apply existsb_exists. eexists. rewrite <- list_elem_of_In. split; [exact Hpool|].
  unfold signs. rewrite bool_decide_true by done. rewrite is_signer0, String.eqb_refl, Hvalid.
  apply andb_true_iff in Hok as [-> ->]. done.
Qed.

(** The key column holds the row's own serial. *)
Definition certs_keyed (db : Database) : Prop := forall s c, db_certs db !! s = Some c -> CSerial c = s.

(** [Revoke] that reports no error has written the state. *)
Lemma Revoke_inv serial w w' :
  Revoke serial w = (None, w') -> certs_keyed (w_db w) ->
  exists c, db_certs (w_db w) !! serial = Some c /\
    w_db w' = with_certs (w_db w) (<[serial := with_state c StateRevoked]> (db_certs (w_db w))).
Proof.
  unfold Revoke. intros H Hk. run_step H. apply query_spec in Hrun as (Hd & _ & Hr). destruct r as [e|c]; [done|].
  destruct (env_db _); [done|]. unfold getRow in Hr.
  destruct (db_certs (w_db w) !! serial) as [row|] eqn:Hrow; [|done]. injection Hr as ->. apply Hk in Hrow as Hs.
  run_step H. destruct r as [e|]; [done|]. injection H as <-. exists row. split; [done|].
  apply exec_spec in Hrun as [_ Hx]. rewrite Hd in Hx. unfold updateRow in Hx. cbn in Hx. rewrite Hs, Hrow in Hx.
  by injection Hx as <-.
Qed.
End Issued.

(** ** Rotation *)

Section Rotation.
Context `{E : Env} `{P : PkiEnv} `{!PkiLaws P}.

(** The files hold the certificate and its key. *)
Definition stored (h : Host) (cert : Certificate) (key : string) : Prop :=
  h_crt h = Some (encodeCert cert) /\ decodeCert (encodeCert cert) = Some cert /\
  exists enc, h_key h = Some enc /\ decryptKeyPEM enc (h_passphrase h) = inr (encodeKey key).

Lemma writeDisk_stored h cert key w h' w' :
  writeDisk h (encodeCert cert) (encodeKey key) w = ((None, h'), w') -> decodeCert (encodeCert cert) = Some cert -> stored h' cert key /\ h_passphrase h' = h_passphrase h.
Proof.
  unfold writeDisk. intros H Hdec. run_step H. destruct r; [done|]. run_step H. destruct r; [done|].
  run_step H. destruct r as [|enc]; [done|]. run_step H. destruct r; [done|]. injection H as <- _.
  split; [|done]. split; [done|]. split; [done|]. exists enc. split; [done|]. by apply encryptKeyPEM_roundtrip in Hrun1 as [].
Qed.

(** A self-signed root whose validity starts a minute before [now]. *)
Record root_at (a : Authority) (now : Time) (cert : Certificate) : Prop := {
  ra_ca : X_IsCA cert = true; ra_sign : X_CertSign cert = true; ra_name : X_CommonName cert = a_caName a;
  ra_self : X_Issuer cert = X_Subject cert /\ X_SignedBy cert = X_PublicKey cert;
  ra_from : X_NotBefore cert = truncSecond (now - Minute); ra_until : X_NotAfter cert = truncSecond (now + a_caTTL a) }.

Lemma generate_inv a h w a' h' w' :
  generate a h w = ((None, a', h'), w') ->
  exists cert key t, a' = with_active a cert key (encodeCert cert) /\ root_at a (env_now t) cert /\ X_PublicKey cert = key /\
    h_passphrase h' = h_passphrase h /\ (a_dir a ≠ ""%string -> stored h' cert key).
Proof.
  unfold generate. intros H. run_step H. destruct r as [e|[key cert]]; [done|].
  run_try Hrun. run_try Hrun. run_step Hrun. run_try Hrun. injection Hrun as <- <- _.
  apply CreateCertificate_inv in Hrun3 as (_ & Henc & ->). injection Hrun2 as <- _.
  run_step H. destruct r1 as [[e|] h1]; [done|]. run_step H. injection H as <- <- _.
  eexists _, _, _. split; [done|]. split; [by split|]. split; [done|]. cbn in Hrun.
  destruct (String.eqb_spec (a_dir a) "") as [Hdir|Hdir].
  - injection Hrun as <- _. done.
  - by apply writeDisk_stored in Hrun as [H1 H2]; [|apply decode_encodeCert].
Qed.

Lemma Rotate_inv a h w new a' h' w' old :
  Rotate a h w = ((inr new, a', h'), w') -> a_activeCert a = Some old ->
  exists key t, a' = with_active (with_old a (Some old) (env_now (w_tick w) + RotationGracePeriod)) new key (encodeCert new) /\
    root_at a (env_now t) new /\ X_PublicKey new = key /\ h_passphrase h' = h_passphrase h /\
    (a_dir a ≠ ""%string -> stored h' new key).
Proof.
  unfold Rotate. intros H Ha. run_step H. rewrite Ha in H. injection Hrun as <- <-. run_step H. run_step H.
  destruct r0 as [[[e|] a1] h1]; [done|]. apply generate_inv in Hrun0 as (cert & key & t & -> & Hr & Hk & Hp & Hs).
  injection H as <- <- <- _. exists key, t. split; [done|]. by split; [destruct Hr; split|].
Qed.

(** Rotation without downtime: after a rotation at time [t0] the new root is the
    active one, and a client certificate of the old root verifies, as it did before,
    for exactly the 72 hours from [t0], and not afterwards. *)
Theorem Rotate_grace a h w new a' h' w' old leaf now :
  Rotate a h w = ((inr new, a', h'), w') -> a_activeCert a = Some old -> a_rootCert a = None ->
  X_PublicKey new ≠ X_PublicKey old -> X_IsCA leaf = false ->
  validAt now leaf && usageOK leaf && signs now leaf old = true ->
  a_activeCert a' = Some new /\
  x509Verify (CertPool a now) now leaf = true /\
  x509Verify (CertPool a' now) now leaf = (now <? env_now (w_tick w) + RotationGracePeriod).
Proof.
  intros H Ha Hr Hk Hl Hok. destruct (Rotate_inv _ _ _ _ _ _ _ old H Ha) as (key & t & -> & Hroot & _).
  apply andb_true_iff in Hok as [Hok Hs]. split; [done|].
  assert (Hn : signs now leaf new = false).
  { unfold signs in *. rewrite !andb_true_iff in Hs. destruct Hs as [[[[_ Hs] _] _] _]. apply String.eqb_eq in Hs.
    destruct (String.eqb_spec (X_SignedBy leaf) (X_PublicKey new)); [congruence|]. by rewrite andb_false_r. }
  unfold x509Verify, CertPool. cbn. rewrite Ha, Hr, Hok. cbn. rewrite Hs. split; [by rewrite orb_true_r|].
  destruct (now <? _); cbn; rewrite Hn, ?Hs; cbn; [by rewrite orb_true_r|]. rewrite orb_false_r.
  apply bool_decide_false. rewrite list_elem_of_singleton. intros ->. destruct Hroot. congruence.
Qed.

Lemma adopt_stored a h cert key w :
  stored h cert key -> forall crt k, h_crt h = Some crt -> h_key h = Some k ->
  fst (adopt a h crt k w) = (None, with_active a cert key (encodeCert cert)).
Proof.
  intros (Hc & Hdec & enc & Hk & Hd) crt k. rewrite Hc, Hk. intros [= <-] [= <-]. unfold adopt.
  rewrite Hdec, Hd, decode_encodeKey. rewrite cbind_run. done.
Qed.

(** A restart keeps the root and forgets the grace period: after a rotation that
    was written to disk, an authority started on those files has the rotated root as
    its active one, with its key, and trusts nothing else; the certificates of the
    old root that [Rotate_grace] still accepted are refused from then on. *)
Theorem restart_ends_grace a h w new a' h' w' old opts w2 leaf now :
  Rotate a h w = ((inr new, a', h'), w') -> a_activeCert a = Some old -> a_dir a ≠ ""%string -> Dir opts ≠ ""%string ->
  exists a2 w3, NewAuthority opts h' w2 = (inr (a2, h'), w3) /\
    a_activeCert a2 = Some new /\ a_activeKey a2 = Some (X_PublicKey new) /\ CertPool a2 now = [new] /\
    (X_IsCA leaf = false -> X_SignedBy leaf = X_PublicKey old -> X_PublicKey new ≠ X_PublicKey old ->
     x509Verify (CertPool a2 now) now leaf = false).
Proof.
  intros H Ha Hdir Hdir'. destruct (Rotate_inv _ _ _ _ _ _ _ old H Ha) as (key & t & -> & Hroot & Hkey & _ & Hst).
  destruct (Hst Hdir) as (Hc & _ & enc & Hk & _). unfold NewAuthority. set (a0 := mkAuthority _ _ _ _ _ _ _ _ _ _).
  pose proof (adopt_stored a0 h' new key w2 (Hst Hdir) _ _ Hc Hk) as Had. rewrite !cbind_run.
  unfold loadOrCreate. rewrite Hc, Hk. apply String.eqb_neq in Hdir'. cbn [a_dir a0]. rewrite Hdir'. cbn [a_dir]. fold a0.
  rewrite !cbind_run. destruct (adopt a0 h' (encodeCert new) enc w2) as [[err a2] w3]. cbn in Had. injection Had as -> ->.
  eexists _, w3. split; [done|]. cbn. rewrite Hkey. split_and!; [done|done|done|]. intros Hl Hs Hne. unfold x509Verify. cbn.
  assert (Hn : signs now leaf new = false).
  { unfold signs. destruct (String.eqb_spec (X_SignedBy leaf) (X_PublicKey new)); [congruence|]. by rewrite andb_false_r. }
  rewrite Hn. cbn. rewrite bool_decide_false; [by rewrite andb_false_r|].
  rewrite list_elem_of_singleton. intros ->. destruct Hroot. congruence.
Qed.
End Rotation.

(** ** A concrete authority *)

Section Witnesses.
Local Open Scope string_scope.

Fixpoint bits (p : positive) : string :=
  match p with xH => "" | xO p => String "0" (bits p) | xI p => String "1" (bits p) end.

Fixpoint unbits (s : string) : positive :=
  match s with EmptyString => xH | String c s => if Ascii.eqb c "0" then xO (unbits s) else xI (unbits s) end.

Lemma unbits_bits p : unbits (bits p) = p.
Proof. induction p; cbn; congruence. Qed.

#[local] Instance ExtKeyUsage_countable : Countable ExtKeyUsage.
Proof.
  apply (inj_countable' (fun u => match u with ExtKeyUsageClientAuth => true | _ => false end)
           (fun b => if b : bool then ExtKeyUsageClientAuth else ExtKeyUsageServerAuth)). by intros [].
Defined.

#[local] Instance Certificate_countable : Countable Certificate.
Proof.
  apply (inj_countable'
    (fun c => (((X_Serial c, X_CommonName c), (X_OU c, (X_NotBefore c, X_NotAfter c))),
               (((X_IsCA c, X_MaxPathLen c), (X_CertSign c, X_ExtKeyUsage c)),
                ((X_DNSNames c, X_CRL c), (X_PublicKey c, (X_Issuer c, X_SignedBy c))))))
    (fun '(((a, b), (c, (d, e))), (((f, g), (h, i)), ((j, k), (l, (m, n))))) => mkCertificate a b c d e f g h i j k l m n)).
  by intros [].
Defined.

Fixpoint zeros (n : nat) : string := match n with O => "" | S n => String "0" (zeros n) end.

(** Nothing fails; ciphers and encodings are transparent. *)
Definition toyPki : PkiEnv := {|
  pk_fault _ := None; pk_bytes _ n := zeros n; pk_int t := Z.of_nat t; pk_key t := "key" +:+ pretty t;
  x509_encodable x := forallb (fun c => N.ltb (Ascii.N_of_ascii c) 128) (flat_map String.list_ascii_of_string (TP_CommonName x :: TP_OU x :: TP_DNSNames x));
  encodeCert c := bits (encode c); decodeCert s := decode (unbits s);
  encodeKey k := "-----" +:+ k; decodeKey s := CutPrefix s "-----";
  argon2IDKey p s := p +:+ s; gcmSeal _ _ pt := pt; gcmOpen _ _ ct := Some ct |}.

#[export] Instance toyPki_laws : PkiLaws toyPki.
Proof.
  split; cbn [decodeCert encodeCert decodeKey encodeKey pk_bytes gcmOpen gcmSeal toyPki].
  - intros x issuer pub priv _. by rewrite unbits_bits, decode_encode.
  - intros k. by apply CutPrefix_spec.
  - done.
  - intros _ n. induction n; cbn; congruence.
  - done.
Qed.

#[local] Existing Instance calmEnv.
#[local] Existing Instance toyPki.

Definition exOptions : Options := mkOptions "" "/pki" 0 0.
Definition exHost : Host := mkHost None None "secret".
Definition exReq : CertRequest := mkCertRequest "node-1" "" [] 0.

(** The authority, its files and the world after the start. *)
Definition exStart : Authority * Host * World :=
  match NewAuthority exOptions exHost emptyWorld with
  | (inr (a, h), w) => (a, h, w)
  | (inl _, w) => (mkAuthority 0 None None "" None 0 None "" 0 "", exHost, w)
  end.
Definition exA : Authority := fst (fst exStart).
Definition exH : Host := snd (fst exStart).
Definition exW : World := snd exStart.
Definition exCA : Certificate := default (mkCertificate 0 "" "" 0 0 false 0 false [] [] [] "" ("", "") "") (a_activeCert exA).

Definition exIssued : (Error + IssuedCert) * World := Issue exA exReq exW.
Definition exIC : IssuedCert := match fst exIssued with inr ic => ic | inl _ => mkIssuedCert "" "" "" 0 0 end.
Definition exLeaf : Certificate := default exCA (decodeCert (IC_CertPEM exIC)).

Lemma encryptKeyPEM_roundtrip_witness :
  decryptKeyPEM (purkMagic +:+ zeros 28 +:+ "-----k") "secret" = inr (encodeKey "k").
Proof. apply (encryptKeyPEM_roundtrip "k" "secret" emptyWorld _ (snd (encryptKeyPEM (encodeKey "k") "secret" emptyWorld))). reflexivity. Defined.

Lemma Issue_verifies_witness :
  exists leaf, decodeCert (IC_CertPEM exIC) = Some leaf /\ X_CommonName leaf = "node-1" /\
    fst (VerifyClient exA (IC_CertPEM exIC) (snd exIssued)) = inr leaf.
Proof.
  destruct (Issue_verifies exA exReq exW exIC (snd exIssued) exCA exA (snd exIssued)) as (leaf & H1 & H2 & _ & H3).
  - vm_compute. reflexivity.
  - vm_compute. reflexivity.
  - vm_compute. reflexivity.
  - left.
  - vm_compute. reflexivity.
  - vm_compute. split; discriminate.
  - exists leaf. split; [exact H1|]. split; [exact H2|]. apply H3. intros (_ & r & Hr & Hs).
    assert (Hl : db_certs (w_db (snd exIssued)) !! IC_Serial exIC ≫= (fun c => Some (CState c)) = Some StateIssued)
      by (vm_compute; reflexivity).
    rewrite Hr in Hl. cbn in Hl. injection Hl as Hl. rewrite Hl in Hs. discriminate Hs.
Defined.

Definition exRotated : (Error + Certificate) * Authority * Host * World := Rotate exA exH (snd exIssued).
Definition exNew : Certificate := match fst (fst (fst exRotated)) with inr c => c | inl _ => exCA end.

Lemma Rotate_grace_witness :
  x509Verify (CertPool (snd (fst (fst exRotated))) 1000) 1000 exLeaf
    = (1000 <? env_now (w_tick (snd exIssued)) + RotationGracePeriod)%Z /\
  x509Verify (CertPool (snd (fst (fst exRotated))) (100 * Hour)) (100 * Hour) exLeaf = false.
Proof.
  split; [|vm_compute; reflexivity].
  refine (proj2 (proj2 (Rotate_grace exA exH (snd exIssued) exNew (snd (fst (fst exRotated))) (snd (fst exRotated))
            (snd exRotated) exCA exLeaf 1000 _ _ _ _ _ _))); vm_compute; try reflexivity. discriminate.
Defined.

Lemma restart_ends_grace_witness :
  exists a2 w3, NewAuthority exOptions (snd (fst exRotated)) (snd exRotated) = (inr (a2, snd (fst exRotated)), w3) /\
    x509Verify (CertPool a2 1000) 1000 exLeaf = false.
Proof.
  destruct (restart_ends_grace exA exH (snd exIssued) exNew (snd (fst (fst exRotated))) (snd (fst exRotated)) (snd exRotated)
              exCA exOptions (snd exRotated) exLeaf 1000) as (a2 & w3 & H1 & _ & _ & _ & H2).
  - vm_compute. reflexivity.
  - vm_compute. reflexivity.
  - vm_compute. discriminate.
  - discriminate.
  - exists a2, w3. split; [exact H1|]. apply H2; vm_compute; [reflexivity|reflexivity|discriminate].
Defined.
End Witnesses.
