(* ===== verification/Fleet.v ===== *)
(** * Fleet: enrolment, heartbeats and the life of a node

    [go/controlplane/fleet]: the manager of [fleet.go] (join tokens, enrolment,
    approval, draining, decommissioning, renewal) and the registration service of
    [registration.go] (join, heartbeats, the cache of live metrics).

    The manager sees the certificate authority through the interface [CA], with laws
    that [Pki.Authority] satisfies. The manager's and the cache's fields are passed
    and returned; their locks are not visible, each operation being one step.
    Protobuf's JSON and the codec of the token payload are parameters. *)
From stdpp Require Import pretty.
From S2P Require Import Prelude Float64 Convert Cluster Registry Access Pki.
Import Row.
Open Scope Z_scope.

(** ** Constants and data *)

Definition NodeStateEnrolled : string := "NODE_STATE_ENROLLED".
Definition NodeStateReady : string := "NODE_STATE_READY".
Definition NodeStateDraining : string := "NODE_STATE_DRAINING".
Definition NodeStateDecommissioned : string := "NODE_STATE_DECOMMISSIONED".

Definition ErrInvalidToken : Error := ErrorString "fleet: invalid or expired join token".
Definition ErrTokenUsed : Error := ErrorString "fleet: join token already used".
Definition ErrCertNotYetExpiring : Error :=
  ErrorString "fleet: certificate is not yet expiring (more than 60 days remaining)".

(** The generated [String] of the enums: an unknown number is its decimal text. *)
Definition enumString (names : list string) (n : Z) : string :=
  match (if n <? 0 then None else names !! Z.to_nat n) with Some s => s | None => pretty n end.

Definition NodeState_String : Z -> string :=
  enumString ["NODE_STATE_UNSPECIFIED"; "NODE_STATE_PROVISIONING"; "NODE_STATE_ENROLLED"; "NODE_STATE_READY";
    "NODE_STATE_LOADING"; "NODE_STATE_RUNNING"; "NODE_STATE_DEGRADED"; "NODE_STATE_DRAINING"; "NODE_STATE_UNREACHABLE";
    "NODE_STATE_DECOMMISSIONED"]%string.
Definition OS_String : Z -> string := enumString ["OS_UNSPECIFIED"; "OS_LINUX"; "OS_DARWIN"; "OS_WINDOWS"]%string.
Definition Arch_String : Z -> string := enumString ["ARCH_UNSPECIFIED"; "ARCH_X86_64"; "ARCH_ARM64"]%string.

Record tokenPayload : Type := mkTokenPayload { Exp : Z; Nonce : string }.
Record JoinToken : Type := mkJoinToken { Token : string; ExpiresAt : Time; Uses : Z }.
Record JoinResult : Type := mkJoinResult { NodeID : string; ClientCert : string; CACert : string }.
Record RenewResult : Type := mkRenewResult { CertPEM : string; RExpiresAt : Time }.

(** The signing secret and the consumed nonces. *)
Record Manager : Type := mkManager { mg_secret : string; mg_used : gset string }.

Definition NewWithSecret (secret : string) : Manager := mkManager secret ∅.

Class FleetCodec : Type := {
  encodeToken : tokenPayload -> string;
  decodeToken : string -> option tokenPayload;
  marshalProfile : Proto.HardwareProfile -> option string }.

(** ** The certificate authority as the manager sees it *)

Record CA : Type := mkCA {
  ca_CACertificate : Error + Certificate;
  ca_Issue : CertRequest -> M (Error + IssuedCert);
  ca_Revoke : string -> M (option Error) }.

(** [Issue] records one row for the requested name or changes nothing; [Revoke]
    changes the state of one row, and does so when the registry answers. *)
Class CALaws `{E : Env} (ca : CA) : Prop := {
  law_issue : forall req w, match fst (ca_Issue ca req w) with
    | inr ic => exists row, CSerial row = IC_Serial ic /\ CSubject row = CQ_CommonName req /\ CState row = StateIssued /\
        CNotAfter row = IC_NotAfter ic /\ db_certs (w_db w) !! IC_Serial ic = None /\
        w_db (snd (ca_Issue ca req w)) = with_certs (w_db w) (<[IC_Serial ic := row]> (db_certs (w_db w)))
    | inl _ => w_db (snd (ca_Issue ca req w)) = w_db w
    end;
  law_revoke : forall serial w, certs_keyed (w_db w) -> HealthyDB E -> is_Some (db_certs (w_db w) !! serial) ->
    w_db (snd (ca_Revoke ca serial w)) =
    with_certs (w_db w) (alter (fun c => with_state c StateRevoked) serial (db_certs (w_db w))) }.

Definition Authority_CA `{E : Env} `{P : PkiEnv} (a : Authority) : CA := mkCA (CACertificate a) (Issue a) Revoke.

Section Fleet.
Context `{E : Env} `{P : PkiEnv} `{C : Crypto} `{F : FleetCodec}.

Definition Unix (t : Time) : Z := t / Second.

Definition audit (action target : string) (details : list (string * string)) : M unit :=
  AppendAudit (mkAuditEntry "fleet" action target details zeroTime) ;;; cret ().

(** ** Join tokens *)

Definition sign (m : Manager) (body : string) : string := b64encode (hmacSHA256 (mg_secret m) body).

(** The expiry in the audit row is text; here its nanoseconds. *)
Definition GenerateJoinToken (m : Manager) (ttl : Duration) : M JoinToken :=
  let ttl := if ttl <=? 0 then Hour else ttl in
  let* t := next in
  let nonce := env_rand t in
  let* now := nowUTC in
  let exp := now + ttl in
  let body := b64encode (encodeToken (mkTokenPayload (Unix exp) nonce)) in
  audit "fleet.join_token.generated" "" [("expires_at", pretty exp)]%string ;;;
  cret (mkJoinToken (body +:+ "." +:+ sign m body) exp 1).

Definition validateToken (m : Manager) (token : string) : M (option Error * Manager) :=
  match cutFirst "." token with
  | None => cret (Some ErrInvalidToken, m)
  | Some (body, sig) =>
      if negb (sig =? sign m body)%string then cret (Some ErrInvalidToken, m)
      else match b64decode body ≫= decodeToken with
           | None => cret (Some ErrInvalidToken, m)
           | Some p =>
               let* now := nowUTC in
               if Exp p <? Unix now then cret (Some ErrInvalidToken, m)
               else if decide (Nonce p ∈ mg_used m) then cret (Some ErrTokenUsed, m)
               else cret (None, mkManager (mg_secret m) ({[ Nonce p ]} ∪ mg_used m))
           end
  end.

(** ** Enrolment *)

Definition genNodeID : M string := let* t := next in cret ("node-" +:+ env_rand t).

Definition vramStep (vram : float64) (g : Proto.GpuInfo) : float64 :=
  (vram + Proto.VramGb g * of_Z (if Proto.Count g =? 0 then 1 else Proto.Count g))%f64.

Definition joinNode (nodeID : string) (hw : option Proto.HardwareProfile) (advAgentAddr advInfAddr : string) : Node :=
  match hw with
  | None => mkNode nodeID "" "" "" f0 f0 NodeStateEnrolled advAgentAddr advInfAddr zeroTime "" zeroTime zeroTime
  | Some h =>
      mkNode nodeID (Proto.HHostname h) (OS_String (Proto.HOs h)) (Arch_String (Proto.HArch h)) (Proto.RamTotalGb h)
        (fold_left vramStep (Proto.Gpus h) f0) NodeStateEnrolled advAgentAddr advInfAddr zeroTime
        (default ""%string (marshalProfile h)) zeroTime zeroTime
  end.

(** Creates or replaces the row of the node. *)
Definition upsertNode (node : Node) : M (option Error) :=
  let* r := GetNode (ID node) in
  match r with
  | inl e =>
      if isNotFound e then
        let* err := CreateNode node in
        cret (match err with Some e => Some (Wrap "fleet: register node" e) | None => None end)
      else cret (Some (Wrap "fleet: lookup node" e))
  | inr _ =>
      let* err := UpdateNode node in
      cret (match err with Some e => Some (Wrap "fleet: update node" e) | None => None end)
  end.

(** The part of [Join] after the token. *)
Definition enroll (ca : CA) (hw : option Proto.HardwareProfile) (advAgentAddr advInfAddr : string) : M (Error + JoinResult) :=
  let given := match hw with Some h => Proto.HNodeId h | None => ""%string end in
  let* nodeID := (if (given =? "")%string then genNodeID else cret given) in
  let node := joinNode nodeID hw advAgentAddr advInfAddr in
  let* err := upsertNode node in
  match err with
  | Some e => cret (inl e)
  | None =>
      let dns := if (Hostname node =? "")%string then [] else [Hostname node] in
      let* r := ca_Issue ca (mkCertRequest nodeID RoleAgent dns 0) in
      match r with
      | inl e => cret (inl (Wrap "fleet: issue cert" e))
      | inr ic =>
          match ca_CACertificate ca with
          | inl e => cret (inl (Wrap "fleet: ca cert" e))
          | inr caCert =>
              audit "fleet.node.enrolled" nodeID [("serial", IC_Serial ic)]%string ;;;
              cret (inr (mkJoinResult nodeID (IC_CertPEM ic) (encodeCert caCert)))
          end
      end
  end.

Definition Join (ca : CA) (m : Manager) (token : string) (hw : option Proto.HardwareProfile) (advAgentAddr advInfAddr : string)
    : M ((Error + JoinResult) * Manager) :=
  let* (err, m) := validateToken m token in
  match err with
  | Some e => cret (inl e, m)
  | None => let* r := enroll ca hw advAgentAddr advInfAddr in cret (r, m)
  end.

(** The profile carries the identity, the host name and the memory. *)
Definition enrollProfile (n : Node) : Proto.HardwareProfile :=
  Proto.mkHardwareProfile (ID n) [] [] (RAMGB n) f0 f0 f0 ∅ f0 false (Hostname n) 0 0.

Definition Enroll (ca : CA) (m : Manager) (token : string) (profile : option Node) : M (option Error * Manager) :=
  match profile with
  | None => cret (Some (ErrorString "fleet: nil profile"), m)
  | Some n =>
      let* (r, m) := Join ca m token (Some (enrollProfile n)) (AdvertisedAgentAddr n) (AdvertisedInferenceAddr n) in
      cret (match r with inl e => Some e | inr _ => None end, m)
  end.

(** ** The operator's transitions *)

Definition with_nodeState (n : Node) (state : string) (lastSeen : Time) : Node :=
  mkNode (ID n) (Hostname n) (OS n) (Arch n) (RAMGB n) (VRAMGB n) state (AdvertisedAgentAddr n) (AdvertisedInferenceAddr n)
    lastSeen (HardwareProfile n) (CreatedAt n) (UpdatedAt n).

(** [Approve] and [Drain], and the first half of [Decommission]. *)
Definition moveNode (what nodeID state : string) : M (option Error) :=
  let* r := GetNode nodeID in
  match r with
  | inl e => cret (Some (Wrap what e))
  | inr n => UpdateNode (with_nodeState n state (LastSeen n))
  end.

Definition Approve (nodeID : string) : M (option Error) :=
  let* err := moveNode "fleet: approve" nodeID NodeStateReady in
  match err with
  | Some e => cret (Some e)
  | None => audit "fleet.node.approved" nodeID [] ;;; cret None
  end.

Definition Drain (nodeID : string) : M (option Error) :=
  let* err := moveNode "fleet: drain" nodeID NodeStateDraining in
  match err with
  | Some e => cret (Some e)
  | None => audit "fleet.node.draining" nodeID [] ;;; cret None
  end.

Definition issuedTo (nodeID : string) (c : Cert) : bool := (CSubject c =? nodeID)%string && (CState c =? StateIssued)%string.

Fixpoint revokeAll (ca : CA) (nodeID : string) (certs : list Cert) : M unit :=
  match certs with
  | [] => cret ()
  | c :: certs =>
      (if issuedTo nodeID c then ca_Revoke ca (CSerial c) ;;; cret () else cret ()) ;;;
      revokeAll ca nodeID certs
  end.

Definition Decommission (ca : CA) (nodeID : string) : M (option Error) :=
  let* err := moveNode "fleet: decommission" nodeID NodeStateDecommissioned in
  match err with
  | Some e => cret (Some e)
  | None =>
      let* certs := ListCerts in
      (match certs with inr certs => revokeAll ca nodeID certs | inl _ => cret () end) ;;;
      audit "fleet.node.decommissioned" nodeID [] ;;;
      cret None
  end.

(** ** Renewal *)

Definition renewThreshold : Duration := 60 * 24 * Hour.

(** The loop stops at the first issued certificate of the node. *)
Fixpoint tooEarly (nodeID : string) (certs : list Cert) : M bool :=
  match certs with
  | [] => cret false
  | c :: certs =>
      if issuedTo nodeID c then let* t := next in cret (renewThreshold <? Sub (CNotAfter c) (env_now t))
      else tooEarly nodeID certs
  end.

Definition RenewCert (ca : CA) (nodeID : string) : M (Error + RenewResult) :=
  let* r := GetNode nodeID in
  match r with
  | inl e => cret (inl (Wrap "fleet: renew cert" e))
  | inr _ =>
      let* certs := ListCerts in
      match certs with
      | inl e => cret (inl (Wrap "fleet: list certs for renewal" e))
      | inr certs =>
          let* early := tooEarly nodeID certs in
          if early : bool then cret (inl ErrCertNotYetExpiring)
          else
            let* r := ca_Issue ca (mkCertRequest nodeID RoleAgent [] 0) in
            match r with
            | inl e => cret (inl (Wrap "fleet: issue renewal cert" e))
            | inr ic =>
                audit "fleet.cert.renewed" nodeID [("serial", IC_Serial ic)]%string ;;;
                cret (inr (mkRenewResult (IC_CertPEM ic) (IC_NotAfter ic)))
            end
      end
  end.
End Fleet.

(** ** The registration service ([registration.go]) *)

Record EngineMetrics : Type := mkEngineMetrics {
  PrefillTokS : float64; DecodeTokS : float64; RamUsedGb : float64; VramUsedGb : float64; EQueueDepth : Z;
  EAcceptedTokensRatio : float64 }.

(** Wire [float]s are held as the [float64] they convert to. *)
Record HostMetrics : Type := mkHostMetrics {
  HM_Cpu : float64; HM_Gpu : float64; HM_MemBandwidth : float64; HM_Tokens : float64; HM_PortAlive : bool }.

Record HeartbeatMsg : Type := mkHeartbeat {
  HB_NodeId : string; HB_State : Z; HB_Metrics : option EngineMetrics; HB_Ts : option Time; HB_Host : option HostMetrics }.

Record NodeMetrics : Type := mkNodeMetrics {
  NM_NodeID : string; NM_State : string; NM_UpdatedAt : Time;
  PrefillTps : float64; DecodeTps : float64; RAMUsedGB : float64; VRAMUsedGB : float64; QueueDepth : Z;
  AcceptedTokensRatio : float64;
  CpuUtilizationPct : float64; GpuUtilizationPct : float64; MemBandwidthUtilPct : float64; TokensPerSecond : float64;
  InferencePortAlive : bool }.

Definition LiveMetrics : Type := gmap string NodeMetrics.

Definition Update (l : LiveMetrics) (nodeID state : string) (em : option EngineMetrics) (hw : option HostMetrics) (ts : Time)
    : LiveMetrics :=
  let e := default (mkEngineMetrics f0 f0 f0 f0 0 f0) em in
  let h := default (mkHostMetrics f0 f0 f0 f0 false) hw in
  <[nodeID := mkNodeMetrics nodeID state ts (PrefillTokS e) (DecodeTokS e) (RamUsedGb e) (VramUsedGb e) (EQueueDepth e)
                (EAcceptedTokensRatio e) (HM_Cpu h) (HM_Gpu h) (HM_MemBandwidth h) (HM_Tokens h) (HM_PortAlive h)]> l.

Definition Get (l : LiveMetrics) (nodeID : string) : option NodeMetrics := l !! nodeID.

Record Snapshot_ : Type := mkSnapshot {
  SN_AggregateDecode : float64; SN_Nodes : list (string * string * EngineMetrics) }.

Definition snapshotRow (m : NodeMetrics) : string * string * EngineMetrics :=
  (NM_NodeID m, NM_State m,
   mkEngineMetrics (PrefillTps m) (DecodeTps m) (RAMUsedGB m) (VRAMUsedGB m) (QueueDepth m) (AcceptedTokensRatio m)).

Inductive Code : Set := OK | PermissionDenied | Internal.

(** One result of [stream.Recv()]. *)
Inductive HBRecv : Type := HBMessage (hb : HeartbeatMsg) | HBEOF | HBErr (e : Error).

(** [errors.Is] for the sentinel errors of the package. *)
Fixpoint isSentinel (msg : string) (e : Error) : bool :=
  match e with
  | ErrorString s => (s =? msg)%string
  | Wrap _ e => isSentinel msg e
  | Cluster.Join es => existsb (isSentinel msg) es
  | _ => false
  end.

Definition tokenError (e : Error) : bool :=
  isSentinel "fleet: invalid or expired join token" e || isSentinel "fleet: join token already used" e.

Section Registration.
Context `{E : Env} `{P : PkiEnv} `{C : Crypto} `{F : FleetCodec}.

(** The cache is ranged over in any order. *)
Definition Snapshot (l : LiveMetrics) : M Snapshot_ :=
  let* t := next in
  let ms := env_order NodeMetrics t (map snd (map_to_list l)) in
  cret (mkSnapshot (fold_left (fun agg m => (agg + DecodeTps m)%f64) ms f0) (map snapshotRow ms)).

Definition JoinRPC (ca : CA) (m : Manager) (token : string) (hw : option Proto.HardwareProfile) (agentAddr infAddr : string)
    : M ((Code * option JoinResult) * Manager) :=
  let* (r, m) := Join ca m token hw agentAddr infAddr in
  cret (match r with
        | inl e => (if tokenError e then PermissionDenied else Internal, None)
        | inr res => (OK, Some res)
        end, m).

(** The cache is updated before the registry is asked about the node. *)
Definition applyHeartbeat (l : LiveMetrics) (hb : HeartbeatMsg) : M LiveMetrics :=
  let nodeID := HB_NodeId hb in
  if (nodeID =? "")%string then cret l
  else
    let* now := nowUTC in
    let ts := default now (HB_Ts hb) in
    let st := NodeState_String (HB_State hb) in
    let l := Update l nodeID st (HB_Metrics hb) (HB_Host hb) ts in
    let* r := GetNode nodeID in
    match r with
    | inl _ => cret l
    | inr n =>
        let state := if negb (st =? "")%string && negb (st =? "NODE_STATE_UNSPECIFIED")%string then st else State n in
        UpdateNode (with_nodeState n state ts) ;;;
        cret l
    end.

(** A list that runs out is a stream that is still open. *)
Fixpoint Heartbeat (l : LiveMetrics) (stream : list HBRecv) : M (option (option Error) * LiveMetrics) :=
  match stream with
  | [] => cret (None, l)
  | HBEOF :: _ => cret (Some None, l)
  | HBErr e :: _ => cret (Some (Some e), l)
  | HBMessage hb :: stream => let* l := applyHeartbeat l hb in Heartbeat l stream
  end.
End Registration.

(** ** The authority satisfies the interface *)

Section AuthorityLaws.
Context `{E : Env} `{P : PkiEnv} `{!PkiLaws P}.

Lemma attempt_db {A} what (f : nat -> A) : leaves same_db (attempt what f).
Proof. by intros w. Qed.

Lemma CreateCertificate_db what x parent pub priv : leaves same_db (CreateCertificate what x parent pub priv).
Proof.
  unfold CreateCertificate. destruct (x509_encodable x); cbn [negb]; [|by intros w]. destruct parent; [|apply attempt_db].
  by case_match; [apply attempt_db|intros w].
Qed.

(** An error of the first part is passed on with its world. *)
Lemma ebind_error {A B} (m : M (Error + A)) (k : A -> M (Error + B)) w e :
  fst (ebind m k w) = inl e -> leaves same_db m ->
  (forall a w1, same_db w w1 -> fst (k a w1) = inl e -> same_db w (snd (k a w1))) -> same_db w (snd (ebind m k w)).
Proof.
  unfold ebind. rewrite !cbind_run. intros He Hm Hk. pose proof (Hm w) as Hd.
  destruct (m w) as [[e'|a] w1]; cbn in *; [done|]. by apply Hk.
Qed.

Lemma Issue_error a req w e : fst (Issue a req w) = inl e -> same_db w (snd (Issue a req w)).
Proof.
  unfold Issue. destruct (CQ_CommonName req =? "")%string; [done|]. destruct (a_activeCert a); [|done].
  destruct (a_activeKey a); [|done]. intros He.
  apply (ebind_error _ _ w e He); [apply attempt_db|]. intros k w1 D1 He1.
  apply (ebind_error _ _ w1 e) in He1 as ?; [by etrans|apply attempt_db|]. intros n w2 D2 He2.
  rewrite cbind_run in He2 |- *. set (w3 := snd (nowUTC w2)) in *. assert (D3 : same_db w2 w3) by done.
  apply (ebind_error _ _ w3 e) in He2 as ?; [by do 2 (etrans; [eassumption|])|apply CreateCertificate_db|]. intros cert w4 D4 He4.
  rewrite cbind_run in He4 |- *. destruct (CreateCert _ w4) as [[err|] w5] eqn:Ec; [|done]. cbn.
  unfold CreateCert in Ec. run_step Ec. apply exec_spec in Ec as [_ [Hd _]]. unfold same_db in *. rewrite Hd.
  destruct (IsZero _); injection Hrun as _ <-; done.
Qed.

#[global] Instance Authority_CALaws a : CALaws (Authority_CA a).
Proof.
  split.
  - intros req w. cbn. destruct (Issue a req w) as [[e|ic] w'] eqn:H; cbn.
    + pose proof (Issue_error a req w e) as He. rewrite H in He. by apply He.
    + apply Issue_inv in H as (ca & leaf & Hi).
      destruct (is_row _ _ _ _ _ _ _ Hi) as [created Hd]. destruct Hi. eexists. rewrite Hd. split_and!; [..|done]; done.
  - intros serial w Hk Hh [c Hc]. cbn. unfold Revoke, GetCert, UpdateCert, query, exec, cbind, next, get_db, put_db, cret.
    cbn. rewrite !env_db_healthy. unfold getRow, updateRow. rewrite Hc. cbn. rewrite !env_db_healthy. cbn.
    rewrite (Hk _ _ Hc), Hc. cbn. unfold with_certs. f_equal. apply map_eq. intros s.
    destruct (decide (serial = s)) as [<-|]; [|by rewrite lookup_insert_ne, lookup_alter_ne].
    rewrite lookup_insert_eq, lookup_alter_eq, Hc. done.
Qed.
End AuthorityLaws.

(** ** Join tokens *)

Record JoinArgs : Type := mkJoinArgs {
  ja_Token : string; ja_Profile : option Proto.HardwareProfile; ja_AgentAddr : string; ja_InferenceAddr : string }.

Section Tokens.
Context `{E : Env} `{P : PkiEnv} `{C : Crypto} `{F : FleetCodec}.

(** The payload that the token carries. *)
Definition payloadOf (token : string) : option tokenPayload :=
  match cutFirst "." token with Some (body, _) => b64decode body ≫= decodeToken | None => None end.

Definition signed (m : Manager) (token : string) : Prop :=
  exists body, cutFirst "." token = Some (body, sign m body).

Lemma validateToken_inv m token w err m' w' :
  validateToken m token w = ((err, m'), w') ->
  w_db w' = w_db w /\ mg_secret m' = mg_secret m /\
  match err with
  | None => exists p, signed m token /\ payloadOf token = Some p /\ Unix (env_now (w_tick w)) <= Exp p /\
              Nonce p ∉ mg_used m /\ mg_used m' = {[ Nonce p ]} ∪ mg_used m
  | Some e => m' = m /\ (e = ErrInvalidToken \/ e = ErrTokenUsed)
  end.
Proof.
  unfold validateToken, payloadOf, signed. destruct (cutFirst "." token) as [[body sig]|]; [|intros [= <- <- <-]; auto].
  destruct (String.eqb_spec sig (sign m body)) as [->|]; cbn [negb]; [|intros [= <- <- <-]; auto].
  destruct (b64decode body ≫= decodeToken) as [p|]; [|intros [= <- <- <-]; auto].
  intros H. run_step H. injection Hrun as <- <-. destruct (Z.ltb_spec (Exp p) (Unix (env_now (w_tick w)))).
  - injection H as <- <- <-. auto.
  - case_decide; injection H as <- <- <-; [by auto|]. split; [done|]. split; [done|]. exists p.
    split; [by eexists|]. split; [done|]. split; [lia|]. done.
Qed.

Lemma validateToken_used m token w p :
  payloadOf token = Some p -> Nonce p ∈ mg_used m ->
  exists e, fst (validateToken m token w) = (Some e, m) /\ (e = ErrInvalidToken \/ e = ErrTokenUsed).
Proof.
  intros Hp Hu. destruct (validateToken m token w) as [[err m'] w'] eqn:H. apply validateToken_inv in H as (_ & _ & H).
  destruct err as [e|]; [|naive_solver]. destruct H as [-> He]. by exists e.
Qed.

Lemma Join_token ca m a w r m' w' :
  Join ca m (ja_Token a) (ja_Profile a) (ja_AgentAddr a) (ja_InferenceAddr a) w = ((r, m'), w') ->
  mg_secret m' = mg_secret m /\ mg_used m ⊆ mg_used m' /\
  (forall res, r = inr res -> exists p, payloadOf (ja_Token a) = Some p /\ Nonce p ∈ mg_used m') /\
  (forall p, payloadOf (ja_Token a) = Some p -> Nonce p ∈ mg_used m ->
     exists e, r = inl e /\ (e = ErrInvalidToken \/ e = ErrTokenUsed)).
Proof.
  unfold Join. intros H. run_step H. destruct r0 as [err m1].
  assert (Hu : forall p, payloadOf (ja_Token a) = Some p -> Nonce p ∈ mg_used m ->
            exists e, (err, m1) = (Some e, m) /\ (e = ErrInvalidToken \/ e = ErrTokenUsed)).
  { intros p Hp Hn. destruct (validateToken_used m (ja_Token a) w p Hp Hn) as (e & He & Hk). rewrite Hrun in He. eauto. }
  apply validateToken_inv in Hrun as (_ & Hs & Hr). destruct err as [e|].
  { destruct Hr as [-> He]. injection H as <- <- <-. split_and!; [done|done|done|]. eauto. }
  destruct Hr as (p & _ & Hp & _ & Hn & Hm).
  run_step H. injection H as <- <- <-. split_and!; [done|set_solver| |].
  - intros res _. exists p. split; [done|]. set_solver.
  - intros p' Hp' Hn'. by destruct (Hu p' Hp' Hn') as (e & ? & _).
Qed.

(** Requests to join, one after another. *)
Fixpoint joinAll (ca : CA) (m : Manager) (reqs : list JoinArgs) : M (list (Error + JoinResult) * Manager) :=
  match reqs with
  | [] => cret ([], m)
  | a :: reqs =>
      let* (r, m) := Join ca m (ja_Token a) (ja_Profile a) (ja_AgentAddr a) (ja_InferenceAddr a) in
      let* (rs, m) := joinAll ca m reqs in
      cret (r :: rs, m)
  end.

Lemma joinAll_used ca reqs : forall m w rs m' w' j b x p,
  joinAll ca m reqs w = ((rs, m'), w') -> reqs !! j = Some b -> rs !! j = Some x ->
  payloadOf (ja_Token b) = Some p -> Nonce p ∈ mg_used m -> exists e, x = inl e /\ (e = ErrInvalidToken \/ e = ErrTokenUsed).
Proof.
  induction reqs as [|a reqs IH]; intros m w rs m' w' j b x p H Hb Hx Hp Hn; [done|]. cbn in H. run_step H.
  destruct r as [r m1]. run_step H. destruct r0 as [rs1 m2]. injection H as <- <- <-.
  apply Join_token in Hrun as (_ & Hsub & _ & Hu). destruct j as [|j]; cbn in Hb, Hx.
  - simplify_eq. by eapply Hu.
  - eapply IH; eauto.
Qed.

(** Join tokens are single-use: in any sequence of join requests on a manager,
    with whatever failures in between, once a request with a token has succeeded
    every later request with the same token, or with any token of the same nonce, is
    refused. *)
Theorem join_single_use ca m reqs w rs m' w' i j a b r x p :
  joinAll ca m reqs w = ((rs, m'), w') -> (i < j)%nat ->
  reqs !! i = Some a -> reqs !! j = Some b -> payloadOf (ja_Token a) = Some p ->
  Nonce <$> payloadOf (ja_Token b) = Some (Nonce p) ->
  rs !! i = Some (inr r) -> rs !! j = Some x -> exists e, x = inl e /\ (e = ErrInvalidToken \/ e = ErrTokenUsed).
Proof.
  revert m w rs m' w' i j. induction reqs as [|c reqs IH]; intros m w rs m' w' i j H Hij Ha Hb Hp Hq Hi Hj; [done|].
  cbn in H. run_step H. destruct r0 as [r0 m1]. run_step H. destruct r1 as [rs1 m2]. injection H as <- <- <-.
  destruct j as [|j]; [lia|]. cbn in Hb, Hj. destruct i as [|i]; cbn in Ha, Hi.
  - simplify_eq. apply Join_token in Hrun as (_ & _ & Hs & _). destruct (Hs r eq_refl) as (p' & Hp' & Hn). simplify_eq.
    apply fmap_Some in Hq as (q & Hq & Hqn). rewrite Hqn in Hn. by eapply joinAll_used.
  - eapply (IH m1 w0 rs1 m2 w1 i j); eauto. lia.
Qed.

(** Join tokens: whatever is accepted carries the manager's MAC and a payload
    that has not expired, and a token is accepted, once, by every manager of the
    same secret up to the second of its expiry, provided base64 and JSON decode what
    they encode and base64 text has no dot. *)
Theorem join_token m ttl w tok w1 m2 w2 :
  (forall token w m' w', validateToken m token w = ((None, m'), w') ->
     signed m token /\ exists p, payloadOf token = Some p /\ Unix (env_now (w_tick w)) <= Exp p /\ Nonce p ∈ mg_used m') /\
  (GenerateJoinToken m ttl w = (tok, w1) -> mg_secret m2 = mg_secret m ->
   let p := mkTokenPayload (Unix (ExpiresAt tok)) (env_rand (w_tick w)) in
   b64decode (b64encode (encodeToken p)) = Some (encodeToken p) -> decodeToken (encodeToken p) = Some p ->
   cutFirst "." (b64encode (encodeToken p)) = None -> Nonce p ∉ mg_used m2 ->
   fst (validateToken m2 (Token tok) w2) =
   if Unix (env_now (w_tick w2)) <=? Unix (ExpiresAt tok) then (None, mkManager (mg_secret m2) ({[ Nonce p ]} ∪ mg_used m2))
   else (Some ErrInvalidToken, m2)).
Proof.
  split.
  - intros token w0 m' w' H. apply validateToken_inv in H as (_ & _ & p & Hs & Hp & Hx & _ & Hm). split; [done|].
    exists p. rewrite Hm. split_and!; [done|done|set_solver].
  - intros H Hs. unfold GenerateJoinToken in H. run_step H. injection Hrun as <- <-. run_step H. run_step H.
    injection H as <- <-. intros p H1 H2 H3 Hn. cbn [ExpiresAt Token] in *. set (body := b64encode (encodeToken p)) in *.
    unfold validateToken. change (b64encode _) with body. change ("." +:+ sign m body) with (String "." (sign m body)).
    rewrite cutFirst_app by done. unfold sign. rewrite Hs, String.eqb_refl. cbn [negb]. rewrite H1. cbn [mbind option_bind].
    rewrite H2, cbind_run. cbn [nowUTC]. rewrite Z.leb_antisym. cbn [Exp Nonce p].
    change (fst (nowUTC w2)) with (env_now (w_tick w2)). destruct (_ <? _); cbn [negb]; [done|]. by rewrite decide_False.
Qed.
End Tokens.

(** ** Nodes *)

Definition nodes_keyed (db : Database) : Prop := forall id n, db_nodes db !! id = Some n -> ID n = id.

(** A node as the statements store it. *)
Definition storedNode (n : Node) (created now : Time) : Node :=
  mkNode (ID n) (Hostname n) (OS n) (Arch n) (RAMGB n) (VRAMGB n) (State n) (AdvertisedAgentAddr n)
    (AdvertisedInferenceAddr n) (LastSeen n) (jsonOrEmpty (HardwareProfile n)) created now.

Section Nodes.
Context `{E : Env}.

Lemma GetNode_inv id w r w' :
  GetNode id w = (r, w') -> w_db w' = w_db w /\
  match r with
  | inr n => db_nodes (w_db w) !! id = Some n
  | inl e => env_db (w_tick w) ≠ None \/ e = ErrNotFound /\ db_nodes (w_db w) !! id = None
  end.
Proof.
  unfold GetNode. intros (Hd & _ & Hr)%query_spec. split; [done|]. unfold getRow in Hr.
  destruct (env_db (w_tick w)) as [e|]; [subst r; by left|]. destruct (db_nodes (w_db w) !! id); subst r; auto.
Qed.

Lemma UpdateNode_inv n w r w' :
  UpdateNode n w = (r, w') ->
  match r with
  | None => exists row now, db_nodes (w_db w) !! ID n = Some row /\
      w_db w' = with_nodes (w_db w) (<[ID n := mkNode (ID row) (Hostname n) (OS n) (Arch n) (RAMGB n) (VRAMGB n) (State n)
        (AdvertisedAgentAddr n) (AdvertisedInferenceAddr n) (LastSeen n) (jsonOrEmpty (HardwareProfile n)) (CreatedAt row)
        now]> (db_nodes (w_db w)))
  | Some _ => w_db w' = w_db w /\ (HealthyDB E -> db_nodes (w_db w) !! ID n = None)
  end.
Proof.
  unfold UpdateNode. intros H. run_step H. apply nowUTC_spec in Hrun as [Hd _]. apply exec_spec in H as [_ H].
  rewrite Hd in H. unfold updateRow in H. destruct r.
  - destruct H as [-> Hr]. split; [done|]. intros Hh. rewrite env_db_healthy in Hr. destruct Hr as [|Hr]; [done|]. by case_match.
  - case_match; [|done]. injection H as <-. eauto.
Qed.

Lemma CreateNode_inv n w r w' :
  CreateNode n w = (r, w') ->
  match r with
  | None => exists created now, db_nodes (w_db w) !! ID n = None /\
      w_db w' = with_nodes (w_db w) (<[ID n := storedNode n created now]> (db_nodes (w_db w)))
  | Some _ => w_db w' = w_db w
  end.
Proof.
  unfold CreateNode. intros H. run_step H. apply nowUTC_spec in Hrun as [Hd _]. apply exec_spec in H as [_ H].
  rewrite Hd in H. unfold insertRow in H. destruct r; [by destruct H as [-> _]|].
  case_match; [done|]. injection H as <-. eauto.
Qed.

(** Only the state and the times of the node's row change. *)
Lemma moveNode_inv what id state w r w' :
  moveNode what id state w = (r, w') -> nodes_keyed (w_db w) ->
  match r with
  | None => exists n now, db_nodes (w_db w) !! id = Some n /\
      w_db w' = with_nodes (w_db w) (<[id := storedNode (with_nodeState n state (LastSeen n)) (CreatedAt n) now]> (db_nodes (w_db w)))
  | Some _ => w_db w' = w_db w /\ (HealthyDB E -> db_nodes (w_db w) !! id = None)
  end.
Proof.
  unfold moveNode. intros H Hk. run_step H. apply GetNode_inv in Hrun as [Hd Hn]. destruct r0 as [e|n].
  - injection H as <- <-. split; [done|]. intros [Hh]. rewrite Hh in Hn. naive_solver.
  - apply UpdateNode_inv in H. apply Hk in Hn as Hid. cbn in H. rewrite Hd, Hid in H. destruct r.
    + done.
    + destruct H as (row & now & Hr & Hw). exists n, now. rewrite Hn in Hr. injection Hr as <-. split; [done|exact Hw].
Qed.

(** An audit row changes the log only. *)
Definition log_only (w w' : World) : Prop := exists l, w_db w' = with_audit (w_db w) l.

Lemma audit_log action target details : leaves log_only (audit action target details).
Proof.
  intros w. unfold audit. set (e := mkAuditEntry _ _ _ _ _). rewrite cbind_run. destruct (AppendAudit e w) as [r w2] eqn:H.
  by apply AppendAudit_db in H.
Qed.
End Nodes.

(** ** Decommissioning *)

Section Decommissioning.
Context `{E : Env} `{!HealthyDB E} (ca : CA) `{!CALaws ca}.

Lemma certs_keyed_alter db s : certs_keyed db ->
  certs_keyed (with_certs db (alter (fun c => with_state c StateRevoked) s (db_certs db))).
Proof.
  intros Hk k c. cbn. intros Hc. apply lookup_alter_Some in Hc as [(<- & c' & Hc & ->)|[_ Hc]]; [|by apply Hk].
  cbn. by apply Hk.
Qed.

Lemma revokeAll_spec id l : forall w, certs_keyed (w_db w) -> Forall (fun c => is_Some (db_certs (w_db w) !! CSerial c)) l ->
  exists tbl, w_db (snd (revokeAll ca id l w)) = with_certs (w_db w) tbl /\
    forall s, tbl !! s = if existsb (fun c => issuedTo id c && (CSerial c =? s)%string) l
                         then (fun c => with_state c StateRevoked) <$> db_certs (w_db w) !! s
                         else db_certs (w_db w) !! s.
Proof.
  induction l as [|c l IH]; intros w Hk Hl; cbn [revokeAll].
  { exists (db_certs (w_db w)). split; [by destruct w as [? []]|done]. }
  apply Forall_cons in Hl as [Hc Hl]. rewrite cbind_run. destruct (issuedTo id c) eqn:Hi.
  - rewrite cbind_run. cbn [cret snd]. pose proof (law_revoke (CSerial c) w Hk _ Hc) as Hr.
    set (w1 := snd (ca_Revoke ca (CSerial c) w)) in *.
    destruct (IH w1) as (tbl & Hd & Ht).
    { rewrite Hr. by apply certs_keyed_alter. }
    { rewrite Hr. cbn. eapply Forall_impl; [exact Hl|]. intros d Hs. by apply lookup_alter_is_Some. }
    exists tbl. rewrite Hd, Hr. split; [done|]. intros s. rewrite Ht, Hr. cbn. rewrite Hi. cbn.
    destruct (String.eqb_spec (CSerial c) s) as [<-|Hne]; [|by rewrite lookup_alter_ne].
    rewrite lookup_alter_eq. destruct Hc as [row ->]. by destruct (existsb _ _).
  - cbn [cret snd]. destruct (IH w Hk Hl) as (tbl & Hd & Ht). exists tbl. split; [done|]. intros s. rewrite Ht. cbn. by rewrite Hi.
Qed.

Context `{!EnvLaws E}.

Lemma ListCerts_run w : exists l w1, ListCerts w = (inr l, w1) /\ w_db w1 = w_db w /\
  l ≡ₚ map snd (map_to_list (db_certs (w_db w))).
Proof.
  unfold ListCerts, query, cbind, next, get_db, cret. cbn. rewrite env_db_healthy. do 2 eexists. split; [done|].
  split; [done|]. apply env_order_perm.
Qed.

Lemma listed_cert db c l : l ≡ₚ map snd (map_to_list (db_certs db)) -> certs_keyed db ->
  c ∈ l <-> db_certs db !! CSerial c = Some c.
Proof.
  intros Hl Hk. rewrite Hl, list_elem_of_In, in_map_iff. split.
  - intros ([s c'] & <- & Hin%list_elem_of_In%elem_of_map_to_list). cbn. by rewrite (Hk _ _ Hin).
  - intros Hc. exists (CSerial c, c). split; [done|]. by apply list_elem_of_In, elem_of_map_to_list.
Qed.

Lemma Decommission_run id n w :
  nodes_keyed (w_db w) -> certs_keyed (w_db w) -> db_nodes (w_db w) !! id = Some n ->
  exists w', Decommission ca id w = (None, w') /\ db_deployments (w_db w') = db_deployments (w_db w) /\
    (exists n', db_nodes (w_db w') !! id = Some n' /\ State n' = NodeStateDecommissioned) /\
    (forall k, k ≠ id -> db_nodes (w_db w') !! k = db_nodes (w_db w) !! k) /\
    (forall s, db_certs (w_db w') !! s =
       (fun c => if issuedTo id c then with_state c StateRevoked else c) <$> db_certs (w_db w) !! s).
Proof.
  intros Hnk Hck Hn. unfold Decommission. rewrite cbind_run.
  destruct (moveNode _ id _ w) as [r w1] eqn:Hm. apply moveNode_inv in Hm; [|done]. cbn [fst snd].
  destruct r as [e|]; [destruct Hm as [_ Hm]; rewrite Hm in Hn by done; done|]. destruct Hm as (n0 & now & Hn0 & Hd1).
  rewrite cbind_run. destruct (ListCerts_run w1) as (l & w2 & -> & Hd2 & Hl). cbn [fst snd].
  rewrite !cbind_run. assert (Hck2 : certs_keyed (w_db w2)). { rewrite Hd2, Hd1. exact Hck. }
  destruct (revokeAll_spec id l w2 Hck2) as (tbl & Hd3 & Ht).
  { apply Forall_forall. intros c Hc. rewrite (listed_cert (w_db w2) c l) in Hc; [eauto|by rewrite Hd2|done]. }
  set (w3 := snd (revokeAll ca id l w2)) in *.
  destruct (audit_log "fleet.node.decommissioned" id [] w3) as [log Hlog]. eexists. split; [done|]. cbn [cret snd].
  rewrite Hlog, Hd3, Hd2, Hd1. cbn. split; [done|]. split_and!.
  - eexists. rewrite lookup_insert_eq. split; reflexivity.
  - intros k Hk. by rewrite lookup_insert_ne.
  - intros s. rewrite Ht, Hd2, Hd1. cbn. destruct (db_certs (w_db w) !! s) as [c|] eqn:Hc; cbn; [|by destruct (existsb _ _)].
    assert (Hin : c ∈ l). { rewrite (listed_cert (w_db w2) c l); [|by rewrite Hd2|done]. rewrite Hd2, Hd1. cbn. by rewrite (Hck _ _ Hc). }
    destruct (existsb _ l) eqn:He.
    + apply existsb_exists in He as (c' & Hc' & [Hi Hs%String.eqb_eq]%andb_true_iff). apply list_elem_of_In in Hc'.
      rewrite (listed_cert (w_db w2) c' l) in Hc'; [|by rewrite Hd2|done]. rewrite Hd2, Hd1, Hs in Hc'. cbn in Hc'.
      rewrite Hc in Hc'. injection Hc' as ->. rewrite Hi. reflexivity.
    + destruct (issuedTo id c) eqn:Hi; [|done]. apply not_true_iff_false in He. destruct He. apply existsb_exists. exists c.
      split; [by apply list_elem_of_In|]. by rewrite Hi, (Hck _ _ Hc), String.eqb_refl.
Qed.

(** Decommissioning: with a registry that answers, [Decommission] of a known
    node succeeds, puts the node in the decommissioned state and revokes exactly
    the issued certificates of the node, whatever authority implements the interface;
    every other node and certificate is as before. *)
Theorem Decommission_revokes id n w :
  nodes_keyed (w_db w) -> certs_keyed (w_db w) -> db_nodes (w_db w) !! id = Some n ->
  exists w', Decommission ca id w = (None, w') /\
    (exists n', db_nodes (w_db w') !! id = Some n' /\ State n' = NodeStateDecommissioned) /\
    (forall k, k ≠ id -> db_nodes (w_db w') !! k = db_nodes (w_db w) !! k) /\
    (forall s, db_certs (w_db w') !! s =
       (fun c => if issuedTo id c then with_state c StateRevoked else c) <$> db_certs (w_db w) !! s).
Proof. intros H1 H2 H3. destruct (Decommission_run id n w H1 H2 H3) as (w' & H & _ & Hr). eauto. Qed.
End Decommissioning.

(** ** Enrolment and heartbeats *)

Section Enrolment.
Context `{E : Env} `{P : PkiEnv} `{C : Crypto} `{F : FleetCodec} (ca : CA) `{!CALaws ca}.

Lemma upsertNode_inv node w w' :
  upsertNode node w = (None, w') -> nodes_keyed (w_db w) ->
  exists created now, w_db w' = with_nodes (w_db w) (<[ID node := storedNode node created now]> (db_nodes (w_db w))).
Proof.
  unfold upsertNode. intros H Hk. run_step H. apply GetNode_inv in Hrun as [Hd Hn]. destruct r as [e|n].
  - destruct (isNotFound e); [|done]. run_step H. destruct r; [done|]. injection H as <-.
    apply CreateNode_inv in Hrun as (created & now & _ & Hw). rewrite Hd in Hw. eauto.
  - run_step H. destruct r; [done|]. injection H as <-. apply UpdateNode_inv in Hrun as (row & now & Hr & Hw).
    rewrite Hd in Hw, Hr. exists (CreatedAt row), now. rewrite Hw. unfold storedNode. by rewrite (Hk _ _ Hr).
Qed.

(** Enrolment: a join that succeeds leaves the node in the registry as
    ENROLLED, under the returned ID and with the addresses it advertised, and a
    fresh issued certificate whose subject is the node; every other node and every
    other certificate is as before. A join that does not consume its token changes nothing. *)
Theorem Join_enrolls m token hw agentAddr infAddr w r m' w' :
  Join ca m token hw agentAddr infAddr w = ((r, m'), w') -> nodes_keyed (w_db w) ->
  match r with
  | inr res =>
      (exists n, db_nodes (w_db w') !! NodeID res = Some n /\ State n = NodeStateEnrolled /\
         AdvertisedAgentAddr n = agentAddr /\ AdvertisedInferenceAddr n = infAddr) /\
      (forall k, k ≠ NodeID res -> db_nodes (w_db w') !! k = db_nodes (w_db w) !! k) /\
      (forall h, hw = Some h -> Proto.HNodeId h ≠ ""%string -> NodeID res = Proto.HNodeId h) /\
      exists c, db_certs (w_db w) !! CSerial c = None /\ CSubject c = NodeID res /\ CState c = StateIssued /\
        db_certs (w_db w') = <[CSerial c := c]> (db_certs (w_db w))
  | inl _ => m' = m -> w_db w' = w_db w
  end.
Proof.
  unfold Join. intros H Hk. run_step H. destruct r0 as [err m1]. apply validateToken_inv in Hrun as (Hd0 & _ & Hr).
  destruct err as [e|]; [by injection H as <- <- <-|]. run_step H. injection H as -> -> ->. destruct r as [e|res].
  { intros ->. destruct Hr as (p & _ & _ & _ & Hn & Hm). exfalso. apply Hn. rewrite Hm. set_solver. }
  unfold enroll in Hrun. run_step Hrun. assert (Hd1 : w_db w1 = w_db w).
  { rewrite <- Hd0. destruct (_ =? _)%string in Hrun0; by injection Hrun0 as _ <-. }
  run_step Hrun. destruct r0; [done|]. apply upsertNode_inv in Hrun1 as (created & now & Hd2); [|by rewrite Hd1].
  run_step Hrun. destruct r0 as [e|ic]; [done|]. destruct (ca_CACertificate ca) as [e|cert]; [done|].
  match type of Hrun1 with ca_Issue ca ?q ?w = _ => pose proof (law_issue q w) as Hi; rewrite Hrun1 in Hi end.
  cbn [fst snd] in Hi. destruct Hi as (c & Hs & Hsub & Hst & _ & Hfresh & Hd3).
  rewrite cbind_run in Hrun. match type of Hrun with context [audit ?a ?b ?l ?w] => destruct (audit_log a b l w) as [log Hlog] end.
  injection Hrun as <- <-. rewrite Hlog, Hd3, Hd2, Hd1. rewrite Hd2, Hd1 in Hfresh. cbn in *.
  assert (Hid : ID (joinNode r hw agentAddr infAddr) = r) by (by destruct hw). rewrite Hid. split_and!.
  - exists (storedNode (joinNode r hw agentAddr infAddr) created now). rewrite lookup_insert_eq.
    destruct hw; split_and!; reflexivity.
  - intros k Hne. by rewrite lookup_insert_ne.
  - intros h -> Hne. apply String.eqb_neq in Hne. rewrite Hne in Hrun0. by injection Hrun0 as <- _.
  - exists c. rewrite Hs. split; [exact Hfresh|]. split; [exact Hsub|]. split; [exact Hst|reflexivity].
Qed.

Lemma known_state s old : 0 <= s < 10 ->
  (if negb (NodeState_String s =? "")%string && negb (NodeState_String s =? "NODE_STATE_UNSPECIFIED")%string
   then NodeState_String s else old) = if s =? 0 then old else NodeState_String s.
Proof.
  intros Hs. assert (Hc : s = 0 \/ s = 1 \/ s = 2 \/ s = 3 \/ s = 4 \/ s = 5 \/ s = 6 \/ s = 7 \/ s = 8 \/ s = 9) by lia.
  repeat (destruct Hc as [->|Hc]; [reflexivity|]). by rewrite Hc.
Qed.

(** Heartbeats: a heartbeat is cached for any node ID, and for a known node it
    overwrites the last-seen time and, unless the reported state is the unspecified
    one, the state; the state the operator or the enrolment gave the node does not
    matter, so that a node that was drained, decommissioned or not yet approved is
    READY after one heartbeat that says so. *)
Theorem applyHeartbeat_overwrites l hb n w :
  HealthyDB E -> nodes_keyed (w_db w) -> HB_NodeId hb ≠ ""%string -> 0 <= HB_State hb < 10 ->
  db_nodes (w_db w) !! HB_NodeId hb = Some n ->
  exists l' w' n', applyHeartbeat l hb w = (l', w') /\ db_nodes (w_db w') = <[HB_NodeId hb := n']> (db_nodes (w_db w)) /\
    State n' = (if HB_State hb =? 0 then State n else NodeState_String (HB_State hb)) /\
    LastSeen n' = default (env_now (w_tick w)) (HB_Ts hb) /\
    (exists s, Get l' (HB_NodeId hb) = Some s /\ NM_State s = NodeState_String (HB_State hb)).
Proof.
  intros Hh Hk Hid Hst Hn. unfold applyHeartbeat. apply String.eqb_neq in Hid as Hid'. rewrite Hid'. clear Hid'.
  rewrite !cbind_run. set (w1 := snd (nowUTC w)). assert (Hd1 : w_db w1 = w_db w) by done.
  destruct (GetNode (HB_NodeId hb) w1) as [r w2] eqn:Hg. apply GetNode_inv in Hg as [Hd2 Hr]. cbn [fst snd].
  rewrite Hd1, Hn, env_db_healthy in Hr. destruct r as [e|n0]; [naive_solver|]. injection Hr as <-.
  rewrite cbind_run. match goal with |- context [UpdateNode ?x ?y] => destruct (UpdateNode x y) as [r w3] eqn:Hu end.
  apply UpdateNode_inv in Hu. cbn in Hu. rewrite Hd2, Hd1, (Hk _ _ Hn), Hn in Hu. cbn [fst snd].
  destruct r as [e|]; [by destruct Hu as [_ Hu]; specialize (Hu Hh)|]. destruct Hu as (row & now & Hrow & Hw).
  do 3 eexists. split; [reflexivity|]. rewrite Hw. split; [reflexivity|]. split; [|split; [reflexivity|]].
  - apply known_state. lia.
  - eexists. split; [apply (lookup_insert_eq (M := gmap string))|reflexivity].
Qed.
End Enrolment.

(** ** Renewal *)

Section Renewal.
Context `{E : Env} `{!HealthyDB E} `{!EnvLaws E} (ca : CA) `{!CALaws ca}.

Lemma tooEarly_spec id l w :
  exists w1, tooEarly id l w = (match List.find (issuedTo id) l with
                                | Some c => renewThreshold <? Sub (CNotAfter c) (env_now (w_tick w))
                                | None => false
                                end, w1) /\ w_db w1 = w_db w.
Proof.
  induction l as [|c l IH]; cbn [tooEarly List.find]; [by eexists|]. destruct (issuedTo id c); [|apply IH].
  eexists. split; reflexivity.
Qed.

(** Renewal: [RenewCert] of a known node is refused as premature exactly when
    the first issued certificate that the registry lists for the node has more than
    sixty days left; otherwise it fails with the authority or adds one fresh issued
    certificate. It never touches the certificates that were there: the one that is
    about to expire stays issued, so that whenever it is listed first the next
    renewal is granted too. *)
Theorem RenewCert_guard id n w :
  db_nodes (w_db w) !! id = Some n ->
  exists certs t, certs ≡ₚ map snd (map_to_list (db_certs (w_db w))) /\
  match fst (RenewCert ca id w), List.find (issuedTo id) certs with
  | inl e, first =>
      w_db (snd (RenewCert ca id w)) = w_db w /\
      (e = ErrCertNotYetExpiring <-> exists c, first = Some c /\ renewThreshold < Sub (CNotAfter c) (env_now t))
  | inr res, first =>
      (forall c, first = Some c -> Sub (CNotAfter c) (env_now t) <= renewThreshold) /\
      exists c, db_certs (w_db w) !! CSerial c = None /\ issuedTo id c = true /\ CNotAfter c = RExpiresAt res /\
        db_certs (w_db (snd (RenewCert ca id w))) = <[CSerial c := c]> (db_certs (w_db w))
  end.
Proof.
  intros Hn. unfold RenewCert. rewrite !cbind_run. destruct (GetNode id w) as [r w1] eqn:Hg.
  apply GetNode_inv in Hg as [Hd1 Hr]. rewrite Hn, env_db_healthy in Hr. cbn [fst snd]. destruct r as [e|n0]; [naive_solver|].
  rewrite !cbind_run. destruct (ListCerts_run w1) as (l & w2 & -> & Hd2 & Hl). cbn [fst snd]. rewrite !cbind_run.
  destruct (tooEarly_spec id l w2) as (w3 & -> & Hd3). cbn [fst snd]. rewrite Hd1 in Hl. exists l, (w_tick w2). split; [exact Hl|].
  assert (Hdb : w_db w3 = w_db w) by congruence. set (early := match List.find (issuedTo id) l with Some c => _ | None => false end).
  assert (He : early = true <-> exists c, List.find (issuedTo id) l = Some c /\ renewThreshold < Sub (CNotAfter c) (env_now (w_tick w2))).
  { unfold early. destruct (List.find _ l) as [c|]; [|naive_solver]. rewrite Z.ltb_lt. naive_solver. }
  destruct early eqn:Hearly; cbn [fst snd cret]; [rewrite <- He; done|]. rewrite !cbind_run.
  pose proof (law_issue (mkCertRequest id RoleAgent [] 0) w3) as Hi. destruct (ca_Issue ca _ w3) as [[e|ic] w4]; cbn [fst snd cret] in *.
  { rewrite <- He. split; [congruence|]. split; [discriminate|done]. }
  destruct Hi as (c & Hs & Hsub & Hst & Hna & Hf & Hd4). rewrite !cbind_run.
  match goal with |- context [audit ?a ?b ?x ?w] => destruct (audit_log a b x w) as [log Hlog] end. cbn [fst snd cret].
  rewrite Hlog, Hd4, Hdb. rewrite Hdb in Hf. split.
  - intros c' Hc'. destruct (Z_le_gt_dec (Sub (CNotAfter c') (env_now (w_tick w2))) renewThreshold); [done|].
    enough (false = true) by done. apply He. exists c'. split; [done|]. lia.
  - exists c. rewrite Hs. split; [exact Hf|]. split; [|split; [exact Hna|reflexivity]].
    unfold issuedTo. by rewrite Hsub, Hst, !String.eqb_refl.
Qed.
End Renewal.

(** ** A concrete fleet *)

Section Witnesses.
#[local] Existing Instance calmEnv.
#[local] Existing Instance toyPki.
#[local] Existing Instance toyPki_laws.
#[local] Existing Instance toyCrypto.
Local Open Scope string_scope.

#[local] Instance toyFleet : FleetCodec := {|
  encodeToken _ := "tok"; decodeToken s := if s =? "tok" then Some (mkTokenPayload 3600 "0a") else None;
  marshalProfile _ := None |}.

Definition exAuth : CA := Authority_CA exA.
Definition exManager : Manager := NewWithSecret "k".
Definition exProfile (id : string) : Proto.HardwareProfile :=
  Proto.mkHardwareProfile id [] [] f0 f0 f0 f0 ∅ f0 false "host" 1 1.
Definition exArgs (id : string) : JoinArgs := mkJoinArgs "tok.ktok" (Some (exProfile id)) "10.0.0.1:9000" "10.0.0.1:8000".
Definition exJoins := joinAll exAuth exManager [exArgs "n1"; exArgs "n2"] exW.
Definition exWorld1 : World := snd exJoins.

(** The node that joined, or the error. *)
Definition outcome (r : Error + JoinResult) : Error + string := match r with inl e => inl e | inr res => inr (NodeID res) end.

Lemma exJoins_outcome : map outcome (fst (fst exJoins)) = [inr "n1"; inl ErrTokenUsed].
Proof. vm_compute. reflexivity. Qed.

Lemma exJoins_run : joinAll exAuth exManager [exArgs "n1"; exArgs "n2"] exW = ((fst (fst exJoins), snd (fst exJoins)), exWorld1).
Proof. unfold exWorld1, exJoins. by destruct (joinAll _ _ _ _) as [[]]. Qed.

Lemma join_single_use_witness :
  map outcome (fst (fst exJoins)) = [inr "n1"; inl ErrTokenUsed] /\
  exists x e, fst (fst exJoins) !! 1%nat = Some x /\ x = inl e /\ (e = ErrInvalidToken \/ e = ErrTokenUsed).
Proof.
  split; [exact exJoins_outcome|]. pose proof exJoins_outcome as Ho. pose proof exJoins_run as Hr.
  set (rs := fst (fst exJoins)) in *. clearbody rs. destruct rs as [|[e1|r] [|x rs]]; try discriminate Ho.
  assert (H : exists e, x = inl e /\ (e = ErrInvalidToken \/ e = ErrTokenUsed)).
  { apply (join_single_use exAuth exManager [exArgs "n1"; exArgs "n2"] exW (inr r :: x :: rs) (snd (fst exJoins)) exWorld1 0 1
      (exArgs "n1") (exArgs "n2") r x (mkTokenPayload 3600 "0a") Hr); [lia|reflexivity..]. }
  destruct H as (e & He & Hk). exists x, e. split; [reflexivity|]. split; [exact He|exact Hk].
Defined.

Lemma join_token_witness :
  fst (validateToken exManager (Token (fst (GenerateJoinToken exManager 0 emptyWorld))) emptyWorld) =
  (None, mkManager "k" ({[ "0a" ]} ∪ ∅)).
Proof.
  destruct (join_token exManager 0 emptyWorld (fst (GenerateJoinToken exManager 0 emptyWorld))
              (snd (GenerateJoinToken exManager 0 emptyWorld)) exManager emptyWorld) as [_ H].
  apply H; try reflexivity. apply not_elem_of_empty.
Defined.

Definition exJoin := Join exAuth exManager "tok.ktok" (Some (exProfile "n1")) "a" "i" exW.

Lemma Join_enrolls_witness :
  exists r n, outcome (fst (fst exJoin)) = inr "n1" /\ fst (fst exJoin) = inr r /\
    db_nodes (w_db (snd exJoin)) !! NodeID r = Some n /\ State n = NodeStateEnrolled.
Proof.
  assert (Ho : outcome (fst (fst exJoin)) = inr "n1") by (vm_compute; reflexivity).
  assert (Hr : Join exAuth exManager "tok.ktok" (Some (exProfile "n1")) "a" "i" exW
               = ((fst (fst exJoin), snd (fst exJoin)), snd exJoin)) by (unfold exJoin; by destruct (Join _ _ _ _ _ _ _) as [[]]).
  assert (Hk : nodes_keyed (w_db exW)) by (intros id n Hn; vm_compute in Hn; by destruct id).
  pose proof (Join_enrolls exAuth exManager "tok.ktok" (Some (exProfile "n1")) "a" "i" exW _ _ _ Hr Hk) as H.
  destruct (fst (fst exJoin)) as [e|r]; [discriminate Ho|]. destruct H as [(n & H1 & H2 & _) _]. exists r, n.
  split; [exact Ho|]. split; [reflexivity|]. split; [exact H1|exact H2].
Defined.

Lemma exWorld1_keyed : nodes_keyed (w_db exWorld1) /\ certs_keyed (w_db exWorld1).
Proof.
  split.
  - assert (H : bool_decide (map_Forall (fun id n => ID n = id) (db_nodes (w_db exWorld1))) = true) by (vm_compute; reflexivity).
    apply bool_decide_eq_true in H. exact H.
  - assert (H : bool_decide (map_Forall (fun s c => CSerial c = s) (db_certs (w_db exWorld1))) = true) by (vm_compute; reflexivity).
    apply bool_decide_eq_true in H. exact H.
Qed.

Definition exN1 : Node := default (joinNode "" None "" "") (db_nodes (w_db exWorld1) !! "n1").

Lemma exN1_row : db_nodes (w_db exWorld1) !! "n1" = Some exN1.
Proof. vm_compute. reflexivity. Qed.

Lemma Decommission_revokes_witness :
  existsb (issuedTo "n1") (map snd (map_to_list (db_certs (w_db exWorld1)))) = true /\
  exists w', Decommission exAuth "n1" exWorld1 = (None, w') /\
    forall s c, db_certs (w_db w') !! s = Some c -> issuedTo "n1" c = false.
Proof.
  split; [vm_compute; reflexivity|].
  destruct (Decommission_revokes exAuth "n1" exN1 exWorld1 (proj1 exWorld1_keyed) (proj2 exWorld1_keyed) exN1_row)
    as (w' & H1 & _ & _ & H2).
  exists w'. split; [exact H1|]. intros s c. rewrite H2. intros (c0 & Hc & Hl)%fmap_Some. subst c.
  destruct (issuedTo "n1" c0) eqn:Hi; [|exact Hi]. unfold issuedTo, with_state. cbn. by rewrite andb_false_r.
Defined.

Definition exBeat : HeartbeatMsg := mkHeartbeat "n1" 3 None None None.

(** After decommissioning. *)
Definition exWorld2 : World := snd (Decommission exAuth "n1" exWorld1).

Lemma applyHeartbeat_overwrites_witness :
  exists n l' w' n', db_nodes (w_db exWorld2) !! "n1" = Some n /\ State n = NodeStateDecommissioned /\
    applyHeartbeat ∅ exBeat exWorld2 = (l', w') /\ db_nodes (w_db w') = <["n1" := n']> (db_nodes (w_db exWorld2)) /\
    State n' = NodeStateReady.
Proof.
  assert (Hk : nodes_keyed (w_db exWorld2)).
  { assert (H : bool_decide (map_Forall (fun id n => ID n = id) (db_nodes (w_db exWorld2))) = true) by (vm_compute; reflexivity).
    apply bool_decide_eq_true in H. exact H. }
  assert (Hs : State <$> db_nodes (w_db exWorld2) !! "n1" = Some NodeStateDecommissioned) by (vm_compute; reflexivity).
  apply fmap_Some in Hs as (n & Hn & Hs).
  destruct (applyHeartbeat_overwrites ∅ exBeat n exWorld2 _ Hk) as (l' & w' & n' & H1 & H2 & H3 & _);
    [discriminate|cbn; lia|exact Hn|].
  exists n, l', w', n'. split; [exact Hn|]. split; [by symmetry|]. split; [exact H1|]. split; [exact H2|exact H3].
Defined.

Lemma RenewCert_guard_witness :
  fst (RenewCert exAuth "n1" exWorld1) = inl ErrCertNotYetExpiring /\
  w_db (snd (RenewCert exAuth "n1" exWorld1)) = w_db exWorld1.
Proof.
  assert (Hf : fst (RenewCert exAuth "n1" exWorld1) = inl ErrCertNotYetExpiring) by (vm_compute; reflexivity).
  split; [exact Hf|]. destruct (RenewCert_guard exAuth "n1" exN1 exWorld1 exN1_row) as (certs & t & _ & H).
  rewrite Hf in H. apply H.
Defined.
End Witnesses.
