(* ===== verification/Planning.v ===== *)
(** * Planning: from the registry to a plan

    [go/controlplane/planning/planning.go]: reads the ready nodes, the links and the
    model from the registry, converts them to the planner's types, plans, and puts
    the plan on the wire; and the verdicts of [Fit] and [FitAll]. Protobuf's JSON
    decoder is a parameter. *)
From S2P Require Import Prelude Float64 PlanTypes CostModel Fixtures Partition.
From S2P Require Import Ordering Planner Convert Cluster Registry Orchestrator.
Open Scope Z_scope.

Class ProtoJSON : Type := {
  unmarshalProfile : string -> Error + Proto.HardwareProfile;
  unmarshalSpec : string -> Error + Proto.ModelSpec }.

Definition readyStates (s : string) : bool := (s =? "NODE_STATE_READY")%string || (s =? "NODE_STATE_RUNNING")%string.

Record FitError : Type := mkFitError { FE_Reason : Reason; FE_DeficitGB : float64; FE_Suggestions : list string }.

(** What [Plan] returns besides a plan: an error of the registry or the decoder, a
    model that does not fit, another error of the planner; a panic of the planner is
    the program's. *)
Inductive PlanningError : Type :=
| PE_Registry (e : Error)
| PE_Fit (e : FitError)
| PE_Planner (e : GoError)
| PE_Panic.

Record EstimateRange : Type := mkEstimateRange {
  DecodeMinTokS : float64; DecodeMaxTokS : float64; PrefillMinTokS : float64; PrefillMaxTokS : float64; HeadroomGB : float64 }.

(** The text of an error is the error. *)
Inductive FitReason : Type := FR_None | FR_Plan (r : Reason) | FR_Error (e : Error) | FR_Planner (e : GoError).

Record FitVerdict : Type := mkFit {
  F_ModelID : string; F_Deployable : bool; F_NodeCount : Z; F_Quantization : string; F_Estimated : option EstimateRange;
  F_DeficitGB : float64; F_Reason : FitReason; F_Suggestions : list string }.

(** The context of the planner's calls and its environment override. *)
Record PlanCtx : Type := mkPlanCtx { pc_poll : nat -> bool; pc_polls : string -> nat -> bool; pc_threshold : Z }.

Definition hasJSON (b : string) : bool := negb (b =? "")%string && negb (b =? "{}")%string && negb (b =? "null")%string.

Definition HardwareProfile_empty : Proto.HardwareProfile :=
  Proto.mkHardwareProfile "" [] [] f0 f0 f0 f0 ∅ f0 false "" 0 0.
Definition ProtoSpec_empty : Proto.ModelSpec := Proto.mkModelSpec "" f0 f0 0 0 0 0 0 0 false None [].

Definition toFitError (e : GoError) : PlanningError :=
  match e with
  | ErrPlan pe => PE_Fit (mkFitError (Err_Reason pe) (Err_DeficitGB pe) (Err_Suggestions pe))
  | e => PE_Planner e
  end.

Section Planning.
Context `{E : Env} `{J : ProtoJSON}.

(** The profile, when there is one, and the fall-backs from the row's columns. *)
Definition plannerNode (rn : Row.Node) : Error + Node :=
  let hw := if hasJSON (Row.HardwareProfile rn) then unmarshalProfile (Row.HardwareProfile rn) else inr HardwareProfile_empty in
  match hw with
  | inl e => inl (Wrap "planning: decode hardware profile" e)
  | inr hw =>
      let n := NodeFromHardwareProfile (Some hw) in
      let id := if (Node_ID n =? "")%string then Row.ID rn else Node_ID n in
      let total := if feqb (Node_RAMTotalGB n) f0 then Row.RAMGB rn else Node_RAMTotalGB n in
      let available := if feqb (Node_RAMAvailableGB n) f0 then (if (total >? f0)%f64 then total else Row.RAMGB rn)
                       else Node_RAMAvailableGB n in
      let vram := if feqb (Node_VRAMGB n) f0 then Row.VRAMGB rn else Node_VRAMGB n in
      inr {| Node_ID := id; Node_RAMTotalGB := total; Node_RAMAvailableGB := available; Node_VRAMGB := vram;
             Node_UnifiedMemory := Node_UnifiedMemory n; Node_MemBandwidthGBs := Node_MemBandwidthGBs n;
             Node_Backends := Node_Backends n; Node_FP4Native := Node_FP4Native n;
             Node_EngineVersions := Node_EngineVersions n; Node_DiskFreeGB := Node_DiskFreeGB n;
             Node_KVSSDOffload := Node_KVSSDOffload n; Node_PrefixCachingFactor := Node_PrefixCachingFactor n |}
  end.

Definition modelSpec (m : Row.Model) : Error + ModelSpec :=
  match (if hasJSON (Row.Spec m) then unmarshalSpec (Row.Spec m) else inr ProtoSpec_empty) with
  | inl e => inl (Wrap "planning: decode model spec" e)
  | inr spec =>
      let ms := ModelSpecFromProto (Some spec) in
      inr {| Model_ID := if (Model_ID ms =? "")%string then Row.MID m else Model_ID ms;
             Model_IsMoE := Model_IsMoE ms; Model_Layers := Model_Layers ms; Model_ParamsTotalB := Model_ParamsTotalB ms;
             Model_ParamsActiveB := Model_ParamsActiveB ms; Model_HiddenSize := Model_HiddenSize ms;
             Model_NKVHeads := Model_NKVHeads ms; Model_HeadDim := Model_HeadDim ms;
             Model_AttentionType := Model_AttentionType ms; Model_ContextMax := Model_ContextMax ms;
             Model_Quantizations := Model_Quantizations ms; Model_Draft := Model_Draft ms;
             Model_KVCompressionRatio := Model_KVCompressionRatio ms |}
  end.

(** The loop over the rows: the first node that does not decode ends it. *)
Fixpoint readyNodes (rows : list Row.Node) : Error + list Node :=
  match rows with
  | [] => inr []
  | rn :: rows =>
      if negb (readyStates (Row.State rn)) then readyNodes rows
      else match plannerNode rn with
           | inl e => inl e
           | inr n => match readyNodes rows with inl e => inl e | inr ns => inr (n :: ns) end
           end
  end.

Definition plannerLink (l : Row.Link) : Link :=
  LinkFromMetric (Some (Proto.mkLinkMetric (Row.LFromNode l) (Row.LToNode l) (Row.LBandwidthGBs l) (Row.LRTTMs l))).

Definition loadFleet : M (Error + list Node * list Link) :=
  let* rows := ListNodes in
  match rows with
  | inl e => cret (inl (Wrap "planning: list nodes" e))
  | inr rows =>
      match readyNodes rows with
      | inl e => cret (inl e)
      | inr nodes =>
          let* links := ListLinks in
          cret (match links with
                | inl e => inl (Wrap "planning: list links" e)
                | inr links => inr (nodes, map plannerLink links)
                end)
      end
  end.

Definition ModelSpecFor (modelID : string) : M (Error + ModelSpec) :=
  let* m := GetModel modelID in
  cret (match m with inl e => inl e | inr m => modelSpec m end).

Definition Plan (ctx : PlanCtx) (modelID : string) (c : Constraints) : M (PlanningError + Proto.DeploymentPlan) :=
  let* m := GetModel modelID in
  match m with
  | inl e => cret (inl (PE_Registry e))
  | inr m =>
      match modelSpec m with
      | inl e => cret (inl (PE_Registry e))
      | inr spec =>
          let* fleet := loadFleet in
          cret (match fleet with
                | inl e => inl (PE_Registry e)
                | inr (nodes, links) =>
                    match Planner.Plan (pc_poll ctx) (pc_polls ctx) (pc_threshold ctx) nodes links spec c with
                    | Panic => inl PE_Panic
                    | Fail e => inl (toFitError e)
                    | Ok dp => match DeploymentPlan_ToProto (Some dp) with Some pp => inr pp | None => inl PE_Panic end
                    end
                end)
      end
  end.

Definition fitFailed (id : string) (deficit : float64) (reason : FitReason) (suggestions : list string) : FitVerdict :=
  mkFit id false 0 "" None deficit reason suggestions.

(** [None] is a panic of the planner. *)
Definition fit (ctx : PlanCtx) (m : Row.Model) (nodes : list Node) (links : list Link) : option FitVerdict :=
  match modelSpec m with
  | inl e => Some (fitFailed (Row.MID m) f0 (FR_Error e) [])
  | inr spec =>
      match Planner.Plan (pc_poll ctx) (pc_polls ctx) (pc_threshold ctx) nodes links spec Constraints_zero with
      | Panic => None
      | Fail (ErrPlan pe) => Some (fitFailed (Row.MID m) (Err_DeficitGB pe) (FR_Plan (Err_Reason pe)) (Err_Suggestions pe))
      | Fail e => Some (fitFailed (Row.MID m) f0 (FR_Planner e) [])
      | Ok dp =>
          let e := Plan_Estimated dp in
          Some (mkFit (Row.MID m) true (Z.of_nat (length (Plan_PipelineOrder dp))) (Plan_Quantization dp)
                  (Some (mkEstimateRange (Perf_DecodeTokSMin e) (Perf_DecodeTokSMax e) (Perf_PrefillTokSMin e)
                           (Perf_PrefillTokSMax e) (Perf_HeadroomGB e))) f0 FR_None [])
      end
  end.

Definition Fit (ctx : PlanCtx) (modelID : string) : M (Error + option FitVerdict) :=
  let* m := GetModel modelID in
  match m with
  | inl e => cret (inl e)
  | inr m =>
      let* fleet := loadFleet in
      cret (match fleet with inl e => inl e | inr (nodes, links) => inr (fit ctx m nodes links) end)
  end.

Definition FitAll (ctx : PlanCtx) : M (Error + list (option FitVerdict)) :=
  let* models := ListModels in
  match models with
  | inl e => cret (inl e)
  | inr models =>
      let* fleet := loadFleet in
      cret (match fleet with inl e => inl e | inr (nodes, links) => inr (map (fun m => fit ctx m nodes links) models) end)
  end.
End Planning.

(** ** Properties *)

Section Properties.
Context `{E : Env} `{J : ProtoJSON}.

(** Profiles name their own node or none; the fleet's [Join] stores such ones. *)
Definition profiles_own (db : Database) : Prop :=
  forall id rn hw, db_nodes db !! id = Some rn -> hasJSON (Row.HardwareProfile rn) = true ->
    unmarshalProfile (Row.HardwareProfile rn) = inr hw -> Proto.HNodeId hw = ""%string \/ Proto.HNodeId hw = Row.ID rn.

Lemma plannerNode_id rn n :
  plannerNode rn = inr n ->
  (forall hw, hasJSON (Row.HardwareProfile rn) = true -> unmarshalProfile (Row.HardwareProfile rn) = inr hw ->
     Proto.HNodeId hw = ""%string \/ Proto.HNodeId hw = Row.ID rn) ->
  Node_ID n = Row.ID rn.
Proof.
  unfold plannerNode. intros H Hown.
  set (hw := if hasJSON _ then _ else _) in H.
  assert (Hid : forall x, hw = inr x -> Proto.HNodeId x = ""%string \/ Proto.HNodeId x = Row.ID rn).
  { intros x Hx. unfold hw in Hx. destruct (hasJSON (Row.HardwareProfile rn)) eqn:Hj; [by apply Hown|]. injection Hx as <-. by left. }
  destruct hw as [e|x]; [done|]. injection H as <-. cbn [Node_ID].
  destruct (fold_left _ _ _) as [[]]. cbn [Node_ID]. destruct (Hid x eq_refl) as [->| ->]; [done|]. by case_match.
Qed.

Lemma readyNodes_elem rows : forall ns, readyNodes rows = inr ns ->
  forall n, n ∈ ns <-> exists rn, rn ∈ rows /\ readyStates (Row.State rn) = true /\ plannerNode rn = inr n.
Proof.
  induction rows as [|rn rows IH]; intros ns H n; cbn [readyNodes] in H.
  { injection H as <-. rewrite elem_of_nil. set_solver. }
  destruct (readyStates (Row.State rn)) eqn:Hs; cbn [negb] in H.
  - destruct (plannerNode rn) as [e|m] eqn:Hm; [done|]. destruct (readyNodes rows) as [e|ms]; [done|]. injection H as <-.
    rewrite elem_of_cons, (IH ms eq_refl). split.
    + intros [->|(r & H1 & H2)]; [exists rn|exists r]; rewrite elem_of_cons; naive_solver.
    + intros (r & H1 & H2 & H3). apply elem_of_cons in H1 as [->|H1]; [left; congruence|right; naive_solver].
  - rewrite (IH ns H). split; intros (r & H1 & H2 & H3); exists r; [by rewrite elem_of_cons; auto|].
    apply elem_of_cons in H1 as [->|H1]; [congruence|done].
Qed.

Lemma byKey_elem {A} (key : A -> string) (tbl : gmap string A) a : a ∈ byKey key tbl <-> exists k, tbl !! k = Some a.
Proof.
  unfold byKey. rewrite go_sort_perm, list_elem_of_In, in_map_iff. split.
  - intros ([k x] & <- & Hin%list_elem_of_In%elem_of_map_to_list). by exists k.
  - intros (k & Hk). exists (k, a). split; [done|]. by apply list_elem_of_In, elem_of_map_to_list.
Qed.

Lemma loadFleet_inv w nodes links w' :
  loadFleet w = (inr (nodes, links), w') ->
  w_db w' = w_db w /\
  (forall n, n ∈ nodes <-> exists id rn, db_nodes (w_db w) !! id = Some rn /\ readyStates (Row.State rn) = true /\ plannerNode rn = inr n) /\
  (forall l, l ∈ links <-> exists k row, db_links (w_db w) !! k = Some row /\ l = plannerLink row).
Proof.
  unfold loadFleet. intros H. run_step H. apply query_spec in Hrun as (Hd & _ & Hr). destruct r as [e|rows]; [done|].
  destruct (env_db (w_tick w)); [done|]. injection Hr as ->. destruct (readyNodes _) as [e|ns] eqn:Hn; [done|].
  run_step H. apply query_spec in Hrun as (Hd2 & _ & Hr). destruct r as [e|ls]; [done|].
  destruct (env_db (w_tick w0)); [done|]. injection Hr as ->. injection H as <- <- <-. split; [congruence|]. split.
  - intros n. rewrite (readyNodes_elem _ _ Hn). setoid_rewrite byKey_elem. naive_solver.
  - intros l. rewrite list_elem_of_In, in_map_iff. setoid_rewrite <- list_elem_of_In. setoid_rewrite go_sort_perm. rewrite Hd. split.
    + intros (row & <- & Hin). apply list_elem_of_In, in_map_iff in Hin as ([k x] & <- & Hin%list_elem_of_In%elem_of_map_to_list). by exists k, x.
    + intros (k & row & Hk & ->). exists row. split; [done|]. apply list_elem_of_In, in_map_iff. exists (k, row).
      split; [done|]. by apply list_elem_of_In, elem_of_map_to_list.
Qed.

(** From the registry to a deployable plan: a plan for a model is a plan of the
    planner for the model's decoded spec and the current fleet, so it is valid in
    the sense of [Plan_valid]; every shard of it is placed on a node of the registry
    that is READY or RUNNING; and the orchestrator finds its one host and its
    workers in it. Planning changes nothing in the registry. *)
Theorem Plan_from_registry ctx modelID c w pp w' :
  Plan ctx modelID c w = (inr pp, w') -> profiles_own (w_db w) ->
  (forall m spec, db_models (w_db w) !! modelID = Some m -> modelSpec m = inr spec -> params_ok spec) ->
  (forall k l, db_links (w_db w) !! k = Some l -> link_ok (plannerLink l)) ->
  w_db w' = w_db w /\
  exists m spec (nodes ns : list Node) quant p,
    db_models (w_db w) !! modelID = Some m /\ modelSpec m = inr spec /\
    (forall n, n ∈ ns <-> n ∈ nodes /\ nodeAllowed c n) /\ plan_ok ns spec quant p /\
    DeploymentPlan_ToProto (Some p) = Some pp /\
    (forall a, a ∈ Plan_Assignments p -> exists id rn, db_nodes (w_db w) !! id = Some rn /\ Row.ID rn = A_NodeID a /\
       (Row.State rn = "NODE_STATE_READY" \/ Row.State rn = "NODE_STATE_RUNNING")%string) /\
    exists a rest, Plan_Assignments p = a :: rest /\ partition pp = inr (map Assignment_ToProto rest, Assignment_ToProto a).
Proof.
  unfold Plan. intros H Hown Hparams Hlinks. run_step H. apply query_spec in Hrun as (Hd & _ & Hr).
  destruct r as [e|m]; [done|]. destruct (env_db (w_tick w)); [done|]. unfold getRow in Hr.
  destruct (db_models (w_db w) !! modelID) as [row|] eqn:Hm; [|done]. injection Hr as ->.
  destruct (modelSpec row) as [e|spec] eqn:Hs; [done|]. run_step H. destruct r as [e|[nodes links]]; [done|].
  apply loadFleet_inv in Hrun as (Hd2 & Hn & Hl). rewrite Hd in Hd2, Hn, Hl.
  destruct (Planner.Plan _ _ _ nodes links spec c) as [dp|e|] eqn:Hp; [|done|done].
  injection H as <- <-. split; [done|].
  assert (Hlk : Forall link_ok links). { apply Forall_forall. intros l (k & lr & Hk & ->)%Hl. by eapply Hlinks. }
  assert (Hpo : params_ok spec) by (by eapply Hparams).
  destruct (Plan_partition _ _ _ nodes links spec c dp _ Hpo Hlk Hp eq_refl) as (a & rest & Ha & Hpart).
  apply Plan_run_ok in Hp as (ns & quant & Hns & Hok); [|done..].
  exists row, spec, nodes, ns, quant, dp. split_and!; [done|done|done|done|done| |by exists a, rest].
  intros x Hx. destruct (pk_memory _ _ _ _ Hok (A_NodeID x)) as (n & Hin & Hid & _).
  { apply list_elem_of_In, in_map, list_elem_of_In, Hx. }
  apply Hns in Hin as [(id & rn & H1 & H2 & H3)%Hn _]. exists id, rn. split; [done|].
  apply plannerNode_id in H3 as Hi; [|by intros hw Hj Hu; eapply Hown]. split; [congruence|].
  unfold readyStates in H2. rewrite orb_true_iff, !String.eqb_eq in H2. done.
Qed.

(** The verdict of [Fit] is the planner's: whatever [Fit] says about a model in
    a state of the registry, [Plan] without constraints says in the same state. A
    deployable verdict has the quantization and the number of nodes of that plan,
    and any other verdict means that [Plan] fails. *)
Theorem Fit_agrees ctx modelID w v :
  fst (Fit ctx modelID w) = inr (Some v) ->
  match fst (Plan ctx modelID Constraints_zero w) with
  | inr pp => F_Deployable v = true /\ F_Quantization v = Proto.DQuantization pp /\
              F_NodeCount v = Z.of_nat (length (Proto.PipelineOrder pp))
  | inl _ => F_Deployable v = false
  end.
Proof.
  unfold Fit, Plan. rewrite !cbind_run. destruct (GetModel modelID w) as [[e|m] w1]; cbn [fst snd]; [done|].
  rewrite !cbind_run. unfold fit. destruct (modelSpec m) as [e|spec].
  - destruct (fst (loadFleet w1)) as [e2|[nodes links]]; cbn [fst cret]; [done|]. by intros [= <-].
  - rewrite !cbind_run. destruct (fst (loadFleet w1)) as [e2|[nodes links]]; cbn [fst cret]; [done|].
    destruct (Planner.Plan _ _ _ nodes links spec Constraints_zero) as [dp|e|]; [|destruct e|done];
      by intros [= <-].
Qed.

(** Planning only reads. *)
Lemma Plan_leaves (R : World -> World -> Prop) `{!PreOrder R} ctx modelID c :
  (forall A what (k : Database -> Error + A), leaves R (query what k)) -> leaves R (Plan ctx modelID c).
Proof.
  intros Hq. unfold Plan, GetModel, loadFleet, ListNodes, ListLinks.
  repeat lazymatch goal with
  | |- leaves _ (cbind _ _) => apply leaves_bind; [apply _| |intros ?]
  | |- leaves _ (cret _) => apply leaves_ret, _
  | |- leaves _ (match _ with _ => _ end) => case_match
  | |- leaves _ (query _ _) => apply Hq
  end.
Qed.

Lemma Plan_db ctx modelID c : leaves same_db (Plan ctx modelID c).
Proof. apply Plan_leaves; [apply _|]. intros A what k w. destruct (query what k w) as [r w'] eqn:H. by apply query_spec in H as (H & _). Qed.

Lemma Plan_outside ctx modelID c : leaves outside_same (Plan ctx modelID c).
Proof. apply Plan_leaves; [apply _|]. intros A what k w. destruct (query what k w) as [r w'] eqn:H. by apply query_spec in H as (_ & H & _). Qed.

Lemma Plan_no_spec ctx modelID c w :
  (forall m, db_models (w_db w) !! modelID = Some m -> hasJSON (Row.Spec m) = false) ->
  exists e, fst (Plan ctx modelID c w) = inl e.
Proof.
  intros Hj. unfold Plan. rewrite cbind_run. destruct (GetModel modelID w) as [r w1] eqn:Hg.
  apply query_spec in Hg as (_ & _ & Hr). cbn [fst snd]. destruct r as [e|m']; [by eexists|].
  destruct (env_db (w_tick w)); [done|]. unfold getRow in Hr. destruct (db_models (w_db w) !! modelID) as [m|]; [|done].
  injection Hr as ->. specialize (Hj m eq_refl).
  unfold modelSpec. rewrite Hj. rewrite cbind_run. destruct (fst (loadFleet w1)) as [e|[nodes links]]; [by eexists|].
  cbn [fst cret]. unfold Planner.Plan, planInternal. destruct (pc_poll ctx 0%nat); [by eexists|].
  destruct (applyNodeFilter nodes c); [by eexists|]. destruct (poolFilter _ c) as [ns|e|]; cbn; by eexists.
Qed.

(** A model whose catalogue entry has no spec is never planned: whatever the
    fleet and the constraints, [Plan] fails, since the decoded spec has no layers. *)
Theorem Plan_needs_spec ctx modelID c m w :
  db_models (w_db w) !! modelID = Some m -> hasJSON (Row.Spec m) = false ->
  exists e, fst (Plan ctx modelID c w) = inl e.
Proof. intros Hm Hj. apply Plan_no_spec. intros m'. rewrite Hm. by intros [= <-]. Qed.
End Properties.

(** ** A concrete registry *)

Lemma link_okb_one l : link_okb l = true -> link_ok l.
Proof.
  intros H. assert (Hf : Forall link_ok [l]) by (apply link_okb_spec; cbn; by rewrite H). by inversion Hf.
Qed.

Section Witnesses.
#[local] Existing Instance calmEnv.
Local Open Scope string_scope.

(** The text of a profile is the node's name. *)
Definition exHW (id : string) (ram vram bw : Z) : Proto.HardwareProfile :=
  Proto.mkHardwareProfile id [] [Proto.mkGpuInfo (of_Z vram) 1 false false] (of_Z ram) (of_Z ram) (of_Z bw) f0 ∅ f0 false "h" 1 1.

#[local] Instance toyJSON : ProtoJSON := {|
  unmarshalProfile s := if s =? "a" then inr (exHW "a" 64 24 400) else if s =? "b" then inr (exHW "" 64 16 200) else inl ErrNotFound;
  unmarshalSpec s := inr (ModelSpec_ToProto exModel) |}.

(** Two ready nodes and a drained one, whose profile does not decode. *)
Definition exRow (id state : string) : Row.Node := Row.mkNode id "h" "" "" f0 f0 state "" "" 0 id 0 0.
Definition exModelRow (spec : string) : Row.Model := Row.mkModel "m" "" "" f0 "" "" spec "{}" 0 0.
Definition exRegistry : Database :=
  mkDatabase {[ "a" := exRow "a" "NODE_STATE_READY"; "b" := exRow "b" "NODE_STATE_RUNNING"; "c" := exRow "c" "NODE_STATE_DRAINING" ]}
    {[ "m" := exModelRow "spec"; "n" := exModelRow "{}" ]} ∅ ∅ []
    {[ ("a", "b") := Row.mkLink "a" "b" (of_Z 10) (of_Z 1) 0; ("b", "a") := Row.mkLink "b" "a" (of_Z 10) (of_Z 1) 0 ]} ∅
    PlatformTables_empty EnterpriseTables_empty.
Definition exRegWorld : World := mkWorld 0 exRegistry ∅ [].
Definition exCtx : PlanCtx := mkPlanCtx noCancel (fun _ => noCancel) 10.

Definition exPlanning := Plan exCtx "m" Constraints_zero exRegWorld.

(** The nodes of the plan. *)
Definition pipeline (r : PlanningError + Proto.DeploymentPlan) : option (list string) :=
  match r with inr pp => Some (Proto.PipelineOrder pp) | inl _ => None end.

Lemma exRegistry_profiles : profiles_own exRegistry.
Proof.
  assert (H : map_Forall (fun id rn => match unmarshalProfile (Row.HardwareProfile rn) with
                | inr hw => Proto.HNodeId hw = "" \/ Proto.HNodeId hw = Row.ID rn | inl _ => True end) (db_nodes exRegistry)).
  { apply map_Forall_to_list. vm_compute. repeat constructor; (left; reflexivity) || (right; reflexivity). }
  intros id rn hw Hrn _ Hu. specialize (H id rn Hrn). cbv beta in H. rewrite Hu in H. exact H.
Qed.

Lemma exRegistry_params m spec : db_models exRegistry !! "m" = Some m -> modelSpec m = inr spec -> params_ok spec.
Proof.
  intros Hm Hs. assert (Hm' : db_models exRegistry !! "m" = Some (exModelRow "spec")) by (vm_compute; reflexivity).
  rewrite Hm' in Hm. injection Hm as <-.
  assert (Hp : params_okb (match modelSpec (exModelRow "spec") with inr s => s | inl _ => ModelSpec_zero end) = true)
    by (vm_compute; reflexivity).
  rewrite Hs in Hp. by apply params_okb_spec.
Qed.

Lemma exRegistry_links k l : db_links exRegistry !! k = Some l -> link_ok (plannerLink l).
Proof.
  intros Hl. assert (H : forallb (fun kl => link_okb (plannerLink (snd kl))) (map_to_list (db_links exRegistry)) = true)
    by (vm_compute; reflexivity).
  assert (Hin : In (k, l) (map_to_list (db_links exRegistry))) by (apply list_elem_of_In, elem_of_map_to_list; exact Hl).
  apply link_okb_one. exact (proj1 (forallb_forall _ _) H (k, l) Hin).
Qed.

Lemma Plan_from_registry_witness :
  pipeline (fst exPlanning) = Some ["a"; "b"] /\ exists pp, fst exPlanning = inr pp /\
  exists p, DeploymentPlan_ToProto (Some p) = Some pp /\
    forall a, a ∈ Plan_Assignments p -> exists id rn, db_nodes exRegistry !! id = Some rn /\ Row.ID rn = A_NodeID a.
Proof.
  assert (Ho : pipeline (fst exPlanning) = Some ["a"; "b"]) by (vm_compute; reflexivity).
  split; [exact Ho|]. destruct exPlanning as [r w'] eqn:Hrun. cbn [fst] in *. destruct r as [e|pp]; [discriminate Ho|].
  exists pp. split; [reflexivity|].
  destruct (Plan_from_registry exCtx "m" Constraints_zero exRegWorld pp w' Hrun exRegistry_profiles exRegistry_params exRegistry_links)
    as (_ & m & spec & nodes & ns & quant & p & _ & _ & _ & _ & H1 & H2 & _).
  exists p. split; [exact H1|]. intros a Ha. destruct (H2 a Ha) as (id & rn & H3 & H4 & _).
  exists id, rn. split; [exact H3|exact H4].
Defined.

Lemma Fit_agrees_witness :
  exists v, fst (Fit exCtx "m" exRegWorld) = inr (Some v) /\ F_Deployable v = true /\ F_NodeCount v = 2.
Proof.
  assert (Ho : match fst (Fit exCtx "m" exRegWorld) with inr (Some v) => F_NodeCount v = 2 | _ => False end)
    by (vm_compute; reflexivity).
  assert (Hp : pipeline (fst (Plan exCtx "m" Constraints_zero exRegWorld)) = Some ["a"; "b"]) by (vm_compute; reflexivity).
  destruct (fst (Fit exCtx "m" exRegWorld)) as [e|[v|]] eqn:Hf; [destruct Ho| |destruct Ho].
  pose proof (Fit_agrees exCtx "m" exRegWorld v Hf) as H.
  destruct (fst (Plan exCtx "m" Constraints_zero exRegWorld)) as [e|pp]; [discriminate Hp|].
  exists v. split; [reflexivity|]. split; [apply H|exact Ho].
Defined.

Lemma Plan_needs_spec_witness : exists e, fst (Plan exCtx "n" Constraints_zero exRegWorld) = inl e.
Proof. apply (Plan_needs_spec exCtx "n" Constraints_zero (exModelRow "{}") exRegWorld); vm_compute; reflexivity. Defined.
End Witnesses.
