(* ===== verification/Config.v ===== *)
(** * Config: configuration as code

    [go/controlplane/config] (the schema of [types.go], [Validate] and [Diff]) and
    [server/config_apply.go]: the registry as a [Lister], [ApplyClusterConfig] with
    all its calls, and the export of a model. YAML decoding and JSON text are
    parameters; log lines are left out. *)
From S2P Require Import Prelude Float64 PlanTypes CostModel Fixtures Partition Ordering Planner.
From S2P Require Import Convert Cluster Registry Gateway Orchestrator Permissions Platform Planning.
Open Scope Z_scope.

(** ** The schema ([types.go]) *)

Record Metadata : Type := mkMetadata {
  MD_Name : string; MD_Labels : gmap string string; MD_Annotations : gmap string string }.

Record SourceSpec : Type := mkSourceSpec { S_Type : string; S_Repo : string; S_BucketURL : string; S_Path : string }.

Record ConfigModel : Type := mkConfigModel {
  CM_ID : string; CM_Source : SourceSpec; CM_Quantizations : list string; CM_Description : string; CM_MaxContextLen : Z }.

Record DeploySpec : Type := mkDeploySpec {
  DS_Model : string; DS_Quantization : string; DS_MinNodes : Z; DS_MaxNodes : Z; DS_Approved : bool }.

Record QuotaSpec : Type := mkQuotaSpec { QS_Team : string; QS_MonthlyRequests : Z; QS_MonthlyTokens : Z }.
Record GatewaySpec : Type := mkGatewaySpec { GS_Port : Z; GS_BodyLimitMB : Z }.
Record TeamMemberSpec : Type := mkTeamMemberSpec { TS_UserID : string; TS_Role : string }.

Record TeamSpec : Type := mkTeamSpec {
  TS_ID : string; TS_Name : string; TS_Slug : string; TS_Description : string; TS_Members : list TeamMemberSpec }.

Record OrgSpec : Type := mkOrgSpec {
  OS_ID : string; OS_Name : string; OS_Slug : string; OS_Description : string; OS_Teams : list TeamSpec }.

Record PoolQuotaSpec : Type := mkPoolQuotaSpec {
  PS_TeamID : string; PS_MaxDeployments : Z; PS_MaxGPUNodes : Z; PS_Priority : Z }.

Record NodePoolSpec : Type := mkNodePoolSpec {
  NS_ID : string; NS_Name : string; NS_Description : string; NS_OwnerType : string; NS_OwnerID : string; NS_Policy : string;
  NS_Nodes : list string; NS_Quotas : list PoolQuotaSpec }.

Record ModelSLO : Type := mkModelSLO { SLO_TTFTMs : Z; SLO_TBTMs : Z; SLO_TargetCompliance : float64 }.

(** The blocks that neither [Validate] nor the apply reads (gateway tuning, LDAP and
    quorum) are left out. *)
Record ClusterConfig : Type := mkClusterConfig {
  APIVersion : string; Kind : string; Metadata_ : Metadata; ClusterID : string; Models : list ConfigModel;
  Deployments : list DeploySpec; Quotas : list QuotaSpec; Orgs : list OrgSpec; NodePools : list NodePoolSpec;
  SLO : option (gmap string ModelSLO) }.

(** ** Validation ([validator.go]) *)

Definition knownSourceTypes : list string := ["huggingface"; "s3"; "local"; "vertexai"; "sagemaker"; "azureml"]%string.

(** The loops: the set built so far, or the first error. *)
Fixpoint validateModels (ids : gset string) (ms : list ConfigModel) : Error + gset string :=
  match ms with
  | [] => inr ids
  | m :: ms =>
      if (CM_ID m =? "")%string then inl (ErrorString "model missing required field 'id'")
      else if decide (CM_ID m ∈ ids) then inl (ErrorString ("duplicate model id " +:+ CM_ID m))
      else if negb (S_Type (CM_Source m) =? "")%string && negb (existsb (String.eqb (S_Type (CM_Source m))) knownSourceTypes)
      then inl (ErrorString ("model has unknown source type " +:+ S_Type (CM_Source m)))
      else validateModels ({[ CM_ID m ]} ∪ ids) ms
  end.

Fixpoint validateDeployments (ids : gset string) (ds : list DeploySpec) : option Error :=
  match ds with
  | [] => None
  | d :: ds =>
      if (DS_Model d =? "")%string then Some (ErrorString "deployment missing required field 'model'")
      else if decide (DS_Model d ∈ ids) then validateDeployments ids ds
      else Some (ErrorString ("deployment references unknown model " +:+ DS_Model d))
  end.

Definition validateQuotas (qs : list QuotaSpec) : option Error :=
  if existsb (fun q => QS_Team q =? "")%string qs then Some (ErrorString "quota entry missing required field 'team'") else None.

Fixpoint validateTeams (org : string) (ts : list TeamSpec) : option Error :=
  match ts with
  | [] => None
  | t :: ts =>
      if (TS_ID t =? "")%string then Some (ErrorString ("team missing required field 'id' in org " +:+ org))
      else if existsb (fun m => TS_UserID m =? "")%string (TS_Members t)
      then Some (ErrorString ("member missing required field 'user_id' in team " +:+ TS_ID t))
      else validateTeams org ts
  end.

Fixpoint validateOrgs (ids : gset string) (os : list OrgSpec) : option Error :=
  match os with
  | [] => None
  | o :: os =>
      if (OS_ID o =? "")%string then Some (ErrorString "org missing required field 'id'")
      else if decide (OS_ID o ∈ ids) then Some (ErrorString ("duplicate org id " +:+ OS_ID o))
      else match validateTeams (OS_ID o) (OS_Teams o) with
           | Some e => Some e
           | None => validateOrgs ({[ OS_ID o ]} ∪ ids) os
           end
  end.

Fixpoint validatePools (ids : gset string) (ps : list NodePoolSpec) : option Error :=
  match ps with
  | [] => None
  | p :: ps =>
      if (NS_ID p =? "")%string then Some (ErrorString "node_pool missing required field 'id'")
      else if decide (NS_ID p ∈ ids) then Some (ErrorString ("duplicate node_pool id " +:+ NS_ID p))
      else if negb (NS_Policy p =? "exclusive")%string && negb (NS_Policy p =? "shared")%string
      then Some (ErrorString ("node_pool: policy must be 'exclusive' or 'shared', got " +:+ NS_Policy p))
      else if (NS_Policy p =? "exclusive")%string && negb (bool_decide (NS_Quotas p = []))
      then Some (ErrorString "node_pool: quotas are only allowed on 'shared' pools")
      else validatePools ({[ NS_ID p ]} ∪ ids) ps
  end.

Definition Validate (cfg : ClusterConfig) : option Error :=
  if negb (APIVersion cfg =? "purser/v1")%string then Some (ErrorString "unsupported apiVersion")
  else if negb (Kind cfg =? "ClusterConfig")%string then Some (ErrorString "unsupported kind")
  else match validateModels ∅ (Models cfg) with
       | inl e => Some e
       | inr ids =>
           match validateDeployments ids (Deployments cfg) with
           | Some e => Some e
           | None =>
               match validateQuotas (Quotas cfg) with
               | Some e => Some e
               | None =>
                   match validateOrgs ∅ (Orgs cfg) with
                   | Some e => Some e
                   | None => validatePools ∅ (NodePools cfg)
                   end
               end
           end
       end.

(** [Load], over what the YAML decoder says. *)
Definition Load (unmarshal : string -> Error + ClusterConfig) (data : string) : Error + ClusterConfig :=
  match unmarshal data with
  | inl e => inl (Wrap "parsing YAML" e)
  | inr cfg => match Validate cfg with Some e => inl e | None => inr cfg end
  end.

(** ** Differences ([diff.go]) *)

Record DiffResult : Type := mkDiffResult {
  ModelsToAdd : list ConfigModel; ModelsToRemove : list string;
  DeploymentsToAdd : list DeploySpec; DeploymentsToRemove : list string;
  QuotasToUpsert : list QuotaSpec;
  OrgsToAdd : list OrgSpec; OrgsToUpdate : list OrgSpec;
  NodePoolsToAdd : list NodePoolSpec; NodePoolsToUpdate : list NodePoolSpec; NodePoolsToRemove : list string }.

Record Lister : Type := mkLister {
  CurrentModelIDs : M (Error + list string);
  CurrentDeploymentModelIDs : M (Error + list string);
  CurrentOrgIDs : M (Error + list string);
  CurrentNodePoolIDs : M (Error + list string) }.

(** Membership in the set built from a list. *)
Definition inSet (ids : list string) (id : string) : bool := existsb (String.eqb id) ids.

Definition absent {A} (key : A -> string) (current : list string) (desired : list A) : list A :=
  List.filter (fun a => negb (inSet current (key a))) desired.
Definition present {A} (key : A -> string) (current : list string) (desired : list A) : list A :=
  List.filter (fun a => inSet current (key a)) desired.
Definition stale {A} (key : A -> string) (current : list string) (desired : list A) : list string :=
  List.filter (fun id => negb (inSet (map key desired) id)) current.

Definition Diff (cfg : ClusterConfig) (lister : option Lister) : M (Error + DiffResult) :=
  match lister with
  | None => cret (inr (mkDiffResult (Models cfg) [] (Deployments cfg) [] (Quotas cfg) (Orgs cfg) [] (NodePools cfg) [] []))
  | Some l =>
      let* ms := CurrentModelIDs l in
      match ms with
      | inl e => cret (inl e)
      | inr ms =>
          let* ds := CurrentDeploymentModelIDs l in
          match ds with
          | inl e => cret (inl e)
          | inr ds =>
              let* os := CurrentOrgIDs l in
              match os with
              | inl e => cret (inl e)
              | inr os =>
                  let* ps := CurrentNodePoolIDs l in
                  match ps with
                  | inl e => cret (inl e)
                  | inr ps =>
                      cret (inr (mkDiffResult
                        (absent CM_ID ms (Models cfg)) (stale CM_ID ms (Models cfg))
                        (absent DS_Model ds (Deployments cfg)) (stale DS_Model ds (Deployments cfg))
                        (Quotas cfg)
                        (absent OS_ID os (Orgs cfg)) (present OS_ID os (Orgs cfg))
                        (absent NS_ID ps (NodePools cfg)) (present NS_ID ps (NodePools cfg)) (stale NS_ID ps (NodePools cfg))))
                  end
              end
          end
      end
  end.

(** ** The registry as a lister ([config_apply.go]) *)

Definition deploymentTerminal (state : string) : bool :=
  (state =? "DEPLOYMENT_STATE_STOPPED")%string || (state =? "DEPLOYMENT_STATE_FAILED")%string.

Definition ids {A} (key : A -> string) (r : Error + list A) : Error + list string :=
  match r with inl e => inl e | inr l => inr (map key l) end.

Section Apply.
Context `{E : Env}.

(** The set of models is ranged over in any order. *)
Definition liveDeploymentModels : M (Error + list string) :=
  let* r := ListDeployments in
  match r with
  | inl e => cret (inl e)
  | inr deps =>
      let seen : gset string := list_to_set (map Row.DModelID (List.filter (fun d => negb (deploymentTerminal (Row.DState d))) deps)) in
      let* t := next in
      cret (inr (env_order string t (elements seen)))
  end.

Definition registryLister : Lister := mkLister
  (let* r := ListModels in cret (ids Row.MID r))
  liveDeploymentModels
  (let* r := ListOrganizations in cret (ids Row.OID r))
  (let* r := ListNodePools in cret (ids Row.NPID r)).

(** ** Apply *)

Record ApplyResult : Type := mkApplyResult {
  ModelsAdded : Z; DeploymentsAdded : Z; QuotasUpserted : Z; OrgsAdded : Z; NodePoolsAdded : Z; SLOsUpserted : Z }.

Definition sloDefaultTTFTMs : Z := 2000.
Definition sloDefaultTBTMs : Z := 500.
Definition sloDefaultTargetCompliance : float64 := f_const 95 100.

(** [json.Marshal] of a [SourceSpec], whose fields have no JSON names: an object of
    these keys and values. *)
Definition sourceFields (s : SourceSpec) : list (string * string) :=
  [("Type", S_Type s); ("Repo", S_Repo s); ("BucketURL", S_BucketURL s); ("Path", S_Path s)]%string.

Context (jsonObject : list (string * string) -> string).

Definition configModelRow (spec : ConfigModel) : Row.Model :=
  Row.mkModel (CM_ID spec) (S_Repo (CM_Source spec)) "" f0 "" "llm" "" (jsonObject (sourceFields (CM_Source spec))) zeroTime zeroTime.

Fixpoint applyModels (specs : list ConfigModel) : M Z :=
  match specs with
  | [] => cret 0
  | spec :: specs =>
      let* err := CreateModel (configModelRow spec) in
      let* n := (match err with
                 | Some _ => cret 0
                 | None => AppendAudit (Row.mkAuditEntry "config-apply" "model.created" (CM_ID spec) [] zeroTime) ;;; cret 1
                 end) in
      let* rest := applyModels specs in
      cret (n + rest)
  end.

(** The planner and the deployer of the server. *)
Record Backends : Type := mkBackends {
  b_plan : string -> Constraints -> M (PlanningError + Proto.DeploymentPlan);
  b_apply : Proto.DeploymentPlan -> M (string * option Error) }.

Definition deployConstraints (spec : DeploySpec) : Constraints :=
  mkConstraints ∅ [] [] None (if (DS_Quantization spec =? "")%string then None else Some (DS_Quantization spec)) None f0 ModeAuto
    0 [].

Fixpoint applyDeployments (b : option Backends) (specs : list DeploySpec) : M Z :=
  match specs with
  | [] => cret 0
  | spec :: specs =>
      let* n := (match b with
                 | None => cret 0
                 | Some b =>
                     let* plan := b_plan b (DS_Model spec) (deployConstraints spec) in
                     match plan with
                     | inl _ => cret 0
                     | inr plan =>
                         let* (_, err) := b_apply b plan in
                         cret (match err with Some _ => 0 | None => 1 end)
                     end
                 end) in
      let* rest := applyDeployments b specs in
      cret (n + rest)
  end.

Fixpoint applyTeams (orgID : string) (teams : list TeamSpec) : M unit :=
  match teams with
  | [] => cret ()
  | t :: teams =>
      CreateTeam (Row.mkTeam (TS_ID t) orgID (TS_Name t) (TS_Slug t) "" zeroTime zeroTime) ;;;
      applyTeams orgID teams
  end.

Definition applyOrg (o : OrgSpec) : M Z :=
  let* r := GetOrganizationBySlug (OS_Slug o) in
  match r with
  | inr existing =>
      UpdateOrganization (Row.mkOrganization (Row.OID existing) (OS_Name o) (Row.OSlug existing) (OS_Description o)
                            (Row.OCreatedAt existing) (Row.OUpdatedAt existing)) ;;;
      cret 0
  | inl e =>
      if isNotFound e then
        let* err := CreateOrganization (Row.mkOrganization (OS_ID o) (OS_Name o) (OS_Slug o) (OS_Description o) zeroTime zeroTime) in
        match err with
        | Some _ => cret 0
        | None => applyTeams (OS_ID o) (OS_Teams o) ;;; cret 1
        end
      else cret 0
  end.

Fixpoint applyNodes (poolID : string) (nodes : list string) : M unit :=
  match nodes with
  | [] => cret ()
  | n :: nodes => AddNodeToPool n poolID ;;; applyNodes poolID nodes
  end.

Fixpoint applyQuotas (poolID : string) (quotas : list PoolQuotaSpec) : M unit :=
  match quotas with
  | [] => cret ()
  | q :: quotas =>
      UpsertPoolTeamQuota (Row.mkPoolTeamQuota poolID (PS_TeamID q) (PS_MaxDeployments q) (PS_MaxGPUNodes q) (PS_Priority q)
                             zeroTime zeroTime) ;;;
      applyQuotas poolID quotas
  end.

(** A pool that exists is left as it is. *)
Definition applyPool (p : NodePoolSpec) : M Z :=
  let* r := GetNodePool (NS_ID p) in
  match r with
  | inr _ => cret 0
  | inl e =>
      if isNotFound e then
        let* err := CreateNodePool (Row.mkNodePool (NS_ID p) (NS_Name p) (NS_Description p) (NS_OwnerType p) (NS_OwnerID p)
                                      (NS_Policy p) zeroTime zeroTime) in
        match err with
        | Some _ => cret 0
        | None => applyNodes (NS_ID p) (NS_Nodes p) ;;; applyQuotas (NS_ID p) (NS_Quotas p) ;;; cret 1
        end
      else cret 0
  end.

Definition sloRow (modelID : string) (s : ModelSLO) : Row.SLOConfigRow :=
  Row.mkSLOConfigRow modelID
    (if SLO_TTFTMs s <=? 0 then sloDefaultTTFTMs else SLO_TTFTMs s)
    (if SLO_TBTMs s <=? 0 then sloDefaultTBTMs else SLO_TBTMs s)
    (if (SLO_TargetCompliance s <=? f0)%f64 then sloDefaultTargetCompliance else SLO_TargetCompliance s) zeroTime.

Definition applySLO (kv : string * ModelSLO) : M Z :=
  let* err := UpsertSLOConfig (sloRow (fst kv) (snd kv)) in
  cret (match err with Some _ => 0 | None => 1 end).

(** A loop that counts. *)
Fixpoint sumM {A} (f : A -> M Z) (l : list A) : M Z :=
  match l with
  | [] => cret 0
  | a :: l => let* n := f a in let* rest := sumM f l in cret (n + rest)
  end.

Definition ApplyClusterConfig (b : option Backends) (cfg : ClusterConfig) : M (Error + ApplyResult) :=
  let* d := Diff cfg (Some registryLister) in
  match d with
  | inl e => cret (inl (Wrap "config diff" e))
  | inr d =>
      let* models := applyModels (ModelsToAdd d) in
      let* deployments := applyDeployments b (DeploymentsToAdd d) in
      let* orgs := sumM applyOrg (Orgs cfg) in
      let* pools := sumM applyPool (NodePools cfg) in
      let* slos := (match SLO cfg with
                    | None => cret 0
                    | Some slos => let* t := next in sumM applySLO (env_order (string * ModelSLO) t (map_to_list slos))
                    end) in
      cret (inr (mkApplyResult models deployments 0 orgs pools slos))
  end.
End Apply.

(** ** Export *)

(** [strings.EqualFold] on ASCII, by which [encoding/json] finds a field. *)
Definition lowerChar (c : ascii) : ascii :=
  let n := Ascii.nat_of_ascii c in if (65 <=? n)%nat && (n <=? 90)%nat then Ascii.ascii_of_nat (n + 32) else c.
Fixpoint lower (s : string) : string := match s with EmptyString => EmptyString | String c s => String (lowerChar c) (lower s) end.

(** The last key that matches wins. *)
Definition jsonField (name : string) (obj : list (string * string)) : string :=
  fold_left (fun v kv => if (lower (fst kv) =? lower name)%string then snd kv else v) obj ""%string.

Definition exportModelSpec (parseObject : string -> option (list (string * string))) (m : Row.Model) : ConfigModel :=
  let source :=
    match (if (Row.Source m =? "")%string then None else parseObject (Row.Source m)) with
    | Some obj => mkSourceSpec (jsonField "type" obj) (jsonField "repo" obj) (jsonField "bucket_url" obj) (jsonField "path" obj)
    | None => mkSourceSpec "" "" "" ""
    end in
  mkConfigModel (Row.MID m) source [] "" 0.

(** ** Valid configurations *)

















(** ** Differences *)

Lemma inSet_spec l id : inSet l id = true <-> id ∈ l.
Proof. unfold inSet. rewrite existsb_exists. setoid_rewrite String.eqb_eq. setoid_rewrite <- list_elem_of_In. naive_solver. Qed.

Lemma absent_elem {A} (key : A -> string) current desired a :
  a ∈ absent key current desired <-> a ∈ desired /\ key a ∉ current.
Proof.
  unfold absent. rewrite list_elem_of_In, filter_In, <- list_elem_of_In, negb_true_iff, <- not_true_iff_false, inSet_spec. done.
Qed.

Lemma present_elem {A} (key : A -> string) current desired a :
  a ∈ present key current desired <-> a ∈ desired /\ key a ∈ current.
Proof. unfold present. rewrite list_elem_of_In, filter_In, <- list_elem_of_In, inSet_spec. done. Qed.

Lemma stale_elem {A} (key : A -> string) current desired id :
  id ∈ stale key current desired <-> id ∈ current /\ id ∉ map key desired.
Proof.
  unfold stale. rewrite list_elem_of_In, filter_In, <- list_elem_of_In, negb_true_iff, <- not_true_iff_false, inSet_spec. done.
Qed.

Definition keys_after {A} (key : A -> string) (current : list string) (added : list A) (removed : list string) (id : string) : Prop :=
  id ∈ current /\ id ∉ removed \/ id ∈ map key added.

Lemma diff_converges {A} (key : A -> string) current desired id :
  keys_after key current (absent key current desired) (stale key current desired) id <-> id ∈ map key desired.
Proof.
  unfold keys_after. rewrite stale_elem. split.
  - intros [[H1 H2]|Hin]; [|apply list_elem_of_fmap in Hin as (a & -> & [Ha _]%absent_elem); by apply list_elem_of_fmap_2].
    destruct (decide (id ∈ map key desired)); [done|]. by destruct H2.
  - intros Hin. destruct (decide (id ∈ current)); [left; by split; [|intros [_ []]]|]. right.
    apply list_elem_of_fmap in Hin as (a & -> & Ha). apply list_elem_of_fmap_2. by apply absent_elem.
Qed.

(** The difference converges: carried out in full, on whatever the lister
    reported, a difference leaves exactly the declared models, the declared
    deployments and the declared pools; it adds nothing that is already there and
    removes nothing that is declared, and it splits the declared organisations into
    the new and the existing ones. *)
Theorem Diff_converges cfg l w d w' :
  Diff cfg (Some l) w = (inr d, w') ->
  exists ms ds os ps w1 w2 w3,
    CurrentModelIDs l w = (inr ms, w1) /\ CurrentDeploymentModelIDs l w1 = (inr ds, w2) /\
    CurrentOrgIDs l w2 = (inr os, w3) /\ CurrentNodePoolIDs l w3 = (inr ps, w') /\
    (forall id, keys_after CM_ID ms (ModelsToAdd d) (ModelsToRemove d) id <-> id ∈ map CM_ID (Models cfg)) /\
    (forall id, keys_after DS_Model ds (DeploymentsToAdd d) (DeploymentsToRemove d) id <-> id ∈ map DS_Model (Deployments cfg)) /\
    (forall id, keys_after NS_ID ps (NodePoolsToAdd d) (NodePoolsToRemove d) id <-> id ∈ map NS_ID (NodePools cfg)) /\
    Forall (fun m => CM_ID m ∉ ms) (ModelsToAdd d) /\ Forall (fun x => DS_Model x ∉ ds) (DeploymentsToAdd d) /\
    Forall (fun p => NS_ID p ∉ ps) (NodePoolsToAdd d) /\
    (forall o, o ∈ Orgs cfg <-> o ∈ OrgsToAdd d \/ o ∈ OrgsToUpdate d) /\
    Forall (fun o => OS_ID o ∉ os) (OrgsToAdd d) /\ Forall (fun o => OS_ID o ∈ os) (OrgsToUpdate d).
Proof.
  unfold Diff. intros H. run_step H. destruct r as [|ms]; [done|]. run_step H. destruct r as [|ds]; [done|].
  run_step H. destruct r as [|os]; [done|]. run_step H. destruct r as [|ps]; [done|]. injection H as <- <-.
  exists ms, ds, os, ps, w0, w1, w2. cbn.
  split_and!; try done; try (intros id; apply diff_converges); try (apply Forall_forall; intros x; rewrite ?absent_elem, ?present_elem; naive_solver).
  intros o. rewrite absent_elem, present_elem. destruct (decide (OS_ID o ∈ os)); naive_solver.
Qed.

(** ** What applying a configuration may change *)

(** Nodes, models and the tenancy tables are as before. *)
Definition catalogue_kept (w w' : World) : Prop :=
  db_nodes (w_db w') = db_nodes (w_db w) /\ db_models (w_db w') = db_models (w_db w) /\
  db_platform (w_db w') = db_platform (w_db w).

#[export] Instance catalogue_kept_pre : PreOrder catalogue_kept.
Proof. split; [done|]. intros ? ? ? (? & ? & ?) (? & ? & ?). unfold catalogue_kept. split_and!; congruence. Qed.

(** The planner and the deployer leave the catalogue alone. *)
Class BackendLaws (b : Backends) : Prop := {
  law_plan : forall m c, leaves catalogue_kept (b_plan b m c);
  law_apply : forall p, leaves catalogue_kept (b_apply b p) }.

Section Effects.
Context `{E : Env} (jsonObject : list (string * string) -> string).

Lemma leaves_keeps {A} I (m : M A) : leaves catalogue_kept m -> keeps I m.
Proof. intros Hm w Hw. destruct (Hm w) as (H1 & _ & H3). unfold holds in *. by rewrite H1, H3. Qed.

Lemma query_kept {A} what (k : Database -> Error + A) : leaves catalogue_kept (query what k).
Proof. intros w. destruct (query what k w) as [r w'] eqn:H. apply query_spec in H as (H & _). unfold catalogue_kept. cbn. by rewrite H. Qed.

Lemma nowUTC_kept : leaves catalogue_kept nowUTC.
Proof. done. Qed.

Lemma AppendAudit_kept e : leaves catalogue_kept (AppendAudit e).
Proof.
  intros w. destruct (AppendAudit e w) as [r w'] eqn:H. apply AppendAudit_db in H as (l & H).
  unfold catalogue_kept. cbn. by rewrite H.
Qed.

(** A model that is there stays as it is, and what is new was asked for. *)
Definition models_grow (ids : list string) (w w' : World) : Prop :=
  db_nodes (w_db w') = db_nodes (w_db w) /\ db_platform (w_db w') = db_platform (w_db w) /\
  (forall id row, db_models (w_db w) !! id = Some row -> db_models (w_db w') !! id = Some row) /\
  (forall id row, db_models (w_db w') !! id = Some row -> db_models (w_db w) !! id = Some row \/
     id ∈ ids /\ hasJSON (Row.Spec row) = false).

#[local] Instance models_grow_pre ids : PreOrder (models_grow ids).
Proof.
  split; [intros w; split_and!; auto|]. intros w1 w2 w3 (A1 & A2 & A3 & A4) (B1 & B2 & B3 & B4).
  split_and!; [congruence|congruence|eauto|]. intros id row H. destruct (B4 id row H) as [H'|H']; [by apply A4|by right].
Qed.

Lemma kept_grow ids w w' : catalogue_kept w w' -> models_grow ids w w'.
Proof. intros (H1 & H2 & H3). unfold models_grow. rewrite H1, H2, H3. split_and!; auto. Qed.

Lemma CreateModel_grow ids spec : CM_ID spec ∈ ids -> leaves (models_grow ids) (CreateModel (configModelRow jsonObject spec)).
Proof.
  intros Hid w. destruct (CreateModel _ w) as [r w'] eqn:H. cbn. unfold CreateModel in H. run_step H.
  apply nowUTC_spec in Hrun as [Hd _]. apply exec_spec in H as [_ H]. rewrite Hd in H. unfold insertRow in H. cbn in H.
  destruct r; [destruct H as [H _]; apply kept_grow; unfold catalogue_kept; by rewrite H|].
  destruct (db_models (w_db w) !! CM_ID spec) eqn:Hm; [done|]. injection H as H. unfold models_grow. rewrite <- H. cbn.
  split_and!; [done|done| |].
  - intros id row Hr. rewrite lookup_insert_ne; [done|]. intros <-. congruence.
  - intros id row Hr. destruct (decide (CM_ID spec = id)) as [<-|]; [|rewrite lookup_insert_ne in Hr by done; by left].
    rewrite lookup_insert_eq in Hr. injection Hr as <-. by right.
Qed.

Lemma applyModels_grow ids specs : Forall (fun s => CM_ID s ∈ ids) specs -> leaves (models_grow ids) (applyModels jsonObject specs).
Proof.
  induction 1 as [|spec specs Hs _ IH]; cbn [applyModels]; [by apply leaves_ret, _|].
  apply leaves_bind; [apply _|by apply CreateModel_grow|]. intros err. apply leaves_bind; [apply _| |].
  - destruct err; [by apply leaves_ret, _|]. apply leaves_bind; [apply _| |intros; by apply leaves_ret, _].
    intros w. apply kept_grow, AppendAudit_kept.
  - intros n. apply leaves_bind; [apply _|exact IH|intros; by apply leaves_ret, _].
Qed.

Lemma applyDeployments_kept b specs : (forall x, b = Some x -> BackendLaws x) -> leaves catalogue_kept (applyDeployments b specs).
Proof.
  intros Hb. induction specs as [|spec specs IH]; cbn [applyDeployments]; [by apply leaves_ret, _|].
  apply leaves_bind; [apply _| |intros n; apply leaves_bind; [apply _|exact IH|intros; by apply leaves_ret, _]].
  destruct b as [b|]; [|by apply leaves_ret, _]. destruct (Hb b eq_refl) as [Hp Ha].
  apply leaves_bind; [apply _|apply Hp|]. intros [e|plan]; [by apply leaves_ret, _|].
  apply leaves_bind; [apply _|apply Ha|]. intros [id err]. by apply leaves_ret, _.
Qed.

(** *** The tenancy part *)

Definition models_same (w w' : World) : Prop := db_models (w_db w') = db_models (w_db w).

#[local] Instance models_same_pre : PreOrder models_same.
Proof. split; unfold models_same; congruence. Qed.

Lemma pexec_models what k : leaves models_same (pexec what k).
Proof.
  intros w. unfold models_same. destruct (pexec what k w) as [r w'] eqn:H. cbn. apply exec_spec in H as [_ H].
  destruct r; [by destruct H as [-> _]|]. case_match; [done|]. injection H as H. by rewrite <- H.
Qed.

Lemma pexecMust_models what k : leaves models_same (pexecMust what k).
Proof.
  intros w. unfold models_same. destruct (pexecMust what k w) as [r w'] eqn:H. cbn. apply exec_spec in H as [_ H].
  destruct r; [by destruct H as [-> _]|]. repeat case_match; try done. injection H as H. by rewrite <- H.
Qed.

Lemma query_models {A} what (k : Database -> Error + A) : leaves models_same (query what k).
Proof. intros w. by destruct (query_kept what k w) as (_ & H & _). Qed.

Lemma next_models : leaves models_same next.
Proof. done. Qed.

Lemma nowUTC_models : leaves models_same nowUTC.
Proof. done. Qed.

Lemma sumM_leaves {A} R (f : A -> M Z) l : PreOrder R -> (forall a, leaves R (f a)) -> leaves R (sumM f l).
Proof.
  intros HR Hf. induction l as [|a l IH]; cbn [sumM]; [apply leaves_ret, _|].
  apply leaves_bind; [apply _|apply Hf|]. intros n. apply leaves_bind; [apply _|exact IH|]. intros. apply leaves_ret, _.
Qed.

Lemma sumM_keeps {A} I (f : A -> M Z) l : (forall a, keeps I (f a)) -> keeps I (sumM f l).
Proof.
  intros Hf. induction l as [|a l IH]; cbn [sumM]; [apply keeps_ret|].
  apply keeps_bind; [apply Hf|]. intros n. apply keeps_bind; [exact IH|]. intros. apply keeps_ret.
Qed.
End Effects.

#[export] Hint Resolve pexec_models pexecMust_models query_models next_models nowUTC_models : purser.

(** Splits a sequence of statements that leave the models alone. *)
Ltac models_steps :=
  repeat lazymatch goal with
  | |- leaves _ (cbind _ _) => apply leaves_bind; [apply _| |intros ?]
  | |- leaves _ (cret _) => apply leaves_ret, _
  | |- leaves _ (if _ then _ else _) => case_match
  | |- leaves _ (match _ with _ => _ end) => case_match
  | |- leaves _ _ => solve [auto with purser]
  end.

Section Tenancy.
Context `{E : Env}.
#[local] Existing Instance models_same_pre.

Lemma applyTeams_keeps org ts : keeps platform_wf (applyTeams org ts).
Proof.
  induction ts as [|t ts IH]; cbn [applyTeams]; [apply keeps_ret|]. apply keeps_bind; [apply keeps_CreateTeam|intros; exact IH].
Qed.

Lemma applyTeams_models org ts : leaves models_same (applyTeams org ts).
Proof. induction ts as [|t ts IH]; cbn [applyTeams]; unfold CreateTeam; models_steps. Qed.

Lemma applyOrg_keeps o : keeps platform_wf (applyOrg o).
Proof.
  unfold applyOrg. apply keeps_bind; [apply keeps_pquery|]. intros [e|existing].
  - destruct (isNotFound e); [|apply keeps_ret]. apply keeps_bind; [apply keeps_CreateOrganization|].
    intros [|]; [apply keeps_ret|]. apply keeps_bind; [apply applyTeams_keeps|]. intros. apply keeps_ret.
  - apply keeps_bind; [apply keeps_UpdateOrganization|]. intros. apply keeps_ret.
Qed.

Lemma applyOrg_models o : leaves models_same (applyOrg o).
Proof.
  unfold applyOrg, GetOrganizationBySlug, pquery, UpdateOrganization, CreateOrganization. models_steps. apply applyTeams_models.
Qed.

Lemma applyNodes_keeps p ns : keeps platform_wf (applyNodes p ns).
Proof.
  induction ns as [|n ns IH]; cbn [applyNodes]; [apply keeps_ret|]. apply keeps_bind; [apply keeps_AddNodeToPool|intros; exact IH].
Qed.

Lemma applyNodes_models p ns : leaves models_same (applyNodes p ns).
Proof. induction ns as [|n ns IH]; cbn [applyNodes]; unfold AddNodeToPool; models_steps. Qed.

Lemma applyQuotas_keeps p qs : keeps platform_wf (applyQuotas p qs).
Proof.
  induction qs as [|q qs IH]; cbn [applyQuotas]; [apply keeps_ret|].
  apply keeps_bind; [apply keeps_UpsertPoolTeamQuota|intros; exact IH].
Qed.

Lemma applyQuotas_models p qs : leaves models_same (applyQuotas p qs).
Proof. induction qs as [|q qs IH]; cbn [applyQuotas]; unfold UpsertPoolTeamQuota; models_steps. Qed.

Lemma applyPool_keeps p : keeps platform_wf (applyPool p).
Proof.
  unfold applyPool. apply keeps_bind; [apply keeps_pquery|]. intros [e|existing]; [|apply keeps_ret].
  destruct (isNotFound e); [|apply keeps_ret]. apply keeps_bind; [apply keeps_CreateNodePool|].
  intros [|]; [apply keeps_ret|]. apply keeps_bind; [apply applyNodes_keeps|]. intros.
  apply keeps_bind; [apply applyQuotas_keeps|]. intros. apply keeps_ret.
Qed.

Lemma applyPool_models p : leaves models_same (applyPool p).
Proof.
  unfold applyPool, GetNodePool, pquery, CreateNodePool. models_steps; [apply applyNodes_models|apply applyQuotas_models].
Qed.

Lemma applySLO_keeps kv : keeps platform_wf (applySLO kv).
Proof. unfold applySLO. apply keeps_bind; [apply keeps_UpsertSLOConfig|]. intros. apply keeps_ret. Qed.

Lemma applySLO_models kv : leaves models_same (applySLO kv).
Proof. unfold applySLO, UpsertSLOConfig. models_steps. Qed.

(** The lister only reads. *)
Lemma Diff_kept cfg : leaves catalogue_kept (Diff cfg (Some registryLister)).
Proof.
  unfold Diff, registryLister, liveDeploymentModels, ListModels, ListDeployments, ListOrganizations, ListNodePools, pquery. cbn.
  repeat lazymatch goal with
  | |- leaves _ (cbind _ _) => apply leaves_bind; [apply _| |intros ?]
  | |- leaves _ (cret _) => apply leaves_ret, _
  | |- leaves _ (match _ with _ => _ end) => case_match
  | |- leaves _ (query _ _) => apply query_kept
  | |- leaves _ next => done
  end.
Qed.
End Tenancy.

Definition models_keyed (db : Database) : Prop := forall id m, db_models db !! id = Some m -> Row.MID m = id.

Section Applied.
Context `{E : Env} (jsonObject : list (string * string) -> string) (b : option Backends)
  (Hb : forall x, b = Some x -> BackendLaws x).
#[local] Existing Instance models_same_pre.
#[local] Existing Instance models_grow_pre.

(** The steps of an apply that got past the difference. *)
Lemma ApplyClusterConfig_inv cfg w r w' :
  ApplyClusterConfig jsonObject b cfg w = (inr r, w') ->
  exists d w1 w2 w3 n, Diff cfg (Some registryLister) w = (inr d, w1) /\ catalogue_kept w w1 /\
    applyModels jsonObject (ModelsToAdd d) w1 = (n, w2) /\
    applyDeployments b (DeploymentsToAdd d) w2 = (DeploymentsAdded r, w3) /\
    catalogue_kept w2 w3 /\ models_same w3 w' /\ (holds platform_wf w3 -> holds platform_wf w').
Proof.
  unfold ApplyClusterConfig. intros H. run_step H. destruct r0 as [e|d]; [done|].
  assert (Hk : catalogue_kept w w0). { pose proof (Diff_kept cfg w) as Hk. rewrite Hrun in Hk. exact Hk. }
  run_step H. run_step H. exists d, w0, w1, w2, r0. split; [done|]. split; [done|]. split; [done|].
  pose proof (applyDeployments_kept b (DeploymentsToAdd d) Hb w1) as Hd. rewrite Hrun1 in Hd. cbn in Hd.
  set (rest := (let* orgs := sumM applyOrg (Orgs cfg) in _)) in H.
  assert (Hr : leaves models_same rest /\ keeps platform_wf rest).
  { unfold rest. split.
    - apply leaves_bind; [apply _|apply sumM_leaves; [apply _|apply applyOrg_models]|]. intros orgs.
      apply leaves_bind; [apply _|apply sumM_leaves; [apply _|apply applyPool_models]|]. intros pools.
      apply leaves_bind; [apply _| |intros; apply leaves_ret, _]. destruct (SLO cfg); [|apply leaves_ret, _].
      apply leaves_bind; [apply _|done|]. intros t. apply sumM_leaves; [apply _|apply applySLO_models].
    - apply keeps_bind; [apply sumM_keeps, applyOrg_keeps|]. intros orgs.
      apply keeps_bind; [apply sumM_keeps, applyPool_keeps|]. intros pools.
      apply keeps_bind; [|intros; apply keeps_ret]. destruct (SLO cfg); [|apply keeps_ret].
      apply keeps_bind; [apply keeps_next|]. intros t. apply sumM_keeps, applySLO_keeps. }
  assert (Hn : DeploymentsAdded r = r1).
  { unfold rest in H. run_step H. run_step H. run_step H. by injection H as <- _. }
  destruct Hr as [Hr1 Hr2]. specialize (Hr1 w2). specialize (Hr2 w2). rewrite H in Hr1, Hr2. cbn in Hr1, Hr2.
  rewrite Hn. split_and!; done.
Qed.

Lemma ModelsToAdd_ids cfg w d w1 : Diff cfg (Some registryLister) w = (inr d, w1) ->
  Forall (fun s => CM_ID s ∈ map CM_ID (Models cfg)) (ModelsToAdd d).
Proof.
  unfold Diff. intros H. run_step H. destruct r; [done|]. run_step H. destruct r; [done|]. run_step H. destruct r; [done|].
  run_step H. destruct r; [done|]. injection H as <- _. cbn. apply Forall_forall. intros s [Hs _]%absent_elem.
  by apply list_elem_of_fmap_2.
Qed.

(** Applying is additive: whatever the configuration, the planner, the deployer
    and the faults of the database, an apply keeps every model of the catalogue as
    it was, adds at most the declared ones, without a spec, and keeps the integrity
    of the tenancy tables. Models that are no longer declared stay, although the
    difference lists them for removal. *)
Theorem ApplyClusterConfig_additive cfg w r w' :
  ApplyClusterConfig jsonObject b cfg w = (inr r, w') ->
  (forall id row, db_models (w_db w) !! id = Some row -> db_models (w_db w') !! id = Some row) /\
  (forall id row, db_models (w_db w') !! id = Some row -> db_models (w_db w) !! id = Some row \/
     id ∈ map CM_ID (Models cfg) /\ hasJSON (Row.Spec row) = false) /\
  (holds platform_wf w -> holds platform_wf w').
Proof.
  intros (d & w1 & w2 & w3 & n & Hd & Hk1 & Hm & _ & Hk2 & Hm3 & Hp)%ApplyClusterConfig_inv.
  pose proof (applyModels_grow jsonObject _ _ (ModelsToAdd_ids _ _ _ _ Hd) w1) as Hg. rewrite Hm in Hg. cbn in Hg.
  assert (Hall : models_grow (map CM_ID (Models cfg)) w w3).
  { etrans; [apply kept_grow, Hk1|]. etrans; [exact Hg|]. apply kept_grow, Hk2. }
  destruct Hall as (A1 & A2 & A3 & A4). unfold models_same in Hm3. rewrite Hm3. split; [exact A3|]. split; [exact A4|].
  intros Hw. apply Hp. unfold holds in *. by rewrite A1, A2.
Qed.
End Applied.

(** ** With a database that answers *)

Section Healthy.
Context `{E : Env} `{!HealthyDB E} (jsonObject : list (string * string) -> string).
#[local] Existing Instance models_grow_pre.

(** A read that succeeds and changes nothing. *)
Definition reads {A} (m : M (Error + A)) : Prop := forall w, exists a w1, m w = (inr a, w1) /\ w_db w1 = w_db w.

Lemma query_reads {A} what (k : Database -> A) w :
  exists w1, query what (fun db => inr (k db)) w = (inr (k (w_db w)), w1) /\ w_db w1 = w_db w.
Proof.
  destruct (query what _ w) as [r w1] eqn:H. apply query_spec in H as (Hd & _ & Hr). rewrite env_db_healthy in Hr. subst r. by exists w1.
Qed.

Lemma liveDeploymentModels_reads : reads liveDeploymentModels.
Proof.
  intros w. unfold liveDeploymentModels, ListDeployments. rewrite !cbind_run. cbn [next fst snd].
  match goal with |- context [query ?s (fun db => inr (@?k db)) ?x] => destruct (query_reads s k x) as (w2 & -> & H2) end.
  cbn [fst snd]. rewrite cbind_run. do 2 eexists. split; [reflexivity|exact H2].
Qed.

Lemma ListOrganizations_reads : reads (let* r := ListOrganizations in cret (ids Row.OID r)).
Proof.
  intros w. unfold ListOrganizations, pquery. rewrite !cbind_run. cbn [next fst snd].
  match goal with |- context [query ?s (fun db => inr (@?k db)) ?x] => destruct (query_reads s k x) as (w2 & -> & H2) end.
  do 2 eexists. split; [reflexivity|exact H2].
Qed.

Lemma ListNodePools_reads : reads (let* r := ListNodePools in cret (ids Row.NPID r)).
Proof.
  intros w. unfold ListNodePools, pquery. rewrite !cbind_run. cbn [next fst snd].
  match goal with |- context [query ?s (fun db => inr (@?k db)) ?x] => destruct (query_reads s k x) as (w2 & -> & H2) end.
  do 2 eexists. split; [reflexivity|exact H2].
Qed.

Lemma Diff_run cfg w : exists d w1, Diff cfg (Some registryLister) w = (inr d, w1) /\ w_db w1 = w_db w /\
  ModelsToAdd d = absent CM_ID (map Row.MID (byKey Row.MID (db_models (w_db w)))) (Models cfg).
Proof.
  unfold Diff, registryLister. cbn [CurrentModelIDs CurrentDeploymentModelIDs CurrentOrgIDs CurrentNodePoolIDs].
  rewrite !cbind_run. unfold ListModels.
  destruct (query_reads "registry: list models" (fun db => byKey Row.MID (db_models db)) w) as (w1 & -> & H1). cbn [fst snd ids cret].
  rewrite cbind_run. destruct (liveDeploymentModels_reads w1) as (ds & w2 & -> & H2). cbn [fst snd].
  rewrite cbind_run. destruct (ListOrganizations_reads w2) as (os & w3 & -> & H3). cbn [fst snd].
  rewrite cbind_run. destruct (ListNodePools_reads w3) as (ps & w4 & -> & H4). cbn [fst snd].
  do 2 eexists. split; [reflexivity|]. split; [congruence|reflexivity].
Qed.

Lemma applyModels_all specs : forall w s, s ∈ specs ->
  is_Some (db_models (w_db (snd (applyModels jsonObject specs w))) !! CM_ID s).
Proof.
  induction specs as [|spec specs IH]; intros w s Hs; [by apply elem_of_nil in Hs|]. cbn [applyModels].
  rewrite cbind_run. destruct (CreateModel (configModelRow jsonObject spec) w) as [err w1] eqn:Hc. cbn [fst snd].
  assert (Hin : is_Some (db_models (w_db w1) !! CM_ID spec)).
  { unfold CreateModel in Hc. run_step Hc. apply nowUTC_spec in Hrun as [Hd _]. apply exec_spec in Hc as [_ Hc].
    rewrite Hd in Hc. unfold insertRow in Hc. cbn in Hc. rewrite env_db_healthy in Hc.
    destruct (db_models (w_db w) !! CM_ID spec) as [row|] eqn:Hr.
    - destruct err; [|done]. destruct Hc as [Hc _]. rewrite Hc. by exists row.
    - destruct err; [naive_solver|]. injection Hc as Hc. rewrite <- Hc. cbn. rewrite lookup_insert_eq. by eexists. }
  rewrite cbind_run. set (m := match err with Some _ => cret 0 | None => _ end).
  assert (Hk : catalogue_kept w1 (snd (m w1))).
  { unfold m. destruct err; [reflexivity|]. rewrite cbind_run. apply AppendAudit_kept. }
  set (w2 := snd (m w1)) in *. rewrite cbind_run. cbn [cret snd].
  apply elem_of_cons in Hs as [->|Hs]; [|by apply IH]. destruct Hin as [row Hrow].
  pose proof (applyModels_grow jsonObject (map CM_ID specs) specs) as Hg.
  destruct (Hg ltac:(apply Forall_forall; intros x Hx; by apply list_elem_of_fmap_2) w2) as (_ & _ & Hg' & _). exists row.
  apply Hg'. destruct Hk as (_ & Hk & _). by rewrite Hk.
Qed.

(** Applying declares every model: with a database that answers, an apply does
    not fail and every model of the configuration is in the catalogue afterwards,
    whatever the planner and the deployer do. *)
Theorem ApplyClusterConfig_declares b cfg w :
  (forall x, b = Some x -> BackendLaws x) -> models_keyed (w_db w) ->
  exists r w', ApplyClusterConfig jsonObject b cfg w = (inr r, w') /\
    forall m, m ∈ Models cfg -> is_Some (db_models (w_db w') !! CM_ID m).
Proof.
  intros Hb Hk. destruct (Diff_run cfg w) as (d & w1 & Hd & Hw1 & Hadd).
  assert (Hok : exists r w', ApplyClusterConfig jsonObject b cfg w = (inr r, w')).
  { unfold ApplyClusterConfig. rewrite cbind_run, Hd. cbn [fst snd]. rewrite !cbind_run. do 2 eexists. reflexivity. }
  destruct Hok as (r & w' & Hrun). exists r, w'. split; [done|]. intros m Hm.
  apply ApplyClusterConfig_inv in Hrun as (d' & w1' & w2 & w3 & n & Hd' & _ & Hmodels & _ & (_ & Hk2 & _) & Hsame & _); [|done].
  rewrite Hd in Hd'. injection Hd' as <- <-. unfold models_same in Hsame. rewrite Hsame, Hk2.
  destruct (decide (CM_ID m ∈ map Row.MID (byKey Row.MID (db_models (w_db w))))) as [Hin|Hout].
  - apply list_elem_of_fmap in Hin as (row & Hid & (k & Hrow)%byKey_elem). rewrite Hid, (Hk _ _ Hrow). exists row.
    pose proof (applyModels_grow jsonObject _ _ (ModelsToAdd_ids _ _ _ _ Hd) w1) as (_ & _ & Hg & _). rewrite Hmodels in Hg.
    apply Hg. by rewrite Hw1.
  - pose proof (applyModels_all (ModelsToAdd d) w1 m) as Ha. rewrite Hmodels in Ha. apply Ha. rewrite Hadd. by apply absent_elem.
Qed.
End Healthy.

(** ** The control plane's planner and orchestrator satisfy the interface *)

Section Backing.
Context `{E : Env} `{J : ProtoJSON} (ctx : PlanCtx) (o : Orchestrator) `{!ResolverFrame (O_resolver o)} `{!GatewayFrame (O_gateway o)}.

Lemma same_db_kept {A} (m : M A) : leaves same_db m -> leaves catalogue_kept m.
Proof. intros Hm w. specialize (Hm w). unfold same_db, catalogue_kept in *. by rewrite Hm. Qed.

Lemma CreateDeployment_kept d : leaves catalogue_kept (CreateDeployment d).
Proof.
  intros w. destruct (CreateDeployment d w) as [r w'] eqn:H. cbn. unfold CreateDeployment in H. run_step H.
  apply nowUTC_spec in Hrun as [Hd _]. apply exec_spec in H as [_ H]. rewrite Hd in H. unfold catalogue_kept.
  destruct r; [destruct H as [H _]; by rewrite H|]. unfold insertRow in H. case_match; [done|]. injection H as H. by rewrite <- H.
Qed.

Lemma UpdateDeployment_kept d : leaves catalogue_kept (UpdateDeployment d).
Proof.
  intros w. destruct (UpdateDeployment d w) as [r w'] eqn:H. cbn. unfold UpdateDeployment in H. run_step H.
  apply nowUTC_spec in Hrun as [Hd _]. apply exec_spec in H as [_ H]. rewrite Hd in H. unfold catalogue_kept.
  destruct r; [destruct H as [H _]; by rewrite H|]. unfold updateRow in H. case_match; [|done]. injection H as H. by rewrite <- H.
Qed.

Ltac kept_steps :=
  repeat lazymatch goal with
  | |- leaves _ (cbind _ _) => apply leaves_bind; [apply _| |intros ?]
  | |- leaves _ (cret _) => apply leaves_ret, _
  | |- leaves _ (if _ then _ else _) => case_match
  | |- leaves _ (match _ with _ => _ end) => case_match
  | |- leaves _ (CreateDeployment _) => apply CreateDeployment_kept
  | |- leaves _ (UpdateDeployment _) => apply UpdateDeployment_kept
  | |- leaves _ (AppendAudit _) => apply AppendAudit_kept
  | |- leaves _ (Resolve _ _) => apply same_db_kept, resolve_db
  | |- leaves _ (UpsertRoute _ _) => apply same_db_kept, upsert_db
  | |- leaves _ next => done
  | |- leaves _ (emit _) => done
  end.

Lemma startAndWaitReady_kept addr req : leaves catalogue_kept (startAndWaitReady addr req).
Proof. unfold startAndWaitReady. kept_steps. Qed.

Lemma startWorkers_kept plan ws : forall started peers, leaves catalogue_kept (startWorkers o plan ws started peers).
Proof.
  induction ws as [|x ws IH]; intros started peers; cbn [startWorkers]; kept_steps; [apply startAndWaitReady_kept|apply IH].
Qed.

Lemma stopAll_kept es : leaves catalogue_kept (stopAll es).
Proof. induction es as [|e es IH]; cbn [stopAll]; unfold stopEngine; kept_steps. exact IH. Qed.

Lemma fail_kept dep plan started reason cause : leaves catalogue_kept (fail dep plan started reason cause).
Proof. unfold fail, rollback, persist, Orchestrator.audit. kept_steps. apply stopAll_kept. Qed.

Lemma Apply_kept plan : leaves catalogue_kept (Orchestrator.Apply o plan).
Proof.
  unfold Orchestrator.Apply, newID, persist, Orchestrator.audit, notifyGatewayUp. kept_steps;
    first [apply startWorkers_kept | apply startAndWaitReady_kept | apply fail_kept].
Qed.

Definition controlPlane : Backends := mkBackends (Planning.Plan ctx) (fun p => Orchestrator.Apply o (Some p)).

#[global] Instance controlPlane_laws : BackendLaws controlPlane.
Proof. split; [intros m c; apply same_db_kept, Plan_db|intros p; apply Apply_kept]. Qed.

(** No model of the catalogue has a spec. *)
Definition specless (w : World) : Prop := forall id m, db_models (w_db w) !! id = Some m -> hasJSON (Row.Spec m) = false.

Lemma applyDeployments_specless specs : forall w, specless w ->
  fst (applyDeployments (Some controlPlane) specs w) = 0.
Proof.
  induction specs as [|spec specs IH]; intros w Hw; cbn [applyDeployments]; [done|]. rewrite !cbind_run. cbn [b_plan controlPlane].
  destruct (Plan_no_spec ctx (DS_Model spec) (deployConstraints spec) w) as [e He]; [by intros m Hm; eapply Hw|]. rewrite He.
  cbn [fst snd cret]. pose proof (Plan_db ctx (DS_Model spec) (deployConstraints spec) w) as Hd. rewrite IH; [done|].
  intros id m. rewrite Hd. apply Hw.
Qed.

(** A first apply deploys nothing: on a registry without models, with the
    control plane's own planner and orchestrator, applying any configuration creates
    no deployment, however many it declares, since the models it has just added have
    no spec to plan with. *)
Theorem first_apply_deploys_nothing jsonObject cfg w r w' :
  db_models (w_db w) = ∅ ->
  ApplyClusterConfig jsonObject (Some controlPlane) cfg w = (inr r, w') -> DeploymentsAdded r = 0.
Proof.
  intros Hm H. apply ApplyClusterConfig_inv in H as (d & w1 & w2 & w3 & n & Hd & Hk1 & Hrun & Hdep & _);
    [|intros x [= <-]; apply _].
  pose proof (applyModels_grow jsonObject _ _ (ModelsToAdd_ids _ _ _ _ Hd) w1) as (_ & _ & _ & Hg). rewrite Hrun in Hg. cbn in Hg.
  pose proof (applyDeployments_specless (DeploymentsToAdd d) w2) as H0. rewrite Hdep in H0. apply H0.
  intros id m Hid. destruct (Hg id m Hid) as [Hold|[_ Hn]]; [|done]. destruct Hk1 as (_ & Hk & _). rewrite Hk, Hm, lookup_empty in Hold. done.
Qed.
End Backing.

(** ** Export *)

(** Export after apply: the source of an exported model is the one it was
    created with, except for the bucket URL, which is always lost: the stored key
    and the exported one differ by more than case. *)
Theorem export_source jsonObject parseObject spec :
  let l := sourceFields (CM_Source spec) in
  parseObject (jsonObject l) = Some l -> jsonObject l ≠ ""%string ->
  let m := exportModelSpec parseObject (configModelRow jsonObject spec) in
  CM_ID m = CM_ID spec /\
  CM_Source m = mkSourceSpec (S_Type (CM_Source spec)) (S_Repo (CM_Source spec)) "" (S_Path (CM_Source spec)) /\
  (CM_Source m = CM_Source spec <-> S_BucketURL (CM_Source spec) = ""%string).
Proof.
  intros l Hp Hn m. subst m. unfold exportModelSpec, configModelRow. cbn [Row.Source Row.MID]. fold l.
  rewrite (proj2 (String.eqb_neq _ _) Hn), Hp. subst l.
  destruct (CM_Source spec) as [t r u p]. split; [done|]. split; [reflexivity|]. cbn. split; [by intros [= <-]|by intros ->].
Qed.

(** ** A concrete configuration *)

Section Witnesses.
#[local] Existing Instance calmEnv.
#[local] Existing Instance toyJSON.
Local Open Scope string_scope.

Definition exSpec (id : string) : ConfigModel := mkConfigModel id (mkSourceSpec "s3" "r" "s3://b" "") [] "" 0.
Definition exCfg : ClusterConfig :=
  mkClusterConfig "purser/v1" "ClusterConfig" (mkMetadata "c" ∅ ∅) "prod" [exSpec "m1"; exSpec "m2"]
    [mkDeploySpec "m1" "" 0 0 true] [] [mkOrgSpec "o1" "Acme" "acme" "" [mkTeamSpec "t1" "ML" "ml" "" []]]
    [mkNodePoolSpec "p1" "P" "" "team" "t1" "shared" [] [mkPoolQuotaSpec "t1" 1 1 0]] (Some {[ "*" := mkModelSLO 0 0 f0 ]}).

Example exCfg_valid : Validate exCfg = None.
Proof. reflexivity. Qed.

(** Text that lists the values. *)
Definition exJSON (l : list (string * string)) : string := "{" +:+ String.concat "," (map snd l) +:+ "}".

Definition exOrchestrator : Orchestrator := Orchestrator.New false None None 0.
Definition exBackends : Backends := controlPlane exCtx exOrchestrator.

#[local] Instance exBackends_laws : BackendLaws exBackends.
Proof. apply controlPlane_laws; apply _. Qed.

Lemma exBackends_some x : Some exBackends = Some x -> BackendLaws x.
Proof. intros [= <-]. apply _. Qed.

Definition exApplied := ApplyClusterConfig exJSON (Some exBackends) exCfg emptyWorld.

Lemma exApplied_result : fst exApplied = inr (mkApplyResult 2 0 0 1 1 1).
Proof. vm_compute. reflexivity. Qed.

Lemma exApplied_run : ApplyClusterConfig exJSON (Some exBackends) exCfg emptyWorld = (inr (mkApplyResult 2 0 0 1 1 1), snd exApplied).
Proof. rewrite <- exApplied_result. unfold exApplied. by destruct (ApplyClusterConfig _ _ _ _). Qed.

Lemma Diff_converges_witness :
  exists d w', Diff exCfg (Some registryLister) emptyWorld = (inr d, w') /\ Forall (fun m => CM_ID m ∉ []) (ModelsToAdd d).
Proof.
  destruct (Diff exCfg (Some registryLister) emptyWorld) as [[e|d] w'] eqn:Hd; [vm_compute in Hd; discriminate Hd|].
  exists d, w'. split; [reflexivity|].
  destruct (Diff_converges exCfg registryLister emptyWorld d w' Hd) as (ms & ds & os & ps & w1 & w2 & w3 & H1 & _ & _ & _ & _ & _ & _ & H2 & _).
  vm_compute in H1. injection H1 as <- _. exact H2.
Defined.

Lemma ApplyClusterConfig_additive_witness : holds platform_wf (snd exApplied).
Proof.
  apply (ApplyClusterConfig_additive exJSON (Some exBackends) exBackends_some exCfg emptyWorld _ _ exApplied_run).
  apply platform_wf_empty.
Defined.

Lemma ApplyClusterConfig_declares_witness :
  exists r w', ApplyClusterConfig exJSON (Some exBackends) exCfg emptyWorld = (inr r, w') /\ is_Some (db_models (w_db w') !! "m2").
Proof.
  destruct (ApplyClusterConfig_declares exJSON (Some exBackends) exCfg emptyWorld exBackends_some) as (r & w' & H1 & H2).
  - intros id m Hm. cbn in Hm. rewrite lookup_empty in Hm. discriminate Hm.
  - exists r, w'. split; [exact H1|]. apply (H2 (exSpec "m2")). right. left.
Defined.

Lemma first_apply_deploys_nothing_witness : DeploymentsAdded (mkApplyResult 2 0 0 1 1 1) = 0%Z.
Proof. apply (first_apply_deploys_nothing exCtx exOrchestrator exJSON exCfg emptyWorld _ _ eq_refl exApplied_run). Defined.

Lemma export_source_witness :
  exportModelSpec (fun s => if s =? "{s3,r,s3://b,}" then Some (sourceFields (CM_Source (exSpec "m1"))) else None)
    (configModelRow exJSON (exSpec "m1")) = mkConfigModel "m1" (mkSourceSpec "s3" "r" "" "") [] "" 0 /\
  CM_Source (exportModelSpec (fun s => if s =? "{s3,r,s3://b,}" then Some (sourceFields (CM_Source (exSpec "m1"))) else None)
    (configModelRow exJSON (exSpec "m1"))) = mkSourceSpec "s3" "r" "" "".
Proof.
  split; [reflexivity|].
  apply (export_source exJSON (fun s => if s =? "{s3,r,s3://b,}" then Some (sourceFields (CM_Source (exSpec "m1"))) else None)
           (exSpec "m1")); [reflexivity|discriminate].
Defined.

(** A pool of a team that names no team is accepted. *)
Example ownerless_pool_accepted :
  Validate (mkClusterConfig "purser/v1" "ClusterConfig" (Metadata_ exCfg) "" [] [] [] []
    [mkNodePoolSpec "p" "p" "" "team" "" "exclusive" [] []] None) = None.
Proof. reflexivity. Qed.
End Witnesses.
