(* ===== verification/Credentials.v ===== *)
(** * Credentials: API keys, browser sessions and service accounts in the registry

    [go/controlplane/registry]: the API keys of [sqlite.go] and their lifecycle, the
    OIDC sessions, the PKCE states and the service accounts of
    [enterprise_sqlite.go], and the usage log. [authTables] is what the middleware of
    [Access] reads of these tables: keys by the hash of the key, times as text. *)
From S2P Require Import Prelude Cluster Registry Permissions Access Platform Timestamp Statements.
Import Row.
Open Scope Z_scope.

(** ** The tables *)

Definition creds (db : Database) : CredentialTables := et_credentials (db_enterprise db).

Definition with_creds (db : Database) (t : CredentialTables) : Database :=
  let e := db_enterprise db in
  with_enterprise db (mkEnterpriseTables t (et_review e) (et_inference e) (et_planes e) (et_tenancy e)).

Section Setters.
Context (db : Database).
Let t := creds db.
Definition with_keys x := with_creds db (mkCredentialTables x (ct_keyAccess t) (ct_sessions t) (ct_pkce t) (ct_accounts t) (ct_usage t)).
Definition with_keyAccess x := with_creds db (mkCredentialTables (ct_keys t) x (ct_sessions t) (ct_pkce t) (ct_accounts t) (ct_usage t)).
Definition with_sessions x := with_creds db (mkCredentialTables (ct_keys t) (ct_keyAccess t) x (ct_pkce t) (ct_accounts t) (ct_usage t)).
Definition with_pkce x := with_creds db (mkCredentialTables (ct_keys t) (ct_keyAccess t) (ct_sessions t) x (ct_accounts t) (ct_usage t)).
Definition with_accounts x := with_creds db (mkCredentialTables (ct_keys t) (ct_keyAccess t) (ct_sessions t) (ct_pkce t) x (ct_usage t)).
Definition with_usage x := with_creds db (mkCredentialTables (ct_keys t) (ct_keyAccess t) (ct_sessions t) (ct_pkce t) (ct_accounts t) x).
End Setters.

Definition keys (db : Database) : gmap string APIKeyRow := ct_keys (creds db).
Definition sessions (db : Database) : gmap string OIDCSessionRow := ct_sessions (creds db).
Definition pkce (db : Database) : gmap string PKCEState := ct_pkce (creds db).
Definition accounts (db : Database) : gmap string ServiceAccount := ct_accounts (creds db).
Definition usage (db : Database) : list UsageRow := ct_usage (creds db).

Definition rowsOf {A} (tbl : gmap string A) : list A := map snd (map_to_list tbl).

(** [expires_at IS NULL OR expires_at > ?], on the texts. *)
Definition notExpired (now : Time) (expires : option Time) : bool :=
  match expires with None => true | Some t => String.ltb (fmtTime now) (fmtTime t) end.

Definition defaultRole (role : string) : string := if (role =? "")%string then "admin"%string else role.

(** [SELECT apiKeyCols] leaves the lifecycle columns out. *)
Definition scanAPIKey (k : APIKeyRow) : APIKeyRow :=
  mkAPIKeyRow (AKID k) (AKName k) (AKKeyHash k) (AKTenant k) (AKRole k) (AKQuota k) (AKEnabled k) (AKCreatedAt k)
    (AKUpdatedAt k) None None "" None [] (AKCreatedBy k).

Definition apiKeyCols : list string :=
  ["id"; "name"; "key_hash"; "tenant"; "role"; "quota"; "enabled"; "created_at"; "updated_at"; "created_by"].
Definition apiKeyColsExt : list string :=
  (apiKeyCols ++ ["expires_at"; "last_used_at"; "predecessor_id"; "rotated_at"; "scopes"])%list.

(** The variables [scanAPIKeyExt] hands to [Scan]. *)
Definition scanExtTargets : list string :=
  ["ID"; "Name"; "KeyHash"; "Tenant"; "Role"; "Quota"; "enabled"; "created"; "updated"; "expiresAt"; "lastUsedAt";
   "PredecessorID"; "rotatedAt"; "scopes"].

(** [Scan] refuses a row unless it has as many columns as there are variables; then a
    time that is [NULL] or zero reads as [nil]. *)
Definition scanAPIKeyExt (columns : list string) (k : APIKeyRow) : Error + APIKeyRow :=
  if negb (length columns =? length scanExtTargets)%nat
  then inl (ErrorString "sql: expected 15 destination arguments in Scan, not 14")
  else
    let nonZero (t : option Time) := match t with Some t => if IsZero t then None else Some t | None => None end in
    inr (mkAPIKeyRow (AKID k) (AKName k) (AKKeyHash k) (AKTenant k) (AKRole k) (AKQuota k) (AKEnabled k) (AKCreatedAt k)
           (AKUpdatedAt k) (nonZero (AKExpiresAt k)) (nonZero (AKLastUsedAt k)) (AKPredecessorID k)
           (nonZero (AKRotatedAt k)) (AKScopes k) "").

Section Credentials.
Context `{E : Env}.

(** ** API keys ([sqlite.go]) *)

(** The primary key and the unique index [idx_api_keys_hash]. *)
Definition insertKey (tbl : gmap string APIKeyRow) (k : APIKeyRow) : Error + gmap string APIKeyRow :=
  match tbl !! AKID k with
  | Some _ => inl ErrUnique
  | None =>
      if taken tbl (AKID k) (fun r => AKKeyHash r =? AKKeyHash k)%string then inl ErrUnique
      else inr (<[AKID k := k]> tbl)
  end.

(** The statement has no column for the expiry, the scopes and the predecessor. *)
Definition CreateAPIKey (k : APIKeyRow) : M (option Error) :=
  let* now := nowUTC in
  let created := if IsZero (AKCreatedAt k) then now else AKCreatedAt k in
  let what := ("registry: create api_key " +:+ AKID k)%string in
  exec what (fun db =>
    match insertKey (keys db)
            (mkAPIKeyRow (AKID k) (AKName k) (AKKeyHash k) (AKTenant k) (defaultRole (AKRole k)) (AKQuota k)
               (AKEnabled k) created now None None "" None [] (AKCreatedBy k)) with
    | inl e => inl (Wrap what e)
    | inr tbl => inr (with_keys db tbl)
    end).

Definition GetAPIKey (id : string) : M (Error + APIKeyRow) :=
  query ("registry: get api_key " +:+ id) (fun db => result_map scanAPIKey (getRow (keys db) id)).

Definition ListAPIKeys : M (Error + list APIKeyRow) :=
  query "registry: list api_keys" (fun db => inr (map scanAPIKey (byKey AKID (keys db)))).

Definition ListAPIKeysByTenant (tenant : string) : M (Error + list APIKeyRow) :=
  if (tenant =? "")%string then ListAPIKeys
  else
    let* n := next in
    query "registry: list api_keys by tenant" (fun db =>
      inr (map scanAPIKey (newestFirst AKCreatedAt
             (env_order _ n (List.filter (fun k => (AKTenant k =? tenant)%string && AKEnabled k) (rowsOf (keys db))))))).

Definition UpdateAPIKey (k : APIKeyRow) : M (option Error) :=
  let* now := nowUTC in
  let what := ("registry: update api_key " +:+ AKID k)%string in
  exec what (fun db =>
    match keys db !! AKID k with
    | None => inl ErrNotFound
    | Some row =>
        if taken (keys db) (AKID k) (fun r => AKKeyHash r =? AKKeyHash k)%string then inl (Wrap what ErrUnique)
        else inr (with_keys db (<[AKID k :=
               mkAPIKeyRow (AKID row) (AKName k) (AKKeyHash k) (AKTenant k) (defaultRole (AKRole k)) (AKQuota k)
                 (AKEnabled k) (AKCreatedAt row) now (AKExpiresAt row) (AKLastUsedAt row) (AKPredecessorID row)
                 (AKRotatedAt row) (AKScopes row) (AKCreatedBy row)]> (keys db)))
    end).

Definition DeleteAPIKey (id : string) : M (option Error) :=
  exec ("registry: delete api_key " +:+ id) (fun db => result_map (with_keys db) (deleteRow (keys db) id)).

(** ** The lifecycle of a key ([enterprise_sqlite.go]) *)

(** [SET enabled=0, rotated_at=?, updated_at=?] *)
Definition retire (now : Time) (k : APIKeyRow) : APIKeyRow :=
  mkAPIKeyRow (AKID k) (AKName k) (AKKeyHash k) (AKTenant k) (AKRole k) (AKQuota k) false (AKCreatedAt k) now
    (AKExpiresAt k) (AKLastUsedAt k) (AKPredecessorID k) (Some now) (AKScopes k) (AKCreatedBy k).

(** [fmtNullTimePt] stores the zero time as [NULL]; the statement has no column for
    [created_by]. *)
Definition successor (now : Time) (oldID : string) (k : APIKeyRow) : APIKeyRow :=
  let expires := match AKExpiresAt k with Some t => if IsZero t then None else Some t | None => None end in
  mkAPIKeyRow (AKID k) (AKName k) (AKKeyHash k) (AKTenant k) (defaultRole (AKRole k)) (AKQuota k) true now now
    expires None oldID None (AKScopes k) "".

Definition RotateAPIKey (oldID : string) (newKey : APIKeyRow) : M (option Error) :=
  let* e := attempt (Wrap "registry: rotate_api_key begin") in
  match e with
  | Some e => cret (Some e)
  | None =>
      let* now := nowUTC in
      let* db := get_db in
      let* e := attempt (Wrap "registry: rotate_api_key insert") in
      match e, insertKey (keys db) (successor now oldID newKey) with
      | Some e, _ => cret (Some e)
      | None, inl e => cret (Some (Wrap "registry: rotate_api_key insert" e))
      | None, inr tbl =>
          let* e := attempt (Wrap "registry: rotate_api_key disable") in
          match e with
          | Some e => cret (Some e)
          | None =>
              let* e := attempt id in
              match e with
              | Some e => cret (Some e)
              | None => put_db (with_keys db (alter (retire now) oldID tbl)) ;;; cret None
              end
          end
      end
  end.

Definition UpdateAPIKeyLastUsed (keyID : string) (at_ : Time) : M (option Error) :=
  execRaw (fun db => with_keys db (alter (fun k =>
    mkAPIKeyRow (AKID k) (AKName k) (AKKeyHash k) (AKTenant k) (AKRole k) (AKQuota k) (AKEnabled k) (AKCreatedAt k) at_
      (AKExpiresAt k) (Some at_) (AKPredecessorID k) (AKRotatedAt k) (AKScopes k) (AKCreatedBy k)) keyID (keys db))).

(** [expires_at IS NOT NULL AND expires_at < ?]. *)
Definition expiringBefore (before : Time) (k : APIKeyRow) : bool :=
  AKEnabled k && match AKExpiresAt k with Some t => String.ltb (fmtTime t) (fmtTime before) | None => false end.

Fixpoint scanAll {A B} (scan : A -> Error + B) (l : list A) : Error + list B :=
  match l with
  | [] => inr []
  | a :: l => match scan a with inl e => inl e | inr b => result_map (cons b) (scanAll scan l) end
  end.

Definition ListAPIKeysExpiringBefore (before : Time) : M (Error + list APIKeyRow) :=
  let* n := next in
  query "registry: list_api_keys_expiring_before" (fun db =>
    match scanAll (scanAPIKeyExt apiKeyColsExt)
            (oldestFirst (fun k => default zeroTime (AKExpiresAt k))
               (env_order _ n (List.filter (expiringBefore before) (rowsOf (keys db))))) with
    | inl e => inl (Wrap "registry: list_api_keys_expiring_before scan" e)
    | inr l => inr l
    end).

Definition RecordAPIKeyAccess (e : APIKeyAccessEntry) : M (option Error) :=
  execRaw (fun db => with_keyAccess db (ct_keyAccess (creds db) ++ [e])%list).

Definition accessLimit (limit : Z) : Z :=
  let limit := if limit <=? 0 then 50 else limit in if 1000 <? limit then 1000 else limit.

Definition ListAPIKeyAccessLog (apiKeyID : string) (limit : Z) : M (Error + list APIKeyAccessEntry) :=
  let* n := next in
  query "registry: list_api_key_access_log" (fun db =>
    let mine := if (apiKeyID =? "")%string then ct_keyAccess (creds db)
                else List.filter (fun e => AEAPIKeyID e =? apiKeyID)%string (ct_keyAccess (creds db)) in
    inr (take (Z.to_nat (accessLimit limit)) (newestFirst AERequestAt (env_order _ n mine)))).

(** ** Browser sessions *)

Definition CreateOIDCSession (s : OIDCSessionRow) : M (option Error) :=
  execRaw (fun db => with_sessions db (<[OSTokenHash s :=
    mkOIDCSessionRow (OSTokenHash s) (OSSub s) (OSEmail s) (OSIDPIssuer s) (OSAuthMethod s) (OSCreatedAt s)
      (OSExpiresAt s) false None (OSRefreshTokenEnc s) (OSAccessTokenExpiry s)]> (sessions db))).

Definition revokeSession (now : Time) (s : OIDCSessionRow) : OIDCSessionRow :=
  mkOIDCSessionRow (OSTokenHash s) (OSSub s) (OSEmail s) (OSIDPIssuer s) (OSAuthMethod s) (OSCreatedAt s) (OSExpiresAt s)
    true (Some now) (OSRefreshTokenEnc s) (OSAccessTokenExpiry s).

Definition activeOf (sub : string) (s : OIDCSessionRow) : bool := (OSSub s =? sub)%string && negb (OSRevoked s).

Definition RevokeOIDCSessionsBySubject (sub : string) : M (Error + Z) :=
  let* now := nowUTC in
  statement id (fun db =>
    inr (Z.of_nat (length (List.filter (activeOf sub) (rowsOf (sessions db)))),
         with_sessions db ((fun s => if activeOf sub s then revokeSession now s else s) <$> sessions db))).

Definition RevokeOIDCSessionByTokenHash (tokenHash : string) : M (option Error) :=
  let* now := nowUTC in
  execRaw (fun db => with_sessions db (alter (revokeSession now) tokenHash (sessions db))).

Definition Day : Duration := 24 * 60 * Minute.

(** [expires_at < ? OR (revoked=1 AND revoked_at < ?)]. *)
Definition staleSession (now old : Time) (s : OIDCSessionRow) : bool :=
  String.ltb (fmtTime (OSExpiresAt s)) (fmtTime now)
  || OSRevoked s && match OSRevokedAt s with Some t => String.ltb (fmtTime t) (fmtTime old) | None => false end.

Definition DeleteExpiredOIDCSessions : M (Error + Z) :=
  let* now := nowUTC in
  let* later := nowUTC in
  statement id (fun db =>
    let old := later - Day in
    inr (Z.of_nat (length (List.filter (staleSession now old) (rowsOf (sessions db)))),
         with_sessions db (filter (fun kv => staleSession now old (snd kv) = false) (sessions db)))).

(** ** PKCE states *)

Definition SetPKCEState (stateHash verifier : string) (ttl : Duration) : M (option Error) :=
  let* now := nowUTC in
  execRaw (fun db => with_pkce db (<[stateHash := mkPKCEState verifier (now + ttl)]> (pkce db))).

(** The three results. An expired row is deleted when the database lets it; the
    verifier is returned whether or not the commit that consumes it went through. *)
Definition ConsumePKCEState (stateHash : string) : M (string * bool * option Error) :=
  let* e := attempt id in
  match e with
  | Some e => cret (""%string, false, Some e)
  | None =>
      let* db := get_db in
      let* e := attempt id in
      match e, pkce db !! stateHash with
      | Some e, _ => cret (""%string, false, Some e)
      | None, None => cret (""%string, false, None)
      | None, Some row =>
          let db' := with_pkce db (delete stateHash (pkce db)) in
          let* now := nowUTC in
          if PKExpiresAt row <? now then
            let* e := attempt id in
            let* e' := attempt id in
            match e, e' with
            | None, None => put_db db' ;;; cret (""%string, false, None)
            | _, _ => cret (""%string, false, None)
            end
          else
            let* e := attempt id in
            match e with
            | Some e => cret (""%string, false, Some e)
            | None =>
                let* e := attempt id in
                match e with
                | Some e => cret (PKVerifier row, true, Some e)
                | None => put_db db' ;;; cret (PKVerifier row, true, None)
                end
            end
      end
  end.

Definition DeleteExpiredPKCEStates : M (Error + Z) :=
  let* now := nowUTC in
  statement id (fun db =>
    let stale := fun p => String.ltb (fmtTime (PKExpiresAt p)) (fmtTime now) in
    inr (Z.of_nat (length (List.filter stale (rowsOf (pkce db)))),
         with_pkce db (filter (fun kv => stale (snd kv) = false) (pkce db)))).

(** ** Service accounts *)

Context `{C : Crypto}.

Definition saGenHexID : M string := let* t := next in cret (env_rand t).

(** The account as it is written back, with the secret. [env_rand] stands for the
    bytes of [crand.Read], which does not fail. *)
Definition CreateServiceAccount (sa : ServiceAccount) : M (Error + (string * ServiceAccount)) :=
  let* id8 := saGenHexID in
  let* id4 := saGenHexID in
  let* secretBytes := saGenHexID in
  let clientSecret := b64encode secretBytes in
  let* now := nowUTC in
  let role := if (SARole sa =? "")%string then "inference"%string else SARole sa in
  let id := ("sa-" +:+ id8)%string in
  let clientID := ("sa_" +:+ id4)%string in
  let row := mkServiceAccount id (SAName sa) (SATenant sa) (SADescription sa) role (SAScopes sa) clientID
               (sha256HexOf clientSecret) true (SAExpiresAt sa) None now now in
  let what := Wrap "registry: create_service_account" in
  let* r := statement what (fun db =>
    match accounts db !! id with
    | Some _ => inl (what ErrUnique)
    | None =>
        if taken (accounts db) id (fun a => SAClientID a =? clientID)%string then inl (what ErrUnique)
        else inr ((), with_accounts db (<[id := row]> (accounts db)))
    end) in
  cret (result_map (fun _ => (clientSecret, row)) r).

Definition GetServiceAccountByClientID (clientID : string) : M (Error + ServiceAccount) :=
  let* now := nowUTC in
  let* n := next in
  let* db := get_db in
  match env_db n with
  | Some e => cret (inl e)
  | None =>
      cret (match List.filter (fun a => (SAClientID a =? clientID)%string && SAEnabled a && notExpired now (SAExpiresAt a))
                    (rowsOf (accounts db)) with
            | a :: _ => inr a
            | [] => inl ErrNotFound
            end)
  end.

Definition ListServiceAccounts (tenant : string) : M (Error + list ServiceAccount) :=
  let* n := next in
  query "registry: list_service_accounts" (fun db =>
    let mine := if (tenant =? "")%string then rowsOf (accounts db)
                else List.filter (fun a => SATenant a =? tenant)%string (rowsOf (accounts db)) in
    inr (newestFirst SACreatedAt (env_order _ n mine))).

Definition disableAccount (now : Time) (a : ServiceAccount) : ServiceAccount :=
  mkServiceAccount (SAID a) (SAName a) (SATenant a) (SADescription a) (SARole a) (SAScopes a) (SAClientID a)
    (SAClientSecretHash a) false (SAExpiresAt a) (SALastUsedAt a) (SACreatedAt a) now.

Definition RevokeServiceAccount (id : string) : M (option Error) :=
  let* now := nowUTC in
  exec "registry: revoke_service_account" (fun db =>
    result_map (with_accounts db) (updateRow (accounts db) id (disableAccount now))).

Definition UpdateServiceAccountLastUsed (id : string) (at_ : Time) : M (option Error) :=
  execRaw (fun db => with_accounts db (alter (fun a =>
    mkServiceAccount (SAID a) (SAName a) (SATenant a) (SADescription a) (SARole a) (SAScopes a) (SAClientID a)
      (SAClientSecretHash a) (SAEnabled a) (SAExpiresAt a) (Some at_) (SACreatedAt a) at_) id (accounts db))).

(** ** Usage ([sqlite.go]) *)

Record KeyUsageSummary : Type := mkKeyUsageSummary {
  KU_APIKeyID : string; KU_TotalRequests : Z; KU_InputTokens : Z; KU_OutputTokens : Z }.

Record TenantUsage : Type := mkTenantUsage {
  TU_Tenant : string; TU_TotalRequests : Z; TU_InputTokens : Z; TU_OutputTokens : Z }.

Definition RecordUsage (apiKeyID modelID : string) (inputTokens outputTokens : Z) : M (option Error) :=
  let* now := nowUTC in
  exec "registry: record usage" (fun db =>
    inr (with_usage db (usage db ++ [mkUsageRow apiKeyID modelID inputTokens outputTokens now])%list)).

(** [COUNT( * )] and the two sums of some rows. *)
Definition totals (rows : list UsageRow) : Error + (Z * Z * Z) :=
  match sqlSum 0 (map UGInputTokens rows), sqlSum 0 (map UGOutputTokens rows) with
  | Some i, Some o => inr (Z.of_nat (length rows), i, o)
  | _, _ => inl integerOverflow
  end.

Definition GetKeyUsage (apiKeyID : string) : M (Error + KeyUsageSummary) :=
  let what := ("registry: get key usage " +:+ apiKeyID)%string in
  query what (fun db =>
    match totals (List.filter (fun u => UGAPIKeyID u =? apiKeyID)%string (usage db)) with
    | inl e => inl (Wrap what e)
    | inr (n, i, o) => inr (mkKeyUsageSummary apiKeyID n i o)
    end).

(** The join with [api_keys] drops the rows of keys that no longer exist. *)
Definition tenantOf (db : Database) (u : UsageRow) : option string := AKTenant <$> keys db !! UGAPIKeyID u.

Definition summaryOf (db : Database) (rows : list UsageRow) (tenant : string) : Error + TenantUsage :=
  match totals (List.filter (fun u => bool_decide (tenantOf db u = Some tenant)) rows) with
  | inl e => inl e
  | inr (n, i, o) => inr (mkTenantUsage tenant n i o)
  end.

Definition GetUsageSummary (since : Time) : M (Error + list TenantUsage) :=
  query "registry: get usage summary" (fun db =>
    let rows := if IsZero since then usage db
                else List.filter (fun u => negb (String.ltb (fmtTime (UGRequestAt u)) (fmtTime since))) (usage db) in
    let tenants : list string := go_sort String.ltb (elements (list_to_set (omap (tenantOf db) rows) : gset string)) in
    match scanAll (summaryOf db rows) tenants with
    | inl e => inl (Wrap "registry: get usage summary" e)
    | inr l => inr l
    end).
End Credentials.

(** ** What the middleware reads *)

Definition keyView (k : APIKeyRow) : APIKey :=
  mkAPIKey (AKID k) (AKKeyHash k) (AKTenant k) (AKRole k) (AKEnabled k) (fmtTime <$> AKExpiresAt k).

Definition sessionView (s : OIDCSessionRow) : OIDCSession :=
  mkOIDCSession (OSTokenHash s) (OSSub s) (OSEmail s) (fmtTime (OSExpiresAt s)) (OSRevoked s).

Definition authTables (db : Database) : AuthTables :=
  mkAuthTables (list_to_map (map (fun k => (AKKeyHash k, keyView k)) (rowsOf (keys db))))
    (sessionView <$> sessions db) (db_platform db).

(** ** Integrity *)

Record cred_wf (db : Database) : Prop := {
  wf_key_id : forall id k, keys db !! id = Some k -> AKID k = id;
  wf_key_hash : forall a b k l, keys db !! a = Some k -> keys db !! b = Some l -> AKKeyHash k = AKKeyHash l -> a = b;
  wf_session : forall h s, sessions db !! h = Some s -> OSTokenHash s = h;
  wf_account_id : forall id a, accounts db !! id = Some a -> SAID a = id;
  wf_account_client : forall a b x y, accounts db !! a = Some x -> accounts db !! b = Some y ->
    SAClientID x = SAClientID y -> a = b }.

(** No other row has the value of the new one. *)
Ltac unique_row Hn :=
  match goal with
  | H : _ !! ?i = Some _ |- ?i = _ => apply (Hn _ _ H), String.eqb_eq; congruence
  | H : _ !! ?i = Some _ |- _ = ?i => symmetry; apply (Hn _ _ H), String.eqb_eq; congruence
  end.

(** A change of one row that keeps the columns of the keys. *)
Lemma alter_Some {A} (f : A -> A) (k i : string) (tbl : gmap string A) b :
  alter f k tbl !! i = Some b -> exists a, tbl !! i = Some a /\ b = if decide (i = k) then f a else a.
Proof.
  destruct (decide (i = k)) as [->|Hne].
  - rewrite lookup_alter_eq. destruct (tbl !! k) as [a|]; [|done]. intros [= <-]. eauto.
  - rewrite lookup_alter_ne by done. eauto.
Qed.

Lemma insertKey_wf db k tbl : cred_wf db -> insertKey (keys db) k = inr tbl -> cred_wf (with_keys db tbl).
Proof.
  intros H. unfold insertKey. destruct (keys db !! AKID k) eqn:El; [done|]. destruct (taken _ _ _) eqn:Et; [done|].
  intros [= <-]. pose proof (fun i a => taken_false _ _ _ i a Et) as Hn. keep H; unfold keys in *; cbn.
  - intros id a Ha. at_key; [done|]. by apply wf_key_id0.
  - intros i j a b Ha Hb Hab. repeat at_key; [done|by unique_row Hn..|by eapply wf_key_hash0].
Qed.

Lemma alter_keys_wf db f id :
  cred_wf db -> (forall k, AKID (f k) = AKID k /\ AKKeyHash (f k) = AKKeyHash k) ->
  cred_wf (with_keys db (alter f id (keys db))).
Proof.
  intros H Hf. assert (Hf' : forall i b, alter f id (keys db) !! i = Some b -> exists a, keys db !! i = Some a /\
                     AKID b = AKID a /\ AKKeyHash b = AKKeyHash a).
  { intros i b Hb. apply alter_Some in Hb as (a & Ha & ->). exists a. case_decide; [by split; [|apply Hf]|done]. }
  keep H; unfold keys in *; cbn.
  - intros i b Hb. apply Hf' in Hb as (a & Ha & -> & _). by apply wf_key_id0.
  - intros i j a b Ha Hb Hab. apply Hf' in Ha as (a' & Ha & _ & E1). apply Hf' in Hb as (b' & Hb & _ & E2).
    eapply wf_key_hash0; [exact Ha|exact Hb|congruence].
Qed.

Lemma alter_accounts_wf db f id :
  cred_wf db -> (forall k, SAID (f k) = SAID k /\ SAClientID (f k) = SAClientID k) ->
  cred_wf (with_accounts db (alter f id (accounts db))).
Proof.
  intros H Hf. assert (Hf' : forall i b, alter f id (accounts db) !! i = Some b -> exists a, accounts db !! i = Some a /\
                     SAID b = SAID a /\ SAClientID b = SAClientID a).
  { intros i b Hb. apply alter_Some in Hb as (a & Ha & ->). exists a. case_decide; [by split; [|apply Hf]|done]. }
  keep H; unfold accounts in *; cbn.
  - intros i b Hb. apply Hf' in Hb as (a & Ha & -> & _). by apply wf_account_id0.
  - intros i j a b Ha Hb Hab. apply Hf' in Ha as (a' & Ha & _ & E1). apply Hf' in Hb as (b' & Hb & _ & E2).
    eapply wf_account_client0; [exact Ha|exact Hb|congruence].
Qed.

(** A table of sessions whose rows come from the one before. *)
Lemma sessions_wf db tbl :
  cred_wf db -> (forall h s, tbl !! h = Some s -> exists s', sessions db !! h = Some s' /\ OSTokenHash s = OSTokenHash s') ->
  cred_wf (with_sessions db tbl).
Proof. intros H Hs. keep H. intros h s Hl. apply Hs in Hl as (s' & Hl & ->). by apply wf_session0. Qed.

Lemma cred_wf_same db db' : cred_wf db -> creds db' = creds db -> cred_wf db'.
Proof. intros [] Hc. split; unfold keys, sessions, accounts in *; rewrite Hc; assumption. Qed.

Lemma cred_wf_audit db l : cred_wf db -> cred_wf (with_audit db l).
Proof. intros H. by apply (cred_wf_same _ _ H). Qed.
#[export] Hint Resolve cred_wf_audit : purser.

(** An [UPDATE] that found its row. *)
Lemma updateRow_alter {A B} (tbl : gmap string A) k f (g : gmap string A -> B) b :
  result_map g (updateRow tbl k f) = inr b -> exists tbl', tbl' = alter f k tbl /\ g tbl' = b.
Proof.
  unfold updateRow. destruct (tbl !! k) as [a|] eqn:El; [|done]. intros [= <-]. eexists. split; [reflexivity|].
  f_equal. apply map_eq. intros i. destruct (decide (i = k)) as [->|].
  - by rewrite lookup_alter_eq, lookup_insert_eq, El.
  - by rewrite lookup_alter_ne, lookup_insert_ne.
Qed.

Section CredentialOps.
Context `{E : Env} `{C : Crypto}.

(** The operations that change the tables. *)
Inductive CredentialOp : Type :=
| OpCreateKey (k : APIKeyRow) | OpUpdateKey (k : APIKeyRow) | OpDeleteKey (id : string)
| OpRotateKey (oldID : string) (k : APIKeyRow) | OpKeyUsed (id : string) (at_ : Time) | OpKeyAccess (e : APIKeyAccessEntry)
| OpCreateSession (s : OIDCSessionRow) | OpRevokeSubject (sub : string) | OpRevokeSession (h : string) | OpExpireSessions
| OpSetPKCE (h v : string) (ttl : Duration) | OpConsumePKCE (h : string) | OpExpirePKCE
| OpCreateAccount (a : ServiceAccount) | OpRevokeAccount (id : string) | OpAccountUsed (id : string) (at_ : Time)
| OpUsage (key model : string) (i o : Z).

Definition performCredential (op : CredentialOp) : M unit :=
  match op with
  | OpCreateKey k => ignore (CreateAPIKey k) | OpUpdateKey k => ignore (UpdateAPIKey k)
  | OpDeleteKey id => ignore (DeleteAPIKey id) | OpRotateKey id k => ignore (RotateAPIKey id k)
  | OpKeyUsed id t => ignore (UpdateAPIKeyLastUsed id t) | OpKeyAccess e => ignore (RecordAPIKeyAccess e)
  | OpCreateSession s => ignore (CreateOIDCSession s) | OpRevokeSubject s => ignore (RevokeOIDCSessionsBySubject s)
  | OpRevokeSession h => ignore (RevokeOIDCSessionByTokenHash h) | OpExpireSessions => ignore DeleteExpiredOIDCSessions
  | OpSetPKCE h v ttl => ignore (SetPKCEState h v ttl) | OpConsumePKCE h => ignore (ConsumePKCEState h)
  | OpExpirePKCE => ignore DeleteExpiredPKCEStates
  | OpCreateAccount a => ignore (CreateServiceAccount a) | OpRevokeAccount id => ignore (RevokeServiceAccount id)
  | OpAccountUsed id t => ignore (UpdateServiceAccountLastUsed id t)
  | OpUsage k m i o => ignore (RecordUsage k m i o)
  end.

(** The steps of a transaction leave the database and the outside alone. *)
Ltac tx_step H :=
  run_step H;
  match goal with
  | Hr : attempt _ _ = _ |- _ => apply attempt_spec in Hr as (? & ? & _)
  | Hr : nowUTC _ = _ |- _ => apply nowUTC_spec in Hr as (? & ?)
  | Hr : get_db _ = _ |- _ => injection Hr as <- <-
  end.

Ltac outside := solve [repeat first [assumption | etrans; [eassumption|]]; done].

(** What a rotation does: all of it, or nothing. *)
Lemma RotateAPIKey_spec oldID k w e w' :
  RotateAPIKey oldID k w = (e, w') ->
  outside_same w w' /\
  match e with
  | Some _ => w_db w' = w_db w
  | None => exists now tbl, insertKey (keys (w_db w)) (successor now oldID k) = inr tbl /\
      w_db w' = with_keys (w_db w) (alter (retire now) oldID tbl)
  end.
Proof.
  unfold RotateAPIKey. intros H. tx_step H. destruct r as [e1|]; [injection H as <- <-; done|].
  tx_step H. rename r into now. tx_step H. tx_step H. assert (D : w_db w1 = w_db w) by congruence. rewrite D in H.
  destruct r as [e2|]; [injection H as <- <-; split; [outside|congruence]|].
  destruct (insertKey _ _) as [e3|tbl] eqn:Ei; [injection H as <- <-; split; [outside|congruence]|].
  tx_step H. destruct r as [e4|]; [injection H as <- <-; split; [outside|congruence]|].
  tx_step H. destruct r as [e5|]; [injection H as <- <-; split; [outside|congruence]|].
  injection H as <- <-. cbn. split; [outside|]. eauto.
Qed.

(** A consumed state is gone once the commit went through; otherwise nothing changed. *)
Lemma ConsumePKCEState_spec h w v ok e w' :
  ConsumePKCEState h w = (v, ok, e, w') ->
  outside_same w w' /\
  (w_db w' = w_db w \/ w_db w' = with_pkce (w_db w) (delete h (pkce (w_db w)))) /\
  (ok = true -> e = None -> w_db w' = with_pkce (w_db w) (delete h (pkce (w_db w)))) /\
  (ok = true -> exists row now, pkce (w_db w) !! h = Some row /\ v = PKVerifier row /\ now <= PKExpiresAt row).
Proof.
  unfold ConsumePKCEState. intros H. tx_step H.
  destruct r as [e1|]; [injection H as <- <- <- <-; split; [outside|]; split; [left; congruence|done]|].
  tx_step H. tx_step H. assert (D : w_db w0 = w_db w) by congruence. rewrite D in H.
  destruct r as [e2|]; [injection H as <- <- <- <-; split; [outside|]; split; [left; congruence|done]|].
  destruct (pkce (w_db w) !! h) as [row|] eqn:El;
    [|injection H as <- <- <- <-; split; [outside|]; split; [left; congruence|done]].
  tx_step H. rename r into now. destruct (Z.ltb_spec (PKExpiresAt row) now) as [Hx|Hx].
  - tx_step H. tx_step H.
    destruct r as [?|], r0 as [?|]; injection H as <- <- <- <-; cbn; (split; [outside|]);
      (split; [first [by right|left; congruence]|done]).
  - tx_step H. destruct r as [e4|]; [injection H as <- <- <- <-; split; [outside|]; split; [left; congruence|done]|].
    tx_step H. destruct r as [e5|]; injection H as <- <- <- <-; cbn; (split; [outside|]).
    + split; [left; congruence|]. split; [done|]. eauto.
    + split; [by right|]. split; [done|]. eauto 10.
Qed.

Lemma attempt_healthy `{!HealthyDB E} wrap w : attempt wrap w = (None, mkWorld (S (w_tick w)) (w_db w) (w_routes w) (w_trace w)).
Proof. unfold attempt, cbind, next, cret. cbn. by rewrite env_db_healthy. Qed.

(** The state is compared with the clock of this very call, its third tick; a state that
    is handed out took five. *)
Lemma ConsumePKCEState_time h w v e w' : ConsumePKCEState h w = (v, true, e, w') ->
  exists row, pkce (w_db w) !! h = Some row /\ v = PKVerifier row /\ env_now (2 + w_tick w) <= PKExpiresAt row /\
    w_tick w' = (5 + w_tick w)%nat.
Proof.
  unfold ConsumePKCEState, attempt, nowUTC, cbind, next, get_db, put_db, cret. cbn.
  destruct (env_db (w_tick w)); [done|]. cbn. destruct (env_db (S (w_tick w))); [done|].
  destruct (pkce (w_db w) !! h) as [row|]; [|done]. cbn.
  destruct (Z.ltb_spec (PKExpiresAt row) (env_now (S (S (w_tick w))))) as [Hx|Hx].
  - cbn. repeat match goal with |- context [env_db ?t] => destruct (env_db t); cbn end; done.
  - cbn. destruct (env_db _); cbn; [done|]. destruct (env_db _); cbn; intros [= <- <- <-]; exists row; done.
Qed.

Lemma ConsumePKCEState_healthy `{!HealthyDB E} h w v ok e w' : ConsumePKCEState h w = (v, ok, e, w') -> e = None.
Proof.
  unfold ConsumePKCEState, cbind at 1. rewrite attempt_healthy. cbn [cbind get_db]. unfold cbind at 1 2, get_db.
  rewrite attempt_healthy. cbn [w_db]. destruct (pkce (w_db w) !! h) as [row|]; [|by intros [= _ _ <- _]].
  unfold cbind at 1. destruct (nowUTC _) as [now w2]. destruct (PKExpiresAt row <? now).
  - unfold cbind at 1 2. rewrite attempt_healthy, attempt_healthy. by intros [= _ _ <- _].
  - unfold cbind at 1. rewrite attempt_healthy. unfold cbind at 1. rewrite attempt_healthy. by intros [= _ _ <- _].
Qed.

Lemma execRaw_healthy `{!HealthyDB E} k w r w' : execRaw k w = (r, w') -> r = None.
Proof. unfold execRaw, cbind. erewrite statement_healthy by reflexivity. by intros [= <- _]. Qed.

Lemma maintains_RotateAPIKey oldID k : maintains cred_wf (RotateAPIKey oldID k).
Proof.
  intros w Hw. destruct (RotateAPIKey oldID k w) as [e w'] eqn:H. apply RotateAPIKey_spec in H as (_ & H). cbn.
  destruct e; [by rewrite H|]. destruct H as (now & tbl & Hi & ->).
  apply (insertKey_wf _ _ _ Hw) in Hi. by apply (alter_keys_wf _ (retire now) oldID) in Hi.
Qed.

Lemma maintains_ConsumePKCEState h : maintains cred_wf (ConsumePKCEState h).
Proof.
  intros w Hw. destruct (ConsumePKCEState h w) as [[[v ok] e] w'] eqn:H. apply ConsumePKCEState_spec in H as (_ & H & _). cbn.
  destruct H as [->| ->]; [done|]. by keep Hw.
Qed.

Lemma maintains_CreateAPIKey k : maintains cred_wf (CreateAPIKey k).
Proof.
  unfold CreateAPIKey. maintains_steps. destruct (insertKey _ _) eqn:Ei; [done|]. intros [= <-]. by eapply insertKey_wf.
Qed.

Lemma maintains_UpdateAPIKey k : maintains cred_wf (UpdateAPIKey k).
Proof.
  unfold UpdateAPIKey. maintains_steps. destruct (keys db !! AKID k) as [row|] eqn:El; [|done].
  destruct (taken _ _ _) eqn:Et; [done|]. intros [= <-]. pose proof (fun i a => taken_false _ _ _ i a Et) as Hn.
  keep Hdb; unfold keys in *; cbn.
  - intros id x Hx. at_key; [by apply wf_key_id0|]. by apply wf_key_id0.
  - intros i j x y Hx Hy Hxy. repeat at_key; [done|by unique_row Hn..|by eapply wf_key_hash0].
Qed.

Lemma maintains_DeleteAPIKey id : maintains cred_wf (DeleteAPIKey id).
Proof.
  unfold DeleteAPIKey. maintains_steps. unfold deleteRow. case_match; [|done]. intros [= <-].
  keep Hdb; unfold keys in *; cbn; intros; repeat at_key; eauto.
Qed.

Lemma maintains_CreateServiceAccount a : maintains cred_wf (CreateServiceAccount a).
Proof.
  unfold CreateServiceAccount, saGenHexID. maintains_steps. case_match eqn:El; [done|].
  destruct (taken _ _ _) eqn:Et; [done|]. intros [= _ <-]. pose proof (fun i a => taken_false _ _ _ i a Et) as Hn.
  keep Hdb; unfold accounts in *; cbn.
  - intros i x Hx. at_key; [done|]. by apply wf_account_id0.
  - intros i j x y Hx Hy Hxy. repeat at_key; [done|by unique_row Hn..|by eapply wf_account_client0].
Qed.

Lemma maintains_performCredential op : maintains cred_wf (performCredential op).
Proof.
  destruct op; apply maintains_ignore;
    auto using maintains_CreateAPIKey, maintains_UpdateAPIKey, maintains_DeleteAPIKey, maintains_RotateAPIKey,
      maintains_ConsumePKCEState, maintains_CreateServiceAccount.
  - unfold UpdateAPIKeyLastUsed. maintains_steps. by apply alter_keys_wf.
  - unfold RecordAPIKeyAccess. maintains_steps. by keep Hdb.
  - unfold CreateOIDCSession. maintains_steps. keep Hdb. unfold sessions in *. cbn. intros h x Hx. at_key; [done|].
    by apply wf_session0.
  - unfold RevokeOIDCSessionsBySubject. maintains_steps. intros [= _ <-]. apply sessions_wf; [done|]. intros h s Hs.
    apply lookup_fmap_Some in Hs as (s' & <- & Hs). exists s'. by case_match.
  - unfold RevokeOIDCSessionByTokenHash. maintains_steps. apply sessions_wf; [done|]. intros x s Hs.
    apply alter_Some in Hs as (s' & Hs & ->). exists s'. by case_decide.
  - unfold DeleteExpiredOIDCSessions. maintains_steps. intros [= _ <-]. apply sessions_wf; [done|]. intros h s Hs.
    apply map_lookup_filter_Some in Hs as (Hs & _). eauto.
  - unfold SetPKCEState. maintains_steps. by keep Hdb.
  - unfold DeleteExpiredPKCEStates. maintains_steps. intros [= _ <-]. by keep Hdb.
  - unfold RevokeServiceAccount. maintains_steps. intros Hu. apply updateRow_alter in Hu as (tbl & Hu & <-).
    rewrite Hu. by apply alter_accounts_wf.
  - unfold UpdateServiceAccountLastUsed. maintains_steps. by apply alter_accounts_wf.
  - unfold RecordUsage. maintains_steps. intros [= <-]. by keep Hdb.
Qed.
End CredentialOps.

(** ** What the middleware finds *)

Lemma authKeys_Some db h v : cred_wf db ->
  t_keys (authTables db) !! h = Some v <-> exists id k, keys db !! id = Some k /\ AKKeyHash k = h /\ v = keyView k.
Proof.
  intros Hwf. cbn [authTables t_keys]. rewrite <- elem_of_list_to_map; unfold rowsOf.
  - rewrite list_elem_of_fmap. setoid_rewrite list_elem_of_fmap. split.
    + intros (k & [= -> ->] & ([id k'] & -> & Hk)). apply elem_of_map_to_list in Hk. eauto.
    + intros (id & k & Hk & <- & ->). exists k. split; [done|]. exists (id, k). split; [done|]. by apply elem_of_map_to_list.
  - change (NoDup (fst <$> ((fun k => (AKKeyHash k, keyView k)) <$> (snd <$> map_to_list (keys db))))).
    rewrite <- !list_fmap_compose. apply NoDup_fmap_2_strong; [|apply NoDup_map_to_list].
    intros [i k] [j l] Hk Hl Heq. apply elem_of_map_to_list in Hk, Hl. cbn in Heq.
    assert (i = j) as -> by (by eapply (wf_key_hash db Hwf)). congruence.
Qed.

(** A lookup by hash finds the key of that hash while it is enabled and not expired. *)
Lemma getKey_row db m id k : cred_wf db -> m_fault m QKey = None -> keys db !! id = Some k ->
  GetAPIKeyByHash m (authTables db) (AKKeyHash k) = if keyLive m (keyView k) then inr (keyView k) else inl ErrNotFound.
Proof.
  intros Hwf Hm Hk. unfold GetAPIKeyByHash, fetch. rewrite Hm, (proj2 (authKeys_Some db (AKKeyHash k) (keyView k) Hwf)) by eauto.
  by destruct (keyLive m (keyView k)).
Qed.

Lemma getKey_same db db' m h : cred_wf db -> cred_wf db' ->
  (forall id k, AKKeyHash k = h -> keys db !! id = Some k <-> keys db' !! id = Some k) ->
  GetAPIKeyByHash m (authTables db') h = GetAPIKeyByHash m (authTables db) h.
Proof.
  intros H1 H2 H. unfold GetAPIKeyByHash. assert (t_keys (authTables db') !! h = t_keys (authTables db) !! h) as ->; [|done].
  apply option_eq. intros v. rewrite !authKeys_Some by done. split; intros (id & k & Hk & Hh & ->); exists id, k;
    (split; [by apply H|done]).
Qed.

Section Rotation.
Context `{E : Env} `{C : Crypto}.

Lemma insertKey_Some tbl k tbl' : insertKey tbl k = inr tbl' ->
  tbl !! AKID k = None /\ tbl' = <[AKID k := k]> tbl /\ forall i a, tbl !! i = Some a -> AKKeyHash a ≠ AKKeyHash k.
Proof.
  unfold insertKey. destruct (tbl !! AKID k) eqn:El; [done|]. destruct (taken _ _ _) eqn:Et; [done|]. intros [= <-].
  split; [done|]. split; [done|]. intros i a Ha Hh.
  assert (i = AKID k) by (apply (taken_false _ _ _ i a Et Ha); by apply String.eqb_eq). congruence.
Qed.

(** The hand-over: the old key is refused from then on, the new one is accepted with
    the role and the tenant it was given, and no other key is affected. *)
Lemma rotate_handover oldID old k w w' m :
  cred_wf (w_db w) -> keys (w_db w) !! oldID = Some old -> AKExpiresAt k = None -> m_fault m QKey = None ->
  RotateAPIKey oldID k w = (None, w') ->
  GetAPIKeyByHash m (authTables (w_db w')) (AKKeyHash old) = inl ErrNotFound /\
  GetAPIKeyByHash m (authTables (w_db w')) (AKKeyHash k) =
    inr (mkAPIKey (AKID k) (AKKeyHash k) (AKTenant k) (defaultRole (AKRole k)) true None) /\
  forall h, h ≠ AKKeyHash old -> h ≠ AKKeyHash k ->
    GetAPIKeyByHash m (authTables (w_db w')) h = GetAPIKeyByHash m (authTables (w_db w)) h.
Proof.
  intros Hwf Ho Hexp Hm H. pose proof (maintains_RotateAPIKey oldID k w Hwf) as Hwf'. rewrite H in Hwf'. cbn in Hwf'.
  apply RotateAPIKey_spec in H as (_ & now & tbl & Hi & Hdb). apply insertKey_Some in Hi as (Hfresh & -> & Hh).
  cbn [successor AKID AKKeyHash] in *. assert (Hne : AKID k ≠ oldID) by (intros <-; congruence).
  assert (Hkeys : keys (w_db w') = alter (retire now) oldID (<[AKID k := successor now oldID k]> (keys (w_db w)))) by (by rewrite Hdb).
  assert (Hold : keys (w_db w') !! oldID = Some (retire now old))
    by (by rewrite Hkeys, lookup_alter_eq, lookup_insert_ne, Ho).
  assert (Hnew : keys (w_db w') !! AKID k = Some (successor now oldID k))
    by (by rewrite Hkeys, lookup_alter_ne, lookup_insert_eq).
  split; [|split].
  - by rewrite (getKey_row _ m _ _ Hwf' Hm Hold : GetAPIKeyByHash m _ (AKKeyHash old) = _).
  - rewrite (getKey_row _ m _ _ Hwf' Hm Hnew : GetAPIKeyByHash m _ (AKKeyHash k) = _).
    unfold keyView, successor, keyLive. cbn. by rewrite Hexp.
  - intros h H1 H2. apply getKey_same; [done..|]. intros id a Ha. rewrite Hkeys.
    destruct (decide (id = oldID)) as [->|Hid]; [|rewrite lookup_alter_ne by done].
    + rewrite lookup_alter_eq, lookup_insert_ne, Ho by done. cbn. split; intros [= <-]; subst h; cbn in *; congruence.
    + destruct (decide (id = AKID k)) as [->|]; [|by rewrite lookup_insert_ne].
      rewrite lookup_insert_eq, Hfresh. split; [done|]. intros [= <-]. subst h. cbn in *. congruence.
Qed.
End Rotation.

(** ** Properties *)

Section Properties.
Context `{E : Env} `{C : Crypto}.

(** Credentials stay identified: whatever operations run on the credential
    tables and whatever statements the database refuses in between, two API keys never
    share a key hash, two service accounts never share a client id, and every row is
    found under its own key; so the key the middleware finds for a bearer token is
    the only one with that hash. *)
Theorem credentials_integrity ops w :
  cred_wf (w_db w) ->
  let db := w_db (snd (runAll performCredential ops w)) in
  cred_wf db /\
  forall m h k, GetAPIKeyByHash m (authTables db) h = inr k ->
    exists row, keys db !! K_ID k = Some row /\ k = keyView row /\ AKKeyHash row = h /\ AKEnabled row = true /\
      forall id row', keys db !! id = Some row' -> AKKeyHash row' = h -> id = K_ID k.
Proof.
  intros Hw db. assert (Hwf : cred_wf db) by (apply maintains_runAll; [apply maintains_performCredential|done]).
  split; [done|]. intros m h k Hg. unfold GetAPIKeyByHash in Hg. apply fetch_inr in Hg.
  destruct (t_keys (authTables db) !! h) as [v|] eqn:El; [|done]. destruct (keyLive m v) eqn:Elive; [|done].
  injection Hg as ->. apply authKeys_Some in El as (id & row & Hr & Hh & ->); [|done].
  pose proof (wf_key_id _ Hwf _ _ Hr) as Hid. exists row. cbn [keyView K_ID]. rewrite Hid. split; [done|]. split; [done|].
  split; [done|]. split; [by apply andb_prop in Elive as [? _]|]. intros id' row' Hr' Hh'.
  eapply (wf_key_hash _ Hwf); [exact Hr'|exact Hr|congruence].
Qed.

(** The verifier of [h] is not in the table. *)
Definition consumed (h : string) (db : Database) : Prop := pkce db !! h = None.

Definition setsPKCE (h : string) (op : CredentialOp) : bool :=
  match op with OpSetPKCE h' _ _ => (h' =? h)%string | _ => false end.

Lemma consumed_op h op : setsPKCE h op = false -> maintains (consumed h) (performCredential op).
Proof.
  destruct op; intros Hs; apply maintains_ignore;
    unfold CreateAPIKey, UpdateAPIKey, DeleteAPIKey, UpdateAPIKeyLastUsed, RecordAPIKeyAccess, CreateOIDCSession,
      RevokeOIDCSessionsBySubject, RevokeOIDCSessionByTokenHash, DeleteExpiredOIDCSessions, SetPKCEState,
      DeleteExpiredPKCEStates, CreateServiceAccount, saGenHexID, RevokeServiceAccount, UpdateServiceAccountLastUsed,
      RecordUsage, deleteRow, updateRow; maintains_steps; repeat case_match; try (intros; simplify_eq/=; assumption).
  - intros w Hw. destruct (RotateAPIKey oldID k w) as [e w'] eqn:H. apply RotateAPIKey_spec in H as (_ & H). cbn.
    destruct e; [by rewrite H|]. by destruct H as (? & ? & _ & ->).
  - unfold consumed, pkce. cbn. cbn in Hs. rewrite lookup_insert_ne; [done|]. intros ->. by rewrite String.eqb_refl in Hs.
  - intros w Hw. destruct (ConsumePKCEState h0 w) as [[[v ok] e] w'] eqn:H. apply ConsumePKCEState_spec in H as (_ & H & _). cbn.
    destruct H as [->| ->]; [done|]. unfold consumed, pkce in *. cbn. by apply lookup_delete_None; right.
  - intros [= _ <-]. unfold consumed, pkce in *. cbn. by rewrite map_lookup_filter, Hdb.
Qed.

(** A PKCE state is spent once: after a login callback has consumed a state and
    the commit went through, no later callback obtains the verifier of that state,
    whatever else happens to the credential tables, unless a new login stores the same
    state again; and a verifier is only handed out before its state expires. *)
Theorem pkce_single_use h v w w1 ops v' ok e w2 :
  ConsumePKCEState h w = ((v, true, None), w1) -> forallb (fun op => negb (setsPKCE h op)) ops = true ->
  ConsumePKCEState h (snd (runAll performCredential ops w1)) = ((v', ok, e), w2) ->
  ok = false /\
  exists row now, pkce (w_db w) !! h = Some row /\ v = PKVerifier row /\ now <= PKExpiresAt row.
Proof.
  intros H1 Hops H2. apply ConsumePKCEState_spec in H1 as (_ & _ & Hdb & Hv). split; [|by apply Hv].
  assert (Hc : consumed h (w_db w1)) by (rewrite Hdb by done; unfold consumed, pkce; cbn; apply lookup_delete_eq).
  assert (Hc' : consumed h (w_db (snd (runAll performCredential ops w1)))).
  { clear -Hc Hops. revert w1 Hc. induction ops as [|op ops IH]; intros w1 Hc; [done|]. cbn [runAll]. rewrite cbind_run.
    apply andb_prop in Hops as [Ho Hops]. apply negb_true_iff in Ho. apply IH; [done|]. by apply consumed_op. }
  apply ConsumePKCEState_spec in H2 as (_ & _ & _ & Hv'). destruct ok; [|done].
  destruct (Hv' eq_refl) as (row & now & Hrow & _). unfold consumed in Hc'. congruence.
Qed.

(** The session of [h] is not usable. *)
Definition ended (h : string) (db : Database) : Prop :=
  forall s, sessions db !! h = Some s -> OSRevoked s = true.

Definition reopens (h : string) (op : CredentialOp) : bool :=
  match op with OpCreateSession s => (OSTokenHash s =? h)%string | _ => false end.

Lemma ended_op h op : reopens h op = false -> maintains (ended h) (performCredential op).
Proof.
  destruct op; intros Hs; apply maintains_ignore;
    unfold CreateAPIKey, UpdateAPIKey, DeleteAPIKey, UpdateAPIKeyLastUsed, RecordAPIKeyAccess, CreateOIDCSession,
      RevokeOIDCSessionsBySubject, RevokeOIDCSessionByTokenHash, DeleteExpiredOIDCSessions, SetPKCEState,
      DeleteExpiredPKCEStates, CreateServiceAccount, saGenHexID, RevokeServiceAccount, UpdateServiceAccountLastUsed,
      RecordUsage, deleteRow, updateRow; maintains_steps; repeat case_match; try (intros; simplify_eq/=; assumption).
  - intros w Hw. destruct (RotateAPIKey oldID k w) as [e w'] eqn:H. apply RotateAPIKey_spec in H as (_ & H). cbn.
    destruct e; [by rewrite H|]. by destruct H as (? & ? & _ & ->).
  - intros s' Hl. unfold sessions in Hl. cbn in Hl. rewrite lookup_insert_ne in Hl; [by apply Hdb|]. intros Heq.
    cbn in Hs. by rewrite Heq, String.eqb_refl in Hs.
  - intros [= _ <-] s Hl. unfold sessions in Hl. cbn in Hl. apply lookup_fmap_Some in Hl as (s' & <- & Hl).
    apply Hdb in Hl. by case_match.
  - intros s Hl. unfold sessions in Hl. cbn in Hl. apply alter_Some in Hl as (s' & Hl & ->). apply Hdb in Hl. by case_decide.
  - intros [= _ <-] s Hl. unfold sessions in Hl. cbn in Hl. apply map_lookup_filter_Some in Hl as (Hl & _). by apply Hdb.
  - intros w Hw. destruct (ConsumePKCEState h0 w) as [[[v ok] e] w'] eqn:H. apply ConsumePKCEState_spec in H as (_ & H & _). cbn.
    by destruct H as [->| ->].
Qed.

Lemma ended_ops h ops w : forallb (fun op => negb (reopens h op)) ops = true -> ended h (w_db w) ->
  ended h (w_db (snd (runAll performCredential ops w))).
Proof.
  revert w. induction ops as [|op ops IH]; intros w Hops Hw; [done|]. cbn [runAll]. rewrite cbind_run.
  apply andb_prop in Hops as [Ho Hops]. apply negb_true_iff in Ho. apply IH; [done|]. by apply ended_op.
Qed.

Lemma ended_refused h db m : ended h db -> exists e, GetOIDCSession m (authTables db) h = inl e.
Proof.
  intros He. unfold GetOIDCSession, fetch. destruct (m_fault m QSession); [eauto|]. cbn [authTables t_sessions].
  rewrite lookup_fmap. destruct (sessions db !! h) as [s|] eqn:Es; [|eauto]. cbn. rewrite (He _ Es). eauto.
Qed.

Lemma RevokeSubject_spec sub w n w' :
  RevokeOIDCSessionsBySubject sub w = (inr n, w') ->
  exists now, w_db w' = with_sessions (w_db w) ((fun s => if activeOf sub s then revokeSession now s else s) <$> sessions (w_db w)).
Proof.
  unfold RevokeOIDCSessionsBySubject. intros H. run_step H. apply nowUTC_spec in Hrun as (Hdb & _).
  apply statement_spec in H as (_ & H). injection H as _ H. rewrite Hdb in H. eauto.
Qed.

(** Logging a subject out everywhere is final: once the revocation of a
    subject's sessions went through, none of the session cookies the subject had is
    accepted again, whatever happens to the credential tables afterwards, unless a
    login mints the same cookie again; the sessions of other subjects are as they
    were. *)
Theorem revoked_subject_stays_out sub n w w1 ops h s m :
  RevokeOIDCSessionsBySubject sub w = (inr n, w1) -> sessions (w_db w) !! h = Some s ->
  forallb (fun op => negb (reopens h op)) ops = true ->
  if (OSSub s =? sub)%string
  then exists e, GetOIDCSession m (authTables (w_db (snd (runAll performCredential ops w1)))) h = inl e
  else GetOIDCSession m (authTables (w_db w1)) h = GetOIDCSession m (authTables (w_db w)) h.
Proof.
  intros H Hl Hops. apply RevokeSubject_spec in H as (now & Hdb).
  assert (Hs : sessions (w_db w1) !! h = Some (if activeOf sub s then revokeSession now s else s))
    by (rewrite Hdb; unfold sessions; cbn; rewrite lookup_fmap; unfold sessions in Hl; by rewrite Hl).
  destruct (String.eqb_spec (OSSub s) sub) as [Hsub|Hsub].
  - apply ended_refused, ended_ops; [done|]. intros s' Hs'. rewrite Hs in Hs'. injection Hs' as <-.
    unfold activeOf. rewrite (proj2 (String.eqb_eq _ _) Hsub). cbn. by destruct (OSRevoked s) eqn:Er.
  - unfold GetOIDCSession. cbn [authTables t_sessions]. rewrite !lookup_fmap, Hs, Hl. unfold activeOf.
    by rewrite (proj2 (String.eqb_neq _ _) Hsub).
Qed.
End Properties.

(** ** Accounting *)

Definition zsum (l : list Z) : Z := fold_right Z.add 0 l.

Lemma zsum_indicator `{EqDecision K} (t0 : K) (x : Z) (T : list K) : NoDup T ->
  zsum (map (fun t => if bool_decide (t0 = t) then x else 0) T) = if bool_decide (t0 ∈ T) then x else 0.
Proof.
  induction 1 as [|t T Ht HT IH]; [done|]. cbn [map zsum fold_right]. change (fold_right Z.add 0 ?l) with (zsum l). rewrite IH.
  destruct (decide (t0 = t)) as [->|Hne].
  - rewrite bool_decide_true, (bool_decide_false (t ∈ T)), bool_decide_true by (done || set_solver). lia.
  - rewrite bool_decide_false by done. repeat case_bool_decide; set_solver || lia.
Qed.

Lemma zsum_zeros {A} (l : list A) : zsum (map (fun _ => 0) l) = 0.
Proof. by induction l. Qed.

Lemma zsum_zip {A} (f g : A -> Z) l : zsum (map (fun a => f a + g a) l) = zsum (map f l) + zsum (map g l).
Proof. unfold zsum. induction l as [|a l IH]; cbn in *; lia. Qed.

(** Summing by group, then over the groups, is summing over the members. *)
Lemma zsum_groups `{EqDecision K} {A} (f : A -> Z) (g : A -> option K) (T : list K) rows :
  NoDup T -> (forall a t, a ∈ rows -> g a = Some t -> t ∈ T) ->
  zsum (map (fun t => zsum (map f (List.filter (fun a => bool_decide (g a = Some t)) rows))) T) =
  zsum (map f (List.filter (fun a => bool_decide (is_Some (g a))) rows)).
Proof.
  intros HT. induction rows as [|a rows IH]; intros Hg; cbn [List.filter map zsum fold_right].
  - apply zsum_zeros.
  - transitivity (zsum (map (fun t => (if bool_decide (g a = Some t) then f a else 0) +
      zsum (map f (List.filter (fun a => bool_decide (g a = Some t)) rows))) T)).
    { f_equal. apply map_ext. intros t. by case_bool_decide. }
    rewrite zsum_zip, IH by set_solver. destruct (g a) as [t0|] eqn:Eg.
    + rewrite (bool_decide_true (is_Some _)) by done. cbn [map zsum fold_right]. f_equal.
      transitivity (zsum (map (fun t => if bool_decide (t0 = t) then f a else 0) T)).
      { f_equal. apply map_ext. intros t. apply (f_equal (fun b : bool => if b then f a else 0)). apply bool_decide_ext.
        split; congruence. }
      rewrite zsum_indicator by done. rewrite bool_decide_true; [done|]. eapply Hg; [|exact Eg]. set_solver.
    + rewrite (bool_decide_false (is_Some _)) by (by intros []). exact (f_equal (fun z => z + _) (zsum_zeros T)).
Qed.

Lemma scanAll_Forall2 {A B} (scan : A -> Error + B) l l' :
  scanAll scan l = inr l' -> Forall2 (fun a b => scan a = inr b) l l'.
Proof.
  revert l'. induction l as [|a l IH]; intros l'; cbn; [intros [= <-]; constructor|].
  destruct (scan a) as [|b] eqn:Es; [done|]. destruct (scanAll scan l) as [|bs] eqn:Er; [done|].
  intros [= <-]. constructor; auto.
Qed.

Lemma totals_spec rows n i o : totals rows = inr (n, i, o) ->
  n = zsum (map (fun _ => 1) rows) /\ i = zsum (map UGInputTokens rows) /\ o = zsum (map UGOutputTokens rows).
Proof.
  unfold totals. destruct (sqlSum 0 _) as [i'|] eqn:Ei; [|done]. destruct (sqlSum 0 (map UGOutputTokens rows)) as [o'|] eqn:Eo; [|done].
  intros [= <- <- <-]. apply sqlSum_spec in Ei, Eo. split; [|done]. clear. unfold zsum. induction rows; cbn in *; lia.
Qed.

Section Usage.
Context `{E : Env}.

(** The rows a summary covers. *)
Definition since_rows (since : Time) (db : Database) : list UsageRow :=
  if IsZero since then usage db
  else List.filter (fun u => negb (String.ltb (fmtTime (UGRequestAt u)) (fmtTime since))) (usage db).

Definition billed (db : Database) (u : UsageRow) : bool := bool_decide (is_Some (tenantOf db u)).

(** Usage is accounted once: the per-tenant summary names each tenant at most
    once, in order, and its requests, input tokens and output tokens add up to those of
    the usage rows of the period whose API key still exists, no row counted twice. *)
Theorem GetUsageSummary_conserves since w l w' :
  GetUsageSummary since w = (inr l, w') ->
  let rows := List.filter (billed (w_db w)) (since_rows since (w_db w)) in
  NoDup (map TU_Tenant l) /\
  zsum (map TU_TotalRequests l) = Z.of_nat (length rows) /\
  zsum (map TU_InputTokens l) = zsum (map UGInputTokens rows) /\
  zsum (map TU_OutputTokens l) = zsum (map UGOutputTokens rows).
Proof.
  unfold GetUsageSummary. intros H. apply query_spec in H as (_ & _ & H). destruct (env_db (w_tick w)); [done|].
  fold (since_rows since (w_db w)) in H. set (rows := since_rows since (w_db w)) in *.
  set (T := go_sort String.ltb _) in H. destruct (scanAll _ T) as [|l'] eqn:Es; [done|]. injection H as ->.
  apply scanAll_Forall2 in Es.
  assert (HT : NoDup T) by (unfold T; rewrite go_sort_perm; apply NoDup_elements).
  assert (Hin : forall u t, u ∈ rows -> tenantOf (w_db w) u = Some t -> t ∈ T).
  { intros u t Hu Ht. unfold T. rewrite go_sort_perm, elem_of_elements, elem_of_list_to_set. apply list_elem_of_omap. eauto. }
  pose proof (fun f => zsum_groups f (tenantOf (w_db w)) T rows HT Hin) as Hsum.
  assert (Hl : Forall2 (fun t tu => let mine := List.filter (fun u => bool_decide (tenantOf (w_db w) u = Some t)) rows in
    TU_Tenant tu = t /\ TU_TotalRequests tu = zsum (map (fun _ => 1) mine) /\
    TU_InputTokens tu = zsum (map UGInputTokens mine) /\ TU_OutputTokens tu = zsum (map UGOutputTokens mine)) T l').
  { eapply Forall2_impl; [exact Es|]. intros t tu. unfold summaryOf.
    destruct (totals _) as [|[[n i] o]] eqn:Et; [done|]. intros [= <-]. by apply totals_spec in Et. }
  assert (Hmap : forall (f : TenantUsage -> Z) (g : UsageRow -> Z),
    Forall2 (fun t tu => f tu = zsum (map g (List.filter (fun u => bool_decide (tenantOf (w_db w) u = Some t)) rows))) T l' ->
    zsum (map f l') = zsum (map g (List.filter (billed (w_db w)) rows))).
  { intros f g Hf. unfold billed. rewrite <- Hsum. f_equal. clear -Hf. induction Hf; cbn; congruence. }
  split; [|split; [|split]].
  - assert (map TU_Tenant l' = T) as ->; [|done]. clear -Hl. induction Hl as [|t tu T l' [H _] _ IH]; cbn; congruence.
  - rewrite (Hmap _ (fun _ => 1)); [|by eapply Forall2_impl; [exact Hl|]; intros ?? (_ & ? & _)].
    generalize (List.filter (billed (w_db w)) rows). clear. intros l. unfold zsum. induction l; cbn in *; lia.
  - apply Hmap. eapply Forall2_impl; [exact Hl|]. by intros ?? (_ & _ & ? & _).
  - apply Hmap. eapply Forall2_impl; [exact Hl|]. by intros ?? (_ & _ & _ & ?).
Qed.
End Usage.

(** ** Witnesses *)

Lemma cred_wf_empty : cred_wf emptyDatabase.
Proof. split; unfold keys, sessions, accounts; cbn; intros *; rewrite ?lookup_empty; done. Qed.

Definition exKeyRow (id hash tenant : string) : APIKeyRow :=
  mkAPIKeyRow id id hash tenant "viewer" 0 true zeroTime zeroTime None None "" None [] "system".

Definition exKeyOps : list CredentialOp :=
  [OpCreateKey (exKeyRow "k1" "h1" "ml"); OpCreateKey (exKeyRow "k2" "h1" "ml"); OpRotateKey "k1" (exKeyRow "k3" "h3" "ml");
   OpUsage "k1" "m" 10 20; OpUsage "k3" "m" 1 2; OpUsage "gone" "m" 5 5].

Definition exKeyWorld : World := snd (runAll (performCredential (E := calmEnv) (C := toyCrypto)) exKeyOps emptyWorld).

(** The second key is refused: its hash is taken. *)
Lemma credentials_integrity_witness : cred_wf (w_db exKeyWorld) /\ keys (w_db exKeyWorld) !! "k2"%string = None.
Proof.
  split; [|vm_compute; reflexivity].
  exact (proj1 (credentials_integrity (E := calmEnv) (C := toyCrypto) exKeyOps emptyWorld cred_wf_empty)).
Defined.

Definition exPKCEWorld : World := snd (SetPKCEState (E := calmEnv) "h" "v" (300 * Second) emptyWorld).

Lemma pkce_single_use_witness :
  fst (ConsumePKCEState (E := calmEnv) "h" exPKCEWorld) = ("v"%string, true, None) /\
  snd (fst (fst (ConsumePKCEState (E := calmEnv) "h"
    (snd (runAll (performCredential (E := calmEnv) (C := toyCrypto)) [OpExpirePKCE]
            (snd (ConsumePKCEState (E := calmEnv) "h" exPKCEWorld))))))) = false.
Proof.
  split; [vm_compute; reflexivity|].
  exact (proj1 (pkce_single_use (E := calmEnv) (C := toyCrypto) "h" "v" exPKCEWorld _ [OpExpirePKCE] _ _ _ _
    ltac:(vm_compute; reflexivity) ltac:(vm_compute; reflexivity) ltac:(vm_compute; reflexivity))).
Defined.

Definition exSession (h sub : string) : OIDCSessionRow :=
  mkOIDCSessionRow h sub "" "idp" "oidc" 0 (8 * 60 * Minute) false None "" None.

Definition exSessionWorld : World :=
  snd (runAll (performCredential (E := calmEnv) (C := toyCrypto))
         [OpCreateSession (exSession "c1" "alice"); OpCreateSession (exSession "c2" "bob")] emptyWorld).

Definition exSessionMoment : Moment := mkMoment (fun _ => None) 1 1 (fmtTime 1) (fmtTime 1) true true.

Lemma revoked_subject_stays_out_witness :
  GetOIDCSession exSessionMoment (authTables (w_db exSessionWorld)) "c1" = inr (sessionView (exSession "c1" "alice")) /\
  exists e, GetOIDCSession exSessionMoment (authTables (w_db (snd (runAll (performCredential (E := calmEnv) (C := toyCrypto))
    [OpExpireSessions] (snd (RevokeOIDCSessionsBySubject (E := calmEnv) "alice" exSessionWorld)))))) "c1" = inl e.
Proof.
  split; [vm_compute; reflexivity|].
  exact (revoked_subject_stays_out (E := calmEnv) (C := toyCrypto) "alice" 1 exSessionWorld _ [OpExpireSessions] "c1"
    (exSession "c1" "alice") exSessionMoment ltac:(vm_compute; reflexivity) ltac:(vm_compute; reflexivity)
    ltac:(vm_compute; reflexivity)).
Defined.

Lemma GetUsageSummary_conserves_witness :
  fst (GetUsageSummary (E := calmEnv) zeroTime exKeyWorld) = inr [mkTenantUsage "ml" 2 11 22] /\
  zsum (map TU_InputTokens [mkTenantUsage "ml" 2 11 22]) = 11.
Proof.
  split; [vm_compute; reflexivity|].
  exact (proj1 (proj2 (proj2 (GetUsageSummary_conserves (E := calmEnv) zeroTime exKeyWorld [mkTenantUsage "ml" 2 11 22] _
    ltac:(vm_compute; reflexivity))))).
Defined.
