(* ===== verification/Identity.v ===== *)
(** * Identity: the handlers that issue and withdraw credentials

    [go/controlplane/server]: the API-key handlers of [server.go] and
    [key_lifecycle.go], the service accounts and the OAuth2 token endpoint of
    [service_accounts.go], the browser login of [auth.go], the logouts of
    [auth_logout.go] and the LDAP login of [auth_ldap.go]. A handler answers with a
    status and an error code, or with a status and a body; the texts that only
    explain an error to a person are left out. The identity provider and the LDAP
    server are parameters. *)
From S2P Require Import Prelude Cluster Registry Permissions Access Platform Timestamp Statements Credentials Text.
Import Row.
Open Scope Z_scope.

(** ** Requests and answers *)

Inductive Answer (A : Type) : Type :=
| Refused (status : Z) (code : string)
| Answered (status : Z) (body : A).
Arguments Refused {A} status code.
Arguments Answered {A} status body.

(** [r.ContentLength == 0], a body that is no JSON of the type, or the value. *)
Inductive Body (A : Type) : Type := NoBody | BadJSON | Decoded (a : A).
Arguments NoBody {A}.
Arguments BadJSON {A}.
Arguments Decoded {A} a.

Definition Unix (t : Time) : Z := t / Second.

Section Handlers.
Context `{E : Env} `{C : Crypto}.

Definition randHex : M string := let* t := next in cret (env_rand t).

Definition shortHash (token : string) : string := String.substring 0 8 (sha256HexOf token).

Definition actorFromRequest (ctx : ReqContext) (r : Request) : string :=
  let sub := default "" (ctxKeyOIDCSub ctx) in
  let email := default "" (ctxKeyOIDCEmail ctx) in
  if negb (sub =? "")%string then ("oidc:" +:+ sub)%string
  else if negb (email =? "")%string then ("oidc:" +:+ email)%string
  else
    let token := bearerToken r in
    if negb (token =? "")%string then
      let base := ("apikey:" +:+ shortHash token)%string in
      match ctxKeyAPIKey ctx with
      | Some key => if negb (K_Tenant key =? "")%string then (base +:+ "@" +:+ K_Tenant key)%string else base
      | None => base
      end
    else "system"%string.

Definition extractRequestTenant (ctx : ReqContext) : string :=
  let oidc := if (default "" (ctxKeyOIDCRole ctx) =? "viewer")%string then default "" (ctxKeyOIDCTenant ctx) else ""%string in
  match ctxKeyAPIKey ctx with
  | Some key => if negb (K_Role key =? "admin")%string then K_Tenant key else oidc
  | None => oidc
  end.

(** ** API keys *)

(** The plaintext and its hash. *)
Definition generateAPIKey : M (string * string) :=
  let* secret := randHex in
  let plaintext := ("sk-" +:+ secret)%string in
  cret (plaintext, sha256HexOf plaintext).

Record createAPIKeyRequest : Type := mkCreateAPIKeyRequest {
  CK_Name : string; CK_Tenant : string; CK_Quota : Z; CK_Role : string }.

(** What the response shows of a key. *)
Record IssuedKey : Type := mkIssuedKey { IK_ID : string; IK_Key : string; IK_Tenant : string; IK_Role : string }.

Definition keyRoles : list string := ["admin"; "viewer"; "inference"].

Definition handleCreateAPIKey (ctx : ReqContext) (r : Request) (body : Body createAPIKeyRequest) : M (Answer IssuedKey) :=
  match body with
  | BadJSON => cret (Refused 400 "bad_request")
  | _ =>
      let body := match body with Decoded b => b | _ => mkCreateAPIKeyRequest "" "" 0 "" end in
      let role := defaultRole (CK_Role body) in
      if negb (bool_decide (role ∈ keyRoles)) then cret (Refused 400 "invalid_role")
      else
        let* (plaintext, keyHash) := generateAPIKey in
        let* hex := randHex in
        let id := ("key-" +:+ hex)%string in
        let key := mkAPIKeyRow id (CK_Name body) keyHash (CK_Tenant body) role (CK_Quota body) true zeroTime zeroTime
                     None None "" None [] (actorFromRequest ctx r) in
        let* err := CreateAPIKey key in
        match err with
        | Some _ => cret (Refused 500 "create_apikey_failed")
        | None =>
            AppendAudit (mkAuditEntry (actorFromRequest ctx r) "apikey.created" id [] zeroTime) ;;;
            cret (Answered 201 (mkIssuedKey id plaintext (CK_Tenant body) role))
        end
  end.

Definition handleListAPIKeys (ctx : ReqContext) : M (Answer (list APIKeyRow)) :=
  let* r := ListAPIKeysByTenant (extractRequestTenant ctx) in
  cret (match r with inl _ => Refused 500 "list_apikeys_failed" | inr ks => Answered 200 ks end).

Definition handleDeleteAPIKey (ctx : ReqContext) (r : Request) (id : string) : M (Answer unit) :=
  let* err := DeleteAPIKey id in
  match err with
  | Some e => cret (if isNotFound e then Refused 404 "not_found" else Refused 500 "delete_apikey_failed")
  | None =>
      AppendAudit (mkAuditEntry (actorFromRequest ctx r) "apikey.deleted" id [] zeroTime) ;;;
      cret (Answered 204 ())
  end.

(** The successor of [old]; [GetAPIKey] has read neither its scopes nor its expiry. *)
Definition rotatedKey (old : APIKeyRow) (newID keyHash actor : string) : APIKeyRow :=
  mkAPIKeyRow newID (AKName old +:+ " (rotated)")%string keyHash (AKTenant old) (AKRole old) (AKQuota old) true zeroTime
    zeroTime (AKExpiresAt old) None (AKID old) None (AKScopes old) actor.

Definition handleRotateAPIKey (ctx : ReqContext) (r : Request) (oldID : string) : M (Answer IssuedKey) :=
  let* res := GetAPIKey oldID in
  match res with
  | inl e => cret (if isNotFound e then Refused 404 "not_found" else Refused 500 "get_apikey_failed")
  | inr old =>
      if negb (AKEnabled old) then cret (Refused 409 "key_already_revoked")
      else
        let* hex := randHex in
        let newID := ("key-" +:+ hex)%string in
        let* (plaintext, keyHash) := generateAPIKey in
        let newKey := rotatedKey old newID keyHash (actorFromRequest ctx r) in
        let* err := RotateAPIKey oldID newKey in
        match err with
        | Some _ => cret (Refused 500 "rotate_failed")
        | None =>
            AppendAudit (mkAuditEntry (actorFromRequest ctx r) "apikey.rotated" oldID [("new_id", newID)]%string zeroTime) ;;;
            cret (Answered 201 (mkIssuedKey newID plaintext (AKTenant newKey) (AKRole newKey)))
        end
  end.

(** [?limit=]: [None] when it is absent or not a positive number. *)
Definition handleListAPIKeyAccess (id : string) (limit : option Z) : M (Answer (list APIKeyAccessEntry)) :=
  let limit := match limit with Some n => if 0 <? n then n else 50 | None => 50 end in
  let* res := GetAPIKey id in
  match res with
  | inl e =>
      if isNotFound e then cret (Refused 404 "not_found")
      else
        let* got := ListAPIKeyAccessLog id limit in
        cret (match got with inl _ => Refused 500 "list_access_log_failed" | inr l => Answered 200 l end)
  | inr _ =>
      let* got := ListAPIKeyAccessLog id limit in
      cret (match got with inl _ => Refused 500 "list_access_log_failed" | inr l => Answered 200 l end)
  end.

(** ** The watcher of expiring keys *)

(** One tick of [startKeyExpiryWatcher]: a warning for each key that expires within 14
    days. *)
Definition warnKey (k : APIKeyRow) : M unit :=
  match AKExpiresAt k with
  | None => cret ()
  | Some t =>
      let expires := (secondText (t / Second)%Z +:+ "Z")%string in
      ignore (AppendAudit (mkAuditEntry "system" "apikey.expiry_warning" (AKID k)
                             [("name", AKName k); ("expires_at", expires)]%string zeroTime))
  end.

Definition keyExpiryTick : M unit :=
  let* now := nowUTC in
  let* res := ListAPIKeysExpiringBefore (now + 14 * Day) in
  match res with
  | inl _ => cret ()
  | inr ks => runAll warnKey ks
  end.

(** ** Service accounts *)

Definition actorForSARequest (r : Request) : string :=
  let tok := bearerToken r in if (tok =? "")%string then "api"%string else ("key:" +:+ shortHash tok)%string.

Record createSARequest : Type := mkCreateSARequest {
  CS_Name : string; CS_TeamID : string; CS_Tenant : string; CS_Description : string; CS_Role : string;
  CS_Scopes : list string; CS_ExpiresAt : string }.

Record IssuedAccount : Type := mkIssuedAccount {
  IA_ID : string; IA_ClientID : string; IA_ClientSecret : string; IA_Role : string; IA_TeamID : string }.

Definition handleCreateServiceAccount (r : Request) (body : Body createSARequest) : M (Answer IssuedAccount) :=
  match body with
  | NoBody | BadJSON => cret (Refused 400 "bad_request")
  | Decoded req =>
      if (CS_Name req =? "")%string then cret (Refused 400 "bad_request")
      else if (CS_TeamID req =? "")%string && (CS_Tenant req =? "")%string then cret (Refused 400 "bad_request")
      else
        let role := if (CS_Role req =? "")%string then "inference"%string else CS_Role req in
        let effectiveTenant := if (CS_TeamID req =? "")%string then CS_Tenant req else CS_TeamID req in
        let expires := if (CS_ExpiresAt req =? "")%string then Some None else Some <$> parseRFC3339 (CS_ExpiresAt req) in
        match expires with
        | None => cret (Refused 400 "bad_request")
        | Some expires =>
            let* res := CreateServiceAccount (mkServiceAccount "" (CS_Name req) effectiveTenant (CS_Description req) role
                          (CS_Scopes req) "" "" false expires None zeroTime zeroTime) in
            match res with
            | inl _ => cret (Refused 500 "create_service_account_failed")
            | inr (secret, sa) =>
                AppendAudit (mkAuditEntry (actorForSARequest r) "service_account.created" (SAID sa) [] zeroTime) ;;;
                cret (Answered 201 (mkIssuedAccount (SAID sa) (SAClientID sa) secret (SARole sa) (SATenant sa)))
            end
        end
  end.

Definition handleListServiceAccounts : M (Answer (list ServiceAccount)) :=
  let* r := ListServiceAccounts "" in
  cret (match r with inl _ => Refused 500 "list_service_accounts_failed" | inr l => Answered 200 l end).

Definition handleRevokeServiceAccount (r : Request) (id : string) : M (Answer unit) :=
  let* err := RevokeServiceAccount id in
  match err with
  | Some e => cret (if isNotFound e then Refused 404 "not_found" else Refused 500 "revoke_service_account_failed")
  | None =>
      AppendAudit (mkAuditEntry (actorForSARequest r) "service_account.revoked" id [] zeroTime) ;;;
      cret (Answered 204 ())
  end.

(** The claims of a token; [saTokenClaims] of [Access] are those the middleware reads. *)
Record SAToken : Type := mkSAToken {
  ST_Sub : string; ST_Iss : string; ST_Aud : string; ST_Iat : Z; ST_Exp : Z; ST_Role : string; ST_Tenant : string;
  ST_Scopes : list string; ST_Type : string }.

Definition claimsOf (t : SAToken) : saTokenClaims := mkSAClaims (ST_Exp t) (ST_Role t) (ST_Tenant t) (ST_Type t).

Context (encodeSA : SAToken -> string).

Record TokenForm : Type := mkTokenForm { TF_GrantType : string; TF_ClientID : string; TF_ClientSecret : string }.

Definition saTTL : Duration := 15 * Minute.

Definition tokenOf (sa : ServiceAccount) (now : Time) : SAToken :=
  mkSAToken (SAID sa) "purser-cp" "purser-api" (Unix now) (Unix (now + saTTL)) (SARole sa) (SATenant sa) (SAScopes sa)
    "service_account".

Definition signSA (secret : string) (t : SAToken) : string :=
  let payload := encodeSA t in (b64encode payload +:+ "." +:+ b64encode (hmacSHA256 secret payload))%string.

(** The access token, and [expires_in]. [None] is a form that cannot be parsed. *)
Definition handleTokenEndpoint (sessionSecret : string) (form : option TokenForm) : M (Answer (string * Z)) :=
  match form with
  | None => cret (Refused 400 "invalid_request")
  | Some form =>
      if negb (TF_GrantType form =? "client_credentials")%string then cret (Refused 400 "unsupported_grant_type")
      else if (sessionSecret =? "")%string then cret (Refused 500 "server_error")
      else
        let* res := GetServiceAccountByClientID (TF_ClientID form) in
        match res with
        | inl _ => cret (Refused 401 "invalid_client")
        | inr sa =>
            if negb (SAEnabled sa) then cret (Refused 401 "invalid_client")
            else if negb (sha256HexOf (TF_ClientSecret form) =? SAClientSecretHash sa)%string
            then cret (Refused 401 "invalid_client")
            else
              let* now := nowUTC in
              let token := signSA sessionSecret (tokenOf sa now) in
              UpdateServiceAccountLastUsed (SAID sa) now ;;;
              AppendAudit (mkAuditEntry ("service_account:" +:+ String.substring 0 8 (SAID sa))%string
                             "service_account.token_issued" (SAID sa) [] zeroTime) ;;;
              cret (Answered 200 (token, 900))
        end
  end.

(** ** The browser login *)

Record OIDCConfig : Type := mkOIDCConfig {
  OC_Issuer : string; OC_ClientID : string; OC_RedirectURI : string; OC_TokenEndpoint : string }.

Definition configured (c : option OIDCConfig) : bool :=
  match c with
  | Some c => negb (OC_RedirectURI c =? "")%string && negb (OC_TokenEndpoint c =? "")%string
  | None => false
  end.

Definition pkceTTL : Duration := 5 * Minute.
Definition pkceMaxEntries : nat := 1000.

(** The in-memory store: state to verifier and expiry. *)
Definition pkceStateStore : Type := gmap string (string * Time).

Definition pkce_set (now now' : Time) (state verifier : string) (s : pkceStateStore) : pkceStateStore :=
  let s := if (pkceMaxEntries <=? size s)%nat then filter (fun kv => (snd (snd kv) <? now) = false) s else s in
  if (pkceMaxEntries <=? size s)%nat then s else <[state := (verifier, now' + pkceTTL)]> s.

Definition pkce_get (now : Time) (state : string) (s : pkceStateStore) : option string * pkceStateStore :=
  match s !! state with
  | None => (None, s)
  | Some (v, exp) => (if exp <? now then None else Some v, delete state s)
  end.

(** The redirect to the identity provider carries the state; [store] is
    [s.pkceStore]. The second result is the store after the request. *)
Definition handleAuthLogin (config : option OIDCConfig) (hasReg : bool) (store : pkceStateStore)
    : M (Answer string * pkceStateStore) :=
  if negb (configured config) then cret (Refused 503 "oidc_not_configured", store)
  else
    let* raw := randHex in
    let verifier := b64encode raw in
    let* state := randHex in
    let remember :=
      (let* now := nowUTC in
       let* now' := nowUTC in
       cret (Answered 302 state, pkce_set now now' state verifier store)) in
    if hasReg then
      let* err := SetPKCEState (sha256HexOf state) verifier pkceTTL in
      match err with Some _ => remember | None => cret (Answered 302 state, store) end
    else remember.

(** The identity provider's answer to the code exchange. *)
Inductive TokenReply : Type :=
| Unreachable | BadReply | TokenResponse (idToken errorCode : string).

Record CallbackQuery : Type := mkCallbackQuery { CB_State : string; CB_Error : string; CB_Code : string }.

(** The new session cookie. [exchange] is the token endpoint for a code and a
    verifier. *)
Definition handleAuthCallback (config : option OIDCConfig) (hasReg : bool) (sessionSecret : string)
    (exchange : string -> string -> TokenReply) (verify : string -> option (string * string))
    (q : CallbackQuery) (store : pkceStateStore) : M (Answer string * pkceStateStore) :=
  match config with
  | None => cret (Refused 503 "oidc_not_configured", store)
  | Some c =>
      if negb (configured config) then cret (Refused 503 "oidc_not_configured", store)
      else if (CB_State q =? "")%string then cret (Refused 400 "missing_state", store)
      else
        let* (codeVerifier, ok, store) :=
          (if hasReg then
             let* (v, ok, _) := ConsumePKCEState (sha256HexOf (CB_State q)) in cret (v, ok, store)
           else
             let* now := nowUTC in
             let (v, store) := pkce_get now (CB_State q) store in
             cret (default ""%string v, bool_decide (is_Some v), store)) in
        if negb ok then cret (Refused 400 "invalid_state", store)
        else if negb (CB_Error q =? "")%string then cret (Refused 400 "idp_error", store)
        else if (CB_Code q =? "")%string then cret (Refused 400 "missing_code", store)
        else
          match exchange (CB_Code q) codeVerifier with
          | Unreachable => cret (Refused 502 "token_exchange_failed", store)
          | BadReply => cret (Refused 502 "token_decode_failed", store)
          | TokenResponse raw errorCode =>
              if negb (errorCode =? "")%string then cret (Refused 401 "token_error", store)
              else if (raw =? "")%string then cret (Refused 502 "no_id_token", store)
              else match verify raw with
                   | None => cret (Refused 401 "invalid_id_token", store)
                   | Some (sub, email) =>
                       let* t := nowUTC in
                       let sessionToken := signSession sessionSecret (Unix t) sub email in
                       (if hasReg then
                          let* created := nowUTC in
                          let* expires := nowUTC in
                          ignore (CreateOIDCSession (mkOIDCSessionRow (sha256HexOf sessionToken) sub email (OC_Issuer c)
                            "oidc" created (expires + sessionTTL * Second) false None "" None))
                        else cret ()) ;;;
                       cret (Answered 302 sessionToken, store)
                   end
          end
  end.

(** ** Logging out *)

Definition handleAuthLogout (hasReg : bool) (cookie : option string) : M unit :=
  match cookie with
  | Some value =>
      if hasReg then
        ignore (RevokeOIDCSessionByTokenHash (sha256HexOf value)) ;;;
        ignore (AppendAudit (mkAuditEntry "session" "session.logout" "" [] zeroTime))
      else cret ()
  | None => cret ()
  end.

(** [None] is a form that cannot be parsed; the answer is the status. *)
Definition handleBackchannelLogout (verifier : option TokenVerifier) (hasReg : bool) (logoutToken : option string) : M Z :=
  match logoutToken with
  | None => cret 400
  | Some rawToken =>
      if (rawToken =? "")%string then cret 400
      else match verifier with
           | None => cret 400
           | Some v =>
               match VerifyToken v rawToken with
               | None => cret 400
               | Some (sub, _) =>
                   (if hasReg then
                      ignore (RevokeOIDCSessionsBySubject sub) ;;;
                      ignore (AppendAudit (mkAuditEntry "idp" "session.backchannel_logout" sub [] zeroTime))
                    else cret ()) ;;;
                   cret 200
               end
           end
  end.

(** ** The LDAP login *)

Record UserInfo : Type := mkUserInfo { UI_DN : string; UI_Email : string; UI_Role : string }.

Inductive LDAPError : Type := ErrInvalidCredentials | ErrLDAPUnavailable | ErrNoGroupMapping | LDAPOther (e : Error).

Definition handleLDAPLogin (authenticate : option (string -> string -> LDAPError + UserInfo)) (hasReg : bool)
    (sessionSecret : string) (form : option (string * string)) : M (Answer string) :=
  match authenticate with
  | None => cret (Refused 404 "not_configured")
  | Some authenticate =>
      match form with
      | None => cret (Refused 400 "bad_request")
      | Some (username, password) =>
          if (username =? "")%string || (password =? "")%string then cret (Refused 400 "bad_request")
          else match authenticate username password with
               | inl ErrInvalidCredentials => cret (Refused 401 "invalid_credentials")
               | inl ErrLDAPUnavailable => cret (Refused 503 "ldap_unavailable")
               | inl ErrNoGroupMapping => cret (Refused 403 "no_group_mapping")
               | inl (LDAPOther _) => cret (Refused 500 "internal_error")
               | inr info =>
                   let* t := nowUTC in
                   let sessionToken := signSession sessionSecret (Unix t) (UI_Email info) (UI_Email info) in
                   (if hasReg then
                      let* created := nowUTC in
                      let* expires := nowUTC in
                      ignore (CreateOIDCSession (mkOIDCSessionRow (sha256HexOf sessionToken) (UI_DN info) (UI_Email info) "ldap"
                        "ldap" created (expires + sessionTTL * Second) false None "" None)) ;;;
                      ignore (AppendAudit (mkAuditEntry ("ldap:" +:+ UI_Email info)%string "session.ldap_login" "" [] zeroTime))
                    else cret ()) ;;;
                   cret (Answered 302 sessionToken)
               end
      end
  end.
End Handlers.

(** ** Rotation *)

Section Rotation.
Context `{E : Env} `{C : Crypto}.

Lemma GetAPIKey_spec id w r w' : GetAPIKey id w = (r, w') ->
  w_db w' = w_db w /\ match r with inr k => exists row, keys (w_db w) !! id = Some row /\ k = scanAPIKey row | inl _ => True end.
Proof.
  unfold GetAPIKey. intros H. apply query_spec in H as (Hdb & _ & H). split; [done|]. destruct r as [|k]; [done|].
  destruct (env_db _); [done|]. unfold getRow in H. destruct (keys (w_db w) !! id) as [row|]; [|done]. injection H as ->. eauto.
Qed.

Lemma generateAPIKey_spec w p h w' : generateAPIKey w = ((p, h), w') -> w_db w' = w_db w /\ h = sha256HexOf p.
Proof. unfold generateAPIKey, randHex, cbind, next, cret. cbn. by intros [= <- <- <-]. Qed.

(** The run of the handler: nothing, or one rotation between a read and an audit row. *)
Lemma handleRotate_run ctx r oldID w a w' :
  handleRotateAPIKey ctx r oldID w = (a, w') ->
  match a with
  | Refused _ _ => w_db w' = w_db w
  | Answered _ new => exists old nk w1 w2 l,
      w_db w1 = w_db w /\ keys (w_db w) !! oldID = Some old /\ AKEnabled old = true /\
      (AKExpiresAt nk = None /\ AKKeyHash nk = sha256HexOf (IK_Key new) /\ AKID nk = IK_ID new /\ AKTenant nk = AKTenant old /\
       AKRole nk = AKRole old /\ IK_Tenant new = AKTenant old /\ IK_Role new = AKRole old) /\
      RotateAPIKey oldID nk w1 = (None, w2) /\ w_db w' = with_audit (w_db w2) l
  end.
Proof.
  intros H. unfold handleRotateAPIKey in H. run_step H. apply GetAPIKey_spec in Hrun as (D0 & Hr).
  destruct r0 as [e|k]; [injection H as <- <-; by destruct (isNotFound e)|]. destruct Hr as (old & Ho & ->).
  destruct (AKEnabled (scanAPIKey old)) eqn:Een; cbn [negb] in H; [|by injection H as <- <-].
  run_step H. injection Hrun as <- <-. run_step H. destruct r0 as [plaintext keyHash].
  apply generateAPIKey_spec in Hrun as (D2 & ->). cbn in D2.
  set (nk := rotatedKey _ _ _ _) in *. run_step H. destruct r0 as [e|].
  { injection H as <- <-. apply RotateAPIKey_spec in Hrun as (_ & Hdb). congruence. }
  run_step H. injection H as <- <-. apply AppendAudit_db in Hrun0 as (l & Dl).
  exists old, nk, w1, w2, l. split; [congruence|]. by repeat split.
Qed.

(** Rotation hands a key over: when the handler answers with a new key, the old
    key, which was enabled, is refused from then on and the new one is accepted with the
    old one's tenant and role, while every other key is accepted or refused as before.
    Any other answer has changed nothing. The new key never expires, whatever the
    expiry of the old one. *)
Theorem handleRotateAPIKey_handover ctx r oldID w a w' :
  cred_wf (w_db w) -> handleRotateAPIKey ctx r oldID w = (a, w') ->
  match a with
  | Refused _ _ => w_db w' = w_db w
  | Answered _ new =>
      cred_wf (w_db w') /\
      exists old, keys (w_db w) !! oldID = Some old /\ AKEnabled old = true /\
        IK_Tenant new = AKTenant old /\ IK_Role new = AKRole old /\
        forall m, m_fault m QKey = None ->
          GetAPIKeyByHash m (authTables (w_db w')) (AKKeyHash old) = inl ErrNotFound /\
          GetAPIKeyByHash m (authTables (w_db w')) (sha256HexOf (IK_Key new)) =
            inr (mkAPIKey (IK_ID new) (sha256HexOf (IK_Key new)) (AKTenant old) (defaultRole (AKRole old)) true None) /\
          forall h, h ≠ AKKeyHash old -> h ≠ sha256HexOf (IK_Key new) ->
            GetAPIKeyByHash m (authTables (w_db w')) h = GetAPIKeyByHash m (authTables (w_db w)) h
  end.
Proof.
  intros Hwf H. pose proof (handleRotate_run _ _ _ _ _ _ H) as Hrun. destruct a as [st code|st new]; [done|].
  destruct Hrun as (old & nk & w1 & w2 & l & D & Ho & Hen & Hnk & Hrot & Dl). rewrite <- D in Hwf, Ho |- *.
  pose proof (maintains_RotateAPIKey oldID nk w1 Hwf) as Hwf'. rewrite Hrot in Hwf'. rewrite Dl.
  split; [by apply cred_wf_audit|]. exists old. destruct Hnk as (E1 & E2 & E3 & E4 & E5 & E6 & E7).
  split; [done|]. split; [done|]. split; [done|]. split; [done|]. intros m Hm.
  pose proof (rotate_handover oldID old nk w1 w2 m Hwf Ho E1 Hm Hrot) as Hg. by rewrite E2, E3, E4, E5 in Hg.
Qed.
End Rotation.

(** ** Tokens of service accounts *)

(** What the encoders are relied on for: base64 and JSON decode what they encode,
    base64 text has no dot, and neither a MAC nor a JSON object is empty. *)
Class TokenLaws (C : Crypto) (encodeSA : SAToken -> string) : Prop := {
  b64_roundtrip : forall s, b64decode (b64encode s) = Some s;
  b64_no_dot : forall s, cutFirst "." (b64encode s) = None;
  b64_nonempty : forall s, s ≠ ""%string -> b64encode s ≠ ""%string;
  hmac_nonempty : forall k d, hmacSHA256 k d ≠ ""%string;
  encodeSA_nonempty : forall t, encodeSA t ≠ ""%string;
  decode_encodeSA : forall t, decodeSA (encodeSA t) = Some (claimsOf t);
  decode_encodeSession : forall c, decodeSession (encodeSession c) = Some c }.

Lemma cutFirst_cutLast c s : cutFirst c s = None -> cutLast c s = None.
Proof.
  induction s as [|a s IH]; [done|]. cbn. destruct (Ascii.eqb a c); [done|]. destruct (cutFirst c s) as [[]|]; [done|].
  intros _. by rewrite IH.
Qed.

Section Tokens.
Context `{E : Env} `{C : Crypto} (encodeSA : SAToken -> string) {L : TokenLaws C encodeSA}.

Lemma parse_signSA secret unix t : secret ≠ ""%string -> ST_Type t = "service_account"%string ->
  parseServiceAccountToken secret unix (signSA encodeSA secret t) = if ST_Exp t <? unix then None else Some (claimsOf t).
Proof.
  intros Hs Ht. unfold parseServiceAccountToken, signSA.
  assert (Hp : b64encode (encodeSA t) ≠ ""%string) by (apply b64_nonempty, encodeSA_nonempty).
  assert (Hm : b64encode (hmacSHA256 secret (encodeSA t)) ≠ ""%string) by (apply b64_nonempty, hmac_nonempty).
  change ("." +:+ ?x)%string with (String "." x). rewrite (proj2 (String.eqb_neq _ _) Hs).
  assert (Htok : ((b64encode (encodeSA t) +:+ String "." (b64encode (hmacSHA256 secret (encodeSA t)))) =? "")%string = false).
  { apply String.eqb_neq. destruct (b64encode (encodeSA t)); [done|]. by rewrite append_String. }
  rewrite Htok. cbn [orb]. rewrite cutFirst_app by apply b64_no_dot.
  rewrite (proj2 (String.eqb_neq _ _) Hp), (proj2 (String.eqb_neq _ _) Hm). cbn [orb].
  rewrite b64_no_dot, !b64_roundtrip, String.eqb_refl. cbn [negb]. rewrite decode_encodeSA. cbn [SA_Type SA_Exp claimsOf].
  by rewrite Ht.
Qed.

Lemma Unix_saTTL now : Unix (now + saTTL) = Unix now + 900.
Proof. unfold Unix, saTTL, Minute, Second. rewrite <- (Z.div_add now 900 (10 ^ 9)) by lia. f_equal. Qed.

(** The account a client id stands for at a time. *)
Definition accountOf (db : Database) (now : Time) (clientID : string) (sa : ServiceAccount) : Prop :=
  exists id, accounts db !! id = Some sa /\ SAClientID sa = clientID /\ SAEnabled sa = true /\
    notExpired now (SAExpiresAt sa) = true.

Lemma elem_rowsOf {A} (tbl : gmap string A) a : a ∈ rowsOf tbl <-> exists id, tbl !! id = Some a.
Proof.
  unfold rowsOf. rewrite list_elem_of_fmap. split.
  - intros ([id b] & -> & H). apply elem_of_map_to_list in H. eauto.
  - intros (id & H). exists (id, a). split; [done|]. by apply elem_of_map_to_list.
Qed.

Lemma GetServiceAccount_spec clientID w r w' :
  GetServiceAccountByClientID clientID w = (r, w') ->
  w_db w' = w_db w /\ exists now, now = env_now (w_tick w) /\
  match r with
  | inr sa => accountOf (w_db w) now clientID sa
  | inl _ => HealthyDB E -> forall sa, ~ accountOf (w_db w) now clientID sa
  end.
Proof.
  unfold GetServiceAccountByClientID. intros H. run_step H. injection Hrun as <- <-. run_step H. injection Hrun as <- <-.
  run_step H. injection Hrun as <- <-. cbn [w_db w_tick] in *. set (keep := fun a => _) in H.
  assert (Hk : forall a, a ∈ List.filter keep (rowsOf (accounts (w_db w))) <-> accountOf (w_db w) (env_now (w_tick w)) clientID a).
  { intros a. rewrite list_elem_of_In, filter_In, <- list_elem_of_In, elem_rowsOf. unfold keep, accountOf.
    rewrite !andb_true_iff, String.eqb_eq. naive_solver. }
  destruct (env_db (S (w_tick w))) eqn:Ed.
  - injection H as <- <-. split; [done|]. eexists. split; [reflexivity|]. intros [Hh]. by rewrite Hh in Ed.
  - injection H as <- <-. split; [done|]. eexists. split; [reflexivity|].
    destruct (List.filter keep _) as [|a l] eqn:Ef.
    + intros _ sa Hsa. apply Hk in Hsa. by apply elem_of_nil in Hsa.
    + apply Hk. left.
Qed.

(** The token endpoint: a token is issued only to the holder of the secret of an
    enabled, unexpired service account, and the middleware accepts that token, with the
    account's role and tenant, for exactly the 900 seconds after it was issued; with a
    database that answers, every such holder gets one. *)
Theorem token_endpoint secret form w a w' :
  handleTokenEndpoint encodeSA secret (Some form) w = (a, w') ->
  match a with
  | Answered status (token, ttl) =>
      status = 200 /\ ttl = 900 /\ exists sa issued,
        accountOf (w_db w) (env_now (w_tick w)) (TF_ClientID form) sa /\
        sha256HexOf (TF_ClientSecret form) = SAClientSecretHash sa /\
        forall unix, parseServiceAccountToken secret unix token =
          if unix <=? Unix issued + ttl then Some (mkSAClaims (Unix issued + ttl) (SARole sa) (SATenant sa) "service_account")
          else None
  | Refused _ _ =>
      HealthyDB E -> TF_GrantType form = "client_credentials"%string -> secret ≠ ""%string -> cred_wf (w_db w) ->
      forall sa, accountOf (w_db w) (env_now (w_tick w)) (TF_ClientID form) sa ->
        sha256HexOf (TF_ClientSecret form) ≠ SAClientSecretHash sa
  end.
Proof.
  unfold handleTokenEndpoint. destruct (String.eqb_spec (TF_GrantType form) "client_credentials") as [Hg|Hg]; cbn [negb].
  2: { intros [= <- <-]. intros _ ?. congruence. }
  destruct (String.eqb_spec secret "") as [Hs|Hs]; [intros [= <- <-]; done|]. intros H. run_step H.
  apply GetServiceAccount_spec in Hrun as (Hdb & now & -> & Hr). destruct r as [e|sa].
  { injection H as <- <-. intros Hh _ _ _ sa Hsa. by destruct (Hr Hh sa). }
  pose proof Hr as (id & Hid & Hc & Hen & Hx). rewrite Hen in H. cbn [negb] in H.
  destruct (String.eqb_spec (sha256HexOf (TF_ClientSecret form)) (SAClientSecretHash sa)) as [Hh|Hh]; cbn [negb] in H.
  - run_step H. run_step H. run_step H. injection H as <- <-. split; [done|]. split; [done|]. exists sa, r.
    split; [done|]. split; [done|]. intros unix. rewrite parse_signSA by done. cbn [tokenOf ST_Exp]. rewrite Unix_saTTL.
    unfold claimsOf. cbn [tokenOf ST_Exp ST_Role ST_Tenant ST_Type]. rewrite Unix_saTTL.
    destruct (Z.ltb_spec (Unix r + 900) unix), (Z.leb_spec unix (Unix r + 900)); first [reflexivity | exfalso; lia].
  - injection H as <- <-. intros _ _ _ Hwf sa' (id' & Hid' & Hc' & _).
    assert (id = id') as <- by (eapply (wf_account_client _ Hwf); [exact Hid|exact Hid'|congruence]). congruence.
Qed.
End Tokens.

(** ** Browser sessions *)

Section Sessions.
Context `{E : Env} `{C : Crypto} (encodeSA : SAToken -> string) {L : TokenLaws C encodeSA}.

(** A request that carries the cookie, at a server that reads these tables. *)
Record presentsCookie (s : Server) (r : Request) (secret cookie : string) (db : Database) : Prop := {
  pc_secret : s_sessionSecret s = secret;
  pc_nonempty : secret ≠ ""%string;
  pc_reg : s_reg s = Some (authTables db);
  pc_cookie : SessionCookie r = Some cookie }.

Lemma verify_signSession secret issued now sub email :
  verifySession secret now (signSession secret issued sub email) =
  if now <=? issued + 8 * 3600 then Some (sub, email) else None.
Proof.
  destruct (session_token secret) as (_ & H). apply H;
    [apply b64_roundtrip|apply decode_encodeSession|apply cutFirst_cutLast, b64_no_dot].
Qed.

Lemma sessionUser_ended s m r secret cookie db :
  presentsCookie s r secret cookie db -> ended (sha256HexOf cookie) db -> sessionUser s m r = None.
Proof.
  intros [Hs Hn Hr Hc] He. unfold sessionUser. rewrite Hs, (proj2 (String.eqb_neq _ _) Hn), Hc, Hr.
  destruct (verifySession _ _ _) as [[]|]; [|done]. by destruct (ended_refused _ _ m He) as [e ->].
Qed.

(** The statement of a session, once it went through. *)
Lemma CreateOIDCSession_spec x w r w' :
  CreateOIDCSession x w = (r, w') ->
  match r with
  | None => sessions (w_db w') !! OSTokenHash x =
      Some (mkOIDCSessionRow (OSTokenHash x) (OSSub x) (OSEmail x) (OSIDPIssuer x) (OSAuthMethod x) (OSCreatedAt x)
              (OSExpiresAt x) false None (OSRefreshTokenEnc x) (OSAccessTokenExpiry x))
  | Some _ => w_db w' = w_db w
  end.
Proof.
  unfold CreateOIDCSession. intros H. apply execRaw_spec in H as (_ & H). destruct r; [done|]. rewrite H.
  unfold sessions. cbn. by rewrite lookup_insert_eq.
Qed.

Lemma ended_audit h e : maintains (ended h) (AppendAudit e).
Proof. maintains_steps. exact Hdb. Qed.

Lemma logout_ended `{!HealthyDB E} cookie w :
  ended (sha256HexOf cookie) (w_db (snd (handleAuthLogout true (Some cookie) w))).
Proof.
  unfold handleAuthLogout. rewrite cbind_run. apply maintains_ignore; [apply ended_audit|].
  destruct (ignore _ w) as [x w1] eqn:H. apply ignore_run in H as (r & H). unfold RevokeOIDCSessionByTokenHash in H.
  run_step H. rewrite (execRaw_healthy _ _ _ _ H) in H. apply execRaw_spec in H as (_ & H). cbn. rewrite H.
  intros s Hs. unfold sessions in Hs. cbn in Hs. apply alter_Some in Hs as (s' & _ & ->). by rewrite decide_True.
Qed.

Lemma backchannel_ended `{!HealthyDB E} sub h row w :
  sessions (w_db w) !! h = Some row -> OSSub row = sub ->
  ended h (w_db (snd ((ignore (RevokeOIDCSessionsBySubject sub) ;;;
    ignore (AppendAudit (mkAuditEntry "idp" "session.backchannel_logout" sub [] zeroTime))) w))).
Proof.
  intros Hl Hsub. rewrite cbind_run. apply maintains_ignore; [apply ended_audit|].
  destruct (ignore _ w) as [x w1] eqn:H. apply ignore_run in H as (r & H).
  assert (Hr : exists n, r = inr n).
  { unfold RevokeOIDCSessionsBySubject in H. run_step H. erewrite statement_healthy in H by reflexivity.
    injection H as <- _. eauto. }
  destruct Hr as (n & ->). apply RevokeSubject_spec in H as (now & Hdb). cbn. rewrite Hdb. intros s Hs.
  unfold sessions in *. cbn in Hs. rewrite lookup_fmap, Hl in Hs. injection Hs as <-.
  unfold activeOf. rewrite (proj2 (String.eqb_eq _ _) Hsub). cbn. by destruct (OSRevoked row) eqn:Er.
Qed.

(** (C19) A browser login is sound: the callback sets a session cookie only for a state
    that a login stored and that has not expired by the clock of this very call, for the
    user whose ID token the provider returned for the code and the stored verifier; the
    cookie is signed for that user with the time of the call. When the database answers,
    the state is then spent, and the session is stored for that user until eight hours
    after the call: the cookie authenticates that user, and nobody else, at every moment
    of the eight hours from its issue at which the stored expiry has not passed. *)
Theorem callback_sound config secret exchange verify q store w cookie store' status w' :
  secret ≠ ""%string ->
  handleAuthCallback config true secret exchange verify q store w = ((Answered status cookie, store'), w') ->
  exists row raw sub email, let issued := Unix (env_now (5 + w_tick w)) in
    pkce (w_db w) !! sha256HexOf (CB_State q) = Some row /\ env_now (2 + w_tick w) <= PKExpiresAt row /\
    exchange (CB_Code q) (PKVerifier row) = TokenResponse raw ""%string /\ verify raw = Some (sub, email) /\
    cookie = signSession secret issued sub email /\
    (HealthyDB E ->
       pkce (w_db w') !! sha256HexOf (CB_State q) = None /\
       exists sess, sessions (w_db w') !! sha256HexOf cookie = Some sess /\ OSSub sess = sub /\ OSEmail sess = email /\
         OSRevoked sess = false /\ OSExpiresAt sess = env_now (7 + w_tick w) + 8 * 3600 * Second /\
         forall s m r, presentsCookie s r secret cookie (w_db w') -> m_fault m QSession = None ->
           sessionUser s m r =
           if (m_sessionUnix m <=? issued + 8 * 3600) && String.ltb (m_sessionText m) (fmtTime (OSExpiresAt sess))
           then Some (sub, email) else None).
Proof.
  intros Hsec H. unfold handleAuthCallback in H. destruct config as [c|]; [|done].
  destruct (configured (Some c)); cbn [negb] in H; [|done]. destruct (CB_State q =? "")%string; [done|].
  run_step H. destruct r as [[v ok] st]. cbv iota in Hrun. run_step Hrun. destruct r as [[v' ok'] e].
  injection Hrun as <- <- <- <-. pose proof (ConsumePKCEState_spec _ _ _ _ _ _ Hrun0) as (_ & _ & Hdel & _).
  destruct ok'; cbn [negb] in H; [|done]. destruct (ConsumePKCEState_time _ _ _ _ _ Hrun0) as (row & Hrow & -> & Hle & Htick).
  destruct (CB_Error q =? "")%string; cbn [negb] in H; [|done]. destruct (CB_Code q =? "")%string; [done|].
  destruct (exchange (CB_Code q) (PKVerifier row)) as [| |raw err] eqn:Ex; [done|done|].
  destruct (String.eqb_spec err "") as [->|]; cbn [negb] in H; [|done]. destruct (raw =? "")%string; [done|].
  destruct (verify raw) as [[sub email]|] eqn:Ev; [|done]. run_step H. injection Hrun as <- <-. rewrite Htick in H.
  run_step H. injection H as <- <- <- <-. exists row, raw, sub, email. cbv zeta.
  do 4 (split; [done|]). split; [done|]. intros Hh. cbv iota in Hrun.
  run_step Hrun. injection Hrun1 as <- <-. run_step Hrun. injection Hrun1 as <- <-. cbn [w_tick w_db w_routes w_trace] in Hrun.
  apply ignore_run in Hrun as (err & Hrun). pose proof (CreateOIDCSession_spec _ _ _ _ Hrun) as Hsess.
  assert (err = None) as -> by exact (execRaw_healthy _ _ _ _ Hrun).
  assert (e = None) as -> by exact (ConsumePKCEState_healthy _ _ _ _ _ _ Hrun0).
  apply execRaw_spec in Hrun as (_ & Hdb). specialize (Hdel eq_refl eq_refl). cbn in Hsess. split.
  - rewrite Hdb. change (pkce (with_sessions ?db _)) with (pkce db). cbn [w_db]. rewrite Hdel. unfold pkce. cbn. apply lookup_delete_eq.
  - eexists. split; [exact Hsess|]. split; [done|]. split; [done|]. split; [done|]. split; [reflexivity|].
    intros s m r' [Hs Hn Hr Hc] Hm. unfold sessionUser.
    rewrite Hs, (proj2 (String.eqb_neq _ _) Hn), Hc, Hr, verify_signSession.
    destruct (m_sessionUnix m <=? _); [|done]. unfold GetOIDCSession, fetch. rewrite Hm.
    cbn [authTables t_sessions]. rewrite lookup_fmap, Hsess. cbn [sessionView fmap option_fmap option_map OS_Revoked OS_ExpiresAt negb andb OSRevoked OSExpiresAt]. by destruct (String.ltb _ _).
Qed.

(** Logging out works: with a database that answers, the cookie a browser
    logged out with, and after a back-channel logout every cookie of the subject the
    provider named, authenticates nobody from then on, whatever happens to the
    credential tables, until a login mints the same cookie again. *)
Theorem logout_final cookie secret ops w :
  HealthyDB E ->
  forallb (fun op => negb (reopens (sha256HexOf cookie) op)) ops = true ->
  let after w := w_db (snd (runAll performCredential ops w)) in
  (forall s m r, presentsCookie s r secret cookie (after (snd (handleAuthLogout true (Some cookie) w))) ->
     sessionUser s m r = None) /\
  (forall v raw sub email row, VerifyToken v raw = Some (sub, email) -> raw ≠ ""%string ->
     sessions (w_db w) !! sha256HexOf cookie = Some row -> OSSub row = sub ->
     let res := handleBackchannelLogout (Some v) true (Some raw) w in
     fst res = 200 /\
     forall s m r, presentsCookie s r secret cookie (after (snd res)) -> sessionUser s m r = None).
Proof.
  intros Hh Hops after. split.
  - intros s m r Hp. eapply sessionUser_ended; [exact Hp|]. apply ended_ops; [done|]. apply logout_ended.
  - intros v raw sub email row Hv Hraw Hl Hsub res. unfold res, handleBackchannelLogout.
    rewrite (proj2 (String.eqb_neq _ _) Hraw), Hv. split; [by rewrite cbind_run|].
    intros s m r Hp. eapply sessionUser_ended; [exact Hp|]. apply ended_ops; [done|]. rewrite cbind_run.
    by eapply backchannel_ended.
Qed.
End Sessions.

(** ** Where the code falls short *)

Section Gaps.
Context `{E : Env} `{C : Crypto}.

Lemma scan_refuses l : l ≠ [] -> exists e, scanAll (scanAPIKeyExt apiKeyColsExt) l = inl e.
Proof. destruct l; [done|]. intros _. cbn. eauto. Qed.

(** No warning is ever written about an expiring key: the listing of expiring keys
    selects fifteen columns and scans fourteen, so it fails as soon as there is one key
    to list, and the watcher gives up. *)
Theorem expiry_watcher_silent w : db_audit (w_db (snd (keyExpiryTick w))) = db_audit (w_db w).
Proof.
  destruct (keyExpiryTick w) as [x w'] eqn:H. unfold keyExpiryTick in H. run_step H. rename r into now, w0 into w1.
  apply nowUTC_spec in Hrun as (D1 & _). run_step H. rename r into res, Hrun into Hl. unfold ListAPIKeysExpiringBefore in Hl.
  run_step Hl. injection Hrun as <- <-. apply query_spec in Hl as (D2 & _ & Hl). cbn [w_db] in D2.
  assert (Hr : (exists e, res = inl e) \/ res = inr []).
  { destruct (env_db _); [left; eauto|]. set (rows := oldestFirst _ _) in Hl. destruct rows as [|k ks]; [by right|].
    left. destruct (scan_refuses (k :: ks)) as [e He]; [done|]. rewrite He in Hl. eauto. }
  destruct Hr as [(e & ->)| ->]; injection H as _ <-; cbn [snd]; congruence.
Qed.

(** After the deletion no key has the hash. *)
Lemma deleted_unknown ctx req id old w w' m :
  cred_wf (w_db w) -> keys (w_db w) !! id = Some old -> handleDeleteAPIKey ctx req id w = (Answered 204 (), w') ->
  exists e, GetAPIKeyByHash m (authTables (w_db w')) (AKKeyHash old) = inl e.
Proof.
  intros Hwf Ho H. unfold handleDeleteAPIKey in H. run_step H. destruct r as [e|]; [injection H as H _; by destruct (isNotFound e)|].
  run_step H. injection H as <-. apply AppendAudit_db in Hrun0 as (l & Dl).
  pose proof (maintains_DeleteAPIKey id w Hwf) as Hwf'. rewrite Hrun in Hwf'. cbn [snd] in Hwf'.
  unfold DeleteAPIKey in Hrun. apply exec_spec in Hrun as (_ & Hk). unfold deleteRow in Hk. rewrite Ho in Hk. injection Hk as Hk.
  unfold GetAPIKeyByHash, fetch. destruct (m_fault m QKey); [eauto|]. rewrite Dl. change (authTables (with_audit ?db _)) with (authTables db).
  destruct (t_keys (authTables (w_db w0)) !! AKKeyHash old) as [v|] eqn:El; [|eauto]. exfalso.
  apply authKeys_Some in El as (i & k & Hi & Hh & _); [|done]. rewrite <- Hk in Hi. unfold keys in Hi. cbn in Hi.
  apply lookup_delete_Some in Hi as (Hne & Hi). apply Hne. eapply (wf_key_hash _ Hwf); [exact Ho|exact Hi|done].
Qed.

(** A deleted key keeps working: with OIDC off, after a successful deletion, or
    after a rotation, a request with the old key as its bearer token reaches every
    handler, whatever the role of the key was. *)
Theorem withdrawn_key_passes (scan : list (routeKey * string)) ctx req id old token s m r w w' :
  cred_wf (w_db w) -> keys (w_db w) !! id = Some old -> AKKeyHash old = sha256HexOf token ->
  (handleDeleteAPIKey ctx req id w = (Answered 204 (), w') \/
   exists new, handleRotateAPIKey ctx req id w = (Answered 201 new, w')) ->
  s_oidcVerifier s = None -> unlimited s m -> s_reg s = Some (authTables (w_db w')) -> m_fault m QKey = None ->
  bearerToken r = token -> token ≠ ""%string -> validateInternalToken s token = false ->
  parseServiceAccountToken (s_sessionSecret s) (m_saUnix m) token = None -> isOptions r = false ->
  serve scan s m r = (Next Background, s_hasAnyAPIKeyCache s).
Proof.
  intros Hwf Ho Hh Hw Hv Hu Hr Hm Hb Ht Hi Hsa Hopt.
  assert (Hgone : exists e, GetAPIKeyByHash m (authTables (w_db w')) (sha256HexOf token) = inl e).
  { rewrite <- Hh. destruct Hw as [Hd|(new & Hrot)]; [by eapply deleted_unknown|].
    apply handleRotate_run in Hrot as (old' & nk & w1 & w2 & l & D & Ho' & _ & Hnk & Hrot & Dl).
    rewrite Ho in Ho'. injection Ho' as <-. rewrite <- D in Hwf, Ho.
    rewrite Dl. exists ErrNotFound. apply (rotate_handover id old nk w1 w2 m Hwf Ho (proj1 Hnk) Hm Hrot). }
  unfold serve, corsMiddleware, authChain, oidcMiddleware. rewrite Hopt, Hv, rateLimit_pass by done.
  unfold rbacMiddleware. cbv zeta. destruct (publicGet r); [done|]. rewrite Hb, Hi, Hsa. cbn [default negb].
  change (negb (default "" (ctxKeyOIDCRole Background) =? "")%string) with false. cbn match.
  rewrite (proj2 (String.eqb_neq _ _) Ht), keyGate_unknown; [done|]. intros db Hdb. rewrite Hr in Hdb. injection Hdb as <-. done.
Qed.
End Gaps.

(** ** Witnesses *)

Lemma toText_no_dot {A} `{Countable A} (a : A) : cutFirst "." (toText a) = None.
Proof. unfold toText. induction (encode a) as [p IH|p IH|]; cbn; [by rewrite IH..|done]. Qed.

Definition plainCrypto : Crypto := {|
  sha256HexOf := fun s => s;
  hmacSHA256 := fun k d => String "m" (k +:+ d);
  b64encode := toText;
  b64decode := ofText;
  encodeSession := fun c => toText (SC_Sub c, SC_Email c, SC_Exp c);
  decodeSession := fun s => (fun '(sub, email, exp) => mkSessionClaims sub email exp) <$> ofText s;
  decodeSA := fun s => (fun '(exp, role, tenant, type) => mkSAClaims exp role tenant type) <$> ofText s |}.

Definition plainSA (t : SAToken) : string := toText (ST_Exp t, ST_Role t, ST_Tenant t, ST_Type t).

Lemma plainLaws : TokenLaws plainCrypto plainSA.
Proof.
  split; intros; unfold plainSA; cbn [b64encode b64decode plainCrypto hmacSHA256 decodeSA encodeSession decodeSession];
    rewrite ?ofText_toText; try done; try apply toText_no_dot; try apply toText_nonempty. by destruct c.
Qed.

Definition exIdRequest : Request := mkRequest "POST" "/api/v1/apikeys/k1/rotate" "Bearer root" "" None "".

Definition exIdWorld : World :=
  snd (runAll (performCredential (E := calmEnv) (C := plainCrypto)) [OpCreateKey (exKeyRow "k1" "sk-old" "ml")] emptyWorld).

Lemma exIdWorld_wf : cred_wf (w_db exIdWorld).
Proof. exact (maintains_runAll cred_wf _ _ maintains_performCredential emptyWorld cred_wf_empty). Qed.

Lemma handleRotateAPIKey_handover_witness :
  let res := handleRotateAPIKey (E := calmEnv) (C := plainCrypto) Background exIdRequest "k1" exIdWorld in
  fst res = Answered 201 (mkIssuedKey "key-0a" "sk-0a" "ml" "viewer") /\ cred_wf (w_db (snd res)).
Proof.
  split; [vm_compute; reflexivity|].
  exact (proj1 (handleRotateAPIKey_handover (E := calmEnv) (C := plainCrypto) Background exIdRequest "k1" exIdWorld
    (Answered 201 (mkIssuedKey "key-0a" "sk-0a" "ml" "viewer")) _ exIdWorld_wf ltac:(vm_compute; reflexivity))).
Defined.

Definition exAccountWorld : World :=
  snd (CreateServiceAccount (E := calmEnv) (C := plainCrypto)
         (mkServiceAccount "" "ci" "ml" "" "" [] "" "" false None None zeroTime zeroTime) emptyWorld).

Definition exForm (secret : string) : TokenForm := mkTokenForm "client_credentials" "sa_0a" secret.

Definition exTokenRun (secret : string) : Answer (string * Z) * World :=
  handleTokenEndpoint (E := calmEnv) (C := plainCrypto) plainSA "key" (Some (exForm secret)) exAccountWorld.

(** The secret is the one the account was given; another one is refused. *)
Lemma token_endpoint_witness :
  fst (exTokenRun "x") = Refused 401 "invalid_client" /\
  match fst (exTokenRun (toText "0a"%string)) with
  | Answered _ (token, _) => exists issued,
      forall unix, unix <= Unix issued + 900 -> parseServiceAccountToken (C := plainCrypto) "key" unix token ≠ None
  | Refused _ _ => False
  end.
Proof.
  split; [vm_compute; reflexivity|].
  pose proof (token_endpoint (E := calmEnv) (C := plainCrypto) plainSA (L := plainLaws) "key" (exForm (toText "0a"%string))
    exAccountWorld (fst (exTokenRun (toText "0a"%string))) (snd (exTokenRun (toText "0a"%string))) (surjective_pairing _)) as H.
  assert (Ha : match fst (exTokenRun (toText "0a"%string)) with Answered _ _ => true | Refused _ _ => false end = true)
    by (vm_compute; reflexivity).
  destruct (fst (exTokenRun (toText "0a"%string))) as [st code|st [token ttl]]; [discriminate|].
  destruct H as (_ & -> & sa & issued & _ & _ & Hp). exists issued. intros unix Hu. rewrite Hp.
  rewrite (proj2 (Z.leb_le _ _)) by lia. discriminate.
Defined.

Definition exConfig : option OIDCConfig := Some (mkOIDCConfig "https://idp" "purser" "https://p/auth/callback" "https://idp/token").

Definition exLoginWorld : World := snd (handleAuthLogin (E := calmEnv) (C := plainCrypto) exConfig true ∅ emptyWorld).

Definition exExchange (code verifier : string) : TokenReply :=
  if (code =? "code")%string && (verifier =? toText "0a"%string)%string then TokenResponse "jwt" "" else TokenResponse "" "invalid_grant".

Definition exVerify (raw : string) : option (string * string) := Some ("alice", "alice@example.com")%string.

Definition exCallback (q : CallbackQuery) (w : World) : (Answer string * pkceStateStore) * World :=
  handleAuthCallback (E := calmEnv) (C := plainCrypto) exConfig true "key" exExchange exVerify q ∅ w.

Definition exQuery : CallbackQuery := mkCallbackQuery "0a" "" "code".

(** The login's own state opens a session; the second use of the state is refused. *)
Lemma callback_sound_witness :
  fst (fst (exCallback exQuery (snd (exCallback exQuery exLoginWorld)))) = Refused 400 "invalid_state" /\
  match fst (fst (exCallback exQuery exLoginWorld)) with
  | Answered _ cookie => exists issued, cookie = signSession (C := plainCrypto) "key" issued "alice" "alice@example.com"
  | Refused _ _ => False
  end.
Proof.
  split; [vm_compute; reflexivity|].
  pose proof (fun cookie st => callback_sound (E := calmEnv) (C := plainCrypto) plainSA (L := plainLaws) exConfig "key" exExchange
    exVerify exQuery ∅ exLoginWorld cookie (snd (fst (exCallback exQuery exLoginWorld))) st
    (snd (exCallback exQuery exLoginWorld)) ltac:(discriminate)) as H.
  assert (Ha : match fst (fst (exCallback exQuery exLoginWorld)) with Answered _ _ => true | Refused _ _ => false end = true)
    by (vm_compute; reflexivity).
  assert (He : exCallback exQuery exLoginWorld = (fst (fst (exCallback exQuery exLoginWorld)),
    snd (fst (exCallback exQuery exLoginWorld)), snd (exCallback exQuery exLoginWorld)))
    by (destruct (exCallback exQuery exLoginWorld) as [[? ?] ?]; reflexivity).
  destruct (fst (fst (exCallback exQuery exLoginWorld))) as [st code|st cookie]; [discriminate|].
  destruct (H cookie st He) as (row & raw & sub & email & _ & _ & _ & Hv & -> & _).
  injection Hv as <- <-. eexists. reflexivity.
Defined.

Lemma logout_final_witness :
  sessions (w_db exSessionWorld) !! "c1"%string ≠ None /\
  forall s m r, presentsCookie s r "key" "c1" (w_db (snd (handleAuthLogout (E := calmEnv) (C := plainCrypto) true (Some "c1"%string) exSessionWorld))) ->
    sessionUser (C := plainCrypto) s m r = None.
Proof.
  split; [vm_compute; discriminate|].
  exact (proj1 (logout_final (E := calmEnv) (C := plainCrypto) "c1" "key" [] exSessionWorld calmEnv_db eq_refl)).
Defined.

Definition exWithdrawn : World := snd (handleDeleteAPIKey (E := calmEnv) (C := plainCrypto) Background exIdRequest "k1" exIdWorld).

Lemma withdrawn_key_passes_witness :
  serve (C := plainCrypto) routePermission (exServer false (authTables (w_db exWithdrawn))) exMoment (exDelete "Bearer sk-old")
  = (Next Background, false).
Proof.
  apply (withdrawn_key_passes (E := calmEnv) (C := plainCrypto) routePermission Background exIdRequest "k1"
    (mkAPIKeyRow "k1" "k1" "sk-old" "ml" "viewer" 0 true 0 0 None None "" None [] "system") "sk-old"
    (exServer false (authTables (w_db exWithdrawn))) exMoment (exDelete "Bearer sk-old") exIdWorld exWithdrawn exIdWorld_wf);
    try (vm_compute; reflexivity); try discriminate.
  - left. vm_compute. reflexivity.
  - split; vm_compute; reflexivity.
Defined.
