(* ===== verification/Approvals.v ===== *)
(** * Approvals: the human gate before a deployment

    [registry/approvals_sqlite.go] and [server/approvals.go]: approvals and votes, the
    quorum, and the handlers that approve and reject. A handler is one sequence of
    statements; the statements of two requests can interleave, so the approval is
    given in its two halves, the vote and the tally. *)
From stdpp Require Import relations pretty.
From S2P Require Import Prelude Cluster Registry Permissions Access Platform Timestamp Statements Credentials Identity.
Import Row.
Open Scope Z_scope.

(** ** The tables *)

Definition review (db : Database) : ReviewTables := et_review (db_enterprise db).
Definition approvals (db : Database) : list DeploymentApproval := rt_approvals (review db).
Definition votes (db : Database) : list ApprovalVote := rt_votes (review db).

Definition with_review (db : Database) (t : ReviewTables) : Database :=
  let e := db_enterprise db in
  with_enterprise db (mkEnterpriseTables (et_credentials e) t (et_inference e) (et_planes e) (et_tenancy e)).

Definition with_approvals (db : Database) (l : list DeploymentApproval) : Database :=
  with_review db (mkReviewTables l (votes db)).

Definition with_votes (db : Database) (l : list ApprovalVote) : Database :=
  with_review db (mkReviewTables (approvals db) l).

Definition selfApprovalDenied : Error := ErrorString "registry: self_approval_denied".
Definition notPending (status : string) : Error := ErrorString ("registry: approval is not pending: " +:+ status).

(** [strings.Contains(err.Error(), "UNIQUE constraint")] *)
Fixpoint isUniqueError (e : Error) : bool :=
  match e with
  | ErrUnique => true
  | Wrap _ e => isUniqueError e
  | Join es => existsb isUniqueError es
  | _ => false
  end.

(** [strings.Contains(err.Error(), "self_approval_denied")] *)
Fixpoint isSelfDenied (e : Error) : bool :=
  match e with
  | ErrorString m => (m =? "registry: self_approval_denied")%string
  | Wrap _ e => isSelfDenied e
  | _ => false
  end.

Section Approvals.
Context `{E : Env}.

(** The identifier is that of the new row: rows are never deleted. *)
Definition RequestDeploymentApproval (a : DeploymentApproval) : M (Error + DeploymentApproval) :=
  let* at_ := (if IsZero (APRequestedAt a) then nowUTC else cret (APRequestedAt a)) in
  let required := if APRequiredApprovals a <=? 0 then 1 else APRequiredApprovals a in
  let expires := match APExpiresAt a with Some t => if IsZero t then None else Some t | None => None end in
  statement (Wrap ("registry: request deployment approval " +:+ APDeploymentID a)) (fun db =>
    let row := mkDeploymentApproval (Z.of_nat (length (approvals db)) + 1) (APDeploymentID a) (APModelID a) (APRequester a)
                 at_ "pending" "" None "" required expires in
    inr (row, with_approvals db (approvals db ++ [row])%list)).

(** The first row of the deployment. *)
Definition approvalOf (deploymentID : string) (db : Database) : option DeploymentApproval :=
  List.find (fun a => APDeploymentID a =? deploymentID)%string (approvals db).

Definition GetDeploymentApproval (deploymentID : string) : M (Error + DeploymentApproval) :=
  query ("registry: get deployment approval " +:+ deploymentID) (fun db =>
    match approvalOf deploymentID db with Some a => inr a | None => inl ErrNotFound end).

Definition ListDeploymentApprovals (status : string) (limit : Z) : M (Error + list DeploymentApproval) :=
  let limit := if limit <=? 0 then 50 else limit in
  let* n := next in
  query "registry: list deployment approvals" (fun db =>
    let mine := if (status =? "")%string then approvals db
                else List.filter (fun a => APStatus a =? status)%string (approvals db) in
    inr (take (Z.to_nat limit) (newestFirst APRequestedAt (env_order _ n mine)))).

Definition decideRow (status reviewer notes : string) (now : Time) (a : DeploymentApproval) : DeploymentApproval :=
  mkDeploymentApproval (APID a) (APDeploymentID a) (APModelID a) (APRequester a) (APRequestedAt a) status reviewer (Some now)
    notes (APRequiredApprovals a) (APExpiresAt a).

(** Every row of the deployment is set, whatever its status. *)
Definition UpdateDeploymentApprovalStatus (deploymentID status reviewer notes : string) : M (option Error) :=
  let* now := nowUTC in
  exec ("registry: update deployment approval " +:+ deploymentID) (fun db =>
    match approvalOf deploymentID db with
    | None => inl ErrNotFound
    | Some _ =>
        inr (with_approvals db
               (map (fun a => if (APDeploymentID a =? deploymentID)%string then decideRow status reviewer notes now a else a)
                  (approvals db)))
    end).

(** The unique index on [(approval_id, reviewer)]. *)
Definition voted (db : Database) (approvalID : Z) (reviewer : string) : bool :=
  existsb (fun v => (VApprovalID v =? approvalID) && (VReviewer v =? reviewer)%string) (votes db).

Definition RecordApprovalVote (deploymentID reviewer vote notes ipAddress : string) : M (option Error) :=
  let* res := GetDeploymentApproval deploymentID in
  match res with
  | inl e => cret (Some e)
  | inr a =>
      if negb (APStatus a =? "pending")%string then cret (Some (notPending (APStatus a)))
      else if (APRequester a =? reviewer)%string then cret (Some selfApprovalDenied)
      else
        let* now := nowUTC in
        let what := ("registry: record approval vote " +:+ deploymentID)%string in
        exec what (fun db =>
          if voted db (APID a) reviewer then inl (Wrap what ErrUnique)
          else inr (with_votes db (votes db ++
                 [mkApprovalVote (Z.of_nat (length (votes db)) + 1) (APID a) reviewer now vote notes ipAddress])%list))
  end.

Definition GetApprovalVotes (approvalID : Z) : M (Error + list ApprovalVote) :=
  query "registry: get approval votes" (fun db =>
    inr (oldestFirst VVotedAt (List.filter (fun v => VApprovalID v =? approvalID) (votes db)))).

Definition approvesIt (approvalID : Z) (v : ApprovalVote) : bool :=
  (VApprovalID v =? approvalID) && (VVote v =? "approved")%string.

(** The approving votes that count; no key in [reviewerKeys] means that all do. *)
Definition counted (db : Database) (approvalID : Z) (reviewerKeys : list string) : list ApprovalVote :=
  let approving := List.filter (approvesIt approvalID) (votes db) in
  match reviewerKeys with
  | [] => approving
  | _ => List.filter (fun v => bool_decide (VReviewer v ∈ reviewerKeys)) approving
  end.

Definition requiredVotes (minApprovers recorded : Z) : Z :=
  let required := if minApprovers <=? 0 then recorded else minApprovers in
  if required <=? 0 then 1 else required.

(** Whether the quorum is reached, the votes and the votes needed. *)
Definition CheckApprovalQuorumFiltered (deploymentID : string) (reviewerKeys : list string) (minApprovers : Z)
    : M (Error + (bool * Z * Z)) :=
  let* res := GetDeploymentApproval deploymentID in
  match res with
  | inl e => cret (inl e)
  | inr a =>
      let required := requiredVotes minApprovers (APRequiredApprovals a) in
      query ("registry: check approval quorum " +:+ deploymentID) (fun db =>
        let count := Z.of_nat (length (counted db (APID a) reviewerKeys)) in
        inr (required <=? count, count, required))
  end.

Definition CheckApprovalQuorum (deploymentID : string) : M (Error + (bool * Z * Z)) :=
  CheckApprovalQuorumFiltered deploymentID [] 0.

(** ** The server *)

Context `{C : Crypto}.

(** [RequireDistinct] is read by nothing. *)
Record QuorumConfig : Type := mkQuorumConfig { Q_MinApprovers : Z; Q_ReviewerKeys : list string; Q_RequireDistinct : bool }.

Definition apiKeyHashFromRequest (r : Request) : string :=
  let tok := bearerToken r in if (tok =? "")%string then ""%string else sha256HexOf tok.

(** The text before the first colon; of a dotted quad the first three parts. *)
Definition extractIPPrefix (remoteAddr : string) : string :=
  let host := match cutFirst ":" remoteAddr with Some (h, _) => h | None => remoteAddr end in
  match Split host "." with
  | [a; b; c; _] => (a +:+ "." +:+ b +:+ "." +:+ c +:+ ".0")%string
  | _ => host
  end.

Definition resolveReviewerKeyHashes (keyIDs : list string) : M (list string) :=
  match keyIDs with
  | [] => cret []
  | _ =>
      let* res := ListAPIKeys in
      cret (match res with
            | inl _ => []
            | inr ks => map AKKeyHash (List.filter (fun k => bool_decide (AKID k ∈ keyIDs)) ks)
            end)
  end.

Definition requestIsAdmin (internalToken : string) (r : Request) : M bool :=
  let tok := bearerToken r in
  if (tok =? "")%string then cret true
  else if negb (internalToken =? "")%string && (tok =? internalToken)%string then cret true
  else
    let* res := ListAPIKeys in
    cret (match res with
          | inl _ => true
          | inr ks =>
              match List.find (fun k => AKKeyHash k =? sha256HexOf tok)%string ks with
              | Some k => (AKRole k =? "admin")%string || (AKRole k =? "")%string
              | None => true
              end
          end).

(** What the handlers need of the server: the licence's verdict, the quorum and the
    internal token. *)
Record Reviewing : Type := mkReviewing {
  rv_licensed : bool; rv_quorum : option QuorumConfig; rv_internalToken : string }.

Definition handleListApprovals (s : Reviewing) (status : string) (limit : option Z) : M (Answer (list DeploymentApproval)) :=
  if negb (rv_licensed s) then cret (Refused 402 "license_required")
  else
    let limit := match limit with Some n => if (0 <? n) && (n <=? 200) then n else 50 | None => 50 end in
    let* res := ListDeploymentApprovals status limit in
    cret (match res with inl _ => Refused 500 "list_approvals_failed" | inr l => Answered 200 l end).

Record quorumStatusInfo : Type := mkQuorumStatusInfo {
  QS_Required : Z; QS_Received : Z; QS_Remaining : Z; QS_Approvers : list (string * Time) }.

(** The votes the view shows: with reviewer keys, the votes of the resolved hashes only. *)
Definition handleGetApproval (s : Reviewing) (depID : string)
    : M (Answer (DeploymentApproval * option quorumStatusInfo)) :=
  if negb (rv_licensed s) then cret (Refused 402 "license_required")
  else
    let* res := GetDeploymentApproval depID in
    match res with
    | inl e => cret (if isNotFound e then Refused 404 "not_found" else Refused 500 "get_approval_failed")
    | inr a =>
        let* vs := GetApprovalVotes (APID a) in
        match vs with
        | inl _ => cret (Answered 200 (a, None))
        | inr vs =>
            let recorded := if APRequiredApprovals a <=? 0 then 1 else APRequiredApprovals a in
            let* (required, keySet) :=
              match rv_quorum s with
              | None => cret (recorded, None)
              | Some q =>
                  let required := if 0 <? Q_MinApprovers q then Q_MinApprovers q else recorded in
                  match Q_ReviewerKeys q with
                  | [] => cret (required, None)
                  | ids => let* hashes := resolveReviewerKeyHashes ids in cret (required, Some hashes)
                  end
              end in
            let shown := List.filter (fun v => (VVote v =? "approved")%string &&
                           match keySet with None => true | Some ks => bool_decide (VReviewer v ∈ ks) end) vs in
            let received := Z.of_nat (length shown) in
            cret (Answered 200 (a, Some (mkQuorumStatusInfo required received (Z.max 0 (required - received))
                                          (map (fun v => (VReviewer v, VVotedAt v)) shown))))
        end
    end.

Record VoteOutcome : Type := mkVoteOutcome { VO_Reached : bool; VO_SoFar : Z; VO_Needed : Z }.

(** The guards both actions share: the licence, the role, the body, a pending and
    unexpired approval. *)
Definition openApproval (s : Reviewing) (r : Request) (depID : string) (body : Body string)
    : M (Answer (DeploymentApproval * string)) :=
  if negb (rv_licensed s) then cret (Refused 402 "license_required")
  else
    let* admin := requestIsAdmin (rv_internalToken s) r in
    if negb admin then cret (Refused 403 "forbidden")
    else match body with
         | BadJSON => cret (Refused 400 "bad_request")
         | _ =>
             let notes := match body with Decoded n => n | _ => ""%string end in
             let* res := GetDeploymentApproval depID in
             match res with
             | inl e => cret (if isNotFound e then Refused 404 "not_found" else Refused 500 "get_approval_failed")
             | inr a =>
                 if negb (APStatus a =? "pending")%string then cret (Refused 409 "not_pending")
                 else match APExpiresAt a with
                      | None => cret (Answered 200 (a, notes))
                      | Some t =>
                          let* now := nowUTC in
                          cret (if t <? now then Refused 410 "approval_expired" else Answered 200 (a, notes))
                      end
             end
         end.

(** The first half: the guards and the vote. *)
Definition approveVote (s : Reviewing) (r : Request) (remoteAddr depID : string) (body : Body string) : M (Answer unit) :=
  let* o := openApproval s r depID body in
  match o with
  | Refused st code => cret (Refused st code)
  | Answered _ (_, notes) =>
      let* err := RecordApprovalVote depID (apiKeyHashFromRequest r) "approved" notes (extractIPPrefix remoteAddr) in
      cret (match err with
            | Some e =>
                if isSelfDenied e then Refused 409 "self_approval_denied"
                else if isUniqueError e then Refused 409 "already_voted"
                else Refused 500 "vote_failed"
            | None => Answered 200 ()
            end)
  end.

(** The second half: the tally, and the decision once the quorum is reached. *)
Definition approveTally (s : Reviewing) (r : Request) (depID : string) : M (Answer VoteOutcome) :=
  let* keyHashes := (match rv_quorum s with Some q => resolveReviewerKeyHashes (Q_ReviewerKeys q) | None => cret [] end) in
  let minApprovers := match rv_quorum s with Some q => Q_MinApprovers q | None => 0 end in
  let* res := CheckApprovalQuorumFiltered depID keyHashes minApprovers in
  match res with
  | inl _ => cret (Refused 500 "quorum_check_failed")
  | inr (reached, approved, required) =>
      if reached then
        let notes := ("quorum reached (" +:+ pretty approved +:+ "/" +:+ pretty required +:+ ")")%string in
        let* err := UpdateDeploymentApprovalStatus depID "approved" (apiKeyHashFromRequest r) notes in
        match err with
        | Some _ => cret (Refused 500 "update_approval_failed")
        | None =>
            AppendAudit (mkAuditEntry (apiKeyHashFromRequest r) "deployment.approval.approved" depID [] zeroTime) ;;;
            cret (Answered 200 (mkVoteOutcome true approved required))
        end
      else cret (Answered 200 (mkVoteOutcome false approved required))
  end.

Definition handleApproveDeployment (s : Reviewing) (r : Request) (remoteAddr depID : string) (body : Body string)
    : M (Answer VoteOutcome) :=
  let* o := approveVote s r remoteAddr depID body in
  match o with
  | Refused st code => cret (Refused st code)
  | Answered _ _ => approveTally s r depID
  end.

(** The answer is the approval after the veto. *)
Definition handleRejectDeployment (s : Reviewing) (r : Request) (remoteAddr depID : string) (body : Body string)
    : M (Answer DeploymentApproval) :=
  let reviewer := apiKeyHashFromRequest r in
  let* o := openApproval s r depID body in
  match o with
  | Refused st code => cret (Refused st code)
  | Answered _ (a, notes) =>
      if (APRequester a =? reviewer)%string then cret (Refused 409 "self_approval_denied")
      else
        ignore (RecordApprovalVote depID reviewer "rejected" notes (extractIPPrefix remoteAddr)) ;;;
        let* err := UpdateDeploymentApprovalStatus depID "rejected" reviewer notes in
        match err with
        | Some _ => cret (Refused 500 "update_approval_failed")
        | None =>
            AppendAudit (mkAuditEntry reviewer "deployment.approval.rejected" depID [] zeroTime) ;;;
            let* res := GetDeploymentApproval depID in
            cret (Answered 200 (match res with
                                | inr updated => updated
                                | inl _ => mkDeploymentApproval (APID a) (APDeploymentID a) (APModelID a) (APRequester a)
                                             (APRequestedAt a) "rejected" (APReviewer a) (APReviewedAt a) (APNotes a)
                                             (APRequiredApprovals a) (APExpiresAt a)
                                end))
        end
  end.
End Approvals.

(** ** The life of an approval

    What a request may do to the tables: nothing, open an approval, add a vote to a
    pending approval of somebody else, or decide a pending approval, for an approval
    only with the quorum. [min] is the server's [MinApprovers]. *)

Definition pendingOf (depID : string) (db : Database) (a : DeploymentApproval) : Prop :=
  approvalOf depID db = Some a /\ APStatus a = "pending"%string.

Definition approving (db : Database) (a : DeploymentApproval) : list ApprovalVote :=
  List.filter (approvesIt (APID a)) (votes db).

Definition hasQuorum (min : Z) (db : Database) (a : DeploymentApproval) : Prop :=
  requiredVotes min (APRequiredApprovals a) <= Z.of_nat (length (approving db a)).

Definition decideIn (depID status reviewer notes : string) (now : Time) (l : list DeploymentApproval) : list DeploymentApproval :=
  map (fun a => if (APDeploymentID a =? depID)%string then decideRow status reviewer notes now a else a) l.

Inductive review_change (min : Z) (db db' : Database) : Prop :=
| change_none : review db' = review db -> review_change min db db'
| change_request a :
    (forall b, b ∈ approvals db -> APDeploymentID b ≠ APDeploymentID a) -> APStatus a = "pending"%string ->
    APID a = Z.of_nat (length (approvals db)) + 1 -> 1 <= APRequiredApprovals a ->
    review db' = mkReviewTables (approvals db ++ [a]) (votes db) -> review_change min db db'
| change_vote depID a v :
    pendingOf depID db a -> VApprovalID v = APID a -> VReviewer v ≠ APRequester a ->
    voted db (APID a) (VReviewer v) = false ->
    review db' = mkReviewTables (approvals db) (votes db ++ [v]) -> review_change min db db'
| change_decide depID a status reviewer notes now :
    pendingOf depID db a -> reviewer ≠ APRequester a -> status = "rejected"%string \/ status = "approved"%string /\ hasQuorum min db a ->
    review db' = mkReviewTables (decideIn depID status reviewer notes now (approvals db)) (votes db) ->
    review_change min db db'.

Definition minApprovers (s : Reviewing) : Z := match rv_quorum s with Some q => Q_MinApprovers q | None => 0 end.

Section Changes.
Context `{E : Env} `{C : Crypto}.

Lemma GetDeploymentApproval_spec depID w r w' :
  GetDeploymentApproval depID w = (r, w') ->
  w_db w' = w_db w /\ outside_same w w' /\ match r with inr a => approvalOf depID (w_db w) = Some a | inl _ => True end.
Proof.
  unfold GetDeploymentApproval. intros H. apply query_spec in H as (Hdb & Ho & H). split; [done|]. split; [done|].
  destruct r as [|a]; [done|]. destruct (env_db _); [done|]. destruct (approvalOf depID (w_db w)); [|done]. by injection H as ->.
Qed.

Lemma ListAPIKeys_spec w r w' : ListAPIKeys w = (r, w') -> w_db w' = w_db w /\ outside_same w w'.
Proof. unfold ListAPIKeys. intros H. by apply query_spec in H as (Hdb & Ho & _). Qed.

Lemma requestIsAdmin_spec tok r w b w' : requestIsAdmin tok r w = (b, w') -> w_db w' = w_db w /\ outside_same w w'.
Proof.
  unfold requestIsAdmin. destruct (_ =? _)%string; [intros [= _ <-]; done|]. destruct (_ && _); [intros [= _ <-]; done|].
  intros H. run_step H. apply ListAPIKeys_spec in Hrun as (D & O). by injection H as _ <-.
Qed.

Lemma resolve_spec ids w l w' : resolveReviewerKeyHashes ids w = (l, w') -> w_db w' = w_db w /\ outside_same w w'.
Proof.
  unfold resolveReviewerKeyHashes. destruct ids; [intros [= _ <-]; done|]. intros H. run_step H.
  apply ListAPIKeys_spec in Hrun as (D & O). by injection H as _ <-.
Qed.

Lemma openApproval_spec s r depID body w a w' :
  openApproval s r depID body w = (a, w') ->
  w_db w' = w_db w /\ outside_same w w' /\
  match a with Answered _ (a, _) => pendingOf depID (w_db w) a | Refused _ _ => True end.
Proof.
  unfold openApproval. destruct (negb (rv_licensed s)); [intros [= <- <-]; done|]. intros H. run_step H.
  apply requestIsAdmin_spec in Hrun as (D1 & O1). destruct (negb r0); [injection H as <- <-; done|].
  assert (H' : a = Refused 400 "bad_request" /\ w' = w0 \/ exists notes, (let* res := GetDeploymentApproval depID in
    match res with
    | inl e => cret (if isNotFound e then Refused 404 "not_found" else Refused 500 "get_approval_failed")
    | inr a =>
        if negb (APStatus a =? "pending")%string then cret (Refused 409 "not_pending")
        else match APExpiresAt a with
             | None => cret (Answered 200 (a, notes))
             | Some t =>
                 let* now := nowUTC in
                 cret (if t <? now then Refused 410 "approval_expired" else Answered 200 (a, notes))
             end
    end) w0 = (a, w')).
  { destruct body; [right; by exists ""%string|left; by injection H as <- <-|right; by exists a0]. }
  clear H. destruct H' as [(-> & ->)|(notes & H)]; [done|]. run_step H. apply GetDeploymentApproval_spec in Hrun as (D2 & O2 & Hr).
  assert (O : outside_same w w1) by (by etrans). rewrite D1 in D2, Hr. destruct r1 as [e|x]; [injection H as <- <-; by destruct (isNotFound e)|].
  destruct (String.eqb_spec (APStatus x) "pending") as [Hp|]; cbn [negb] in H; [|injection H as <- <-; done].
  destruct (APExpiresAt x) as [t|]; [|injection H as <- <-; done]. run_step H. apply nowUTC_spec in Hrun as (D3 & O3).
  injection H as <- <-. split; [congruence|]. split; [by etrans|]. by destruct (t <? r1).
Qed.

Lemma RecordVote_spec depID reviewer vote notes ip w e w' :
  RecordApprovalVote depID reviewer vote notes ip w = (e, w') ->
  outside_same w w' /\
  match e with
  | Some _ => w_db w' = w_db w
  | None => exists a v, pendingOf depID (w_db w) a /\ reviewer ≠ APRequester a /\ voted (w_db w) (APID a) reviewer = false /\
      VApprovalID v = APID a /\ VReviewer v = reviewer /\ VVote v = vote /\
      w_db w' = with_votes (w_db w) (votes (w_db w) ++ [v])
  end.
Proof.
  unfold RecordApprovalVote. intros H. run_step H. apply GetDeploymentApproval_spec in Hrun as (D1 & O1 & Hr).
  destruct r as [e1|a]; [injection H as <- <-; done|].
  destruct (String.eqb_spec (APStatus a) "pending") as [Hp|]; cbn [negb] in H; [|injection H as <- <-; done].
  destruct (String.eqb_spec (APRequester a) reviewer) as [|Hne]; [injection H as <- <-; done|].
  run_step H. apply nowUTC_spec in Hrun as (D2 & O2). apply exec_spec in H as (O3 & H).
  assert (D : w_db w1 = w_db w) by congruence. rewrite D in H. split; [by do 2 (etrans; [eassumption|])|].
  destruct e as [e|]; [by destruct H|]. destruct (voted (w_db w) (APID a) reviewer) eqn:Ev; [done|].
  injection H as <-. exists a. eexists. by repeat split.
Qed.

Lemma UpdateStatus_spec depID status reviewer notes w e w' :
  UpdateDeploymentApprovalStatus depID status reviewer notes w = (e, w') ->
  outside_same w w' /\
  match e with
  | Some _ => w_db w' = w_db w
  | None => exists now, w_db w' = with_approvals (w_db w) (decideIn depID status reviewer notes now (approvals (w_db w)))
  end.
Proof.
  unfold UpdateDeploymentApprovalStatus. intros H. run_step H. apply nowUTC_spec in Hrun as (D1 & O1).
  apply exec_spec in H as (O2 & H). rewrite D1 in H. split; [by etrans|]. destruct e as [e|]; [by destruct H as [-> _]|].
  destruct (approvalOf depID (w_db w)); [|done]. injection H as <-. eexists. reflexivity.
Qed.

Lemma Check_spec depID ids min w r w' :
  CheckApprovalQuorumFiltered depID ids min w = (r, w') ->
  w_db w' = w_db w /\ outside_same w w' /\
  match r with
  | inl _ => True
  | inr (reached, count, required) => exists a, approvalOf depID (w_db w) = Some a /\
      required = requiredVotes min (APRequiredApprovals a) /\ count = Z.of_nat (length (counted (w_db w) (APID a) ids)) /\
      reached = (required <=? count)
  end.
Proof.
  unfold CheckApprovalQuorumFiltered. intros H. run_step H. apply GetDeploymentApproval_spec in Hrun as (D1 & O1 & Hr).
  destruct r0 as [e|a]; [by injection H as <- <-|]. apply query_spec in H as (D2 & O2 & H). rewrite D1 in H.
  split; [congruence|]. split; [by etrans|]. destruct (env_db _); [by subst r|]. subst r. eauto.
Qed.

Lemma counted_le db id ids : (length (counted db id ids) <= length (List.filter (approvesIt id) (votes db)))%nat.
Proof. unfold counted. destruct ids; [done|]. apply List.filter_length_le. Qed.

(** A request touches the approvals only by such changes, and neither the agents, nor
    the gateway, nor the deployments. *)
Definition reviews (min : Z) (w w' : World) : Prop :=
  outside_same w w' /\ db_deployments (w_db w') = db_deployments (w_db w) /\
  rtc (review_change min) (w_db w) (w_db w').

#[export] Instance reviews_pre min : PreOrder (reviews min).
Proof.
  split; [intros w; repeat split; apply rtc_refl|]. intros w1 w2 w3 (O1 & D1 & R1) (O2 & D2 & R2).
  split; [by etrans|]. split; [congruence|]. by etrans.
Qed.

Lemma reviews_same min w w' : w_db w' = w_db w -> outside_same w w' -> reviews min w w'.
Proof. intros D O. split; [done|]. rewrite D. split; [done|apply rtc_refl]. Qed.

Lemma reviews_once min w w' :
  outside_same w w' -> db_deployments (w_db w') = db_deployments (w_db w) -> review_change min (w_db w) (w_db w') -> reviews min w w'.
Proof. intros O D R. split; [done|]. split; [done|]. by apply rtc_once. Qed.

Lemma reviews_audit min e w r w' : AppendAudit e w = (r, w') -> reviews min w w'.
Proof.
  intros H. pose proof (AppendAudit_spec _ _ _ _ H) as (O & _ & _ & _ & D). apply AppendAudit_db in H as (l & Dl).
  apply reviews_once; [done|done|]. apply change_none. by rewrite Dl.
Qed.

Lemma reviews_vote min depID reviewer vote notes ip w e w' :
  RecordApprovalVote depID reviewer vote notes ip w = (e, w') -> reviews min w w'.
Proof.
  intros H. apply RecordVote_spec in H as (O & H). destruct e; [by apply reviews_same|].
  destruct H as (a & v & Hp & Hne & Hv & E1 & E2 & _ & D). apply reviews_once; [done|by rewrite D|].
  eapply change_vote; [exact Hp|done|congruence|congruence|by rewrite D].
Qed.

Lemma approveVote_spec min s r addr depID body w a w' :
  approveVote s r addr depID body w = (a, w') ->
  reviews min w w' /\
  match a with
  | Answered _ _ => exists x, pendingOf depID (w_db w') x /\ apiKeyHashFromRequest r ≠ APRequester x
  | Refused _ _ => True
  end.
Proof.
  unfold approveVote. intros H. run_step H. apply openApproval_spec in Hrun as (D1 & O1 & _).
  destruct r0 as [st code|st [x notes]]; [injection H as <- <-; split; [by apply reviews_same|done]|].
  run_step H. injection H as <- <-. pose proof (reviews_vote min _ _ _ _ _ _ _ _ Hrun) as Hr.
  split; [etrans; [by apply reviews_same|done]|]. apply RecordVote_spec in Hrun as (_ & Hv).
  destruct r0 as [e|]; [by repeat case_match|]. destruct Hv as (a & v & Hp & Hne & _ & _ & _ & _ & D). exists a.
  unfold pendingOf, approvalOf in *. by rewrite D.
Qed.

Lemma approveTally_spec s r depID x w a w' :
  pendingOf depID (w_db w) x -> apiKeyHashFromRequest r ≠ APRequester x ->
  approveTally s r depID w = (a, w') -> reviews (minApprovers s) w w'.
Proof.
  intros [Hx Hp] Hne H. unfold approveTally in H. run_step H.
  assert (Hk : w_db w0 = w_db w /\ outside_same w w0)
    by (destruct (rv_quorum s); [by eapply resolve_spec|by injection Hrun as _ <-]).
  destruct Hk as (D1 & O1). fold (minApprovers s) in H. run_step H. apply Check_spec in Hrun0 as (D2 & O2 & Hc).
  assert (O : outside_same w w1) by (by etrans). assert (D : w_db w1 = w_db w) by congruence.
  destruct r1 as [e|[[reached count] required]]; [injection H as <- <-; by apply reviews_same|].
  rewrite D1 in Hc. destruct Hc as (a' & Ha & -> & -> & ->). rewrite Hx in Ha. injection Ha as <-.
  destruct (Z.leb_spec (requiredVotes (minApprovers s) (APRequiredApprovals x)) (Z.of_nat (length (counted (w_db w) (APID x) r0)))) as [Hq|];
    [|injection H as <- <-; by apply reviews_same].
  run_step H. apply UpdateStatus_spec in Hrun0 as (O3 & Hu). rewrite D in Hu.
  destruct r1 as [e|]; [injection H as <- <-; apply reviews_same; [congruence|by etrans]|].
  run_step H. injection H as <- <-. destruct Hu as (now & Hu). etrans; [|by eapply reviews_audit].
  apply reviews_once; [by etrans|by rewrite Hu|]. eapply change_decide; [split; [exact Hx|exact Hp]|exact Hne|right|by rewrite Hu].
  split; [done|]. unfold hasQuorum, approving. pose proof (counted_le (w_db w) (APID x) r0). lia.
Qed.

Lemma approve_reviews s r addr depID body w a w' :
  handleApproveDeployment s r addr depID body w = (a, w') -> reviews (minApprovers s) w w'.
Proof.
  unfold handleApproveDeployment. intros H. run_step H. apply (approveVote_spec (minApprovers s)) in Hrun as (R & Hx).
  destruct r0; [by injection H as <- <-|]. destruct Hx as (x & Hp & Hne). etrans; [exact R|]. by eapply approveTally_spec.
Qed.

Lemma reject_reviews s r addr depID body w a w' :
  handleRejectDeployment s r addr depID body w = (a, w') -> reviews (minApprovers s) w w'.
Proof.
  unfold handleRejectDeployment. intros H. run_step H. apply openApproval_spec in Hrun as (D1 & O1 & Hp).
  destruct r0 as [st code|st [x notes]]; [injection H as <- <-; by apply reviews_same|].
  destruct (String.eqb_spec (APRequester x) (apiKeyHashFromRequest r)) as [|Hne]; [injection H as <- <-; by apply reviews_same|].
  run_step H. apply ignore_run in Hrun as (e & Hv). pose proof (reviews_vote (minApprovers s) _ _ _ _ _ _ _ _ Hv) as R1.
  assert (Hp' : pendingOf depID (w_db w1) x).
  { apply RecordVote_spec in Hv as (_ & Hv). rewrite <- D1 in Hp. destruct e; [by rewrite Hv|].
    destruct Hv as (a' & v & _ & _ & _ & _ & _ & _ & D). unfold pendingOf, approvalOf in *. by rewrite D. }
  etrans; [by apply (reviews_same _ _ w0)|]. etrans; [exact R1|]. clear R1 Hv. run_step H.
  apply UpdateStatus_spec in Hrun as (O3 & Hu). destruct r1 as [e1|]; [injection H as <- <-; by apply reviews_same|].
  destruct Hu as (now & Hu). run_step H. apply (reviews_audit (minApprovers s)) in Hrun. run_step H. injection H as <- <-.
  apply GetDeploymentApproval_spec in Hrun0 as (D4 & O4 & _). etrans; [|by apply reviews_same; [exact D4|exact O4]].
  etrans; [|exact Hrun]. apply reviews_once; [done|by rewrite Hu|].
  apply (change_decide _ _ _ depID x "rejected" (apiKeyHashFromRequest r) notes now); [exact Hp'|congruence|by left|by rewrite Hu].
Qed.

Lemma request_reviews min a w r w' :
  (forall b, b ∈ approvals (w_db w) -> APDeploymentID b ≠ APDeploymentID a) ->
  RequestDeploymentApproval a w = (r, w') -> reviews min w w'.
Proof.
  unfold RequestDeploymentApproval. intros Hf H. run_step H.
  assert (Hn : w_db w0 = w_db w /\ outside_same w w0)
    by (destruct (IsZero (APRequestedAt a)); [by apply nowUTC_spec in Hrun|by injection Hrun as <- <-]).
  destruct Hn as (D & O). apply statement_spec in H as (O' & H). rewrite D in H. assert (O'' : outside_same w w') by (by etrans).
  destruct r as [e|row]; [apply reviews_same; [|done]; destruct H as [-> _]; done|].
  injection H as E1 E2. apply reviews_once; [done|by rewrite <- E2|].
  eapply (change_request _ _ _ row); [by subst row|by subst row|by subst row|subst row; cbn; case_match; lia|].
  rewrite <- E2. by subst row.
Qed.
End Changes.

(** ** What the tables promise *)

Record review_wf (min : Z) (db : Database) : Prop := {
  rw_ids : forall i a, approvals db !! i = Some a -> APID a = Z.of_nat i + 1;
  rw_deps : NoDup (map APDeploymentID (approvals db));
  rw_votes : NoDup (map (fun v => (VApprovalID v, VReviewer v)) (votes db));
  rw_cast : forall v, v ∈ votes db -> VApprovalID v <= Z.of_nat (length (approvals db));
  rw_self : forall v a, v ∈ votes db -> a ∈ approvals db -> VApprovalID v = APID a -> VReviewer v ≠ APRequester a;
  rw_quorum : forall a, a ∈ approvals db -> APStatus a = "approved"%string -> hasQuorum min db a }.

Lemma approvalOf_Some depID db a : approvalOf depID db = Some a -> a ∈ approvals db /\ APDeploymentID a = depID.
Proof. intros H. apply List.find_some in H as [Hin He]. split; [by apply list_elem_of_In|by apply String.eqb_eq]. Qed.

(** The only approval of a deployment. *)
Lemma approval_unique (l : list DeploymentApproval) a b :
  NoDup (map APDeploymentID l) -> a ∈ l -> b ∈ l -> APDeploymentID a = APDeploymentID b -> a = b.
Proof.
  intros Hn Ha Hb He. apply list_elem_of_lookup in Ha as (i & Ha), Hb as (j & Hb).
  assert (i = j) as ->; [|congruence]. eapply (NoDup_lookup _ i j (APDeploymentID a) Hn).
  - change (map ?f l) with (f <$> l). by rewrite list_lookup_fmap, Ha.
  - change (map ?f l) with (f <$> l). rewrite list_lookup_fmap, Hb. cbn. congruence.
Qed.

Lemma elem_decideIn depID status reviewer notes now l a :
  a ∈ decideIn depID status reviewer notes now l ->
  exists b, b ∈ l /\ APID a = APID b /\ APDeploymentID a = APDeploymentID b /\ APRequester a = APRequester b /\
    APRequiredApprovals a = APRequiredApprovals b /\
    if (APDeploymentID b =? depID)%string then APStatus a = status else a = b.
Proof.
  intros H. apply list_elem_of_fmap in H as (b & -> & Hb). exists b. split; [done|].
  by destruct (APDeploymentID b =? depID)%string eqn:E; cbn; rewrite ?E.
Qed.

Lemma hasQuorum_more min db db' a a' :
  hasQuorum min db a -> APID a' = APID a -> APRequiredApprovals a' = APRequiredApprovals a ->
  (exists l, votes db' = (votes db ++ l)%list) -> hasQuorum min db' a'.
Proof.
  unfold hasQuorum, approving. intros H -> -> (l & ->). rewrite List.filter_app, length_app. lia.
Qed.

Lemma not_voted db id reviewer v : voted db id reviewer = false -> v ∈ votes db -> VApprovalID v = id -> VReviewer v ≠ reviewer.
Proof.
  intros H Hv Hid Hr. apply not_true_iff_false in H. apply H. apply existsb_exists. exists v.
  split; [by apply list_elem_of_In|]. by rewrite Hid, Hr, Z.eqb_refl, String.eqb_refl.
Qed.

Lemma review_tables db' l vs : review db' = mkReviewTables l vs -> approvals db' = l /\ votes db' = vs.
Proof. unfold approvals, votes. by intros ->. Qed.

(** A decision or an identical table keeps the votes. *)
Lemma hasQuorum_same min db db' a a' :
  hasQuorum min db a -> APID a' = APID a -> APRequiredApprovals a' = APRequiredApprovals a ->
  votes db' = votes db -> hasQuorum min db' a'.
Proof. intros H1 H2 H3 H4. eapply hasQuorum_more; [exact H1|done|done|]. exists []. by rewrite H4, app_nil_r. Qed.

Lemma wf_same min db db' : review_wf min db -> review db' = review db -> review_wf min db'.
Proof.
  intros [Hids Hdeps Hvotes Hcast Hself Hq] Hr.
  assert (E1 : approvals db' = approvals db) by (unfold approvals; by rewrite Hr).
  assert (E2 : votes db' = votes db) by (unfold votes; by rewrite Hr).
  split; unfold hasQuorum, approving in *; rewrite ?E1, ?E2; assumption.
Qed.

Lemma wf_request min db db' a :
  review_wf min db -> (forall b, b ∈ approvals db -> APDeploymentID b ≠ APDeploymentID a) -> APStatus a = "pending"%string ->
  APID a = Z.of_nat (length (approvals db)) + 1 -> review db' = mkReviewTables (approvals db ++ [a]) (votes db) ->
  review_wf min db'.
Proof.
  intros [Hids Hdeps Hvotes Hcast Hself Hq] Hfresh Hst Hid Hr. apply review_tables in Hr as [E1 E2].
  split; rewrite ?E1, ?E2; try done.
  - intros i b Hb. apply lookup_app_Some in Hb as [Hb|[Hi Hb]]; [by apply Hids|].
    apply list_lookup_singleton_Some in Hb as [Hi0 <-]. rewrite Hid. lia.
  - rewrite List.map_app. apply NoDup_app. split; [done|]. split; [|apply NoDup_singleton].
    intros x Hx Hx'. apply list_elem_of_singleton in Hx' as ->. apply list_elem_of_fmap in Hx as (b & Hb & Hin).
    by apply (Hfresh b).
  - intros v Hv. rewrite length_app. specialize (Hcast v Hv). cbn. lia.
  - intros v b Hv Hb Hvb. apply elem_of_app in Hb as [Hb|Hb]; [by eapply Hself|]. apply list_elem_of_singleton in Hb as ->.
    specialize (Hcast v Hv). lia.
  - intros b Hb Hbs. apply elem_of_app in Hb as [Hb|Hb]; [|apply list_elem_of_singleton in Hb as ->; congruence].
    eapply hasQuorum_same; [by apply Hq|done..].
Qed.

Lemma wf_vote min db db' depID a v :
  review_wf min db -> pendingOf depID db a -> VApprovalID v = APID a -> VReviewer v ≠ APRequester a ->
  voted db (APID a) (VReviewer v) = false -> review db' = mkReviewTables (approvals db) (votes db ++ [v]) ->
  review_wf min db'.
Proof.
  intros [Hids Hdeps Hvotes Hcast Hself Hq] [Hof _] Hva Hne Hnv Hr. apply review_tables in Hr as [E1 E2].
  apply approvalOf_Some in Hof as [Hin Hdep]. split; rewrite ?E1, ?E2; try done.
  - rewrite List.map_app. apply NoDup_app. split; [done|]. split; [|apply NoDup_singleton].
    intros x Hx Hx'. apply list_elem_of_singleton in Hx' as ->. apply list_elem_of_fmap in Hx as (u & [= Hu1 Hu2] & Hu).
    by apply (not_voted _ _ _ u Hnv Hu); congruence.
  - intros u Hu. apply elem_of_app in Hu as [Hu|Hu]; [by apply Hcast|]. apply list_elem_of_singleton in Hu as ->.
    rewrite Hva. apply list_elem_of_lookup in Hin as (i & Hi). rewrite (Hids _ _ Hi). apply lookup_lt_Some in Hi. lia.
  - intros u b Hu Hb Hub. apply elem_of_app in Hu as [Hu|Hu]; [by eapply Hself|]. apply list_elem_of_singleton in Hu as ->.
    assert (a = b) as <-; [|done]. apply list_elem_of_lookup in Hin as (i & Hi), Hb as (j & Hj).
    pose proof (Hids _ _ Hi). pose proof (Hids _ _ Hj). assert (i = j) as -> by lia. congruence.
  - intros b Hb Hbs. eapply hasQuorum_more; [by apply Hq|done..|]. by exists [v].
Qed.

Lemma wf_decide min db db' depID a status reviewer notes now :
  review_wf min db -> pendingOf depID db a -> status = "rejected"%string \/ status = "approved"%string /\ hasQuorum min db a ->
  review db' = mkReviewTables (decideIn depID status reviewer notes now (approvals db)) (votes db) -> review_wf min db'.
Proof.
  intros [Hids Hdeps Hvotes Hcast Hself Hq] [Hof _] Hst Hr. apply review_tables in Hr as [E1 E2].
  apply approvalOf_Some in Hof as [Hin Hdep]. split; rewrite ?E1, ?E2; try done.
  - intros i b Hb. unfold decideIn in Hb. change (map ?f ?l) with (f <$> l) in Hb.
    apply list_lookup_fmap_Some in Hb as (c & -> & Hc). case_match; cbn; by apply Hids.
  - unfold decideIn. rewrite List.map_map. erewrite List.map_ext; [exact Hdeps|]. intros b. by case_match.
  - unfold decideIn. by rewrite length_map.
  - intros v b Hv Hb Hvb. apply elem_decideIn in Hb as (c & Hc & Eid & _ & Erq & _). rewrite Erq. apply (Hself v c); congruence.
  - intros b Hb Hbs. apply elem_decideIn in Hb as (c & Hc & Eid & Edep & _ & Ereq & Hif).
    destruct (String.eqb_spec (APDeploymentID c) depID) as [Hcd|]; [|subst c; eapply hasQuorum_same; [by apply Hq|done..]].
    assert (c = a) as -> by (eapply approval_unique; [exact Hdeps|done|done|congruence]).
    destruct Hst as [->|[_ Hquo]]; [congruence|]. by eapply hasQuorum_same.
Qed.

Lemma review_wf_change min db db' : review_wf min db -> review_change min db db' -> review_wf min db'.
Proof.
  intros Hwf [Hr|a Hfresh Hst Hid Hreq Hr|depID a v Hp Hva Hne Hnv Hr|depID a st rev notes now Hp Hne Hst Hr];
    eauto using wf_same, wf_request, wf_vote, wf_decide.
Qed.

Lemma review_wf_changes min db db' : rtc (review_change min) db db' -> review_wf min db -> review_wf min db'.
Proof. induction 1; eauto using review_wf_change. Qed.

Lemma approvalOf_request depID db db' a b :
  approvalOf depID db = Some a -> approvals db' = (approvals db ++ [b])%list -> approvalOf depID db' = Some a.
Proof.
  unfold approvalOf. intros H ->. induction (approvals db) as [|x l IH]; [done|]. cbn in *.
  destruct (APDeploymentID x =? depID)%string; auto.
Qed.

Lemma approvalOf_decide depID dep' status reviewer notes now db db' :
  dep' ≠ depID -> approvals db' = decideIn dep' status reviewer notes now (approvals db) ->
  approvalOf depID db' = approvalOf depID db.
Proof.
  unfold approvalOf. intros Hne ->. induction (approvals db) as [|x l IH]; [done|]. cbn.
  destruct (String.eqb_spec (APDeploymentID x) dep') as [Hx|Hx]; cbn.
  - rewrite (proj2 (String.eqb_neq (APDeploymentID x) depID)) by congruence. exact IH.
  - destruct (APDeploymentID x =? depID)%string; [done|exact IH].
Qed.

Lemma approvalOf_decided depID status reviewer notes now db db' a :
  approvalOf depID db = Some a -> approvals db' = decideIn depID status reviewer notes now (approvals db) ->
  approvalOf depID db' = Some (decideRow status reviewer notes now a).
Proof.
  unfold approvalOf. intros Ha ->. induction (approvals db) as [|x l IH]; [done|]. cbn in *.
  destruct (APDeploymentID x =? depID)%string eqn:Ex; cbn; rewrite Ex; [by injection Ha as ->|by apply IH].
Qed.

(** A decided approval is never touched again. *)
Lemma decided_change min db db' depID a :
  approvalOf depID db = Some a -> APStatus a ≠ "pending"%string -> review_change min db db' -> approvalOf depID db' = Some a.
Proof.
  intros Ha Hs [Hr|b Hfresh Hst Hid Hreq Hr|dep' b v Hp Hva Hne Hnv Hr|dep' b st rev notes now Hp Hne Hst Hr].
  - unfold approvalOf, approvals in *. by rewrite Hr.
  - apply review_tables in Hr as [E1 _]. by eapply approvalOf_request.
  - apply review_tables in Hr as [E1 _]. unfold approvalOf in *. by rewrite E1.
  - apply review_tables in Hr as [E1 _]. destruct Hp as [Hof Hpend].
    destruct (decide (dep' = depID)) as [->|Hd]; [congruence|]. by rewrite (approvalOf_decide depID dep' _ _ _ _ _ _ Hd E1).
Qed.

Lemma decided_changes min db db' depID a :
  rtc (review_change min) db db' -> approvalOf depID db = Some a -> APStatus a ≠ "pending"%string ->
  approvalOf depID db' = Some a.
Proof. induction 1; eauto using decided_change. Qed.

(** ** Requests, one after the other *)

Section Requests.
Context `{E : Env} `{C : Crypto}.

(** The requests a server serves, in any order: a deploy request that opens an approval
    under an identifier of its own, an approval, a rejection, and anything that leaves
    the two tables alone. *)
Inductive review_step (s : Reviewing) : World -> World -> Prop :=
| step_request a w r w' :
    (forall b, b ∈ approvals (w_db w) -> APDeploymentID b ≠ APDeploymentID a) ->
    RequestDeploymentApproval a w = (r, w') -> review_step s w w'
| step_approve r addr depID body w a w' :
    handleApproveDeployment s r addr depID body w = (a, w') -> review_step s w w'
| step_reject r addr depID body w a w' :
    handleRejectDeployment s r addr depID body w = (a, w') -> review_step s w w'
| step_other w w' : review (w_db w') = review (w_db w) -> review_step s w w'.

(** Every request is a sequence of changes of the life of an approval. *)
Lemma step_changes s w w' : review_step s w w' -> rtc (review_change (minApprovers s)) (w_db w) (w_db w').
Proof.
  intros [a w0 r w0' Hf H|r addr depID body w0 a w0' H|r addr depID body w0 a w0' H|w0 w0' H].
  - by apply (request_reviews (minApprovers s)) in H as (_ & _ & ?).
  - by apply approve_reviews in H as (_ & _ & ?).
  - by apply reject_reviews in H as (_ & _ & ?).
  - apply rtc_once. by apply change_none.
Qed.

Lemma steps_changes s w w' : rtc (review_step s) w w' -> rtc (review_change (minApprovers s)) (w_db w) (w_db w').
Proof. induction 1; [apply rtc_refl|]. etrans; [by eapply step_changes|done]. Qed.

(** (C12) No deployment is approved without its quorum: whatever requests are served,
    in whatever order and with whatever database faults, an approval whose status is
    approved has the approving votes of as many different reviewers as it requires
    (the server's minimum, or else its own number), and the requester is none of them. *)
Theorem approval_needs_quorum s w w' a :
  review_wf (minApprovers s) (w_db w) -> rtc (review_step s) w w' ->
  a ∈ approvals (w_db w') -> APStatus a = "approved"%string ->
  exists reviewers : list string,
    NoDup reviewers /\ APRequester a ∉ reviewers /\
    requiredVotes (minApprovers s) (APRequiredApprovals a) <= Z.of_nat (length reviewers) /\
    forall x, x ∈ reviewers -> exists v, v ∈ votes (w_db w') /\ VApprovalID v = APID a /\ VReviewer v = x /\
      VVote v = "approved"%string.
Proof.
  intros Hwf Hsteps Ha Hs. apply steps_changes in Hsteps. pose proof (review_wf_changes _ _ _ Hsteps Hwf) as [_ _ Hvotes _ Hself Hq].
  exists (map VReviewer (approving (w_db w') a)).
  assert (Hin : forall v, v ∈ approving (w_db w') a <-> v ∈ votes (w_db w') /\ VApprovalID v = APID a /\ VVote v = "approved"%string).
  { intros v. unfold approving, approvesIt. rewrite list_elem_of_In, filter_In, <- list_elem_of_In, andb_true_iff, Z.eqb_eq, String.eqb_eq. naive_solver. }
  split; [|split; [|split]].
  - apply NoDup_fmap_2_strong.
    + intros u v Hu Hv Huv. apply Hin in Hu as (Hu & E1 & _), Hv as (Hv & E2 & _).
      apply list_elem_of_lookup in Hu as (i & Hi), Hv as (j & Hj). assert (i = j) as ->; [|congruence].
      eapply (NoDup_lookup _ i j (APID a, VReviewer u) Hvotes); change (map ?f ?l) with (f <$> l);
        rewrite list_lookup_fmap; [rewrite Hi|rewrite Hj]; cbn; congruence.
    + apply NoDup_ListNoDup, List.NoDup_filter, NoDup_ListNoDup. by eapply NoDup_fmap_1.
  - intros Hr. apply list_elem_of_fmap in Hr as (v & Hv & Hr). apply Hin in Hr as (Hr & Hid & _). by apply (Hself v a Hr Ha Hid).
  - rewrite length_map. by apply Hq.
  - intros x Hx. apply list_elem_of_fmap in Hx as (v & -> & Hv). apply Hin in Hv as (? & ? & ?). by exists v.
Qed.

(** A decision is final, and it is all that happens: once an approval is approved
    or rejected, no later request changes it; and approving or rejecting never starts
    an engine, changes a route or a deployment. *)
Theorem decision_final s w w' depID a :
  approvalOf depID (w_db w) = Some a -> APStatus a ≠ "pending"%string -> rtc (review_step s) w w' ->
  approvalOf depID (w_db w') = Some a /\
  forall r addr dep body,
    let approve := snd (handleApproveDeployment s r addr dep body w') in
    let reject := snd (handleRejectDeployment s r addr dep body w') in
    outside_same w' approve /\ db_deployments (w_db approve) = db_deployments (w_db w') /\
    outside_same w' reject /\ db_deployments (w_db reject) = db_deployments (w_db w').
Proof.
  intros Ha Hs Hsteps. split; [eapply decided_changes; [by apply steps_changes|done|done]|].
  intros r addr dep body. destruct (handleApproveDeployment s r addr dep body w') as [x w1] eqn:H1.
  destruct (handleRejectDeployment s r addr dep body w') as [y w2] eqn:H2. apply approve_reviews in H1 as (? & ? & _).
  apply reject_reviews in H2 as (? & ? & _). done.
Qed.
End Requests.

(** ** Progress *)

Section Progress.
Context `{E : Env} `{C : Crypto} {H : HealthyDB E}.

(** Whether the key table lets the bearer of the request decide. *)
Definition mayReview (internalToken : string) (r : Request) (db : Database) : bool :=
  let tok := bearerToken r in
  if (tok =? "")%string then true
  else if negb (internalToken =? "")%string && (tok =? internalToken)%string then true
  else match List.find (fun k => AKKeyHash k =? sha256HexOf tok)%string (map scanAPIKey (byKey AKID (keys db))) with
       | Some k => (AKRole k =? "admin")%string || (AKRole k =? "")%string
       | None => true
       end.

Lemma requestIsAdmin_healthy tok r w b w' : requestIsAdmin tok r w = (b, w') -> b = mayReview tok r (w_db w).
Proof.
  unfold requestIsAdmin, mayReview. destruct (_ =? _)%string; [by intros [= <- _]|]. destruct (_ && _); [by intros [= <- _]|].
  intros Hr. run_step Hr. injection Hr as <- <-. unfold ListAPIKeys in Hrun. by rewrite (query_healthy _ _ _ _ _ _ Hrun).
Qed.

Lemma GetDeploymentApproval_healthy depID a w r w' :
  approvalOf depID (w_db w) = Some a -> GetDeploymentApproval depID w = (r, w') -> r = inr a.
Proof. intros Ha Hr. unfold GetDeploymentApproval in Hr. rewrite (query_healthy _ _ _ _ _ _ Hr), Ha. done. Qed.

Lemma openApproval_healthy s r depID body a w x w' :
  rv_licensed s = true -> mayReview (rv_internalToken s) r (w_db w) = true -> body ≠ BadJSON ->
  pendingOf depID (w_db w) a -> APExpiresAt a = None ->
  openApproval s r depID body w = (x, w') -> exists notes, x = Answered 200 (a, notes).
Proof.
  intros Hl Hm Hb [Ha Hp] He Ho. unfold openApproval in Ho. rewrite Hl in Ho. cbn [negb] in Ho. run_step Ho.
  pose proof (requestIsAdmin_healthy _ _ _ _ _ Hrun) as ->. apply requestIsAdmin_spec in Hrun as (D & _). rewrite Hm in Ho.
  cbn [negb] in Ho. destruct body as [| |n]; [| |]; [|done|];
    (cbv iota zeta in Ho; run_step Ho; rewrite <- D in Ha; pose proof (GetDeploymentApproval_healthy _ _ _ _ _ Ha Hrun) as ->;
     rewrite Hp, He in Ho; injection Ho as <- _; eauto).
Qed.

Lemma RecordVote_healthy depID reviewer vote notes ip a w e w' :
  pendingOf depID (w_db w) a -> APRequester a ≠ reviewer -> voted (w_db w) (APID a) reviewer = false ->
  RecordApprovalVote depID reviewer vote notes ip w = (e, w') -> e = None.
Proof.
  intros [Ha Hp] Hne Hv Hr. unfold RecordApprovalVote in Hr. run_step Hr.
  pose proof (GetDeploymentApproval_healthy _ _ _ _ _ Ha Hrun) as ->. apply GetDeploymentApproval_spec in Hrun as (D1 & _ & _).
  rewrite Hp, (proj2 (String.eqb_neq _ _) Hne) in Hr. change ((negb ("pending" =? "pending")%string)) with false in Hr.
  cbv iota in Hr. run_step Hr. apply nowUTC_spec in Hrun as (D2 & _). assert (D : w_db w1 = w_db w) by congruence.
  eapply exec_healthy in Hr as [-> _]; [done|exact H|]. rewrite D, Hv. reflexivity.
Qed.

Lemma tally_healthy s r depID a w x w' :
  rv_quorum s = None -> approvalOf depID (w_db w) = Some a -> approveTally s r depID w = (x, w') ->
  let n := Z.of_nat (length (approving (w_db w) a)) in
  let needed := requiredVotes 0 (APRequiredApprovals a) in
  x = Answered 200 (mkVoteOutcome (needed <=? n) n needed) /\
  if needed <=? n
  then exists notes now l, w_db w' = with_audit (with_approvals (w_db w)
         (decideIn depID "approved" (apiKeyHashFromRequest r) notes now (approvals (w_db w)))) l
  else w_db w' = w_db w.
Proof.
  intros Hq Ha Ht n needed. unfold approveTally in Ht. rewrite Hq in Ht. run_step Ht. injection Hrun as <- <-. run_step Ht.
  pose proof (Check_spec _ _ _ _ _ _ Hrun) as (D1 & _ & Hc).
  assert (Hr0 : r0 = inr (needed <=? n, n, needed)).
  { unfold CheckApprovalQuorumFiltered in Hrun. run_step Hrun. pose proof (GetDeploymentApproval_healthy _ _ _ _ _ Ha Hrun0) as ->.
    apply GetDeploymentApproval_spec in Hrun0 as (D2 & _). rewrite (query_healthy _ _ _ _ _ _ Hrun), D2. reflexivity. }
  subst r0. destruct (needed <=? n) eqn:En; [|by injection Ht as <- <-]. run_step Ht.
  assert (r0 = None) as ->.
  { unfold UpdateDeploymentApprovalStatus in Hrun0. run_step Hrun0. apply nowUTC_spec in Hrun1 as (D3 & _).
    eapply exec_healthy in Hrun0 as [-> _]; [done|exact H|]. rewrite D3, D1, Ha. reflexivity. }
  apply UpdateStatus_spec in Hrun0 as (_ & now & Hu). run_step Ht. injection Ht as <- <-.
  apply AppendAudit_db in Hrun0 as (l & Dl). split; [done|]. rewrite Dl, Hu, D1. eauto.
Qed.

(** Every vote counts and the last one decides: with a database that answers, the
    approval of an admin key that has not voted yet and is not the requester's is
    recorded, the answer counts it, and the approval becomes approved exactly when the
    votes so far, this one included, are as many as it requires. *)
Theorem approve_counts s r addr depID body a w :
  rv_licensed s = true -> rv_quorum s = None -> mayReview (rv_internalToken s) r (w_db w) = true -> body ≠ BadJSON ->
  pendingOf depID (w_db w) a -> APExpiresAt a = None -> APRequester a ≠ apiKeyHashFromRequest r ->
  voted (w_db w) (APID a) (apiKeyHashFromRequest r) = false ->
  let res := handleApproveDeployment s r addr depID body w in
  let n := Z.of_nat (length (approving (w_db w) a)) + 1 in
  let needed := requiredVotes 0 (APRequiredApprovals a) in
  fst res = Answered 200 (mkVoteOutcome (needed <=? n) n needed) /\
  exists a', approvalOf depID (w_db (snd res)) = Some a' /\ APID a' = APID a /\
    APStatus a' = if needed <=? n then "approved"%string else "pending"%string.
Proof.
  intros Hl Hq Hm Hb Hp He Hne Hv res n needed. destruct (handleApproveDeployment s r addr depID body w) as [x w'] eqn:Hrun.
  subst res. cbn [fst snd]. unfold handleApproveDeployment in Hrun. run_step Hrun. unfold approveVote in Hrun0. run_step Hrun0.
  destruct (openApproval_healthy _ _ _ _ _ _ _ _ Hl Hm Hb Hp He Hrun1) as (notes & ->).
  apply openApproval_spec in Hrun1 as (D1 & _ & _). run_step Hrun0. rewrite <- D1 in Hp, Hv.
  assert (r1 = None) as -> by (eapply RecordVote_healthy; [exact Hp|exact Hne|exact Hv|exact Hrun1]).
  apply RecordVote_spec in Hrun1 as (_ & a' & v & Hp' & _ & _ & E1 & _ & E3 & D2). injection Hrun0 as <- <-.
  destruct Hp as [Ha Hp]. destruct Hp' as [Ha' _]. rewrite Ha in Ha'. injection Ha' as <-.
  assert (Hof : approvalOf depID (w_db w2) = Some a) by (rewrite D2; exact Ha).
  assert (Hn : Z.of_nat (length (approving (w_db w2) a)) = n).
  { unfold n, approving. rewrite D2, D1. change (votes (with_votes ?db ?l)) with l. rewrite List.filter_app, length_app.
    cbn [List.filter]. unfold approvesIt at 2. rewrite E1, E3, Z.eqb_refl. cbn. lia. }
  destruct (tally_healthy _ _ _ _ _ _ _ Hq Hof Hrun) as (Hx & Hdb). rewrite Hn in Hx, Hdb. fold needed in Hx, Hdb. split; [exact Hx|].
  destruct (needed <=? n).
  - destruct Hdb as (notes' & now & l & Hdb). exists (decideRow "approved" (apiKeyHashFromRequest r) notes' now a). split; [|done].
    rewrite Hdb. apply (approvalOf_decided _ _ _ _ _ _ _ _ Hof). reflexivity.
  - exists a. by rewrite Hdb.
Qed.
End Progress.

(** ** Where the gate gives way *)

Section Gaps.
Context `{E : Env} `{C : Crypto}.

(** A bearer token that is no key at all may review. *)
Lemma stranger_reviews internalToken r db :
  (forall id k, keys db !! id = Some k -> AKKeyHash k ≠ sha256HexOf (bearerToken r)) -> mayReview internalToken r db = true.
Proof.
  intros Hk. unfold mayReview. destruct (_ =? _)%string; [done|]. destruct (_ && _); [done|].
  destruct (List.find _ _) as [k|] eqn:Ef; [|done]. apply List.find_some in Ef as [Hin He]. exfalso.
  apply list_elem_of_In, list_elem_of_fmap in Hin as (row & -> & Hin). unfold byKey in Hin. rewrite go_sort_perm in Hin.
  apply list_elem_of_fmap in Hin as ([id row'] & -> & Hin). apply elem_of_map_to_list in Hin. apply String.eqb_eq in He.
  by apply (Hk id row' Hin).
Qed.

(** When none of the configured reviewer keys exists any more, everybody's vote counts. *)
Lemma lost_reviewers_count_all `{!HealthyDB E} ids w db approvalID :
  (forall id k, keys (w_db w) !! id = Some k -> AKID k ∉ ids) ->
  fst (resolveReviewerKeyHashes ids w) = [] /\
  counted db approvalID (fst (resolveReviewerKeyHashes ids w)) = List.filter (approvesIt approvalID) (votes db).
Proof.
  intros Hk. assert (Hr : fst (resolveReviewerKeyHashes ids w) = []); [|by rewrite Hr].
  unfold resolveReviewerKeyHashes. destruct ids as [|i ids]; [done|]. rewrite cbind_run.
  destruct (ListAPIKeys w) as [r w'] eqn:H. unfold ListAPIKeys in H. rewrite (query_healthy _ _ _ _ _ _ H). cbn [fst snd cret].
  destruct (List.filter _ _) as [|k l] eqn:Ef; [done|]. exfalso.
  assert (Hin : k ∈ (k :: l)) by left. rewrite <- Ef, list_elem_of_In, filter_In, <- list_elem_of_In in Hin.
  destruct Hin as [Hin Hd]. apply bool_decide_eq_true in Hd. apply list_elem_of_fmap in Hin as (row & -> & Hin).
  unfold byKey in Hin. rewrite go_sort_perm in Hin. apply list_elem_of_fmap in Hin as ([id row'] & -> & Hin).
  apply elem_of_map_to_list in Hin. by apply (Hk id row' Hin).
Qed.
End Gaps.

(** ** Witnesses *)

Definition exReviewing : Reviewing := mkReviewing true None "".

Definition exAsk (n : Z) : DeploymentApproval :=
  mkDeploymentApproval 0 "d1" "m" "requester" zeroTime "" "" None "" n None.

Definition exReviewWorld (n : Z) : World := snd (RequestDeploymentApproval (E := calmEnv) (exAsk n) emptyWorld).

Definition exReviewer (token : string) : Request :=
  mkRequest "POST" "/api/v1/approvals/d1/approve" ("Bearer " +:+ token) "" None "".

Definition exApprove (token : string) (w : World) : Answer VoteOutcome * World :=
  handleApproveDeployment (E := calmEnv) (C := plainCrypto) exReviewing (exReviewer token) "10.1.2.3:555" "d1" NoBody w.

Definition exReject (token : string) (w : World) : Answer DeploymentApproval * World :=
  handleRejectDeployment (E := calmEnv) (C := plainCrypto) exReviewing (exReviewer token) "10.1.2.3:555" "d1" NoBody w.

(** Two tokens that nobody issued approve a deployment that needs two reviewers. *)
Example invented_reviewers :
  let w := snd (exApprove "invented-2" (snd (exApprove "invented-1" (exReviewWorld 2)))) in
  map APStatus (approvals (w_db w)) = ["approved"%string] /\ keys (w_db w) = ∅.
Proof. vm_compute. split; reflexivity. Qed.

(** The veto of one reviewer, answered with 200, is undone by the second half of an
    approval that was under way. *)
Example veto_undone :
  let w1 := snd (approveVote (E := calmEnv) (C := plainCrypto) exReviewing (exReviewer "ann") "10.1.2.3:555" "d1" NoBody (exReviewWorld 1)) in
  let (veto, w2) := exReject "bob" w1 in
  let w3 := snd (approveTally (E := calmEnv) (C := plainCrypto) exReviewing (exReviewer "ann") "d1" w2) in
  (exists a, veto = Answered 200 a /\ APStatus a = "rejected"%string) /\
  map APStatus (approvals (w_db w3)) = ["approved"%string].
Proof. vm_compute. split; [eexists; split; reflexivity|reflexivity]. Qed.

(** The /24 of an IPv4 address; of an IPv6 address the text before the first colon. *)
Example ip_prefixes :
  extractIPPrefix "10.1.2.3:555" = "10.1.2.0"%string /\ extractIPPrefix "[2001:db8::1]:443" = "[2001"%string.
Proof. vm_compute. split; reflexivity. Qed.

Lemma review_wf_empty min : review_wf min emptyDatabase.
Proof. split; unfold approvals, votes; cbn; try constructor; set_solver. Qed.

Lemma exReview_fresh n : forall b, b ∈ approvals (w_db emptyWorld) -> APDeploymentID b ≠ APDeploymentID (exAsk n).
Proof. intros b Hb. by apply elem_of_nil in Hb. Qed.

Lemma exReview_steps : rtc (review_step (E := calmEnv) (C := plainCrypto) exReviewing) emptyWorld
  (snd (exApprove "bob" (snd (exApprove "ann" (exReviewWorld 2))))).
Proof.
  eapply rtc_l; [eapply step_request; [apply (exReview_fresh 2)|apply surjective_pairing]|].
  eapply rtc_l; [eapply step_approve; apply surjective_pairing|].
  apply rtc_once. eapply step_approve. apply surjective_pairing.
Qed.

Lemma approval_needs_quorum_witness :
  let w := snd (exApprove "bob" (snd (exApprove "ann" (exReviewWorld 2)))) in
  exists a reviewers, approvalOf "d1" (w_db w) = Some a /\ APStatus a = "approved"%string /\
    NoDup reviewers /\ APRequester a ∉ reviewers /\ 2 <= Z.of_nat (length reviewers).
Proof.
  set (w := snd (exApprove "bob" (snd (exApprove "ann" (exReviewWorld 2))))).
  assert (Ha : exists a, approvalOf "d1" (w_db w) = Some a /\ APStatus a = "approved"%string /\ APRequiredApprovals a = 2)
    by (vm_compute; eexists; repeat split).
  destruct Ha as (a & Ha & Hs & Hr).
  destruct (approval_needs_quorum (E := calmEnv) (C := plainCrypto) exReviewing emptyWorld w a (review_wf_empty _) exReview_steps
    (proj1 (approvalOf_Some _ _ _ Ha)) Hs) as (reviewers & H1 & H2 & H3 & _).
  exists a, reviewers. rewrite Hr in H3. repeat split; assumption.
Defined.

Lemma decision_final_witness :
  let w := snd (exReject "bob" (exReviewWorld 2)) in
  exists a, approvalOf "d1" (w_db w) = Some a /\ APStatus a = "rejected"%string /\
    approvalOf "d1" (w_db (snd (exApprove "ann" w))) = Some a.
Proof.
  set (w := snd (exReject "bob" (exReviewWorld 2))).
  assert (Ha : exists a, approvalOf "d1" (w_db w) = Some a /\ APStatus a = "rejected"%string)
    by (vm_compute; eexists; repeat split).
  destruct Ha as (a & Ha & Hs). exists a. split; [exact Ha|]. split; [exact Hs|].
  apply (decision_final (E := calmEnv) (C := plainCrypto) exReviewing w _ "d1" a Ha).
  - rewrite Hs. discriminate.
  - apply rtc_once. eapply step_approve. apply surjective_pairing.
Defined.

Lemma approve_counts_witness :
  fst (exApprove "ann" (exReviewWorld 2)) = Answered 200 (mkVoteOutcome false 1 2).
Proof.
  refine (proj1 (approve_counts (E := calmEnv) (C := plainCrypto) (H := calmEnv_db) exReviewing (exReviewer "ann") "10.1.2.3:555" "d1" NoBody
    (mkDeploymentApproval 1 "d1" "m" "requester" 0 "pending" "" None "" 2 None) (exReviewWorld 2) _ _ _ _ _ _ _ _));
    try (vm_compute; reflexivity); try discriminate.
  split; vm_compute; reflexivity.
Defined.
