(* ===== verification/Operations.v ===== *)
(** * Operations: deploying, previewing, draining and deleting over HTTP

    The handlers of [go/controlplane/server/server.go] through which an operator moves
    the cluster: [handleDeployModel] composes the pools of the caller's team, the
    planner, the plans table, the approval gate and the orchestrator; the others guard
    a deletion by the deployments that still need the row, restart what runs on a node,
    and report on the fleet. The planner, the orchestrator and the fleet manager are
    there or not, as in [server.Config]. *)
From S2P Require Import Prelude Float64 PlanTypes CostModel Fixtures Partition Ordering Planner Convert Cluster Registry.
From S2P Require Import Gateway Orchestrator Reconciler Permissions Access Platform Pki Fleet Planning.
From S2P Require Import Timestamp Statements Config Credentials Identity Approvals.
Import Row.
Open Scope Z_scope.

(** ** Deployments as the server reads them *)

Definition deploymentPinsModel (state : string) : bool := negb (deploymentTerminal state).

(** The host's node and the engines'; of a detail that was not stored, none. A node's
    name is not empty: no route has an empty segment. *)
Definition deploymentOccupiesNode (d : Deployment) (nodeID : string) : bool :=
  match DDetail d with
  | None => false
  | Some refs => (DD_HostNodeID refs =? nodeID)%string || existsb (fun e => ER_NodeID e =? nodeID)%string (DD_Engines refs)
  end.

Definition countDeploymentNodes (d : Deployment) : Z :=
  match DDetail d with
  | None => 0
  | Some refs => (if (DD_HostNodeID refs =? "")%string then 0 else 1) + Z.of_nat (length (DD_Engines refs))
  end.

(** The member ["tenant"] of the stored JSON: the orchestrator's detail has none, and a
    member that is not there decodes as the empty text. *)
Definition detailTenant (d : DeploymentDetail) : string := "".

Definition deploymentTenant (d : Deployment) : string :=
  match DDetail d with None => ""%string | Some td => detailTenant td end.

(** The deployments that still hold a node, and those that still need a model. *)
Definition liveOn (nodeID : string) (d : Deployment) : bool :=
  negb (deploymentTerminal (DState d)) && deploymentOccupiesNode d nodeID.

Definition pins (modelID : string) (d : Deployment) : bool :=
  (DModelID d =? modelID)%string && deploymentPinsModel (DState d).

(** [d.CreatedAt.After(latest.CreatedAt)] over the deployments of the model. *)
Definition laterOf (modelID : string) (latest : option Deployment) (d : Deployment) : option Deployment :=
  if negb (DModelID d =? modelID)%string then latest
  else match latest with
       | None => Some d
       | Some l => if DCreatedAt l <? DCreatedAt d then Some d else latest
       end.

Record ModelHealth : Type := mkModelHealth {
  MH_ModelID : string; MH_Status : string; MH_DeploymentID : string; MH_DeploymentState : string; MH_NodeCount : Z }.

Definition healthStatus (state : string) : string :=
  if (state =? StateActive)%string then "healthy"
  else if (state =? StateProvisioning)%string || (state =? StateStopping)%string then "degraded" else "unavailable".

Record ClusterHealth : Type := mkClusterHealth { CH_Status : string; CH_TotalNodes : Z; CH_ReadyNodes : Z }.

Record FleetCapacity : Type := mkFleetCapacity {
  FC_VRAMTotal : float64; FC_VRAMUsed : float64; FC_VRAMHeadroom : float64; FC_RAMTotal : float64; FC_RAMHeadroom : float64;
  FC_BwTotal : float64; FC_BwHeadroom : float64; FC_ReadyNodes : Z; FC_Bottleneck : string; FC_CanFitModels : list string }.

Definition fleetBottleneck (vramTotal vramHeadroom ramTotal ramHeadroom bwTotal bwHeadroom : float64) : string :=
  let ratio headroom total := if (total <=? f0)%f64 then of_Z 1 else (headroom / total)%f64 in
  let vramR := ratio vramHeadroom vramTotal in
  let ramR := ratio ramHeadroom ramTotal in
  let bwR := ratio bwHeadroom bwTotal in
  if (vramTotal <=? f0)%f64 && (ramTotal <=? f0)%f64 && (bwTotal <=? f0)%f64 then "none"
  else if (vramR <=? ramR)%f64 && (vramR <=? bwR)%f64 then "vram"
  else if (ramR <=? bwR)%f64 then "ram" else "mem_bandwidth".

(** ** The server's parts *)

Record Control : Type := mkControl {
  co_deployer : option Orchestrator; co_planner : option PlanCtx; co_fleet : option CA; co_approvals : bool }.

(** [DR_Plan]: [None] for no inline plan, [Some None] for one that does not decode. *)
Record deployRequest : Type := mkDeployRequest { DR_PlanID : string; DR_Plan : option (option Proto.DeploymentPlan) }.

Inductive DeployReply : Type :=
| Deployed (deploymentID modelID planID : string)
| DeployFailed (deploymentID : string)
| PendingApproval (deploymentID modelID : string)
| DoesNotFit (e : FitError).

Inductive PreviewReply : Type :=
| Infeasible (e : FitError)
| Feasible (p : Plan).

Inductive DeleteReply : Type := Deleted | InUse (deployments : list string).

Definition with_modelID (p : Proto.DeploymentPlan) (modelID : string) : Proto.DeploymentPlan :=
  Proto.mkDeploymentPlan (Proto.PlanId p) modelID (Proto.DQuantization p) (Proto.Assignments p) (Proto.PipelineOrder p)
    (Proto.Estimated p) (Proto.Cost p) (Proto.Explanation p).

Definition with_planID (p : Proto.DeploymentPlan) (planID : string) : Proto.DeploymentPlan :=
  Proto.mkDeploymentPlan planID (Proto.DModelId p) (Proto.DQuantization p) (Proto.Assignments p) (Proto.PipelineOrder p)
    (Proto.Estimated p) (Proto.Cost p) (Proto.Explanation p).

(** [registry.Plan] of a plan, before it is stored. *)
Definition planRow (p : Proto.DeploymentPlan) : Plan :=
  mkPlan (Proto.PlanId p) (Proto.DModelId p) (Proto.DQuantization p) (Proto.Cost p) (Some p) zeroTime.

Definition withPool (ids : list string) : Constraints := mkConstraints ∅ [] [] None None None f0 ModeAuto 0 ids.

Section Operations.
Context `{E : Env} `{J : ProtoJSON} `{C : Crypto}.

(** ** Deploying *)

Definition persistPlan (plan : Proto.DeploymentPlan) : M (option Error) := CreatePlan (planRow plan).

(** A panic of the planner ends the request without an answer: status 0. *)
Definition planFromFleet (ctx : PlanCtx) (modelID : string) (c : Constraints) : M (Answer DeployReply + Proto.DeploymentPlan) :=
  let* res := Planning.Plan ctx modelID c in
  match res with
  | inl (PE_Registry e) => cret (inl (if isNotFound e then Refused 404 "not_found" else Refused 500 "plan_failed"))
  | inl (PE_Fit fe) => cret (inl (Answered 422 (DoesNotFit fe)))
  | inl (PE_Planner _) => cret (inl (Refused 500 "plan_failed"))
  | inl PE_Panic => cret (inl (Refused 0 "panic"))
  | inr produced =>
      let* salt := randHex in
      let plan := with_planID (with_modelID produced modelID) (Proto.PlanId produced +:+ "-" +:+ salt) in
      let* err := persistPlan plan in
      cret (match err with Some _ => inl (Refused 500 "persist_plan_failed") | None => inr plan end)
  end.

(** The nodes of the pools of the caller's team; no constraint when there are none or
    the query fails. *)
Definition poolConstraints (ctx : ReqContext) : M Constraints :=
  match ctxKeyAPIKey ctx with
  | Some key =>
      if (K_Tenant key =? "")%string then cret Constraints_zero
      else
        let* res := GetAllowedNodeIDs (K_Tenant key) in
        cret (match res with inr (n :: nodes) => withPool (n :: nodes) | _ => Constraints_zero end)
  | None => cret Constraints_zero
  end.

(** The plan of the request, inline, stored or produced. *)
Definition resolvePlan (s : Control) (ctx : ReqContext) (modelID : string) (body : deployRequest)
    : M (Answer DeployReply + Proto.DeploymentPlan) :=
  match DR_Plan body with
  | Some None => cret (inl (Refused 400 "bad_plan"))
  | Some (Some plan) => cret (inr plan)
  | None =>
      if negb (DR_PlanID body =? "")%string then
        let* res := GetPlan (DR_PlanID body) in
        cret (match res with
              | inl e => inl (if isNotFound e then Refused 404 "not_found" else Refused 500 "get_plan_failed")
              | inr row => match PPlan row with Some plan => inr plan | None => inl (Refused 500 "bad_plan") end
              end)
      else match co_planner s with
           | Some pc => let* c := poolConstraints ctx in planFromFleet pc modelID c
           | None => cret (inl (Refused 400 "bad_request"))
           end
  end.

(** The body, when there is one; [None] when it is no JSON of the type. *)
Definition deployBody (body : Body deployRequest) : option deployRequest :=
  match body with NoBody => Some (mkDeployRequest "" None) | BadJSON => None | Decoded b => Some b end.

(** The approval gate: the approval is queued, the plan is not kept. *)
Definition queueApproval (r : Request) (plan : Proto.DeploymentPlan) : M (Answer DeployReply) :=
  let* pendingDepID := randHex in
  let requester := apiKeyHashFromRequest r in
  let* err := RequestDeploymentApproval (mkDeploymentApproval 0 pendingDepID (Proto.DModelId plan) requester
                zeroTime "" "" None "" 0 None) in
  match err with
  | inl _ => cret (Refused 500 "approval_queue_failed")
  | inr _ =>
      AppendAudit (mkAuditEntry requester "deployment.approval.requested" pendingDepID [] zeroTime) ;;;
      cret (Answered 202 (PendingApproval pendingDepID (Proto.DModelId plan)))
  end.

Definition applyPlan (o : Orchestrator) (plan : Proto.DeploymentPlan) : M (Answer DeployReply) :=
  let* (depID, err) := Apply o (Some plan) in
  cret (match err with
        | Some _ => Answered 500 (DeployFailed depID)
        | None => Answered 202 (Deployed depID (Proto.DModelId plan) (Proto.PlanId plan))
        end).

Definition handleDeployModel (s : Control) (ctx : ReqContext) (r : Request) (modelID : string) (body : Body deployRequest)
    : M (Answer DeployReply) :=
  match co_deployer s with
  | None => cret (Refused 501 "no_deployer")
  | Some o =>
      match deployBody body with
      | None => cret (Refused 400 "bad_request")
      | Some b =>
          let* res := resolvePlan s ctx modelID b in
          match res with
          | inl a => cret a
          | inr plan =>
              let plan := if (Proto.DModelId plan =? "")%string then with_modelID plan modelID else plan in
              if co_approvals s then queueApproval r plan else applyPlan o plan
          end
      end
  end.

Definition handlePreviewPlan (s : Control) (modelID : string) : M (Answer PreviewReply) :=
  match co_planner s with
  | None => cret (Refused 501 "no_planner")
  | Some ctx =>
      let* res := Planning.Plan ctx modelID Constraints_zero in
      cret (match res with
            | inl (PE_Registry e) => if isNotFound e then Refused 404 "not_found" else Refused 500 "plan_failed"
            | inl (PE_Fit fe) => Answered 200 (Infeasible fe)
            | inl (PE_Planner _) => Refused 500 "plan_failed"
            | inl PE_Panic => Refused 0 "panic"
            | inr produced => Answered 200 (Feasible (planRow (with_modelID produced modelID)))
            end)
  end.

Definition handleGetPlan (id : string) : M (Answer Plan) :=
  let* res := GetPlan id in
  cret (match res with
        | inl e => if isNotFound e then Refused 404 "not_found" else Refused 500 "get_plan_failed"
        | inr p => Answered 200 p
        end).

(** ** Deployments *)

Definition ListDeploymentsByTenant (tenant : string) : M (Error + list Deployment) :=
  let* all := ListDeployments in
  if (tenant =? "")%string then cret all
  else cret (match all with
             | inl e => inl e
             | inr ds => inr (List.filter (fun d =>
                 match DDetail d with Some td => (detailTenant td =? tenant)%string | None => false end) ds)
             end).

Definition handleListDeployments (ctx : ReqContext) : M (Answer (list Deployment)) :=
  let* res := ListDeploymentsByTenant (extractRequestTenant ctx) in
  cret (match res with inl _ => Refused 500 "list_deployments_failed" | inr ds => Answered 200 ds end).

Definition handleDeleteDeployment (s : Control) (id : string) : M (Answer string) :=
  match co_deployer s with
  | None => cret (Refused 501 "no_deployer")
  | Some o =>
      let* err := Teardown o id in
      cret (match err with
            | Some e => if isNotFound e then Refused 404 "not_found" else Refused 500 "teardown_failed"
            | None => Answered 200 "stopping"%string
            end)
  end.

(** ** Nodes *)

Definition handleListNodes : M (Answer (list Row.Node)) :=
  let* res := ListNodes in
  cret (match res with inl _ => Refused 500 "list_nodes_failed" | inr ns => Answered 200 ns end).

Definition handleGetNode (id : string) : M (Answer Row.Node) :=
  let* res := GetNode id in
  cret (match res with
        | inl e => if isNotFound e then Refused 404 "not_found" else Refused 500 "get_node_failed"
        | inr n => Answered 200 n
        end).

Definition handleDrainNode (s : Control) (id : string) : M (Answer string) :=
  match co_fleet s with
  | None => cret (Refused 501 "no_fleet")
  | Some _ =>
      let* err := Drain id in
      cret (match err with
            | Some e => if isNotFound e then Refused 404 "not_found" else Refused 500 "drain_failed"
            | None => Answered 200 NodeStateDraining
            end)
  end.

(** The deployments, in the database's order, once the row [exists_] reads is there. *)
Definition guarded {A} (exists_ : M (Error + A)) (failed : string) : M (Answer (list Deployment)) :=
  let* res := exists_ in
  match res with
  | inl e => cret (if isNotFound e then Refused 404 "not_found" else Refused 500 failed)
  | inr _ =>
      let* deps := ListDeployments in
      cret (match deps with inl _ => Refused 500 "list_deployments_failed" | inr ds => Answered 200 ds end)
  end.

Definition handleDeleteNode (s : Control) (id : string) : M (Answer DeleteReply) :=
  match co_fleet s with
  | None => cret (Refused 501 "no_fleet")
  | Some ca =>
      let* deps := guarded (GetNode id) "get_node_failed" in
      match deps with
      | Refused st code => cret (Refused st code)
      | Answered _ ds =>
          match map DID (List.filter (liveOn id) ds) with
          | d :: blocking => cret (Answered 409 (InUse (d :: blocking)))
          | [] =>
              let* err := Decommission ca id in
              cret (match err with
                    | Some e => if isNotFound e then Refused 404 "not_found" else Refused 500 "decommission_failed"
                    | None => Answered 204 Deleted
                    end)
          end
      end
  end.

(** The errors of the teardowns are logged. *)
Fixpoint teardownAll (o : Orchestrator) (targets : list string) : M unit :=
  match targets with
  | [] => cret ()
  | id :: targets => ignore (Teardown o id) ;;; teardownAll o targets
  end.

Definition handleRestartNode (s : Control) (ctx : ReqContext) (r : Request) (id : string) : M (Answer (list string)) :=
  match co_deployer s with
  | None => cret (Refused 501 "no_deployer")
  | Some o =>
      let* deps := guarded (GetNode id) "get_node_failed" in
      match deps with
      | Refused st code => cret (Refused st code)
      | Answered _ ds =>
          match map DID (List.filter (liveOn id) ds) with
          | [] => cret (Refused 409 "nothing_to_restart")
          | targets =>
              teardownAll o targets ;;;
              AppendAudit (mkAuditEntry (actorFromRequest ctx r) "api.node.restart" id [] zeroTime) ;;;
              cret (Answered 202 targets)
          end
      end
  end.

(** ** Models *)

Definition Fit_zero : FitVerdict := mkFit "" false 0 "" None f0 FR_None [].

(** Each model with its verdict, when there is a planner; the verdicts of a planner that
    fails are the zero ones. *)
Definition handleListModels (s : Control) : M (Answer (list (Row.Model * option FitVerdict))) :=
  let* res := ListModels in
  match res with
  | inl _ => cret (Refused 500 "list_models_failed")
  | inr models =>
      match co_planner s with
      | None => cret (Answered 200 (map (fun m => (m, None)) models))
      | Some ctx =>
          let* fits := FitAll ctx in
          let fits := match fits with inr fits => mapM id fits | inl _ => Some [] end in
          cret (match fits with
                | None => Refused 0 "panic"
                | Some fits =>
                    let fitByID : gmap string FitVerdict := fold_left (fun t f => <[F_ModelID f := f]> t) fits ∅ in
                    Answered 200 (map (fun m => (m, Some (default Fit_zero (fitByID !! MID m)))) models)
                end)
      end
  end.

Definition handleGetModel (id : string) : M (Answer Row.Model) :=
  let* res := GetModel id in
  cret (match res with
        | inl e => if isNotFound e then Refused 404 "not_found" else Refused 500 "get_model_failed"
        | inr m => Answered 200 m
        end).

Definition handleDeleteModel (ctx : ReqContext) (r : Request) (id : string) : M (Answer DeleteReply) :=
  let* deps := guarded (GetModel id) "get_model_failed" in
  match deps with
  | Refused st code => cret (Refused st code)
  | Answered _ ds =>
      match map DID (List.filter (pins id) ds) with
      | d :: blocking => cret (Answered 409 (InUse (d :: blocking)))
      | [] =>
          let* err := DeleteModel id in
          match err with
          | Some e => cret (if isNotFound e then Refused 404 "not_found" else Refused 500 "delete_model_failed")
          | None =>
              AppendAudit (mkAuditEntry (actorFromRequest ctx r) "model.deleted" id [] zeroTime) ;;;
              cret (Answered 204 Deleted)
          end
      end
  end.

Definition handleModelHealth (id : string) : M (Answer ModelHealth) :=
  let* deps := guarded (GetModel id) "get_model_failed" in
  cret (match deps with
        | Refused st code => Refused st code
        | Answered _ ds =>
            Answered 200 (match fold_left (laterOf id) ds None with
                          | None => mkModelHealth id "unavailable" "" "" 0
                          | Some d => mkModelHealth id (healthStatus (DState d)) (DID d)
                                        (default (DState d) (CutPrefix (DState d) "DEPLOYMENT_STATE_")) (countDeploymentNodes d)
                          end)
        end).

(** ** The fleet *)

(** [Ping] is one exchange with the database. *)
Definition handleClusterHealth : M (Answer ClusterHealth) :=
  let* err := attempt id in
  match err with
  | Some _ => cret (Answered 503 (mkClusterHealth "unavailable" 0 0))
  | None =>
      let* res := ListNodes in
      cret (match res with
            | inl _ => Refused 500 "health_failed"
            | inr nodes =>
                let ready := Z.of_nat (length (List.filter (fun n => readyStates (State n)) nodes)) in
                let status := match nodes with
                              | [] => "empty"%string
                              | _ => if ready =? 0 then "degraded"%string else "ok"%string
                              end in
                Answered 200 (mkClusterHealth status (Z.of_nat (length nodes)) ready)
            end)
  end.

(** The video memory, the memory and the bandwidth of a node. *)
Definition nodeResources (n : Row.Node) : float64 * float64 * float64 :=
  if negb (HardwareProfile n =? "")%string && negb (HardwareProfile n =? "{}")%string then
    match unmarshalProfile (HardwareProfile n) with
    | inr hw => (VRAMGB n, if (Proto.RamTotalGb hw >? f0)%f64 then Proto.RamTotalGb hw else RAMGB n, Proto.MemBandwidthGbs hw)
    | inl _ => (VRAMGB n, RAMGB n, f0)
    end
  else (VRAMGB n, RAMGB n, f0).

Definition addResources (a b : float64 * float64 * float64) : float64 * float64 * float64 :=
  let '(v, r, w) := a in let '(v', r', w') := b in ((v + v')%f64, (r + r')%f64, (w + w')%f64).

(** The nodes the active deployments name. *)
Definition usedNodes (deps : list Deployment) : gset string :=
  list_to_set (List.filter (fun n => negb (n =? "")%string)
    (flat_map (fun d =>
       if negb (DState d =? StateActive)%string then []
       else match DDetail d with
            | None => []
            | Some refs => DD_HostNodeID refs :: map ER_NodeID (DD_Engines refs)
            end) deps)).

Definition handleFleetCapacity (s : Control) : M (Answer FleetCapacity) :=
  let* nodes := ListNodes in
  match nodes with
  | inl _ => cret (Refused 500 "list_nodes_failed")
  | inr nodes =>
      let* deps := ListDeployments in
      match deps with
      | inl _ => cret (Refused 500 "list_deployments_failed")
      | inr deps =>
          let ready := List.filter (fun n => readyStates (State n)) nodes in
          let nodeByID : gmap string (float64 * float64 * float64) :=
            fold_left (fun t n => <[ID n := nodeResources n]> t) ready ∅ in
          let '(vram, ram, bw) := fold_left addResources (map nodeResources ready) (f0, f0, f0) in
          let* t := next in
          let used := omap (fun id => nodeByID !! id) (env_order string t (elements (usedNodes deps))) in
          let '(vramUsed, ramUsed, bwUsed) := fold_left addResources used (f0, f0, f0) in
          let* fits := (match co_planner s with
                        | None => cret (Some [])
                        | Some ctx =>
                            let* fits := FitAll ctx in
                            cret (match fits with inr fits => mapM id fits | inl _ => Some [] end)
                        end) in
          cret (match fits with
                | None => Refused 0 "panic"
                | Some fits =>
                    Answered 200 (mkFleetCapacity vram vramUsed (vram - vramUsed)%f64 ram (ram - ramUsed)%f64 bw (bw - bwUsed)%f64
                      (Z.of_nat (length ready))
                      (fleetBottleneck vram (vram - vramUsed)%f64 ram (ram - ramUsed)%f64 bw (bw - bwUsed)%f64)
                      (map F_ModelID (List.filter F_Deployable fits)))
                end)
      end
  end.

(** ** Usage *)

Record usageRequest : Type := mkUsageRequest {
  UR_APIKeyID : string; UR_ModelID : string; UR_InputTokens : Z; UR_OutputTokens : Z }.

Definition handleRecordUsage (internalToken presented : string) (body : Body usageRequest) : M (Answer unit) :=
  if negb (internalToken =? "")%string && negb (presented =? internalToken)%string then cret (Refused 401 "unauthorized")
  else match body with
       | Decoded b =>
           if (UR_APIKeyID b =? "")%string || (UR_ModelID b =? "")%string then cret (Refused 400 "bad_request")
           else
             let* err := RecordUsage (UR_APIKeyID b) (UR_ModelID b) (UR_InputTokens b) (UR_OutputTokens b) in
             cret (match err with Some _ => Refused 500 "record_usage_failed" | None => Answered 200 () end)
       | _ => cret (Refused 400 "bad_request")
       end.

Definition handleGetKeyUsage (id : string) : M (Answer KeyUsageSummary) :=
  let* res := GetAPIKey id in
  match res with
  | inl e => cret (if isNotFound e then Refused 404 "not_found" else Refused 500 "get_apikey_failed")
  | inr _ =>
      let* summary := GetKeyUsage id in
      cret (match summary with inl _ => Refused 500 "get_key_usage_failed" | inr u => Answered 200 u end)
  end.

(** [since]: [None] for no parameter, [Some None] for one that is no RFC 3339 time. *)
Definition handleUsageSummary (since : option (option Time)) : M (Answer (list TenantUsage)) :=
  match since with
  | Some None => cret (Refused 400 "bad_request")
  | _ =>
      let* res := GetUsageSummary (match since with Some (Some t) => t | _ => zeroTime end) in
      cret (match res with inl _ => Refused 500 "get_usage_summary_failed" | inr ts => Answered 200 ts end)
  end.
End Operations.

(** ** Deploying *)

Section DeployProperties.
Context `{E : Env} `{J : ProtoJSON} `{C : Crypto}.

(** Only the plans changed. *)
Definition plans_only (w w' : World) : Prop := outside_same w w' /\ exists t, w_db w' = with_plans (w_db w) t.

#[local] Instance plans_only_pre : PreOrder plans_only.
Proof.
  split.
  - intros w. split; [done|]. exists (db_plans (w_db w)). by destruct (w_db w).
  - intros a b c [Ho (t & Ht)] [Ho' (t' & Ht')]. split; [by etrans|]. exists t'. by rewrite Ht', Ht.
Qed.

Lemma plans_only_same w w' : w_db w' = w_db w -> outside_same w w' -> plans_only w w'.
Proof. intros Hd Ho. split; [done|]. exists (db_plans (w_db w)). rewrite Hd. by destruct (w_db w). Qed.

(** An answer that starts nothing and queues nothing. *)
Definition unserved (a : Answer DeployReply) : Prop :=
  match a with Answered _ (DoesNotFit _) | Refused _ _ => True | _ => False end.

(** The stored copy of a produced plan. *)
Definition storedAs (w : World) (plan : Proto.DeploymentPlan) : Prop :=
  PPlan <$> db_plans (w_db w) !! Proto.PlanId plan = Some (Some plan).

Lemma persistPlan_run plan w r w' :
  persistPlan plan w = (r, w') -> plans_only w w' /\ (r = None -> storedAs w' plan /\ db_plans (w_db w) !! Proto.PlanId plan = None).
Proof.
  unfold persistPlan, CreatePlan, planRow. cbn [PCreatedAt PID PModelID PQuantization PCost PPlan]. intros H. run_step H.
  assert (Hn : w_db w0 = w_db w /\ outside_same w w0).
  { destruct (IsZero _); [by apply nowUTC_spec in Hrun|by injection Hrun as _ <-]. }
  destruct Hn as [Hd Ho]. apply exec_spec in H as [Ho' H]. rewrite Hd in H. unfold insertRow in H. destruct r as [e|].
  - split; [|done]. apply plans_only_same; [by destruct H|by etrans].
  - destruct (db_plans (w_db w) !! _) eqn:Hl; [done|]. injection H as H. split.
    + split; [by etrans|]. eexists. by rewrite <- H.
    + intros _. split; [|done]. unfold storedAs. rewrite <- H. cbn. by rewrite lookup_insert_eq.
Qed.

Lemma planFromFleet_run ctx modelID c w r w' :
  planFromFleet ctx modelID c w = (r, w') ->
  plans_only w w' /\
  match r with
  | inl a => unserved a
  | inr plan => Proto.DModelId plan = modelID /\ storedAs w' plan /\ db_plans (w_db w) !! Proto.PlanId plan = None /\
      exists produced w1, Planning.Plan ctx modelID c w = (inr produced, w1) /\ Proto.Assignments plan = Proto.Assignments produced
  end.
Proof.
  unfold planFromFleet. intros H. run_step H.
  pose proof (Plan_db ctx modelID c w) as Hd. pose proof (Plan_outside ctx modelID c w) as Ho. rewrite Hrun in Hd, Ho. cbn in Hd, Ho.
  pose proof (plans_only_same _ _ Hd Ho) as Hp.
  destruct r0 as [[e|fe|e|]|produced]; [by injection H as <- <-; destruct (isNotFound e)|by injection H as <- <-..|].
  run_step H. injection Hrun0 as <- <-. run_step H. apply persistPlan_run in Hrun0 as [Hp' Hs].
  injection H as <- <-. cbn in Hp', Hs. split; [etrans; [done|]; exact Hp'|]. destruct r0; [done|].
  destruct (Hs eq_refl) as [Hs1 Hs2]. split_and!; [done|done| |by eauto]. unfold same_db in Hd. by rewrite <- Hd.
Qed.

(** The caller's pool, as a constraint. *)
Lemma poolConstraints_run `{!EnvLaws E} ctx w c w' :
  poolConstraints ctx w = (c, w') ->
  w_db w' = w_db w /\ outside_same w w' /\
  forall key n, ctxKeyAPIKey ctx = Some key -> K_Tenant key ≠ ""%string -> HealthyDB E ->
    node_allowed (db_platform (w_db w)) (K_Tenant key) n ->
    C_AllowedNodeIDs c ≠ [] /\ forall x, x ∈ C_AllowedNodeIDs c -> node_allowed (db_platform (w_db w)) (K_Tenant key) x.
Proof.
  unfold poolConstraints. destruct (ctxKeyAPIKey ctx) as [key|]; [|by intros [= <- <-]].
  destruct (String.eqb_spec (K_Tenant key) ""); [intros [= <- <-]; by split_and!; [..|intros ?? [= <-]]|].
  intros H. run_step H. apply GetAllowedNodeIDs_run in Hrun as (Hd & Ho & Hr). injection H as <- <-.
  split_and!; [done|done|]. intros k' x [= <-] _ Hh Hx. destruct r as [e|ids]; [by destruct (Hr Hh)|]. destruct Hr as [_ Hi].
  apply Hi in Hx. destruct ids as [|i ids]; [by apply elem_of_nil in Hx|]. split; [done|]. intros y Hy. by apply Hi.
Qed.

Lemma resolvePlan_run `{!EnvLaws E} s ctx modelID body w r w' :
  resolvePlan s ctx modelID body w = (r, w') -> plans_only w w' /\ match r with inl a => unserved a | inr _ => True end.
Proof.
  unfold resolvePlan. destruct (DR_Plan body) as [[plan|]|]; [by intros [= <- <-]..|].
  destruct (negb _); [|destruct (co_planner s) as [pc|]; [|by intros [= <- <-]]].
  - intros H. run_step H. apply query_spec in Hrun as (Hd & Ho & _). injection H as <- <-.
    split; [by apply plans_only_same|]. destruct r0 as [e|row]; [by destruct (isNotFound e)|by destruct (PPlan row)].
  - intros H. run_step H. apply poolConstraints_run in Hrun as (Hd & Ho & _). apply planFromFleet_run in H as [Hp Hr].
    split; [|by destruct r]. etrans; [by apply plans_only_same|done].
Qed.

Lemma queueApproval_run r plan w a w' :
  queueApproval r plan w = (a, w') ->
  outside_same w w' /\ db_deployments (w_db w') = db_deployments (w_db w) /\
  match a with
  | Answered _ (PendingApproval dep mid) => exists row,
      approvals (w_db w') = (approvals (w_db w) ++ [row])%list /\ APDeploymentID row = dep /\ APModelID row = mid /\
      APStatus row = "pending"%string /\ APRequester row = apiKeyHashFromRequest r /\ APRequiredApprovals row = 1
  | a => approvals (w_db w') = approvals (w_db w) /\ unserved a
  end.
Proof.
  unfold queueApproval. intros H. run_step H. injection Hrun as <- <-. run_step H.
  unfold RequestDeploymentApproval in Hrun. run_step Hrun. apply nowUTC_spec in Hrun0 as [Hd Ho1]. cbn in Hd.
  apply statement_spec in Hrun as [Ho2 Hr]. rewrite Hd in Hr. assert (Ho : outside_same w w0) by (etrans; [exact Ho1|done]).
  destruct r0 as [e|row]; [injection H as <- <-; destruct Hr as [-> _]; done|].
  cbn in Hr. injection Hr as <- Hr. run_step H. pose proof Hrun as Hl. apply AppendAudit_db in Hl as (l & Hl).
  apply AppendAudit_spec in Hrun as (Ho3 & _). injection H as <- <-. rewrite Hl, <- Hr.
  split_and!; [by etrans|done|]. eexists. by split_and!.
Qed.

(** The approval gate holds: with the gate on, whatever the request asks for,
    nothing is started, no route and no deployment changes; the answer is never that of
    a started deployment, and when it is "pending" a pending approval of that
    deployment, requested by the bearer of the request, is the last of the approvals. *)
Theorem deploy_gated `{!EnvLaws E} s ctx r modelID body w a w' :
  co_approvals s = true -> handleDeployModel s ctx r modelID body w = (a, w') ->
  outside_same w w' /\ db_deployments (w_db w') = db_deployments (w_db w) /\
  match a with
  | Answered _ (PendingApproval dep mid) => exists row,
      approvals (w_db w') = (approvals (w_db w) ++ [row])%list /\ APDeploymentID row = dep /\ APModelID row = mid /\
      APStatus row = "pending"%string /\ APRequester row = apiKeyHashFromRequest r /\ APRequiredApprovals row = 1
  | a => approvals (w_db w') = approvals (w_db w) /\ unserved a
  end.
Proof.
  intros Hg. unfold handleDeployModel. destruct (co_deployer s) as [o|]; [|by intros [= <- <-]].
  destruct (deployBody body) as [b|]; [|by intros [= <- <-]].
  intros H. run_step H. apply resolvePlan_run in Hrun as [[Ho (t & Ht)] Hu]. destruct r0 as [x|plan].
  { injection H as <- <-. rewrite Ht. split_and!; [done|done|]. by destruct x as [|? []]. }
  cbv zeta in H. rewrite Hg in H. apply queueApproval_run in H as (Ho' & Hd & Ha). rewrite Ht in Hd, Ha.
  split_and!; [by etrans|done|done].
Qed.

(** What the registry stores is fit for planning: profiles name their own node, and the
    numbers of the model and of the links are proper. *)
Record fleet_sound (db : Database) (modelID : string) : Prop := {
  fs_profiles : profiles_own db;
  fs_model : forall m spec, db_models db !! modelID = Some m -> modelSpec m = inr spec -> params_ok spec;
  fs_links : forall k l, db_links db !! k = Some l -> link_ok (plannerLink l) }.

(** A node of the team's pools that is up. *)
Definition poolNode (db : Database) (team nodeID : string) : Prop :=
  node_allowed (db_platform db) team nodeID /\
  exists id rn, db_nodes db !! id = Some rn /\ ID rn = nodeID /\ readyStates (State rn) = true.

(** The shards of a plan made for a pool are on its nodes. *)
Lemma planned_in_pool (allowed : string -> Prop) ctx modelID c w pp w' ws h :
  Planning.Plan ctx modelID c w = (inr pp, w') -> fleet_sound (w_db w) modelID ->
  C_AllowedNodeIDs c ≠ [] -> (forall x, x ∈ C_AllowedNodeIDs c -> allowed x) -> partition pp = inr (ws, h) ->
  forall a, a ∈ (ws ++ [h])%list ->
    allowed (Proto.NodeId a) /\
    exists id rn, db_nodes (w_db w) !! id = Some rn /\ ID rn = Proto.NodeId a /\ readyStates (State rn) = true.
Proof.
  intros H [H1 H2 H3] Hne Hal Hp. apply Plan_from_registry in H as (_ & m & spec & nodes & ns & q & p & _ & _ & Hns & Hok & _ & Hon & a & rest & Ha & Hp'); [|done..].
  rewrite Hp in Hp'. injection Hp' as -> ->. intros x Hx.
  assert (Hin : exists y, y ∈ Plan_Assignments p /\ A_NodeID y = Proto.NodeId x).
  { rewrite elem_of_app, list_elem_of_singleton, list_elem_of_fmap in Hx. rewrite Ha.
    destruct Hx as [(y & -> & Hy)| ->]; [exists y|exists a]; (split; [set_solver|done]). }
  destruct Hin as (y & Hy & <-). split.
  - destruct (pk_memory _ _ _ _ Hok (A_NodeID y)) as (n & Hin & <- & _); [by apply list_elem_of_In, in_map, list_elem_of_In|].
    apply Hns in Hin as [_ (_ & _ & [?|?])]; [done|by apply Hal].
  - destruct (Hon y Hy) as (id & rn & Hn & Hi & Hs). exists id, rn. split_and!; [done|done|].
    unfold readyStates. rewrite orb_true_iff, !String.eqb_eq. done.
Qed.

(** (C11) A team stays in its pools: when a key of a team with at least one node deploys a
    model and leaves the plan to the server, and the database answers every query, the
    deployment that comes up is ACTIVE, has one engine for each assignment of a new plan
    that is stored under the identifier of the answer, and every engine, the host's
    included, is on a node of the team's pools that is READY or RUNNING. (When the query
    for the pools fails the code plans without the constraint, see [pool_query_fails].)
    What the registry stores is fit for planning ([fleet_sound]). *)
Theorem deploy_in_pool `{!EnvLaws E, !HealthyDB E} s o ctx r modelID body key n w dep mid pid w' :
  co_deployer s = Some o -> ResolverFrame (O_resolver o) -> GatewayFrame (O_gateway o) -> co_approvals s = false ->
  deployBody body = Some (mkDeployRequest "" None) ->
  ctxKeyAPIKey ctx = Some key -> K_Tenant key ≠ ""%string -> node_allowed (db_platform (w_db w)) (K_Tenant key) n ->
  fleet_sound (w_db w) modelID -> modelID ≠ ""%string ->
  handleDeployModel s ctx r modelID body w = (Answered 202 (Deployed dep mid pid), w') ->
  mid = modelID /\
  exists row plan ls host, deployment w' dep = Some row /\ DState row = StateActive /\
    DModelID row = modelID /\ DPlanID row = pid /\
    db_plans (w_db w) !! pid = None /\ PPlan <$> db_plans (w_db w') !! pid = Some (Some plan) /\
    Proto.DModelId plan = modelID /\ partition plan = inr (map L_assignment ls, L_assignment host) /\
    DDetail row = Some (activeDetail plan ls host) /\
    (forall e, e ∈ DD_Engines (activeDetail plan ls host) -> poolNode (w_db w) (K_Tenant key) (ER_NodeID e)).
Proof.
  intros Ho HR HG Hg Hb Hk Ht Hn Hf Hm. unfold handleDeployModel, resolvePlan. rewrite Ho, Hb. intros H. run_step H. cbn in Hrun.
  destruct (co_planner s) as [pc|]; [|by injection Hrun as <- <-]. run_step Hrun.
  apply poolConstraints_run in Hrun0 as (Hd & _ & Hc). destruct (Hc _ _ Hk Ht _ Hn) as [Hc1 Hc2].
  apply planFromFleet_run in Hrun as [[_ (t & Hdb)] Hr]. rewrite Hd in Hr, Hdb.
  destruct r0 as [x|plan]; [injection H as -> _; destruct Hr|]. destruct Hr as (<- & Hs & Hfresh & pp & w2 & Hp & Hasg).
  cbv zeta in H. rewrite Hg, (proj2 (String.eqb_neq _ _) Hm) in H. unfold applyPlan in H. run_step H. destruct r0 as [id err].
  injection H as H <-. destruct err; [done|]. injection H as -> <- <-.
  apply Apply_run in Hrun as [(_ & Hx & _)|[(ls & Hx & _)|(ls & host & Hx)]]; [done|done| |done..].
  destruct Hx as (_ & _ & (_ & _ & Hpl & _) & Hpart & _ & _ & _ & Hrow). destruct (Hrow _) as (row & R1 & R2 & R3 & _ & R5 & R6).
  split; [done|]. exists row, plan, ls, host. rewrite Hpl. split_and!; [done..|].
  - cbn [activeDetail DD_Engines]. intros e He.
    assert (Hin : exists a, a ∈ (map L_assignment ls ++ [L_assignment host])%list /\ Proto.NodeId a = ER_NodeID e).
    { change (e ∈ (map (launchRef "worker") ls ++ [launchRef "host" host])%list) in He.
      rewrite elem_of_app, list_elem_of_singleton, list_elem_of_fmap in He.
      destruct He as [(l & -> & Hl)| ->]; [exists (L_assignment l)|exists (L_assignment host)]; (split; [|done]); set_solver. }
    destruct Hin as (a & Ha & <-). unfold poolNode. rewrite <- Hd.
    eapply planned_in_pool; [exact Hp|by rewrite Hd|done|by rewrite Hd| |exact Ha].
    unfold partition in *. by rewrite <- Hasg.
Qed.
End DeployProperties.

(** ** Deleting and restarting *)

Section Guards.
Context `{E : Env} `{!EnvLaws E, !HealthyDB E} `{C : Crypto}.

Definition deployments_keyed (db : Database) : Prop := forall id d, db_deployments db !! id = Some d -> DID d = id.

Lemma ListDeployments_run w : exists ds w1, ListDeployments w = (inr ds, w1) /\ w_db w1 = w_db w /\ outside_same w w1 /\
  ds ≡ₚ map snd (map_to_list (db_deployments (w_db w))).
Proof.
  unfold ListDeployments. rewrite cbind_run. cbn [next fst snd].
  match goal with |- exists ds w1, ?m = _ /\ _ => destruct m as [r w1] eqn:H end. pose proof H as H'.
  apply query_healthy in H' as ->; [|done]. apply query_spec in H as (Hd & Ho & _). eexists _, w1.
  split_and!; [done|done|done|]. apply env_order_perm.
Qed.

Lemma listed_deployment w ds d : deployments_keyed (w_db w) ->
  ds ≡ₚ map snd (map_to_list (db_deployments (w_db w))) -> d ∈ ds <-> deployment w (DID d) = Some d.
Proof.
  intros Hk ->. rewrite list_elem_of_In, in_map_iff. unfold deployment. split.
  - intros ([k x] & <- & Hin%list_elem_of_In%elem_of_map_to_list). cbn. by rewrite (Hk _ _ Hin).
  - intros H. exists (DID d, d). split; [done|]. by apply list_elem_of_In, elem_of_map_to_list.
Qed.

(** A tenant sees no deployment: nothing stores a tenant in a deployment's detail. *)
Lemma tenant_sees_nothing tenant w : tenant ≠ ""%string -> fst (ListDeploymentsByTenant tenant w) = inr [].
Proof.
  intros Ht. unfold ListDeploymentsByTenant. rewrite cbind_run. destruct (ListDeployments_run w) as (ds & w1 & -> & _).
  rewrite (proj2 (String.eqb_neq _ _) Ht). cbn [fst snd cret]. f_equal. induction ds as [|d ds IH]; [done|]. cbn.
  by destruct (DDetail d), tenant.
Qed.

(** The names of the listed deployments with a property. *)
Lemma named_deployments w ds (p : Deployment -> bool) x : deployments_keyed (w_db w) ->
  ds ≡ₚ map snd (map_to_list (db_deployments (w_db w))) ->
  x ∈ map DID (List.filter p ds) <-> exists d, deployment w x = Some d /\ p d = true.
Proof.
  intros Hk Hds. rewrite list_elem_of_In, in_map_iff. setoid_rewrite filter_In. setoid_rewrite <- list_elem_of_In.
  setoid_rewrite (listed_deployment w ds _ Hk Hds). split.
  - intros (d & <- & Hd). eauto.
  - intros (d & Hd & Hp). apply Hk in Hd as Hi. exists d. by rewrite Hi.
Qed.

Lemma guarded_run {A} what (k : Database -> Error + A) failed w a w' :
  guarded (query what k) failed w = (a, w') ->
  w_db w' = w_db w /\ outside_same w w' /\
  match a with
  | Answered _ ds => ds ≡ₚ map snd (map_to_list (db_deployments (w_db w))) /\ exists x, k (w_db w) = inr x
  | Refused _ _ => exists e, k (w_db w) = inl e
  end.
Proof.
  unfold guarded. intros H. run_step H. pose proof Hrun as Hq. apply query_healthy in Hq; [|done].
  apply query_spec in Hrun as (Hd & Ho & _). destruct r as [e|x].
  { injection H as <- <-. by destruct (isNotFound e); eauto. }
  destruct (ListDeployments_run w0) as (ds & w1 & Hl & Hd1 & Ho1 & Hds). rewrite cbind_run, Hl in H. injection H as <- <-.
  rewrite Hd in *. split_and!; [congruence|by etrans|done|]. eauto.
Qed.

(** A node is not taken from under a deployment: a delete that succeeds found no live
    deployment with an engine or its host on the node and leaves the node decommissioned
    and every deployment as it was; one that is refused names exactly the live
    deployments on the node, at least one, and changes nothing. *)
Theorem delete_node_guarded s ca (HC : CALaws ca) id w st a w' :
  co_fleet s = Some ca -> nodes_keyed (w_db w) -> certs_keyed (w_db w) -> deployments_keyed (w_db w) ->
  handleDeleteNode s id w = (Answered st a, w') ->
  match a with
  | Deleted => (forall x d, deployment w x = Some d -> liveOn id d = false) /\
      (exists n, db_nodes (w_db w') !! id = Some n /\ State n = NodeStateDecommissioned) /\
      forall x, deployment w' x = deployment w x
  | InUse l => l ≠ [] /\ (forall x, x ∈ l <-> exists d, deployment w x = Some d /\ liveOn id d = true) /\ w_db w' = w_db w
  end.
Proof.
  intros Hf Hn Hc Hk. unfold handleDeleteNode. rewrite Hf. intros H. run_step H. apply guarded_run in Hrun as (Hd & _ & Hr).
  destruct r as [|st' ds]; [done|]. destruct Hr as [Hds (n & Hrow)].
  pose proof (fun x => named_deployments w ds (liveOn id) x Hk Hds) as Hx.
  destruct (map DID (List.filter (liveOn id) ds)) as [|d l]; [|by injection H as _ <- <-].
  unfold getRow in Hrow. destruct (db_nodes (w_db w) !! id) as [rn|] eqn:Hrn; [|done].
  rewrite <- Hd in Hn, Hc, Hrn. destruct (Decommission_run ca id rn w0 Hn Hc Hrn) as (w2 & H2 & Hdep & Hst & _).
  rewrite cbind_run, H2 in H. injection H as _ <- <-. split_and!; [|done|].
  - intros x d Hxd. destruct (liveOn id d) eqn:Hl; [|done]. exfalso. apply (not_elem_of_nil x), Hx. eauto.
  - intros x. unfold deployment. by rewrite Hdep, Hd.
Qed.

(** The same for a model and the deployments that still use it. *)
Theorem delete_model_guarded ctx r id w st a w' :
  deployments_keyed (w_db w) -> handleDeleteModel ctx r id w = (Answered st a, w') ->
  match a with
  | Deleted => (forall x d, deployment w x = Some d -> pins id d = false) /\ db_models (w_db w') = delete id (db_models (w_db w)) /\
      forall x, deployment w' x = deployment w x
  | InUse l => l ≠ [] /\ (forall x, x ∈ l <-> exists d, deployment w x = Some d /\ pins id d = true) /\ w_db w' = w_db w
  end.
Proof.
  intros Hk. unfold handleDeleteModel. intros H. run_step H. apply guarded_run in Hrun as (Hd & _ & Hr).
  destruct r0 as [|st' ds]; [done|]. destruct Hr as [Hds (n & Hrow)].
  pose proof (fun x => named_deployments w ds (pins id) x Hk Hds) as Hx.
  destruct (map DID (List.filter (pins id) ds)) as [|d l]; [|by injection H as _ <- <-].
  run_step H. apply exec_spec in Hrun as [_ He]. destruct r0 as [e|]; [by destruct (isNotFound e)|].
  run_step H. apply AppendAudit_db in Hrun as (log & Hlog). injection H as _ <- <-.
  rewrite Hd in He. unfold deleteRow in He. destruct (db_models (w_db w) !! id); [|done]. injection He as He.
  unfold deployment. rewrite Hlog, <- He. split_and!; [|done..].
  intros x d Hxd. destruct (pins id d) eqn:Hl; [|done]. exfalso. apply (not_elem_of_nil x), Hx. eauto.
Qed.

(** ** Restart *)

(** A pass in a cluster without ACTIVE deployments only notifies. *)
Definition idle (w w' : World) : Prop :=
  issues (fun c => exists t d n, c = CWebhook t d n) w w' /\ w_routes w' = w_routes w /\
  db_deployments (w_db w') = db_deployments (w_db w).

#[local] Instance idle_pre : PreOrder idle.
Proof.
  split; [intros w; split_and!; [apply issues_refl|done..]|].
  intros w1 w2 w3 (A1 & A2 & A3) (B1 & B2 & B3). split_and!; [by etrans|congruence..].
Qed.

Lemma idle_same w w' : outside_same w w' -> db_deployments (w_db w') = db_deployments (w_db w) -> idle w w'.
Proof. intros [H1 H2] H3. split_and!; [|done..]. exists []. by rewrite app_nil_r. Qed.

Lemma idle_audit action ev : leaves idle (Reconciler.audit action ev).
Proof.
  intros w. unfold Reconciler.audit. rewrite cbind_run. cbn [cret snd]. destruct (AppendAudit _ w) as [r w'] eqn:H.
  apply AppendAudit_spec in H as (Ho & _ & _ & _ & Hd). by apply idle_same.
Qed.

Lemma idle_dispatch rc ev : Ev_Type ev = EventNewNode -> leaves idle (dispatch rc ev).
Proof.
  intros Ht. unfold dispatch. destruct (Ev_Level ev).
  - destruct (rc_act rc); [|by apply leaves_ret, _]. rewrite Ht. cbn.
    apply leaves_bind; [apply _|apply idle_audit|]. intros _. by apply leaves_ret, _.
  - apply leaves_bind; [apply _|apply idle_audit|]. intros _. apply leaves_bind; [apply _| |intros _; by apply leaves_ret, _].
    destruct (_ =? _)%string; [by apply leaves_ret, _|]. intros w. split_and!; [|done..]. eexists. split; [done|]. repeat constructor. eauto.
  - apply leaves_bind; [apply _|apply idle_audit|]. intros _. by apply leaves_ret, _.
  - by apply leaves_ret, _.
Qed.

Lemma idle_passLoop rc now ds : Forall (fun d => d_typ d = EventNewNode) ds -> forall tr rep, leaves idle (passLoop rc now ds tr rep).
Proof.
  induction 1 as [|d ds Hd _ IH]; intros tr rep; cbn [passLoop]; [by apply leaves_ret, _|].
  case_match; [|apply IH]. apply leaves_bind; [apply _|by apply idle_dispatch|]. intros [|]; apply IH.
Qed.

Lemma observe_inactive c deps byID now w : Forall (fun d => DState d ≠ StateActive) deps ->
  Forall (fun d => d_typ d = EventNewNode) (fst (observe c deps byID now w)) /\ idle w (snd (observe c deps byID now w)).
Proof.
  intros Ha. assert (Ho : forall out cl, observeDeps c byID now deps out cl w = ((out, cl), w)).
  { induction Ha as [|d deps Hd _ IH]; intros out cl; cbn [observeDeps]; [done|]. rewrite (proj2 (String.eqb_neq _ _) Hd). apply IH. }
  unfold observe. rewrite cbind_run, Ho. cbn [fst snd]. rewrite cbind_run. cbn [cret next fst snd app]. split; [|by apply idle_same].
  apply Forall_flat_map, Forall_forall. intros n _. unfold newNode. repeat case_match; repeat constructor.
Qed.

Lemma Reconcile_inactive rc tr w : (forall x d, deployment w x = Some d -> DState d ≠ StateActive) ->
  idle w (snd (Reconcile rc tr w)).
Proof.
  intros Ha. unfold Reconcile. rewrite cbind_run. cbn [nowUTC]. rewrite cbind_run.
  set (w0 := snd (nowUTC w)). destruct (ListDeployments_run w0) as (ds & w1 & -> & Hd1 & Ho1 & Hds). cbn [fst snd].
  rewrite cbind_run. destruct (ListNodes w1) as [ns w2] eqn:Hn. apply query_spec in Hn as (Hd2 & Ho2 & _). cbn [fst snd].
  assert (Hi : idle w w2).
  { apply idle_same; [|by rewrite Hd2, Hd1]. etrans; [|exact Ho2]. etrans; [|exact Ho1]. done. }
  destruct ns as [e|ns]; [exact Hi|]. rewrite cbind_run. etrans; [exact Hi|].
  destruct (observe_inactive (rc_cfg rc) ds (list_to_map (map (fun n => (ID n, n)) (reverse ns))) (fst (nowUTC w)) w2) as [Ht Hs].
  { apply Forall_forall. intros d Hd. rewrite Hds in Hd. apply list_elem_of_In, in_map_iff in Hd as ([k x] & <- & Hin%list_elem_of_In%elem_of_map_to_list).
    by eapply Ha. }
  etrans; [exact Hs|]. rewrite cbind_run.
  match goal with |- context [passLoop rc ?t ?o ?m ?r ?w3] =>
    pose proof (idle_passLoop rc t o Ht m r w3) as Hp; destruct (passLoop rc t o m r w3) as [[rep tr'] w4] end.
  exact Hp.
Qed.

Lemma teardownAll_run o (HG : GatewayFrame (O_gateway o)) l : forall w u w',
  deployments_keyed (w_db w) -> (forall x, x ∈ l -> is_Some (deployment w x)) -> teardownAll o l w = (u, w') ->
  (forall x, x ∈ l -> exists row, deployment w' x = Some row /\ DState row = StateStopped) /\
  (forall x, x ∉ l -> deployment w' x = deployment w x).
Proof.
  induction l as [|id l IH]; intros w u w' Hk Hs H; cbn [teardownAll] in H; [injection H as _ <-; set_solver|].
  run_step H. apply ignore_run in Hrun as (err & Ht). destruct (Hs id ltac:(left)) as [dep Hdep].
  apply (Teardown_run o HG id dep) in Ht as (_ & (_ & _ & _ & Hother) & (now & Hrow) & _); [|done|done|by apply Hk].
  apply IH in H as [H1 H2].
  - split.
    + intros x Hx. destruct (decide (x ∈ l)) as [Hl|Hl]; [by apply H1|]. apply elem_of_cons in Hx as [->|?]; [|done].
      rewrite H2 by done. eauto.
    + intros x Hx. apply not_elem_of_cons in Hx as [Hne Hl]. by rewrite H2, Hother.
  - intros x d Hx. destruct (decide (x = id)) as [->|Hne].
    + change (deployment w0 id = Some d) in Hx. rewrite Hrow in Hx. by injection Hx as <-.
    + apply Hk. change (deployment w0 x = Some d) in Hx. by rewrite Hother in Hx.
  - intros x Hx. destruct (decide (x = id)) as [->|Hne]; [eauto|]. rewrite Hother by done. apply Hs. by right.
Qed.

(** What a restart of a node leaves behind: the answer names exactly the live
    deployments that were on the node and all of them are STOPPED; no other deployment
    changed. When no other deployment was ACTIVE, a pass of the control loop, whatever
    its configuration, planner and actuator, starts no engine and leaves them STOPPED. *)
Theorem restart_stays_down s o (HG : GatewayFrame (O_gateway o)) ctx r id w st targets w' :
  co_deployer s = Some o -> deployments_keyed (w_db w) ->
  handleRestartNode s ctx r id w = (Answered st targets, w') ->
  (forall x, x ∈ targets <-> exists d, deployment w x = Some d /\ liveOn id d = true) /\
  (forall x, x ∈ targets -> exists row, deployment w' x = Some row /\ DState row = StateStopped) /\
  (forall x, x ∉ targets -> deployment w' x = deployment w x) /\
  ((forall x d, deployment w x = Some d -> DState d = StateActive -> deploymentOccupiesNode d id = true) ->
   forall rc tr, idle w' (snd (Reconcile rc tr w'))).
Proof.
  intros Ho Hk. unfold handleRestartNode. rewrite Ho. intros H. run_step H. apply guarded_run in Hrun as (Hd & _ & Hr).
  destruct r0 as [|st' ds]; [done|]. destruct Hr as [Hds _].
  pose proof (fun x => named_deployments w ds (liveOn id) x Hk Hds) as Hx.
  set (l := map DID (List.filter (liveOn id) ds)) in *. assert (Hl : l = [] \/ l ≠ []) by (destruct l; auto).
  destruct Hl as [Hl|Hl]; [by rewrite Hl in H|]. destruct l as [|d l]; [done|]. run_step H. run_step H.
  apply AppendAudit_spec in Hrun0 as (_ & _ & _ & _ & Ha). injection H as <- <- <-.
  assert (Hsame : forall x, deployment w2 x = deployment w1 x) by (intros x; unfold deployment; by rewrite Ha).
  apply (teardownAll_run o HG) in Hrun as [H1 H2]; [|by rewrite Hd|]; cycle 1.
  { intros x Hin. unfold deployment. rewrite Hd. apply Hx in Hin as (y & Hy & _). eauto. }
  assert (Hw : forall x, deployment w0 x = deployment w x) by (intros x; unfold deployment; by rewrite Hd).
  setoid_rewrite Hsame. split_and!; [done|done|by intros x Hn; rewrite H2|].
  intros Hact rc tr. apply Reconcile_inactive. intros x y. rewrite Hsame. destruct (decide (x ∈ d :: l)) as [Hin|Hin].
  - destruct (H1 x Hin) as (row & -> & Hst). intros [= <-]. by rewrite Hst.
  - rewrite H2, Hw by done. intros Hy Hst. apply Hin, Hx. exists y. split; [done|]. unfold liveOn.
    by rewrite (Hact x y Hy Hst), Hst.
Qed.
End Guards.

(** ** A concrete cluster *)

Section Witnesses.
Local Open Scope string_scope.
#[local] Existing Instance toyCrypto.
#[local] Existing Instance toyJSON.
#[local] Instance exOk : Env := exEnv None.
#[local] Instance exOk_db : HealthyDB exOk := exEnv_db None.
#[local] Instance exOk_laws : EnvLaws exOk := exEnv_laws None.

(** The fleet of the planning example, its ready nodes in a pool of the team [ml]. *)
Definition exPools : PlatformTables :=
  mkPlatformTables ∅ ∅ ∅ ∅ ∅ ∅ {[ "p" := mkNodePool "p" "p" "" "team" "ml" "exclusive" 0 0 ]} {[ "a" := "p"; "b" := "p" ]} ∅ ∅.
Definition exPoolDB : Database :=
  mkDatabase (db_nodes exRegistry) (db_models exRegistry) ∅ ∅ [] (db_links exRegistry) ∅ exPools EnterpriseTables_empty.
Definition exPoolWorld : World := mkWorld 0 exPoolDB ∅ [].
Definition exTeamKey : ReqContext := mkReqContext None None None None (Some (mkAPIKey "k" "h" "ml" "admin" true None)).
Definition exPost : Request := mkRequest "POST" "/api/v1/models/m/deploy" "Bearer k" "" None "".
Definition exControl (gate : bool) : Control := mkControl (Some (exOrch None)) (Some exCtx) None gate.
Definition exDeploy := handleDeployModel (exControl false) exTeamKey exPost "m" NoBody exPoolWorld.

Lemma exPool_sound : fleet_sound exPoolDB "m".
Proof. split; [exact exRegistry_profiles|exact exRegistry_params|exact exRegistry_links]. Qed.

Definition started (a : Answer DeployReply) : option (string * string * string) :=
  match a with Answered st (Deployed dep m pid) => if (st =? 202)%Z then Some (dep, m, pid) else None | _ => None end.

Lemma started_inv a dep m pid : started a = Some (dep, m, pid) -> a = Answered 202 (Deployed dep m pid).
Proof. destruct a as [|st []]; cbn; try discriminate. destruct (Z.eqb_spec st 202) as [->|]; [by intros [= <- <- <-]|discriminate]. Qed.

Lemma exPool_a : node_allowed exPools "ml" "a".
Proof. exists "p". eexists. split; [reflexivity|]. split; [reflexivity|]. left. split_and!; reflexivity. Qed.

Lemma deploy_in_pool_witness :
  exists dep pid w', exDeploy = (Answered 202 (Deployed dep "m" pid), w') /\
  exists row d, deployment w' dep = Some row /\ DState row = StateActive /\ DDetail row = Some d /\
    forall e, e ∈ DD_Engines d -> poolNode exPoolDB "ml" (ER_NodeID e).
Proof.
  assert (Ho : exists x, started (fst exDeploy) = Some (fst x, "m", snd x)) by (exists ("dep-0a", "plan-llama-test-a-0a"); vm_compute; reflexivity).
  destruct Ho as [[dep pid] Ho]. apply started_inv in Ho. exists dep, pid, (snd exDeploy).
  assert (Hrun : exDeploy = (Answered 202 (Deployed dep "m" pid), snd exDeploy)).
  { cbn [fst snd] in Ho. rewrite <- Ho. apply surjective_pairing. }
  split; [exact Hrun|].
  destruct (deploy_in_pool (exControl false) (exOrch None) exTeamKey exPost "m" NoBody (mkAPIKey "k" "h" "ml" "admin" true None) "a"
    exPoolWorld dep "m" pid _ eq_refl (MapResolver_frame _) (HTTP_frame _) eq_refl eq_refl eq_refl ltac:(discriminate) exPool_a exPool_sound
    ltac:(discriminate) Hrun) as (_ & row & plan & ls & host & H1 & H2 & _ & _ & _ & _ & _ & _ & H3 & H4).
  exists row, (activeDetail plan ls host). split; [exact H1|]. split; [exact H2|]. split; [exact H3|exact H4].
Defined.

(** When the query for the pools fails there is no constraint. *)
Definition exFault : Env := {|
  env_start := env_start (Env := exOk); env_stop := env_stop (Env := exOk); env_http := env_http (Env := exOk);
  env_done := env_done (Env := exOk); env_db := fun _ => Some (ErrIO "disk");
  env_now := env_now (Env := exOk); env_rand := env_rand (Env := exOk); env_order := env_order (Env := exOk);
  env_path := env_path (Env := exOk); env_sha256 := env_sha256 (Env := exOk) |}.

Example pool_query_fails :
  C_AllowedNodeIDs (fst (poolConstraints (E := exOk) exTeamKey exPoolWorld)) = ["a"; "b"] /\
  C_AllowedNodeIDs (fst (poolConstraints (E := exFault) exTeamKey exPoolWorld)) = [].
Proof. vm_compute. split; reflexivity. Qed.

Lemma deploy_gated_witness :
  fst (handleDeployModel (exControl true) exTeamKey exPost "m" NoBody exPoolWorld) = Answered 202 (PendingApproval "0a" "m") /\
  w_trace (snd (handleDeployModel (exControl true) exTeamKey exPost "m" NoBody exPoolWorld)) = [].
Proof.
  split; [vm_compute; reflexivity|].
  exact (proj2 (proj1 (deploy_gated (exControl true) exTeamKey exPost "m" NoBody exPoolWorld _ _ eq_refl (surjective_pairing _)))).
Defined.

(** A plan in the body of the request is applied as it is: a team without the nodes of
    the pool deploys on them. *)
Definition exOtherKey : ReqContext := mkReqContext None None None None (Some (mkAPIKey "k" "h" "web" "admin" true None)).

Example inline_plan_leaves_pools :
  fst (handleDeployModel (exControl false) exOtherKey exPost "m" (Decoded (mkDeployRequest "" (Some (Some exProtoPlan)))) exPoolWorld)
    = Answered 202 (Deployed "dep-0a" "m" "plan-1") /\
  ~ node_allowed exPools "web" "a".
Proof.
  split; [vm_compute; reflexivity|]. intros (pid & p & H1 & H2 & H3). vm_compute in H1. injection H1 as <-. vm_compute in H2. injection H2 as <-.
  destruct H3 as [(_ & _ & H)|[H _]]; discriminate H.
Qed.

(** The world in which the team's deployment runs. *)
Definition exRunning : World := snd exDeploy.

Lemma exRunning_keyed : nodes_keyed (w_db exRunning) /\ certs_keyed (w_db exRunning) /\ deployments_keyed (w_db exRunning).
Proof.
  assert (H1 : bool_decide (map_Forall (fun id n => ID n = id) (db_nodes (w_db exRunning))) = true) by (vm_compute; reflexivity).
  assert (H2 : bool_decide (map_Forall (fun id c => CSerial c = id) (db_certs (w_db exRunning))) = true) by (vm_compute; reflexivity).
  assert (H3 : bool_decide (map_Forall (fun id d => DID d = id) (db_deployments (w_db exRunning))) = true) by (vm_compute; reflexivity).
  apply bool_decide_eq_true in H1, H2, H3. split; [exact H1|]. split; [exact H2|exact H3].
Qed.

Definition exFleetCA : CA := Authority_CA (P := toyPki) exA.
Definition exFleet_ : Control := mkControl (Some (exOrch None)) None (Some exFleetCA) false.

Lemma delete_node_guarded_witness :
  fst (handleDeleteNode exFleet_ "a" exRunning) = Answered 409 (InUse ["dep-0a"]) /\
  fst (handleDeleteNode exFleet_ "c" exRunning) = Answered 204 Deleted /\
  forall x, x ∈ ["dep-0a"] <-> exists d, deployment exRunning x = Some d /\ liveOn "a" d = true.
Proof.
  assert (H1 : fst (handleDeleteNode exFleet_ "a" exRunning) = Answered 409 (InUse ["dep-0a"])) by (vm_compute; reflexivity).
  split; [exact H1|]. split; [vm_compute; reflexivity|].
  destruct exRunning_keyed as (K1 & K2 & K3).
  refine (proj1 (proj2 (delete_node_guarded exFleet_ exFleetCA _ "a" exRunning 409 (InUse ["dep-0a"])
    (snd (handleDeleteNode exFleet_ "a" exRunning)) eq_refl K1 K2 K3 _))).
  rewrite <- H1. apply surjective_pairing.
Defined.

(** While a deployment is PROVISIONING its row names no node: the worker's engine runs
    on [b], and [b] can be decommissioned. *)
Definition exProvisioning : World :=
  snd ((CreateDeployment (mkDeployment "dep-1" "m" "plan-1" StateProvisioning (Some (baseDetail exProtoPlan)) zeroTime zeroTime) ;;;
        startWorkers (exOrch None) exProtoPlan [exWorker] [] []) exPoolWorld).

Example provisioning_node_deleted :
  w_trace exProvisioning = [CStart "b:1" (workerReq exProtoPlan exWorker) (inr "h@b:1")] /\
  fst (handleDeleteNode exFleet_ "b" exProvisioning) = Answered 204 Deleted.
Proof. split; vm_compute; reflexivity. Qed.

Lemma restart_stays_down_witness :
  fst (handleRestartNode exFleet_ exTeamKey exPost "a" exRunning) = Answered 202 ["dep-0a"] /\
  forall rc tr, idle (snd (handleRestartNode exFleet_ exTeamKey exPost "a" exRunning))
                  (snd (Reconcile rc tr (snd (handleRestartNode exFleet_ exTeamKey exPost "a" exRunning)))).
Proof.
  assert (H1 : fst (handleRestartNode exFleet_ exTeamKey exPost "a" exRunning) = Answered 202 ["dep-0a"]) by (vm_compute; reflexivity).
  split; [exact H1|].
  refine (proj2 (proj2 (proj2 (restart_stays_down exFleet_ (exOrch None) (HTTP_frame _) exTeamKey exPost "a" exRunning 202 ["dep-0a"]
    _ eq_refl (proj2 (proj2 exRunning_keyed)) _))) _).
  - rewrite <- H1. apply surjective_pairing.
  - assert (H : bool_decide (map_Forall (fun _ d => deploymentOccupiesNode d "a" = true) (db_deployments (w_db exRunning))) = true)
      by (vm_compute; reflexivity).
    apply bool_decide_eq_true in H. intros x d Hx _. exact (H x d Hx).
Defined.
End Witnesses.
