(* ===== verification/InferenceLog.v ===== *)
(** * InferenceLog: the record of every inference

    [registry/inference_audit_sqlite.go] and [inference_audit_verify.go]: the chain of
    inference events, its verification and its pages; the erasure of a subject
    ([enterprise_sqlite.go]); the handlers of [server/inference_audit.go] and
    [server/gdpr.go]. A row holds what reading its columns gives, so its time is in UTC
    with the zone offset 0. The digest is [sha256HexOf]; what is used of it is that it
    is 32 bytes in hexadecimal, and the theorem on tampering says for which inputs it
    must not collide. *)
From stdpp Require Import pretty.
From S2P Require Import Prelude Float64 PlanTypes Ordering AuditChain Cluster Registry Permissions Access Platform Timestamp Statements.
From S2P Require Import Credentials Identity Approvals.
Import Row.
Open Scope Z_scope.

(** ** The canonical bytes of an event *)

Definition inferenceFirstSeq : Z := 1.
Definition inferenceGenesisPrevHash : string := "0000000000000000000000000000000000000000000000000000000000000000".
Definition defaultInferenceLimit : Z := 100.
Definition maxInferenceLimit : Z := 1000.

(** [binary.BigEndian], [n] bytes of an unsigned number. *)
Fixpoint bigEndian (n : nat) (v : Z) : string :=
  match n with
  | O => ""
  | S n => String (byteOf (v / 256 ^ Z.of_nat n mod 256)) (bigEndian n v)
  end.

(** The length is a [uint32]. *)
Definition writeStr (s : string) : string := bigEndian 4 (Z.of_nat (String.length s) mod 2 ^ 32) +:+ s.

(** [b, _ := hex.DecodeString(h)]: the bytes before the first error. *)
Fixpoint hexPrefix (s : string) : string :=
  match s with
  | String a (String b s) =>
      match fromHexChar a, fromHexChar b with
      | Some x, Some y => String (byteOf (16 * x + y)) (hexPrefix s)
      | _, _ => ""
      end
  | _ => ""
  end.

Definition writePrevHash (h : string) : string := let b := hexPrefix h in if (b =? "")%string then zeros32 else b.

(** [Format(time.RFC3339)] in a zone [offset] seconds east of UTC. *)
Definition zoneText (offset : Z) : string :=
  if offset =? 0 then "Z"
  else let zone := Z.quot offset 60 in
       (if zone <? 0 then "-" else "+") +:+ digits 2 (Z.abs zone / 60) +:+ ":" +:+ digits 2 (Z.abs zone mod 60).

Definition fmtRFC3339 (t : Time) (offset : Z) : string := secondText (t / Second + offset) +:+ zoneText offset.

Definition canonicalInferenceEventBytes (e : InferenceEvent) (seq : Z) (prevHash : string) : string :=
  writePrevHash prevHash +:+ bigEndian 8 (seq mod 2 ^ 64) +:+ writeStr (IERequestID e) +:+ writeStr (IEAPIKeyHash e) +:+
  writeStr (IEModelID e) +:+ writeStr (IETenantID e) +:+ writeStr (fmtRFC3339 (IETimestamp e) (IEOffset e)) +:+
  writeStr (IEEndpoint e) +:+ writeStr (IEFinishReason e).

(** ** The tables *)

Definition inference (db : Database) : InferenceTables := et_inference (db_enterprise db).
Definition events (db : Database) : list InferenceRow := it_events (inference db).

Definition with_inference (db : Database) (t : InferenceTables) : Database :=
  let e := db_enterprise db in
  with_enterprise db (mkEnterpriseTables (et_credentials e) (et_review e) t (et_planes e) (et_tenancy e)).

Definition with_events (db : Database) (l : list InferenceRow) : Database :=
  with_inference db (mkInferenceTables l (it_erasures (inference db))).

Definition with_time (e : InferenceEvent) (t : Time) (offset : Z) : InferenceEvent :=
  mkInferenceEvent (IERequestID e) (IEAPIKeyHash e) (IEModelID e) (IETenantID e) t offset (IEPromptTokens e)
    (IECompletionTokens e) (IEEndpoint e) (IEClientIPPrefix e) (IELatencyMs e) (IEFinishReason e) (IEModelRevision e)
    (IEModelQuantization e) (IENodeID e) (IEInferenceEngine e).

(** The event as its columns give it back. *)
Definition stored (e : InferenceEvent) : InferenceEvent := with_time e (parseTime (Some (fmtTime (IETimestamp e)))) 0.

(** [WHERE seq IS NOT NULL ORDER BY seq ASC], and its last row. *)
Definition chained (rows : list InferenceRow) : list InferenceRow :=
  go_sort (fun a b => default 0 (IRSeq a) <? default 0 (IRSeq b)) (List.filter (fun r => bool_decide (is_Some (IRSeq r))) rows).

(** The next position and the hash before it. *)
Definition chainTail (rows : list InferenceRow) : Z * string :=
  match last (chained rows) with
  | None => (inferenceFirstSeq, inferenceGenesisPrevHash)
  | Some r => (default 0 (IRSeq r) + 1, IRHash r)
  end.

(** The unique index on [request_id] and the one on [seq]. *)
Definition duplicate (requestID : string) (seq : Z) (rows : list InferenceRow) : bool :=
  existsb (fun r => (IERequestID (IREvent r) =? requestID)%string || bool_decide (IRSeq r = Some seq)) rows.

Section InferenceLog.
Context `{E : Env} `{C : Crypto}.

(** The row of an event; rows are never deleted. *)
Definition chainRow (ev : InferenceEvent) (rows : list InferenceRow) : InferenceRow :=
  let '(seq, prevHash) := chainTail rows in
  mkInferenceRow (Z.of_nat (length rows) + 1) (stored ev) (Some seq) prevHash
    (sha256HexOf (canonicalInferenceEventBytes ev seq prevHash)).

(** [INSERT OR IGNORE]. *)
Definition insertEvent (ev : InferenceEvent) (rows : list InferenceRow) : list InferenceRow :=
  if duplicate (IERequestID ev) (fst (chainTail rows)) rows then rows else (rows ++ [chainRow ev rows])%list.

Definition RecordInferenceEvent (event : option InferenceEvent) : M (option Error) :=
  match event with
  | None => cret None
  | Some event =>
      let what := ("registry: record inference event " +:+ IERequestID event)%string in
      let* ev := (if IsZero (IETimestamp event) then let* now := nowUTC in cret (with_time event now 0) else cret event) in
      let* err := attempt (fun e => Wrap what (Wrap "begin" e)) in
      match err with
      | Some e => cret (Some e)
      | None =>
          let* err := attempt (fun e => Wrap what (Wrap "read tail" e)) in
          match err with
          | Some e => cret (Some e)
          | None =>
              let* err := attempt (Wrap what) in
              match err with
              | Some e => cret (Some e)
              | None =>
                  let* r := statement (fun e => Wrap what (Wrap "commit" e))
                              (fun db => inr ((), with_events db (insertEvent ev (events db)))) in
                  cret (errorOf r)
              end
          end
      end
  end.

(** ** Verification *)

Record Verdict_ : Type := mkVerdict { VD_Length : Z; VD_Verified : bool; VD_BreakSeq : Z }.

(** The loop; [prevSeq] is -1 before the first row. *)
Fixpoint verifyRows (prevHash : string) (prevSeq length : Z) (rows : list InferenceRow) : Verdict_ :=
  match rows with
  | [] => mkVerdict length true (-1)
  | r :: rows =>
      let seq := default 0 (IRSeq r) in
      let broken := mkVerdict length false seq in
      if (0 <=? prevSeq) && negb (seq =? prevSeq + 1) then broken
      else if (prevSeq <? 0) && negb (seq =? inferenceFirstSeq) then broken
      else if negb (IRPrevHash r =? prevHash)%string then broken
      else if negb (sha256HexOf (canonicalInferenceEventBytes (IREvent r) seq (IRPrevHash r)) =? IRHash r)%string then broken
      else verifyRows (IRHash r) seq (length + 1) rows
  end.

Definition VerifyInferenceChain : M (Error + Verdict_) :=
  query "registry: verify inference chain" (fun db =>
    inr (verifyRows inferenceGenesisPrevHash (-1) 0 (chained (events db)))).

(** ** Pages *)

Record ListInferenceEventsRequest : Type := mkListRequest {
  LR_APIKeyHash : string; LR_ModelID : string; LR_TenantID : string; LR_After : Time; LR_Before : Time; LR_Limit : Z;
  LR_PageToken : string }.

Definition listLimit (limit : Z) : Z :=
  if limit <=? 0 then defaultInferenceLimit else if maxInferenceLimit <? limit then maxInferenceLimit else limit.

(** The conditions on the columns; times are compared as texts. *)
Definition matchesFilter (req : ListInferenceEventsRequest) (r : InferenceRow) : bool :=
  let e := IREvent r in
  ((LR_APIKeyHash req =? "")%string || (IEAPIKeyHash e =? LR_APIKeyHash req)%string) &&
  ((LR_ModelID req =? "")%string || (IEModelID e =? LR_ModelID req)%string) &&
  ((LR_TenantID req =? "")%string || (IETenantID e =? LR_TenantID req)%string) &&
  (IsZero (LR_After req) || String.ltb (fmtTime (LR_After req)) (fmtTime (IETimestamp e))) &&
  (IsZero (LR_Before req) || String.ltb (fmtTime (IETimestamp e)) (fmtTime (LR_Before req))).

(** [ORDER BY id]: the rows are kept in that order. *)
Definition pageRows (req : ListInferenceEventsRequest) (cursor : option Z) (rows : list InferenceRow) : list InferenceRow :=
  List.filter (fun r => matchesFilter req r && match cursor with Some c => c <? IRID r | None => true end) rows.

(** One row more than the page tells whether another page follows. *)
Definition cutPage (limit : nat) (rows : list InferenceRow) : list InferenceRow * string :=
  let fetched := take (S limit) rows in
  if (limit <? length fetched)%nat
  then (take limit fetched, match fetched !! (limit - 1)%nat with Some r => pretty (IRID r) | None => "" end)
  else (fetched, ""%string).

Definition ListInferenceEvents (req : ListInferenceEventsRequest) : M (Error + (list InferenceRow * string)) :=
  let limit := Z.to_nat (listLimit (LR_Limit req)) in
  let run cursor := query "registry: list inference events" (fun db => inr (cutPage limit (pageRows req cursor (events db)))) in
  if (LR_PageToken req =? "")%string then run None
  else match Atoi (LR_PageToken req) with
       | None => cret (inl (ErrorString "registry: list inference events: invalid page_token"))
       | Some c => run (Some c)
       end.

(** ** Erasure *)

Definition erasedTag (now : Time) : string :=
  let '(y, m, d) := civil (now / Second / 86400) in ("ERASED-" +:+ yearText y +:+ digits 2 m +:+ digits 2 d)%string.

Definition eraseEvent (tag : string) (e : InferenceEvent) : InferenceEvent :=
  mkInferenceEvent (IERequestID e) tag (IEModelID e) (if (IETenantID e =? "")%string then "" else "ERASED") (IETimestamp e)
    (IEOffset e) (IEPromptTokens e) (IECompletionTokens e) (IEEndpoint e) "0.0.0.0/0" (IELatencyMs e) (IEFinishReason e)
    (IEModelRevision e) (IEModelQuantization e) (IENodeID e) (IEInferenceEngine e).

Definition ofSubject (subject : string) (r : InferenceRow) : bool := (IEAPIKeyHash (IREvent r) =? subject)%string.

Definition eraseRow (tag subject : string) (r : InferenceRow) : InferenceRow :=
  if ofSubject subject r then mkInferenceRow (IRID r) (eraseEvent tag (IREvent r)) (IRSeq r) (IRPrevHash r) (IRHash r) else r.

Definition EraseInferenceEventsBySubject (subjectHash : string) : M (Error + Z) :=
  let* now := nowUTC in
  statement (Wrap "registry: erase_inference_events") (fun db =>
    inr (Z.of_nat (length (List.filter (ofSubject subjectHash) (events db))),
         with_events db (map (eraseRow (erasedTag now) subjectHash) (events db)))).

Definition RecordGDPRErasure (log : GDPRErasureLog) : M (option Error) :=
  let* r := statement (Wrap "registry: record_gdpr_erasure") (fun db =>
    inr ((), with_inference db (mkInferenceTables (events db) (it_erasures (inference db) ++ [log])%list))) in
  cret (errorOf r).

(** ** The handlers *)

(** [limit], [after] and [before]: [None] for no parameter or one that does not parse. *)
Definition handleListInferenceAudit (licensed : bool) (req : ListInferenceEventsRequest) : M (Answer (list InferenceRow * string)) :=
  if negb licensed then cret (Refused 402 "license_required")
  else
    let* res := ListInferenceEvents req in
    cret (match res with inl _ => Refused 500 "list_inference_events_failed" | inr p => Answered 200 p end).

(** The position is left out when it is negative. *)
Definition handleVerifyInferenceChain (licensed : bool) : M (Answer (bool * Z * option Z)) :=
  if negb licensed then cret (Refused 402 "license_required")
  else
    let* res := VerifyInferenceChain in
    cret (match res with
          | inl _ => Refused 500 "verify_inference_chain_failed"
          | inr v => Answered 200 (VD_Verified v, VD_Length v, if 0 <=? VD_BreakSeq v then Some (VD_BreakSeq v) else None)
          end).

Definition handleRecordInferenceEvent (internalToken presented : string) (body : Body InferenceEvent) : M (Answer unit) :=
  if negb (internalToken =? "")%string && negb (presented =? internalToken)%string then cret (Refused 401 "unauthorized")
  else match body with
       | Decoded event =>
           let* err := RecordInferenceEvent (Some event) in
           cret (match err with Some _ => Refused 500 "record_inference_event_failed" | None => Answered 204 () end)
       | _ => cret (Refused 400 "bad_request")
       end.

Record erasureRequest : Type := mkErasureRequest { ER_SubjectType : string; ER_SubjectIdentifier : string; ER_Reason : string }.

(** The kind of subject is not looked at. *)
Definition handleGDPRErasure (licensed : bool) (internalToken : string) (ctx : ReqContext) (r : Request)
    (body : Body erasureRequest) : M (Answer (Z * string)) :=
  if negb licensed then cret (Refused 402 "license_required")
  else
    let* admin := requestIsAdmin internalToken r in
    if negb admin then cret (Refused 403 "forbidden")
    else match body with
         | Decoded b =>
             if (ER_SubjectIdentifier b =? "")%string then cret (Refused 400 "bad_request")
             else
               let* res := EraseInferenceEventsBySubject (ER_SubjectIdentifier b) in
               match res with
               | inl _ => cret (Refused 500 "erasure_failed")
               | inr count =>
                   let* now := nowUTC in
                   let actor := actorFromRequest ctx r in
                   let prefix := String.substring 0 8 (ER_SubjectIdentifier b) in
                   ignore (RecordGDPRErasure (mkGDPRErasureLog (ER_SubjectIdentifier b) now actor (ER_Reason b) count "inference_audit")) ;;;
                   AppendAudit (mkAuditEntry actor "gdpr.erasure.completed" prefix
                     [("events_erased", pretty count); ("reason", ER_Reason b); ("erasure_type", "inference_audit")]%string zeroTime) ;;;
                   cret (Answered 200 (count, (prefix +:+ "...")%string))
               end
         | _ => cret (Refused 400 "bad_request")
         end.

(** The log is not read yet. *)
Definition handleGDPRErasureLog (licensed : bool) (internalToken : string) (r : Request) : M (Answer (list GDPRErasureLog)) :=
  if negb licensed then cret (Refused 402 "license_required")
  else
    let* admin := requestIsAdmin internalToken r in
    cret (if negb admin then Refused 403 "forbidden" else Answered 200 []).
End InferenceLog.

(** ** Positions *)

Definition position (r : InferenceRow) : Z := default 0 (IRSeq r).
Definition inChain (r : InferenceRow) : bool := bool_decide (is_Some (IRSeq r)).

Lemma chained_perm rows : chained rows ≡ₚ List.filter inChain rows.
Proof. apply go_sort_perm. Qed.

Lemma chained_sorted rows : StronglySorted (fun a b => position a <= position b) (chained rows).
Proof.
  assert (H : StronglySorted (not_less (fun a b => position a <? position b)) (chained rows)).
  { apply (go_sort_sorted _ (fun _ => True)); [| |by apply Forall_true]; unfold not_less; intros *; rewrite ?Z.ltb_lt, ?Z.ltb_ge; lia. }
  induction H as [|x l _ IH Hx]; constructor; [done|]. eapply Forall_impl; [exact Hx|]. intros y. unfold not_less. by rewrite Z.ltb_ge.
Qed.

(** The next position is after every other. *)
Lemma chainTail_fresh rows r : r ∈ List.filter inChain rows -> position r < fst (chainTail rows).
Proof.
  rewrite <- chained_perm. unfold chainTail. pose proof (chained_sorted rows) as Hs. intros Hr.
  destruct (last (chained rows)) as [l|] eqn:Hl; [|apply last_None in Hl; rewrite Hl in Hr; by apply elem_of_nil in Hr].
  apply last_Some in Hl as (pre & Hpre). rewrite Hpre in Hs, Hr. cbn. fold (position l).
  enough (position r <= position l) by lia. apply elem_of_app in Hr as [Hr|Hr%list_elem_of_singleton]; [|by subst].
  apply StronglySorted_app in Hs as (H & _). apply (H r l); [done|]. by apply list_elem_of_singleton.
Qed.

Lemma chained_snoc rows r seq : IRSeq r = Some seq -> (forall x, x ∈ List.filter inChain rows -> position x < seq) ->
  chained (rows ++ [r]) = (chained rows ++ [r])%list.
Proof.
  intros Hs Hx. unfold chained. rewrite List.filter_app. cbn [List.filter]. rewrite bool_decide_eq_true_2 by (rewrite Hs; eauto).
  apply go_sort_snoc, Forall_forall. intros y Hy. apply Z.ltb_ge. rewrite Hs. apply Hx in Hy. unfold position in Hy. cbn. lia.
Qed.

(** ** A chain that verifies *)

Section Chain.
Context `{C : Crypto}.

Definition rowHash (r : InferenceRow) : string :=
  sha256HexOf (canonicalInferenceEventBytes (IREvent r) (position r) (IRPrevHash r)).

Definition nextSeq (p : Z) : Z := if p <? 0 then inferenceFirstSeq else p + 1.

Fixpoint linked (h : string) (p : Z) (rows : list InferenceRow) : Prop :=
  match rows with
  | [] => True
  | r :: rows => position r = nextSeq p /\ IRPrevHash r = h /\ IRHash r = rowHash r /\ linked (IRHash r) (position r) rows
  end.

(** The hash and the position the next row continues from. *)
Fixpoint endOf (h : string) (p : Z) (rows : list InferenceRow) : string * Z :=
  match rows with [] => (h, p) | r :: rows => endOf (IRHash r) (position r) rows end.

Definition chain_ok (db : Database) : Prop := linked inferenceGenesisPrevHash (-1) (chained (events db)).

Lemma linked_app l : forall h p r, linked h p (l ++ r) <-> linked h p l /\ linked (fst (endOf h p l)) (snd (endOf h p l)) r.
Proof. induction l as [|x l IH]; intros h p r; cbn; [tauto|]. rewrite IH. tauto. Qed.

Lemma verifyRows_step h p n r rows :
  verifyRows h p n (r :: rows) =
  if bool_decide (position r = nextSeq p) && (IRPrevHash r =? h)%string && (rowHash r =? IRHash r)%string
  then verifyRows (IRHash r) (position r) (n + 1) rows else mkVerdict n false (position r).
Proof.
  cbn [verifyRows]. fold (position r). fold (rowHash r). unfold nextSeq, inferenceFirstSeq.
  assert (Hq : forall q, (position r =? q) = bool_decide (position r = q)).
  { intros q. case_bool_decide; [by apply Z.eqb_eq|by apply Z.eqb_neq]. }
  destruct (Z.ltb_spec p 0), (Z.leb_spec 0 p); try lia; cbn [andb negb]; rewrite Hq;
    destruct (bool_decide _), (IRPrevHash r =? h)%string, (rowHash r =? IRHash r)%string; reflexivity.
Qed.

(** The loop of the verification on a chain that continues with other rows. *)
Lemma verifyRows_linked l : forall h p n rows, linked h p l ->
  verifyRows h p n (l ++ rows) = verifyRows (fst (endOf h p l)) (snd (endOf h p l)) (n + Z.of_nat (length l)) rows.
Proof.
  induction l as [|r l IH]; intros h p n rows H; cbn [app length endOf fst snd]; [f_equal; lia|]. destruct H as (H1 & H2 & H3 & H4).
  rewrite verifyRows_step, bool_decide_eq_true_2, H2, H3, !String.eqb_refl by done. cbn [andb]. rewrite <- H3, IH by done. f_equal. lia.
Qed.

Lemma linked_verifies h p n l : linked h p l -> verifyRows h p n l = mkVerdict (n + Z.of_nat (length l)) true (-1).
Proof. intros H. rewrite <- (app_nil_r l), verifyRows_linked by done. by rewrite app_nil_r. Qed.

(** A verdict without a break is that of a linked chain. *)
Lemma verified_linked l : forall h p n, VD_Verified (verifyRows h p n l) = true -> linked h p l.
Proof.
  induction l as [|r l IH]; intros h p n; [done|]. rewrite verifyRows_step.
  case_bool_decide as H1; [|done]. destruct (String.eqb_spec (IRPrevHash r) h) as [H2|]; [|done].
  destruct (String.eqb_spec (rowHash r) (IRHash r)) as [H3|]; [|done]. cbn [andb]. intros H%IH. by repeat split.
Qed.

Lemma endOf_snoc l r : forall h p, endOf h p (l ++ [r]) = (IRHash r, position r).
Proof. induction l as [|x l IH]; intros h p; cbn; [done|apply IH]. Qed.

Lemma endOf_tail l : linked inferenceGenesisPrevHash (-1) l ->
  match last l with None => (inferenceFirstSeq, inferenceGenesisPrevHash) | Some r => (position r + 1, IRHash r) end =
  (nextSeq (snd (endOf inferenceGenesisPrevHash (-1) l)), fst (endOf inferenceGenesisPrevHash (-1) l)).
Proof.
  destruct l as [|r l _] using rev_ind; [done|]. rewrite last_snoc. intros H.
  rewrite endOf_snoc. cbn [fst snd]. f_equal. unfold nextSeq. destruct (Z.ltb_spec (position r) 0); [|done]. exfalso.
  assert (Hp : forall l h p, -1 <= p -> linked h p l -> Forall (fun x => 1 <= position x) l).
  { clear. induction l as [|x l IH]; intros h p Hp H; [done|]. destruct H as (H1 & _ & _ & H). unfold nextSeq, inferenceFirstSeq in H1.
    destruct (Z.ltb_spec p 0); constructor; [lia| |lia|]; (eapply IH; [|done]; lia). }
  apply Hp in H; [|lia]. rewrite Forall_app, Forall_singleton in H. lia.
Qed.

(** An event whose time is read back as it was hashed. *)
Definition utcEvent (e : InferenceEvent) : Prop := IEOffset e = 0 /\ fourDigitYear (IETimestamp e).

Lemma stored_utc e : utcEvent e -> stored e = e.
Proof. intros [Ho Hy]. unfold stored. rewrite parseTime_stored by done. destruct e. cbn in *. by subst. Qed.

Lemma insertEvent_ok ev rows : utcEvent ev -> linked inferenceGenesisPrevHash (-1) (chained rows) ->
  linked inferenceGenesisPrevHash (-1) (chained (insertEvent ev rows)).
Proof.
  intros Hu H. unfold insertEvent. destruct (duplicate _ _ _); [done|].
  pose proof (chainTail_fresh rows) as Hf. unfold chainRow. pose proof (endOf_tail _ H) as He. unfold chainTail in *.
  set (t := match last (chained rows) with None => _ | Some r => _ end) in *.
  assert (Ht : t = (nextSeq (snd (endOf inferenceGenesisPrevHash (-1) (chained rows))), fst (endOf inferenceGenesisPrevHash (-1) (chained rows)))) by exact He.
  destruct t as [seq prev]. rewrite (chained_snoc rows _ seq); [|done|exact Hf]. apply linked_app. split; [done|].
  injection Ht as -> ->. cbn. unfold rowHash. cbn. by rewrite stored_utc.
Qed.
(** What is recorded is appended to the chain, whether it verifies or not. *)
Lemma insertEvent_extends ev rows : exists more, chained (insertEvent ev rows) = (chained rows ++ more)%list.
Proof.
  unfold insertEvent. destruct (duplicate _ _ _); [exists []; by rewrite app_nil_r|].
  pose proof (chainTail_fresh rows) as Hf. unfold chainRow. destruct (chainTail rows) as [seq prev].
  eexists. apply (chained_snoc rows _ seq); [done|exact Hf].
Qed.
End Chain.

(** ** Recording *)

Section Recording.
Context `{E : Env} `{C : Crypto}.

(** The event that is recorded: an event without a time gets the clock's. *)
Definition datedAs (e ev : InferenceEvent) : Prop :=
  ev = e \/ IsZero (IETimestamp e) = true /\ exists t, ev = with_time e (env_now t) 0.

Lemma RecordInferenceEvent_run event w r w' :
  RecordInferenceEvent (Some event) w = (r, w') ->
  outside_same w w' /\
  exists ev, datedAs event ev /\
    match r with
    | None => w_db w' = with_events (w_db w) (insertEvent ev (events (w_db w)))
    | Some _ => w_db w' = w_db w
    end /\ (HealthyDB E -> r = None).
Proof.
  unfold RecordInferenceEvent. intros H. run_step H.
  assert (Hev : w_db w0 = w_db w /\ outside_same w w0 /\ datedAs event r0).
  { unfold datedAs. destruct (IsZero (IETimestamp event)).
    - run_step Hrun. injection Hrun0 as <- <-. injection Hrun as <- <-. split; [done|]. split; [done|]. right. eauto.
    - injection Hrun as <- <-. split; [done|]. split; [done|]. by left. }
  destruct Hev as (Hd & Ho & Hdt). clear Hrun. run_step H. apply attempt_spec in Hrun as (Hd1 & Ho1 & Hh1).
  destruct r1 as [e|].
  { injection H as <- <-. split; [by etrans|]. exists r0. split_and!; [done|congruence|]. intros Hh. by specialize (Hh1 Hh). }
  run_step H. apply attempt_spec in Hrun as (Hd2 & Ho2 & Hh2). destruct r1 as [e|].
  { injection H as <- <-. split; [by repeat (etrans; [done|])|]. exists r0. split_and!; [done|congruence|]. intros Hh. by specialize (Hh2 Hh). }
  run_step H. apply attempt_spec in Hrun as (Hd3 & Ho3 & Hh3). destruct r1 as [e|].
  { injection H as <- <-. split; [by repeat (etrans; [done|])|]. exists r0. split_and!; [done|congruence|]. intros Hh. by specialize (Hh3 Hh). }
  run_step H. pose proof Hrun as Hst. apply statement_spec in Hrun as (Ho4 & Hr). injection H as <- <-.
  split; [by repeat (etrans; [done|])|]. exists r0. split; [done|].
  assert (Hdb : w_db w3 = w_db w) by congruence. rewrite Hdb in Hr. destruct r1 as [e|[]]; cbn [errorOf].
  - split; [by destruct Hr as [-> _]|]. intros Hh. exfalso. destruct Hr as [_ [Hx|Hx]]; [by rewrite env_db_healthy in Hx|done].
  - injection Hr as Hr. by rewrite <- Hr.
Qed.

(** The calls of the gateway, one after the other. *)
Definition record (event : option InferenceEvent) : M unit := ignore (RecordInferenceEvent event).

Lemma record_maintains (I : list InferenceRow -> Prop) event :
  (forall e ev rows, event = Some e -> datedAs e ev -> I rows -> I (insertEvent ev rows)) ->
  maintains (fun db => I (events db)) (record event).
Proof.
  intros HI. apply maintains_ignore. destruct event as [e|]; [|apply maintains_ret].
  intros w Hw. destruct (RecordInferenceEvent (Some e) w) as [r w'] eqn:H. apply RecordInferenceEvent_run in H as (_ & ev & Hd & Hr & _).
  cbn. destruct r; rewrite Hr; [done|]. by eapply HI.
Qed.

(** (C13) The chain of inferences verifies: from a chain that verifies, whatever events are
    recorded and whatever statements fail in between, the verification finds every
    chained row consistent, as long as the events carry a UTC time (or none). *)
Theorem inference_chain_verifies events_ w :
  (forall t, fourDigitYear (env_now t)) -> Forall (fun e => forall x, e = Some x -> utcEvent x) events_ ->
  chain_ok (w_db w) ->
  let w' := snd (runAll record events_ w) in
  chain_ok (w_db w') /\
  (env_db (w_tick w') = None ->
   fst (VerifyInferenceChain w') = inr (mkVerdict (Z.of_nat (length (chained (events (w_db w'))))) true (-1))).
Proof.
  intros Hnow Hutc Hok w'. assert (Hok' : chain_ok (w_db w')).
  { revert w Hok w'. induction Hutc as [|e l He _ IH]; intros w Hok w'; [done|]. unfold w'. cbn [runAll]. rewrite cbind_run. apply IH.
    revert Hok. apply (record_maintains (fun rows => linked inferenceGenesisPrevHash (-1) (chained rows))).
    intros x ev rows -> Hd. apply insertEvent_ok. destruct Hd as [->|(_ & t & ->)]; [by apply He|]. split; [done|apply Hnow]. }
  split; [done|]. intros Hdb. destruct (VerifyInferenceChain w') as [v w2] eqn:Hv. apply query_spec in Hv as (_ & _ & Hv).
  rewrite Hdb in Hv. cbn [fst]. rewrite Hv, linked_verifies by exact Hok'. done.
Qed.

(** ** Once each *)

Definition withID (id : string) (rows : list InferenceRow) : list InferenceRow :=
  List.filter (fun r => (IERequestID (IREvent r) =? id)%string) rows.

Lemma insertEvent_count id ev rows : (length (withID id rows) <= 1)%nat ->
  length (withID id (insertEvent ev rows)) =
  if (IERequestID ev =? id)%string then 1%nat else length (withID id rows).
Proof.
  intros Hle. unfold insertEvent. destruct (duplicate (IERequestID ev) (fst (chainTail rows)) rows) eqn:Hd.
  - unfold duplicate in Hd. apply existsb_exists in Hd as (r & Hr & Hx). apply orb_true_iff in Hx as [Hx|Hx].
    + destruct (String.eqb_spec (IERequestID ev) id) as [<-|]; [|done]. unfold withID in *.
      destruct (List.filter _ rows) as [|a l] eqn:Hf; [|cbn in *; lia].
      assert (Hin : In r []) by (rewrite <- Hf; by apply filter_In). destruct Hin.
    + exfalso. apply bool_decide_eq_true in Hx. assert (Hin : r ∈ List.filter inChain rows).
      { apply list_elem_of_In, filter_In. split; [done|]. unfold inChain. rewrite Hx. by apply bool_decide_eq_true. }
      apply chainTail_fresh in Hin. unfold position in Hin. rewrite Hx in Hin. cbn in Hin. lia.
  - unfold withID. rewrite List.filter_app, length_app.
    assert (Hi : IERequestID (IREvent (chainRow ev rows)) = IERequestID ev) by (unfold chainRow; by destruct (chainTail rows)).
    cbn [List.filter]. rewrite Hi. destruct (String.eqb_spec (IERequestID ev) id) as [<-|]; cbn [length]; [|lia].
    enough (length (withID (IERequestID ev) rows) = 0%nat) by (unfold withID in *; lia).
    unfold withID. destruct (List.filter _ rows) as [|a l] eqn:Hf; [done|]. exfalso.
    assert (Hin : In a (a :: l)) by (by left). rewrite <- Hf in Hin. apply filter_In in Hin as [Hin Ha].
    unfold duplicate in Hd. apply not_true_iff_false in Hd. destruct Hd. apply existsb_exists. exists a. split; [done|]. by rewrite Ha.
Qed.

(** Deliveries are recorded exactly once: after any sequence of deliveries to a
    database that answers, in which requests repeat in any way, each request that was
    delivered has one row and no other request has any. *)
Theorem recorded_once `{!HealthyDB E} deliveries id w :
  events (w_db w) = [] ->
  length (withID id (events (w_db (snd (runAll record (map Some deliveries) w))))) =
  if bool_decide (id ∈ map IERequestID deliveries) then 1%nat else 0%nat.
Proof.
  assert (Hg : forall ds w, (length (withID id (events (w_db w))) <= 1)%nat ->
    length (withID id (events (w_db (snd (runAll record (map Some ds) w))))) =
    if bool_decide (id ∈ map IERequestID ds) then 1%nat else length (withID id (events (w_db w)))).
  { clear deliveries w. induction ds as [|e ds IH]; intros w Hw.
    - by rewrite bool_decide_eq_false_2 by (by apply not_elem_of_nil).
    - cbn [map runAll]. rewrite cbind_run.
      assert (Hs : snd (record (Some e) w) = snd (RecordInferenceEvent (Some e) w)) by (unfold record, ignore; by rewrite cbind_run).
      rewrite Hs. destruct (RecordInferenceEvent (Some e) w) as [r w1] eqn:H. apply RecordInferenceEvent_run in H as (_ & ev & Hd & Hr & Hh).
      rewrite (Hh _) in Hr. cbn [snd].
      assert (Hid : IERequestID ev = IERequestID e) by (by destruct Hd as [->|(_ & t & ->)]).
      assert (Hc : length (withID id (events (w_db w1))) = if (IERequestID e =? id)%string then 1%nat else length (withID id (events (w_db w)))).
      { rewrite Hr, <- Hid. cbn. by apply insertEvent_count. }
      rewrite IH by (rewrite Hc; case_match; lia). rewrite Hc.
      destruct (String.eqb_spec (IERequestID e) id) as [<-|Hne].
      + rewrite (bool_decide_eq_true_2 (_ ∈ _ :: _)) by (by left). by case_bool_decide.
      + repeat case_bool_decide; try done; set_solver. }
  intros He. rewrite Hg; rewrite He; cbn; [done|lia].
Qed.
End Recording.

(** ** What the digest protects *)

Section Tampering.
Context `{C : Crypto}.

(** A digest: 32 bytes in hexadecimal. *)
Class HexDigest : Prop := { sha256_hex : forall x, digest_hex (sha256HexOf x) }.

Lemma bigEndian_length n v : String.length (bigEndian n v) = n.
Proof. induction n as [|n IH]; cbn; [done|]. by rewrite IH. Qed.

Lemma bigEndian_inj n v v' : 0 <= v < 256 ^ Z.of_nat n -> 0 <= v' < 256 ^ Z.of_nat n -> bigEndian n v = bigEndian n v' -> v = v'.
Proof.
  assert (Hmod : forall n v, bigEndian n v = bigEndian n (v mod 256 ^ Z.of_nat n)).
  { clear. intros n. assert (H : forall m v, (n <= m)%nat -> bigEndian n v = bigEndian n (v mod 256 ^ Z.of_nat m)).
    { induction n as [|n IH]; intros m v Hm; [done|]. cbn [bigEndian]. f_equal; [|by apply IH; lia]. f_equal.
      replace (Z.of_nat m) with (Z.of_nat n + (1 + (Z.of_nat m - Z.of_nat n - 1))) by lia.
      rewrite Z.pow_add_r by lia. set (a := 256 ^ Z.of_nat n). assert (0 < a) by (apply Z.pow_pos_nonneg; lia).
      rewrite Z.pow_add_r by lia. set (b := 256 ^ (Z.of_nat m - Z.of_nat n - 1)). assert (0 < b) by (apply Z.pow_pos_nonneg; lia).
      rewrite Z.pow_1_r. assert (Hx : v mod (a * (256 * b)) / a = v / a mod (256 * b)).
      { rewrite Z.rem_mul_r, (Z.mul_comm a), Z.div_add by lia. rewrite Z.div_small by (apply Z.mod_pos_bound; lia). lia. }
      rewrite Hx, (Z.rem_mul_r (v / a) 256 b), (Z.mul_comm 256), Z.mod_add, Z.mod_mod by lia. done. }
    intros v. by apply H. }
  revert v v'. induction n as [|n IH]; intros v v' Hv Hv' H; [cbn in *; lia|].
  rewrite Nat2Z.inj_succ, Z.pow_succ_r in Hv, Hv' by lia. set (a := 256 ^ Z.of_nat n) in *.
  assert (Ha : 0 < a) by (apply Z.pow_pos_nonneg; lia). cbn [bigEndian] in H. fold a in H. injection H as H1 H2.
  assert (Hq : forall x, 0 <= x < 256 * a -> 0 <= x / a < 256).
  { intros x Hx. split; [apply Z.div_pos; lia|apply Z.div_lt_upper_bound; lia]. }
  apply byteOf_inj in H1; [|apply Z.mod_pos_bound; lia..]. rewrite !Z.mod_small in H1 by (by apply Hq).
  rewrite (Hmod n v), (Hmod n v') in H2. fold a in H2. apply IH in H2; [|apply Z.mod_pos_bound; lia..].
  rewrite (Z.div_mod v a), (Z.div_mod v' a) by lia. lia.
Qed.

Definition len32 (s : string) : Prop := Z.of_nat (String.length s) < 2 ^ 32.

Lemma writeStr_inj a b r r' : len32 a -> len32 b -> writeStr a +:+ r = writeStr b +:+ r' -> a = b /\ r = r'.
Proof.
  unfold len32, writeStr. intros Ha Hb H. rewrite !app_string_assoc in H.
  apply app_string_inj in H as [H1 H]; [|by rewrite !bigEndian_length]. rewrite !Z.mod_small in H1 by lia.
  apply bigEndian_inj in H1; [|change (256 ^ Z.of_nat 4) with (2 ^ 32); lia..].
  apply app_string_inj; [lia|done].
Qed.

(** What the canonical bytes of a row hold besides the hash before it. *)
Definition content (r : InferenceRow) : Z * list string :=
  let e := IREvent r in
  (position r, [IERequestID e; IEAPIKeyHash e; IEModelID e; IETenantID e; fmtRFC3339 (IETimestamp e) (IEOffset e); IEEndpoint e;
                IEFinishReason e]).

Definition row_ok (r : InferenceRow) : Prop := 0 <= position r < 2 ^ 63 /\ Forall len32 (snd (content r)).

Definition preimageOf (r : InferenceRow) : string := canonicalInferenceEventBytes (IREvent r) (position r) (IRPrevHash r).

Lemma hexPrefix_encode s : hexPrefix (hexEncode s) = s.
Proof. induction s as [|c s IH]; [done|]. cbn [hexEncode hexPrefix]. destruct (hex_byte c) as (x & y & -> & -> & ->). by rewrite IH. Qed.

Lemma writePrevHash_digest d : String.length d = 32%nat -> writePrevHash (hexEncode d) = d.
Proof. intros Hd. unfold writePrevHash. rewrite hexPrefix_encode. destruct d; [done|]. reflexivity. Qed.

Lemma preimageOf_inj r r' : digest_hex (IRPrevHash r) -> digest_hex (IRPrevHash r') -> row_ok r -> row_ok r' ->
  preimageOf r = preimageOf r' -> IRPrevHash r = IRPrevHash r' /\ content r = content r'.
Proof.
  intros (d & Hd & Ed) (d' & Hd' & Ed') [Hp Hl] [Hp' Hl'] H. unfold preimageOf, canonicalInferenceEventBytes in H.
  rewrite Ed, Ed', !writePrevHash_digest in H by done. apply app_string_inj in H as [H0 H]; [|congruence].
  apply app_string_inj in H as [H1 H]; [|by rewrite !bigEndian_length]. rewrite !Z.mod_small in H1 by lia.
  apply bigEndian_inj in H1; [|change (256 ^ Z.of_nat 8) with (2 ^ 64); lia..].
  unfold content in Hl, Hl' |- *. cbn [snd] in Hl, Hl'. repeat (apply Forall_cons in Hl as [? Hl]). repeat (apply Forall_cons in Hl' as [? Hl']).
  do 6 (apply writeStr_inj in H as [? H]; [|done..]).
  apply (f_equal (fun s => s +:+ ""%string)) in H. apply writeStr_inj in H as [? _]; [|done..]. split; [congruence|]. congruence.
Qed.

Lemma endOf_digest `{!HexDigest} l : forall h p, digest_hex h -> linked h p l -> digest_hex (fst (endOf h p l)).
Proof.
  induction l as [|r l IH]; intros h p Hh Hk; [done|]. destruct Hk as (_ & _ & H3 & Hl). cbn [endOf]. eapply IH; [|done].
  rewrite H3. apply sha256_hex.
Qed.

Lemma linked_content `{!HexDigest} l : forall l',
  linked inferenceGenesisPrevHash (-1) l -> linked inferenceGenesisPrevHash (-1) l' -> Forall row_ok l -> Forall row_ok l' ->
  length l = length l' -> fst (endOf inferenceGenesisPrevHash (-1) l) = fst (endOf inferenceGenesisPrevHash (-1) l') ->
  (forall r r', r ∈ l -> r' ∈ l' -> sha256HexOf (preimageOf r) = sha256HexOf (preimageOf r') -> preimageOf r = preimageOf r') ->
  map content l = map content l'.
Proof.
  assert (Hg : digest_hex inferenceGenesisPrevHash) by (exists zeros32; split; reflexivity).
  induction l as [|r l IH] using rev_ind; intros l' Hl Hl' Ho Ho' Hn He Hc; [by destruct l'|].
  destruct l' as [|r' l' _] using rev_ind; [rewrite length_app in Hn; cbn in Hn; lia|]. rewrite !length_app in Hn. cbn in Hn.
  rewrite !endOf_snoc in He. cbn in He. apply linked_app in Hl as [Hl (_ & Hp & Hh & _)]. apply linked_app in Hl' as [Hl' (_ & Hp' & Hh' & _)].
  apply Forall_app in Ho as [Ho Hr%Forall_inv]. apply Forall_app in Ho' as [Ho' Hr'%Forall_inv].
  assert (Hpre : preimageOf r = preimageOf r').
  { apply Hc; [set_solver..|]. change (rowHash r = rowHash r'). congruence. }
  apply preimageOf_inj in Hpre as [Hpp Hcc]; [|rewrite Hp; by apply endOf_digest|rewrite Hp'; by apply endOf_digest|done..].
  rewrite !map_app. cbn [map]. rewrite Hcc. f_equal. apply IH; [done..|lia|congruence|]. intros x y Hx Hy. apply Hc; set_solver.
Qed.

(** (C14) The inference chain is tamper-evident: two logs that verify, with as many rows
    and the same last hash, hold the same requests in the same order with the same key,
    model, tenant, time to the second, endpoint and outcome, unless SHA-256 collides on
    the bytes of two of their rows. *)
Theorem inference_tamper_evident `{E : Env} `{!HexDigest} w w' v v' :
  fst (VerifyInferenceChain w) = inr v -> fst (VerifyInferenceChain w') = inr v' ->
  VD_Verified v = true -> VD_Verified v' = true -> VD_Length v = VD_Length v' ->
  snd (chainTail (events (w_db w))) = snd (chainTail (events (w_db w'))) ->
  Forall row_ok (events (w_db w)) -> Forall row_ok (events (w_db w')) ->
  (forall r r', r ∈ events (w_db w) -> r' ∈ events (w_db w') -> sha256HexOf (preimageOf r) = sha256HexOf (preimageOf r') ->
     preimageOf r = preimageOf r') ->
  map content (chained (events (w_db w))) = map content (chained (events (w_db w'))).
Proof.
  assert (Hv : forall x u, fst (VerifyInferenceChain x) = inr u -> VD_Verified u = true ->
    linked inferenceGenesisPrevHash (-1) (chained (events (w_db x))) /\ VD_Length u = Z.of_nat (length (chained (events (w_db x))))).
  { intros x u. destruct (VerifyInferenceChain x) as [z y] eqn:Hq. apply query_spec in Hq as (_ & _ & Hq). cbn [fst]. intros -> Hu.
    destruct (env_db _); [done|]. injection Hq as ->. apply verified_linked in Hu as Hl. split; [done|]. by rewrite linked_verifies. }
  assert (Hsub : forall x r, r ∈ chained (events (w_db x)) -> r ∈ events (w_db x)).
  { intros x r. rewrite chained_perm. intros [? _]%list_elem_of_In%filter_In. by apply list_elem_of_In. }
  intros H1 H2 V1 V2 Hlen Ht Ho Ho' Hc. apply Hv in H1 as [L1 N1]; [|done]. apply Hv in H2 as [L2 N2]; [|done].
  apply linked_content; [done|done| | |lia| |].
  - rewrite Forall_forall in Ho |- *. intros r Hr. by apply Ho, Hsub.
  - rewrite Forall_forall in Ho' |- *. intros r Hr. by apply Ho', Hsub.
  - pose proof (endOf_tail _ L1) as E1. pose proof (endOf_tail _ L2) as E2. apply (f_equal snd) in E1, E2. cbn [snd] in E1, E2.
    rewrite <- E1, <- E2. exact Ht.
  - intros r r' Hr Hr'. by apply Hc; apply Hsub.
Qed.

(** Token counts, the client's address, the latency and the engine are outside the
    digest: any change of them goes unnoticed. *)
Definition retally (f : InferenceEvent -> Z * Z) (r : InferenceRow) : InferenceRow :=
  let e := IREvent r in
  mkInferenceRow (IRID r) (mkInferenceEvent (IERequestID e) (IEAPIKeyHash e) (IEModelID e) (IETenantID e) (IETimestamp e) (IEOffset e)
    (fst (f e)) (snd (f e)) (IEEndpoint e) (IEClientIPPrefix e) (IELatencyMs e) (IEFinishReason e) (IEModelRevision e)
    (IEModelQuantization e) (IENodeID e) (IEInferenceEngine e)) (IRSeq r) (IRPrevHash r) (IRHash r).

Lemma tokens_unprotected f l : forall h p n, verifyRows h p n (map (retally f) l) = verifyRows h p n l.
Proof.
  induction l as [|r l IH]; intros h p n; [done|]. cbn [map]. rewrite !verifyRows_step.
  change (position (retally f r)) with (position r). change (rowHash (retally f r)) with (rowHash r). cbn [retally IRPrevHash IRHash]. by rewrite IH.
Qed.
End Tampering.

(** ** Erasure *)

Section Erasure.
Context `{E : Env} `{C : Crypto}.

Lemma eraseRow_seq tag subject r : IRSeq (eraseRow tag subject r) = IRSeq r.
Proof. unfold eraseRow. by destruct (ofSubject subject r). Qed.

Lemma eraseRow_other tag subject r : ofSubject subject r = false -> eraseRow tag subject r = r.
Proof. unfold eraseRow. by intros ->. Qed.

Lemma chained_erase tag subject rows : chained (map (eraseRow tag subject) rows) = map (eraseRow tag subject) (chained rows).
Proof.
  unfold chained. set (less := fun a b => default 0 (IRSeq a) <? default 0 (IRSeq b)).
  rewrite <- (go_sort_map (eraseRow tag subject) less less) by (intros x y; unfold less; by rewrite !eraseRow_seq). f_equal.
  induction rows as [|r rows IH]; [done|]. cbn [map List.filter]. rewrite eraseRow_seq, IH. by destruct (bool_decide _).
Qed.

(** What an erasure leaves of a row. *)
Definition erasedAs (tag subject : string) (r r' : InferenceRow) : Prop :=
  IRID r' = IRID r /\ IRSeq r' = IRSeq r /\ IRPrevHash r' = IRPrevHash r /\ IRHash r' = IRHash r /\
  if ofSubject subject r
  then IEAPIKeyHash (IREvent r') = tag /\ IEClientIPPrefix (IREvent r') = "0.0.0.0/0"%string /\
       IETenantID (IREvent r') = (if (IETenantID (IREvent r) =? "")%string then "" else "ERASED")%string
  else IREvent r' = IREvent r.

Lemma eraseRow_spec tag subject r : erasedAs tag subject r (eraseRow tag subject r).
Proof.
  unfold erasedAs, eraseRow. destruct (ofSubject subject r); cbn; [|done]. by split_and!.
Qed.

(** The verification of a chain that begins with the erased rows. *)
Lemma erased_verdict tag subject pre r post :
  linked inferenceGenesisPrevHash (-1) (pre ++ r :: post) ->
  Forall (fun x => ofSubject subject x = false) pre -> ofSubject subject r = true ->
  rowHash (eraseRow tag subject r) ≠ rowHash r ->
  forall more, verifyRows inferenceGenesisPrevHash (-1) 0 (map (eraseRow tag subject) (pre ++ r :: post) ++ more) =
    mkVerdict (Z.of_nat (length pre)) false (position r).
Proof.
  intros [Hl (_ & _ & Hh & _)]%linked_app Hpre Hr Hne more.
  assert (Hp : map (eraseRow tag subject) pre = pre).
  { clear -Hpre. induction Hpre as [|x l Hx _ IH]; cbn [map]; [done|]. by rewrite eraseRow_other, IH. }
  rewrite map_app. cbn [map]. rewrite Hp, <- app_assoc, <- app_comm_cons, verifyRows_linked, verifyRows_step by done.
  assert (Hhash : (rowHash (eraseRow tag subject r) =? IRHash (eraseRow tag subject r))%string = false).
  { apply String.eqb_neq. unfold eraseRow at 2. rewrite Hr. cbn. rewrite Hh. apply Hne. }
  rewrite Hhash, andb_false_r. unfold position. by rewrite eraseRow_seq.
Qed.

Lemma records_extend later w : exists more, chained (events (w_db (snd (runAll record later w)))) = (chained (events (w_db w)) ++ more)%list.
Proof.
  revert w. induction later as [|e later IH]; intros w; [exists []; by rewrite app_nil_r|]. cbn [runAll]. rewrite cbind_run.
  destruct (IH (snd (record e w))) as (m2 & H2).
  assert (H1 : exists m1, chained (events (w_db (snd (record e w)))) = (chained (events (w_db w)) ++ m1)%list).
  { apply (record_maintains (fun rows => exists m1, chained rows = (chained (events (w_db w)) ++ m1)%list)); [|exists []; by rewrite app_nil_r].
    intros _ ev rows _ _ (m & Hm). destruct (insertEvent_extends ev rows) as (m' & Hm'). exists (m ++ m')%list. by rewrite Hm', Hm, app_assoc. }
  destruct H1 as (m1 & H1). exists (m1 ++ m2)%list. by rewrite H2, H1, app_assoc.
Qed.

(** (C40) An erasure ends the verification: when a subject with a row in a chain that
    verifies is erased, the call answers the number of its rows; in each of them the
    key, the client address and a tenant that is not empty are overwritten and the hashes are kept, and
    every other row is as it was. Whatever is recorded afterwards, and whatever
    statements fail, a verification that the database answers then fails at the first
    row of the subject, unless SHA-256 does not tell that row from the erased one. *)
Theorem erasure_breaks_chain subject pre r post n w w' later :
  chain_ok (w_db w) -> chained (events (w_db w)) = (pre ++ r :: post)%list ->
  Forall (fun x => ofSubject subject x = false) pre -> ofSubject subject r = true ->
  let tag := erasedTag (env_now (w_tick w)) in
  rowHash (eraseRow tag subject r) ≠ rowHash r ->
  EraseInferenceEventsBySubject subject w = (inr n, w') ->
  let w'' := snd (runAll record later w') in
  n = Z.of_nat (length (List.filter (ofSubject subject) (events (w_db w)))) /\
  Forall2 (erasedAs tag subject) (events (w_db w)) (events (w_db w')) /\
  (env_db (w_tick w'') = None ->
   fst (VerifyInferenceChain w'') = inr (mkVerdict (Z.of_nat (length pre)) false (position r))).
Proof.
  intros Hok Hch Hpre Hr tag Hne H w''. unfold EraseInferenceEventsBySubject in H. run_step H. injection Hrun as <- <-.
  apply statement_spec in H as [_ H]. cbn [w_db] in H. fold tag in H. injection H as <- Hdb. split; [done|].
  assert (Hev : events (w_db w') = map (eraseRow tag subject) (events (w_db w))) by (by rewrite <- Hdb).
  split. { rewrite Hev. clear. induction (events (w_db w)) as [|x l IH]; constructor; [apply eraseRow_spec|exact IH]. }
  intros Hq. destruct (VerifyInferenceChain w'') as [v w2] eqn:Hv. apply query_spec in Hv as (_ & _ & Hv). rewrite Hq in Hv. cbn [fst]. rewrite Hv. f_equal.
  destruct (records_extend later w') as (more & Hmore). fold w'' in Hmore. rewrite Hmore, Hev, chained_erase, Hch.
  unfold chain_ok in Hok. rewrite Hch in Hok. by apply erased_verdict.
Qed.
End Erasure.

(** ** Pages *)

Section Pages.
Context `{E : Env} `{!HealthyDB E}.

Lemma digitsFrom_pretty x : forall s, digitsFrom 0 (pretty_N_go x s) = digitsFrom (Z.of_N x) s.
Proof.
  induction (N.lt_wf_0 x) as [x _ IH]. intros s. destruct (decide (x = 0%N)) as [->|Hx]; [by rewrite pretty_N_go_0|].
  rewrite pretty_N_go_step by lia. rewrite IH by (apply N.div_lt; lia). cbn [digitsFrom].
  assert (Hd : Z.of_N (N_of_ascii (pretty_N_char (x `mod` 10))) - 48 = Z.of_N (x `mod` 10)).
  { pose proof (N.mod_lt x 10 ltac:(lia)) as Hm. revert Hm. generalize (x `mod` 10)%N. intros k Hk.
    assert (Hall : forallb (fun n => Z.of_N (N_of_ascii (pretty_N_char (N.of_nat n))) - 48 =? Z.of_nat n) (seq 0 10) = true)
      by (vm_compute; reflexivity).
    rewrite forallb_forall in Hall. specialize (Hall (N.to_nat k)). rewrite in_seq, N2Nat.id, Z.eqb_eq in Hall. rewrite Hall; lia. }
  rewrite Hd. assert (Hr : 0 <= Z.of_N (x `mod` 10) <= 9) 
    by (pose proof (N.mod_lt x 10 ltac:(lia)) as Hm; clear -Hm; revert Hm; generalize (x `mod` 10)%N; lia).
  destruct (Z.leb_spec 0 (Z.of_N (x `mod` 10))), (Z.leb_spec (Z.of_N (x `mod` 10)) 9); try lia. cbn [andb].
  f_equal. rewrite N2Z.inj_div, N2Z.inj_mod. change (Z.of_N 10) with 10. rewrite (Z.div_mod (Z.of_N x) 10) at 3 by lia. lia.
Qed.

(** The cursor is read back as it was written. *)
Lemma Atoi_pretty z : 0 < z < 2 ^ 63 -> Atoi (pretty z) = Some z /\ (pretty z =? "")%string = false.
Proof.
  intros Hz. destruct z as [|p|p]; [lia| |lia]. change (pretty (Z.pos p)) with (pretty (N.pos p)). unfold pretty, pretty_N.
  rewrite decide_False by lia. pose proof (digitsFrom_pretty (N.pos p) "") as H. cbn [digitsFrom] in H.
  destruct (pretty_N_go (N.pos p) "") as [|c s] eqn:Hp; [cbn in H; injection H as H; lia|]. split; [|done].
  unfold Atoi. assert (Hd : decimal (String c s) = Some (Z.pos p)) by exact H.
  assert (Hs : (match String c s with String "-" s' => option_map Z.opp (decimal s') | String "+" s' => decimal s' | _ => decimal (String c s) end)
               = Some (Z.pos p)).
  { cbn [digitsFrom] in H. destruct ((0 <=? _) && _) eqn:Hc in H; [|done]. apply andb_true_iff in Hc as [Hc _]. apply Z.leb_le in Hc.
    destruct c as [[] [] [] [] [] [] [] []]; try exact Hd; exfalso; cbn in Hc; lia. }
  rewrite Hs. cbn [mbind option_bind]. rewrite (proj2 (Z.leb_le _ _)), (proj2 (Z.ltb_lt _ _)) by lia. done.
Qed.

Definition with_token (req : ListInferenceEventsRequest) (token : string) : ListInferenceEventsRequest :=
  mkListRequest (LR_APIKeyHash req) (LR_ModelID req) (LR_TenantID req) (LR_After req) (LR_Before req) (LR_Limit req) token.

(** A client that asks for the pages one after the other. *)
Fixpoint fetchPages (fuel : nat) (req : ListInferenceEventsRequest) : M (Error + list InferenceRow) :=
  match fuel with
  | O => cret (inl (ErrorString "more pages"))
  | S fuel =>
      let* p := ListInferenceEvents req in
      match p with
      | inl e => cret (inl e)
      | inr (rows, token) =>
          if (token =? "")%string then cret (inr rows)
          else let* rest := fetchPages fuel (with_token req token) in
               cret (match rest with inl e => inl e | inr l => inr (rows ++ l)%list end)
      end
  end.

(** Row identifiers count the rows. *)
Definition ids_ok (rows : list InferenceRow) : Prop :=
  StronglySorted (fun a b => IRID a < IRID b) rows /\ Forall (fun r => 0 < IRID r < 2 ^ 63) rows.

(** A log that was only ever appended to has such identifiers. *)
Lemma insertEvent_ids `{C : Crypto} ev rows : ids_ok rows -> Forall (fun r => IRID r <= Z.of_nat (length rows)) rows ->
  Z.of_nat (length rows) + 1 < 2 ^ 63 ->
  ids_ok (insertEvent ev rows) /\ Forall (fun r => IRID r <= Z.of_nat (length (insertEvent ev rows))) (insertEvent ev rows).
Proof.
  intros [Hs Hr] Hl Hn. unfold insertEvent. destruct (duplicate _ _ _); [done|].
  assert (Hid : IRID (chainRow ev rows) = Z.of_nat (length rows) + 1) by (unfold chainRow; by destruct (chainTail rows)).
  split; [split|].
  - apply StronglySorted_app_inv_snoc; [done|]. eapply Forall_impl; [exact Hl|]. cbn. intros r. rewrite Hid. lia.
  - apply Forall_app. split; [done|]. repeat constructor; rewrite Hid; lia.
  - rewrite length_app. apply Forall_app. split; [eapply Forall_impl; [exact Hl|]; cbn; lia|]. repeat constructor. rewrite Hid. cbn. lia.
Qed.

Lemma filter_sorted (R : InferenceRow -> InferenceRow -> Prop) p l : StronglySorted R l -> StronglySorted R (List.filter p l).
Proof.
  induction 1 as [|x l _ IH Hx]; cbn; [constructor|]. destruct (p x); [|done]. constructor; [done|].
  rewrite Forall_forall in Hx |- *. intros y [Hy _]%list_elem_of_In%filter_In. by apply Hx, list_elem_of_In.
Qed.

(** The rows after the last one of a prefix. *)
Lemma filter_after pre z rest : StronglySorted (fun a b => IRID a < IRID b) ((pre ++ [z]) ++ rest) ->
  List.filter (fun r => IRID z <? IRID r) ((pre ++ [z]) ++ rest) = rest.
Proof.
  intros Hs. apply StronglySorted_app in Hs as (Hlt & Hpz & Hrest). rewrite List.filter_app.
  assert (H1 : List.filter (fun r => IRID z <? IRID r) (pre ++ [z]) = []).
  { apply StronglySorted_app in Hpz as (Hz & _ & _). rewrite List.filter_app. cbn. rewrite Z.ltb_irrefl, app_nil_r.
    induction pre as [|x pre IH]; cbn; [done|]. rewrite (proj2 (Z.ltb_ge _ _)) by (apply Z.lt_le_incl, Hz; set_solver).
    apply IH; intros; [apply Hlt|apply Hz]; set_solver. }
  rewrite H1. cbn. assert (H2 : Forall (fun r => IRID z < IRID r) rest) by (apply Forall_forall; intros y Hy; apply Hlt; set_solver).
  clear -H2. induction H2 as [|x l Hx _ IH]; cbn; [done|]. by rewrite (proj2 (Z.ltb_lt _ _) Hx), IH.
Qed.

Lemma listLimit_pos limit : (1 <= Z.to_nat (listLimit limit))%nat.
Proof. unfold listLimit, defaultInferenceLimit, maxInferenceLimit. repeat case_match; lia. Qed.

(** The cut of a page: all of the rows, or a page and the cursor of its last row. *)
Lemma cutPage_spec limit rows : (1 <= limit)%nat ->
  ((length rows <= limit)%nat /\ cutPage limit rows = (rows, ""%string)) \/
  exists pre z rest, rows = (pre ++ [z]) ++ rest /\ cutPage limit rows = ((pre ++ [z])%list, pretty (IRID z)).
Proof.
  intros Hl. unfold cutPage. rewrite length_take. destruct (Nat.le_gt_cases (length rows) limit) as [Hle|Hgt].
  - left. split; [done|]. rewrite (proj2 (Nat.ltb_ge _ _)) by lia. by rewrite take_ge by lia.
  - right. rewrite (proj2 (Nat.ltb_lt _ _)) by lia. rewrite take_take, Nat.min_l by lia.
    rewrite lookup_take_lt by lia. destruct (lookup_lt_is_Some_2 rows (limit - 1)) as [z Hz]; [lia|]. rewrite Hz.
    exists (take (limit - 1) rows), z, (drop limit rows).
    assert (Ht : take limit rows = take (limit - 1) rows ++ [z]).
    { replace limit with (S (limit - 1)) at 1 by lia. by apply take_S_r. }
    rewrite <- Ht. by rewrite take_drop.
Qed.

Definition cursorAt (pre : list InferenceRow) (token : string) : Prop :=
  (pre = [] /\ token = ""%string) \/ exists l z, pre = l ++ [z] /\ token = pretty (IRID z).

(** One page of what is left after a prefix. *)
Lemma ListInferenceEvents_page req pre rest w : ids_ok (events (w_db w)) ->
  List.filter (matchesFilter req) (events (w_db w)) = pre ++ rest -> cursorAt pre (LR_PageToken req) ->
  exists w1, ListInferenceEvents req w = (inr (cutPage (Z.to_nat (listLimit (LR_Limit req))) rest), w1) /\ w_db w1 = w_db w.
Proof.
  intros [Hs Hr] Hf Hc. assert (Hrun : forall cursor, pageRows req cursor (events (w_db w)) = rest -> exists w1,
    query "registry: list inference events" (fun db => inr (cutPage (Z.to_nat (listLimit (LR_Limit req))) (pageRows req cursor (events db)))) w =
    (inr (cutPage (Z.to_nat (listLimit (LR_Limit req))) rest), w1) /\ w_db w1 = w_db w).
  { intros cursor Hp. destruct (query _ _ w) as [r w1] eqn:Hq. pose proof Hq as Hq'. apply query_healthy in Hq'; [|done].
    apply query_spec in Hq as (Hd & _). exists w1. split; [|done]. by rewrite Hq', Hp. }
  unfold ListInferenceEvents. destruct Hc as [[-> ->]|(l & z & -> & ->)].
  - apply Hrun. cbn in Hf. rewrite <- Hf. unfold pageRows. apply List.filter_ext. intros r. by rewrite andb_true_r.
  - assert (Hz : 0 < IRID z < 2 ^ 63).
    { rewrite Forall_forall in Hr. apply Hr. assert (Hin : z ∈ List.filter (matchesFilter req) (events (w_db w))) by (rewrite Hf; set_solver).
      apply list_elem_of_In, filter_In in Hin as [Hin _]. by apply list_elem_of_In. }
    destruct (Atoi_pretty _ Hz) as [-> ->]. apply Hrun. unfold pageRows.
    assert (Hff : forall p q (m : list InferenceRow), List.filter (fun r => p r && q r) m = List.filter q (List.filter p m)).
    { clear. intros p q m. induction m as [|x m IH]; cbn; [done|]. rewrite IH. destruct (p x) eqn:Hp, (q x) eqn:Hq; cbn; rewrite ?Hq; done. }
    rewrite Hff, Hf. apply filter_after. rewrite <- Hf. by apply filter_sorted.
Qed.

(** (C15) The pages are complete: with a database that answers every query and a log with
    ascending ids, a client that starts without a cursor and follows the cursors gets, in
    at most one call more than the log has rows, every event that matches its filter
    exactly once and in the order of the log, whatever the size of the page. *)
Theorem pages_complete req w :
  ids_ok (events (w_db w)) -> LR_PageToken req = ""%string ->
  fst (fetchPages (S (length (events (w_db w)))) req w) = inr (List.filter (matchesFilter req) (events (w_db w))).
Proof.
  assert (Hg : forall fuel pre rest req w, ids_ok (events (w_db w)) ->
    List.filter (matchesFilter req) (events (w_db w)) = pre ++ rest -> cursorAt pre (LR_PageToken req) -> (length rest < fuel)%nat ->
    fst (fetchPages fuel req w) = inr rest).
  { clear req w. induction fuel as [|fuel IH]; intros pre rest req w Hi Hf Hc Hl; [lia|]. cbn [fetchPages]. rewrite cbind_run.
    destruct (ListInferenceEvents_page req pre rest w Hi Hf Hc) as (w1 & -> & Hd). cbn [fst snd].
    destruct (cutPage_spec _ rest (listLimit_pos (LR_Limit req))) as [[_ ->]|(l & z & rest' & -> & ->)]; [done|].
    assert (Hz : (pretty (IRID z) =? "")%string = false).
    { apply Atoi_pretty. destruct Hi as [_ Hi]. rewrite Forall_forall in Hi. apply Hi.
      assert (Hin : z ∈ List.filter (matchesFilter req) (events (w_db w))) by (rewrite Hf; set_solver).
      apply list_elem_of_In, filter_In in Hin as [Hin _]. by apply list_elem_of_In. }
    rewrite Hz, cbind_run. cbn [cret fst].
    rewrite (IH (pre ++ l ++ [z]) rest' (with_token req (pretty (IRID z))) w1); [done|by rewrite Hd| | |].
    - rewrite Hd. etrans; [exact Hf|]. by rewrite <- !app_assoc.
    - right. exists (pre ++ l), z. by rewrite <- app_assoc.
    - rewrite !length_app in Hl. cbn in Hl. lia. }
  intros Hi Ht. apply (Hg _ []); [done|done|by left|]. apply Nat.lt_succ_r, List.filter_length_le.
Qed.
End Pages.

(** ** A concrete log *)

Section Witnesses.
Local Open Scope string_scope.

(** A checksum in place of SHA-256, and a clock that stands still. *)
Definition sumCrypto : Crypto := {|
  sha256HexOf s := hexEncode (toyHash s); hmacSHA256 _ s := s; b64encode s := s; b64decode := Some; encodeSession _ := "";
  decodeSession _ := None; decodeSA _ := None |}.
#[local] Existing Instance sumCrypto.

#[local] Instance sumCrypto_digest : HexDigest.
Proof. split. intros x. exists (toyHash x). split; reflexivity. Qed.

Definition noonEnv : Env := {|
  env_start _ _ _ := inr []; env_stop _ _ _ := None; env_http _ := Reply 200; env_done _ := None; env_db _ := None;
  env_now _ := 1709211600500000000; env_rand _ := "0a"; env_order _ _ l := l; env_path := plainPath;
  env_sha256 s := s |}.
#[local] Existing Instance noonEnv.
#[local] Instance noonEnv_db : HealthyDB noonEnv.
Proof. by split. Qed.

Definition exInference (id key : string) (t : Time) (offset : Z) : InferenceEvent :=
  mkInferenceEvent id key "llama" "acme/ml" t offset 10 20 "openai" "10.0.0.0" f0 "stop" "" "" "n1" "".

(** Four deliveries of three requests, and one call without an event. *)
Definition exDeliveries : list InferenceEvent :=
  [exInference "r1" "alice" 1709211600500000000 0; exInference "r2" "bob" zeroTime 0; exInference "r1" "alice" 1709211600500000000 0;
   exInference "r3" "alice" 1709211660000000000 0].
Definition exLogWorld : World := snd (runAll record (map Some exDeliveries) emptyWorld).

Lemma noon_year : fourDigitYear 1709211600500000000.
Proof. vm_compute. split; (reflexivity || discriminate). Qed.

Lemma exDeliveries_utc : Forall utcEvent exDeliveries.
Proof. repeat constructor; vm_compute; discriminate || reflexivity. Qed.

Lemma inference_chain_verifies_witness :
  fst (VerifyInferenceChain exLogWorld) = inr (mkVerdict 3 true (-1)).
Proof.
  refine (proj2 (inference_chain_verifies (map Some exDeliveries) emptyWorld (fun _ => noon_year) _ _) eq_refl).
  - apply Forall_forall. intros e (x & -> & Hx)%list_elem_of_fmap y [= <-]. exact (proj1 (Forall_forall _ _) exDeliveries_utc x Hx).
  - exact I.
Defined.

Lemma recorded_once_witness :
  length (withID "r1" (events (w_db exLogWorld))) = 1%nat /\ length (withID "r9" (events (w_db exLogWorld))) = 0%nat.
Proof.
  split; [exact (recorded_once exDeliveries "r1" emptyWorld eq_refl)|exact (recorded_once exDeliveries "r9" emptyWorld eq_refl)].
Defined.

(** A time with a zone is hashed in its zone and verified in UTC. *)
Example zoned_event_breaks_chain :
  fst (VerifyInferenceChain (snd (record (Some (exInference "r1" "alice" 1709211600500000000 7200)) emptyWorld))) =
  inr (mkVerdict 0 false 1).
Proof. vm_compute. reflexivity. Qed.

Definition exLogRows : list InferenceRow := events (w_db exLogWorld).

Lemma exLog_ok : chain_ok (w_db exLogWorld).
Proof. apply (verified_linked _ _ _ 0). vm_compute. reflexivity. Qed.

Definition exHead : InferenceRow := default (mkInferenceRow 0 (exInference "" "" 0 0) None "" "") (head (chained exLogRows)).

Lemma exHead_split : chained exLogRows = ([] ++ exHead :: tail (chained exLogRows))%list.
Proof.
  assert (Hl : length (chained exLogRows) = 3%nat) by (vm_compute; reflexivity).
  unfold exHead. destruct (chained exLogRows); [discriminate Hl|reflexivity].
Qed.

Definition exErased := EraseInferenceEventsBySubject "alice" exLogWorld.

Lemma exErased_run : exErased = (inr 2%Z, snd exErased).
Proof.
  assert (Hf : fst exErased = inr 2%Z) by (vm_compute; reflexivity). rewrite <- Hf. apply surjective_pairing.
Qed.

(** Another event is recorded after the erasure. *)
Definition exAfter : list (option InferenceEvent) := [Some (exInference "r4" "bob" 1709211600500000000 0)].

Lemma erasure_breaks_chain_witness : fst (VerifyInferenceChain (snd (runAll record exAfter (snd exErased)))) = inr (mkVerdict 0 false 1).
Proof.
  assert (Hp : position exHead = 1%Z) by (vm_compute; reflexivity). rewrite <- Hp.
  refine (proj2 (proj2 (erasure_breaks_chain "alice" [] exHead (tail (chained exLogRows)) 2 exLogWorld (snd exErased) exAfter exLog_ok exHead_split
    (Forall_nil_2 _) _ _ exErased_run)) _); [vm_compute; reflexivity| |vm_compute; reflexivity].
  apply String.eqb_neq. vm_compute. reflexivity.
Defined.

Lemma exIDs : ids_ok exLogRows.
Proof.
  assert (H : map IRID exLogRows = [1; 2; 3]%Z) by (vm_compute; reflexivity).
  destruct exLogRows as [|a [|b [|c [|]]]]; try discriminate H. injection H as Ha Hb Hc.
  split; repeat constructor; lia.
Qed.

(** Two events of one key, a page each. *)
Definition exAsk (token : string) : ListInferenceEventsRequest := mkListRequest "alice" "" "" zeroTime zeroTime 1 token.

Lemma pages_complete_witness :
  match fst (fetchPages 4 (exAsk "") exLogWorld) with inr l => map (fun r => IERequestID (IREvent r)) l = ["r1"; "r3"] | inl _ => False end.
Proof.
  assert (Hl : length (events (w_db exLogWorld)) = 3%nat) by (vm_compute; reflexivity).
  pose proof (pages_complete (exAsk "") exLogWorld exIDs eq_refl) as H. rewrite Hl in H. rewrite H. vm_compute. reflexivity.
Defined.

Lemma row_okb (r : InferenceRow) :
  ((0 <=? position r) && (position r <? 2 ^ 63) && forallb (fun s => Z.of_nat (String.length s) <? 2 ^ 32) (snd (content r)))%Z = true -> row_ok r.
Proof.
  rewrite !andb_true_iff, Z.leb_le, Z.ltb_lt. intros [[H1 H2] H3]. split; [lia|]. apply Forall_forall. intros s Hs.
  rewrite forallb_forall in H3. apply Z.ltb_lt, H3. by apply list_elem_of_In.
Qed.

Lemma exRows_ok : Forall row_ok exLogRows.
Proof.
  apply Forall_forall. intros r Hr. apply row_okb. revert r Hr. apply Forall_forall.
  assert (H : forallb (fun r => (0 <=? position r) && (position r <? 2 ^ 63) &&
    forallb (fun s => Z.of_nat (String.length s) <? 2 ^ 32) (snd (content r)))%Z exLogRows = true) by (vm_compute; reflexivity).
  rewrite forallb_forall in H. apply Forall_forall. intros r Hr. by apply H, list_elem_of_In.
Qed.

(** No two rows of the log collide. *)
Lemma exRows_collisions r r' : r ∈ exLogRows -> r' ∈ exLogRows -> sha256HexOf (preimageOf r) = sha256HexOf (preimageOf r') ->
  preimageOf r = preimageOf r'.
Proof.
  intros Hr Hr' Hh.
  assert (H : forallb (fun a => forallb (fun b => negb (sha256HexOf (preimageOf a) =? sha256HexOf (preimageOf b)) ||
    (preimageOf a =? preimageOf b)) exLogRows) exLogRows = true) by (vm_compute; reflexivity).
  rewrite forallb_forall in H. specialize (H r (proj1 (list_elem_of_In _ _) Hr)). rewrite forallb_forall in H.
  specialize (H r' (proj1 (list_elem_of_In _ _) Hr')). rewrite Hh, String.eqb_refl in H. by apply String.eqb_eq.
Qed.

(** The log, and the log with other token counts. *)
Definition exRetallied : World :=
  mkWorld 0 (with_events (w_db exLogWorld) (map (retally (fun _ => (0, 0))) exLogRows)) ∅ [].

Lemma inference_tamper_evident_witness :
  map (fun r => IEPromptTokens (IREvent r)) (events (w_db exRetallied)) = [0; 0; 0]%Z /\ map content (chained exLogRows) = map content (chained (events (w_db exRetallied))).
Proof.
  split; [vm_compute; reflexivity|].
  refine (inference_tamper_evident exLogWorld exRetallied (mkVerdict 3 true (-1)) (mkVerdict 3 true (-1)) _ _ eq_refl eq_refl eq_refl _
    exRows_ok _ _); [vm_compute; reflexivity..| |].
  - apply Forall_forall. intros r (x & -> & Hx)%list_elem_of_fmap. exact (proj1 (Forall_forall _ _) exRows_ok x Hx).
  - intros r r' Hr (x & -> & Hx)%list_elem_of_fmap. exact (exRows_collisions r x Hr Hx).
Defined.
End Witnesses.
