(* ===== verification/License.v ===== *)
(** * License: the offline licence gate

    [enterprise/license/license.go] and [features.go], the signer's command
    [cmd/purser-license], and the gate of [server/server.go] that asks it.

    A key is [base64url(payload) "." base64url(signature)]. [Sign] and [Verify] are the
    source's, over the base64 of [Text]; the signature scheme (ed25519) and the JSON of
    the payload are parameters, with the laws the round trip needs as the class
    [LicenseLaws]. The distance of [levenshtein] is related to edit scripts. *)
From S2P Require Import Prelude Cluster Timestamp Text.

Create HintDb license.

Open Scope Z_scope.

(** ** Licences ([license.go]) *)

Record Payload : Type := mkPayload {
  PL_Licensee : string; PL_Features : list string; PL_Issued : Time; PL_Expires : Time }.

Record License : Type := mkLicense {
  Licensee : string; Features : list string; Issued : Time; Expires : Time }.

(** [json.Marshal] fails on a year that RFC 3339 cannot write. *)
Class LicenseEnv : Type := {
  ed25519_Sign : string -> string -> string;
  ed25519_Verify : string -> string -> string -> bool;
  ed25519_Pair : string -> string -> Prop;
  marshalPayload : Payload -> option string;
  unmarshalPayload : string -> option Payload }.

Definition PublicKeySize : nat := 32.
Definition PrivateKeySize : nat := 64.
Definition SignatureSize : nat := 64.

Inductive LicenseError : Type :=
| ErrMalformed (what : string)
| ErrBadSignature
| ErrKeySize (n : nat)
| ErrMarshal.

Definition EnvVar : string := "PURSER_LICENSE_KEY".
Definition DevPublicKeyBase64 : string := "u0M8yOk/o4XkSNTnHY5+ZcmGrv/f8+cVh61uuO33p68=".
Definition ProductionPublicKeyBase64 : string := "ds2wAsShz+UwQ4mdnjiXRFLlhh9c6pW8V92f7RBUj0s=".

(** [None] is the panic at start-up. *)
Definition mustDecodeKey (b64 : string) : option string :=
  match DecodeString StdEncoding (TrimSpace b64) with
  | None => None
  | Some raw => if Nat.eqb (String.length raw) PublicKeySize then Some raw else None
  end.

Definition Community : License := mkLicense "" [] zeroTime zeroTime.

(** A [*License] may be nil. *)
Definition IsCommunity (l : option License) : bool :=
  match l with
  | None => true
  | Some l => (Licensee l =? "")%string && Nat.eqb (length (Features l)) 0
  end.

Definition ValidAt (l : option License) (t : Time) : bool :=
  match l with
  | None => false
  | Some l =>
      if negb (IsZero (Issued l)) && (t <? Issued l) then false
      else if negb (IsZero (Expires l)) && negb (t <? Expires l) then false else true
  end.

Definition HasFeature (l : option License) (name : string) : bool :=
  match l with
  | None => false
  | Some l => existsb (fun f => (f =? name)%string) (Features l)
  end.

Section Keys.
Context `{L : LicenseEnv}.

Definition Sign (priv : string) (p : Payload) : LicenseError + string :=
  if negb (Nat.eqb (String.length priv) PrivateKeySize) then inl (ErrKeySize (String.length priv))
  else match marshalPayload p with
       | None => inl ErrMarshal
       | Some payload =>
           let sig := ed25519_Sign priv payload in
           inr (EncodeToString RawURLEncoding payload +:+ "." +:+ EncodeToString RawURLEncoding sig)
       end.

Definition Verify (VerificationKey key : string) : LicenseError + License :=
  match Split (TrimSpace key) "." with
  | [enc; sigEnc] =>
      if (enc =? "")%string || (sigEnc =? "")%string then inl (ErrMalformed "")
      else match DecodeString RawURLEncoding enc with
           | None => inl (ErrMalformed "payload")
           | Some payload =>
               match DecodeString RawURLEncoding sigEnc with
               | None => inl (ErrMalformed "signature")
               | Some sig =>
                   if negb (Nat.eqb (String.length sig) SignatureSize) || negb (ed25519_Verify VerificationKey payload sig)
                   then inl ErrBadSignature
                   else match unmarshalPayload payload with
                        | None => inl (ErrMalformed "payload json")
                        | Some p => inr (mkLicense (PL_Licensee p) (PL_Features p) (PL_Issued p) (PL_Expires p))
                        end
               end
           end
  | _ => inl (ErrMalformed "")
  end.

(** [getenv] is the value of [EnvVar]; an unset variable is empty. *)
Definition FromEnv (VerificationKey getenv : string) : LicenseError + License :=
  let key := TrimSpace getenv in
  if (key =? "")%string then inr Community else Verify VerificationKey key.

End Keys.

(** ** The server's gate ([server.go]) *)

Definition featureAudit : string := "audit".
Definition featurePolicyEngine : string := "policy_engine".
Definition featureBilling : string := "billing".
Definition featureDeploymentApprovals : string := "deployment_approvals".
Definition featureInferenceAudit : string := "inference_audit".
Definition featureGDPR : string := "gdpr".
Definition featureAIActCompliance : string := "ai_act_compliance".

Definition gates : list string :=
  [featureAudit; featurePolicyEngine; featureBilling; featureDeploymentApprovals; featureInferenceAudit; featureGDPR;
   featureAIActCompliance].

Definition licenseAllows (l : option License) (now : Time) (feature : string) : bool :=
  ValidAt l now && HasFeature l feature.

(** The edition, the licensee, the features and, for the enterprise edition, the expiry. *)
Definition handleEnterpriseStatus (l : option License) (now : Time) : string * string * list string * option Time :=
  match l with
  | Some lic =>
      if IsCommunity l || negb (ValidAt l now) then ("community", "community", [], None)%string
      else ("enterprise"%string, Licensee lic, Features lic, Some (Expires lic))
  | None => ("community", "community", [], None)%string
  end.

(** ** Feature flags ([features.go]) *)

Definition knownFeatures : list string :=
  ["audit"; "policy_engine"; "billing"; "deployment_approvals"; "inference_audit"; "gdpr"; "ai_act_compliance"]%string.

Definition KnownFeatures : list string := knownFeatures.
Definition IsKnownFeature (name : string) : bool := bool_decide (name ∈ knownFeatures).
Definition UnknownFeatures (names : list string) : list string := List.filter (fun n => negb (IsKnownFeature n)) names.

(** A text between quotation marks. *)
Definition quoted (s : string) : string := String "034" (s +:+ String "034" "").

Record featureAlias : Type := mkAlias { fa_flag : string; fa_why : string }.

Definition featureAliases : list (string * featureAlias) :=
  [ ("chargeback", mkAlias "billing" (quoted "chargeback" +:+ " is the product name; the licence flag for that capability is " +:+ quoted "billing"));
    ("finops", mkAlias "billing" ("the FinOps / chargeback capability is gated on " +:+ quoted "billing"));
    ("usage_accounting", mkAlias "billing" ("usage accounting is part of the chargeback capability, gated on " +:+ quoted "billing"));
    ("opa_policies", mkAlias "policy_engine" (quoted "opa_policies" +:+ " is not a flag; the Policy-as-Code capability is gated on " +:+ quoted "policy_engine"));
    ("opa", mkAlias "policy_engine" ("the OPA/Rego policy capability is gated on " +:+ quoted "policy_engine"));
    ("rego", mkAlias "policy_engine" ("the OPA/Rego policy capability is gated on " +:+ quoted "policy_engine"));
    ("policy_as_code", mkAlias "policy_engine" (quoted "Policy-as-Code" +:+ " is the product name; the licence flag is " +:+ quoted "policy_engine"));
    ("policies", mkAlias "policy_engine" ("the policy capability is gated on " +:+ quoted "policy_engine"));
    ("audit_log", mkAlias "audit" ("the tamper-evident control-plane audit log is gated on " +:+ quoted "audit"));
    ("ai_act", mkAlias "ai_act_compliance" ("the AI Act technical-documentation capability is gated on " +:+ quoted "ai_act_compliance"));
    ("approvals", mkAlias "deployment_approvals" ("the approval-gate capability is gated on " +:+ quoted "deployment_approvals"));
    ("right_to_erasure", mkAlias "gdpr" ("the GDPR right-to-erasure capability is gated on " +:+ quoted "gdpr"));
    ("inference_logging", mkAlias "inference_audit" ("per-request inference records are gated on " +:+ quoted "inference_audit")) ]%string.

(** The dash of two of the explanations is U+2014. *)
Definition emDash : string := ofBytes (encodeRune 8212).

Definition ungatedCapabilities : list (string * string) :=
  [ ("ha", "the Raft HA control plane is shipped and ungated " +:+ emDash +:+ " no licence flag is checked for it, so a key does not need one");
    ("rbac", "RBAC is always enforced in every edition and is never a licence feature");
    ("sso", "SSO / OIDC / SAML sign-in is always available and is never a licence feature");
    ("oidc", "OIDC sign-in is always available and is never a licence feature");
    ("saml", "SAML sign-in is always available and is never a licence feature");
    ("ldap", "LDAP / Active Directory integration is always available and is never a licence feature");
    ("fleet_scale", quoted "fleet-scale" +:+ " covered several capabilities at once and gates nothing; Ansible enrollment and the internal CA are shipped and ungated, while MDM, golden-image enrollment, signed air-gap bundles and multi-cluster management are roadmap");
    ("slo", "SLO contracts are shipped and ungated " +:+ emDash +:+ " GET /api/v1/slo/compliance answers without a key");
    ("what_if", "the what-if planner is shipped and ungated " +:+ emDash +:+ " POST /api/v1/planner/what-if answers without a key");
    ("planner", "the planner is part of the MIT core and is never a licence feature");
    ("pki", "the internal CA / PKI is shipped and ungated");
    ("multicluster", "multi-cluster fleet management has no implementation in this release and gates nothing") ]%string.

Fixpoint assoc {A} (k : string) (l : list (string * A)) : option A :=
  match l with
  | [] => None
  | (x, a) :: l => if (x =? k)%string then Some a else assoc k l
  end.

(** An element of a row of the table. *)
Definition cell (l : list Z) (j : nat) : Z := default 0 (l !! j).

(** The body of the outer loop: row [i] for the rune [x], from the row before it. *)
Definition levRow (rb : list Z) (x : Z) (i : nat) (prev cur : list Z) : list Z :=
  fold_left (fun cur j =>
      let cost := if x =? cell rb (j - 1) then 0 else 1 in
      <[j := Z.min (Z.min (cell cur (j - 1) + 1) (cell prev j + 1)) (cell prev (j - 1) + cost)]> cur)
    (seq 1 (length rb)) (<[0%nat := Z.of_nat i]> cur).

(** The outer loop: the rows swap their places. *)
Fixpoint levRows (rb ra : list Z) (i : nat) (prev cur : list Z) : list Z :=
  match ra with
  | [] => prev
  | x :: ra => levRows rb ra (S i) (levRow rb x i prev cur) prev
  end.

Definition levenshtein (a b : string) : Z :=
  let ra := runes (bytes a) in
  let rb := runes (bytes b) in
  if Nat.eqb (length ra) 0 then Z.of_nat (length rb)
  else if Nat.eqb (length rb) 0 then Z.of_nat (length ra)
  else cell (levRows rb ra 1 (map Z.of_nat (seq 0 (length rb + 1))) (replicate (length rb + 1) 0)) (length rb).

(** The nearest flag; [None] is the distance -1. *)
Definition nearest (norm : string) : string * option Z :=
  fold_left (fun '(best, bestDist) known =>
      let d := levenshtein norm known in
      if (3 <? d) || (Z.of_nat (String.length known) <? d * 2) then (best, bestDist)
      else match bestDist with
           | None => (known, Some d)
           | Some b => if d <? b then (known, Some d) else (best, bestDist)
           end) knownFeatures (""%string, None).

Section Suggestions.
Context `{U : Unicode}.

Definition normaliseFeature (name : string) : string := ReplaceChar "-" "_" (ToLower (TrimSpace name)).

Definition SuggestFeature (name : string) : option string :=
  let norm := normaliseFeature name in
  if (norm =? "")%string then None
  else match assoc norm ungatedCapabilities with
       | Some _ => None
       | None =>
           if IsKnownFeature norm && negb (norm =? name)%string then Some norm
           else match assoc norm featureAliases with
                | Some alias => Some (fa_flag alias)
                | None => match nearest norm with (best, Some _) => Some best | (_, None) => None end
                end
       end.

Record UnknownFeatureError : Type := mkUnknownFeature { UF_Feature : string; UF_Suggestion : string; UF_Reason : string }.

Definition Hint (e : UnknownFeatureError) : string :=
  if negb (UF_Reason e =? "")%string then UF_Reason e
  else if negb (UF_Suggestion e =? "")%string then "did you mean " +:+ quoted (UF_Suggestion e) +:+ "?"
  else ""%string.

Definition ValidateFeature (name : string) : option UnknownFeatureError :=
  if IsKnownFeature name then None
  else Some match assoc (normaliseFeature name) ungatedCapabilities with
            | Some reason => mkUnknownFeature name "" reason
            | None =>
                match assoc (normaliseFeature name) featureAliases with
                | Some alias => mkUnknownFeature name (fa_flag alias) (fa_why alias)
                | None => mkUnknownFeature name (default ""%string (SuggestFeature name)) ""
                end
            end.

Definition FeatureHint (name : string) : string :=
  match ValidateFeature name with Some e => Hint e | None => ""%string end.

(** Every offender; the empty list is success. *)
Definition ValidateFeatures (names : list string) : list UnknownFeatureError :=
  flat_map (fun n => match ValidateFeature n with Some e => [e] | None => [] end) names.

End Suggestions.

(** ** The signer's command ([cmd/purser-license/main.go]) *)

(** The parsed flags of [sign]; [sf_feature] are the values of the repeated flag. *)
Record SignFlags : Type := mkSignFlags {
  sf_licensee : string; sf_feature : list string; sf_features : string; sf_ttl : Duration; sf_expires : string;
  sf_issued : string; sf_key : string; sf_allowUnknown : bool }.

Inductive SignError : Type :=
| LicenseeRequired | BadIssued | BothExpiries | BadExpires | NoExpiry
| NoSigningKey | UnreadableKey | KeyNotBase64 | KeyLength (n : nat)
| NothingSigned (offenders : list UnknownFeatureError)
| SignFailed (e : LicenseError).

(** What [verify] prints: the report of a valid key, or the reason. *)
Record VerifyReport : Type := mkVerifyReport {
  vr_licensee : string; vr_expires : option Time; vr_features : list string; vr_validNow : bool;
  vr_warnings : list (string * string) }.

Inductive VerifyAnswer : Type :=
| NoKeyGiven
| Invalid (msg : string)
| Valid (r : VerifyReport).

Section Command.
Context `{L : LicenseEnv} `{U : Unicode}.

(** [multiFlag.Set], for each occurrence of the flag. *)
Definition multiFlagSet (f : list string) (v : string) : list string :=
  let v := TrimSpace v in if (v =? "")%string then f else f ++ [v].

(** The merge of the two flags: trimmed, not blank, first occurrences. *)
Definition mergeFeature (feats : list string) (f : string) : list string :=
  let f := TrimSpace f in
  if negb (f =? "")%string && negb (bool_decide (f ∈ feats)) then feats ++ [f] else feats.

Definition mergeFeatures (flags : SignFlags) : list string :=
  let featureMulti := fold_left multiFlagSet (sf_feature flags) [] in
  fold_left mergeFeature (Split (sf_features flags) ",") (fold_left mergeFeature featureMulti []).

(** [stat] is [None] unless the path names a file, whose contents may be unreadable. *)
Definition loadSigningKey (stat : string -> option (option string)) (getenv explicitPath : string) : SignError + string :=
  let source := if (explicitPath =? "")%string then getenv else explicitPath in
  if (source =? "")%string then inl NoSigningKey
  else
    let material := match stat source with
                    | None => inr source
                    | Some None => inl UnreadableKey
                    | Some (Some raw) => inr raw
                    end in
    match material with
    | inl e => inl e
    | inr material =>
        match DecodeString StdEncoding (TrimSpace material) with
        | None => inl KeyNotBase64
        | Some decoded =>
            if Nat.eqb (String.length decoded) PrivateKeySize then inr decoded else inl (KeyLength (String.length decoded))
        end
    end.

(** [timeParse] is [time.Parse(time.RFC3339, _)], in UTC. *)
Definition signExpiry (timeParse : string -> option Time) (flags : SignFlags) (issued : Time) : SignError + Time :=
  if negb (sf_expires flags =? "")%string && negb (sf_ttl flags =? 0) then inl BothExpiries
  else if negb (sf_expires flags =? "")%string
       then match timeParse (sf_expires flags) with Some t => inr t | None => inl BadExpires end
       else if 0 <? sf_ttl flags then inr (issued + sf_ttl flags) else inl NoExpiry.

Definition signCmd (timeParse : string -> option Time) (stat : string -> option (option string)) (getenv : string)
    (now : Time) (flags : SignFlags) : SignError + string :=
  if (TrimSpace (sf_licensee flags) =? "")%string then inl LicenseeRequired
  else match (if (sf_issued flags =? "")%string then Some now else timeParse (sf_issued flags)) with
       | None => inl BadIssued
       | Some issued =>
           match signExpiry timeParse flags issued with
           | inl e => inl e
           | inr expires =>
               match loadSigningKey stat getenv (sf_key flags) with
               | inl e => inl e
               | inr priv =>
                   let feats := mergeFeatures flags in
                   let errs := ValidateFeatures feats in
                   if negb (Nat.eqb (length errs) 0) && negb (sf_allowUnknown flags) then inl (NothingSigned errs)
                   else match Sign priv (mkPayload (sf_licensee flags) feats issued expires) with
                        | inl e => inl (SignFailed e)
                        | inr key => inr key
                        end
               end
           end
       end.

(** [arg] is the first argument, if there is one; [key] is the key of the flag [--dev]. *)
Definition verifyCmd (VerificationKey DevVerificationKey : string) (dev : bool) (arg : option string) (getenv : string)
    (now : Time) : VerifyAnswer :=
  let keyStr := match arg with Some a => TrimSpace a | None => TrimSpace getenv end in
  if (keyStr =? "")%string then NoKeyGiven
  else match Verify (if dev then DevVerificationKey else VerificationKey) keyStr with
       | inl ErrBadSignature => Invalid "signature verification failed"
       | inl (ErrMalformed _) => Invalid "malformed license key"
       | inl _ => Invalid ""
       | inr lic =>
           Valid (mkVerifyReport (Licensee lic) (if IsZero (Expires lic) then None else Some (Expires lic)) (Features lic)
             (ValidAt (Some lic) now) (map (fun u => (u, FeatureHint u)) (UnknownFeatures (Features lic))))
       end.

End Command.

(** ** Distances and edit scripts *)

(** [Edit a b n]: [n] insertions, deletions and substitutions make [a] into [b]. *)
Inductive Edit : list Z -> list Z -> nat -> Prop :=
| Edit_nil : Edit [] [] 0
| Edit_keep x a b n : Edit a b n -> Edit (x :: a) (x :: b) n
| Edit_insert y a b n : Edit a b n -> Edit a (y :: b) (S n)
| Edit_delete x a b n : Edit a b n -> Edit (x :: a) b (S n)
| Edit_replace x y a b n : Edit a b n -> Edit (x :: a) (y :: b) (S n).

#[export] Hint Constructors Edit : license.

(** The recurrence of the table, from the front. *)
Fixpoint lev (a : list Z) : list Z -> nat :=
  match a with
  | [] => fun b => length b
  | x :: a' =>
      fix inner (b : list Z) : nat :=
        match b with
        | [] => S (length a')
        | y :: b' => Nat.min (Nat.min (S (inner b')) (S (lev a' (y :: b')))) ((if x =? y then 0 else 1) + lev a' b')
        end
  end.

Lemma lev_cons x a y b :
  lev (x :: a) (y :: b) = Nat.min (Nat.min (S (lev (x :: a) b)) (S (lev a (y :: b)))) ((if (x =? y)%Z then 0 else 1) + lev a b).
Proof. done. Qed.

Lemma lev_nil_r a : lev a [] = length a.
Proof. by destruct a. Qed.

Lemma Edit_all_insert b : Edit [] b (length b).
Proof. induction b; cbn; auto with license. Qed.

Lemma Edit_all_delete a : Edit a [] (length a).
Proof. induction a; cbn; auto with license. Qed.

Lemma lev_script a : forall b, Edit a b (lev a b).
Proof.
  induction a as [|x a IHa]; intros b; [apply Edit_all_insert|].
  induction b as [|y b IHb]; [apply (Edit_all_delete (x :: a))|]. rewrite lev_cons.
  destruct (Nat.min_spec (Nat.min (S (lev (x :: a) b)) (S (lev a (y :: b)))) ((if x =? y then 0 else 1) + lev a b))
    as [[_ ->]|[_ ->]].
  - destruct (Nat.min_spec (S (lev (x :: a) b)) (S (lev a (y :: b)))) as [[_ ->]|[_ ->]]; auto with license.
  - destruct (Z.eqb_spec x y) as [->|_]; cbn [Nat.add]; auto with license.
Qed.

Lemma lev_insert a y b : (lev a (y :: b) <= S (lev a b))%nat.
Proof. destruct a as [|x a]; [cbn; lia|]. rewrite lev_cons. lia. Qed.

Lemma lev_delete x a b : (lev (x :: a) b <= S (lev a b))%nat.
Proof. destruct b as [|y b]; [rewrite !lev_nil_r; cbn; lia|]. rewrite lev_cons. lia. Qed.

Lemma lev_least a b n : Edit a b n -> (lev a b <= n)%nat.
Proof.
  induction 1 as [|x a b n H IH|y a b n H IH|x a b n H IH|x y a b n H IH]; [done| | | |].
  - rewrite lev_cons, Z.eqb_refl. lia.
  - pose proof (lev_insert a y b). lia.
  - pose proof (lev_delete x a b). lia.
  - rewrite lev_cons. destruct (x =? y); lia.
Qed.

Lemma Edit_app a b n c d m : Edit a b n -> Edit c d m -> Edit (a ++ c) (b ++ d) (n + m).
Proof. induction 1; intros Hc; cbn; auto with license. Qed.

Lemma Edit_rev a b n : Edit a b n -> Edit (rev a) (rev b) n.
Proof.
  induction 1 as [|x a b n H IH|y a b n H IH|x a b n H IH|x y a b n H IH]; cbn [rev]; [constructor| | | |].
  - rewrite <- (Nat.add_0_r n). apply Edit_app; auto with license.
  - rewrite <- (app_nil_r (rev a)), <- Nat.add_1_r. apply Edit_app; auto with license.
  - rewrite <- (app_nil_r (rev b)), <- Nat.add_1_r. apply Edit_app; auto with license.
  - rewrite <- Nat.add_1_r. apply Edit_app; auto with license.
Qed.

Lemma lev_rev a b : lev (rev a) (rev b) = lev a b.
Proof.
  apply Nat.le_antisymm; apply lev_least.
  - apply Edit_rev, lev_script.
  - rewrite <- (rev_involutive a), <- (rev_involutive b) at 1. apply Edit_rev, lev_script.
Qed.

(** ** The rolling rows *)

Section Rows.
Context (rb : list Z).

(** The row of the table for a prefix, which is given in reverse. *)
Definition tableCell (rp : list Z) (j : nat) : Z := Z.of_nat (lev rp (rev (take j rb))).
Definition tableRow (rp : list Z) : list Z := map (tableCell rp) (seq 0 (length rb + 1)).

Lemma cell_tableRow rp j : (j <= length rb)%nat -> cell (tableRow rp) j = tableCell rp j.
Proof.
  intros Hj. unfold cell, tableRow. rewrite list_lookup_fmap, lookup_seq_lt by lia. done.
Qed.

Lemma take_last j : (j < length rb)%nat -> rev (take (S j) rb) = cell rb j :: rev (take j rb).
Proof.
  intros Hj. destruct (lookup_lt_is_Some_2 rb j Hj) as [y Hy]. unfold cell. rewrite Hy. cbn [default].
  rewrite (take_S_r _ _ _ Hy), rev_app_distr. done.
Qed.

Lemma tableCell_step x rp j : (j < length rb)%nat ->
  tableCell (x :: rp) (S j) =
  Z.min (Z.min (tableCell (x :: rp) j + 1) (tableCell rp (S j) + 1)) (tableCell rp j + (if x =? cell rb j then 0 else 1)).
Proof.
  intros Hj. unfold tableCell. rewrite (take_last j Hj), lev_cons. destruct (x =? cell rb j); lia.
Qed.

(** The cells up to [k] are done. *)
Definition filled (rp : list Z) (k : nat) (cur : list Z) : Prop :=
  length cur = (length rb + 1)%nat /\ forall j, (j <= k)%nat -> cell cur j = tableCell rp j.

Lemma cell_insert (l : list Z) i j v : (i < length l)%nat -> cell (<[i := v]> l) j = if Nat.eqb i j then v else cell l j.
Proof.
  intros Hi. unfold cell. destruct (Nat.eqb_spec i j) as [<-|Hn].
  - by rewrite list_lookup_insert_eq.
  - by rewrite list_lookup_insert_ne.
Qed.

Lemma inner_loop x rp k : (k <= length rb)%nat -> forall cur,
  length cur = (length rb + 1)%nat -> cell cur 0 = tableCell (x :: rp) 0 ->
  filled (x :: rp) k (fold_left (fun cur j =>
      let cost := if x =? cell rb (j - 1) then 0 else 1 in
      <[j := Z.min (Z.min (cell cur (j - 1) + 1) (cell (tableRow rp) j + 1)) (cell (tableRow rp) (j - 1) + cost)]> cur)
    (seq 1 k) cur).
Proof.
  intros Hk cur Hlen H0. induction k as [|k IH].
  - split; [done|]. intros j Hj. by replace j with 0%nat by lia.
  - rewrite seq_S, fold_left_app. destruct IH as [Hl Hc]; [lia|]. cbn [fold_left Nat.add]. set (cur' := fold_left _ (seq 1 k) cur) in *.
    cbv zeta. replace (S k - 1)%nat with k by lia. split; [by rewrite length_insert|]. intros j Hj.
    rewrite cell_insert by lia. destruct (Nat.eqb_spec (S k) j) as [<-|Hn]; [|apply Hc; lia].
    rewrite tableCell_step, !cell_tableRow, Hc by lia. done.
Qed.

Lemma filled_row rp cur : filled rp (length rb) cur -> cur = tableRow rp.
Proof.
  intros [Hl Hc]. apply (list_eq_same_length _ _ (length rb + 1)); [|done|].
  { unfold tableRow. by rewrite length_map, length_seq. }
  intros i u v Hi Hu Hv. specialize (Hc i ltac:(lia)). pose proof (cell_tableRow rp i ltac:(lia)) as Ht. unfold cell in *.
  rewrite Hu in Hc. rewrite Hv in Ht. cbn in *. congruence.
Qed.

Lemma levRow_row x rp cur : length cur = (length rb + 1)%nat ->
  levRow rb x (S (length rp)) (tableRow rp) cur = tableRow (x :: rp).
Proof.
  intros Hl. apply filled_row, inner_loop; [done|by rewrite length_insert|]. by rewrite cell_insert by lia.
Qed.

Lemma levRows_row ra : forall rp cur, length cur = (length rb + 1)%nat ->
  levRows rb ra (S (length rp)) (tableRow rp) cur = tableRow (rev ra ++ rp).
Proof.
  induction ra as [|x ra IH]; intros rp cur Hl; [done|]. cbn [levRows]. rewrite levRow_row by done.
  rewrite (IH (x :: rp)) by (unfold tableRow; by rewrite length_map, length_seq). cbn [rev]. by rewrite <- app_assoc.
Qed.

Lemma tableRow_nil : tableRow [] = map Z.of_nat (seq 0 (length rb + 1)).
Proof.
  apply map_ext_in. intros j Hj. apply in_seq in Hj. unfold tableCell. cbn [lev]. f_equal.
  rewrite length_rev, length_take. lia.
Qed.

End Rows.

Lemma levenshtein_lev a b : levenshtein a b = Z.of_nat (lev (runes (bytes a)) (runes (bytes b))).
Proof.
  unfold levenshtein. generalize (runes (bytes a)) (runes (bytes b)). intros ra rb.
  destruct (Nat.eqb_spec (length ra) 0) as [E|E]; [destruct ra; [reflexivity|discriminate]|].
  destruct (Nat.eqb_spec (length rb) 0) as [E'|E']; [destruct rb; [by rewrite lev_nil_r|discriminate]|].
  rewrite <- tableRow_nil, (levRows_row rb ra []) by apply length_replicate.
  rewrite cell_tableRow, app_nil_r by lia. unfold tableCell. by rewrite firstn_all, lev_rev.
Qed.

(** [levenshtein] is the length of a shortest edit script between the texts, counted in
    code points: there is a script of that length, and every script is at least as
    long. *)
Theorem levenshtein_least a b :
  (exists n, levenshtein a b = Z.of_nat n /\ Edit (runes (bytes a)) (runes (bytes b)) n) /\
  forall n, Edit (runes (bytes a)) (runes (bytes b)) n -> levenshtein a b <= Z.of_nat n.
Proof.
  rewrite levenshtein_lev. split; [eauto using lev_script|]. intros n H%lev_least. lia.
Qed.

(** ** Suggestions *)

(** A flag within the limits of a typing mistake. *)
Definition closeTo (norm known : string) : Prop :=
  levenshtein norm known <= 3 /\ levenshtein norm known * 2 <= Z.of_nat (String.length known).

(** What the loop over the flags has found among the first of them. *)
Definition nearestOf (norm : string) (seen : list string) (st : string * option Z) : Prop :=
  match snd st with
  | None => forall k, k ∈ seen -> ~ closeTo norm k
  | Some d => fst st ∈ seen /\ closeTo norm (fst st) /\ d = levenshtein norm (fst st) /\
              forall k, k ∈ seen -> closeTo norm k -> d <= levenshtein norm k
  end.

Lemma nearest_spec norm : nearestOf norm knownFeatures (nearest norm).
Proof.
  unfold nearest. match goal with |- nearestOf _ _ (fold_left ?f _ _) => set (step := f) end.
  assert (Hgen : forall l seen st, nearestOf norm seen st -> nearestOf norm (seen ++ l) (fold_left step l st)).
  { induction l as [|k l IH]; intros seen st Hst; [by rewrite app_nil_r|].
    cbn [fold_left]. change (k :: l) with ([k] ++ l). rewrite app_assoc. apply IH. clear IH.
    destruct st as [best bd]. unfold nearestOf in *. subst step. cbn [fst snd] in *.
    destruct ((3 <? levenshtein norm k) || (Z.of_nat (String.length k) <? levenshtein norm k * 2)) eqn:Ef.
    - assert (Hfar : ~ closeTo norm k) by (unfold closeTo; lia).
      destruct bd as [d|]; cbn [fst snd] in *.
      + destruct Hst as (H1 & H2 & H3 & H4). split_and!; [set_solver|done|done|].
        intros k' [Hk|Hk%list_elem_of_singleton]%elem_of_app Hc; [auto|by subst k'].
      + intros k' [Hk|Hk%list_elem_of_singleton]%elem_of_app; [auto|by subst k'].
    - assert (Hclose : closeTo norm k) by (unfold closeTo; lia). clear Ef.
      destruct bd as [d|]; cbn [fst snd] in *; [destruct Hst as (H1 & H2 & H3 & H4); destruct (Z.ltb_spec (levenshtein norm k) d)|];
        cbn [fst snd]; (split_and!; [set_solver|done|done|]);
        intros k' [Hk|Hk%list_elem_of_singleton]%elem_of_app Hc; try subst k'; try done; try lia.
      + specialize (H4 k' Hk Hc). lia.
      + auto.
      + by destruct (Hst k' Hk). }
  apply (Hgen knownFeatures [] (""%string, None)). intros k Hk. by apply not_elem_of_nil in Hk.
Qed.

Lemma assoc_elem {A} k (l : list (string * A)) a : assoc k l = Some a -> (k, a) ∈ l.
Proof.
  induction l as [|[x b] l IH]; cbn; [done|]. destruct (String.eqb_spec x k) as [->|]; [|intros H; right; auto].
  intros [= ->]. left.
Qed.

Lemma alias_known k a : assoc k featureAliases = Some a -> fa_flag a ∈ knownFeatures.
Proof.
  intros H%assoc_elem. assert (Hall : Forall (fun e => fa_flag (snd e) ∈ knownFeatures) featureAliases)
    by (apply (bool_decide_unpack _); vm_compute; exact I).
  rewrite Forall_forall in Hall. exact (Hall _ H).
Qed.

Section Suggested.
Context `{U : Unicode}.

(** Whatever is suggested is a flag that a gate asks for. *)
Lemma SuggestFeature_known name f : SuggestFeature name = Some f -> f ∈ knownFeatures.
Proof.
  unfold SuggestFeature. destruct (_ =? "")%string; [done|]. destruct (assoc _ ungatedCapabilities); [done|].
  destruct (IsKnownFeature _ && _) eqn:Ek.
  { apply andb_prop in Ek as [Ek%bool_decide_eq_true _]. by intros [= <-]. }
  destruct (assoc _ featureAliases) eqn:Ea; [intros [= <-]; by eapply alias_known|].
  pose proof (nearest_spec (normaliseFeature name)) as H. destruct (nearest _) as [best [d|]]; [|done].
  intros [= <-]. by destruct H.
Qed.

Lemma ValidateFeature_known name : ValidateFeature name = None <-> name ∈ knownFeatures.
Proof.
  unfold ValidateFeature, IsKnownFeature. destruct (bool_decide_reflect (name ∈ knownFeatures)); [done|]. split; [done|].
  intros H. by destruct n.
Qed.

Lemma ValidateFeatures_known names : ValidateFeatures names = [] <-> Forall (fun f => f ∈ knownFeatures) names.
Proof.
  induction names as [|n names IH]; [by split|]. cbn. rewrite Forall_cons, <- IH, <- ValidateFeature_known.
  destruct (ValidateFeature n); cbn; [split; [done|intros [? _]; done]|]. tauto.
Qed.

End Suggested.

(** ** Keys *)

(** What the round trip needs of the signature scheme and of the JSON of a payload:
    a pair signs and verifies, signatures have their length, and a payload whose texts
    are UTF-8 is read back (other texts lose their invalid bytes). *)
Class LicenseLaws (L : LicenseEnv) : Prop := {
  ed25519_correct : forall pub priv m, ed25519_Pair pub priv -> ed25519_Verify pub m (ed25519_Sign priv m) = true;
  ed25519_length : forall priv m, String.length (ed25519_Sign priv m) = SignatureSize;
  payload_roundtrip : forall p t, marshalPayload p = Some t -> validUTF8 (PL_Licensee p) -> Forall validUTF8 (PL_Features p) ->
    t ≠ ""%string /\ unmarshalPayload t = Some p }.

Lemma bytes_app a b : bytes (a +:+ b) = bytes a ++ bytes b.
Proof.
  induction a as [|c a IH]; [done|]. change (String c a +:+ b) with (String c (a +:+ b)). cbn [bytes]. by rewrite IH.
Qed.

Lemma byteOf_injective a b : byteOf a = byteOf b -> a = b.
Proof.
  unfold byteOf. intros H%N2Z.inj. by rewrite <- (Ascii.ascii_N_embedding a), H, Ascii.ascii_N_embedding.
Qed.

Lemma Split_none s : Forall (fun c => c ≠ 46) (bytes s) -> Split s "." = [s].
Proof.
  induction s as [|a s IH]; [done|]. cbn [bytes Split]. intros [Ha Hs]%Forall_cons_1.
  destruct (Ascii.eqb_spec a ".") as [->|_]; [done|]. by rewrite IH.
Qed.

Lemma Split_key a b : Forall (fun c => c ≠ 46) (bytes a) -> Forall (fun c => c ≠ 46) (bytes b) ->
  Split (a +:+ "." +:+ b) "." = [a; b].
Proof.
  intros Ha Hb. induction a as [|c a IH]; [change (""%string :: Split b "." = [""%string; b]); by rewrite Split_none|].
  apply Forall_cons_1 in Ha as [Hc Ha]. change (String c a +:+ "." +:+ b) with (String c (a +:+ "." +:+ b)). cbn [Split].
  destruct (Ascii.eqb_spec c ".") as [->|_]; [done|]. by rewrite IH.
Qed.

Lemma encoded_plain e s : Forall plainChar (bytes (EncodeToString e s)).
Proof.
  unfold EncodeToString. rewrite bytes_ofBytes by apply encode64_bytes, bytes_range. apply encode64_plain, bytes_range.
Qed.

Lemma encoded_nonempty e s : s ≠ ""%string -> EncodeToString e s ≠ ""%string.
Proof.
  intros Hs H. apply Hs. pose proof (decode_encodeString e s) as D. rewrite H in D. by injection D.
Qed.

Lemma known_valid f : f ∈ knownFeatures -> validUTF8 f.
Proof.
  intros H. assert (Hall : Forall (fun f => flat_map encodeRune (runes (bytes f)) = bytes f) knownFeatures)
    by (apply (bool_decide_unpack _); vm_compute; exact I).
  rewrite Forall_forall in Hall. by apply Hall.
Qed.

Section KeyTheorems.
Context `{L : LicenseEnv}.

(** A key that verifies carries a signature over exactly the payload that is read. *)
Lemma Verify_signed VK key lic : Verify VK key = inr lic ->
  exists payload sig p, ed25519_Verify VK payload sig = true /\ unmarshalPayload payload = Some p /\
    lic = mkLicense (PL_Licensee p) (PL_Features p) (PL_Issued p) (PL_Expires p).
Proof.
  unfold Verify. destruct (Split _ _) as [|enc [|sigEnc [|]]]; try done. destruct (_ || _); [done|].
  destruct (DecodeString _ enc) as [payload|]; [|done]. destruct (DecodeString _ sigEnc) as [sig|]; [|done].
  destruct (_ || negb _) eqn:Ev; [done|]. apply orb_false_elim in Ev as [_ Ev%negb_false_iff].
  destruct (unmarshalPayload payload) as [p|] eqn:Ep; [|done]. intros [= <-]. by exists payload, sig, p.
Qed.

(** The times at which a licence is valid, spelt out. *)
Lemma ValidAt_spec l t : ValidAt (Some l) t = true <->
  (Issued l = zeroTime \/ Issued l <= t) /\ (Expires l = zeroTime \/ t < Expires l).
Proof.
  unfold ValidAt, IsZero. destruct (Z.eqb_spec (Issued l) zeroTime), (Z.eqb_spec (Expires l) zeroTime); cbn [negb andb];
    repeat match goal with |- context [(?a <? ?b)%Z] => destruct (Z.ltb_spec a b) end; cbn; split; intros; try done; lia || tauto.
Qed.

Lemma HasFeature_elem l f : HasFeature (Some l) f = true <-> f ∈ Features l.
Proof.
  cbn. rewrite existsb_exists. setoid_rewrite String.eqb_eq. split.
  - intros (x & Hx & ->). by apply list_elem_of_In.
  - intros H. exists f. by rewrite <- list_elem_of_In.
Qed.

Context `{!LicenseLaws L}.

(** A key made by [Sign] is read back by [Verify] as the payload that was signed. *)
Lemma Verify_Sign pub priv p key : ed25519_Pair pub priv -> validUTF8 (PL_Licensee p) -> Forall validUTF8 (PL_Features p) ->
  Sign priv p = inr key ->
  TrimSpace key = key /\ key ≠ ""%string /\
  Verify pub key = inr (mkLicense (PL_Licensee p) (PL_Features p) (PL_Issued p) (PL_Expires p)).
Proof.
  unfold Sign. intros Hp Hu Hf. destruct (negb _); [done|]. destruct (marshalPayload p) as [t|] eqn:Em; [|done].
  intros [= <-]. destruct (payload_roundtrip p t Em Hu Hf) as [Ht Hr]. set (sig := ed25519_Sign priv t).
  assert (Hs : sig ≠ ""%string) by (intros H; pose proof (ed25519_length priv t) as Hl; fold sig in Hl; rewrite H in Hl; discriminate Hl).
  pose proof (encoded_plain RawURLEncoding t) as Pt. pose proof (encoded_plain RawURLEncoding sig) as Ps.
  pose proof (encoded_nonempty RawURLEncoding _ Ht) as Nt. pose proof (encoded_nonempty RawURLEncoding _ Hs) as Ns.
  assert (Htrim : TrimSpace (EncodeToString RawURLEncoding t +:+ "." +:+ EncodeToString RawURLEncoding sig) =
                  EncodeToString RawURLEncoding t +:+ "." +:+ EncodeToString RawURLEncoding sig).
  { apply TrimSpace_plain. rewrite !bytes_app, !Forall_app. split_and!; [|repeat constructor|];
      (eapply Forall_impl; [eassumption|intros c (_ & _ & Hc); exact Hc]). }
  split; [done|]. split; [by destruct (EncodeToString RawURLEncoding t)|]. unfold Verify. rewrite Htrim, Split_key
    by (eapply Forall_impl; [eassumption|intros c (_ & Hc & _); exact Hc]).
  apply String.eqb_neq in Nt, Ns. rewrite Nt, Ns. cbn [orb]. rewrite !decode_encodeString. subst sig.
  rewrite ed25519_length, ed25519_correct, Hr by done. done.
Qed.

End KeyTheorems.

Lemma mergeFeature_NoDup l : forall feats, NoDup feats -> NoDup (fold_left mergeFeature l feats).
Proof.
  induction l as [|f l IH]; intros feats H; [done|]. cbn [fold_left]. apply IH. unfold mergeFeature.
  destruct (negb _); cbn [andb]; [|done]. destruct (bool_decide_reflect (TrimSpace f ∈ feats)); cbn [negb]; [done|].
  apply NoDup_app. split_and!; [done| |apply NoDup_singleton].
  intros x Hx ->%list_elem_of_singleton. done.
Qed.

Section Gate.
Context `{L : LicenseEnv}.

(** The server opens a feature only to a key that the embedded public key has signed:
    if a licence read from the environment allows [f] at [now], then some payload with
    a valid signature lists [f], and [now] is not before its issue nor at or after its
    expiry. *)
Theorem license_gate VK getenv lic now f :
  FromEnv VK getenv = inr lic -> licenseAllows (Some lic) now f = true ->
  exists payload sig p,
    ed25519_Verify VK payload sig = true /\ unmarshalPayload payload = Some p /\ f ∈ PL_Features p /\
    (PL_Issued p = zeroTime \/ PL_Issued p <= now) /\ (PL_Expires p = zeroTime \/ now < PL_Expires p).
Proof.
  unfold FromEnv, licenseAllows. intros Hl [Hv%ValidAt_spec Hf%HasFeature_elem]%andb_prop.
  destruct (_ =? "")%string; [injection Hl as <-; by apply not_elem_of_nil in Hf|].
  apply Verify_signed in Hl as (payload & sig & p & H1 & H2 & ->). by exists payload, sig, p.
Qed.

Context `{U : Unicode} `{!LicenseLaws L}.

(** What the flags of the command line say: the issue (now by default), the expiry (an
    explicit one, or the time to live after the issue) and the features, trimmed and not
    blank. *)
Definition flagIssued (timeParse : string -> option Time) (now : Time) (flags : SignFlags) (t : Time) : Prop :=
  sf_issued flags = ""%string /\ t = now \/ sf_issued flags ≠ ""%string /\ timeParse (sf_issued flags) = Some t.

Definition flagExpires (timeParse : string -> option Time) (flags : SignFlags) (issued t : Time) : Prop :=
  sf_expires flags ≠ ""%string /\ sf_ttl flags = 0 /\ timeParse (sf_expires flags) = Some t \/
  sf_expires flags = ""%string /\ 0 < sf_ttl flags /\ t = issued + sf_ttl flags.

Definition flagFeature (flags : SignFlags) (f : string) : Prop :=
  f ≠ ""%string /\
  ((exists g, g ∈ sf_feature flags /\ TrimSpace g ≠ ""%string /\ TrimSpace (TrimSpace g) = f) \/
   (exists g, g ∈ Split (sf_features flags) "," /\ TrimSpace g = f)).

Lemma signExpiry_flag timeParse flags issued t : signExpiry timeParse flags issued = inr t -> flagExpires timeParse flags issued t.
Proof.
  unfold signExpiry, flagExpires. destruct (String.eqb_spec (sf_expires flags) "") as [He|He]; cbn [negb andb].
  - destruct (Z.ltb_spec 0 (sf_ttl flags)); [|done]. intros [= <-]. by right.
  - destruct (Z.eqb_spec (sf_ttl flags) 0) as [Ht|]; [|done]. cbn [negb]. destruct (timeParse _); [|done]. intros [= <-]. by left.
Qed.

Lemma mergeFeature_elem l f : forall feats, f ∈ fold_left mergeFeature l feats <->
  f ∈ feats \/ f ≠ ""%string /\ exists g, g ∈ l /\ TrimSpace g = f.
Proof.
  induction l as [|g l IH]; intros feats; cbn [fold_left]; [set_solver|]. rewrite IH. unfold mergeFeature.
  destruct (String.eqb_spec (TrimSpace g) "") as [Hg|Hg]; cbn [negb andb].
  { setoid_rewrite elem_of_cons. split; [naive_solver|]. intros [H|(Hf & x & [->|Hx] & Hx')]; [by left|congruence|right; eauto]. }
  setoid_rewrite elem_of_cons. case_bool_decide; cbn [negb].
  - split; [naive_solver|]. intros [|(Hf & x & [->|Hx] & <-)]; [by left|by left|right; eauto].
  - rewrite elem_of_app, list_elem_of_singleton. naive_solver.
Qed.

Lemma multiFlag_elem l h : forall acc, h ∈ fold_left multiFlagSet l acc <->
  h ∈ acc \/ exists g, g ∈ l /\ TrimSpace g ≠ ""%string /\ h = TrimSpace g.
Proof.
  induction l as [|g l IH]; intros acc; cbn [fold_left]; [set_solver|]. rewrite IH. unfold multiFlagSet. setoid_rewrite elem_of_cons.
  destruct (String.eqb_spec (TrimSpace g) "") as [Hg|Hg].
  - split; [naive_solver|]. intros [H|(x & [->|Hx] & Hx')]; [by left|by destruct Hx'|right; eauto].
  - rewrite elem_of_app, list_elem_of_singleton. naive_solver.
Qed.

Lemma mergeFeatures_flag flags f : f ∈ mergeFeatures flags <-> flagFeature flags f.
Proof.
  unfold mergeFeatures, flagFeature. rewrite !mergeFeature_elem. setoid_rewrite multiFlag_elem. setoid_rewrite elem_of_nil. split.
  - intros [[[]|(Hf & h & [[]|(g & Hg & Hn & ->)] & <-)]|(Hf & g & Hg & <-)]; (split; [done|]); [left; by exists g|right; by exists g].
  - intros (Hf & [(g & Hg & Hn & <-)|(g & Hg & <-)]); [left; right; split; [done|]; eexists; split; [right; by exists g|done]|right; by eauto].
Qed.

(** (C30) A key that the signer mints without [--allow-unknown-feature], for a licensee
    whose name is valid UTF-8, works when it reaches a server with the matching public
    key: the server reads the licensee, the issue (that of --issued, or the time of the
    command), the expiry (that of --expires, or --ttl after the issue) and the features
    of the command line (trimmed, not blank, each once), every one of which is the flag
    of a gate, and opens exactly those from the issue until the expiry; a zero time sets
    no bound. *)
Theorem signed_key_unlocks timeParse stat getenv now flags pub priv key :
  ed25519_Pair pub priv -> loadSigningKey stat getenv (sf_key flags) = inr priv ->
  validUTF8 (sf_licensee flags) -> sf_allowUnknown flags = false ->
  signCmd timeParse stat getenv now flags = inr key ->
  exists lic issued expires, FromEnv pub key = inr lic /\ Licensee lic = sf_licensee flags /\
    flagIssued timeParse now flags issued /\ flagExpires timeParse flags issued expires /\
    Issued lic = issued /\ Expires lic = expires /\
    NoDup (Features lic) /\ (forall f, f ∈ Features lic <-> flagFeature flags f) /\ Forall (fun f => f ∈ gates) (Features lic) /\
    forall t f, licenseAllows (Some lic) t f = true <->
      flagFeature flags f /\ (issued = zeroTime \/ issued <= t) /\ (expires = zeroTime \/ t < expires).
Proof.
  intros Hp Hk Hu Ha. unfold signCmd. destruct (_ =? "")%string; [done|].
  destruct (if (sf_issued flags =? "")%string then Some now else timeParse (sf_issued flags)) as [issued|] eqn:Hi; [|done].
  assert (Hissued : flagIssued timeParse now flags issued).
  { unfold flagIssued. destruct (String.eqb_spec (sf_issued flags) ""); [left; split; congruence|by right]. }
  destruct (signExpiry _ _ _) as [|expires] eqn:Hx; [done|]. apply signExpiry_flag in Hx. rewrite Hk, Ha. cbn [negb]. rewrite andb_true_r.
  destruct (Nat.eqb_spec (length (ValidateFeatures (mergeFeatures flags))) 0) as [He|]; [|done]. cbn [negb].
  apply nil_length_inv, ValidateFeatures_known in He.
  destruct (Sign _ _) as [|k] eqn:Es; [done|]. intros [= ->].
  assert (Hf : Forall validUTF8 (mergeFeatures flags)) by (eapply Forall_impl; [exact He|exact known_valid]).
  destruct (Verify_Sign pub priv (mkPayload (sf_licensee flags) (mergeFeatures flags) issued expires) key Hp Hu Hf Es) as (Ht & Hn & Hv). apply String.eqb_neq in Hn.
  eexists _, issued, expires. unfold FromEnv. rewrite Ht, Hn. split; [exact Hv|]. cbn [Licensee Features Issued Expires PL_Licensee PL_Features PL_Issued PL_Expires].
  split_and!; try done.
  - unfold mergeFeatures. apply mergeFeature_NoDup, mergeFeature_NoDup, NoDup_nil_2.
  - apply mergeFeatures_flag.
  - intros t f. unfold licenseAllows. rewrite andb_true_iff, ValidAt_spec, HasFeature_elem. cbn [Features Issued Expires PL_Features].
    rewrite mergeFeatures_flag. tauto.
Qed.

End Gate.

(** ** Instances *)

Definition exLicenseEnv : LicenseEnv := {|
  ed25519_Sign := fun priv m => "signature-of-sixty-four-bytes-0123456789012345678901234567890123";
  ed25519_Verify := fun pub m sig => (pub =? "trust root")%string && (sig =? "signature-of-sixty-four-bytes-0123456789012345678901234567890123")%string;
  ed25519_Pair := fun pub priv => pub = "trust root"%string;
  marshalPayload := fun p => Some (toText (PL_Licensee p, PL_Features p, PL_Issued p, PL_Expires p));
  unmarshalPayload := fun s => (fun '(l, f, i, e) => mkPayload l f i e) <$> ofText s |}.

Lemma exLicenseLaws : LicenseLaws exLicenseEnv.
Proof.
  split; cbn [ed25519_Verify ed25519_Sign ed25519_Pair marshalPayload unmarshalPayload exLicenseEnv].
  - intros pub priv m ->. reflexivity.
  - reflexivity.
  - intros [l f i e] t [= <-] _ _. split; [apply toText_nonempty|]. cbn [PL_Licensee PL_Features PL_Issued PL_Expires].
    by rewrite ofText_toText.
Qed.

Definition exPriv : string := "a private key of sixty-four bytes, as the generator writes them.".
Definition exSignFlags : SignFlags :=
  mkSignFlags "Acme" [" audit"; "billing "; "audit"] "gdpr,,billing" (3600 * Second) "" "" "signing.key" false.
Definition exStat (path : string) : option (option string) :=
  if (path =? "signing.key")%string then Some (Some (EncodeToString StdEncoding exPriv +:+ String "010" "")) else None.

Definition exUnicode : Unicode := {| unicode_ToLower := fun r => r |}.

Definition exKey : string :=
  match signCmd (L := exLicenseEnv) (U := exUnicode) (fun _ => None) exStat "" 0 exSignFlags with inr k => k | inl _ => "" end.

Lemma exKey_minted : signCmd (L := exLicenseEnv) (U := exUnicode) (fun _ => None) exStat "" 0 exSignFlags = inr exKey.
Proof. vm_compute. reflexivity. Qed.

Lemma exPriv_loaded : loadSigningKey exStat "" (sf_key exSignFlags) = inr exPriv.
Proof. vm_compute. reflexivity. Qed.

Lemma signed_key_unlocks_witness :
  exists lic, FromEnv (L := exLicenseEnv) "trust root" exKey = inr lic /\
    licenseAllows (Some lic) Second "gdpr" = true /\ licenseAllows (Some lic) (3600 * Second) "gdpr" = false.
Proof.
  destruct (signed_key_unlocks (L := exLicenseEnv) (U := exUnicode) (LicenseLaws0 := exLicenseLaws)
    (fun _ => None) exStat "" 0 exSignFlags "trust root" exPriv exKey) as (lic & issued & expires & H1 & _);
    [reflexivity|exact exPriv_loaded|reflexivity|reflexivity|exact exKey_minted|].
  exists lic. split; [exact H1|].
  assert (H2 : FromEnv (L := exLicenseEnv) "trust root" exKey = inr (mkLicense "Acme" ["audit"; "billing"; "gdpr"] 0 (3600 * Second)))
    by (vm_compute; reflexivity).
  rewrite H1 in H2. injection H2 as ->. split; reflexivity.
Defined.

Lemma license_gate_witness :
  exists payload sig p, ed25519_Verify (LicenseEnv := exLicenseEnv) "trust root" payload sig = true /\
    unmarshalPayload (LicenseEnv := exLicenseEnv) payload = Some p /\ "gdpr"%string ∈ PL_Features p.
Proof.
  destruct (license_gate (L := exLicenseEnv) "trust root" exKey
    (mkLicense "Acme" ["audit"; "billing"; "gdpr"] 0 (3600 * Second)) Second "gdpr") as (payload & sig & p & H1 & H2 & H3 & _);
    [vm_compute; reflexivity|vm_compute; reflexivity|].
  by exists payload, sig, p.
Defined.

(** A slip of the hand is corrected, a product name translated, and a capability that
    no flag gates is explained rather than guessed. *)
Example suggestions :
  SuggestFeature (U := exUnicode) "Policy-Engine" = Some "policy_engine"%string /\
  SuggestFeature (U := exUnicode) "biling" = Some "billing"%string /\
  SuggestFeature (U := exUnicode) "Chargeback" = Some "billing"%string /\
  SuggestFeature (U := exUnicode) "ha" = None /\ SuggestFeature (U := exUnicode) "quantum" = None.
Proof. vm_compute. repeat split. Qed.

(** Both embedded keys decode to keys of the right length. *)
Example embedded_keys : is_Some (mustDecodeKey ProductionPublicKeyBase64) /\ is_Some (mustDecodeKey DevPublicKeyBase64).
Proof. split; vm_compute; eauto. Qed.

(** The signer accepts an expiry before the issue; such a key verifies and opens nothing. *)
Definition exStaleFlags : SignFlags := mkSignFlags "Acme" ["audit"%string] "" 0 "2025-01-01T00:00:00Z" "" "signing.key" false.

Example expired_when_signed :
  exists key lic, signCmd (L := exLicenseEnv) (U := exUnicode) parseRFC3339 exStat "" 1767225600000000000 exStaleFlags = inr key /\
    Verify (L := exLicenseEnv) "trust root" key = inr lic /\ forall t, ValidAt (Some lic) t = false.
Proof.
  exists (match signCmd (L := exLicenseEnv) (U := exUnicode) parseRFC3339 exStat "" 1767225600000000000 exStaleFlags
          with inr k => k | inl _ => ""%string end),
    (mkLicense "Acme" ["audit"%string] 1767225600000000000 1735689600000000000).
  split; [vm_compute; reflexivity|]. split; [vm_compute; reflexivity|]. intros t. apply not_true_is_false.
  intros [[H1|H1] [H2|H2]]%ValidAt_spec; cbn in *; try discriminate. lia.
Qed.
