(* ===== verification/Raft.v ===== *)
(** * Raft: the replicated state machine

    [raft/fsm.go], the state machine that applies the entries of the Raft log to the
    local registry, and the status report of [server/cluster_handler.go]. The consensus
    protocol is the library's: a log is a list of entries, every replica applies the
    same one, each with its own clock and its own database faults (its own [Env]).

    The JSON codecs are parameters. [hides_secrets] states the one thing about them
    that matters: a field tagged [json:"-"] is not written and reads as empty. *)
From S2P Require Import Prelude Float64 AuditChain Cluster Registry Statements Platform Credentials.
Import Row.
Open Scope Z_scope.

(** ** Commands *)

(** In the order of the [iota]s. *)
Inductive CommandType : Set :=
| CmdCreateModel | CmdDeleteModel | CmdCreateDeployment | CmdUpdateDeploymentState | CmdCreateAPIKey | CmdRevokeAPIKey
| CmdRecordInferenceEvent | CmdUpsertPolicy | CmdDeletePolicy | CmdRequestApproval | CmdUpdateApprovalStatus
| CmdCreateNode | CmdUpdateNode | CmdDeleteNode | CmdUpsertLink | CmdUpdateModel | CmdCreatePlan | CmdDeletePlan
| CmdUpdateDeployment | CmdDeleteDeployment | CmdUpdateAPIKey | CmdDeleteAPIKey | CmdCreateCert | CmdUpdateCert
| CmdDeleteCert | CmdAppendAudit | CmdRecordUsage.

Definition commandTypes : list CommandType :=
  [CmdCreateModel; CmdDeleteModel; CmdCreateDeployment; CmdUpdateDeploymentState; CmdCreateAPIKey; CmdRevokeAPIKey;
   CmdRecordInferenceEvent; CmdUpsertPolicy; CmdDeletePolicy; CmdRequestApproval; CmdUpdateApprovalStatus;
   CmdCreateNode; CmdUpdateNode; CmdDeleteNode; CmdUpsertLink; CmdUpdateModel; CmdCreatePlan; CmdDeletePlan;
   CmdUpdateDeployment; CmdDeleteDeployment; CmdUpdateAPIKey; CmdDeleteAPIKey; CmdCreateCert; CmdUpdateCert;
   CmdDeleteCert; CmdAppendAudit; CmdRecordUsage].

#[export] Instance CommandType_eq_dec : EqDecision CommandType.
Proof. solve_decision. Defined.

(** The type byte of a log entry; [None] is a type this binary does not know. *)
Definition commandOf (b : Z) : option CommandType := commandTypes !! Z.to_nat b.

(** [Data] is the raw JSON of the arguments. *)
Record Entry : Type := mkEntry { cmd_Type : Z; cmd_Data : string }.

Record updateDeploymentStateArgs : Type := mkStateArgs { SA_ID : string; SA_State : string }.
Record recordUsageArgs : Type := mkUsageArgs {
  RU_APIKeyID : string; RU_ModelID : string; RU_InputTokens : Z; RU_OutputTokens : Z }.
Record revokeAPIKeyArgs : Type := mkRevokeArgs { RA_ID : string }.

(** [json.Unmarshal] into each of the types. *)
Class RaftCodec : Type := {
  unmarshalCommand : string -> option Entry;
  unmarshalID : string -> option string;
  unmarshalNode : string -> option Node;
  unmarshalLink : string -> option Link;
  unmarshalModel : string -> option Model;
  unmarshalPlan : string -> option Plan;
  unmarshalDeployment : string -> option Deployment;
  unmarshalStateArgs : string -> option updateDeploymentStateArgs;
  unmarshalAPIKey : string -> option APIKeyRow;
  unmarshalRevokeArgs : string -> option revokeAPIKeyArgs;
  unmarshalCert : string -> option Cert;
  unmarshalAudit : string -> option AuditEntry;
  unmarshalUsageArgs : string -> option recordUsageArgs }.

(** [KeyHash] of a key and [PEM] of a certificate are tagged [json:"-"]. *)
Class HidesSecrets (R : RaftCodec) : Prop := {
  hides_key : forall s k, unmarshalAPIKey s = Some k -> AKKeyHash k = ""%string;
  hides_cert : forall s c, unmarshalCert s = Some c -> CPEM c = ""%string }.

Definition BadJSON : Error := ErrorString "json: cannot unmarshal".

Section FSM.
Context `{E : Env} `{R : RaftCodec}.

Definition decoded {A} (dec : string -> option A) (data : string) (k : A -> M (option Error)) : M (option Error) :=
  match dec data with None => cret (Some BadJSON) | Some a => k a end.

Definition withState (d : Deployment) (state : string) : Deployment :=
  mkDeployment (DID d) (DModelID d) (DPlanID d) state (DDetail d) (DCreatedAt d) (DUpdatedAt d).

Definition withEnabled (k : APIKeyRow) (enabled : bool) : APIKeyRow :=
  mkAPIKeyRow (AKID k) (AKName k) (AKKeyHash k) (AKTenant k) (AKRole k) (AKQuota k) enabled (AKCreatedAt k)
    (AKUpdatedAt k) (AKExpiresAt k) (AKLastUsedAt k) (AKPredecessorID k) (AKRotatedAt k) (AKScopes k) (AKCreatedBy k).

(** The [switch] of [Apply]. *)
Definition dispatch (t : CommandType) (data : string) : M (option Error) :=
  match t with
  | CmdCreateNode => decoded unmarshalNode data CreateNode
  | CmdUpdateNode => decoded unmarshalNode data UpdateNode
  | CmdDeleteNode => decoded unmarshalID data DeleteNode
  | CmdUpsertLink => decoded unmarshalLink data UpsertLink
  | CmdCreateModel => decoded unmarshalModel data CreateModel
  | CmdUpdateModel => decoded unmarshalModel data UpdateModel
  | CmdDeleteModel => decoded unmarshalID data DeleteModel
  | CmdCreatePlan => decoded unmarshalPlan data CreatePlan
  | CmdDeletePlan => decoded unmarshalID data DeletePlan
  | CmdCreateDeployment => decoded unmarshalDeployment data CreateDeployment
  | CmdUpdateDeployment => decoded unmarshalDeployment data UpdateDeployment
  | CmdUpdateDeploymentState =>
      decoded unmarshalStateArgs data (fun args =>
        let* d := GetDeployment (SA_ID args) in
        match d with
        | inl e => cret (Some e)
        | inr d => UpdateDeployment (withState d (SA_State args))
        end)
  | CmdDeleteDeployment => decoded unmarshalID data DeleteDeployment
  | CmdCreateAPIKey => decoded unmarshalAPIKey data CreateAPIKey
  | CmdUpdateAPIKey => decoded unmarshalAPIKey data UpdateAPIKey
  | CmdRevokeAPIKey =>
      decoded unmarshalRevokeArgs data (fun args =>
        let* k := GetAPIKey (RA_ID args) in
        match k with
        | inl e => cret (Some e)
        | inr k => UpdateAPIKey (withEnabled k false)
        end)
  | CmdDeleteAPIKey => decoded unmarshalID data DeleteAPIKey
  | CmdCreateCert => decoded unmarshalCert data CreateCert
  | CmdUpdateCert => decoded unmarshalCert data UpdateCert
  | CmdDeleteCert => decoded unmarshalID data DeleteCert
  | CmdAppendAudit => decoded unmarshalAudit data AppendAudit
  | CmdRecordInferenceEvent => cret None
  | CmdUpsertPolicy | CmdDeletePolicy => cret None
  | CmdRequestApproval | CmdUpdateApprovalStatus => cret None
  | CmdRecordUsage =>
      decoded unmarshalUsageArgs data (fun a => RecordUsage (RU_APIKeyID a) (RU_ModelID a) (RU_InputTokens a) (RU_OutputTokens a))
  end.

(** The result goes to the caller that proposed the entry; the log goes on. *)
Definition Apply (logData : string) : M (option Error) :=
  match unmarshalCommand logData with
  | None => cret (Some BadJSON)
  | Some cmd =>
      match commandOf (cmd_Type cmd) with
      | Some t => dispatch t (cmd_Data cmd)
      | None => cret None
      end
  end.

(** A replica applies the entries in their order. *)
Fixpoint replay (log : list string) : M (list (option Error)) :=
  match log with
  | [] => cret []
  | l :: log => let* r := Apply l in let* rs := replay log in cret (r :: rs)
  end.

(** The body of a snapshot is empty, and restoring one changes nothing. *)
Definition Persist (db : Database) : string := "".
Definition Restore (body : string) : M (option Error) := cret None.

(** A replica that joins late gets a snapshot, then the entries behind it. *)
Definition catchUp (snapshot : string) (rest : list string) : M (list (option Error)) :=
  let* _ := Restore snapshot in replay rest.

End FSM.

(** ** The status of the cluster ([cluster_handler.go]) *)

Record RaftNode : Type := mkRaftNode {
  IsLeader : bool; LeaderAddr : string; Stats : gmap string string; State_ : string }.

Record ClusterStatus : Type := mkClusterStatus {
  cs_mode : string; cs_isLeader : bool; cs_detail : option (string * string * gmap string string) }.

Definition handleClusterStatus (node : option RaftNode) : ClusterStatus :=
  match node with
  | None => mkClusterStatus "standalone" true None
  | Some n => mkClusterStatus "raft" (IsLeader n) (Some (LeaderAddr n, State_ n, Stats n))
  end.

(** ** What the replicas agree on

    The registry stamps rows with the local clock, and the hash of an audit row covers
    its stamp. [erase] forgets those columns, and of a hash all but whether it is
    hexadecimal, on which the next append depends; two databases agree when they differ
    in them only. *)

Definition eraseNode (n : Node) : Node :=
  mkNode (ID n) (Hostname n) (OS n) (Arch n) (RAMGB n) (VRAMGB n) (State n) (AdvertisedAgentAddr n)
    (AdvertisedInferenceAddr n) (LastSeen n) (HardwareProfile n) 0 0.
Definition eraseModel (m : Model) : Model :=
  mkModel (MID m) (Family m) (Architecture m) (ParamsTotalB m) (Engine m) (Type_ m) (Spec m) (Source m) 0 0.
Definition erasePlan (p : Plan) : Plan := mkPlan (PID p) (PModelID p) (PQuantization p) (PCost p) (PPlan p) 0.
Definition eraseDeployment (d : Deployment) : Deployment :=
  mkDeployment (DID d) (DModelID d) (DPlanID d) (DState d) (DDetail d) 0 0.
Definition eraseHash (h : string) : string := match hexDecode h with Some _ => "hex" | None => "" end.
Definition eraseAudit (r : AuditRow) : AuditRow :=
  let e := AREntry r in
  mkAuditRow (mkAuditEntry (Actor e) (Action e) (Target e) (Details e) 0) (ARSeq r) "" (eraseHash (ARHash r)).
Definition eraseLink (l : Link) : Link := mkLink (LFromNode l) (LToNode l) (LBandwidthGBs l) (LRTTMs l) 0.
Definition eraseCert (c : Cert) : Cert :=
  mkCert (CSerial c) (CSubject c) (CRole c) (CPEM c) (CNotBefore c) (CNotAfter c) (CState c) 0.
Definition eraseKey (k : APIKeyRow) : APIKeyRow :=
  mkAPIKeyRow (AKID k) (AKName k) (AKKeyHash k) (AKTenant k) (AKRole k) (AKQuota k) (AKEnabled k) 0 0 (AKExpiresAt k)
    (AKLastUsedAt k) (AKPredecessorID k) (AKRotatedAt k) (AKScopes k) (AKCreatedBy k).
Definition eraseUsage (u : UsageRow) : UsageRow :=
  mkUsageRow (UGAPIKeyID u) (UGModelID u) (UGInputTokens u) (UGOutputTokens u) 0.

Definition eraseCreds (t : CredentialTables) : CredentialTables :=
  mkCredentialTables (eraseKey <$> ct_keys t) (ct_keyAccess t) (ct_sessions t) (ct_pkce t) (ct_accounts t)
    (eraseUsage <$> ct_usage t).

Definition eraseEnterprise (t : EnterpriseTables) : EnterpriseTables :=
  mkEnterpriseTables (eraseCreds (et_credentials t)) (et_review t) (et_inference t) (et_planes t) (et_tenancy t).

Definition erase (db : Database) : Database :=
  mkDatabase (eraseNode <$> db_nodes db) (eraseModel <$> db_models db) (erasePlan <$> db_plans db)
    (eraseDeployment <$> db_deployments db) (eraseAudit <$> db_audit db) (eraseLink <$> db_links db)
    (eraseCert <$> db_certs db) (db_platform db) (eraseEnterprise (db_enterprise db)).

Definition agree (db db' : Database) : Prop := erase db = erase db'.

#[export] Instance agree_equivalence : Equivalence agree.
Proof. split; [intros x|intros x y|intros x y z]; unfold agree; congruence. Qed.

(** ** Tables up to the stamps *)

Definition sameRows {K A} `{Countable K} (f : A -> A) (t t' : gmap K A) : Prop := f <$> t = f <$> t'.

(** The same error, or related values. *)
Definition sameResult {A} (P : A -> A -> Prop) (r r' : Error + A) : Prop :=
  match r, r' with inl e, inl e' => e = e' | inr a, inr a' => P a a' | _, _ => False end.

Lemma sameRows_lookup {K A} `{Countable K} (f : A -> A) (t t' : gmap K A) k :
  sameRows f t t' -> f <$> t !! k = f <$> t' !! k.
Proof. intros H1. by rewrite <- !lookup_fmap, H1. Qed.

(** The chain: the same position, and hashes that are both hexadecimal or neither. *)
Definition sameTail (t t' : option (Z * string)) : Prop :=
  match t, t' with
  | Some (s, h), Some (s', h') => s = s' /\ eraseHash h = eraseHash h'
  | None, None => True
  | _, _ => False
  end.

Lemma auditTail_same rows : forall rows', eraseAudit <$> rows = eraseAudit <$> rows' ->
  sameTail (auditTail rows) (auditTail rows').
Proof.
  unfold auditTail. assert (H0 : sameTail None None) by done. revert H0. generalize (@None (Z * string)) at 1 3.
  generalize (@None (Z * string)). intros t' t. revert t t'.
  induction rows as [|r rows IH]; intros t t' Ht [|r' rows']; [done|done|done|]. intros [= H1 H2 H3 H4 H5 H6 H7]. cbn.
  apply IH; [|done]. rewrite H5. destruct (ARSeq r') as [s|]; [|done]. destruct t as [[s0 h0]|], t' as [[s1 h1]|]; try done.
  destruct Ht as [-> Hh]. by destruct (s1 <? s).
Qed.

Lemma chainAudit_same (E1 E2 : Env) e e' rows rows' :
  Actor e = Actor e' -> Action e = Action e' -> Target e = Target e' -> Details e = Details e' ->
  eraseAudit <$> rows = eraseAudit <$> rows' ->
  sameResult (fun l l' => eraseAudit <$> l = eraseAudit <$> l') (chainAudit (E := E1) e rows) (chainAudit (E := E2) e' rows').
Proof.
  intros H1 H2 H3 H4 H. unfold chainAudit.
  assert (Hn : fst (nextInChain rows) = fst (nextInChain rows') /\
               eraseHash (snd (nextInChain rows)) = eraseHash (snd (nextInChain rows'))).
  { unfold nextInChain. pose proof (auditTail_same rows rows' H) as Ht.
    destruct (auditTail rows) as [[s h]|], (auditTail rows') as [[s' h']|]; try done. by destruct Ht as [-> Ht]. }
  destruct (nextInChain rows) as [seq prev], (nextInChain rows') as [seq' prev']. cbn [fst snd] in Hn. destruct Hn as [-> Hp].
  assert (Hex : existsb (fun r => bool_decide (ARSeq r = Some (seqColumn seq'))) rows =
                existsb (fun r => bool_decide (ARSeq r = Some (seqColumn seq'))) rows').
  { revert rows' H. induction rows as [|r rows IH]; intros [|r' rows'] H; try done. injection H as _ _ _ _ Hs _ Hr. cbn.
    by rewrite Hs, (IH rows' Hr). }
  rewrite Hex. unfold ComputeHash. cbn [ChainEntry PrevHash ARPrevHash]. unfold eraseHash in Hp.
  destruct (hexDecode prev), (hexDecode prev'); try done. destruct (existsb _ rows'); [done|]. cbn.
  rewrite !fmap_app, H. cbn. unfold eraseAudit, eraseHash. cbn. by rewrite !hexDecode_encode, H1, H2, H3, H4.
Qed.

Section Tables.
Context {A : Type} (f : A -> A).
Implicit Types t : gmap string A.

Lemma insertRow_same what t t' k row row' : sameRows f t t' -> f row = f row' ->
  sameResult (sameRows f) (insertRow what t k row) (insertRow what t' k row').
Proof.
  intros Ht Hr. pose proof (sameRows_lookup f t t' k Ht) as Hk. unfold insertRow.
  destruct (t !! k), (t' !! k); try done. cbn. unfold sameRows. by rewrite !fmap_insert, Ht, Hr.
Qed.

Lemma updateRow_same t t' k g g' : sameRows f t t' -> (forall a a', f a = f a' -> f (g a) = f (g' a')) ->
  sameResult (sameRows f) (updateRow t k g) (updateRow t' k g').
Proof.
  intros Ht Hg. pose proof (sameRows_lookup f t t' k Ht) as Hk. unfold updateRow.
  destruct (t !! k) as [a|], (t' !! k) as [a'|]; try done. cbn in *. injection Hk as Hk. unfold sameRows.
  by rewrite !fmap_insert, Ht, (Hg a a' Hk).
Qed.

Lemma deleteRow_same t t' k : sameRows f t t' -> sameResult (sameRows f) (deleteRow t k) (deleteRow t' k).
Proof.
  intros Ht. pose proof (sameRows_lookup f t t' k Ht) as Hk. unfold deleteRow.
  destruct (t !! k), (t' !! k); try done. cbn. unfold sameRows. by rewrite !fmap_delete, Ht.
Qed.

Lemma getRow_same t t' k : sameRows f t t' -> sameResult (fun a a' => f a = f a') (getRow t k) (getRow t' k).
Proof.
  intros Ht. pose proof (sameRows_lookup f t t' k Ht) as Hk. unfold getRow.
  destruct (t !! k), (t' !! k); try done. cbn in *. congruence.
Qed.

Lemma taken_spec t k same : taken t k same = true <-> exists k' a, t !! k' = Some a /\ k' ≠ k /\ same a = true.
Proof.
  unfold taken. rewrite existsb_exists. split.
  - intros ([k' a] & Hin & [Hn Hs]%andb_prop). apply list_elem_of_In, elem_of_map_to_list in Hin.
    exists k', a. apply negb_true_iff, bool_decide_eq_false in Hn. done.
  - intros (k' & a & Ht & Hn & Hs). exists (k', a). rewrite <- list_elem_of_In, elem_of_map_to_list. split; [done|].
    cbn. by rewrite (bool_decide_eq_false_2 _ Hn), Hs.
Qed.

Lemma taken_same t t' k same : sameRows f t t' -> (forall a a', f a = f a' -> same a = same a') -> taken t k same = taken t' k same.
Proof.
  intros Ht Hs. apply eq_true_iff_eq. rewrite !taken_spec.
  split; intros (k' & a & Hk & Hn & Ha); pose proof (sameRows_lookup f t t' k' Ht) as Hl; rewrite Hk in Hl.
  - destruct (t' !! k') as [a'|] eqn:E; [|done]. exists k', a'. injection Hl as Hl. by rewrite <- (Hs a a' Hl).
  - destruct (t !! k') as [a'|] eqn:E; [|done]. exists k', a'. injection Hl as Hl. by rewrite (Hs a' a Hl).
Qed.

End Tables.

Lemma result_map_same {A B} (P : A -> A -> Prop) (Q : B -> B -> Prop) (g g' : A -> B) r r' :
  sameResult P r r' -> (forall a a', P a a' -> Q (g a) (g' a')) -> sameResult Q (result_map g r) (result_map g' r').
Proof. destruct r, r'; cbn; auto. Qed.

(** ** Databases that agree *)

Lemma agree_fields db db' : agree db db' ->
  sameRows eraseNode (db_nodes db) (db_nodes db') /\ sameRows eraseModel (db_models db) (db_models db') /\
  sameRows erasePlan (db_plans db) (db_plans db') /\ sameRows eraseDeployment (db_deployments db) (db_deployments db') /\
  eraseAudit <$> db_audit db = eraseAudit <$> db_audit db' /\ sameRows eraseLink (db_links db) (db_links db') /\
  sameRows eraseCert (db_certs db) (db_certs db') /\ db_platform db = db_platform db' /\
  sameRows eraseKey (keys db) (keys db') /\ eraseUsage <$> usage db = eraseUsage <$> usage db' /\
  et_planes (db_enterprise db) = et_planes (db_enterprise db').
Proof.
  intros H. split_and!; [exact (f_equal db_nodes H)|exact (f_equal db_models H)|exact (f_equal db_plans H)|
    exact (f_equal db_deployments H)|exact (f_equal db_audit H)|exact (f_equal db_links H)|exact (f_equal db_certs H)|
    exact (f_equal db_platform H)|exact (f_equal (fun d => ct_keys (et_credentials (db_enterprise d))) H)|
    exact (f_equal (fun d => ct_usage (et_credentials (db_enterprise d))) H)|
    exact (f_equal (fun d => et_planes (db_enterprise d)) H)].
Qed.

(** Replacing a field of both sides; what is left to show is about that field. *)
Lemma mkDatabase_eq n n' m m' p p' d d' a a' l l' c c' t t' e e' :
  n = n' -> m = m' -> p = p' -> d = d' -> a = a' -> l = l' -> c = c' -> t = t' -> e = e' ->
  mkDatabase n m p d a l c t e = mkDatabase n' m' p' d' a' l' c' t' e'.
Proof. congruence. Qed.

Ltac agree_field H :=
  unfold agree, erase; cbn -[eraseEnterprise]; apply mkDatabase_eq;
  first [assumption | exact (f_equal db_nodes H) | exact (f_equal db_models H) | exact (f_equal db_plans H)
        | exact (f_equal db_deployments H) | exact (f_equal db_audit H) | exact (f_equal db_links H)
        | exact (f_equal db_certs H) | exact (f_equal db_platform H) | exact (f_equal db_enterprise H)].

Lemma agree_nodes db db' t t' : agree db db' -> sameRows eraseNode t t' -> agree (with_nodes db t) (with_nodes db' t').
Proof. intros H Ht. unfold sameRows in Ht. agree_field H. Qed.

Lemma agree_models db db' t t' : agree db db' -> sameRows eraseModel t t' -> agree (with_models db t) (with_models db' t').
Proof. intros H Ht. unfold sameRows in Ht. agree_field H. Qed.

Lemma agree_plans db db' t t' : agree db db' -> sameRows erasePlan t t' -> agree (with_plans db t) (with_plans db' t').
Proof. intros H Ht. unfold sameRows in Ht. agree_field H. Qed.

Lemma agree_deployments db db' t t' : agree db db' -> sameRows eraseDeployment t t' -> agree (with_deployments db t) (with_deployments db' t').
Proof. intros H Ht. unfold sameRows in Ht. agree_field H. Qed.

Lemma agree_links db db' t t' : agree db db' -> sameRows eraseLink t t' -> agree (with_links db t) (with_links db' t').
Proof. intros H Ht. unfold sameRows in Ht. agree_field H. Qed.

Lemma agree_certs db db' t t' : agree db db' -> sameRows eraseCert t t' -> agree (with_certs db t) (with_certs db' t').
Proof. intros H Ht. unfold sameRows in Ht. agree_field H. Qed.

Lemma agree_audit db db' l l' : agree db db' -> eraseAudit <$> l = eraseAudit <$> l' -> agree (with_audit db l) (with_audit db' l').
Proof. intros H Ht. agree_field H. Qed.

Lemma agree_platform db db' t : agree db db' -> agree (with_platform db t) (with_platform db' t).
Proof. intros H. assert (Ht : t = t) by done. agree_field H. Qed.

Lemma agree_enterprise db db' e e' : agree db db' -> eraseEnterprise e = eraseEnterprise e' ->
  agree (with_enterprise db e) (with_enterprise db' e').
Proof. intros H He. agree_field H. Qed.

Lemma agree_tables db db' : agree db db' ->
  eraseCreds (creds db) = eraseCreds (creds db') /\ et_review (db_enterprise db) = et_review (db_enterprise db') /\
  et_inference (db_enterprise db) = et_inference (db_enterprise db') /\ et_planes (db_enterprise db) = et_planes (db_enterprise db') /\
  et_tenancy (db_enterprise db) = et_tenancy (db_enterprise db').
Proof.
  intros H. split_and!; [exact (f_equal (fun d => et_credentials (db_enterprise d)) H)|
    exact (f_equal (fun d => et_review (db_enterprise d)) H)|exact (f_equal (fun d => et_inference (db_enterprise d)) H)|
    exact (f_equal (fun d => et_planes (db_enterprise d)) H)|exact (f_equal (fun d => et_tenancy (db_enterprise d)) H)].
Qed.

Lemma mkEnterpriseTables_eq c c' r r' i i' p p' t t' :
  c = c' -> r = r' -> i = i' -> p = p' -> t = t' -> mkEnterpriseTables c r i p t = mkEnterpriseTables c' r' i' p' t'.
Proof. congruence. Qed.

Lemma agree_creds db db' c c' : agree db db' -> eraseCreds c = eraseCreds c' -> agree (with_creds db c) (with_creds db' c').
Proof.
  intros H Hc. pose proof (agree_tables _ _ H) as (_ & Hr & Hi & Hp & Hy).
  apply agree_enterprise; [done|]. by apply mkEnterpriseTables_eq.
Qed.

Lemma agree_keys db db' t t' : agree db db' -> sameRows eraseKey t t' -> agree (with_keys db t) (with_keys db' t').
Proof.
  intros H Ht. unfold with_keys. apply agree_creds; [done|]. apply agree_tables in H as (H & _). unfold eraseCreds in *.
  cbn in *. injection H. intros. unfold sameRows in Ht. congruence.
Qed.

Lemma agree_usage db db' l l' : agree db db' -> eraseUsage <$> l = eraseUsage <$> l' -> agree (with_usage db l) (with_usage db' l').
Proof.
  intros H Ht. unfold with_usage. apply agree_creds; [done|]. apply agree_tables in H as (H & _). unfold eraseCreds in *.
  cbn in *. injection H. intros. congruence.
Qed.

Lemma agree_forget db db' id : agree db db' -> agree (forgetNode id db) (forgetNode id db').
Proof.
  intros H. pose proof (agree_tables _ _ H) as (Hc & Hr & Hi & Hp & Hy). unfold forgetNode.
  assert (Ht : db_platform db = db_platform db') by exact (f_equal db_platform H). rewrite Ht.
  apply agree_enterprise; [by apply agree_platform|]. apply mkEnterpriseTables_eq; try done. cbn. by rewrite Hp.
Qed.

(** ** Two replicas in step *)

Section Replicas.
Context (E1 E2 : Env) `{!HealthyDB E1} `{!HealthyDB E2} `{R : RaftCodec}.

(** From databases that agree, two computations return related results and leave
    databases that agree. *)
Definition inStep {A} (P : A -> A -> Prop) (m1 m2 : M A) : Prop :=
  forall w1 w2, agree (w_db w1) (w_db w2) ->
    P (fst (m1 w1)) (fst (m2 w2)) /\ agree (w_db (snd (m1 w1))) (w_db (snd (m2 w2))).

Lemma inStep_ret {A} (P : A -> A -> Prop) a a' : P a a' -> inStep P (cret a) (cret a').
Proof. by intros HP w1 w2 H. Qed.

Lemma inStep_bind {A B} (P : A -> A -> Prop) (Q : B -> B -> Prop) m1 m2 k1 k2 :
  inStep P m1 m2 -> (forall a a', P a a' -> inStep Q (k1 a) (k2 a')) -> inStep Q (cbind m1 k1) (cbind m2 k2).
Proof.
  intros Hm Hk w1 w2 H. destruct (Hm w1 w2 H) as [Hp Ha]. unfold cbind. destruct (m1 w1), (m2 w2). by apply (Hk a a0).
Qed.

Lemma inStep_now : inStep (fun _ _ => True) (nowUTC (E := E1)) (nowUTC (E := E2)).
Proof. by intros w1 w2 H. Qed.

(** A stamp that is given, or else the clock's. *)
Lemma inStep_stamp t : inStep (fun _ _ => True) (if IsZero t then nowUTC (E := E1) else cret t) (if IsZero t then nowUTC (E := E2) else cret t).
Proof. destruct (IsZero t); [apply inStep_now|by apply inStep_ret]. Qed.

Lemma inStep_exec what k1 k2 : (forall db db', agree db db' -> sameResult agree (k1 db) (k2 db')) ->
  inStep eq (exec (E := E1) what k1) (exec (E := E2) what k2).
Proof.
  intros Hk w1 w2 H. specialize (Hk _ _ H). unfold exec, cbind, next, get_db, put_db, cret. cbn.
  rewrite !env_db_healthy. destruct (k1 (w_db w1)), (k2 (w_db w2)); cbn in *; try done. by subst.
Qed.

Lemma inStep_query {A} (P : A -> A -> Prop) what k1 k2 : (forall db db', agree db db' -> sameResult P (k1 db) (k2 db')) ->
  inStep (sameResult P) (query (E := E1) what k1) (query (E := E2) what k2).
Proof.
  intros Hk w1 w2 H. specialize (Hk _ _ H). unfold query, cbind, next, get_db, cret. cbn. by rewrite !env_db_healthy.
Qed.

(** Reads the clock, then runs a statement that stores a row. *)
Ltac stamped := eapply inStep_bind; [first [apply inStep_now | apply inStep_stamp]|intros ? ? _]; cbv zeta; apply inStep_exec; intros db db' H.

(** The statement's table and the replacement of it. *)
Ltac table lemma := eapply result_map_same; [|intros ? ? ?; apply lemma; eassumption].

Ltac fields := match goal with H : agree _ _ |- _ => pose proof (agree_fields _ _ H) as (?Hn & ?Hm & ?Hp & ?Hd & ?Ha & ?Hl & ?Hc & ?Ht & ?Hk & ?Hu & _) end.

(** An update keeps what the row already has and overwrites the rest. *)
Ltac rowwise :=
  let x := fresh "x" in let y := fresh "y" in let He := fresh "He" in
  intros x y He; clear -He; destruct x, y;
  unfold eraseNode, eraseModel, eraseDeployment, eraseCert, eraseKey, scanAPIKey in *; cbn in *;
  injection He; intros; subst; reflexivity.

Lemma CreateNode_inStep n : inStep eq (CreateNode (E := E1) n) (CreateNode (E := E2) n).
Proof. stamped. fields. table agree_nodes. by apply insertRow_same. Qed.

Lemma UpdateNode_inStep n : inStep eq (UpdateNode (E := E1) n) (UpdateNode (E := E2) n).
Proof. stamped. fields. table agree_nodes. apply updateRow_same; [done|]. rowwise. Qed.

Lemma DeleteNode_inStep id : inStep eq (DeleteNode (E := E1) id) (DeleteNode (E := E2) id).
Proof.
  apply inStep_exec. intros db db' H. fields. eapply result_map_same; [by apply deleteRow_same|].
  intros a a' Ha'. by apply agree_forget, agree_nodes.
Qed.

Lemma UpsertLink_inStep l : inStep eq (UpsertLink (E := E1) l) (UpsertLink (E := E2) l).
Proof. stamped. fields. apply agree_links; [done|]. unfold sameRows in *. by rewrite !fmap_insert, Hl. Qed.

Lemma CreateModel_inStep m : inStep eq (CreateModel (E := E1) m) (CreateModel (E := E2) m).
Proof. stamped. fields. table agree_models. by apply insertRow_same. Qed.

Lemma UpdateModel_inStep m : inStep eq (UpdateModel (E := E1) m) (UpdateModel (E := E2) m).
Proof. stamped. fields. table agree_models. apply updateRow_same; [done|]. rowwise. Qed.

Lemma DeleteModel_inStep id : inStep eq (DeleteModel (E := E1) id) (DeleteModel (E := E2) id).
Proof. apply inStep_exec. intros db db' H. fields. table agree_models. by apply deleteRow_same. Qed.

Lemma CreatePlan_inStep p : inStep eq (CreatePlan (E := E1) p) (CreatePlan (E := E2) p).
Proof. stamped. fields. table agree_plans. by apply insertRow_same. Qed.

Lemma DeletePlan_inStep id : inStep eq (DeletePlan (E := E1) id) (DeletePlan (E := E2) id).
Proof. apply inStep_exec. intros db db' H. fields. table agree_plans. by apply deleteRow_same. Qed.

Lemma CreateDeployment_inStep d : inStep eq (CreateDeployment (E := E1) d) (CreateDeployment (E := E2) d).
Proof. stamped. fields. table agree_deployments. by apply insertRow_same. Qed.

(** The arguments too may differ in their stamps. *)
Lemma UpdateDeployment_inStep d d' : eraseDeployment d = eraseDeployment d' ->
  inStep eq (UpdateDeployment (E := E1) d) (UpdateDeployment (E := E2) d').
Proof.
  intros [= H1 H2 H3 H4 H5]. unfold UpdateDeployment. rewrite H1, H2, H3, H4, H5. stamped. fields. table agree_deployments.
  apply updateRow_same; [done|]. rowwise.
Qed.

Lemma GetDeployment_inStep id :
  inStep (sameResult (fun d d' => eraseDeployment d = eraseDeployment d')) (GetDeployment (E := E1) id) (GetDeployment (E := E2) id).
Proof. apply inStep_query. intros db db' H. fields. by apply getRow_same. Qed.

Lemma DeleteDeployment_inStep id : inStep eq (DeleteDeployment (E := E1) id) (DeleteDeployment (E := E2) id).
Proof. apply inStep_exec. intros db db' H. fields. table agree_deployments. by apply deleteRow_same. Qed.

Lemma CreateCert_inStep c : inStep eq (CreateCert (E := E1) c) (CreateCert (E := E2) c).
Proof. stamped. fields. table agree_certs. by apply insertRow_same. Qed.

Lemma UpdateCert_inStep c : inStep eq (UpdateCert (E := E1) c) (UpdateCert (E := E2) c).
Proof. apply inStep_exec. intros db db' H. fields. table agree_certs. apply updateRow_same; [done|]. rowwise. Qed.

Lemma DeleteCert_inStep serial : inStep eq (DeleteCert (E := E1) serial) (DeleteCert (E := E2) serial).
Proof. apply inStep_exec. intros db db' H. fields. table agree_certs. by apply deleteRow_same. Qed.

Lemma AppendAudit_inStep e : inStep eq (AppendAudit (E := E1) e) (AppendAudit (E := E2) e).
Proof.
  stamped. fields. eapply result_map_same; [by apply (chainAudit_same E1 E2)|]. intros l l' Hrows. by apply agree_audit.
Qed.

Lemma RecordUsage_inStep k m i o : inStep eq (RecordUsage (E := E1) k m i o) (RecordUsage (E := E2) k m i o).
Proof. stamped. fields. apply agree_usage; [done|]. by rewrite !fmap_app, Hu. Qed.

Lemma CreateAPIKey_inStep k : inStep eq (CreateAPIKey (E := E1) k) (CreateAPIKey (E := E2) k).
Proof.
  stamped. fields. unfold insertKey. cbn [AKID AKKeyHash].
  pose proof (sameRows_lookup _ _ _ (AKID k) Hk) as Hlk. destruct (keys db !! AKID k), (keys db' !! AKID k); try done.
  rewrite (taken_same eraseKey (keys db) (keys db')) by (done || rowwise).
  destruct (taken _ _ _); [done|]. apply agree_keys; [done|]. unfold sameRows in *. by rewrite !fmap_insert, Hk.
Qed.

Lemma UpdateAPIKey_inStep k k' : eraseKey k = eraseKey k' ->
  inStep eq (UpdateAPIKey (E := E1) k) (UpdateAPIKey (E := E2) k').
Proof.
  intros [= H1 H2 H3 H4 H5 H6 H7 H8 H9 H10 H11 H12 H13]. unfold UpdateAPIKey. rewrite H1, H2, H3, H4, H5, H6, H7. stamped. fields.
  pose proof (sameRows_lookup _ _ _ (AKID k') Hk) as Hlk.
  destruct (keys db !! AKID k') as [r|], (keys db' !! AKID k') as [r'|]; try done. injection Hlk as ?.
  rewrite (taken_same eraseKey (keys db) (keys db')) by (done || rowwise).
  destruct (taken _ _ _); [done|]. apply agree_keys; [done|]. unfold sameRows in *. rewrite !fmap_insert, Hk. unfold eraseKey. cbn. congruence.
Qed.

Lemma GetAPIKey_inStep id :
  inStep (sameResult (fun k k' => eraseKey k = eraseKey k')) (GetAPIKey (E := E1) id) (GetAPIKey (E := E2) id).
Proof.
  apply inStep_query. intros db db' H. fields. eapply result_map_same; [by apply (getRow_same eraseKey)|]. rowwise.
Qed.

Lemma DeleteAPIKey_inStep id : inStep eq (DeleteAPIKey (E := E1) id) (DeleteAPIKey (E := E2) id).
Proof. apply inStep_exec. intros db db' H. fields. table agree_keys. by apply deleteRow_same. Qed.

Lemma decoded_inStep {A} (dec : string -> option A) data k1 k2 :
  (forall a, inStep eq (k1 a) (k2 a)) -> inStep eq (decoded dec data k1) (decoded dec data k2).
Proof. intros Hk. unfold decoded. destruct (dec data); [apply Hk|by apply inStep_ret]. Qed.

(** A read followed by a write of the changed row. *)
Lemma readWrite_inStep {A} (P : A -> A -> Prop) g1 g2 u1 u2 : inStep (sameResult P) g1 g2 ->
  (forall a a', P a a' -> inStep eq (u1 a) (u2 a')) ->
  inStep eq (let* r := g1 in match r with inl e => cret (Some e) | inr a => u1 a end)%cluster
            (let* r := g2 in match r with inl e => cret (Some e) | inr a => u2 a end)%cluster.
Proof.
  intros Hg Hu. eapply inStep_bind; [exact Hg|]. intros [e|a] [e'|a'] H; cbn in H; try done; [|by apply Hu].
  subst. by apply inStep_ret.
Qed.

(** The two commands that read before they write. *)
Lemma updateState_inStep (args : updateDeploymentStateArgs) :
  inStep eq
    (let* d := GetDeployment (E := E1) (SA_ID args) in
     match d with inl e => cret (Some e) | inr d => UpdateDeployment (E := E1) (withState d (SA_State args)) end)
    (let* d := GetDeployment (E := E2) (SA_ID args) in
     match d with inl e => cret (Some e) | inr d => UpdateDeployment (E := E2) (withState d (SA_State args)) end).
Proof.
  eapply readWrite_inStep; [apply GetDeployment_inStep|]. intros d d' [= H1 H2 H3 H4 H5].
  apply UpdateDeployment_inStep. unfold eraseDeployment, withState. cbn. congruence.
Qed.

Lemma revoke_inStep (args : revokeAPIKeyArgs) :
  inStep eq
    (let* k := GetAPIKey (E := E1) (RA_ID args) in
     match k with inl e => cret (Some e) | inr k => UpdateAPIKey (E := E1) (withEnabled k false) end)
    (let* k := GetAPIKey (E := E2) (RA_ID args) in
     match k with inl e => cret (Some e) | inr k => UpdateAPIKey (E := E2) (withEnabled k false) end).
Proof.
  eapply readWrite_inStep; [apply GetAPIKey_inStep|]. intros k k' H. apply UpdateAPIKey_inStep. revert k k' H. rowwise.
Qed.

Lemma dispatch_inStep t data : inStep eq (dispatch (E := E1) t data) (dispatch (E := E2) t data).
Proof.
  destruct t; cbn [dispatch]; [| | | | | |by apply inStep_ret..| | | | | | | | | | | | | | | |];
    apply decoded_inStep; intros a; revert a;
    [exact CreateModel_inStep|exact DeleteModel_inStep|exact CreateDeployment_inStep|exact updateState_inStep
    |exact CreateAPIKey_inStep|exact revoke_inStep|exact CreateNode_inStep|exact UpdateNode_inStep|exact DeleteNode_inStep
    |exact UpsertLink_inStep|exact UpdateModel_inStep|exact CreatePlan_inStep|exact DeletePlan_inStep
    |intros a; by apply UpdateDeployment_inStep|exact DeleteDeployment_inStep|intros a; by apply UpdateAPIKey_inStep
    |exact DeleteAPIKey_inStep|exact CreateCert_inStep|exact UpdateCert_inStep|exact DeleteCert_inStep
    |exact AppendAudit_inStep|intros a; apply RecordUsage_inStep].
Qed.

Lemma Apply_inStep l : inStep eq (Apply (E := E1) l) (Apply (E := E2) l).
Proof.
  unfold Apply. destruct (unmarshalCommand l) as [cmd|]; [|by apply inStep_ret].
  destruct (commandOf _); [apply dispatch_inStep|by apply inStep_ret].
Qed.

Lemma replay_inStep log : inStep eq (replay (E := E1) log) (replay (E := E2) log).
Proof.
  induction log as [|l log IH]; cbn [replay]; [by apply inStep_ret|].
  eapply inStep_bind; [apply Apply_inStep|]. intros r r' ->. eapply inStep_bind; [exact IH|]. intros rs rs' ->. by apply inStep_ret.
Qed.

(** (C29) Replicas that start from databases that agree and apply the same log, each with
    its own clock, return the same result for every entry and end with databases that
    agree: they differ in the columns that the registry stamps with the clock, in the
    hashes of the audit log, which cover its stamps, and nowhere else. The databases do
    not fail. *)
Theorem replicas_converge log w1 w2 :
  agree (w_db w1) (w_db w2) ->
  fst (replay (E := E1) log w1) = fst (replay (E := E2) log w2) /\
  agree (w_db (snd (replay (E := E1) log w1))) (w_db (snd (replay (E := E2) log w2))).
Proof. apply replay_inStep. Qed.

End Replicas.

(** ** What does not get through the log *)

Section Secrets.
Context `{E : Env} `{R : RaftCodec} `{!HidesSecrets R}.

Lemma CreateAPIKey_run k w w' : CreateAPIKey k w = (None, w') ->
  AKKeyHash <$> keys (w_db w') !! AKID k = Some (AKKeyHash k).
Proof.
  intros H. unfold CreateAPIKey, cbind in H. destruct (nowUTC w) as [now w0]. apply exec_spec in H as (_ & H).
  destruct (insertKey _ _) as [e|tbl] eqn:Ei; [done|]. injection H as H. rewrite <- H. unfold insertKey in Ei. cbn [AKID AKKeyHash] in Ei.
  destruct (keys (w_db w0) !! AKID k); [done|]. destruct (taken _ _ _); [done|]. injection Ei as <-.
  change (keys (with_keys ?d ?t)) with t. by rewrite lookup_insert_eq.
Qed.

Lemma UpdateAPIKey_run k w w' : UpdateAPIKey k w = (None, w') ->
  AKKeyHash <$> keys (w_db w') !! AKID k = Some (AKKeyHash k).
Proof.
  intros H. unfold UpdateAPIKey, cbind in H. destruct (nowUTC w) as [now w0]. apply exec_spec in H as (_ & H).
  destruct (keys (w_db w0) !! AKID k) as [row|]; [|done]. destruct (taken _ _ _); [done|]. injection H as H. rewrite <- H.
  change (keys (with_keys ?d ?t)) with t. by rewrite lookup_insert_eq.
Qed.

(** A second key with the same hash is refused, be it by the primary key. *)
Lemma CreateAPIKey_refused id k w : AKKeyHash <$> keys (w_db w) !! id = Some (AKKeyHash k) -> fst (CreateAPIKey k w) ≠ None.
Proof.
  intros Hid. destruct (CreateAPIKey k w) as [r w'] eqn:H. intros [= ->]. unfold CreateAPIKey, cbind in H.
  destruct (nowUTC w) as [now w0] eqn:Hn. apply nowUTC_spec in Hn as [Hdb _]. apply exec_spec in H as (_ & H).
  rewrite Hdb in H. unfold insertKey in H. cbn [AKID AKKeyHash] in H. destruct (keys (w_db w) !! AKID k) eqn:Ek; [done|].
  destruct (taken _ _ _) eqn:Et; [done|]. destruct (keys (w_db w) !! id) as [row|] eqn:Er; [|done]. injection Hid as Hid.
  apply not_true_iff_false in Et. apply Et, taken_spec. exists id, row. rewrite Hid, String.eqb_refl.
  split_and!; [done| |done]. intros ->. congruence.
Qed.

Lemma decoded_run {A} (dec : string -> option A) data k w w' : decoded dec data k w = (None, w') ->
  exists a, dec data = Some a /\ k a w = (None, w').
Proof. unfold decoded. destruct (dec data); [eauto|done]. Qed.

(** API keys do not survive the log. An entry that creates or updates a key leaves it
    with the empty hash, which no bearer token has; and once the log has created one
    key, every later entry that would create another fails. *)
Theorem log_drops_key_hashes t data w w' :
  t = CmdCreateAPIKey \/ t = CmdUpdateAPIKey -> dispatch t data w = (None, w') ->
  (exists k, unmarshalAPIKey data = Some k /\ AKKeyHash <$> keys (w_db w') !! AKID k = Some ""%string) /\
  forall data', fst (dispatch CmdCreateAPIKey data' w') ≠ None.
Proof.
  intros Ht H.
  assert (Hk : exists k, unmarshalAPIKey data = Some k /\ AKKeyHash <$> keys (w_db w') !! AKID k = Some ""%string).
  { destruct Ht as [-> | ->]; cbn [dispatch] in H; apply decoded_run in H as (k & Ek & H); exists k; (split; [done|]);
      rewrite <- (hides_key data k Ek); [by eapply CreateAPIKey_run|by eapply UpdateAPIKey_run]. }
  split; [done|]. intros data'. destruct Hk as (k & _ & Hk). cbn [dispatch]. unfold decoded.
  destruct (unmarshalAPIKey data') as [k'|] eqn:Ek; [|done]. apply (CreateAPIKey_refused (AKID k)).
  by rewrite (hides_key data' k' Ek).
Qed.

(** Nor does the text of a certificate. *)
Lemma log_drops_certificates data w w' : dispatch CmdCreateCert data w = (None, w') ->
  exists c, unmarshalCert data = Some c /\ CPEM <$> db_certs (w_db w') !! CSerial c = Some ""%string.
Proof.
  cbn [dispatch]. intros H. apply decoded_run in H as (c & Ec & H). exists c. split; [done|].
  unfold CreateCert, cbind in H. destruct ((if IsZero (CCreatedAt c) then nowUTC else cret (CCreatedAt c)) w) as [t w0].
  apply exec_spec in H as (_ & H). unfold insertRow in H. destruct (db_certs (w_db w0) !! CSerial c); [done|]. injection H as H.
  rewrite <- H. cbn. by rewrite lookup_insert_eq, (hides_cert data c Ec).
Qed.

End Secrets.

(** ** Instances *)

(** The first character is the type; a model, a key and an identifier are their name. *)
Definition exCodec : RaftCodec := {|
  unmarshalCommand := fun s => match s with String c d => Some (mkEntry (Z.of_N (Ascii.N_of_ascii c)) d) | EmptyString => None end;
  unmarshalID := Some;
  unmarshalNode := fun _ => None;
  unmarshalLink := fun _ => None;
  unmarshalModel := fun s => Some (mkModel s "llama" "dense" f0 "vllm" "" "" "" zeroTime zeroTime);
  unmarshalPlan := fun _ => None;
  unmarshalDeployment := fun s => Some (mkDeployment s "m" "p" "PENDING" None zeroTime zeroTime);
  unmarshalStateArgs := fun s => Some (mkStateArgs s "ACTIVE");
  unmarshalAPIKey := fun s => Some (mkAPIKeyRow s s "" "acme" "viewer" 0 true zeroTime zeroTime None None "" None [] "");
  unmarshalRevokeArgs := fun s => Some (mkRevokeArgs s);
  unmarshalCert := fun _ => None;
  unmarshalAudit := fun s => Some (mkAuditEntry s "model.created" "m" [] zeroTime);
  unmarshalUsageArgs := fun _ => None |}.

Lemma exCodec_hides : HidesSecrets exCodec.
Proof. split; intros s x H; cbn in H; [by injection H as <-|done]. Qed.

Definition entry (t : nat) (data : string) : string := String (Ascii.ascii_of_nat t) data.

(** Creates a model and a deployment, activates the deployment, deletes a model that is
    not there, carries a command of a later version and appends two audit rows. *)
Definition exLog : list string :=
  [entry 0 "m"; entry 2 "d"; entry 3 "d"; entry 1 "x"; entry 200 "?"; entry 25 "ann"; entry 25 "bob"].

(** Replicas whose clocks are an hour apart. *)
Definition clockEnv (skew : Time) (fault : nat -> option Error) : Env := {|
  env_start := env_start (Env := calmEnv); env_stop := env_stop (Env := calmEnv); env_http := env_http (Env := calmEnv);
  env_done := env_done (Env := calmEnv); env_db := fault; env_now := fun t => skew + Z.of_nat t;
  env_rand := env_rand (Env := calmEnv); env_order := env_order (Env := calmEnv);
  env_path := env_path (Env := calmEnv); env_sha256 := env_sha256 (Env := calmEnv) |}.

#[local] Instance clockEnv_healthy skew : HealthyDB (clockEnv skew (fun _ => None)).
Proof. by split. Qed.

Definition replicaA : Env := clockEnv 0 (fun _ => None).
Definition replicaB : Env := clockEnv (3600 * Second) (fun _ => None).

Lemma replicas_converge_witness :
  fst (replay (E := replicaA) (R := exCodec) exLog emptyWorld) = [None; None; None; Some ErrNotFound; None; None; None] /\
  agree (w_db (snd (replay (E := replicaA) (R := exCodec) exLog emptyWorld)))
    (w_db (snd (replay (E := replicaB) (R := exCodec) exLog emptyWorld))).
Proof.
  split; [vm_compute; reflexivity|].
  apply (replicas_converge replicaA replicaB (R := exCodec) exLog emptyWorld emptyWorld). reflexivity.
Defined.

(** The stamps do differ: the state machine is deterministic up to its clock only. *)
Example replicas_clocks_differ :
  db_models (w_db (snd (replay (E := replicaA) (R := exCodec) exLog emptyWorld))) ≠
  db_models (w_db (snd (replay (E := replicaB) (R := exCodec) exLog emptyWorld))).
Proof. intros H. apply (f_equal (fun t => MUpdatedAt <$> t !! "m"%string)) in H. vm_compute in H. discriminate. Qed.

(** So do the hashes of the audit log: each replica has a chain of its own. *)
Example replicas_chains_differ :
  map ARHash (db_audit (w_db (snd (replay (E := replicaA) (R := exCodec) exLog emptyWorld)))) ≠
  map ARHash (db_audit (w_db (snd (replay (E := replicaB) (R := exCodec) exLog emptyWorld)))).
Proof. vm_compute. discriminate. Qed.

Lemma log_drops_key_hashes_witness :
  forall data', fst (dispatch (E := replicaA) (R := exCodec) CmdCreateAPIKey data'
    (snd (dispatch (E := replicaA) (R := exCodec) CmdCreateAPIKey "k1" emptyWorld))) ≠ None.
Proof.
  refine (proj2 (log_drops_key_hashes (E := replicaA) (R := exCodec) (HidesSecrets0 := exCodec_hides)
    CmdCreateAPIKey "k1" emptyWorld _ _ _)); [by left|]. vm_compute. reflexivity.
Defined.

(** A statement that fails on one replica is skipped there for good: the log goes on
    and later entries fail on that replica only. *)
Example fault_diverges :
  let faulty := clockEnv 0 (fun t => if Nat.eqb t 1 then Some (ErrIO "disk full") else None) in
  fst (replay (E := faulty) (R := exCodec) [entry 0 "m"; entry 15 "m"] emptyWorld) =
    [Some (Wrap "registry: create model" (ErrIO "disk full")); Some ErrNotFound] /\
  fst (replay (E := replicaA) (R := exCodec) [entry 0 "m"; entry 15 "m"] emptyWorld) = [None; None].
Proof. vm_compute. split; reflexivity. Qed.

(** A replica that joins from a snapshot has none of the state behind it. *)
Example snapshot_loses_state :
  let w := snd (replay (E := replicaA) (R := exCodec) [entry 0 "m"] emptyWorld) in
  fst (replay (E := replicaA) (R := exCodec) [entry 1 "m"] w) = [None] /\
  fst (catchUp (E := replicaB) (R := exCodec) (Persist (w_db w)) [entry 1 "m"] emptyWorld) = [Some ErrNotFound].
Proof. vm_compute. split; reflexivity. Qed.
