(* ===== verification/Tenancy.v ===== *)
(** * Tenancy: organisations, teams, users, roles and pools over HTTP

    The handlers of [server/platform_orgs.go], [platform_users.go] and
    [platform_pools.go], and the reads of [registry/platform_sqlite.go] they make
    (those of the middleware are in [Access], the writes in [Platform]).

    A handler returns what is answered; the texts that explain an error to a person are
    left out, and so are the stamps that the registry writes into a created row. A body
    that is missing or too long fails to decode. *)
From S2P Require Import Prelude Float64 Cluster Registry Permissions Access Platform Timestamp Statements Credentials Identity.
Import Row.
Open Scope Z_scope.

(** ** Reads ([registry/platform_sqlite.go]) *)

Definition tenancy (db : Database) : TenancyTables := et_tenancy (db_enterprise db).

Definition with_tenancy (db : Database) (t : TenancyTables) : Database :=
  let e := db_enterprise db in
  with_enterprise db (mkEnterpriseTables (et_credentials e) (et_review e) (et_inference e) (et_planes e) t).

Section Reads.
Context `{E : Env}.

(** The first row of a selection that a unique index makes the only one. *)
Definition firstRow {A} (P : A -> bool) (rows : list A) : Error + A :=
  match List.find P rows with Some a => inr a | None => inl ErrNotFound end.

Definition getTeam (id : string) : M (Error + Team) := pquery ("registry: get team " +:+ id) (fun t => getRow (pt_teams t) id).

Definition GetTeamBySlug (orgID slug : string) : M (Error + Team) :=
  pquery "registry: get team by slug" (fun t =>
    firstRow (fun x => (TOrgID x =? orgID) && (TSlug x =? slug))%string (rowsOf (pt_teams t))).

Definition ListTeamsByOrg (orgID : string) : M (Error + list Team) :=
  let* n := next in
  pquery "registry: list teams by org" (fun t =>
    inr (orderBy TName n (List.filter (fun x => TOrgID x =? orgID)%string (rowsOf (pt_teams t))))).

Definition GetPlatformUser (id : string) : M (Error + PlatformUser) :=
  pquery "registry: get platform user" (fun t => getRow (pt_users t) id).

Definition GetPlatformUserByEmail (email : string) : M (Error + PlatformUser) :=
  pquery "registry: get platform user by email" (fun t => firstRow (fun u => UEmail u =? email)%string (rowsOf (pt_users t))).

Definition ListPlatformUsers : M (Error + list PlatformUser) :=
  let* n := next in
  pquery "registry: list platform users" (fun t => inr (orderBy UEmail n (rowsOf (pt_users t)))).

Definition members {K A} `{Countable K} (tbl : gmap K A) : list A := map snd (map_to_list tbl).

(** The texts of the times are compared. *)
Definition ListOrgMembers (orgID : string) : M (Error + list OrgMember) :=
  let* n := next in
  pquery "registry: list org members" (fun t =>
    inr (orderBy (fun m => fmtTime (OMJoinedAt m)) n
           (List.filter (fun m => OMOrgID m =? orgID)%string (members (pt_orgMembers t))))).

Definition ListUserOrgs (userID : string) : M (Error + list OrgMember) :=
  let* n := next in
  pquery "registry: list user orgs" (fun t =>
    inr (orderBy (fun m => fmtTime (OMJoinedAt m)) n
           (List.filter (fun m => OMUserSub m =? userID)%string (members (pt_orgMembers t))))).

Definition GetOrgMembershipsByUser (userSub : string) : M (Error + list OrgMember) :=
  let* n := next in
  pquery "registry: get org memberships by user" (fun t =>
    inr (env_order _ n (List.filter (fun m => OMUserSub m =? userSub)%string (members (pt_orgMembers t))))).

Definition getOrgMember (orgID userID : string) : M (Error + OrgMember) :=
  pquery "registry: get org member" (fun t =>
    match pt_orgMembers t !! (orgID, userID) with Some m => inr m | None => inl ErrNotFound end).

Definition getTeamMember (teamID userID : string) : M (Error + TeamMember) :=
  pquery "registry: get team member" (fun t =>
    match pt_teamMembers t !! (teamID, userID) with Some m => inr m | None => inl ErrNotFound end).

Definition ListTeamMembers (teamID : string) : M (Error + list TeamMember) :=
  let* n := next in
  pquery "registry: list team members" (fun t =>
    inr (orderBy (fun m => fmtTime (TMJoinedAt m)) n
           (List.filter (fun m => TMTeamID m =? teamID)%string (members (pt_teamMembers t))))).

Definition ListUserTeams (userID : string) : M (Error + list TeamMember) :=
  let* n := next in
  pquery "registry: list user teams" (fun t =>
    inr (orderBy (fun m => fmtTime (TMJoinedAt m)) n
           (List.filter (fun m => TMUserSub m =? userID)%string (members (pt_teamMembers t))))).

Definition GetTeamMembershipsByUser (userSub : string) : M (Error + list TeamMember) :=
  let* n := next in
  pquery "registry: get team memberships by user" (fun t =>
    inr (env_order _ n (List.filter (fun m => TMUserSub m =? userSub)%string (members (pt_teamMembers t))))).

Definition getCustomRole (orgID roleID : string) : M (Error + CustomRole) :=
  pquery "registry: get custom role" (fun t => match roleRow t orgID roleID with Some r => inr r | None => inl ErrNotFound end).

(** [ORDER BY is_system DESC, name], or [ORDER BY name] for the built-in roles alone. *)
Definition roleBefore (a b : CustomRole) : bool :=
  if Bool.eqb (RIsSystem a) (RIsSystem b) then String.ltb (RName a) (RName b) else RIsSystem a.

Definition ListCustomRoles (orgID : string) : M (Error + list CustomRole) :=
  let* n := next in
  pquery "registry: list custom roles" (fun t =>
    inr (if (orgID =? "")%string then orderBy RName n (List.filter (fun r => ROrgID r =? "")%string (rowsOf (pt_roles t)))
         else go_sort roleBefore (env_order _ n
                (List.filter (fun r => (ROrgID r =? orgID) || (ROrgID r =? ""))%string (rowsOf (pt_roles t)))))).

Definition GetPoolTeamQuota (poolID teamID : string) : M (Error + PoolTeamQuota) :=
  pquery "registry: get pool team quota" (fun t =>
    match pt_quotas t !! (poolID, teamID) with Some q => inr q | None => inl ErrNotFound end).

Definition quotaBefore (a b : PoolTeamQuota) : bool :=
  (PQPriority a <? PQPriority b) || (PQPriority a =? PQPriority b) && String.ltb (PQTeamID a) (PQTeamID b).

Definition ListPoolTeamQuotas (poolID : string) : M (Error + list PoolTeamQuota) :=
  let* n := next in
  pquery "registry: list pool team quotas" (fun t =>
    inr (go_sort quotaBefore (env_order _ n (List.filter (fun q => PQPoolID q =? poolID)%string (members (pt_quotas t)))))).

(** *** The records of the roles subsystem *)

(** [platform_orgs.name] is unique. *)
Definition UpsertPlatformOrg (o : PlatformOrg) : M (option Error) :=
  let* created := (if IsZero (POCreatedAt o) then nowUTC else cret (POCreatedAt o)) in
  let* now := nowUTC in
  let what := ("registry: upsert platform org " +:+ POID o)%string in
  exec what (fun db =>
    let t := tenancy db in
    if taken (yt_orgs t) (POID o) (fun r => POName r =? POName o)%string then inl (Wrap what ErrUnique)
    else inr (with_tenancy db (mkTenancyTables (<[POID o :=
           mkPlatformOrg (POID o) (POName o) (PODescription o)
             (match yt_orgs t !! POID o with Some r => POCreatedAt r | None => created end) now]> (yt_orgs t))
           (yt_teams t) (yt_pricing t) (yt_quotas t) (yt_usage t)))).

Definition GetPlatformOrg (id : string) : M (Error + PlatformOrg) :=
  query "registry: get platform org" (fun db => getRow (yt_orgs (tenancy db)) id).

(** [UNIQUE (org_id, name)]. *)
Definition UpsertPlatformTeam (x : PlatformTeam) : M (option Error) :=
  let* created := (if IsZero (PTCreatedAt x) then nowUTC else cret (PTCreatedAt x)) in
  let* now := nowUTC in
  let what := ("registry: upsert platform team " +:+ PTID x)%string in
  exec what (fun db =>
    let t := tenancy db in
    if taken (yt_teams t) (PTID x) (fun r => (PTOrgID r =? PTOrgID x) && (PTName r =? PTName x))%string
    then inl (Wrap what ErrUnique)
    else inr (with_tenancy db (mkTenancyTables (yt_orgs t) (<[PTID x :=
           mkPlatformTeam (PTID x) (PTOrgID x) (PTName x) (PTDescription x)
             (match yt_teams t !! PTID x with Some r => PTCreatedAt r | None => created end) now]> (yt_teams t))
           (yt_pricing t) (yt_quotas t) (yt_usage t)))).

Definition GetPlatformTeam (id : string) : M (Error + PlatformTeam) :=
  query "registry: get platform team" (fun db => getRow (yt_teams (tenancy db)) id).

Definition hasAnyAPIKey : M (Error + bool) :=
  query "registry: has any api key" (fun db => inr (existsb AKEnabled (rowsOf (keys db)))).

End Reads.

(** ** Who is calling *)

(** What the handlers of [platform_users.go] need of the server: whether it has a
    registry, and the secret of the service accounts' tokens. *)
Record UserServer : Type := mkUserServer { us_reg : bool; us_sessionSecret : string }.

(** The request: what the middleware left in its context, and the headers. *)
Record Caller : Type := mkCaller { ca_ctx : ReqContext; ca_req : Request }.

Definition isPlatformAdmin (c : Caller) : bool :=
  match ctxKeyAPIKey (ca_ctx c) with Some key => (K_Role key =? "admin")%string | None => false end.

(** The organisation is not looked at. *)
Definition isOrgAdminOrPlatformAdmin (c : Caller) (orgID : string) : bool := isPlatformAdmin c.

(** [404] for a missing row, else [500] with the call's own code. *)
Definition failure {A} (code : string) (e : Error) : Answer A :=
  if isNotFound e then Refused 404 "not_found" else Refused 500 code.

(** [strings.Contains(err.Error(), "UNIQUE")]. *)
Fixpoint mentionsUnique (e : Error) : bool :=
  match e with
  | ErrUnique => true
  | ErrIO what => Contains what "UNIQUE"
  | ErrorString msg => Contains msg "UNIQUE"
  | Wrap msg e => Contains msg "UNIQUE" || mentionsUnique e
  | Join es => existsb mentionsUnique es
  | _ => false
  end.

(** [errors.Is(err, registry.ErrConflict)]. *)
Fixpoint isConflict (e : Error) : bool :=
  match e with
  | ErrConflict => true
  | Wrap _ e => isConflict e
  | Join es => existsb isConflict es
  | _ => false
  end.

(** The bodies; a field that may be absent is an option. *)
Record namedRequest : Type := mkNamedRequest { NR_Name : string; NR_Slug : string; NR_Description : string }.
Record renameRequest : Type := mkRenameRequest { RR_Name : option string; RR_Description : option string }.
Record roleRequest : Type := mkRoleRequest { RQ_Name : string; RQ_Description : string; RQ_Permissions : option (list string) }.
Record memberRequest : Type := mkMemberRequest { MR_UserID : string; MR_Role : string }.
Record poolRequest : Type := mkPoolRequest {
  PR_Name : string; PR_Description : string; PR_OwnerType : string; PR_OwnerID : string; PR_Policy : string }.
Record poolUpdate : Type := mkPoolUpdate { PU_Name : option string; PU_Description : option string; PU_Policy : option string }.
Record quotaRequest : Type := mkQuotaRequest { QR_MaxDeployments : Z; QR_MaxGPUNodes : Z; QR_Priority : Z }.

Section Orgs.
Context `{E : Env} `{C : Crypto}.

Definition actor (c : Caller) : string := actorFromRequest (ca_ctx c) (ca_req c).

(** The error of the append is dropped. *)
Definition audited (c : Caller) (action target : string) : M unit :=
  ignore (AppendAudit (mkAuditEntry (actor c) action target [] zeroTime)).

(** ** Organisations ([platform_orgs.go]) *)

Definition handleCreateOrg (c : Caller) (body : Body namedRequest) : M (Answer Organization) :=
  if negb (isPlatformAdmin c) then cret (Refused 403 "forbidden")
  else match body with
       | NoBody | BadJSON => cret (Refused 400 "bad_request")
       | Decoded req =>
           if (NR_Name req =? "")%string || (NR_Slug req =? "")%string then cret (Refused 400 "bad_request")
           else
             let* same := GetOrganizationBySlug (NR_Slug req) in
             match same with
             | inr _ => cret (Refused 409 "conflict")
             | inl _ =>
                 let* id := randHex in
                 let* now := nowUTC in
                 let org := mkOrganization ("org-" +:+ id) (NR_Name req) (NR_Slug req) (NR_Description req) now zeroTime in
                 let* err := CreateOrganization org in
                 match err with
                 | Some e => cret (if mentionsUnique e then Refused 409 "conflict" else Refused 500 "create_org_failed")
                 | None => audited c "org.created" (OID org) ;;; cret (Answered 201 org)
                 end
             end
       end.

Definition handleListOrgs : M (Answer (list Organization)) :=
  let* res := ListOrganizations in
  cret (match res with inl _ => Refused 500 "list_orgs_failed" | inr orgs => Answered 200 orgs end).

Definition handleGetOrg (id : string) : M (Answer Organization) :=
  let* res := GetOrganization id in
  cret (match res with inl e => failure "get_org_failed" e | inr org => Answered 200 org end).

Definition renamedOrg (o : Organization) (req : renameRequest) : Organization :=
  mkOrganization (OID o) (default (OName o) (RR_Name req)) (OSlug o) (default (ODescription o) (RR_Description req))
    (OCreatedAt o) (OUpdatedAt o).

Definition handleUpdateOrg (c : Caller) (id : string) (body : Body renameRequest) : M (Answer Organization) :=
  if negb (isOrgAdminOrPlatformAdmin c id) then cret (Refused 403 "forbidden")
  else
    let* res := GetOrganization id in
    match res with
    | inl e => cret (failure "get_org_failed" e)
    | inr org =>
        match body with
        | NoBody | BadJSON => cret (Refused 400 "bad_request")
        | Decoded req =>
            let org := renamedOrg org req in
            let* err := UpdateOrganization org in
            match err with
            | Some e => cret (failure "update_org_failed" e)
            | None => audited c "org.updated" (OID org) ;;; cret (Answered 200 org)
            end
        end
    end.

Definition handleDeleteOrg (c : Caller) (id : string) : M (Answer unit) :=
  if negb (isPlatformAdmin c) then cret (Refused 403 "forbidden")
  else
    let* res := ListTeamsByOrg id in
    match res with
    | inl _ => cret (Refused 500 "list_teams_failed")
    | inr (_ :: _) => cret (Refused 409 "org_has_teams")
    | inr [] =>
        let* err := DeleteOrganization id in
        match err with
        | Some e => cret (failure "delete_org_failed" e)
        | None => audited c "org.deleted" id ;;; cret (Answered 204 ())
        end
    end.

(** *** Teams *)

Definition handleCreateTeam (c : Caller) (orgID : string) (body : Body namedRequest) : M (Answer Team) :=
  if negb (isOrgAdminOrPlatformAdmin c orgID) then cret (Refused 403 "forbidden")
  else
    let* res := GetOrganization orgID in
    match res with
    | inl e => cret (failure "get_org_failed" e)
    | inr _ =>
        match body with
        | NoBody | BadJSON => cret (Refused 400 "bad_request")
        | Decoded req =>
            if (NR_Name req =? "")%string || (NR_Slug req =? "")%string then cret (Refused 400 "bad_request")
            else
              let* same := GetTeamBySlug orgID (NR_Slug req) in
              match same with
              | inr _ => cret (Refused 409 "conflict")
              | inl _ =>
                  let* id := randHex in
                  let* now := nowUTC in
                  let team := mkTeam ("team-" +:+ id) orgID (NR_Name req) (NR_Slug req) (NR_Description req) now zeroTime in
                  let* err := CreateTeam team in
                  match err with
                  | Some e => cret (if mentionsUnique e then Refused 409 "conflict" else Refused 500 "create_team_failed")
                  | None => audited c "team.created" (TID team) ;;; cret (Answered 201 team)
                  end
              end
        end
    end.

Definition handleListTeams (orgID : string) : M (Answer (list Team)) :=
  let* res := ListTeamsByOrg orgID in
  cret (match res with inl _ => Refused 500 "list_teams_failed" | inr teams => Answered 200 teams end).

Definition handleGetTeam (id : string) : M (Answer Team) :=
  let* res := getTeam id in
  cret (match res with inl e => failure "get_team_failed" e | inr team => Answered 200 team end).

Definition renamedTeam (x : Team) (req : renameRequest) : Team :=
  mkTeam (TID x) (TOrgID x) (default (TName x) (RR_Name req)) (TSlug x) (default (TDescription x) (RR_Description req))
    (TCreatedAt x) (TUpdatedAt x).

Definition handleUpdateTeam (c : Caller) (id : string) (body : Body renameRequest) : M (Answer Team) :=
  let* res := getTeam id in
  match res with
  | inl e => cret (failure "get_team_failed" e)
  | inr team =>
      if negb (isOrgAdminOrPlatformAdmin c (TOrgID team)) then cret (Refused 403 "forbidden")
      else match body with
           | NoBody | BadJSON => cret (Refused 400 "bad_request")
           | Decoded req =>
               let team := renamedTeam team req in
               let* err := UpdateTeam team in
               match err with
               | Some e => cret (failure "update_team_failed" e)
               | None => audited c "team.updated" (TID team) ;;; cret (Answered 200 team)
               end
           end
  end.

Definition handleDeleteTeam (c : Caller) (id : string) : M (Answer unit) :=
  let* res := getTeam id in
  match res with
  | inl e => cret (failure "get_team_failed" e)
  | inr team =>
      if negb (isOrgAdminOrPlatformAdmin c (TOrgID team)) then cret (Refused 403 "forbidden")
      else
        let* err := DeleteTeam id in
        match err with
        | Some e => cret (failure "delete_team_failed" e)
        | None => audited c "team.deleted" id ;;; cret (Answered 204 ())
        end
  end.

(** *** Members *)

Definition orDefault (s d : string) : string := if (s =? "")%string then d else s.

Definition handleAddOrgMember (c : Caller) (orgID : string) (body : Body memberRequest) : M (Answer OrgMember) :=
  if negb (isPlatformAdmin c) then cret (Refused 403 "forbidden")
  else match body with
       | NoBody | BadJSON => cret (Refused 400 "bad_request")
       | Decoded req =>
           if (MR_UserID req =? "")%string then cret (Refused 400 "bad_request")
           else
             let m := mkOrgMember orgID (MR_UserID req) (orDefault (MR_Role req) "member") (actor c) zeroTime in
             let* err := AddOrgMember m in
             cret (match err with Some _ => Refused 500 "add_org_member_failed" | None => Answered 201 m end)
       end.

Definition handleListOrgMembers (orgID : string) : M (Answer (list OrgMember)) :=
  let* res := ListOrgMembers orgID in
  cret (match res with inl _ => Refused 500 "list_org_members_failed" | inr ms => Answered 200 ms end).

Definition handleUpdateOrgMember (c : Caller) (orgID userID : string) (body : Body string) : M (Answer OrgMember) :=
  if negb (isPlatformAdmin c) then cret (Refused 403 "forbidden")
  else match body with
       | NoBody | BadJSON => cret (Refused 400 "bad_request")
       | Decoded role =>
           if (role =? "")%string then cret (Refused 400 "bad_request")
           else
             let* res := getOrgMember orgID userID in
             match res with
             | inl e => cret (failure "get_org_member_failed" e)
             | inr existing =>
                 let* err := RemoveOrgMember orgID userID in
                 match err with
                 | Some _ => cret (Refused 500 "update_org_member_failed")
                 | None =>
                     let updated := mkOrgMember orgID userID role (OMInvitedBy existing) (OMJoinedAt existing) in
                     let* err := AddOrgMember updated in
                     cret (match err with Some _ => Refused 500 "update_org_member_failed" | None => Answered 200 updated end)
                 end
             end
       end.

Definition handleRemoveOrgMember (c : Caller) (orgID userID : string) : M (Answer unit) :=
  if negb (isPlatformAdmin c) then cret (Refused 403 "forbidden")
  else
    let* err := RemoveOrgMember orgID userID in
    cret (match err with Some e => failure "remove_org_member_failed" e | None => Answered 204 () end).

Definition handleAddTeamMember (c : Caller) (teamID : string) (body : Body memberRequest) : M (Answer TeamMember) :=
  if negb (isPlatformAdmin c) then cret (Refused 403 "forbidden")
  else match body with
       | NoBody | BadJSON => cret (Refused 400 "bad_request")
       | Decoded req =>
           if (MR_UserID req =? "")%string then cret (Refused 400 "bad_request")
           else
             let m := mkTeamMember teamID (MR_UserID req) (orDefault (MR_Role req) "member") (actor c) zeroTime in
             let* err := AddTeamMember m in
             cret (match err with Some _ => Refused 500 "add_team_member_failed" | None => Answered 201 m end)
       end.

Definition handleListTeamMembers (teamID : string) : M (Answer (list TeamMember)) :=
  let* res := ListTeamMembers teamID in
  cret (match res with inl _ => Refused 500 "list_team_members_failed" | inr ms => Answered 200 ms end).

Definition handleUpdateTeamMember (c : Caller) (teamID userID : string) (body : Body string) : M (Answer TeamMember) :=
  if negb (isPlatformAdmin c) then cret (Refused 403 "forbidden")
  else match body with
       | NoBody | BadJSON => cret (Refused 400 "bad_request")
       | Decoded role =>
           if (role =? "")%string then cret (Refused 400 "bad_request")
           else
             let* res := getTeamMember teamID userID in
             match res with
             | inl e => cret (failure "get_team_member_failed" e)
             | inr existing =>
                 let updated := mkTeamMember teamID userID role (TMInvitedBy existing) (TMJoinedAt existing) in
                 let* err := AddTeamMember updated in
                 cret (match err with Some _ => Refused 500 "update_team_member_failed" | None => Answered 200 updated end)
             end
       end.

Definition handleRemoveTeamMember (c : Caller) (teamID userID : string) : M (Answer unit) :=
  if negb (isPlatformAdmin c) then cret (Refused 403 "forbidden")
  else
    let* err := RemoveTeamMember teamID userID in
    cret (match err with Some e => failure "remove_team_member_failed" e | None => Answered 204 () end).

End Orgs.

Section Users.
Context `{E : Env} `{C : Crypto}.

(** ** Users, roles and permissions ([platform_users.go]) *)

(** A registry without keys, or one that cannot be read, makes everyone an admin. *)
Definition isAdminActor (s : UserServer) (c : Caller) : M bool :=
  match ctxKeyAPIKey (ca_ctx c) with
  | Some key => cret (K_Role key =? "admin")%string
  | None =>
      if (default "" (ctxKeyOIDCRole (ca_ctx c)) =? "admin")%string then cret true
      else
        let tok := bearerToken (ca_req c) in
        let* now := nowUTC in
        let sa := if (tok =? "")%string then None else parseServiceAccountToken (us_sessionSecret s) (Unix now) tok in
        if match sa with Some claims => (SA_Role claims =? "admin")%string | None => false end then cret true
        else if negb (us_reg s) then cret true
        else
          let* has := hasAnyAPIKey in
          cret (match has with inl _ => true | inr has => negb has end)
  end.

Record userEntry : Type := mkUserEntry { UE_UserSub : string; UE_OrgID : string; UE_Role : string }.

(** Only the members of the organisation called default. *)
Definition handleListUsers (s : UserServer) (c : Caller) : M (Answer (list userEntry)) :=
  let* admin := isAdminActor s c in
  if negb admin then cret (Refused 403 "forbidden")
  else if negb (us_reg s) then cret (Answered 200 [])
  else
    let* res := ListOrgMembers "default" in
    cret (match res with
          | inl e => if isNotFound e then Answered 200 [] else Refused 500 "list_users_failed"
          | inr ms => Answered 200 (map (fun m => mkUserEntry (OMUserSub m) (OMOrgID m) (OMRole m)) ms)
          end).

(** A read that fails counts as no membership. *)
Definition memberships (s : UserServer) (sub : string) : M (list OrgMember * list TeamMember) :=
  if us_reg s then
    let* orgs := GetOrgMembershipsByUser sub in
    let* teams := GetTeamMembershipsByUser sub in
    cret (match orgs with inl _ => [] | inr l => l end, match teams with inl _ => [] | inr l => l end)
  else cret ([], []).

Definition handleGetMe (s : UserServer) (c : Caller) : M (Answer (string * (list OrgMember * list TeamMember))) :=
  let* ms := memberships s (actor c) in cret (Answered 200 (actor c, ms)).

Definition handleGetUser (s : UserServer) (c : Caller) (targetID : string)
    : M (Answer (string * (list OrgMember * list TeamMember))) :=
  let* admin := isAdminActor s c in
  if negb admin && negb (actor c =? targetID)%string then cret (Refused 403 "forbidden")
  else let* ms := memberships s targetID in cret (Answered 200 (targetID, ms)).

(** The placeholder of an organisation that the roles subsystem has not seen. *)
Definition ensurePlatformOrg (orgID : string) : M (option (Answer CustomRole)) :=
  let* res := GetPlatformOrg orgID in
  match res with
  | inr _ => cret None
  | inl e =>
      if isNotFound e then
        let* now := nowUTC in
        let* err := UpsertPlatformOrg (mkPlatformOrg orgID orgID "" now zeroTime) in
        cret (match err with Some _ => Some (Refused 500 "create_org_failed") | None => None end)
      else cret (Some (Refused 500 "get_org_failed"))
  end.

Definition handleCreateRole (s : UserServer) (c : Caller) (orgID : string) (body : Body roleRequest) : M (Answer CustomRole) :=
  let* admin := isAdminActor s c in
  if negb admin then cret (Refused 403 "forbidden")
  else if negb (us_reg s) then cret (Refused 500 "no_registry")
  else match body with
       | NoBody | BadJSON => cret (Refused 400 "bad_request")
       | Decoded req =>
           if (RQ_Name req =? "")%string then cret (Refused 400 "bad_request")
           else
             let* stop := ensurePlatformOrg orgID in
             match stop with
             | Some a => cret a
             | None =>
                 let* id := randHex in
                 let role := mkCustomRole ("role-" +:+ id) orgID (RQ_Name req) (RQ_Description req)
                               (default [] (RQ_Permissions req)) false zeroTime zeroTime in
                 let* err := CreateCustomRole role in
                 match err with
                 | Some e => cret (if isConflict e then Refused 409 "role_name_conflict" else Refused 500 "create_role_failed")
                 | None => audited c "custom_role.created" (RID role) ;;; cret (Answered 201 role)
                 end
             end
       end.

Definition handleListRoles (s : UserServer) (orgID : string) : M (Answer (list CustomRole)) :=
  if negb (us_reg s) then cret (Answered 200 [])
  else
    let* res := ListCustomRoles orgID in
    cret (match res with inl _ => Refused 500 "list_roles_failed" | inr roles => Answered 200 roles end).

Definition handleGetRole (s : UserServer) (orgID roleID : string) : M (Answer CustomRole) :=
  if negb (us_reg s) then cret (Refused 404 "not_found")
  else
    let* res := getCustomRole orgID roleID in
    cret (match res with inl e => failure "get_role_failed" e | inr role => Answered 200 role end).

(** The role as it is read back; [None] when that read fails. *)
Definition handleUpdateRole (s : UserServer) (c : Caller) (orgID roleID : string) (body : Body roleRequest)
    : M (Answer (option CustomRole)) :=
  let* admin := isAdminActor s c in
  if negb admin then cret (Refused 403 "forbidden")
  else if negb (us_reg s) then cret (Refused 500 "no_registry")
  else
    let* res := getCustomRole orgID roleID in
    match res with
    | inl e => cret (failure "get_role_failed" e)
    | inr existing =>
        if RIsSystem existing then cret (Refused 409 "system_role")
        else match body with
             | NoBody | BadJSON => cret (Refused 400 "bad_request")
             | Decoded req =>
                 let updated := mkCustomRole roleID orgID (orDefault (RQ_Name req) (RName existing)) (RQ_Description req)
                                  (default (RPermissions existing) (RQ_Permissions req)) false zeroTime zeroTime in
                 let* err := UpdateCustomRole updated in
                 match err with
                 | Some e =>
                     cret (if isNotFound e then Refused 404 "not_found"
                           else if isConflict e then Refused 409 "role_name_conflict" else Refused 500 "update_role_failed")
                 | None =>
                     let* again := getCustomRole orgID roleID in
                     audited c "custom_role.updated" roleID ;;;
                     cret (Answered 200 (match again with inr role => Some role | inl _ => None end))
                 end
             end
    end.

Definition handleDeleteRole (s : UserServer) (c : Caller) (orgID roleID : string) : M (Answer unit) :=
  let* admin := isAdminActor s c in
  if negb admin then cret (Refused 403 "forbidden")
  else if negb (us_reg s) then cret (Refused 500 "no_registry")
  else
    let* res := getCustomRole orgID roleID in
    match res with
    | inl e => cret (failure "get_role_failed" e)
    | inr existing =>
        if RIsSystem existing then cret (Refused 409 "system_role")
        else
          let* used := IsCustomRoleInUse roleID in
          match used with
          | inl _ => cret (Refused 500 "check_role_usage_failed")
          | inr true => cret (Refused 409 "role_in_use")
          | inr false =>
              let* err := DeleteCustomRole orgID roleID in
              match err with
              | Some _ => cret (Refused 500 "delete_role_failed")
              | None => audited c "custom_role.deleted" roleID ;;; cret (Answered 204 ())
              end
          end
    end.

Definition handleListPermissions : M (Answer (list PermDesc)) := cret (Answered 200 All).

Record MyPermissions : Type := mkMyPermissions {
  my_TeamID : string; my_UserSub : string; my_RoleID : string; my_RoleName : string; my_Permissions : list string }.

(** The role's name and permissions, looked up in the team's organisation. *)
Definition resolveRole (teamID roleID : string) : M (string * list string) :=
  let* team := GetPlatformTeam teamID in
  match team with
  | inl _ => cret (""%string, [])
  | inr team =>
      let* role := getCustomRole (PTOrgID team) roleID in
      cret (match role with inr role => (RName role, RPermissions role) | inl _ => (""%string, []) end)
  end.

Definition handleGetMyPermissions (s : UserServer) (c : Caller) (teamID : string) : M (Answer MyPermissions) :=
  if negb (us_reg s) then cret (Answered 200 (mkMyPermissions teamID (actor c) "" "" []))
  else
    let* res := getTeamMember teamID (actor c) in
    match res with
    | inl e =>
        cret (if isNotFound e then Answered 200 (mkMyPermissions teamID (actor c) "" "" [])
              else Refused 500 "get_team_member_failed")
    | inr member =>
        if (TMRoleID member =? "")%string then cret (Answered 200 (mkMyPermissions teamID (actor c) "" "" []))
        else
          let* role := resolveRole teamID (TMRoleID member) in
          cret (Answered 200 (mkMyPermissions teamID (actor c) (TMRoleID member) (fst role) (snd role)))
    end.

(** ** Pools ([platform_pools.go]): no handler asks who is calling *)

Definition handleCreatePool (c : Caller) (body : Body poolRequest) : M (Answer NodePool) :=
  match body with
  | NoBody | BadJSON => cret (Refused 400 "bad_request")
  | Decoded req =>
      let policy := orDefault (PR_Policy req) "exclusive" in
      if (PR_Name req =? "")%string then cret (Refused 400 "bad_request")
      else if negb (validPolicy policy) then cret (Refused 400 "bad_request")
      else
        let* id := randHex in
        let p := mkNodePool id (PR_Name req) (PR_Description req) (orDefault (PR_OwnerType req) "platform") (PR_OwnerID req)
                   policy zeroTime zeroTime in
        let* err := CreateNodePool p in
        match err with
        | Some _ => cret (Refused 500 "create_pool_failed")
        | None => audited c "pool.created" (NPID p) ;;; cret (Answered 201 p)
        end
  end.

Definition handleListPools : M (Answer (list NodePool)) :=
  let* res := ListNodePools in
  cret (match res with inl _ => Refused 500 "list_pools_failed" | inr pools => Answered 200 pools end).

(** The guard that most of the handlers share. *)
Definition onPool {A} (id : string) (k : NodePool -> M (Answer A)) : M (Answer A) :=
  let* res := GetNodePool id in
  match res with
  | inl e => cret (failure "get_pool_failed" e)
  | inr p => k p
  end.

Definition handleGetPool (id : string) : M (Answer (NodePool * list string)) :=
  onPool id (fun p =>
    let* res := ListNodesInPool id in
    cret (match res with inl _ => Refused 500 "list_pool_nodes_failed" | inr ids => Answered 200 (p, ids) end)).

Definition handleUpdatePool (c : Caller) (id : string) (body : Body poolUpdate) : M (Answer NodePool) :=
  onPool id (fun p =>
    match body with
    | NoBody | BadJSON => cret (Refused 400 "bad_request")
    | Decoded req =>
        if match PU_Policy req with Some policy => negb (validPolicy policy) | None => false end
        then cret (Refused 400 "bad_request")
        else
          let p := mkNodePool (NPID p) (default (NPName p) (PU_Name req)) (default (NPDescription p) (PU_Description req))
                     (NPOwnerType p) (NPOwnerID p) (default (NPPolicy p) (PU_Policy req)) (NPCreatedAt p) (NPUpdatedAt p) in
          let* err := UpdateNodePool p in
          match err with
          | Some _ => cret (Refused 500 "update_pool_failed")
          | None => audited c "pool.updated" id ;;; cret (Answered 200 p)
          end
    end).

Definition handleDeletePool (c : Caller) (id : string) : M (Answer unit) :=
  onPool id (fun _ =>
    let* res := ListNodesInPool id in
    match res with
    | inl _ => cret (Refused 500 "list_pool_nodes_failed")
    | inr (_ :: _) => cret (Refused 409 "pool_has_nodes")
    | inr [] =>
        let* err := DeleteNodePool id in
        match err with
        | Some _ => cret (Refused 500 "delete_pool_failed")
        | None => audited c "pool.deleted" id ;;; cret (Answered 204 ())
        end
    end).

Definition handleAssignNodeToPool (c : Caller) (poolID : string) (body : Body string) : M (Answer (string * string)) :=
  onPool poolID (fun _ =>
    match body with
    | NoBody | BadJSON => cret (Refused 400 "bad_request")
    | Decoded nodeID =>
        if (nodeID =? "")%string then cret (Refused 400 "bad_request")
        else
          let* res := GetNodePool_ByNode nodeID in
          let stop :=
            match res with
            | inl e => if isNotFound e then None else Some (Refused 500 "check_node_pool_failed")
            | inr existing => if (NPID existing =? poolID)%string then None else Some (Refused 409 "node_already_in_pool")
            end in
          match stop with
          | Some a => cret a
          | None =>
              let* err := AddNodeToPool nodeID poolID in
              match err with
              | Some _ => cret (Refused 500 "assign_node_failed")
              | None => audited c "pool.node_assigned" poolID ;;; cret (Answered 201 (poolID, nodeID))
              end
          end
    end).

Definition handleListPoolNodes (poolID : string) : M (Answer (string * list string)) :=
  onPool poolID (fun _ =>
    let* res := ListNodesInPool poolID in
    cret (match res with inl _ => Refused 500 "list_pool_nodes_failed" | inr ids => Answered 200 (poolID, ids) end)).

Definition handleRemoveNodeFromPool (c : Caller) (poolID nodeID : string) : M (Answer unit) :=
  onPool poolID (fun _ =>
    let* res := GetNodePool_ByNode nodeID in
    match res with
    | inl e => cret (failure "check_node_pool_failed" e)
    | inr existing =>
        if negb (NPID existing =? poolID)%string then cret (Refused 404 "not_found")
        else
          let* err := RemoveNodeFromPool nodeID in
          match err with
          | Some _ => cret (Refused 500 "remove_node_failed")
          | None => audited c "pool.node_removed" poolID ;;; cret (Answered 204 ())
          end
    end).

Definition handleUpsertPoolQuota (c : Caller) (poolID teamID : string) (body : Body quotaRequest) : M (Answer PoolTeamQuota) :=
  onPool poolID (fun _ =>
    match body with
    | NoBody | BadJSON => cret (Refused 400 "bad_request")
    | Decoded req =>
        let q := mkPoolTeamQuota poolID teamID (QR_MaxDeployments req) (QR_MaxGPUNodes req) (QR_Priority req) zeroTime zeroTime in
        let* err := UpsertPoolTeamQuota q in
        match err with
        | Some _ => cret (Refused 500 "upsert_quota_failed")
        | None => audited c "pool.quota_upserted" poolID ;;; cret (Answered 200 q)
        end
    end).

Definition handleListPoolQuotas (poolID : string) : M (Answer (string * list PoolTeamQuota)) :=
  onPool poolID (fun _ =>
    let* res := ListPoolTeamQuotas poolID in
    cret (match res with inl _ => Refused 500 "list_quotas_failed" | inr qs => Answered 200 (poolID, qs) end)).

Definition handleDeletePoolQuota (c : Caller) (poolID teamID : string) : M (Answer unit) :=
  onPool poolID (fun _ =>
    let* err := DeletePoolTeamQuota poolID teamID in
    match err with
    | Some e => cret (failure "delete_quota_failed" e)
    | None => audited c "pool.quota_deleted" poolID ;;; cret (Answered 204 ())
    end).

End Users.

(** ** Requests in sequence *)

(** The requests that may change something, with their paths' values and bodies. *)
Inductive TenancyRequest : Type :=
| ReqCreateOrg (b : Body namedRequest) | ReqUpdateOrg (id : string) (b : Body renameRequest) | ReqDeleteOrg (id : string)
| ReqCreateTeam (orgID : string) (b : Body namedRequest) | ReqUpdateTeam (id : string) (b : Body renameRequest)
| ReqDeleteTeam (id : string)
| ReqAddOrgMember (orgID : string) (b : Body memberRequest) | ReqUpdateOrgMember (orgID userID : string) (b : Body string)
| ReqRemoveOrgMember (orgID userID : string)
| ReqAddTeamMember (teamID : string) (b : Body memberRequest) | ReqUpdateTeamMember (teamID userID : string) (b : Body string)
| ReqRemoveTeamMember (teamID userID : string)
| ReqCreateRole (orgID : string) (b : Body roleRequest) | ReqUpdateRole (orgID roleID : string) (b : Body roleRequest)
| ReqDeleteRole (orgID roleID : string)
| ReqCreatePool (b : Body poolRequest) | ReqUpdatePool (id : string) (b : Body poolUpdate) | ReqDeletePool (id : string)
| ReqAssignNode (poolID : string) (b : Body string) | ReqRemoveNode (poolID nodeID : string)
| ReqUpsertQuota (poolID teamID : string) (b : Body quotaRequest) | ReqDeleteQuota (poolID teamID : string).

Section Sequences.
Context `{E : Env} `{C : Crypto}.

(** The handler of a request; the answer is dropped. *)
Definition serveTenancy (s : UserServer) (c : Caller) (req : TenancyRequest) : M unit :=
  match req with
  | ReqCreateOrg b => ignore (handleCreateOrg c b)
  | ReqUpdateOrg id b => ignore (handleUpdateOrg c id b)
  | ReqDeleteOrg id => ignore (handleDeleteOrg c id)
  | ReqCreateTeam o b => ignore (handleCreateTeam c o b)
  | ReqUpdateTeam id b => ignore (handleUpdateTeam c id b)
  | ReqDeleteTeam id => ignore (handleDeleteTeam c id)
  | ReqAddOrgMember o b => ignore (handleAddOrgMember c o b)
  | ReqUpdateOrgMember o u b => ignore (handleUpdateOrgMember c o u b)
  | ReqRemoveOrgMember o u => ignore (handleRemoveOrgMember c o u)
  | ReqAddTeamMember t b => ignore (handleAddTeamMember c t b)
  | ReqUpdateTeamMember t u b => ignore (handleUpdateTeamMember c t u b)
  | ReqRemoveTeamMember t u => ignore (handleRemoveTeamMember c t u)
  | ReqCreateRole o b => ignore (handleCreateRole s c o b)
  | ReqUpdateRole o r b => ignore (handleUpdateRole s c o r b)
  | ReqDeleteRole o r => ignore (handleDeleteRole s c o r)
  | ReqCreatePool b => ignore (handleCreatePool c b)
  | ReqUpdatePool id b => ignore (handleUpdatePool c id b)
  | ReqDeletePool id => ignore (handleDeletePool c id)
  | ReqAssignNode p b => ignore (handleAssignNodeToPool c p b)
  | ReqRemoveNode p n => ignore (handleRemoveNodeFromPool c p n)
  | ReqUpsertQuota p t b => ignore (handleUpsertPoolQuota c p t b)
  | ReqDeleteQuota p t => ignore (handleDeletePoolQuota c p t)
  end.

Lemma keeps_AppendAudit I e : keeps I (AppendAudit e).
Proof. unfold AppendAudit. keeps_steps. destruct (chainAudit _ _); [done|]. by intros [= <-]. Qed.

Lemma keeps_audited I c action target : keeps I (audited c action target).
Proof. unfold audited, ignore. keeps_steps. apply keeps_AppendAudit. Qed.

Lemma keeps_randHex I : keeps I randHex.
Proof. unfold randHex. keeps_steps. Qed.

Lemma keeps_ignore {A} I (m : M A) : keeps I m -> keeps I (ignore m).
Proof. intros H. unfold ignore. keeps_steps. Qed.

(** Writes outside the tenancy tables proper. *)
Lemma keeps_UpsertPlatformOrg I o : keeps I (UpsertPlatformOrg o).
Proof. unfold UpsertPlatformOrg. keeps_steps; cbv zeta; case_match; [done|]; by intros [= <-]. Qed.

Hint Resolve keeps_audited keeps_randHex keeps_UpsertPlatformOrg keeps_CreateOrganization keeps_UpdateOrganization
  keeps_DeleteOrganization keeps_CreateTeam keeps_UpdateTeam keeps_DeleteTeam keeps_AddOrgMember keeps_RemoveOrgMember
  keeps_AddTeamMember keeps_RemoveTeamMember keeps_CreateCustomRole keeps_UpdateCustomRole keeps_DeleteCustomRole
  keeps_CreateNodePool keeps_UpdateNodePool keeps_DeleteNodePool keeps_AddNodeToPool keeps_RemoveNodeFromPool
  keeps_UpsertPoolTeamQuota keeps_DeletePoolTeamQuota : purser.

Lemma keeps_reads I :
  (forall s, keeps I (GetOrganizationBySlug s)) /\ (forall s, keeps I (GetOrganization s)) /\
  (forall s, keeps I (ListTeamsByOrg s)) /\ (forall o s, keeps I (GetTeamBySlug o s)) /\ (forall s, keeps I (getTeam s)) /\
  (forall o s, keeps I (getOrgMember o s)) /\ (forall o s, keeps I (getTeamMember o s)) /\
  (forall o s, keeps I (getCustomRole o s)) /\ (forall s, keeps I (IsCustomRoleInUse s)) /\
  (forall s, keeps I (GetNodePool s)) /\ (forall s, keeps I (ListNodesInPool s)) /\ (forall s, keeps I (GetNodePool_ByNode s)) /\
  (forall s, keeps I (GetPlatformOrg s)) /\ keeps I hasAnyAPIKey.
Proof. split_and!; intros; first [apply keeps_query | apply keeps_bind; [apply keeps_next|intros; apply keeps_query]]. Qed.

(** Opens a handler and splits it into its calls. *)
Ltac handler :=
  unfold handleCreateOrg, handleUpdateOrg, handleDeleteOrg, handleCreateTeam, handleUpdateTeam, handleDeleteTeam,
    handleAddOrgMember, handleUpdateOrgMember, handleRemoveOrgMember, handleAddTeamMember, handleUpdateTeamMember,
    handleRemoveTeamMember, handleCreateRole, ensurePlatformOrg, handleUpdateRole, handleDeleteRole, handleCreatePool,
    handleUpdatePool, handleDeletePool, handleAssignNodeToPool, handleRemoveNodeFromPool, handleUpsertPoolQuota,
    handleDeletePoolQuota, onPool, isAdminActor; cbv zeta.

Lemma keeps_serveTenancy s c req : keeps platform_wf (serveTenancy s c req).
Proof.
  destruct (keeps_reads platform_wf) as (R1 & R2 & R3 & R4 & R5 & R6 & R7 & R8 & R9 & R10 & R11 & R12 & R13 & R14).
  destruct req; cbn [serveTenancy]; apply keeps_ignore; handler; keeps_steps.
Qed.

(** A run of requests, each with its caller. *)
Definition runTenancy (s : UserServer) (reqs : list (Caller * TenancyRequest)) : M unit :=
  runAll (fun '(c, req) => serveTenancy s c req) reqs.

(** Whatever the clients send, the tables keep their keys and references. *)
Lemma tenancy_integrity s reqs w : holds platform_wf w -> holds platform_wf (snd (runTenancy s reqs w)).
Proof.
  revert w. induction reqs as [|[c req] reqs IH]; intros w Hw; [done|]. unfold runTenancy. cbn [runAll].
  rewrite cbind_run. apply IH. by apply keeps_serveTenancy.
Qed.

(** *** Who may change what *)

(** The pools have no guard of their own. *)
Definition adminOnly (req : TenancyRequest) : bool :=
  match req with
  | ReqCreatePool _ | ReqUpdatePool _ _ | ReqDeletePool _ | ReqAssignNode _ _ | ReqRemoveNode _ _ | ReqUpsertQuota _ _ _
  | ReqDeleteQuota _ _ => false
  | _ => true
  end.

Definition aboutRoles (req : TenancyRequest) : bool :=
  match req with ReqCreateRole _ _ | ReqUpdateRole _ _ _ | ReqDeleteRole _ _ => true | _ => false end.

(** The caller presents an API key with the role admin; for roles, and when there is no
    API key, the OIDC role admin or the token of a service account with that role,
    valid at the time of the call, will do. *)
Definition adminCredential (s : UserServer) (c : Caller) (req : TenancyRequest) (now : Time) : Prop :=
  match ctxKeyAPIKey (ca_ctx c) with
  | Some key => K_Role key = "admin"%string
  | None =>
      aboutRoles req = true /\
      (ctxKeyOIDCRole (ca_ctx c) = Some "admin"%string \/
       exists claims, bearerToken (ca_req c) ≠ ""%string /\
         parseServiceAccountToken (us_sessionSecret s) (Unix now) (bearerToken (ca_req c)) = Some claims /\
         SA_Role claims = "admin"%string)
  end.

(** The open door of the requests about roles: without an API key in the request, the
    server has no registry, no enabled key is stored, or the query for one fails. *)
Definition openDoor (s : UserServer) (c : Caller) (req : TenancyRequest) (w : World) : Prop :=
  aboutRoles req = true /\ ctxKeyAPIKey (ca_ctx c) = None /\
  (us_reg s = false \/ env_db (S (w_tick w)) ≠ None \/
   forall id k, keys (w_db w) !! id = Some k -> AKEnabled k = false).

Lemma query_db {A} what (k : Database -> Error + A) w : w_db (snd (query what k w)) = w_db w.
Proof. destruct (query what k w) as [r w'] eqn:H. by apply query_spec in H as (H & _). Qed.

Lemma isAdminActor_db s c w : w_db (snd (isAdminActor s c w)) = w_db w.
Proof.
  unfold isAdminActor. destruct (ctxKeyAPIKey (ca_ctx c)); [done|]. case_match; [done|]. cbv zeta. rewrite cbind_run.
  repeat case_match; try done; rewrite cbind_run; exact (query_db _ _ _).
Qed.

(** A handler behind the guard of roles. *)
Lemma refused_unchanged {A} s c (k : M (Answer A)) w :
  fst (isAdminActor s c w) = false ->
  w_db (snd (ignore (let* admin := isAdminActor s c in if negb admin then cret (Refused 403 "forbidden") else k) w)) = w_db w.
Proof.
  intros H. unfold ignore. rewrite !cbind_run, H. cbn [negb]. cbn. by rewrite isAdminActor_db.
Qed.

(** The guard of roles, in terms of credentials. *)
Lemma isAdminActor_exact s c req w : aboutRoles req = true ->
  fst (isAdminActor s c w) = true <-> adminCredential s c req (env_now (w_tick w)) \/ openDoor s c req w.
Proof.
  intros Hr. unfold isAdminActor, adminCredential, openDoor. rewrite Hr.
  destruct (ctxKeyAPIKey (ca_ctx c)) as [key|]; [cbn; rewrite String.eqb_eq; naive_solver|].
  destruct (String.eqb_spec (default "" (ctxKeyOIDCRole (ca_ctx c))) "admin") as [Ho|Ho].
  { cbn. split; [intros _; left; split; [done|left]|done]. by destruct (ctxKeyOIDCRole (ca_ctx c)) as [x|]; [cbn in Ho; subst|]. }
  assert (Ho' : ctxKeyOIDCRole (ca_ctx c) ≠ Some "admin"%string) by (intros Hx; by rewrite Hx in Ho).
  cbv zeta. rewrite cbind_run. cbn [fst snd nowUTC cbind next cret].
  destruct (String.eqb_spec (bearerToken (ca_req c)) "") as [Ht|Ht].
  2: destruct (parseServiceAccountToken _ _ _) as [claims|] eqn:Hp; [destruct (String.eqb_spec (SA_Role claims) "admin") as [Hs|Hs]|].
  2: { cbn. split; [|done]. intros _. left. split; [done|]. right. by exists claims. }
  all: destruct (us_reg s) eqn:Hreg; cbn [negb];
    [|cbn; split; [intros _; right; split_and!; [done..|by left]|done]].
  all: rewrite cbind_run; destruct (hasAnyAPIKey _) as [has w'] eqn:Hq; apply query_spec in Hq as (_ & _ & Hq); cbn [fst cret w_tick w_db] in *.
  all: assert (Hk : (match has with inl _ => true | inr has => negb has end) = true <->
         env_db (S (w_tick w)) ≠ None \/ forall id k, keys (w_db w) !! id = Some k -> AKEnabled k = false) by
   (destruct (env_db (S (w_tick w))); [subst has; naive_solver|]; subst has; rewrite negb_true_iff, <- not_true_iff_false, existsb_exists;
    split; [intros Hn; right; intros id k Hk; apply not_true_is_false; intros He; apply Hn; exists k; split; [|done];
            apply list_elem_of_In, elem_rowsOf; eauto
           |intros [?|Hn] (k & Hk & He); [done|]; apply list_elem_of_In, elem_rowsOf in Hk as (id & Hk); specialize (Hn id k Hk); congruence]).
  all: rewrite Hk; split; [intros H; right; split_and!; [done..|by right]|].
  all: intros [(_ & [H|(cl & H1 & H2 & H3)])|(_ & _ & [H|H])]; try done; congruence.
Qed.

(** (C31) A caller without an admin credential changes nothing: every request about
    organisations, teams, memberships and roles then leaves the whole database as it was.
    A credential is an API key with the role admin; for roles also, when the request has no
    API key, the OIDC role admin or a valid token of a service account with that role. The
    exception is the open door of the requests about roles: a caller without any API key
    passes when the server has no registry, when no enabled key is stored, and when the
    query for one fails. *)
Theorem tenancy_guarded s c req w :
  adminOnly req = true -> ~ adminCredential s c req (env_now (w_tick w)) -> ~ openDoor s c req w ->
  w_db (snd (serveTenancy s c req w)) = w_db w.
Proof.
  intros Hg Hc Ho. destruct (aboutRoles req) eqn:Hr.
  - assert (Ha : fst (isAdminActor s c w) = false).
    { apply not_true_iff_false. rewrite (isAdminActor_exact s c req w Hr). tauto. }
    destruct req; try done; by apply refused_unchanged.
  - assert (Hm : isPlatformAdmin c = false).
    { unfold isPlatformAdmin, adminCredential in *. destruct (ctxKeyAPIKey (ca_ctx c)); [|done]. by apply String.eqb_neq. }
    destruct req; try done; cbn [serveTenancy];
    unfold handleCreateOrg, handleUpdateOrg, handleDeleteOrg, handleCreateTeam, handleUpdateTeam, handleDeleteTeam,
      handleAddOrgMember, handleUpdateOrgMember, handleRemoveOrgMember, handleAddTeamMember, handleUpdateTeamMember,
      handleRemoveTeamMember, isOrgAdminOrPlatformAdmin, ignore; rewrite ?Hm; cbn [negb]; try done;
    rewrite !cbind_run; case_match; exact (query_db _ _ _).
Qed.

(** *** Roles *)

Lemma failure_refused {A} code e status (a : A) w w' : cret (failure code e) w ≠ (Answered status a, w').
Proof. unfold failure. destruct (isNotFound e); intros [=]. Qed.

Lemma audited_db c action target w : db_platform (w_db (snd (audited c action target w))) = db_platform (w_db w).
Proof.
  pose proof (keeps_audited (fun _ t => t = db_platform (w_db w)) c action target w) as H. unfold holds in H. by apply H.
Qed.

Lemma DeleteCustomRole_run orgID roleID w w' : DeleteCustomRole orgID roleID w = (None, w') ->
  (exists row, roleRow (db_platform (w_db w)) orgID roleID = Some row /\ RIsSystem row = false) /\
  db_platform (w_db w') = set_roles (db_platform (w_db w)) (delete roleID (pt_roles (db_platform (w_db w)))).
Proof.
  unfold DeleteCustomRole. intros H. run_step H. unfold cbind, next, get_db, put_db, cret in Hrun. cbn in Hrun.
  destruct (env_db (w_tick w)); [injection Hrun as <- <-; done|].
  destruct (roleRow (db_platform (w_db w)) orgID roleID) as [row|]; [destruct (RIsSystem row) eqn:Es|]; injection Hrun as <- <-.
  - run_step H. by destruct r as [[]|].
  - injection H as <-. split; [eauto|done].
  - run_step H. by destruct r as [[]|].
Qed.

(** A role is deleted only if it is the organisation's own, is not built in and no team
    member has it; nothing else in the tenancy tables changes. *)
Theorem delete_role_guarded s c orgID roleID w w' :
  handleDeleteRole s c orgID roleID w = (Answered 204 (), w') ->
  let t := db_platform (w_db w) in
  (exists role, roleRow t orgID roleID = Some role /\ RIsSystem role = false) /\
  (forall k m, pt_teamMembers t !! k = Some m -> TMRoleID m ≠ roleID) /\
  db_platform (w_db w') = set_roles t (delete roleID (pt_roles t)).
Proof.
  intros H t. unfold handleDeleteRole in H. apply cbind_inv in H as (admin & w1 & Ha & H).
  pose proof (isAdminActor_db s c w) as Hd. rewrite Ha in Hd. cbn in Hd. destruct (negb admin); [done|]. destruct (negb _); [done|].
  run_step H. apply query_spec in Hrun as (Hd1 & _ & _). destruct r as [e|role]; [by apply failure_refused in H|].
  destruct (RIsSystem role); [done|]. run_step H. apply query_spec in Hrun as (Hd2 & _ & Hr2). destruct r as [|[]]; [done|done|].
  run_step H. destruct r; [done|]. apply DeleteCustomRole_run in Hrun as [Hrole Hdel].
  run_step H. pose proof (audited_db c "custom_role.deleted" roleID w3) as Hau. rewrite Hrun in Hau. injection H as <-. cbn in Hau.
  rewrite Hd2, Hd1, Hd in Hrole, Hdel. rewrite Hd1, Hd in Hr2. destruct (env_db (w_tick w0)); [exfalso; clear -Hr2; discriminate|]. injection Hr2 as Hr2.
  split; [exact Hrole|]. split; [|by rewrite Hau].
  intros k m Hk Hm. symmetry in Hr2. apply not_true_iff_false in Hr2. apply Hr2, existsb_exists. exists (k, m). cbn.
  rewrite <- list_elem_of_In, elem_of_map_to_list, Hm, String.eqb_refl. split; [exact Hk|reflexivity].
Qed.

(** *** Memberships *)

(** A role change that is answered with success changes the role and keeps the rest of
    the row. *)
Theorem update_member_keeps c orgID userID role m w w' :
  handleUpdateOrgMember c orgID userID (Decoded role) w = (Answered 200 m, w') ->
  exists old, pt_orgMembers (db_platform (w_db w)) !! (orgID, userID) = Some old /\
    (IsZero (OMJoinedAt old) = false ->
     pt_orgMembers (db_platform (w_db w')) =
       <[(orgID, userID) := mkOrgMember orgID userID role (OMInvitedBy old) (OMJoinedAt old)]> (pt_orgMembers (db_platform (w_db w)))).
Proof.
  unfold handleUpdateOrgMember. destruct (negb _); [done|]. destruct (role =? "")%string; [done|]. intros H.
  run_step H. apply query_spec in Hrun as (Hd1 & _ & Hr). destruct r as [e|old]; [by apply failure_refused in H|].
  destruct (env_db (w_tick w)); [done|]. destruct (pt_orgMembers (db_platform (w_db w)) !! (orgID, userID)) as [old'|] eqn:Eo; [|done].
  injection Hr as ->. exists old'. split; [done|]. intros Hz.
  run_step H. destruct r as [|]; [done|]. unfold RemoveOrgMember, pexecMust in Hrun. apply exec_spec in Hrun as (_ & Hx).
  rewrite Hd1, Eo in Hx. injection Hx as Hx. run_step H. unfold AddOrgMember in Hrun. cbn [OMJoinedAt] in Hrun. rewrite Hz in Hrun.
  run_step Hrun. injection Hrun0 as <- <-. destruct r as [|]; [done|]. injection H as _ <-. unfold pexec in Hrun.
  apply exec_spec in Hrun as (_ & Hy). rewrite <- Hx in Hy. cbn in Hy. rewrite lookup_delete_eq in Hy. injection Hy as Hy. rewrite <- Hy.
  cbn. by rewrite insert_delete_eq.
Qed.

(** *** The teams that my-permissions looks in *)

(** The table [platform_teams] of a database. *)
Definition teamsAre (T : gmap string PlatformTeam) (db : Database) : Prop := yt_teams (tenancy db) = T.

Ltac head t := lazymatch t with ?f _ => head f | _ => t end.

Lemma teams_pexec T what k : maintains (teamsAre T) (pexec what k).
Proof. apply maintains_exec. intros db db' Hdb. destruct (k _ _); [done|]. intros [= <-]. exact Hdb. Qed.

Lemma teams_pexecMust T what k : maintains (teamsAre T) (pexecMust what k).
Proof. apply maintains_exec. intros db db' Hdb. destruct (k _) as [|[]]; [done| |done]. intros [= <-]. exact Hdb. Qed.

(** A call whose statements write other tables. *)
Ltac elsewhere :=
  repeat lazymatch goal with
  | |- maintains _ (cbind _ _) => apply maintains_bind; [|intros ?]
  | |- maintains _ (query _ _) => apply maintains_query
  | |- maintains _ (pexec _ _) => apply teams_pexec
  | |- maintains _ (pexecMust _ _) => apply teams_pexecMust
  | |- maintains _ (exec _ _) =>
      apply maintains_exec; intros ? ? Hdb; cbv zeta; repeat case_match; try discriminate; intros [= <-]; exact Hdb
  | |- maintains _ next => apply maintains_next
  | |- maintains _ nowUTC => apply maintains_now
  | |- maintains _ (cret _) => apply maintains_ret
  | |- maintains _ (DeleteCustomRole _ _) => solve [auto]
  | |- maintains _ (AppendAudit _) => apply maintains_AppendAudit; intros ? ? Hdb; exact Hdb
  | |- maintains _ (let _ := _ in _) => cbv zeta
  | |- maintains _ (match ?x with _ => _ end) => destruct x
  | |- maintains _ ?m => let f := head m in unfold f
  end.

Lemma teams_DeleteCustomRole T o r : maintains (teamsAre T) (DeleteCustomRole o r).
Proof.
  apply maintains_bind.
  - intros w Hw. unfold cbind, next, get_db, put_db, cret. cbn. destruct (env_db (w_tick w)); [exact Hw|].
    destruct (roleRow _ _ _) as [row|]; [destruct (RIsSystem row)|]; exact Hw.
  - intros [|[]]; elsewhere.
Qed.

Lemma teams_serveTenancy T s c req : maintains (teamsAre T) (serveTenancy s c req).
Proof.
  pose proof (teams_DeleteCustomRole T) as Hdel. destruct req; cbn [serveTenancy]; elsewhere.
Qed.

Lemma runTenancy_teams s reqs w : yt_teams (tenancy (w_db (snd (runTenancy s reqs w)))) = yt_teams (tenancy (w_db w)).
Proof.
  refine (maintains_runAll (teamsAre (yt_teams (tenancy (w_db w)))) _ _ _ w eq_refl). intros [c req]. apply teams_serveTenancy.
Qed.

(** No request ever fills the table that my-permissions looks a team up in: from a
    database without [platform_teams], after any requests, every member of every team is
    answered with no role name and no permissions, whatever the role grants. *)
Theorem my_permissions_blind s reqs c teamID p w w' :
  yt_teams (tenancy (w_db w)) = ∅ ->
  handleGetMyPermissions s c teamID (snd (runTenancy s reqs w)) = (Answered 200 p, w') ->
  my_RoleName p = ""%string /\ my_Permissions p = [].
Proof.
  intros Hw. rewrite <- (runTenancy_teams s reqs w) in Hw. revert Hw. generalize (snd (runTenancy s reqs w)). intros v Hw H.
  unfold handleGetMyPermissions in H. destruct (negb (us_reg s)); [by injection H as <- _|]. run_step H.
  apply query_spec in Hrun as (Hd & _). destruct r as [e|m]; [destruct (isNotFound e); [by injection H as <- _|done]|].
  destruct (TMRoleID m =? "")%string; [by injection H as <- _|]. run_step H. injection H as <- _. unfold resolveRole in Hrun.
  run_step Hrun. apply query_spec in Hrun0 as (_ & _ & Hq). unfold getRow in Hq. rewrite Hd, Hw, lookup_empty in Hq.
  destruct r0; [by injection Hrun as <- _|]. destruct (env_db _); discriminate.
Qed.
End Sequences.

(** ** Concrete runs *)

#[local] Existing Instance calmEnv.
#[local] Existing Instance plainCrypto.

Definition exUsers : UserServer := mkUserServer true "key".

Definition exRequest : Request := mkRequest "POST" "/" "" "" None "".
Definition exAdmin : Caller := mkCaller (withKey Background (mkAPIKey "root" "h" "" "admin" true None)) exRequest.
Definition exViewer : Caller := mkCaller (withKey Background (mkAPIKey "v" "h" "" "viewer" true None)) exRequest.
Definition exAnn : Caller := mkCaller (mkReqContext (Some "ann") None None None None) exRequest.

(** An organisation with a role and a pool, and its team with one member who has the
    role. *)
Definition exSetup : list (Caller * TenancyRequest) := map (pair exAdmin) [
  ReqCreateOrg (Decoded (mkNamedRequest "Acme" "acme" ""));
  ReqCreateTeam "org-0a" (Decoded (mkNamedRequest "ML" "ml" ""));
  ReqCreateRole "org-0a" (Decoded (mkRoleRequest "Deployer" "" (Some ["team:models:deploy"])));
  ReqAddTeamMember "team-0a" (Decoded (mkMemberRequest "oidc:ann" "role-0a"));
  ReqAddOrgMember "org-0a" (Decoded (mkMemberRequest "bob" ""));
  ReqCreatePool (Decoded (mkPoolRequest "gpu" "" "team" "team-0a" ""))]%string.

Definition exTenancy : World := snd (runTenancy exUsers exSetup (snd (CreateNode (exNode "n1") emptyWorld))).

(** The member's role grants a permission, and the answer does not show it. *)
Lemma my_permissions_blind_witness :
  fst (getCustomRole "org-0a" "role-0a" exTenancy) =
    inr (mkCustomRole "role-0a" "org-0a" "Deployer" "" ["team:models:deploy"%string] false 22 22) /\
  exists p, fst (handleGetMyPermissions exUsers exAnn "team-0a" exTenancy) = Answered 200 p /\
    my_RoleID p = "role-0a"%string /\ my_RoleName p = ""%string /\ my_Permissions p = [].
Proof.
  split; [vm_compute; reflexivity|]. exists (mkMyPermissions "team-0a" "oidc:ann" "role-0a" "" []).
  split; [vm_compute; reflexivity|]. split; [reflexivity|].
  refine (my_permissions_blind exUsers exSetup exAnn "team-0a" _ (snd (CreateNode (exNode "n1") emptyWorld))
    (snd (handleGetMyPermissions exUsers exAnn "team-0a" exTenancy)) _ _); vm_compute; reflexivity.
Defined.

Lemma tenancy_guarded_witness :
  w_db (snd (serveTenancy exUsers exViewer (ReqDeleteRole "org-0a" "role-0a") exTenancy)) = w_db exTenancy /\
  w_db (snd (serveTenancy exUsers exViewer (ReqDeleteOrg "org-0a") exTenancy)) = w_db exTenancy.
Proof.
  split.
  - apply (tenancy_guarded exUsers exViewer (ReqDeleteRole "org-0a" "role-0a") exTenancy); [reflexivity| |].
    + discriminate.
    + intros (_ & H & _). discriminate H.
  - apply (tenancy_guarded exUsers exViewer (ReqDeleteOrg "org-0a") exTenancy); [reflexivity| |].
    + discriminate.
    + intros (H & _). discriminate H.
Defined.

(** The open door: in a registry without keys, a caller with no credential at all deletes
    a role, and cannot delete the organisation. *)
Example anonymous_deletes_role :
  let anon := mkCaller Background exRequest in
  let w := snd (serveTenancy exUsers exAdmin (ReqRemoveTeamMember "team-0a" "oidc:ann") exTenancy) in
  fst (handleDeleteRole exUsers anon "org-0a" "role-0a" w) = Answered 204 () /\
  fst (handleDeleteOrg anon "org-0a" w) = Refused 403 "forbidden".
Proof. vm_compute. split; reflexivity. Qed.

(** A role that nobody has is deleted. *)
Definition exUnused : World := snd (serveTenancy exUsers exAdmin (ReqRemoveTeamMember "team-0a" "oidc:ann") exTenancy).

Lemma delete_role_guarded_witness :
  fst (handleDeleteRole exUsers exAdmin "org-0a" "role-0a" exTenancy) = Refused 409 "role_in_use" /\
  pt_roles (db_platform (w_db (snd (handleDeleteRole exUsers exAdmin "org-0a" "role-0a" exUnused)))) = ∅.
Proof.
  split; [vm_compute; reflexivity|].
  destruct (delete_role_guarded exUsers exAdmin "org-0a" "role-0a" exUnused
    (snd (handleDeleteRole exUsers exAdmin "org-0a" "role-0a" exUnused))) as (_ & _ & ->); vm_compute; reflexivity.
Defined.

Definition exChange : Answer OrgMember * World := handleUpdateOrgMember exAdmin "org-0a" "bob" (Decoded "admin"%string) exTenancy.

Lemma update_member_keeps_witness :
  pt_orgMembers (db_platform (w_db (snd exChange))) !! ("org-0a", "bob")%string = Some (mkOrgMember "org-0a" "bob" "admin" "system" 28).
Proof.
  assert (H : exChange = (Answered 200 (mkOrgMember "org-0a" "bob" "admin" "system" 28), snd exChange)) by (vm_compute; reflexivity).
  destruct (update_member_keeps exAdmin "org-0a" "bob" "admin" _ exTenancy _ H) as (old & Ho & ->).
  - vm_compute in Ho. injection Ho as <-. reflexivity.
  - vm_compute in Ho. injection Ho as <-. vm_compute. reflexivity.
Defined.

(** A membership is replaced by a delete and an insert: when the second fails, the
    member is gone. *)
Definition faultAt (n : nat) : Env := {|
  env_start _ _ _ := inr []; env_stop _ _ _ := None; env_http _ := Reply 200; env_done _ := None;
  env_db t := if (t =? n)%nat then Some (ErrIO "disk full") else None;
  env_now t := Z.of_nat t; env_rand _ := "0a"%string; env_order _ _ l := l; env_path := plainPath;
  env_sha256 s := s |}.

Example role_change_loses_member :
  let n := S (w_tick exTenancy) in
  let res := handleUpdateOrgMember (E := faultAt (S n)) exAdmin "org-0a" "bob" (Decoded "admin"%string) exTenancy in
  fst res = Refused 500 "update_org_member_failed" /\
  pt_orgMembers (db_platform (w_db exTenancy)) !! ("org-0a", "bob")%string ≠ None /\
  pt_orgMembers (db_platform (w_db (snd res))) !! ("org-0a", "bob")%string = None.
Proof. split_and!; vm_compute; [reflexivity|discriminate|reflexivity]. Qed.

(** Anyone whom the middleware lets through may move a node: with OIDC off that includes
    the bearer of a disabled key. *)
Example disabled_key_moves_node :
  let r := mkRequest "POST" "/api/v1/pools/0a/nodes" "Bearer tok" "" None "" in
  let res := handleAssignNodeToPool (mkCaller Background r) "0a" (Decoded "n1"%string) exTenancy in
  fst (serve (C := toyCrypto) routePermission (exServer false (exTables "viewer" false)) exMoment r) = Next Background /\
  fst res = Answered 201 ("0a", "n1")%string /\
  pt_poolMembers (db_platform (w_db (snd res))) !! "n1"%string = Some "0a"%string.
Proof. split_and!; vm_compute; reflexivity. Qed.

(** The default role of a team member is the id of no built-in role. *)
Example default_team_role_unknown :
  roleByID "member" SystemRoles = None.
Proof. reflexivity. Qed.
