(* ===== verification/Billing.v ===== *)
(** * Billing: reports, forecasts, prices and quotas

    [registry/billing_sqlite.go], [billing_v2_sqlite.go] and [billing_finops_sqlite.go]:
    the reports over the inference log; the prices and quotas of
    [enterprise_sqlite.go]; the handlers of [server/billing.go], [billing_v2.go] and
    [billing_forecast.go], and the workbook and the page that [billing_export.go] fills.

    [SUM] and [AVG] over floating-point columns are SQLite's own algorithms and enter as
    parameters; the sums of integers are exact and fail when they leave 64 bits. Times
    are compared as the texts they are stored as. *)
From S2P Require Import Prelude Float64 PlanTypes Ordering Cluster Registry Permissions Access Platform Timestamp Statements Text.
From S2P Require Import Credentials Identity Approvals InferenceLog License Tenancy.
Import Row.
Open Scope Z_scope.

(** ** Data *)

Record BillingTenantUsage : Type := mkBillingUsage {
  BU_TenantID : string; BU_ModelID : string; BU_RequestCount : Z; BU_PromptTokens : Z; BU_CompletionTokens : Z;
  BU_TotalTokens : Z; BU_AvgLatencyMs : float64; BU_PeriodStart : Time; BU_PeriodEnd : Time }.

Record TenantSLAStat : Type := mkSLAStat { SL_TenantID : string; SL_ComplianceRate : float64; SL_ThresholdMs : float64 }.

Record BillingReport : Type := mkBillingReport {
  BR_PeriodStart : Time; BR_PeriodEnd : Time; BR_Tenants : list BillingTenantUsage; BR_TotalRequests : Z;
  BR_TotalTokens : Z; BR_SLAStats : list TenantSLAStat }.

Record TeamBillingReport : Type := mkTeamReport {
  TB_TeamID : string; TB_OrgID : string; TB_PeriodStart : Time; TB_PeriodEnd : Time; TB_TotalRequests : Z;
  TB_InputTokens : Z; TB_OutputTokens : Z; TB_TotalTokens : Z; TB_TotalCostUSD : float64;
  TB_ByModel : list BillingTenantUsage }.

Record OrgBillingReport : Type := mkOrgReport {
  OB_OrgID : string; OB_PeriodStart : Time; OB_PeriodEnd : Time; OB_TotalCostUSD : float64; OB_TotalTokens : Z;
  OB_Teams : list TeamBillingReport }.

Record BillingForecastEntry : Type := mkForecast {
  FC_OrgID : string; FC_TeamID : string; FC_PeriodStart : Time; FC_PeriodEnd : Time; FC_DaysElapsed : Z;
  FC_DaysInPeriod : Z; FC_CostUsedUSD : float64; FC_BudgetUSD : option float64; FC_BurnRateDailyUSD : float64;
  FC_ProjectedMonthlyUSD : float64; FC_BudgetRemainingUSD : option float64; FC_DaysUntilExhaustion : option float64;
  FC_QuotaUtilizationPct : option float64 }.

Record ModelAdoptionBucket : Type := mkBucket { AB_Date : string; AB_Requests : Z; AB_TokensOut : Z }.
Record ModelAdoptionSeries : Type := mkSeries { AS_ModelID : string; AS_Buckets : list ModelAdoptionBucket }.
Record ModelAdoptionResponse : Type := mkAdoption { AR_Window : string; AR_Days : Z; AR_Series : list ModelAdoptionSeries }.

Record UsageDelta : Type := mkUsageDelta { UD_Requests : Z; UD_InputTokens : Z; UD_OutputTokens : Z; UD_CostUSD : float64 }.

(** SQLite's aggregates of a column of floats. *)
Class Aggregates : Type := { sumReal : list float64 -> float64; avgReal : list float64 -> float64 }.

(** [+=] on an [int64]. *)
Definition wrap64 (z : Z) : Z := (z + 2 ^ 63) mod 2 ^ 64 - 2 ^ 63.
Definition total64 (l : list Z) : Z := fold_left (fun acc x => wrap64 (acc + x)) l 0.

(** ** Groups of the log *)

(** [timestamp BETWEEN ? AND ?]. *)
Definition inWindow (from until : Time) (e : InferenceEvent) : bool :=
  let t := fmtTime (IETimestamp e) in negb (String.ltb t (fmtTime from)) && negb (String.ltb (fmtTime until) t).

Definition logged (db : Database) : list InferenceEvent := map IREvent (events db).

(** The log between two times; an empty tenant means all of them. *)
Definition windowRows (from until : Time) (tenantID : string) (db : Database) : list InferenceEvent :=
  List.filter (fun e => inWindow from until e && ((tenantID =? "")%string || (IETenantID e =? tenantID)%string)) (logged db).

Definition distinct {K} `{Countable K} (l : list K) : list K := elements (list_to_set l : gset K).

(** [prompt_tokens + completion_tokens]; a sum that leaves 64 bits is a float in
    SQLite, and does not scan into an integer. *)
Definition rowTokens (e : InferenceEvent) : option Z :=
  let s := IEPromptTokens e + IECompletionTokens e in
  if (- 2 ^ 63 <=? s) && (s <=? int64Max) then Some s else None.

Section Reports.
Context `{E : Env} `{A : Aggregates}.

(** The columns of a group. *)
Definition usageOf (from until : Time) (tenant model : string) (rows : list InferenceEvent) : Error + BillingTenantUsage :=
  match sqlSum 0 (map IEPromptTokens rows), sqlSum 0 (map IECompletionTokens rows) with
  | Some p, Some c =>
      match mapM rowTokens rows with
      | None => inl (ErrorString "converting driver.Value type float64 to a int64")
      | Some ts =>
          match sqlSum 0 ts with
          | Some t => inr (mkBillingUsage tenant model (Z.of_nat (length rows)) p c t (avgReal (map IELatencyMs rows)) from until)
          | None => inl integerOverflow
          end
      end
  | _, _ => inl integerOverflow
  end.

Definition tenantModel (e : InferenceEvent) : string * string := (IETenantID e, IEModelID e).

Definition groupUsage (from until : Time) (rows : list InferenceEvent) (k : string * string) : Error + BillingTenantUsage :=
  usageOf from until (fst k) (snd k) (List.filter (fun e => bool_decide (Some (tenantModel e) = Some k)) rows).

(** [ORDER BY total_tokens DESC]. *)
Definition heavier (a b : BillingTenantUsage) : bool := BU_TotalTokens b <? BU_TotalTokens a.

Definition GetBillingReport (from until : Time) (tenantID : string) : M (Error + BillingReport) :=
  let* n := next in
  query "registry: get billing report" (fun db =>
    let rows := windowRows from until tenantID db in
    match scanAll (groupUsage from until rows) (env_order _ n (distinct (map tenantModel rows))) with
    | inl e => inl (Wrap "registry: get billing report" e)
    | inr l =>
        let tenants := go_sort heavier l in
        inr (mkBillingReport from until tenants (total64 (map BU_RequestCount tenants)) (total64 (map BU_TotalTokens tenants)) [])
    end).

(** ** Costs *)

(** The price with the greatest [effective_from] up to a time. *)
Definition laterPrice (p q : string * ModelPricing) : string * ModelPricing := if String.ltb (fst p) (fst q) then q else p.

Fixpoint latest (l : list (string * ModelPricing)) : option (string * ModelPricing) :=
  match l with
  | [] => None
  | p :: l => Some (match latest l with None => p | Some q => laterPrice p q end)
  end.

Definition pricesOf (db : Database) (model : string) : list (string * ModelPricing) :=
  omap (fun '((m, from), p) => if (m =? model)%string then Some (from, p) else None) (map_to_list (yt_pricing (tenancy db))).

(** The row of [current_pricing]. *)
Definition priceAt (db : Database) (asOf : Time) (model : string) : option ModelPricing :=
  snd <$> latest (List.filter (fun p => negb (String.ltb (fmtTime asOf) (fst p))) (pricesOf db model)).

Definition eventCost (price : option ModelPricing) (e : InferenceEvent) : float64 :=
  let input := match price with Some p => MPInputPricePer1K p | None => of_Z 0 end in
  let output := match price with Some p => MPOutputPricePer1K p | None => of_Z 0 end in
  (of_Z (IEPromptTokens e) / of_Z 1000 * input + of_Z (IECompletionTokens e) / of_Z 1000 * output)%f64.

Definition groupCost (db : Database) (asOf : Time) (rows : list InferenceEvent) : float64 :=
  sumReal (map (fun e => eventCost (priceAt db asOf (IEModelID e)) e) rows).

Definition modelUsage (from until : Time) (teamID : string) (db : Database) (rows : list InferenceEvent) (model : string)
    : Error + (BillingTenantUsage * float64) :=
  let mine := List.filter (fun e => bool_decide (Some (IEModelID e) = Some model)) rows in
  match usageOf from until teamID model mine with inl e => inl e | inr u => inr (u, groupCost db until mine) end.

Definition teamRows (from until : Time) (teamID : string) (db : Database) : list InferenceEvent :=
  List.filter (fun e => (IETenantID e =? teamID)%string && inWindow from until e) (logged db).

Definition GetTeamBillingReport (teamID : string) (from until : Time) : M (Error + TeamBillingReport) :=
  let* n := next in
  query "registry: get team billing report" (fun db =>
    let rows := teamRows from until teamID db in
    match scanAll (modelUsage from until teamID db rows) (env_order _ n (distinct (map IEModelID rows))) with
    | inl e => inl (Wrap "registry: get team billing report" e)
    | inr l =>
        let l := go_sort (fun a b => heavier (fst a) (fst b)) l in
        let us := map fst l in
        inr (mkTeamReport teamID "" from until (total64 (map BU_RequestCount us)) (total64 (map BU_PromptTokens us))
               (total64 (map BU_CompletionTokens us)) (total64 (map BU_TotalTokens us)) (fold_left fadd (map snd l) f0) us)
    end).

(** [LIKE] on characters: [%] is any text, [_] any character, and the letters of ASCII
    match in either case. *)
Definition foldCase (c : Z) : Z := if (65 <=? c) && (c <=? 90) then c + 32 else c.

Fixpoint like (p s : list Z) : bool :=
  match p with
  | [] => match s with [] => true | _ => false end
  | c :: p =>
      if c =? 37 then
        (fix any (s : list Z) : bool := like p s || match s with [] => false | _ :: s => any s end) s
      else match s with
           | [] => false
           | x :: s => ((c =? 95) || (foldCase c =? foldCase x)) && like p s
           end
  end.

Definition matchesOrg (orgID tenant : string) : bool := like (runes (bytes (orgID +:+ "/%"))) (runes (bytes tenant)).

Definition orgTenants (from until : Time) (orgID : string) (db : Database) : list string :=
  go_sort String.ltb (distinct (map IETenantID
    (List.filter (fun e => matchesOrg orgID (IETenantID e) && inWindow from until e) (logged db)))).

(** The reports of the teams, until one fails. *)
Fixpoint teamReports (orgID : string) (from until : Time) (ids : list string) : M (Error + list TeamBillingReport) :=
  match ids with
  | [] => cret (inr [])
  | tid :: ids =>
      let* r := GetTeamBillingReport tid from until in
      match r with
      | inl e => cret (inl (Wrap ("registry: get org billing report: team " +:+ tid) e))
      | inr t =>
          let t := mkTeamReport (TB_TeamID t) orgID (TB_PeriodStart t) (TB_PeriodEnd t) (TB_TotalRequests t)
                     (TB_InputTokens t) (TB_OutputTokens t) (TB_TotalTokens t) (TB_TotalCostUSD t) (TB_ByModel t) in
          let* rest := teamReports orgID from until ids in
          cret (result_map (cons t) rest)
      end
  end.

Definition GetOrgBillingReport (orgID : string) (from until : Time) : M (Error + OrgBillingReport) :=
  let* ids := query "registry: get org billing report: list teams" (fun db => inr (orgTenants from until orgID db)) in
  match ids with
  | inl e => cret (inl e)
  | inr ids =>
      let* teams := teamReports orgID from until ids in
      cret (result_map (fun ts => mkOrgReport orgID from until (fold_left fadd (map TB_TotalCostUSD ts) f0)
                                    (total64 (map TB_TotalTokens ts)) ts) teams)
  end.
End Reports.

(** ** The forecast ([billing_finops_sqlite.go]) *)

Definition Hour : Duration := 3600 * Second.
Definition Day : Duration := 24 * Hour.

(** [Duration.Hours]. *)
Definition Hours (d : Duration) : float64 := (of_Z (Z.quot d Hour) + of_Z (Z.rem d Hour) / of_Z Hour)%f64.

(** [int(d.Hours() / 24)]. *)
Definition wholeDays (d : Duration) : Z := to_int (Hours d / of_Z 24)%f64.

(** Midnight of the first of a month, in UTC; the month after December is January. *)
Definition monthStart (y m : Z) : Time := daysOf y m 1 * Day.
Definition nextMonthStart (y m : Z) : Time := if m =? 12 then monthStart (y + 1) 1 else monthStart y (m + 1).

Record BillingPeriod : Type := mkPeriod {
  bp_start : Time; bp_end : Time; bp_daysInPeriod : Z; bp_daysElapsed : Z }.

Definition billingPeriod (now : Time) : BillingPeriod :=
  let '(y, m, _) := civil (now / Day) in
  let periodStart := monthStart y m in
  let nextMonth := nextMonthStart y m in
  let daysInPeriod := wholeDays (Sub nextMonth periodStart) in
  let rawElapsed := wholeDays (Sub now periodStart) + 1 in
  let rawElapsed := if rawElapsed <? 1 then 1 else rawElapsed in
  let rawElapsed := if daysInPeriod <? rawElapsed then daysInPeriod else rawElapsed in
  mkPeriod periodStart (nextMonth - 1) daysInPeriod rawElapsed.

(** [strings.IndexByte(tenantID, '/')]. *)
Definition splitTenantID (tenantID : string) : string * string :=
  match cutFirst "/" tenantID with Some (org, team) => (org, team) | None => (tenantID, ""%string) end.

Definition forecastEntry (p : BillingPeriod) (tenantID : string) (cost budget : float64) : BillingForecastEntry :=
  let '(orgID, teamID) := splitTenantID tenantID in
  let burnRate := (cost / of_Z (bp_daysElapsed p))%f64 in
  let projected := (burnRate * of_Z (bp_daysInPeriod p))%f64 in
  let remaining := (budget - cost)%f64 in
  let set (x : float64) : option float64 := if fltb f0 budget then Some x else None in
  mkForecast orgID teamID (bp_start p) (bp_end p) (bp_daysElapsed p) (bp_daysInPeriod p) cost (set budget) burnRate projected
    (set remaining) (if fltb f0 burnRate then set (remaining / burnRate)%f64 else None) (set (cost / budget * of_Z 100)%f64).

Section Finops.
Context `{E : Env} `{A : Aggregates}.

Definition tenantCost (db : Database) (now : Time) (rows : list InferenceEvent) (tenant : string) : string * float64 * float64 :=
  (tenant, groupCost db now (List.filter (fun e => (IETenantID e =? tenant)%string) rows),
   match yt_quotas (tenancy db) !! tenant with Some q => TQMonthlyCostBudget q | None => f0 end).

Definition GetBillingForecast (now : Time) : M (Error + list BillingForecastEntry) :=
  let p := billingPeriod now in
  let* n := next in
  query "registry: get_billing_forecast" (fun db =>
    let rows := windowRows (bp_start p) now "" db in
    let costs := map (tenantCost db now rows) (env_order _ n (distinct (map IETenantID rows))) in
    inr (map (fun '(tenant, cost, budget) => forecastEntry p tenant cost budget)
           (go_sort (fun a b => fltb (snd (fst b)) (snd (fst a))) costs))).

(** *** Adoption of models *)

(** [DATE(timestamp)] and [strftime('%Y-W%W', timestamp)]: the weeks start on Mondays,
    and the days before the first Monday are week 0. A year that the date functions do
    not read gives [NULL], which does not scan. *)
Definition dateBucket (weekly : bool) (t : Time) : option string :=
  let days := t / Day in
  let '(y, _, _) := civil days in
  if (0 <=? y) && (y <=? 9999) then
    Some (if weekly
          then let yday := days - daysOf y 1 1 in
               let wday := (days + 3) mod 7 in
               (digits 4 y +:+ "-W" +:+ digits 2 ((yday + 7 - wday) / 7))%string
          else dayText days)
  else None.

Definition clampDays (days : Z) : Z := if days <? 1 then 1 else if 90 <? days then 90 else days.

(** A group: the model, its bucket, the requests and the tokens. *)
Definition bucketOf (weekly : bool) (rows : list InferenceEvent) (k : string * option string)
    : Error + (string * ModelAdoptionBucket) :=
  let mine := List.filter (fun e => bool_decide ((IEModelID e, dateBucket weekly (IETimestamp e)) = k)) rows in
  match snd k, sqlSum 0 (map IECompletionTokens mine) with
  | Some date, Some tokens => inr (fst k, mkBucket date (Z.of_nat (length mine)) tokens)
  | None, _ => inl (ErrorString "converting NULL to string is unsupported")
  | _, None => inl integerOverflow
  end.

(** [ORDER BY model_id, bucket]; [NULL] comes first. *)
Definition bucketBefore (a b : string * option string) : bool :=
  String.ltb (fst a) (fst b) ||
  (fst a =? fst b)%string && match snd a, snd b with Some x, Some y => String.ltb x y | None, Some _ => true | _, None => false end.

Definition bucketsFor (rows : list (string * ModelAdoptionBucket)) (model : string) : list ModelAdoptionBucket :=
  omap (fun '(m, b) => if (m =? model)%string then Some b else None) rows.

(** The models in the order in which the rows first name them. *)
Fixpoint firstSeen (seen l : list string) : list string :=
  match l with
  | [] => []
  | x :: l => if bool_decide (x ∈ seen) then firstSeen seen l else x :: firstSeen (x :: seen) l
  end.

Definition modelRequests (rows : list (string * ModelAdoptionBucket)) (model : string) : Z :=
  total64 (map AB_Requests (bucketsFor rows model)).

Definition maxModels : nat := 10.

Definition GetModelAdoptionSeries (window : string) (days : Z) (now : Time) : M (Error + ModelAdoptionResponse) :=
  let days := clampDays days in
  let weekly := (window =? "weekly")%string in
  let since := now - days * Day in
  let* n := next in
  query "registry: get_model_adoption" (fun db =>
    let rows := List.filter (fun e => negb (String.ltb (fmtTime (IETimestamp e)) (fmtTime since))) (logged db) in
    let keys := go_sort bucketBefore (distinct (map (fun e => (IEModelID e, dateBucket weekly (IETimestamp e))) rows)) in
    match scanAll (bucketOf weekly rows) keys with
    | inl e => inl (Wrap "registry: get_model_adoption" e)
    | inr l =>
        let order := go_sort (fun a b => modelRequests l b <? modelRequests l a) (env_order _ n (firstSeen [] (map fst l))) in
        inr (mkAdoption (if weekly then "weekly" else "daily") days
               (map (fun m => mkSeries m (bucketsFor l m)) (take maxModels order)))
    end).

(** *** Compliance with a latency threshold *)

Definition measured (e : InferenceEvent) : bool := fltb f0 (IELatencyMs e).

Definition slaStat (threshold : float64) (rows : list InferenceEvent) (tenant : string) : TenantSLAStat :=
  let mine := List.filter (fun e => (IETenantID e =? tenant)%string) rows in
  let total := Z.of_nat (length (List.filter measured mine)) in
  let compliant := Z.of_nat (length (List.filter (fun e => measured e && fltb (IELatencyMs e) threshold) mine)) in
  mkSLAStat tenant (if 0 <? total then (of_Z compliant / of_Z total)%f64 else f0) threshold.

(** [HAVING total > 0]: the tenants with a measured request. *)
Definition GetSLAComplianceByTenant (from until : Time) (threshold : float64) : M (Error + list TenantSLAStat) :=
  let* n := next in
  query "registry: get_sla_compliance" (fun db =>
    let rows := windowRows from until "" db in
    inr (map (slaStat threshold rows) (env_order _ n (distinct (map IETenantID (List.filter measured rows)))))).

(** ** Prices and quotas ([enterprise_sqlite.go]) *)

Definition with_prices (db : Database) (p : gmap (string * string) ModelPricing) : Database :=
  let t := tenancy db in with_tenancy db (mkTenancyTables (yt_orgs t) (yt_teams t) p (yt_quotas t) (yt_usage t)).
Definition with_quotas (db : Database) (q : gmap string TenantQuota) : Database :=
  let t := tenancy db in with_tenancy db (mkTenancyTables (yt_orgs t) (yt_teams t) (yt_pricing t) q (yt_usage t)).
Definition with_tenantUsage (db : Database) (u : gmap (string * string) TenantQuotaUsage) : Database :=
  let t := tenancy db in with_tenancy db (mkTenancyTables (yt_orgs t) (yt_teams t) (yt_pricing t) (yt_quotas t) u).

Definition UpsertModelPricing (p : ModelPricing) : M (option Error) :=
  exec "registry: upsert_model_pricing" (fun db =>
    let from := fmtTime (MPEffectiveFrom p) in
    inr (with_prices db (<[(MPModelID p, from) :=
      mkModelPricing (MPModelID p) (parseTime (Some from)) (MPInputPricePer1K p) (MPOutputPricePer1K p) (MPTiers p)]>
      (yt_pricing (tenancy db))))).

(** [ORDER BY effective_from DESC LIMIT 1]: no bound on the time. *)
Definition GetCurrentModelPricing (modelID : string) : M (Error + ModelPricing) :=
  query "registry: get_model_pricing" (fun db =>
    match latest (pricesOf db modelID) with Some (_, p) => inr p | None => inl ErrNotFound end).

Definition UpsertTenantQuota (q : TenantQuota) : M (option Error) :=
  let* now := nowUTC in
  exec "registry: upsert_tenant_quota" (fun db =>
    inr (with_quotas db (<[TQTenantID q :=
      mkTenantQuota (TQTenantID q) (TQMonthlyRequests q) (TQMaxConcurrent q) (TQRequestsPerSec q) (TQInputTPM q)
        (TQOutputTPM q) (TQMonthlyInputTokens q) (TQMonthlyOutputTokens q) (TQMonthlyCostBudget q) (TQAlertAtPercent q)
        (TQInheritFromParent q) now]> (yt_quotas (tenancy db))))).

Definition GetTenantQuota (tenantID : string) : M (Error + TenantQuota) :=
  query "registry: get_tenant_quota" (fun db => getRow (yt_quotas (tenancy db)) tenantID).

(** A counter beyond 64 bits would turn into a float; that is outside this model. *)
Definition addUsage (u : TenantQuotaUsage) (delta : UsageDelta) (now : Time) : TenantQuotaUsage :=
  mkTenantQuotaUsage (TSTenantID u) (TSPeriodStart u) (TSRequestsUsed u + UD_Requests delta)
    (TSInputTokensUsed u + UD_InputTokens delta) (TSOutputTokensUsed u + UD_OutputTokens delta)
    (TSCostUsedUSD u + UD_CostUSD delta)%f64 now.

Definition IncrementTenantUsage (tenantID : string) (period : Time) (delta : UsageDelta) : M (option Error) :=
  let* now := nowUTC in
  exec "registry: increment_tenant_usage" (fun db =>
    let k := (tenantID, fmtTime period) in
    inr (with_tenantUsage db (<[k :=
      match yt_usage (tenancy db) !! k with
      | Some u => addUsage u delta now
      | None => mkTenantQuotaUsage tenantID (parseTime (Some (fmtTime period))) (UD_Requests delta) (UD_InputTokens delta)
                  (UD_OutputTokens delta) (UD_CostUSD delta) now
      end]> (yt_usage (tenancy db))))).

Definition GetTenantUsage (tenantID : string) (period : Time) : M (Error + TenantQuotaUsage) :=
  query "registry: get_tenant_usage" (fun db =>
    match yt_usage (tenancy db) !! (tenantID, fmtTime period) with Some u => inr u | None => inl ErrNotFound end).
End Finops.

(** ** The exports ([server/billing_export.go]) *)

(** A cell: a text, an integer, a float, or a float printed with some decimals. *)
Inductive Cell : Type := CText (s : string) | CInt (n : Z) | CFloat (x : float64) | CFixed (decimals : nat) (x : float64).

Record Sheet : Type := mkSheet { sh_name : string; sh_header : list string; sh_rows : list (list Cell) }.

(** [PeriodStart.UTC().Format("2006-01")]. *)
Definition billingPeriodLabel (r : BillingReport) : string :=
  let '(y, m, _) := civil (BR_PeriodStart r / Day) in (yearText y +:+ "-" +:+ digits 2 m)%string.

Definition splitTenantForExport (tenantID : string) : string * string := splitTenantID tenantID.

(** The sums of the rows of a key, in the order in which the report first names the
    keys. *)
Record sumRow : Type := mkSumRow { sr_requests : Z; sr_in : Z; sr_out : Z }.

Definition addRow (s : sumRow) (tu : BillingTenantUsage) : sumRow :=
  mkSumRow (wrap64 (sr_requests s + BU_RequestCount tu)) (wrap64 (sr_in s + BU_PromptTokens tu))
    (wrap64 (sr_out s + BU_CompletionTokens tu)).

Definition rowOf (key : BillingTenantUsage -> string) (us : list BillingTenantUsage) (k : string) : sumRow :=
  fold_left addRow (List.filter (fun tu => (key tu =? k)%string) us) (mkSumRow 0 0 0).

Definition keysOf (key : BillingTenantUsage -> string) (us : list BillingTenantUsage) : list string := firstSeen [] (map key us).

(** The last statistic of a tenant. *)
Definition slaOf (stats : list TenantSLAStat) (tenant : string) : option float64 :=
  fold_left (fun acc s => if (SL_TenantID s =? tenant)%string then Some (SL_ComplianceRate s) else acc) stats None.

Definition summarySheet (r : BillingReport) : Sheet :=
  mkSheet "Summary" ["org_id"; "team_id"; "period"; "request_count"; "input_tokens"; "output_tokens"; "cost_usd"; "sla_compliance_rate"]
    (map (fun tid =>
       let tr := rowOf BU_TenantID (BR_Tenants r) tid in
       let '(org, team) := splitTenantForExport tid in
       [CText org; CText team; CText (billingPeriodLabel r); CInt (sr_requests tr); CInt (sr_in tr); CInt (sr_out tr);
        CFloat f0; match slaOf (BR_SLAStats r) tid with Some rate => CFixed 4 rate | None => CText "" end])
     (keysOf BU_TenantID (BR_Tenants r))).

Definition byModelSheet (r : BillingReport) : Sheet :=
  mkSheet "By Model" ["model_id"; "request_count"; "tokens_in"; "tokens_out"; "cost_usd"]
    (map (fun mid =>
       let mr := rowOf BU_ModelID (BR_Tenants r) mid in
       [CText mid; CInt (sr_requests mr); CInt (sr_in mr); CInt (sr_out mr); CFloat f0])
     (keysOf BU_ModelID (BR_Tenants r))).

(** The tenants stand in for the keys. *)
Definition keyUsageSheet (r : BillingReport) : Sheet :=
  mkSheet "Key Usage" ["key_id"; "name"; "tenant"; "request_count"; "total_tokens"; "last_used_at"]
    (map (fun tid =>
       let tr := rowOf BU_TenantID (BR_Tenants r) tid in
       [CText tid; CText (fst (splitTenantForExport tid)); CText tid; CInt (sr_requests tr); CInt (wrap64 (sr_in tr + sr_out tr));
        CText (secondText (BR_PeriodEnd r / Second) +:+ "Z")])
     (keysOf BU_TenantID (BR_Tenants r))).

Definition writeBillingXLSX (r : BillingReport) : string * list Sheet :=
  (("purser-billing-" +:+ billingPeriodLabel r +:+ ".xlsx")%string, [summarySheet r; byModelSheet r; keyUsageSheet r]).

(** A label of at most 24 characters; a longer one is cut, with U+2026 at its end. *)
Definition tenantLabel (tenant : string) : string :=
  let rs := runes (bytes tenant) in
  if (24 <? length rs)%nat then ofBytes (mjoin (map encodeRune (take 23 rs ++ [8230]))) else tenant.

Record Page : Type := mkPage {
  pg_title : string; pg_generated : string; pg_header : list string; pg_rows : list (list Cell); pg_totals : list Cell }.

Definition writeBillingPDF (r : BillingReport) (now : Time) : string * Page :=
  let period := billingPeriodLabel r in
  (("purser-billing-" +:+ period +:+ ".pdf")%string,
   mkPage ("Purser Billing Report " +:+ emDash +:+ " " +:+ period)
     ("Generated: " +:+ dayText (now / Day) +:+ " " +:+ clockText (now / Second mod 86400) +:+ " UTC")
     ["Tenant"; "Requests"; "Input Tokens"; "Output Tokens"; "Total Tokens"; "Avg Latency ms"]
     (map (fun tu => [CText (tenantLabel (BU_TenantID tu)); CInt (BU_RequestCount tu); CInt (BU_PromptTokens tu);
                      CInt (BU_CompletionTokens tu); CInt (BU_TotalTokens tu); CFixed 1 (BU_AvgLatencyMs tu)]) (BR_Tenants r))
     [CText "TOTAL"; CInt (BR_TotalRequests r); CText ""; CText ""; CInt (BR_TotalTokens r); CText ""]).

Definition csvRows (r : BillingReport) : list (list Cell) :=
  map CText ["tenant_id"; "model_id"; "request_count"; "prompt_tokens"; "completion_tokens"; "total_tokens"; "avg_latency_ms"] ::
  map (fun tu => [CText (BU_TenantID tu); CText (BU_ModelID tu); CInt (BU_RequestCount tu); CInt (BU_PromptTokens tu);
                  CInt (BU_CompletionTokens tu); CInt (BU_TotalTokens tu); CFixed 1 (BU_AvgLatencyMs tu)]) (BR_Tenants r).

(** ** The handlers *)

(** The query of a request; a parameter that is not there is empty. *)
Record BillingQuery : Type := mkBillingQuery {
  bq_start : string; bq_end : string; bq_tenant_id : string; bq_format : string; bq_sla_threshold_ms : string;
  bq_window : string; bq_days : string }.

Inductive BillingBody : Type :=
| AsJSON (r : BillingReport)
| AsCSV (rows : list (list Cell))
| AsXLSX (file : string) (sheets : list Sheet)
| AsPDF (file : string) (page : Page).

Record BillingSummary : Type := mkBillingSummary {
  BS_PeriodStart : Time; BS_PeriodEnd : Time; BS_TotalRequests : Z; BS_TotalTokens : Z; BS_ActiveTenants : Z }.

Section Handlers.
Context `{E : Env} `{A : Aggregates}.

(** [time.Parse(time.RFC3339, _)], in UTC, and [strconv.ParseFloat]. *)
Variable timeParse : string -> option Time.
Variable ParseFloat : string -> option float64.

(** The licence of the server. *)
Variable lic : option License.

(** The gate of every handler but the summary. *)
Definition billingGate {B} (k : M (Answer B)) : M (Answer B) :=
  let* now := nowUTC in
  if negb (licenseAllows lic now featureBilling) then cret (Refused 402 "license_required") else k.

Definition parseBillingWindow (q : BillingQuery) : M (option (Time * Time)) :=
  let* now := nowUTC in
  cret (match (if (bq_start q =? "")%string then Some (now - 30 * Day) else timeParse (bq_start q)),
              (if (bq_end q =? "")%string then Some now else timeParse (bq_end q)) with
        | Some from, Some until => Some (from, until)
        | _, _ => None
        end).

(** [None] when the threshold is there and is not a positive number. *)
Definition enrichSLA (q : BillingQuery) (from until : Time) (report : BillingReport) : M (option BillingReport) :=
  if (bq_sla_threshold_ms q =? "")%string then cret (Some report)
  else match ParseFloat (bq_sla_threshold_ms q) with
       | None => cret None
       | Some x =>
           if fleb x f0 then cret None
           else
             let* stats := GetSLAComplianceByTenant from until x in
             cret (Some (match stats with
                         | inl _ => report
                         | inr stats => mkBillingReport (BR_PeriodStart report) (BR_PeriodEnd report) (BR_Tenants report)
                                          (BR_TotalRequests report) (BR_TotalTokens report) stats
                         end))
       end.

(** A format that is not known is found out last. *)
Definition renderReport (format : string) (report : BillingReport) (now : Time) : Answer BillingBody :=
  if (format =? "")%string || (format =? "json")%string then Answered 200 (AsJSON report)
  else if (format =? "csv")%string then Answered 200 (AsCSV (csvRows report))
  else if (format =? "xlsx")%string then let '(file, sheets) := writeBillingXLSX report in Answered 200 (AsXLSX file sheets)
  else if (format =? "pdf")%string then let '(file, page) := writeBillingPDF report now in Answered 200 (AsPDF file page)
  else Refused 400 "bad_format".

Definition handleBillingReport (q : BillingQuery) : M (Answer BillingBody) :=
  billingGate (
    let* window := parseBillingWindow q in
    match window with
    | None => cret (Refused 400 "bad_request")
    | Some (from, until) =>
        let* report := GetBillingReport from until (bq_tenant_id q) in
        match report with
        | inl _ => cret (Refused 500 "billing_report_failed")
        | inr report =>
            let* enriched := enrichSLA q from until report in
            match enriched with
            | None => cret (Refused 400 "bad_request")
            | Some report => let* now := nowUTC in cret (renderReport (bq_format q) report now)
            end
        end
    end).

Definition handleBillingSummary (q : BillingQuery) : M (Answer BillingSummary) :=
  let* now := nowUTC in
  let* report := GetBillingReport (now - 30 * Day) now (bq_tenant_id q) in
  cret (match report with
        | inl _ => Refused 500 "billing_summary_failed"
        | inr r => Answered 200 (mkBillingSummary (BR_PeriodStart r) (BR_PeriodEnd r) (BR_TotalRequests r) (BR_TotalTokens r)
                     (Z.of_nat (length (distinct (map BU_TenantID (BR_Tenants r))))))
        end).

Definition handleOrgBillingReport (orgID : string) (q : BillingQuery) : M (Answer OrgBillingReport) :=
  billingGate (
    if (orgID =? "")%string then cret (Refused 400 "bad_request")
    else
      let* window := parseBillingWindow q in
      match window with
      | None => cret (Refused 400 "bad_request")
      | Some (from, until) =>
          let* report := GetOrgBillingReport orgID from until in
          cret (match report with inl _ => Refused 500 "org_billing_failed" | inr r => Answered 200 r end)
      end).

Definition handleTeamBillingReport (teamID : string) (q : BillingQuery) : M (Answer TeamBillingReport) :=
  billingGate (
    if (teamID =? "")%string then cret (Refused 400 "bad_request")
    else
      let* window := parseBillingWindow q in
      match window with
      | None => cret (Refused 400 "bad_request")
      | Some (from, until) =>
          let* report := GetTeamBillingReport teamID from until in
          cret (match report with inl _ => Refused 500 "team_billing_failed" | inr r => Answered 200 r end)
      end).

Definition handleBillingForecast : M (Answer (list BillingForecastEntry)) :=
  billingGate (
    let* now := nowUTC in
    let* entries := GetBillingForecast now in
    cret (match entries with inl _ => Refused 500 "billing_forecast_failed" | inr l => Answered 200 l end)).

Definition handleModelAdoption (q : BillingQuery) : M (Answer ModelAdoptionResponse) :=
  billingGate (
    let window := if (bq_window q =? "weekly")%string then "weekly"%string else "daily"%string in
    let days := if (bq_days q =? "")%string then Some 30
                else match Atoi (bq_days q) with
                     | Some n => if (n <? 1) || (90 <? n) then None else Some n
                     | None => None
                     end in
    match days with
    | None => cret (Refused 400 "bad_request")
    | Some days =>
        let* now := nowUTC in
        let* res := GetModelAdoptionSeries window days now in
        cret (match res with inl _ => Refused 500 "model_adoption_failed" | inr r => Answered 200 r end)
    end).
End Handlers.

(** ** Sums *)

Lemma wrap64_add a b : wrap64 (wrap64 a + b) = wrap64 (a + b).
Proof.
  unfold wrap64.
  replace (((a + 2 ^ 63) mod 2 ^ 64 - 2 ^ 63) + b + 2 ^ 63) with ((a + 2 ^ 63) mod 2 ^ 64 + b) by lia.
  rewrite Zplus_mod_idemp_l. f_equal. f_equal. lia.
Qed.

Lemma wrap64_small z : - 2 ^ 63 <= z < 2 ^ 63 -> wrap64 z = z.
Proof. intros Hz. unfold wrap64. rewrite Z.mod_small; lia. Qed.

Lemma total64_acc l : forall a, fold_left (fun acc x => wrap64 (acc + x)) l (wrap64 a) = wrap64 (a + zsum l).
Proof.
  induction l as [|x l IH]; intros a; cbn [fold_left zsum fold_right]; [by rewrite Z.add_0_r|].
  rewrite wrap64_add, IH. f_equal. unfold zsum. lia.
Qed.

Lemma total64_sum l : total64 l = wrap64 (zsum l).
Proof. exact (total64_acc l 0). Qed.

Lemma wrap64_zsum {B} (f : B -> Z) l : wrap64 (zsum (map (fun x => wrap64 (f x)) l)) = wrap64 (zsum (map f l)).
Proof.
  induction l as [|x l IH]; [done|]. cbn [map]. change (wrap64 (wrap64 (f x) + zsum (map (fun x => wrap64 (f x)) l)) =
    wrap64 (f x + zsum (map f l))). rewrite wrap64_add, Z.add_comm, <- wrap64_add, IH, wrap64_add. f_equal. lia.
Qed.

Definition eventTokens (e : InferenceEvent) : Z := IEPromptTokens e + IECompletionTokens e.

Lemma rowTokens_sum rows ts : mapM rowTokens rows = Some ts -> ts = map eventTokens rows.
Proof.
  intros H. apply mapM_Some in H. induction H as [|e t rows ts He _ IH]; [done|]. cbn. rewrite <- IH. f_equal.
  unfold rowTokens in He. destruct (_ && _); [by injection He as <-|done].
Qed.

(** The columns of a group are its sums. *)
Definition sumsUp (u : BillingTenantUsage) (rows : list InferenceEvent) : Prop :=
  BU_RequestCount u = zsum (map (fun _ => 1) rows) /\ BU_PromptTokens u = zsum (map IEPromptTokens rows) /\
  BU_CompletionTokens u = zsum (map IECompletionTokens rows) /\ BU_TotalTokens u = zsum (map eventTokens rows).

Lemma zsum_count {B} (l : list B) : zsum (map (fun _ => 1) l) = Z.of_nat (length l).
Proof. unfold zsum. induction l; cbn in *; lia. Qed.

Lemma zsum_perm l l' : l ≡ₚ l' -> zsum l = zsum l'.
Proof. unfold zsum. induction 1; cbn in *; lia. Qed.

(** The results of a scan, as a function of the groups. *)
Lemma scanAll_omap {B C} (scan : B -> Error + C) l r :
  scanAll scan l = inr r -> r = omap (fun b => match scan b with inr c => Some c | inl _ => None end) l.
Proof.
  intros H. apply scanAll_Forall2 in H. induction H as [|b c l r Hb _ IH]; [done|]. cbn. by rewrite Hb, <- IH.
Qed.

Lemma scanAll_perm {B C} (scan : B -> Error + C) l l' r r' :
  l ≡ₚ l' -> scanAll scan l = inr r -> scanAll scan l' = inr r' -> r ≡ₚ r'.
Proof. intros Hl H H'. apply scanAll_omap in H as ->, H' as ->. by rewrite Hl. Qed.

Lemma distinct_NoDup `{Countable K} (l : list K) : NoDup (distinct l).
Proof. apply NoDup_elements. Qed.

Lemma elem_of_distinct `{Countable K} (l : list K) k : k ∈ distinct l <-> k ∈ l.
Proof. unfold distinct. by rewrite elem_of_elements, elem_of_list_to_set. Qed.

(** A sort by decreasing numbers. *)
Lemma go_sort_down {B} (f : B -> Z) l : StronglySorted (fun a b => f b <= f a) (go_sort (fun a b => f b <? f a) l).
Proof.
  assert (H : StronglySorted (not_less (fun a b => f b <? f a)) (go_sort (fun a b => f b <? f a) l)).
  { apply (go_sort_sorted _ (fun _ => True)); [| |by apply Forall_true]; unfold not_less; intros *; rewrite ?Z.ltb_lt, ?Z.ltb_ge; lia. }
  induction H as [|x r _ IH Hx]; constructor; [done|]. eapply Forall_impl; [exact Hx|]. intros y. unfold not_less. by rewrite Z.ltb_ge.
Qed.

Section Exact.
Context `{E : Env} `{L : !EnvLaws E} `{A : Aggregates}.

Lemma usageOf_spec from until tenant model rows u : usageOf from until tenant model rows = inr u ->
  BU_TenantID u = tenant /\ BU_ModelID u = model /\ sumsUp u rows.
Proof.
  unfold usageOf, sumsUp. destruct (sqlSum 0 (map IEPromptTokens rows)) as [p|] eqn:Ep; [|done].
  destruct (sqlSum 0 (map IECompletionTokens rows)) as [c|] eqn:Ec; [|done].
  destruct (mapM rowTokens rows) as [ts|] eqn:Em; [|done]. apply rowTokens_sum in Em as ->.
  destruct (sqlSum 0 (map eventTokens rows)) as [t|] eqn:Et; [|done]. intros [= <-]. apply sqlSum_spec in Ep, Ec, Et.
  cbn. by rewrite zsum_count.
Qed.

Lemma groupUsage_spec from until rows k u : groupUsage from until rows k = inr u ->
  (BU_TenantID u, BU_ModelID u) = k /\ sumsUp u (List.filter (fun e => bool_decide (Some (tenantModel e) = Some k)) rows).
Proof. destruct k as [t m]. intros H. by apply usageOf_spec in H as (-> & -> & Hs). Qed.

(** The groups of a scan, summed over a column. *)
Lemma groups_sum (f : InferenceEvent -> Z) (g : BillingTenantUsage -> Z) from until rows keys l :
  (forall u mine, sumsUp u mine -> g u = zsum (map f mine)) ->
  NoDup keys -> (forall k, k ∈ keys <-> k ∈ map tenantModel rows) ->
  scanAll (groupUsage from until rows) keys = inr l -> zsum (map g l) = zsum (map f rows).
Proof.
  intros Hg Hn Hk Hl. apply scanAll_Forall2 in Hl.
  transitivity (zsum (map (fun k => zsum (map f (List.filter (fun e => bool_decide (Some (tenantModel e) = Some k)) rows))) keys)).
  { clear Hn Hk. induction Hl as [|k u ks us Hu _ IH]; [done|]. cbn. apply groupUsage_spec in Hu as [_ Hu].
    rewrite (Hg _ _ Hu). unfold zsum in *. lia. }
  rewrite (zsum_groups f (fun e => Some (tenantModel e))); [|done|].
  - f_equal. f_equal. by apply List.forallb_filter_id, forallb_forall.
  - intros e t He [= <-]. apply Hk, list_elem_of_In, in_map, list_elem_of_In, He.
Qed.

(** *** The closed window of times *)

(** The events from one time to another, both included; an empty tenant means all. *)
Definition periodRows (from until : Time) (tenantID : string) (db : Database) : list InferenceEvent :=
  List.filter (fun e => (from <=? IETimestamp e) && (IETimestamp e <=? until) &&
    ((tenantID =? "")%string || (IETenantID e =? tenantID)%string)) (logged db).

(** The times have years of four digits, and no event but one at the bound itself lies in
    the second of a bound. *)
Definition clearBounds (from until : Time) (db : Database) : Prop :=
  fourDigitYear from /\ fourDigitYear until /\
  forall e, e ∈ logged db -> let t := IETimestamp e in
    fourDigitYear t /\ (t / Second = from / Second -> t = from) /\ (t / Second = until / Second -> t = until).

Lemma text_before t u :
  fourDigitYear t -> fourDigitYear u -> (t / Second = u / Second -> t = u) -> String.ltb (fmtTime t) (fmtTime u) = (t <? u).
Proof.
  intros Ht Hu Heq. unfold String.ltb. destruct (Z.lt_trichotomy (t / Second) (u / Second)) as [Hlt|[He|Hgt]].
  - rewrite fmtTime_compare by done. symmetry. apply Z.ltb_lt. unfold Second in *. zdiv.
  - rewrite (Heq He), string_compare_refl. symmetry. apply Z.ltb_irrefl.
  - rewrite String.compare_antisym, (fmtTime_compare u t) by done. symmetry. apply Z.ltb_ge. unfold Second in *. zdiv.
Qed.

Lemma windowRows_period from until tenantID db : clearBounds from until db -> windowRows from until tenantID db = periodRows from until tenantID db.
Proof.
  intros (Hf & Hu & He). apply filter_ext_in. intros e Hin%list_elem_of_In%He. destruct Hin as (Ht & H1 & H2). unfold inWindow.
  rewrite (text_before _ _ Ht Hf H1), (text_before _ _ Hu Ht) by (intros; symmetry; by apply H2). by rewrite !Z.leb_antisym.
Qed.

(** What a report says of the events it is made from. *)
Record exactReport (from until : Time) (rows : list InferenceEvent) (r : BillingReport) : Prop := {
  er_period : BR_PeriodStart r = from /\ BR_PeriodEnd r = until;
  er_once : NoDup (map (fun u => (BU_TenantID u, BU_ModelID u)) (BR_Tenants r));
  er_pairs : forall k, k ∈ map (fun u => (BU_TenantID u, BU_ModelID u)) (BR_Tenants r) <-> k ∈ map tenantModel rows;
  er_sums : Forall (fun u => sumsUp u (List.filter (fun e => bool_decide (Some (tenantModel e) = Some (BU_TenantID u, BU_ModelID u))) rows)) (BR_Tenants r);
  er_order : StronglySorted (fun a b => BU_TotalTokens b <= BU_TotalTokens a) (BR_Tenants r);
  er_requests : BR_TotalRequests r = wrap64 (Z.of_nat (length rows));
  er_tokens : BR_TotalTokens r = wrap64 (zsum (map eventTokens rows)) }.

Lemma GetBillingReport_exact from until tenantID w r w' :
  GetBillingReport from until tenantID w = (inr r, w') -> exactReport from until (windowRows from until tenantID (w_db w)) r.
Proof.
  intros H. unfold GetBillingReport in H. run_step H. injection Hrun as <- <-. apply query_spec in H as (_ & _ & H).
  destruct (env_db _); [done|]. change (w_db _) with (w_db w) in H. set (rows := windowRows _ _ _ _) in *.
  set (keys := env_order _ _ _) in H. destruct (scanAll _ keys) as [|l] eqn:Es; [done|]. injection H as ->.
  assert (Hk : keys ≡ₚ distinct (map tenantModel rows)) by apply env_order_perm.
  assert (Hn : NoDup keys) by (rewrite Hk; apply distinct_NoDup).
  assert (Hm : forall k, k ∈ keys <-> k ∈ map tenantModel rows) by (intros k; rewrite Hk; apply elem_of_distinct).
  assert (Hp : map (fun u => (BU_TenantID u, BU_ModelID u)) (go_sort heavier l) ≡ₚ keys).
  { rewrite go_sort_perm. apply scanAll_Forall2 in Es. clear -Es. induction Es as [|k u ks us Hu _ IH]; [done|].
    cbn. rewrite IH. apply groupUsage_spec in Hu as [<- _]. done. }
  split; cbn; [done|by rewrite Hp|by intros k; rewrite Hp| |apply go_sort_down| |].
  - rewrite go_sort_perm. apply scanAll_Forall2 in Es. clear -Es. induction Es as [|k u ks us Hu _ IH]; constructor; [|done].
    apply groupUsage_spec in Hu as [<- Hu]. exact Hu.
  - rewrite total64_sum, (zsum_perm _ (map BU_RequestCount l)) by (by rewrite go_sort_perm).
    erewrite groups_sum; [by rewrite zsum_count| |done|done|exact Es]. by intros u mine (-> & _).
  - rewrite total64_sum, (zsum_perm _ (map BU_TotalTokens l)) by (by rewrite go_sort_perm).
    erewrite groups_sum; [done| |done|done|exact Es]. by intros u mine (_ & _ & _ & ->).
Qed.

(** (C25) A report says what the log says of the closed window of times from its start to
    its end, when the years have four digits and no event lies in the second of a bound
    without being at the bound itself: one row for each pair of a tenant and a model with
    a request in the window, with the exact sums of that pair, the heaviest first; the
    totals are those of the window, as 64-bit integers. *)
Theorem billing_report_exact from until tenantID w r w' :
  GetBillingReport from until tenantID w = (inr r, w') -> clearBounds from until (w_db w) ->
  exactReport from until (periodRows from until tenantID (w_db w)) r.
Proof. intros H Hc. rewrite <- windowRows_period by done. by eapply GetBillingReport_exact. Qed.

Lemma teamRows_window from until t db : t ≠ ""%string -> teamRows from until t db = windowRows from until t db.
Proof.
  intros Ht. unfold teamRows, windowRows. apply filter_ext. intros e. apply String.eqb_neq in Ht. rewrite Ht. apply andb_comm.
Qed.

(** The rows of one tenant: grouping by the model or by the pair is the same. *)
Lemma modelUsage_group from until t db rows model : Forall (fun e => IETenantID e = t) rows ->
  result_map fst (modelUsage from until t db rows model) = groupUsage from until rows (t, model).
Proof.
  intros Ht. unfold modelUsage, groupUsage. cbn [fst snd].
  rewrite (filter_ext_in (fun e => bool_decide (Some (tenantModel e) = Some (t, model)))
    (fun e => bool_decide (Some (IEModelID e) = Some model))).
  - by destruct (usageOf _ _ _ _ _).
  - intros e He. rewrite Forall_forall in Ht. specialize (Ht e (proj2 (list_elem_of_In _ _) He)). apply bool_decide_ext.
    unfold tenantModel. rewrite Ht. split; [by intros [= ->]|by intros [= ->]].
Qed.

Lemma scanAll_map {B B' C C'} (scan : B -> Error + C) (scan' : B' -> Error + C') (f : B -> B') (g : C -> C') l r :
  (forall b, result_map g (scan b) = scan' (f b)) -> scanAll scan l = inr r -> scanAll scan' (map f l) = inr (map g r).
Proof.
  intros Hs. revert r. induction l as [|b l IH]; intros r; cbn; [by intros [= <-]|]. rewrite <- Hs.
  destruct (scan b) as [|c]; [done|]. destruct (scanAll scan l) as [|cs]; [done|]. intros [= <-]. cbn. by rewrite (IH cs).
Qed.

Lemma GetTeamBillingReport_run teamID from until w r w' : GetTeamBillingReport teamID from until w = (inr r, w') ->
  w_db w' = w_db w /\ TB_TeamID r = teamID /\
  let rows := teamRows from until teamID (w_db w) in
  exists keys, keys ≡ₚ map (pair teamID) (distinct (map IEModelID rows)) /\
  exists l, scanAll (groupUsage from until rows) keys = inr l /\ TB_ByModel r ≡ₚ l /\
    StronglySorted (fun a b => BU_TotalTokens b <= BU_TotalTokens a) (TB_ByModel r) /\
    TB_TotalRequests r = total64 (map BU_RequestCount (TB_ByModel r)) /\
    TB_InputTokens r = total64 (map BU_PromptTokens (TB_ByModel r)) /\
    TB_OutputTokens r = total64 (map BU_CompletionTokens (TB_ByModel r)) /\
    TB_TotalTokens r = total64 (map BU_TotalTokens (TB_ByModel r)).
Proof.
  intros H. unfold GetTeamBillingReport in H. run_step H. injection Hrun as <- <-. apply query_spec in H as (Hd & _ & H).
  split; [exact Hd|]. destruct (env_db _); [done|]. cbn [w_db] in H.
  set (rows := teamRows from until teamID (w_db w)) in *. set (keys := env_order _ _ _) in H.
  destruct (scanAll _ keys) as [|l] eqn:Es; [done|]. injection H as ->. cbn. split; [done|].
  exists (map (pair teamID) keys). split; [by unfold keys; rewrite env_order_perm|]. exists (map fst l).
  split; [|split; [by rewrite go_sort_perm|split; [|done]]].
  - apply (scanAll_map _ (groupUsage from until rows) (pair teamID) fst) in Es; [exact Es|].
    intros m. apply modelUsage_group. apply Forall_forall. intros e He. apply list_elem_of_In, filter_In in He as [_ He].
    apply andb_true_iff in He as [He _]. by apply String.eqb_eq in He.
  - pose proof (go_sort_down (fun x => BU_TotalTokens (fst x)) l) as Hs. unfold heavier.
    induction Hs as [|x xs _ IH Hx]; cbn; constructor; [done|]. by apply Forall_map.
Qed.

Lemma team_keys_elem from until t db k : let rows := teamRows from until t db in
  k ∈ map (pair t) (distinct (map IEModelID rows)) <-> k ∈ map tenantModel rows.
Proof.
  destruct k as [t' m]. cbn. rewrite !list_elem_of_In, !in_map_iff.
  assert (Hten : forall e, In e (teamRows from until t db) -> IETenantID e = t).
  { intros e He. apply filter_In in He as [_ He]. apply andb_true_iff in He as [He _]. by apply String.eqb_eq in He. }
  split.
  - intros (m' & [= <- <-] & Hm). apply list_elem_of_In, elem_of_distinct, list_elem_of_In, in_map_iff in Hm as (e & <- & He).
    exists e. split; [|done]. unfold tenantModel. by rewrite (Hten e He).
  - intros (e & [= <- <-] & He). exists (IEModelID e). rewrite (Hten e He). split; [done|].
    apply list_elem_of_In, elem_of_distinct, list_elem_of_In, in_map_iff. eauto.
Qed.

Lemma team_keys from until t db : t ≠ ""%string ->
  map (pair t) (distinct (map IEModelID (teamRows from until t db))) ≡ₚ distinct (map tenantModel (windowRows from until t db)).
Proof.
  intros Ht. rewrite <- teamRows_window by done. apply NoDup_Permutation.
  - apply (NoDup_fmap_2 (pair t)), distinct_NoDup.
  - apply distinct_NoDup.
  - intros k. rewrite elem_of_distinct. apply team_keys_elem.
Qed.

(** The report of a team and the general report of the same tenant agree: the same rows
    and the same totals. *)
Theorem team_report_agrees teamID from until w v r r' w' v' :
  teamID ≠ ""%string -> w_db v = w_db w ->
  GetTeamBillingReport teamID from until w = (inr r, w') -> GetBillingReport from until teamID v = (inr r', v') ->
  TB_ByModel r ≡ₚ BR_Tenants r' /\ TB_TotalRequests r = BR_TotalRequests r' /\ TB_TotalTokens r = BR_TotalTokens r'.
Proof.
  intros Ht Hv H H'. apply GetTeamBillingReport_run in H as (_ & _ & keys & Hk & l & Hl & Hp & _ & Hreq & _ & _ & Htok).
  unfold GetBillingReport in H'. run_step H'. injection Hrun as <- <-. apply query_spec in H' as (_ & _ & H').
  destruct (env_db _); [done|]. cbn [w_db] in H'. rewrite Hv, <- teamRows_window in H' by done.
  set (keys' := env_order _ _ _) in H'. destruct (scanAll _ keys') as [|l'] eqn:Es; [done|]. injection H' as ->. cbn.
  assert (Hll : l ≡ₚ l').
  { eapply scanAll_perm; [|exact Hl|exact Es]. rewrite Hk, team_keys by done. unfold keys'.
    by rewrite env_order_perm, teamRows_window. }
  assert (Hrows : TB_ByModel r ≡ₚ go_sort heavier l') by (by rewrite Hp, Hll, go_sort_perm).
  split; [done|]. rewrite Hreq, Htok, !total64_sum. split; f_equal; apply zsum_perm; by rewrite Hrows.
Qed.

(** ** Organisations *)

Lemma runes_app_ascii c r : 0 <= c < 128 -> forall n l, (length l <= n)%nat -> runes (l ++ c :: r) = runes l ++ runes (c :: r).
Proof.
  intros Hc.
  assert (Hcont : continues c = false) by (unfold continues; lia).
  assert (Hacc : forall b, accepted b c = false) by (intros b; unfold accepted, acceptLow; repeat case_match; lia).
  induction n as [|n IH]; intros l Hl; [by destruct l; [|cbn in Hl; lia]|].
  destruct l as [|b0 l]; [done|]. cbn in Hl. change ((b0 :: l) ++ c :: r) with (b0 :: (l ++ c :: r)).
  assert (IH0 : runes (l ++ c :: r) = runes l ++ runes (c :: r)) by (apply IH; lia).
  cbn [runes]. destruct (b0 <? 128); [by rewrite IH0|]. destruct (_ && (b0 <=? 223)).
  { destruct l as [|b1 l]; cbn [app]; [by rewrite Hcont|]. destruct (continues b1); [|exact (f_equal _ IH0)].
    rewrite IH; [done|cbn in Hl; lia]. }
  destruct (_ && (b0 <=? 239)).
  { destruct l as [|b1 [|b2 l]]; cbn [app].
    - destruct r; [done|]. by rewrite Hacc.
    - rewrite Hcont, andb_false_r. exact (f_equal _ IH0).
    - destruct (_ && _); [|exact (f_equal _ IH0)]. rewrite IH; [done|cbn in Hl; lia]. }
  destruct (_ && (b0 <=? 244)); [|exact (f_equal _ IH0)].
  destruct l as [|b1 [|b2 [|b3 l]]]; cbn [app].
  - destruct r as [|? [|]]; [done|done|]. by rewrite Hacc.
  - destruct r as [|? ?]; [exact (f_equal _ IH0)|]. rewrite Hcont, andb_false_r. exact (f_equal _ IH0).
  - rewrite Hcont, andb_false_r. exact (f_equal _ IH0).
  - destruct (_ && _); [|exact (f_equal _ IH0)]. rewrite IH; [done|cbn in Hl; lia].
Qed.

(** A text that ignores the case of its letters. *)
Definition plainRunes (l : list Z) : Prop := Forall (fun c => c ≠ 37 /\ c ≠ 95) l.

Lemma like_any s : like [37] s = true.
Proof. cbn. induction s as [|x s IH]; [done|]. exact IH. Qed.

Lemma like_plain p q s : plainRunes p ->
  like (p ++ q) s = true <-> exists s1 s2, s = s1 ++ s2 /\ map foldCase s1 = map foldCase p /\ like q s2 = true.
Proof.
  intros Hp. revert s. induction Hp as [|c p [Hc1 Hc2] Hp IH]; intros s.
  - split; [intros H; by exists [], s|]. intros (s1 & s2 & -> & H1 & H2). by destruct s1.
  - cbn [app like]. apply Z.eqb_neq in Hc1, Hc2. rewrite Hc1, Hc2. cbn [orb]. destruct s as [|x s].
    + split; [done|]. intros (s1 & s2 & He & Hm & _). destruct s1; [done|done].
    + rewrite andb_true_iff, IH, Z.eqb_eq. split.
      * intros (Hx & s1 & s2 & -> & Hm & Hq). exists (x :: s1), s2. cbn. by rewrite Hx, Hm.
      * intros ([|y s1] & s2 & He & Hm & Hq); [done|]. injection He as <- ->. cbn in Hm. injection Hm as Hy Hm.
        split; [done|]. by exists s1, s2.
Qed.

(** What [LIKE] takes for a tenant of an organisation whose identifier has no wildcard:
    the identifier in any case, a slash, anything. *)
Lemma matchesOrg_spec orgID tenant : plainRunes (runes (bytes orgID)) ->
  matchesOrg orgID tenant = true <->
  exists rest, map foldCase (runes (bytes tenant)) = map foldCase (runes (bytes orgID)) ++ 47 :: rest.
Proof.
  intros Hp. unfold matchesOrg. rewrite bytes_app.
  change (bytes "/%") with [47; 37]. rewrite (runes_app_ascii 47 [37] ltac:(lia) _ _ (Nat.le_refl _)).
  change (runes [47; 37]) with ([47] ++ [37]). rewrite app_assoc, like_plain.
  2: { apply Forall_app. split; [done|]. repeat constructor; lia. }
  split.
  - intros (s1 & s2 & -> & Hm & _). exists (map foldCase s2). by rewrite map_app, Hm, map_app, <- app_assoc.
  - intros (rest & Hr). set (n := (length (runes (bytes orgID)) + 1)%nat).
    exists (take n (runes (bytes tenant))), (drop n (runes (bytes tenant))). split; [by rewrite take_drop|]. split; [|apply like_any].
    rewrite <- firstn_map, Hr, map_app. change (47 :: rest) with ([47] ++ rest). rewrite app_assoc. apply take_app_length'.
    rewrite length_app, length_map. cbn. lia.
Qed.

Lemma teamReports_run orgID from until ids : forall w ts w', teamReports orgID from until ids w = (inr ts, w') ->
  w_db w' = w_db w /\ map TB_TeamID ts = ids /\
  map TB_TotalTokens ts = map (fun t => wrap64 (zsum (map eventTokens (teamRows from until t (w_db w))))) ids.
Proof.
  induction ids as [|t ids IH]; intros w ts w' H; cbn [teamReports] in H; [by injection H as <- <-|].
  run_step H. destruct r as [|r]; [done|]. apply GetTeamBillingReport_run in Hrun as (Hd & Hid & Hr).
  cbv zeta in H. run_step H. destruct r0 as [|rest]; [done|]. injection H as <- <-. apply IH in Hrun as (Hd' & Hi & Hs).
  rewrite Hd in Hd', Hs. split; [done|]. cbn. rewrite Hid, Hi, Hs. split; [done|]. f_equal.
  destruct Hr as (keys & Hk & l & Hl & Hp & _ & _ & _ & _ & ->). rewrite total64_sum. f_equal.
  rewrite (zsum_perm _ (map BU_TotalTokens l)) by (by rewrite Hp).
  eapply groups_sum; [by intros u mine (_ & _ & _ & ->)| | |exact Hl].
  - rewrite Hk. apply (NoDup_fmap_2 (pair t)), distinct_NoDup.
  - intros k. rewrite Hk. apply team_keys_elem.
Qed.

(** Summing over the tenants of an organisation. *)
Lemma org_sum from until orgID db :
  zsum (map (fun t => zsum (map eventTokens (teamRows from until t db))) (orgTenants from until orgID db)) =
  zsum (map eventTokens (List.filter (fun e => matchesOrg orgID (IETenantID e) && inWindow from until e) (logged db))).
Proof.
  set (g e := if matchesOrg orgID (IETenantID e) && inWindow from until e then Some (IETenantID e) else None).
  assert (Hg : forall e t, matchesOrg orgID t = true ->
    bool_decide (g e = Some t) = (IETenantID e =? t)%string && inWindow from until e).
  { intros e t Ht. unfold g. destruct (String.eqb_spec (IETenantID e) t) as [He|He].
    - rewrite He, Ht. cbn [andb]. destruct (inWindow from until e); [by apply bool_decide_true|by apply bool_decide_false].
    - cbn. apply bool_decide_false. destruct (_ && _); [by intros [= ?]|done]. }
  transitivity (zsum (map (fun t => zsum (map eventTokens (List.filter (fun e => bool_decide (g e = Some t)) (logged db))))
    (orgTenants from until orgID db))).
  - f_equal. apply map_ext_in. intros t Ht. f_equal. f_equal. unfold teamRows. apply filter_ext. intros e. symmetry. apply Hg.
    apply list_elem_of_In in Ht. unfold orgTenants in Ht. rewrite go_sort_perm, elem_of_distinct in Ht.
    apply list_elem_of_In, in_map_iff in Ht as (e' & <- & He). apply filter_In in He as [_ He]. by apply andb_true_iff in He as [He _].
  - rewrite (zsum_groups eventTokens g).
    + f_equal. f_equal. apply filter_ext. intros e. unfold g. by destruct (_ && _).
    + unfold orgTenants. rewrite go_sort_perm. apply distinct_NoDup.
    + intros e t He Hge. unfold g in Hge. destruct (_ && _) eqn:Em; [|done]. injection Hge as <-.
      unfold orgTenants. rewrite go_sort_perm, elem_of_distinct. apply list_elem_of_In, in_map, filter_In.
      split; [by apply list_elem_of_In|done].
Qed.

(** The report of an organisation names, in order, the tenants with a request in the
    window that [LIKE] takes for its own, each once; its total is that of all their
    requests. For an identifier without wildcards those are the tenants that start with
    it and a slash, in any case of their letters. *)
Theorem org_report_covers orgID from until w r w' :
  GetOrgBillingReport orgID from until w = (inr r, w') ->
  let mine := List.filter (fun e => matchesOrg orgID (IETenantID e) && inWindow from until e) (logged (w_db w)) in
  NoDup (map TB_TeamID (OB_Teams r)) /\
  (forall t, t ∈ map TB_TeamID (OB_Teams r) <-> t ∈ map IETenantID mine) /\
  OB_TotalTokens r = wrap64 (zsum (map eventTokens mine)) /\
  (plainRunes (runes (bytes orgID)) -> forall t, matchesOrg orgID t = true <->
     exists rest, map foldCase (runes (bytes t)) = map foldCase (runes (bytes orgID)) ++ 47 :: rest).
Proof.
  intros H mine. unfold GetOrgBillingReport in H. run_step H. apply query_spec in Hrun as (Hd & _ & Hq).
  destruct r0 as [|ids]; [done|]. destruct (env_db _); [done|]. injection Hq as ->. run_step H.
  destruct r0 as [|ts]; [done|]. injection H as <- <-. apply teamReports_run in Hrun as (_ & Hid & Hs). rewrite Hd in Hs.
  cbn. rewrite Hid. unfold orgTenants at 1 2. split; [rewrite go_sort_perm; apply distinct_NoDup|].
  split; [intros t; rewrite go_sort_perm; apply elem_of_distinct|]. split; [|intros Hp t; by apply matchesOrg_spec].
  unfold mine. by rewrite total64_sum, Hs, <- org_sum, wrap64_zsum.
Qed.
End Exact.

(** ** The billing period *)

Lemma daysOf_first y m d : daysOf y m 1 = daysOf y m d - (d - 1).
Proof. unfold daysOf. lia. Qed.

(** The first of the next month comes after the days of the month. *)
Lemma nextMonth_first y m : 1 <= m <= 12 -> nextMonthStart y m = monthStart y m + daysIn m y * Day.
Proof.
  intros Hm. unfold nextMonthStart, monthStart.
  assert (H : (if m =? 12 then daysOf (y + 1) 1 1 else daysOf y (m + 1) 1) = daysOf y m 1 + daysIn m y).
  { assert (Hcase : m = 1 \/ m = 2 \/ m = 3 \/ m = 4 \/ m = 5 \/ m = 6 \/ m = 7 \/ m = 8 \/ m = 9 \/ m = 10 \/ m = 11 \/ m = 12) by lia.
    destruct (decide (m = 2)) as [->|Hm2].
    - change (daysOf y 3 1 = daysOf y 2 1 + (if isLeap y then 29 else 28)). unfold daysOf, isLeap. cbn -[Z.div Z.modulo].
      repeat case_match; zdiv.
    - repeat destruct Hcase as [->|Hcase]; try done; subst; unfold daysOf, daysIn; cbn -[Z.div Z.modulo]; repeat case_match; zdiv. }
  destruct (m =? 12); rewrite H; lia.
Qed.

(** The last nanosecond of an hour. *)
Definition lateHour (h : Z) : float64 := (of_Z h + of_Z (Hour - 1) / of_Z Hour)%f64.

(** Every hour of a month is in the right day, at its start and at its end. *)
Lemma hours_of_month :
  forallb (fun h => (to_int (of_Z h / of_Z 24)%f64 =? h / 24) && (to_int (lateHour h / of_Z 24)%f64 =? h / 24) &&
                    is_fin (lateHour h / of_Z 24)%f64) (seqZ 0 745) = true.
Proof. vm_compute. reflexivity. Qed.

Lemma wholeDays_floor d : 0 <= d <= 31 * Day -> wholeDays d = d / Day.
Proof.
  intros Hd. change Day with (24 * Hour) in *. assert (HH : Hour = 3600000000000) by reflexivity. set (h := d / Hour).
  assert (Hh : 0 <= h <= 744) by (unfold h; zdiv). assert (Hr : 0 <= d mod Hour < Hour) by (apply Z.mod_pos_bound; lia).
  unfold wholeDays, Hours. rewrite Z.quot_div_nonneg, Z.rem_mod_nonneg by lia. fold h.
  pose proof hours_of_month as Hm. rewrite forallb_forall in Hm. specialize (Hm h). cbv beta in Hm.
  rewrite !andb_true_iff, !Z.eqb_eq in Hm. destruct Hm as [[Hlo Hhi] Hfin]; [apply list_elem_of_In, elem_of_seqZ; lia|].
  assert (Hz : forall z, 0 <= z <= Hour -> nnf (of_Z z)) by (intros z Hz; apply of_Z_small; lia).
  assert (Hpos : forall z, 0 < z <= Hour -> 0 < fv (of_Z z)).
  { intros z Hz'. rewrite (proj2 (of_Z_small z ltac:(lia))). pose proof (pow2_pos 1074 ltac:(lia)). nia. }
  set (f := (of_Z (d mod Hour) / of_Z Hour)%f64). set (g := (of_Z (Hour - 1) / of_Z Hour)%f64).
  assert (Hf : nn f) by (apply nn_div; [apply of_Z_nn; lia|apply Hz; lia|apply Hpos; lia]).
  assert (Hg : nn g) by (apply nn_div; [apply of_Z_nn; lia|apply Hz; lia|apply Hpos; lia]).
  assert (Hfg : fv f <= fv g) by (apply fdiv_mono_l; [apply of_Z_nn; lia|apply of_Z_nn; lia|apply Hz; lia|apply Hpos; lia|apply of_Z_mono; lia]).
  assert (Hn : nn (of_Z h)) by (apply of_Z_nn; lia).
  pose proof (proj1 (fadd_nn _ _ Hn Hf)) as Hx. pose proof (proj1 (fadd_nn _ _ Hn Hg)) as Hy.
  assert (Hdiv : forall x y, nn x -> nn y -> fv x <= fv y -> fv (x / of_Z 24)%f64 <= fv (y / of_Z 24)%f64)
    by (intros; apply fdiv_mono_l; [done|done|apply Hz; lia|apply Hpos; lia|done]).
  assert (Hnd : forall x, nn x -> nn (x / of_Z 24)%f64) by (intros; apply nn_div; [done|apply Hz; lia|apply Hpos; lia]).
  pose proof (Hdiv _ _ Hn Hx (fadd_ge_l _ _ Hn Hf)) as H1.
  pose proof (Hdiv _ _ Hx Hy (fadd_mono _ _ _ _ Hn Hn Hf Hg ltac:(lia) Hfg)) as H2.
  change (of_Z h + g)%f64 with (lateHour h) in H2, Hy.
  assert (Hbelow : forall x, nn x -> fv x <= fv (lateHour h / of_Z 24)%f64 -> nnf x).
  { intros x [Hx1 Hx2] Hle. apply is_fin_spec in Hfin as [_ Hfin]. split; [|done]. apply is_fin_spec. split; [done|lia]. }
  rewrite to_int_floor in Hlo by (apply Hbelow; [by apply Hnd|lia]). rewrite to_int_floor in Hhi by (apply Hbelow; [by apply Hnd|lia]).
  rewrite to_int_floor by (apply Hbelow; [by apply Hnd|lia]).
  pose proof (pow2_pos 1074 ltac:(lia)) as HP. apply (Z.div_le_mono _ _ (2 ^ 1074)) in H1, H2; [|done|done].
  replace (d / (24 * Hour)) with (h / 24) by (unfold h; rewrite Z.div_div by lia; f_equal; lia). lia.
Qed.

(** (C37) The period of a forecast is the calendar month of the moment, whatever the month:
    it has 28 to 31 days, the elapsed days count from 1 to that number, and neither is
    off by the rounding of the hours as a float. *)
Theorem forecast_period now :
  let p := billingPeriod now in
  bp_start p <= now <= bp_end p /\ bp_end p + 1 = bp_start p + bp_daysInPeriod p * Day /\ 28 <= bp_daysInPeriod p <= 31 /\
  bp_daysElapsed p = (now - bp_start p) / Day + 1 /\ 1 <= bp_daysElapsed p <= bp_daysInPeriod p /\
  exists y m, fst (civil (now / Day)) = (y, m) /\ bp_start p = monthStart y m /\ bp_daysInPeriod p = daysIn m y.
Proof.
  unfold billingPeriod. destruct (civil (now / Day)) as [[y m] d] eqn:Ec. pose proof (civil_valid _ _ _ _ Ec) as [Hm Hd].
  pose proof (daysOf_civil _ _ _ _ Ec) as Hdays. rewrite nextMonth_first by done.
  assert (Hin : 28 <= daysIn m y <= 31) by (unfold daysIn; repeat case_match; lia).
  assert (HD : Day = 86400000000000) by reflexivity.
  assert (Hs : monthStart y m = now / Day * Day - (d - 1) * Day) by (unfold monthStart; rewrite (daysOf_first y m d), Hdays; lia).
  assert (Hn : 0 <= now - monthStart y m < daysIn m y * Day).
  { rewrite Hs. pose proof (Z.mul_div_le now Day ltac:(lia)). pose proof (Z.mul_succ_div_gt now Day ltac:(lia)). nia. }
  unfold Sub. rewrite !Z.min_r, !Z.max_r by lia. rewrite !wholeDays_floor by lia.
  replace (monthStart y m + daysIn m y * Day - monthStart y m) with (daysIn m y * Day) by lia. rewrite Z.div_mul by lia.
  assert (He : 0 <= (now - monthStart y m) / Day < daysIn m y).
  { split; [apply Z.div_pos; lia|]. apply Z.div_lt_upper_bound; lia. }
  rewrite (proj2 (Z.ltb_ge _ 1)), (proj2 (Z.ltb_ge (daysIn m y) _)) by lia. cbn. split_and!; try lia. by exists y, m.
Qed.

(** ** The workbook *)

Lemma firstSeen_NoDup l : forall seen, NoDup (firstSeen seen l) /\ forall x, x ∈ firstSeen seen l <-> x ∈ l /\ x ∉ seen.
Proof.
  induction l as [|y l IH]; intros seen; cbn [firstSeen]; [split; [constructor|set_solver]|].
  case_bool_decide as Hy.
  - destruct (IH seen) as [Hn He]. split; [done|]. intros x. rewrite He. set_solver.
  - destruct (IH (y :: seen)) as [Hn He]. split; [constructor; [rewrite He; set_solver|done]|].
    intros x. rewrite elem_of_cons, He, elem_of_cons. destruct (decide (x = y)); set_solver.
Qed.

Lemma rowOf_sum (key : BillingTenantUsage -> string) us k : let mine := List.filter (fun tu => (key tu =? k)%string) us in
  rowOf key us k = mkSumRow (wrap64 (zsum (map BU_RequestCount mine))) (wrap64 (zsum (map BU_PromptTokens mine)))
                     (wrap64 (zsum (map BU_CompletionTokens mine))).
Proof.
  cbv zeta. unfold rowOf. generalize (List.filter (fun tu => (key tu =? k)%string) us). intros l.
  assert (H : forall a b c, fold_left addRow l (mkSumRow (wrap64 a) (wrap64 b) (wrap64 c)) =
    mkSumRow (wrap64 (a + zsum (map BU_RequestCount l))) (wrap64 (b + zsum (map BU_PromptTokens l)))
      (wrap64 (c + zsum (map BU_CompletionTokens l)))); [|exact (H 0 0 0)].
  induction l as [|u l IH]; intros a b c; cbn [fold_left map]; [by rewrite !Z.add_0_r|].
  unfold addRow at 2. cbn [sr_requests sr_in sr_out]. rewrite !wrap64_add, IH. unfold zsum. cbn [fold_right]. by rewrite !Z.add_assoc.
Qed.

(** The rows of a report for one tenant, or one model, sum the events of it. *)
Lemma part_sum from until rows r (proj : string * string -> string) (f : InferenceEvent -> Z) (g : BillingTenantUsage -> Z) k :
  exactReport from until rows r -> (forall u mine, sumsUp u mine -> g u = zsum (map f mine)) ->
  zsum (map g (List.filter (fun u => proj (BU_TenantID u, BU_ModelID u) =? k)%string (BR_Tenants r))) =
  zsum (map f (List.filter (fun e => proj (tenantModel e) =? k)%string rows)).
Proof.
  intros [_ Ho Hp Hs _ _ _] Hg. set (pair := fun u => (BU_TenantID u, BU_ModelID u)) in *.
  set (h := fun e => if (proj (tenantModel e) =? k)%string then Some (tenantModel e) else None).
  set (us := List.filter _ (BR_Tenants r)).
  assert (Hus : forall u, u ∈ us <-> u ∈ BR_Tenants r /\ proj (pair u) = k).
  { intros u. unfold us. rewrite list_elem_of_In, filter_In, <- list_elem_of_In, String.eqb_eq. done. }
  transitivity (zsum (map (fun x => zsum (map f (List.filter (fun e => bool_decide (h e = Some x)) rows))) (map pair us))).
  - f_equal. rewrite map_map. apply map_ext_in. intros u Hu%list_elem_of_In%Hus. destruct Hu as (Hu & Hk).
    rewrite Forall_forall in Hs. rewrite (Hg _ _ (Hs u Hu)). f_equal. f_equal. apply filter_ext. intros e. unfold h.
    destruct (String.eqb_spec (proj (tenantModel e)) k) as [|Hne]; [done|]. rewrite !bool_decide_false; [done|discriminate|].
    intros [= H1 H2]. apply Hne. unfold tenantModel. rewrite H1, H2. exact Hk.
  - rewrite (zsum_groups f h).
    + f_equal. f_equal. apply filter_ext. intros e. unfold h. by destruct (_ =? _)%string.
    + unfold us. clear -Ho. induction (BR_Tenants r) as [|u l IH]; [constructor|]. cbn in Ho. apply NoDup_cons in Ho as (Hu & Ho).
      cbn. destruct (_ =? _)%string; [|by apply IH]. cbn. constructor; [|by apply IH]. intros Hin. apply Hu.
      apply list_elem_of_fmap in Hin as (v & Hv & Hin). apply list_elem_of_fmap. exists v. split; [done|].
      apply list_elem_of_In, filter_In in Hin as (Hin & _). by apply list_elem_of_In.
    + intros e x He Hx. unfold h in Hx. destruct (String.eqb_spec (proj (tenantModel e)) k) as [Hk|]; [|done]. injection Hx as <-.
      assert (Hin : tenantModel e ∈ map pair (BR_Tenants r)) by (apply Hp, list_elem_of_In, in_map, list_elem_of_In, He).
      apply list_elem_of_fmap in Hin as (u & Heq & Hu). apply list_elem_of_fmap. exists u. split; [done|]. apply Hus. split; [done|]. by rewrite <- Heq.
Qed.

(** The distinct members of a list, in some order. *)
Definition listed (l ks : list string) : Prop := NoDup ks /\ forall k, k ∈ ks <-> k ∈ l.

Lemma keysOf_listed from until rows r (proj : string * string -> string) : exactReport from until rows r ->
  listed (map (fun e => proj (tenantModel e)) rows) (keysOf (fun u => proj (BU_TenantID u, BU_ModelID u)) (BR_Tenants r)).
Proof.
  intros [_ _ Hp _ _ _ _]. destruct (firstSeen_NoDup (map (fun u => proj (BU_TenantID u, BU_ModelID u)) (BR_Tenants r)) []) as [Hn He].
  split; [exact Hn|]. intros k. unfold keysOf. rewrite He, !list_elem_of_fmap. split.
  - intros ((u & -> & Hu) & _). assert (Hin : (BU_TenantID u, BU_ModelID u) ∈ map tenantModel rows)
      by (apply Hp, list_elem_of_fmap; by exists u). apply list_elem_of_fmap in Hin as (e & -> & He'). by exists e.
  - intros (e & -> & He'). split; [|apply not_elem_of_nil].
    assert (Hin : tenantModel e ∈ map (fun u => (BU_TenantID u, BU_ModelID u)) (BR_Tenants r)) by (apply Hp, list_elem_of_fmap; by exists e).
    apply list_elem_of_fmap in Hin as (u & -> & Hu). by exists u.
Qed.

(** The cells that sum some events: how many, and their tokens. *)
Definition requestCell (mine : list InferenceEvent) : Cell := CInt (wrap64 (Z.of_nat (length mine))).
Definition inputCell (mine : list InferenceEvent) : Cell := CInt (wrap64 (zsum (map IEPromptTokens mine))).
Definition outputCell (mine : list InferenceEvent) : Cell := CInt (wrap64 (zsum (map IECompletionTokens mine))).

Definition monthLabel (t : Time) : string := let '(y, m, _) := civil (t / Day) in (yearText y +:+ "-" +:+ digits 2 m)%string.

(** What the three sheets say of the events. *)
Record exactSheets (from : Time) (rows : list InferenceEvent) (summary byModel keyUsage : Sheet) (tenants models : list string) : Prop := {
  es_tenants : listed (map IETenantID rows) tenants;
  es_models : listed (map IEModelID rows) models;
  es_summary : map (take 6) (sh_rows summary) =
    map (fun t => let mine := List.filter (fun e => IETenantID e =? t)%string rows in
      [CText (fst (splitTenantForExport t)); CText (snd (splitTenantForExport t)); CText (monthLabel from);
       requestCell mine; inputCell mine; outputCell mine]) tenants;
  es_byModel : map (take 4) (sh_rows byModel) =
    map (fun m => let mine := List.filter (fun e => IEModelID e =? m)%string rows in
      [CText m; requestCell mine; inputCell mine; outputCell mine]) models;
  es_keyUsage : map (take 5) (sh_rows keyUsage) =
    map (fun t => let mine := List.filter (fun e => IETenantID e =? t)%string rows in
      [CText t; CText (fst (splitTenantForExport t)); CText t; requestCell mine; CInt (wrap64 (zsum (map eventTokens mine)))]) tenants }.

Lemma rowOf_exact from until rows r (proj : string * string -> string) k : exactReport from until rows r ->
  let mine := List.filter (fun e => proj (tenantModel e) =? k)%string rows in
  rowOf (fun u => proj (BU_TenantID u, BU_ModelID u)) (BR_Tenants r) k =
  mkSumRow (wrap64 (Z.of_nat (length mine))) (wrap64 (zsum (map IEPromptTokens mine))) (wrap64 (zsum (map IECompletionTokens mine))).
Proof.
  intros Hr mine. rewrite rowOf_sum. f_equal; f_equal.
  - rewrite (part_sum from until rows r proj (fun _ => 1)); [apply zsum_count|done|]. by intros u l (-> & _).
  - apply (part_sum from until rows r proj IEPromptTokens); [done|]. by intros u l (_ & -> & _).
  - apply (part_sum from until rows r proj IECompletionTokens); [done|]. by intros u l (_ & _ & -> & _).
Qed.

Lemma sheets_exact from until rows r : exactReport from until rows r ->
  exactSheets from rows (summarySheet r) (byModelSheet r) (keyUsageSheet r) (keysOf BU_TenantID (BR_Tenants r)) (keysOf BU_ModelID (BR_Tenants r)).
Proof.
  intros Hr. pose proof (fun k => rowOf_exact from until rows r fst k Hr) as Ht. pose proof (fun k => rowOf_exact from until rows r snd k Hr) as Hm.
  cbn [fst snd] in Ht, Hm. destruct (er_period _ _ _ _ Hr) as (Hs & _).
  split; [exact (keysOf_listed from until rows r fst Hr)|exact (keysOf_listed from until rows r snd Hr)|..];
    cbn [summarySheet byModelSheet keyUsageSheet sh_rows]; rewrite map_map; apply map_ext; intros k.
  - change (rowOf BU_TenantID) with (rowOf (fun u => BU_TenantID u)). rewrite Ht. destruct (splitTenantForExport k). cbn.
    unfold billingPeriodLabel, monthLabel. by rewrite Hs.
  - change (rowOf BU_ModelID) with (rowOf (fun u => BU_ModelID u)). by rewrite Hm.
  - change (rowOf BU_TenantID) with (rowOf (fun u => BU_TenantID u)). rewrite Ht. cbn. do 4 f_equal. f_equal.
    rewrite wrap64_add, Z.add_comm, wrap64_add, Z.add_comm, <- zsum_zip. done.
Qed.

Section Workbook.
Context `{E : Env} `{L : !EnvLaws E} `{A : Aggregates}.
Variable timeParse : string -> option Time.
Variable ParseFloat : string -> option float64.
Variable lic : option License.

Lemma enrichSLA_exact q from until r w r' w' rows :
  enrichSLA ParseFloat q from until r w = (Some r', w') -> exactReport from until rows r -> exactReport from until rows r'.
Proof.
  unfold enrichSLA. destruct (_ =? "")%string; [by intros [= <- <-]|]. destruct (ParseFloat _) as [x|]; [|done].
  destruct (fleb x f0); [done|]. intros H [? ? ? ? ? ? ?]. run_step H. injection H as <- <-. by destruct r0; split.
Qed.

Lemma renderReport_xlsx format r now file sheets : renderReport format r now = Answered 200 (AsXLSX file sheets) ->
  file = ("purser-billing-" +:+ billingPeriodLabel r +:+ ".xlsx")%string /\ sheets = [summarySheet r; byModelSheet r; keyUsageSheet r].
Proof.
  unfold renderReport, writeBillingXLSX. intros H. destruct (_ || _); [done|]. destruct (_ =? "csv")%string; [done|].
  destruct (_ =? "xlsx")%string; [by injection H as <- <-|]. by destruct (_ =? "pdf")%string.
Qed.

(** A bound of the window: the parameter, or a default when there is none. *)
Definition asked (text : string) (def t : Time) : Prop := if (text =? "")%string then t = def else timeParse text = Some t.

(** (C26) The workbook that a request for a report answers with is the log: for the window
    of the request (the last thirty days where it names no bound), when the years have
    four digits and no event lies in the second of a bound without being at the bound itself, the first and the third
    sheet have one row for each tenant with an event in the window, the second one for
    each model, and the counts and the tokens of a row are the sums over the events of
    that tenant or model, as 64-bit integers; the file and the rows carry the month in
    which the window starts. *)
Theorem workbook_adds_up q w file sheets w' from until :
  handleBillingReport timeParse ParseFloat lic q w = (Answered 200 (AsXLSX file sheets), w') ->
  asked (bq_start q) (env_now (1 + w_tick w) - 30 * Day) from -> asked (bq_end q) (env_now (1 + w_tick w)) until ->
  clearBounds from until (w_db w) ->
  file = ("purser-billing-" +:+ monthLabel from +:+ ".xlsx")%string /\
  exists summary byModel keyUsage tenants models, sheets = [summary; byModel; keyUsage] /\
    exactSheets from (periodRows from until (bq_tenant_id q) (w_db w)) summary byModel keyUsage tenants models.
Proof.
  intros H Hf Hu Hc. unfold handleBillingReport, billingGate in H. run_step H. injection Hrun as <- <-. destruct (negb _); [done|].
  run_step H. unfold parseBillingWindow in Hrun. run_step Hrun. injection Hrun0 as <- <-. injection Hrun as Hr <-. cbn [w_tick] in *.
  assert (r = Some (from, until)) as ->.
  { rewrite <- Hr. unfold asked in Hf, Hu. change (1 + w_tick w)%nat with (S (w_tick w)) in *.
    destruct (bq_start q =? "")%string, (bq_end q =? "")%string; rewrite Hf, Hu; reflexivity. }
  run_step H. destruct r as [|report]; [done|]. apply GetBillingReport_exact in Hrun. cbn [w_db] in Hrun. rewrite windowRows_period in Hrun by done.
  run_step H. destruct r as [report'|]; [|done]. eapply enrichSLA_exact in Hrun0; [|exact Hrun]. run_step H. injection H as H _.
  apply renderReport_xlsx in H as (-> & ->). destruct (er_period _ _ _ _ Hrun0) as (Hs & _).
  split; [unfold billingPeriodLabel, monthLabel; by rewrite Hs|].
  exists (summarySheet report'), (byModelSheet report'), (keyUsageSheet report'). eexists _, _. split; [done|]. by eapply sheets_exact.
Qed.
End Workbook.

(** ** Prices and usage *)

Section Prices.
Context `{E : Env} `{A : Aggregates}.

Lemma latest_spec l : match latest l with
  | None => l = []
  | Some p => p ∈ l /\ Forall (fun q => String.ltb (fst p) (fst q) = false) l
  end.
Proof.
  induction l as [|p l IH]; [done|]. cbn [latest]. destruct (latest l) as [q|].
  - destruct IH as [Hq Hl]. unfold laterPrice. destruct (String.ltb (fst p) (fst q)) eqn:Hlt.
    + split; [by right|]. constructor; [by apply string_ltb_asym|done].
    + split; [by left|]. constructor; [apply string_ltb_false; by rewrite string_compare_refl|].
      eapply Forall_impl; [exact Hl|]. intros x Hx. cbn in Hx. rewrite string_ltb_false in *. by eapply string_le_trans.
  - subst l. split; [by left|]. constructor; [|constructor]. apply string_ltb_false. by rewrite string_compare_refl.
Qed.

Lemma elem_of_pricesOf db model from p :
  (from, p) ∈ pricesOf db model <-> yt_pricing (tenancy db) !! (model, from) = Some p.
Proof.
  unfold pricesOf. rewrite list_elem_of_omap. split.
  - intros ([[m f] q] & Hin & Hq). apply elem_of_map_to_list in Hin. destruct (String.eqb_spec m model) as [->|]; [|done].
    by injection Hq as -> ->.
  - intros H. exists ((model, from), p). split; [by apply elem_of_map_to_list|]. by rewrite String.eqb_refl.
Qed.

(** The price that a cost is computed with is the one with the latest text of
    [effective_from] up to the end of the window, and there is one if any starts by
    then. *)
Lemma priceAt_spec db asOf model : match priceAt db asOf model with
  | Some p => exists from, yt_pricing (tenancy db) !! (model, from) = Some p /\ String.ltb (fmtTime asOf) from = false /\
      forall from' p', yt_pricing (tenancy db) !! (model, from') = Some p' -> String.ltb (fmtTime asOf) from' = false ->
        String.ltb from from' = false
  | None => forall from p, yt_pricing (tenancy db) !! (model, from) = Some p -> String.ltb (fmtTime asOf) from = true
  end.
Proof.
  unfold priceAt. set (l := List.filter _ _). pose proof (latest_spec l) as H.
  assert (Hin : forall from p, (from, p) ∈ l <-> yt_pricing (tenancy db) !! (model, from) = Some p /\ String.ltb (fmtTime asOf) from = false).
  { intros from p. unfold l. rewrite <- elem_of_pricesOf, list_elem_of_In, filter_In, <- list_elem_of_In. cbn. by rewrite negb_true_iff. }
  destruct (latest l) as [[from p]|]; cbn.
  - destruct H as [Hp Hl]. apply Hin in Hp as [Hp Hle]. exists from. split_and!; [done..|]. intros from' p' Hp' Hle'.
    rewrite Forall_forall in Hl. exact (Hl (from', p') (proj2 (Hin _ _) (conj Hp' Hle'))).
  - intros from p Hp. apply not_false_iff_true. intros Hle. pose proof (proj2 (Hin from p) (conj Hp Hle)) as Hx. rewrite H in Hx.
    by apply not_elem_of_nil in Hx.
Qed.

(** The deltas of a period, applied one after another. *)
Definition incrementAll (tenantID : string) (period : Time) (ds : list UsageDelta) : M unit :=
  runAll (fun d => ignore (IncrementTenantUsage tenantID period d)) ds.

Definition counters (tenantID : string) (period : Time) (db : Database) : Z * Z * Z :=
  match yt_usage (tenancy db) !! (tenantID, fmtTime period) with
  | Some u => (TSRequestsUsed u, TSInputTokensUsed u, TSOutputTokensUsed u)
  | None => (0, 0, 0)
  end.

(** No increment is lost: the counters of a period are the sums of the deltas. *)
Theorem usage_accumulates `{!HealthyDB E} tenantID period ds w :
  let '(r, i, o) := counters tenantID period (w_db w) in
  counters tenantID period (w_db (snd (incrementAll tenantID period ds w))) =
    (r + zsum (map UD_Requests ds), i + zsum (map UD_InputTokens ds), o + zsum (map UD_OutputTokens ds)) /\
  forall other, other ≠ tenantID ->
    counters other period (w_db (snd (incrementAll tenantID period ds w))) = counters other period (w_db w).
Proof.
  revert w. induction ds as [|d ds IH]; intros w.
  { unfold zsum. cbn. destruct (counters tenantID period (w_db w)) as [[r i] o]. split; [repeat f_equal; lia|done]. }
  unfold incrementAll. cbn [runAll]. rewrite cbind_run. change (runAll _ ds) with (incrementAll tenantID period ds).
  set (v := snd (ignore _ w)). specialize (IH v).
  assert (Hv : forall t, counters t period (w_db v) = if bool_decide (t = tenantID) then
    (let '(r, i, o) := counters tenantID period (w_db w) in (r + UD_Requests d, i + UD_InputTokens d, o + UD_OutputTokens d))
    else counters t period (w_db w)).
  { intros t. unfold v, ignore, IncrementTenantUsage, exec, cbind, nowUTC, next, get_db, put_db, cret. cbn. rewrite env_db_healthy. cbn.
    unfold counters at 1. cbn. case_bool_decide as Ht.
    - subst t. rewrite lookup_insert_eq. unfold counters. by destruct (yt_usage (tenancy (w_db w)) !! _).
    - rewrite lookup_insert_ne by congruence. done. }
  rewrite (Hv tenantID), bool_decide_true in IH by done. destruct (counters tenantID period (w_db w)) as [[r i] o].
  destruct IH as [-> Ho]. unfold zsum. cbn [map fold_right]. split; [by rewrite !Z.add_assoc|]. intros other Hne. rewrite Ho by done.
  by rewrite Hv, bool_decide_false.
Qed.
End Prices.

(** ** Concrete runs *)

#[local] Existing Instance calmEnv.

(** A left-to-right sum and its mean. *)
#[local] Instance plainAggregates : Aggregates := {|
  sumReal l := fold_left fadd l f0;
  avgReal l := (fold_left fadd l f0 / of_Z (Z.of_nat (length l)))%f64 |}.

Definition exSpent (id tenant model : string) (at_ prompt completion : Z) : InferenceRow :=
  mkInferenceRow 0 (mkInferenceEvent id "h" model tenant at_ 0 prompt completion "openai" "" (of_Z 20) "stop" "" "" "" "") None "" "".

(** 2027-01-01T00:00:00Z, a Friday. *)
Definition exNewYear : Time := 20819 * Day.

Definition exLogRows : list InferenceRow :=
  [exSpent "r1" "acme/ml" "llama" exNewYear 1000 500; exSpent "r2" "acme/ml" "phi" (exNewYear + Hour) 10 5;
   exSpent "r3" "acme/ml" "llama" (exNewYear + Hour) 1000 0; exSpent "r4" "aXme/web" "phi" (exNewYear + Hour) 7 7]%string.

Definition exBilled : World := mkWorld 0 (with_events emptyDatabase exLogRows) ∅ [].
Definition exUntil : Time := exNewYear + Day.

Ltac bounds := vm_compute; repeat split; congruence.

Lemma exBounds : clearBounds exNewYear exUntil (w_db exBilled).
Proof.
  split; [vm_compute; split; congruence|]. split; [vm_compute; split; congruence|].
  intros e He. unfold logged in He. cbn in He. rewrite !elem_of_cons, elem_of_nil in He. destruct He as [->|[->|[->|[->|[]]]]]; bounds.
Qed.

Lemma billing_report_exact_witness :
  exists r w', GetBillingReport exNewYear exUntil "" exBilled = (inr r, w') /\ BR_TotalRequests r = 4 /\ BR_TotalTokens r = 2529 /\
    length (periodRows exNewYear exUntil "" (w_db exBilled)) = 4%nat /\
    map (fun u => (BU_TenantID u, BU_ModelID u)) (BR_Tenants r) = [("acme/ml", "llama"); ("acme/ml", "phi"); ("aXme/web", "phi")]%string.
Proof.
  destruct (GetBillingReport exNewYear exUntil "" exBilled) as [res w'] eqn:H.
  pose proof (f_equal fst H) as Hr. vm_compute in Hr. destruct res as [|r]; [discriminate|]. exists r, w'. split; [reflexivity|].
  destruct (billing_report_exact _ _ _ _ _ _ H exBounds) as [_ _ _ _ _ -> ->]. injection Hr as <-. split_and!; vm_compute; reflexivity.
Defined.

(** An event half a second after a start at a whole second is not counted. *)
Example event_after_start_dropped :
  let db := with_events emptyDatabase [exSpent "r1" "acme/ml" "llama" (exNewYear + 500000000) 1 1] in
  length (periodRows exNewYear exUntil "" db) = 1%nat /\ windowRows exNewYear exUntil "" db = [].
Proof. split; vm_compute; reflexivity. Qed.

Lemma team_report_agrees_witness :
  exists r r' w' v', GetTeamBillingReport "acme/ml" exNewYear exUntil exBilled = (inr r, w') /\
    GetBillingReport exNewYear exUntil "acme/ml" exBilled = (inr r', v') /\ TB_TotalTokens r = BR_TotalTokens r'.
Proof.
  destruct (GetTeamBillingReport "acme/ml" exNewYear exUntil exBilled) as [res w'] eqn:H.
  destruct (GetBillingReport exNewYear exUntil "acme/ml" exBilled) as [res' v'] eqn:H'.
  pose proof (f_equal fst H) as Hr. vm_compute in Hr. destruct res as [|r]; [discriminate|]. clear Hr.
  pose proof (f_equal fst H') as Hr. vm_compute in Hr. destruct res' as [|r']; [discriminate|]. clear Hr.
  exists r, r', w', v'. split; [reflexivity|]. split; [reflexivity|].
  exact (proj2 (proj2 (team_report_agrees "acme/ml" _ _ exBilled exBilled r r' w' v' ltac:(discriminate) eq_refl H H'))).
Defined.

(** The identifier [acme] has no wildcard. *)
Lemma org_report_covers_witness :
  exists r w', GetOrgBillingReport "acme" exNewYear exUntil exBilled = (inr r, w') /\ OB_TotalTokens r = 2515 /\
    matchesOrg "acme" "ACME/ml" = true.
Proof.
  destruct (GetOrgBillingReport "acme" exNewYear exUntil exBilled) as [res w'] eqn:H.
  pose proof (f_equal fst H) as Hr. vm_compute in Hr. destruct res as [|r]; [discriminate|]. clear Hr. exists r, w'. split; [reflexivity|].
  destruct (org_report_covers _ _ _ _ _ _ H) as (_ & _ & -> & Hm). split; [vm_compute; reflexivity|]. apply Hm.
  - vm_compute. repeat constructor; discriminate.
  - exists [109; 108]. vm_compute. reflexivity.
Defined.

Definition exBillingLicense : option License := Some (mkLicense "Acme" ["billing"%string] zeroTime zeroTime).
Definition exXLSX : BillingQuery := mkBillingQuery "" "" "" "xlsx" "" "" "".
Definition exLate : World := mkWorld 0 (with_events emptyDatabase [exSpent "r1" "acme/ml" "llama" (- Hour) 1000 500; exSpent "r2" "b" "phi" (-2 * Hour) 3 4]) ∅ [].

Definition exWorkbook : Answer BillingBody * World :=
  handleBillingReport (fun _ => None) (fun _ => None) exBillingLicense exXLSX exLate.

Lemma exLate_bounds : clearBounds (env_now 1 - 30 * Day) (env_now 1) (w_db exLate).
Proof.
  split; [vm_compute; split; congruence|]. split; [vm_compute; split; congruence|].
  intros e He. unfold logged in He. cbn in He. rewrite !elem_of_cons, elem_of_nil in He. destruct He as [->|[->|[]]]; bounds.
Qed.

Lemma workbook_adds_up_witness :
  exists file sheets, fst exWorkbook = Answered 200 (AsXLSX file sheets) /\ file = "purser-billing-1969-12.xlsx"%string /\
  exists summary rest tenants, sheets = summary :: rest /\ listed ["acme/ml"; "b"]%string tenants /\ length (sh_rows summary) = length tenants.
Proof.
  assert (Hk : match fst exWorkbook with Answered st (AsXLSX _ _) => st | _ => 0 end = 200) by (vm_compute; reflexivity).
  destruct exWorkbook as [res w'] eqn:H. cbn [fst] in *.
  destruct res as [|st [| |file sheets|]]; [exfalso; clear -Hk; discriminate|exfalso; clear -Hk; discriminate..| |exfalso; clear -Hk; discriminate].
  subst st. exists file, sheets. split; [reflexivity|].
  destruct (workbook_adds_up (fun _ => None) (fun _ => None) exBillingLicense exXLSX exLate file sheets w' (env_now 1 - 30 * Day) (env_now 1) H eq_refl eq_refl exLate_bounds)
    as (-> & s1 & s2 & s3 & tenants & models & -> & [Ht _ Hs _ _]).
  split; [vm_compute; reflexivity|]. exists s1, [s2; s3], tenants. split; [reflexivity|]. split; [exact Ht|].
  apply (f_equal length) in Hs. rewrite !length_map in Hs. exact Hs.
Defined.

(** Its cost columns are zero, whatever the prices. *)
Example workbook_without_costs r : Forall (fun row => row !! 6%nat = Some (CFloat f0)) (sh_rows (summarySheet r)).
Proof. unfold summarySheet. cbn. apply Forall_map, Forall_true. intros t. cbn. by destruct (splitTenantForExport t). Qed.

(** A wildcard in the identifier of an organisation takes in the tenants of others, and
    the letters match in either case. *)
Example foreign_tenants : matchesOrg "a_me" "acme/ml" = true /\ matchesOrg "acme" "ACME/ml" = true /\ matchesOrg "acme" "acme-corp/ml" = false.
Proof. split_and!; vm_compute; reflexivity. Qed.

(** The current price may be one of the future. *)
Definition exPrice (from : Time) (p : Z) : ModelPricing := mkModelPricing "llama" from (of_Z p) f0 [].

Definition exPriced : World :=
  snd (runAll (fun p => ignore (UpsertModelPricing p)) [exPrice exNewYear 1; exPrice (exNewYear + 365 * Day) 2] exBilled).

Example future_price_current :
  fst (GetCurrentModelPricing "llama" exPriced) = inr (exPrice (exNewYear + 365 * Day) 2) /\
  priceAt (w_db exPriced) exUntil "llama" = Some (exPrice exNewYear 1).
Proof. split; vm_compute; reflexivity. Qed.

(** New Year's day of 2027 is in week 53 of 2026 by ISO 8601. *)
Example not_iso_weeks : dateBucket true exNewYear = Some "2027-W00"%string /\ dateBucket false exNewYear = Some "2027-01-01"%string.
Proof. split; vm_compute; reflexivity. Qed.
