(* ===== verification/DataPlane.v ===== *)
(** * DataPlane: data planes and the configuration pushed to them

    [registry/dataplane_sqlite.go], the handlers of [server/dataplane.go] and the
    snapshots of [server/config_snapshot.go].

    A snapshot is stored as JSON; the codec is a parameter. An absent map of a data
    plane's [ConfigSnapshot] is the text of the empty object, as it is stored; an absent
    map or list of a snapshot is an empty one. *)
From S2P Require Import Prelude Float64 Text Cluster Registry Orchestrator Permissions Access Timestamp Statements Platform Planning Credentials Identity Operations Tenancy.
Import Row.
Open Scope Z_scope.

(** ** Snapshots ([registry/types.go]) *)

(** The values of the maps: those the control plane builds, and any other JSON that an
    operator puts there. *)
Record RouteEntry : Type := mkRouteEntry { RE_Deployment : string; RE_State : string; RE_Endpoint : string; RE_Quantization : string }.
Record AuthEntry : Type := mkAuthEntry { AU_Role : string; AU_Tenant : string; AU_Quota : Z }.
Inductive Value : Type := VRoute (r : RouteEntry) | VAuth (a : AuthEntry) | VJSON (text : string).

Record DataPlaneConfigSnapshot : Type := mkSnapshot {
  SN_RoutingTable : gmap string Value; SN_AuthBundle : gmap string Value; SN_PolicyBundle : list string;
  SN_GeneratedAt : Time }.

Record DataPlaneHeartbeat : Type := mkDPHeartbeat {
  DH_DataPlaneID : string; DH_Status : string; DH_NodeCount : Z; DH_ActiveModels : list string }.

(** [json.Marshal] (nothing when it fails) and [json.Unmarshal] of a snapshot, and
    whether a text decodes into a map. *)
Class SnapshotJSON : Type := {
  marshalSnapshot : DataPlaneConfigSnapshot -> option string;
  unmarshalSnapshot : string -> option DataPlaneConfigSnapshot;
  isObject : string -> bool }.

(** What the JSON of a value keeps: a number is decoded as a [float64], so that integers
    up to [2^53] survive, and bytes that are no UTF-8 are replaced. *)
Definition plainValue (v : Value) : Prop :=
  match v with
  | VRoute r => Forall validUTF8 [RE_Deployment r; RE_State r; RE_Endpoint r; RE_Quantization r]
  | VAuth a => Z.abs (AU_Quota a) <= 2 ^ 53 /\ Forall validUTF8 [AU_Role a; AU_Tenant a]
  | VJSON _ => False
  end.

(** A time whose year has not four digits cannot be marshalled. *)
Definition plainSnapshot (s : DataPlaneConfigSnapshot) : Prop :=
  map_Forall (fun m v => validUTF8 m /\ plainValue v) (SN_RoutingTable s) /\
  map_Forall (fun h v => validUTF8 h /\ plainValue v) (SN_AuthBundle s) /\
  Forall validUTF8 (SN_PolicyBundle s) /\ fourDigitYear (SN_GeneratedAt s).

Class SnapshotLaws (J : SnapshotJSON) : Prop := {
  snapshot_roundtrip : forall s, plainSnapshot s ->
    exists text, marshalSnapshot s = Some text /\ text ≠ ""%string /\ text ≠ "{}"%string /\ unmarshalSnapshot text = Some s }.

(** ** The registry ([registry/dataplane_sqlite.go]) *)

Definition planes (db : Database) : PlaneTables := et_planes (db_enterprise db).
Definition dataplanes (db : Database) : gmap string DataPlane := lt_planes (planes db).

Definition with_plane_tables (db : Database) (t : PlaneTables) : Database :=
  with_enterprise db (with_planes (db_enterprise db) t).

Definition with_dataplanes (db : Database) (l : gmap string DataPlane) : Database :=
  with_plane_tables db (mkPlaneTables l (lt_nodePlane (planes db)) (lt_policies (planes db))).

(** [UPDATE nodes SET dataplane_id = ?]: [NULL] for the empty identifier. *)
Definition with_plane_of (db : Database) (nodeID dataplaneID : string) : Database :=
  let t := planes db in
  with_plane_tables db (with_nodePlane t
    (if (dataplaneID =? "")%string then delete nodeID (lt_nodePlane t) else <[nodeID := dataplaneID]> (lt_nodePlane t))).

Section Planes.
Context `{E : Env} `{C : Crypto} `{J : SnapshotJSON}.

(** A stored text that is no object is dropped. *)
Definition scanDataPlane (dp : DataPlane) : DataPlane :=
  let snap := DPConfigSnapshot dp in
  mkDataPlane (DPID dp) (DPName dp) (DPDescription dp) (DPTier dp) (DPGatewayURL dp) (DPStatus dp) (DPJoinTokenHash dp)
    (if negb (snap =? "")%string && isObject snap then snap else "{}") (DPLastHeartbeat dp) (DPCreatedAt dp) (DPUpdatedAt dp).

Definition generateJoinToken : M (string * string) :=
  let* b := randHex in
  let plaintext := ("dp_" +:+ b)%string in
  cret (plaintext, sha256HexOf plaintext).

Definition CreateDataPlane (dp : DataPlane) : M (Error + (string * DataPlane)) :=
  let* now := nowUTC in
  let* id := (if (DPID dp =? "")%string then let* b := randHex in cret ("dp-" +:+ b)%string else cret (DPID dp)) in
  let* (joinToken, hash) := generateJoinToken in
  let row := mkDataPlane id (DPName dp) (DPDescription dp) (orDefault (DPTier dp) "production") (DPGatewayURL dp)
               (orDefault (DPStatus dp) "registering") hash (DPConfigSnapshot dp) None now now in
  let what := ("registry: create data plane " +:+ id)%string in
  let* err := exec what (fun db => result_map (with_dataplanes db) (insertRow what (dataplanes db) id row)) in
  cret (match err with Some e => inl e | None => inr (joinToken, row) end).

Definition GetDataPlane (id : string) : M (Error + DataPlane) :=
  query ("registry: get data plane " +:+ id) (fun db => result_map scanDataPlane (getRow (dataplanes db) id)).

Definition ListDataPlanes : M (Error + list DataPlane) :=
  let* n := next in
  query "registry: list data planes" (fun db => inr (map scanDataPlane (orderBy DPName n (rowsOf (dataplanes db))))).

(** [UPDATE dataplanes ... WHERE id = ?] and [mustAffect]. *)
Definition setPlane (what : string) (id : string) (f : DataPlane -> DataPlane) : M (option Error) :=
  exec (what +:+ " " +:+ id) (fun db => result_map (with_dataplanes db) (updateRow (dataplanes db) id f)).

Definition UpdateDataPlane (dp : DataPlane) : M (option Error) :=
  let* now := nowUTC in
  setPlane "registry: update data plane" (DPID dp) (fun row =>
    mkDataPlane (DPID row) (DPName dp) (DPDescription dp) (DPTier dp) (DPGatewayURL dp) (DPStatus dp) (DPJoinTokenHash row)
      (DPConfigSnapshot row) (DPLastHeartbeat row) (DPCreatedAt row) now).

Definition DeleteDataPlane (id : string) : M (option Error) :=
  exec ("registry: delete data plane " +:+ id) (fun db => result_map (with_dataplanes db) (deleteRow (dataplanes db) id)).

(** The number of nodes and the models of the report are not stored. *)
Definition RecordDataPlaneHeartbeat (hb : DataPlaneHeartbeat) : M (option Error) :=
  let* now := nowUTC in
  setPlane "registry: heartbeat data plane" (DH_DataPlaneID hb) (fun row =>
    mkDataPlane (DPID row) (DPName row) (DPDescription row) (DPTier row) (DPGatewayURL row) (DH_Status hb)
      (DPJoinTokenHash row) (DPConfigSnapshot row) (Some now) (DPCreatedAt row) now).

Definition GetDataPlaneConfigSnapshot (id : string) : M (Error + DataPlaneConfigSnapshot) :=
  let* text := query ("registry: get config snapshot " +:+ id) (fun db =>
                 result_map DPConfigSnapshot (getRow (dataplanes db) id)) in
  match text with
  | inl e => cret (inl e)
  | inr text =>
      let* now := nowUTC in
      cret (if (text =? "")%string || (text =? "{}")%string then inr (mkSnapshot ∅ ∅ [] now)
            else match unmarshalSnapshot text with
                 | None => inl (Wrap "registry: decode config snapshot" (ErrorString "json"))
                 | Some snap => inr snap
                 end)
  end.

Definition UpdateDataPlaneConfigSnapshot (id : string) (snapshot : DataPlaneConfigSnapshot) : M (option Error) :=
  match marshalSnapshot snapshot with
  | None => cret (Some (Wrap "registry: marshal config snapshot" (ErrorString "json")))
  | Some text =>
      let* now := nowUTC in
      setPlane "registry: update config snapshot" id (fun row =>
        mkDataPlane (DPID row) (DPName row) (DPDescription row) (DPTier row) (DPGatewayURL row) (DPStatus row)
          (DPJoinTokenHash row) text (DPLastHeartbeat row) (DPCreatedAt row) now)
  end.

(** The data plane need not exist. *)
Definition AssignNodeToDataPlane (nodeID dataplaneID : string) : M (option Error) :=
  let* now := nowUTC in
  exec "registry: assign node" (fun db =>
    result_map (fun nodes => with_plane_of (with_nodes db nodes) nodeID dataplaneID)
      (updateRow (db_nodes db) nodeID (fun row =>
        mkNode (ID row) (Hostname row) (OS row) (Arch row) (RAMGB row) (VRAMGB row) (State row) (AdvertisedAgentAddr row)
          (AdvertisedInferenceAddr row) (LastSeen row) (HardwareProfile row) (CreatedAt row) now))).

Definition planeOf (db : Database) (n : Node) : string := default ""%string (lt_nodePlane (planes db) !! ID n).

Definition ListNodesByDataPlane (dataplaneID : string) : M (Error + list Node) :=
  let* t := next in
  query "registry: list nodes by data plane" (fun db =>
    inr (orderBy Hostname t (List.filter (fun n => planeOf db n =? dataplaneID)%string (rowsOf (db_nodes db))))).

(** The column of the hashes is not unique: the first row in the order of the database. *)
Definition ValidateDataPlaneToken (joinToken : string) : M (Error + DataPlane) :=
  let hash := sha256HexOf joinToken in
  let* n := next in
  query "registry: validate data plane token" (fun db =>
    result_map scanDataPlane (firstRow (fun dp => DPJoinTokenHash dp =? hash)%string (env_order _ n (rowsOf (dataplanes db))))).

(** *** Policies, as the snapshots read them ([registry/policy_sqlite.go]) *)

Definition policies (db : Database) : gmap string Policy := lt_policies (planes db).

Definition ListPolicies : M (Error + list Policy) :=
  query "registry: list policies" (fun db => inr (byKey PYName (policies db))).

(** ** Building a snapshot ([server/config_snapshot.go]) *)

Definition routes (nodeIDs : gset string) (d : Deployment) : bool :=
  (DState d =? StateActive)%string && existsb (deploymentOccupiesNode d) (elements nodeIDs).

Definition routeEntry (d : Deployment) : Value :=
  let detail := default DeploymentDetail_zero (DDetail d) in
  VRoute (mkRouteEntry (DID d) (DState d) (DD_Endpoint detail) (DD_Quantization detail)).

(** Of the deployments of one model the last of the list. *)
Definition routingTable (nodeIDs : gset string) (deployments : list Deployment) : gmap string Value :=
  fold_left (fun table d => if routes nodeIDs d then <[DModelID d := routeEntry d]> table else table) deployments ∅.

Definition authEntry (k : APIKeyRow) : Value := VAuth (mkAuthEntry (AKRole k) (AKTenant k) (AKQuota k)).

Definition authBundle (keys : list APIKeyRow) : gmap string Value :=
  fold_left (fun bundle k => if AKEnabled k then <[AKKeyHash k := authEntry k]> bundle else bundle) keys ∅.

Definition policyBundle (ps : list Policy) : list string := map PYName (List.filter PYEnabled ps).

Definition BuildDataPlaneSnapshot (dpID : string) : M (Error + DataPlaneConfigSnapshot) :=
  let* now := nowUTC in
  let* nodes := ListNodesByDataPlane dpID in
  match nodes with
  | inl e => cret (inl (Wrap "list nodes for DP" e))
  | inr nodes =>
      let nodeIDs : gset string := list_to_set (map ID nodes) in
      let* deployments := ListDeployments in
      match deployments with
      | inl e => cret (inl (Wrap "list deployments" e))
      | inr deployments =>
          let* keys := ListAPIKeys in
          match keys with
          | inl e => cret (inl (Wrap "list api keys" e))
          | inr keys =>
              let* ps := ListPolicies in
              cret (match ps with
                    | inl e => inl (Wrap "list policies" e)
                    | inr ps => inr (mkSnapshot (routingTable nodeIDs deployments) (authBundle keys) (policyBundle ps) now)
                    end)
          end
      end
  end.

Definition PushConfigSnapshot (dpID : string) : M (option Error) :=
  let* snapshot := BuildDataPlaneSnapshot dpID in
  match snapshot with
  | inl e => cret (Some (Wrap "build snapshot for DP" e))
  | inr snapshot => UpdateDataPlaneConfigSnapshot dpID snapshot
  end.

(** One tick of the pusher. *)
Definition snapshotTick : M unit :=
  let* dps := ListDataPlanes in
  match dps with
  | inl _ => cret ()
  | inr dps => runAll (fun dp => if (DPStatus dp =? "offline")%string then cret () else ignore (PushConfigSnapshot (DPID dp))) dps
  end.
End Planes.

(** ** The handlers ([server/dataplane.go]) *)

Record planeRequest : Type := mkPlaneRequest { DR_Name : string; DR_Description : string; DR_Tier : string; DR_GatewayURL : string }.
Record planeUpdate : Type := mkPlaneUpdate {
  DU_Name : option string; DU_Description : option string; DU_Tier : option string; DU_GatewayURL : option string;
  DU_Status : option string }.
Record heartbeatRequest : Type := mkHeartbeatRequest { HR_Status : string; HR_NodeCount : Z; HR_ActiveModels : list string }.

Section Handlers.
Context `{E : Env} `{C : Crypto} `{J : SnapshotJSON}.

Definition handleCreateDataPlane (c : Caller) (body : Body planeRequest) : M (Answer (DataPlane * string)) :=
  match body with
  | NoBody | BadJSON => cret (Refused 400 "bad_request")
  | Decoded req =>
      if (DR_Name req =? "")%string then cret (Refused 400 "bad_request")
      else
        let* res := CreateDataPlane (mkDataPlane "" (DR_Name req) (DR_Description req) (DR_Tier req) (DR_GatewayURL req)
                                       "" "" "{}" None zeroTime zeroTime) in
        match res with
        | inl _ => cret (Refused 500 "create_dataplane_failed")
        | inr (joinToken, dp) => audited c "dataplane.created" (DPID dp) ;;; cret (Answered 201 (dp, joinToken))
        end
  end.

Definition handleListDataPlanes : M (Answer (list DataPlane)) :=
  let* res := ListDataPlanes in
  cret (match res with inl _ => Refused 500 "list_dataplanes_failed" | inr dps => Answered 200 dps end).

Definition handleGetDataPlane (id : string) : M (Answer DataPlane) :=
  let* res := GetDataPlane id in
  cret (match res with inl e => failure "get_dataplane_failed" e | inr dp => Answered 200 dp end).

(** What a handler does with the data plane of its path. *)
Definition onPlane {A} (id : string) (k : DataPlane -> M (Answer A)) : M (Answer A) :=
  let* res := GetDataPlane id in
  match res with inl e => cret (failure "get_dataplane_failed" e) | inr dp => k dp end.

Definition updatedPlane (dp : DataPlane) (req : planeUpdate) : DataPlane :=
  mkDataPlane (DPID dp) (default (DPName dp) (DU_Name req)) (default (DPDescription dp) (DU_Description req))
    (default (DPTier dp) (DU_Tier req)) (default (DPGatewayURL dp) (DU_GatewayURL req))
    (default (DPStatus dp) (DU_Status req)) (DPJoinTokenHash dp) (DPConfigSnapshot dp) (DPLastHeartbeat dp)
    (DPCreatedAt dp) (DPUpdatedAt dp).

(** A row that is gone by now is an internal error. *)
Definition handleUpdateDataPlane (c : Caller) (id : string) (body : Body planeUpdate) : M (Answer DataPlane) :=
  onPlane id (fun dp =>
    match body with
    | NoBody | BadJSON => cret (Refused 400 "bad_request")
    | Decoded req =>
        let dp := updatedPlane dp req in
        let* err := UpdateDataPlane dp in
        match err with
        | Some _ => cret (Refused 500 "update_dataplane_failed")
        | None => audited c "dataplane.updated" (DPID dp) ;;; cret (Answered 200 dp)
        end
    end).

Definition handleDeleteDataPlane (c : Caller) (id : string) : M (Answer unit) :=
  let* err := DeleteDataPlane id in
  match err with
  | Some e => cret (failure "delete_dataplane_failed" e)
  | None => audited c "dataplane.deleted" id ;;; cret (Answered 204 ())
  end.

Definition handleDataPlaneHeartbeat (id : string) (body : Body heartbeatRequest) : M (Answer unit) :=
  match body with
  | NoBody | BadJSON => cret (Refused 400 "bad_request")
  | Decoded req =>
      let* err := RecordDataPlaneHeartbeat
                    (mkDPHeartbeat id (orDefault (HR_Status req) "active") (HR_NodeCount req) (HR_ActiveModels req)) in
      cret (match err with Some e => failure "heartbeat_failed" e | None => Answered 204 () end)
  end.

(** No token is looked at. *)
Definition handleGetDataPlaneConfig (id : string) : M (Answer DataPlaneConfigSnapshot) :=
  let* res := GetDataPlaneConfigSnapshot id in
  cret (match res with inl e => failure "get_config_failed" e | inr snap => Answered 200 snap end).

Definition handlePutDataPlaneConfig (c : Caller) (id : string) (body : Body DataPlaneConfigSnapshot)
    : M (Answer DataPlaneConfigSnapshot) :=
  onPlane id (fun _ =>
    match body with
    | NoBody | BadJSON => cret (Refused 400 "bad_request")
    | Decoded snap =>
        let* err := UpdateDataPlaneConfigSnapshot id snap in
        match err with
        | Some _ => cret (Refused 500 "update_config_failed")
        | None => audited c "dataplane.config_updated" id ;;; cret (Answered 200 snap)
        end
    end).

Definition handleAssignNodeToDataPlane (c : Caller) (dpID nodeID : string) : M (Answer unit) :=
  onPlane dpID (fun _ =>
    let* err := AssignNodeToDataPlane nodeID dpID in
    match err with
    | Some e => cret (failure "assign_node_failed" e)
    | None => audited c "dataplane.node_assigned" (dpID +:+ "/" +:+ nodeID) ;;; cret (Answered 204 ())
    end).

(** Whichever data plane the node is in. *)
Definition handleUnassignNodeFromDataPlane (c : Caller) (dpID nodeID : string) : M (Answer unit) :=
  let* err := AssignNodeToDataPlane nodeID "" in
  match err with
  | Some e => cret (failure "unassign_node_failed" e)
  | None => audited c "dataplane.node_unassigned" (dpID +:+ "/" +:+ nodeID) ;;; cret (Answered 204 ())
  end.

Definition handleListDataPlaneNodes (id : string) : M (Answer (list Node)) :=
  onPlane id (fun _ =>
    let* res := ListNodesByDataPlane id in
    cret (match res with inl _ => Refused 500 "list_nodes_failed" | inr nodes => Answered 200 nodes end)).

Definition handleRefreshDataPlaneConfig (dpID : string) : M (Answer (string * Time)) :=
  let* err := PushConfigSnapshot dpID in
  match err with
  | Some e => cret (failure "refresh_failed" e)
  | None => let* now := nowUTC in cret (Answered 200 (dpID, now))
  end.
End Handlers.

(** ** What a snapshot holds *)

(** The deployment is active and the host or an engine is on a node of the data plane. *)
Definition servedBy (db : Database) (dpID : string) (d : Deployment) : Prop :=
  DState d = StateActive /\
  exists id n, db_nodes db !! id = Some n /\ planeOf db n = dpID /\ deploymentOccupiesNode d (ID n) = true.

Record snapshotOf (db : Database) (dpID : string) (s : DataPlaneConfigSnapshot) : Prop := {
  so_route : forall m v, SN_RoutingTable s !! m = Some v ->
    exists id d, db_deployments db !! id = Some d /\ servedBy db dpID d /\ DModelID d = m /\ v = routeEntry d;
  so_served : forall id d, db_deployments db !! id = Some d -> servedBy db dpID d -> is_Some (SN_RoutingTable s !! DModelID d);
  so_auth : forall h v, SN_AuthBundle s !! h = Some v <->
    exists id k, keys db !! id = Some k /\ AKEnabled k = true /\ AKKeyHash k = h /\ v = authEntry k;
  so_policies : forall name, name ∈ SN_PolicyBundle s <->
    exists id p, policies db !! id = Some p /\ PYEnabled p = true /\ PYName p = name }.

Lemma elem_of_rows {A} (tbl : gmap string A) a : a ∈ rowsOf tbl <-> exists k, tbl !! k = Some a.
Proof.
  unfold rowsOf. rewrite list_elem_of_fmap. split.
  - intros ((k & b) & -> & H%elem_of_map_to_list). eauto.
  - intros (k & H). exists (k, a). split; [done|]. by apply elem_of_map_to_list.
Qed.

Section Exact.
Context `{E : Env} `{C : Crypto} `{J : SnapshotJSON} `{L : !EnvLaws E}.

Lemma elem_of_orderBy {A} (key : A -> string) n rows (a : A) : a ∈ orderBy key n rows <-> a ∈ rows.
Proof. unfold orderBy. by rewrite go_sort_perm, env_order_perm. Qed.

Lemma routes_spec db dpID t d :
  routes (list_to_set (map ID (orderBy Hostname t
     (List.filter (fun n => planeOf db n =? dpID)%string (rowsOf (db_nodes db)))))) d = true <-> servedBy db dpID d.
Proof.
  unfold routes, servedBy. rewrite andb_true_iff, String.eqb_eq, existsb_exists. apply and_iff_compat_l. split.
  - intros (x & Hx & Ho). apply list_elem_of_In, elem_of_elements, elem_of_list_to_set, list_elem_of_fmap in Hx as (n & -> & Hn).
    apply elem_of_orderBy, list_elem_of_In, filter_In in Hn as (Hn & Hp%String.eqb_eq).
    apply list_elem_of_In, elem_of_rows in Hn as (id & Hn). eauto.
  - intros (id & n & Hn & Hp & Ho). exists (ID n). split; [|done].
    apply list_elem_of_In, elem_of_elements, elem_of_list_to_set, list_elem_of_fmap. exists n. split; [done|].
    apply elem_of_orderBy, list_elem_of_In, filter_In. split; [|by apply String.eqb_eq].
    apply list_elem_of_In, elem_of_rows. eauto.
Qed.

(** What the loops of the builder make of the rows they were given. *)
Lemma built_snapshotOf db dpID t t' now :
  cred_wf db ->
  snapshotOf db dpID (mkSnapshot
    (routingTable (list_to_set (map ID (orderBy Hostname t
       (List.filter (fun n => planeOf db n =? dpID)%string (rowsOf (db_nodes db))))))
       (env_order Deployment t' (map snd (map_to_list (db_deployments db)))))
    (authBundle (map scanAPIKey (byKey AKID (keys db)))) (policyBundle (byKey PYName (policies db))) now).
Proof.
  intros Hwf. split; cbn [SN_RoutingTable SN_AuthBundle SN_PolicyBundle].
  - intros m v H. apply (filled_source (routes _) DModelID routeEntry) in H as [H|(d & Hd & Hr%routes_spec & Hm & ->)]; [done|].
    rewrite env_order_perm in Hd. apply (elem_of_rows (db_deployments db)) in Hd as (id & Hd). eauto 6.
  - intros id d Hd Hs. apply (filled_total (routes _) DModelID routeEntry). right. exists d.
    rewrite env_order_perm. split_and!; [apply (elem_of_rows (db_deployments db)); eauto|by apply routes_spec|done].
  - intros h v. split.
    + intros H. apply (filled_source AKEnabled AKKeyHash authEntry) in H as [H|(k & Hk & He & <- & ->)]; [done|].
      apply list_elem_of_fmap in Hk as (k0 & -> & Hk0). apply byKey_elem in Hk0 as (id & Hk0). exists id, k0. done.
    + intros (id & k & Hk & He & <- & ->). apply (filled_value AKEnabled AKKeyHash authEntry).
      * intros a Ha _ Hh. apply list_elem_of_fmap in Ha as (b & -> & Hb). apply byKey_elem in Hb as (id' & Hb).
        assert (id' = id) as -> by (eapply wf_key_hash; [exact Hwf|exact Hb|exact Hk|exact Hh]). by simplify_eq.
      * right. exists (scanAPIKey k). split_and!; [|done|done]. apply list_elem_of_fmap. exists k. split; [done|].
        apply byKey_elem. eauto.
  - intros name. unfold policyBundle. rewrite list_elem_of_fmap. split.
    + intros (p & -> & Hp). apply list_elem_of_In, filter_In in Hp as (Hp & He).
      apply list_elem_of_In, byKey_elem in Hp as (id & Hp). eauto.
    + intros (id & p & Hp & He & <-). exists p. split; [done|]. apply list_elem_of_In, filter_In. split; [|done].
      apply list_elem_of_In, byKey_elem. eauto.
Qed.

(** A query answers from the database, or the database failed. *)
Lemma query_answer {A} what (k : Database -> Error + A) w r w' :
  query what k w = (r, w') -> w_db w' = w_db w /\ (r = k (w_db w) \/ ~ HealthyDB E /\ exists e, r = inl e).
Proof.
  intros (Hdb & _ & H)%query_spec. split; [done|]. destruct (env_db (w_tick w)) eqn:Ed; [|by left].
  right. split; [|eauto]. intros [Hh]. by rewrite Hh in Ed.
Qed.

Lemma BuildDataPlaneSnapshot_spec dpID w r w' :
  BuildDataPlaneSnapshot dpID w = (r, w') -> cred_wf (w_db w) ->
  w_db w' = w_db w /\
  match r with inr s => snapshotOf (w_db w) dpID s /\ SN_GeneratedAt s = env_now (w_tick w) | inl _ => ~ HealthyDB E end.
Proof.
  unfold BuildDataPlaneSnapshot, ListNodesByDataPlane, ListDeployments, ListAPIKeys, ListPolicies. intros H Hwf.
  run_step H. pose proof Hrun as Hnow. apply nowUTC_spec in Hrun as (D1 & _). injection Hnow as <- _. run_step H. run_step Hrun. injection Hrun0 as <- <-.
  apply query_answer in Hrun as (D2 & [-> |(Hh & e & ->)]); cbn in D2; [|injection H as <- <-; split; [congruence|done]].
  run_step H. run_step Hrun. injection Hrun0 as <- <-.
  apply query_answer in Hrun as (D3 & [-> |(Hh & e & ->)]); cbn in D3; [|injection H as <- <-; split; [congruence|done]].
  run_step H. apply query_answer in Hrun as (D4 & [-> |(Hh & e & ->)]); [|injection H as <- <-; split; [congruence|done]].
  run_step H. apply query_answer in Hrun as (D5 & [-> |(Hh & e & ->)]); injection H as <- <-; (split; [congruence|]); [|done].
  split; [|done]. cbn. rewrite D4, D3, D2, D1. by apply built_snapshotOf.
Qed.

(** The rows a snapshot is made of can be written as JSON and read back. *)
Definition jsonRows (db : Database) : Prop :=
  (forall id d, db_deployments db !! id = Some d -> DState d = StateActive ->
     let detail := default DeploymentDetail_zero (DDetail d) in
     Forall validUTF8 [DModelID d; DID d; DState d; DD_Endpoint detail; DD_Quantization detail]) /\
  (forall id k, keys db !! id = Some k -> AKEnabled k = true ->
     Z.abs (AKQuota k) <= 2 ^ 53 /\ Forall validUTF8 [AKKeyHash k; AKRole k; AKTenant k]) /\
  (forall id p, policies db !! id = Some p -> PYEnabled p = true -> validUTF8 (PYName p)).

Lemma jsonRows_plain db dpID s : snapshotOf db dpID s -> fourDigitYear (SN_GeneratedAt s) -> jsonRows db -> plainSnapshot s.
Proof.
  intros Hs Ht (Hd & Hk & Hp). split_and!; [| | |done].
  - intros m v (id & d & H1 & (H2 & _) & <- & ->)%(so_route _ _ _ Hs). specialize (Hd id d H1 H2). by apply Forall_cons in Hd.
  - intros h v (id & k & H1 & H2 & <- & ->)%(so_auth _ _ _ Hs). destruct (Hk id k H1 H2) as (H3 & H4). by apply Forall_cons in H4 as (? & ?).
  - apply Forall_forall. intros name (id & q & H1 & H2 & <-)%(so_policies _ _ _ Hs). eauto.
Qed.

Lemma setPlane_healthy what id f w r w' row :
  HealthyDB E -> setPlane what id f w = (r, w') -> dataplanes (w_db w) !! id = Some row ->
  r = None /\ dataplanes (w_db w') !! id = Some (f row).
Proof.
  unfold setPlane. intros Hh H Hrow. eapply exec_healthy in H as (-> & ->); [|done|unfold updateRow; by rewrite Hrow].
  split; [done|]. cbn. by rewrite lookup_insert_eq.
Qed.

(** (C24) A refresh delivers the truth. With a database that answers and a clock within
    the years of four digits, for a data plane that is registered and rows whose texts
    are valid UTF-8 and whose quotas are at most 2^53 (JSON keeps no others), API keys of
    distinct hashes ([cred_wf]), the refresh is answered 200, and the data plane that pulls its configuration next gets a snapshot
    of the registry as it was, with the time of the refresh: a route for a model exactly
    when an active deployment of it has its host or an engine on a node of this data
    plane, and then the route of such a deployment; an entry for exactly the enabled API
    keys, each with the key's role, tenant and quota; and the names of exactly the
    enabled policies. *)
Theorem snapshot_delivered `{HL : !SnapshotLaws J} (dpID : string) (w w1 w2 : World) a b :
  HealthyDB E -> cred_wf (w_db w) -> is_Some (dataplanes (w_db w) !! dpID) ->
  jsonRows (w_db w) -> fourDigitYear (env_now (w_tick w)) ->
  handleRefreshDataPlaneConfig dpID w = (a, w1) -> handleGetDataPlaneConfig dpID w1 = (b, w2) ->
  (exists at_, a = Answered 200 (dpID, at_)) /\
  exists s, b = Answered 200 s /\ snapshotOf (w_db w) dpID s /\ SN_GeneratedAt s = env_now (w_tick w).
Proof.
  intros Hh Hwf (row & Hrow) Hj Ht Ha Hb. unfold handleRefreshDataPlaneConfig, PushConfigSnapshot in Ha.
  run_step Ha. run_step Hrun. apply BuildDataPlaneSnapshot_spec in Hrun0 as (D1 & Hs); [|done].
  destruct r0 as [e|s]; [done|]. destruct Hs as (Hs & Hg).
  destruct (snapshot_roundtrip s) as (text & Hm & N1 & N2 & Hu); [eapply jsonRows_plain; [exact Hs|by rewrite Hg|done]|].
  unfold UpdateDataPlaneConfigSnapshot in Hrun. rewrite Hm in Hrun. run_step Hrun.
  apply nowUTC_spec in Hrun0 as (D2 & _). eapply setPlane_healthy in Hrun as (-> & Hnew); [|done|by rewrite D2, D1].
  run_step Ha. apply nowUTC_spec in Hrun as (D3 & _). injection Ha as <- <-. split; [eauto|].
  unfold handleGetDataPlaneConfig, GetDataPlaneConfigSnapshot in Hb. run_step Hb. run_step Hrun.
  eapply query_healthy in Hrun0; [|done]. unfold getRow in Hrun0. rewrite D3, Hnew in Hrun0. rewrite Hrun0 in Hrun. cbn [result_map DPConfigSnapshot] in Hrun.
  run_step Hrun. rewrite (proj2 (String.eqb_neq _ _) N1), (proj2 (String.eqb_neq _ _) N2), Hu in Hrun. cbn in Hrun.
  injection Hrun as <- <-. injection Hb as <- <-. eauto.
Qed.
End Exact.

(** ** The tables stay sound *)

Record planes_wf (db : Database) : Prop := {
  wf_plane_id : forall id dp, dataplanes db !! id = Some dp -> DPID dp = id;
  wf_plane_node : forall n p, lt_nodePlane (planes db) !! n = Some p -> p ≠ ""%string /\ is_Some (db_nodes db !! n) }.

Inductive PlaneOp : Type :=
| OpCreatePlane (dp : DataPlane) | OpUpdatePlane (dp : DataPlane) | OpDeletePlane (id : string)
| OpHeartbeat (hb : DataPlaneHeartbeat) | OpSnapshot (id : string) (s : DataPlaneConfigSnapshot)
| OpAssign (nodeID dpID : string) | OpTick
| OpCreateNode (n : Node) | OpUpdateNode (n : Node) | OpDeleteNode (id : string).

Section Integrity.
Context `{E : Env} `{C : Crypto} `{J : SnapshotJSON}.

Definition runPlane (op : PlaneOp) : M unit :=
  match op with
  | OpCreatePlane dp => ignore (CreateDataPlane dp)
  | OpUpdatePlane dp => ignore (UpdateDataPlane dp)
  | OpDeletePlane id => ignore (DeleteDataPlane id)
  | OpHeartbeat hb => ignore (RecordDataPlaneHeartbeat hb)
  | OpSnapshot id s => ignore (UpdateDataPlaneConfigSnapshot id s)
  | OpAssign nodeID dpID => ignore (AssignNodeToDataPlane nodeID dpID)
  | OpTick => snapshotTick
  | OpCreateNode n => ignore (CreateNode n)
  | OpUpdateNode n => ignore (UpdateNode n)
  | OpDeleteNode id => ignore (DeleteNode id)
  end.

Lemma planes_wf_rows db l :
  planes_wf db -> (forall id dp, l !! id = Some dp -> DPID dp = id) -> planes_wf (with_dataplanes db l).
Proof. intros [H1 H2] Hl. split; [exact Hl|exact H2]. Qed.

Lemma maintains_setPlane what id f :
  (forall row, DPID (f row) = DPID row) -> maintains planes_wf (setPlane what id f).
Proof.
  intros Hf. unfold setPlane. maintains_steps. unfold updateRow. destruct (dataplanes db !! id) as [row|] eqn:Hr; [|done].
  intros [= <-]. apply planes_wf_rows; [done|]. intros i dp Hi. destruct (decide (i = id)) as [->|Hne].
  - rewrite lookup_insert_eq in Hi. injection Hi as <-. rewrite Hf. by apply (wf_plane_id db).
  - rewrite lookup_insert_ne in Hi by done. by apply (wf_plane_id db).
Qed.

Lemma maintains_UpdateSnapshot id s : maintains planes_wf (UpdateDataPlaneConfigSnapshot id s).
Proof. unfold UpdateDataPlaneConfigSnapshot. destruct (marshalSnapshot s); [|apply maintains_ret]. maintains_steps. by apply maintains_setPlane. Qed.

Lemma maintains_Push id : maintains planes_wf (PushConfigSnapshot id).
Proof.
  unfold PushConfigSnapshot, BuildDataPlaneSnapshot, ListNodesByDataPlane, ListDeployments, ListAPIKeys, ListPolicies.
  apply maintains_bind; [maintains_steps|]. intros []; [apply maintains_ret|apply maintains_UpdateSnapshot].
Qed.
#[local] Hint Resolve maintains_setPlane maintains_UpdateSnapshot maintains_Push : purser.

Lemma maintains_CreateDataPlane dp : maintains planes_wf (CreateDataPlane dp).
Proof.
  unfold CreateDataPlane, generateJoinToken, randHex. maintains_steps. unfold insertRow. case_match; [done|]. intros [= <-].
  apply planes_wf_rows; [done|]. intros i x Hi. destruct (decide (i = a0)) as [->|Hne].
  - rewrite lookup_insert_eq in Hi. by injection Hi as <-.
  - rewrite lookup_insert_ne in Hi by done. by apply (wf_plane_id db).
Qed.

Lemma planes_wf_nodes db nodes :
  planes_wf db -> (forall n, is_Some (db_nodes db !! n) -> is_Some (nodes !! n)) -> planes_wf (with_nodes db nodes).
Proof.
  intros [H1 H2] Hn. split; [exact H1|]. intros n p Hp. apply H2 in Hp as (Hp & Hs). split; [done|]. by apply Hn.
Qed.

Lemma planes_wf_nodeRow db db' (r : Error + gmap string Node) :
  planes_wf db -> result_map (with_nodes db) r = inr db' ->
  (forall nodes, r = inr nodes -> forall n, is_Some (db_nodes db !! n) -> is_Some (nodes !! n)) -> planes_wf db'.
Proof. intros Hwf H Hk. destruct r as [e|nodes]; [done|]. injection H as <-. apply planes_wf_nodes; eauto. Qed.

Lemma insert_keeps {A} (tbl : gmap string A) k a n : is_Some (tbl !! n) -> is_Some (<[k := a]> tbl !! n).
Proof. intros H. destruct (decide (k = n)) as [->|Hne]; [rewrite lookup_insert_eq; eauto|by rewrite lookup_insert_ne]. Qed.
#[local] Hint Resolve insert_keeps : purser.

Lemma maintains_CreateNode n : maintains planes_wf (CreateNode n).
Proof.
  unfold CreateNode. maintains_steps. intros H. eapply planes_wf_nodeRow; [done|exact H|]. unfold insertRow.
  intros nodes Hn. case_match; [done|]. injection Hn as <-. auto with purser.
Qed.

Lemma maintains_UpdateNode n : maintains planes_wf (UpdateNode n).
Proof.
  unfold UpdateNode. maintains_steps. intros H. eapply planes_wf_nodeRow; [done|exact H|]. unfold updateRow.
  intros nodes Hn. case_match; [|done]. injection Hn as <-. auto with purser.
Qed.

Lemma maintains_DeleteNode id : maintains planes_wf (DeleteNode id).
Proof.
  unfold DeleteNode. maintains_steps. unfold deleteRow. case_match; [|done]. intros [= <-]. destruct Hdb as [H1 H2].
  split; [exact H1|]. cbn. intros x p Hp. apply lookup_delete_Some in Hp as (Hne & Hp). rewrite lookup_delete_ne by done.
  by apply H2.
Qed.

Lemma maintains_Assign nodeID dpID : maintains planes_wf (AssignNodeToDataPlane nodeID dpID).
Proof.
  unfold AssignNodeToDataPlane. maintains_steps. unfold updateRow. destruct (db_nodes db !! nodeID) as [row|] eqn:Hr; [|done].
  intros [= <-]. destruct Hdb as [H1 H2]. split; [exact H1|]. cbn. intros n p.
  destruct (String.eqb_spec dpID "") as [->|Hd].
  - intros Hp. apply lookup_delete_Some in Hp as (Hne & Hp). rewrite lookup_insert_ne by done. by apply H2.
  - destruct (decide (nodeID = n)) as [<-|Hne]; [rewrite !lookup_insert_eq; intros [= <-]; eauto|].
    rewrite !lookup_insert_ne by done. apply H2.
Qed.

Lemma maintains_snapshotTick : maintains planes_wf snapshotTick.
Proof.
  unfold snapshotTick, ListDataPlanes. apply maintains_bind; [maintains_steps|]. intros []; [apply maintains_ret|].
  apply maintains_runAll. intros dp. case_match; auto with purser.
Qed.

Lemma maintains_UpdateDataPlane dp : maintains planes_wf (UpdateDataPlane dp).
Proof. unfold UpdateDataPlane. maintains_steps. Qed.

Lemma maintains_Heartbeat hb : maintains planes_wf (RecordDataPlaneHeartbeat hb).
Proof. unfold RecordDataPlaneHeartbeat. maintains_steps. Qed.

Lemma maintains_DeleteDataPlane id : maintains planes_wf (DeleteDataPlane id).
Proof.
  unfold DeleteDataPlane. maintains_steps. unfold deleteRow. case_match; [|done]. intros [= <-].
  apply planes_wf_rows; [done|]. intros i dp Hi. apply lookup_delete_Some in Hi as (_ & Hi). by apply (wf_plane_id db).
Qed.
#[local] Hint Resolve maintains_UpdateDataPlane maintains_Heartbeat maintains_DeleteDataPlane
  maintains_CreateDataPlane maintains_CreateNode maintains_UpdateNode maintains_DeleteNode
  maintains_Assign maintains_snapshotTick : purser.

(** Whatever sequence of operations runs on data planes and on nodes, and whatever the
    database answers, every data plane is stored under its own identifier and only nodes
    that exist are assigned to a data plane. That the data plane still exists is not
    kept: see [deleted_plane_keeps_nodes]. *)
Theorem planes_integrity (ops : list PlaneOp) (w : World) :
  planes_wf (w_db w) -> planes_wf (w_db (snd (runAll runPlane ops w))).
Proof.
  apply maintains_runAll. intros []; cbn [runPlane]; auto with purser.
Qed.

(** ** Join tokens *)

Lemma firstRow_only {A} (P : A -> bool) l a :
  a ∈ l -> P a = true -> (forall b, b ∈ l -> P b = true -> b = a) -> firstRow P l = inr a.
Proof.
  unfold firstRow. intros Ha Hp Hu. destruct (List.find P l) as [b|] eqn:Hf.
  - apply find_some in Hf as (Hb & Hb'). f_equal. apply Hu; [by apply list_elem_of_In|done].
  - eapply find_none in Hf; [|by apply list_elem_of_In]. congruence.
Qed.

(** The token of a new data plane is accepted as that data plane's, if its hash is no
    other row's. *)
Theorem join_token_admits `{L : !EnvLaws E} (dp row : DataPlane) (tok : string) (w w1 w2 : World) r :
  HealthyDB E ->
  CreateDataPlane dp w = (inr (tok, row), w1) ->
  (forall id x, dataplanes (w_db w) !! id = Some x -> DPJoinTokenHash x ≠ sha256HexOf tok) ->
  ValidateDataPlaneToken tok w1 = (r, w2) ->
  r = inr (scanDataPlane row) /\ dataplanes (w_db w1) !! DPID row = Some row.
Proof.
  intros Hh H Hfresh Hv. unfold CreateDataPlane, generateJoinToken in H. run_step H. apply nowUTC_spec in Hrun as (D1 & _).
  run_step H. assert (D2 : w_db w3 = w_db w0).
  { destruct (DPID dp =? "")%string; [|by injection Hrun as <- <-]. run_step Hrun. injection Hrun0 as <- <-. by injection Hrun as <- <-. }
  clear Hrun. run_step H. run_step Hrun. injection Hrun0 as <- <-. injection Hrun as <- <-. run_step H.
  apply exec_spec in Hrun as (_ & Hrun). destruct r2 as [e|]; [done|]. cbn in Hrun. injection H as <- <- <-.
  unfold insertRow in Hrun. rewrite D2, D1 in Hrun. case_match; [done|]. injection Hrun as Hrun. split.
  - unfold ValidateDataPlaneToken in Hv. run_step Hv. injection Hrun0 as <- <-. eapply query_healthy in Hv; [|done].
    subst r. cbn [w_db]. rewrite <- Hrun. cbn.
    rewrite (firstRow_only _ _ (mkDataPlane r1 (DPName dp) (DPDescription dp) (orDefault (DPTier dp) "production")
      (DPGatewayURL dp) (orDefault (DPStatus dp) "registering") (sha256HexOf ("dp_" +:+ env_rand (w_tick w3)))
      (DPConfigSnapshot dp) None r0 r0)); [done| |apply String.eqb_refl|].
    + rewrite env_order_perm. apply elem_of_rows. exists r1. by rewrite lookup_insert_eq.
    + intros b Hb Hp%String.eqb_eq. rewrite env_order_perm in Hb. apply elem_of_rows in Hb as (k & Hk).
      destruct (decide (r1 = k)) as [<-|Hne]; [rewrite lookup_insert_eq in Hk; congruence|].
      rewrite lookup_insert_ne in Hk by done. exfalso. by eapply Hfresh.
  - rewrite <- Hrun. cbn. by rewrite lookup_insert_eq.
Qed.
End Integrity.

(** ** A concrete fleet *)

#[export] Instance RouteEntry_eq_dec : EqDecision RouteEntry.
Proof. solve_decision. Defined.

#[export] Instance AuthEntry_eq_dec : EqDecision AuthEntry.
Proof. solve_decision. Defined.

#[export] Instance Value_eq_dec : EqDecision Value.
Proof. solve_decision. Defined.

#[export] Program Instance RouteEntry_countable : Countable RouteEntry :=
  inj_countable' (fun r => (RE_Deployment r, RE_State r, RE_Endpoint r, RE_Quantization r))
    (fun '(a, b, c, d) => mkRouteEntry a b c d) _.
Next Obligation. by intros []. Qed.

#[export] Program Instance AuthEntry_countable : Countable AuthEntry :=
  inj_countable' (fun a => (AU_Role a, AU_Tenant a, AU_Quota a)) (fun '(a, b, c) => mkAuthEntry a b c) _.
Next Obligation. by intros []. Qed.

#[export] Program Instance Value_countable : Countable Value :=
  inj_countable' (fun v => match v with VRoute r => inl (inl r) | VAuth a => inl (inr a) | VJSON s => inr s end)
    (fun x => match x with inl (inl r) => VRoute r | inl (inr a) => VAuth a | inr s => VJSON s end) _.
Next Obligation. by intros []. Qed.

#[export] Instance Snapshot_eq_dec : EqDecision DataPlaneConfigSnapshot.
Proof. solve_decision. Defined.

#[export] Program Instance Snapshot_countable : Countable DataPlaneConfigSnapshot :=
  inj_countable' (fun s => (SN_RoutingTable s, SN_AuthBundle s, SN_PolicyBundle s, SN_GeneratedAt s))
    (fun '(a, b, c, d) => mkSnapshot a b c d) _.
Next Obligation. by intros []. Qed.

(** Some codec. *)
Definition digitJSON : SnapshotJSON := {|
  marshalSnapshot s := Some (String "#" (toText s));
  unmarshalSnapshot text := match text with String _ r => ofText r | EmptyString => None end;
  isObject _ := true |}.

#[export] Instance digitJSON_laws : SnapshotLaws digitJSON.
Proof. split. intros s _. eexists. split; [reflexivity|]. split; [done|]. split; [done|]. cbn. by rewrite ofText_toText. Qed.

Definition exPlane (id : string) : DataPlane := mkDataPlane id id "" "production" "" "active" "t" "{}" None 0 0.
Definition exRunningOn (id model node : string) (at_ : Time) : Deployment :=
  mkDeployment id model "" StateActive (Some (mkDetail model "Q4" node ("http://" +:+ node) [] "" "")) at_ at_.
Definition exPlaneDB : Database :=
  with_deployments
    (with_nodes
       (with_keys (with_plane_tables emptyDatabase
          (mkPlaneTables {["dp1" := exPlane "dp1"; "dp2" := exPlane "dp2"]} {["n1" := "dp1"; "n2" := "dp2"]} ∅)%string)
          {["k1" := exKeyRow "k1" "h1" "ml"]}%string)
       {["n1" := Platform.exNode "n1"; "n2" := Platform.exNode "n2"]}%string)
    {["d1" := exRunningOn "d1" "llama" "n1" 0; "d2" := exRunningOn "d2" "llama" "n2" 0; "d3" := exRunningOn "d3" "phi" "n2" 0]}%string.
Definition exPlanes : World := mkWorld 0 exPlaneDB ∅ [].

Lemma exPlaneDB_wf : cred_wf exPlaneDB.
Proof.
  split; unfold keys, sessions, accounts; cbn; intros *; rewrite ?lookup_empty; [| |done..].
  - intros H. by apply lookup_singleton_Some in H as [<- <-].
  - intros Ha Hb _. apply lookup_singleton_Some in Ha as [<- _]. by apply lookup_singleton_Some in Hb as [<- _].
Qed.

Definition exRefresh : Answer (string * Time) * World :=
  handleRefreshDataPlaneConfig (E := exEnv None) (J := digitJSON) "dp1" exPlanes.
Definition exPull : Answer DataPlaneConfigSnapshot * World :=
  handleGetDataPlaneConfig (E := exEnv None) (J := digitJSON) "dp1" (snd exRefresh).

Lemma exPlanes_hyps :
  is_Some (dataplanes (w_db exPlanes) !! "dp1"%string) /\
  jsonRows (w_db exPlanes) /\
  servedBy exPlaneDB "dp1" (exRunningOn "d1" "llama" "n1" 0).
Proof.
  split; [exists (exPlane "dp1"); vm_compute; reflexivity|]. split.
  - split_and!.
    + intros id d Hd _. cbn in Hd. apply lookup_insert_Some in Hd as [(_ & <-)|(_ & Hd)]; [repeat constructor|].
      apply lookup_insert_Some in Hd as [(_ & <-)|(_ & Hd)]; [repeat constructor|].
      apply lookup_singleton_Some in Hd as (_ & <-). repeat constructor.
    + intros id k Hk _. unfold keys in Hk. cbn in Hk. apply lookup_singleton_Some in Hk as [<- <-]. cbn. split; [lia|]. repeat constructor.
    + intros id p Hp. unfold policies in Hp. cbn in Hp. by rewrite lookup_empty in Hp.
  - split; [reflexivity|]. exists "n1"%string, (Platform.exNode "n1"). split_and!; vm_compute; reflexivity.
Qed.

Lemma snapshot_delivered_witness :
  exists s, fst exPull = Answered 200 s /\ snapshotOf exPlaneDB "dp1" s /\
  servedBy exPlaneDB "dp1" (exRunningOn "d1" "llama" "n1" 0).
Proof.
  destruct exPlanes_hyps as (Hd & Hq & Hserved).
  unfold exPull, exRefresh.
  pose proof (snapshot_delivered (E := exEnv None) (J := digitJSON) "dp1" exPlanes _ _ _ _ (exEnv_db None) exPlaneDB_wf Hd Hq ltac:(vm_compute; split; congruence)
    (surjective_pairing (handleRefreshDataPlaneConfig (E := exEnv None) (J := digitJSON) "dp1" exPlanes))
    (surjective_pairing (handleGetDataPlaneConfig (E := exEnv None) (J := digitJSON) "dp1"
       (snd (handleRefreshDataPlaneConfig (E := exEnv None) (J := digitJSON) "dp1" exPlanes))))) as H.
  destruct H as (_ & s & Hs & Hsnap & _). exists s. split; [exact Hs|]. split; [exact Hsnap|exact Hserved].
Defined.

(** Deleting a data plane leaves its nodes assigned to it: they belong to no data plane
    that exists, and are not listed as unassigned either. *)
Example deleted_plane_keeps_nodes :
  let '(a, w) := handleDeleteDataPlane (E := exEnv None) (C := toyCrypto) exAdmin "dp1" exPlanes in
  a = Answered 204 () /\ dataplanes (w_db w) !! "dp1"%string = None /\
  lt_nodePlane (planes (w_db w)) !! "n1"%string = Some "dp1"%string /\
  match fst (ListNodesByDataPlane (E := exEnv None) "" w) with inr nodes => nodes = [] | inl _ => False end.
Proof. vm_compute. done. Qed.

(** The snapshot an operator puts is replaced at the next tick of the pusher. *)
Example operator_snapshot_replaced :
  let put := mkSnapshot {["canary" := VJSON "{}"]}%string ∅ [] 0 in
  let '(a, w) := handlePutDataPlaneConfig (E := exEnv None) (C := toyCrypto) (J := digitJSON) exAdmin "dp1" (Decoded put) exPlanes in
  let '(_, w) := snapshotTick (E := exEnv None) (J := digitJSON) w in
  a = Answered 200 put /\
  match fst (handleGetDataPlaneConfig (E := exEnv None) (J := digitJSON) "dp1" w) with
  | Answered 200 s => SN_RoutingTable s !! "canary"%string = None /\ is_Some (SN_RoutingTable s !! "llama"%string)
  | _ => False
  end.
Proof. vm_compute. split; [done|]. split; [done|by eexists]. Qed.

(** A node is unassigned through the path of any data plane, whichever it is in. *)
Example unassigned_through_another_plane :
  let '(a, w) := handleUnassignNodeFromDataPlane (E := exEnv None) (C := toyCrypto) exAdmin "dp1" "n2" exPlanes in
  a = Answered 204 () /\ lt_nodePlane (planes exPlaneDB) !! "n2"%string = Some "dp2"%string /\
  lt_nodePlane (planes (w_db w)) !! "n2"%string = None.
Proof. vm_compute. done. Qed.

(** Of two active deployments of a model on a data plane one is routed. *)
Example one_route_per_model :
  routingTable {["n1"; "n2"]}%string [exRunningOn "d1" "llama" "n1" 0; exRunningOn "d2" "llama" "n2" 0] =
  {["llama" := routeEntry (exRunningOn "d2" "llama" "n2" 0)]}%string.
Proof. vm_compute. done. Qed.

(** The keys of a bundle carry no expiry: an expired key is like the others. *)
Example expired_key_bundled :
  let k := mkAPIKeyRow "k" "k" "h" "ml" "admin" 0 true zeroTime zeroTime (Some 5) None "" None [] "system" in
  authBundle (map scanAPIKey [k]) !! "h"%string = Some (VAuth (mkAuthEntry "admin" "ml" 0)).
Proof. vm_compute. done. Qed.
