(* ===== verification/Policies.v ===== *)
(** * Policies: the governance rules and the gate of the deploy route

    [policy/engine.go], [registry/policy_sqlite.go], the handlers of
    [server/policy_handler.go], and [reloadPolicies] and [policyMiddleware] of
    [server/server.go].

    Open Policy Agent is a parameter: how a module compiles, and what a compiled query
    answers, which may differ from one evaluation to the next. The engine in use is a
    field of the server; the handlers take it and return the one that replaces it. *)
From S2P Require Import Prelude Float64 Cluster Registry Orchestrator Permissions Access Timestamp Statements Platform Planning Credentials Identity Operations License Tenancy DataPlane.
Import Row.
Open Scope Z_scope.

(** ** The engine ([policy/engine.go]) *)

Record EvalRequest : Type := mkEvalRequest {
  ER_Action : string; ER_ModelID : string; ER_TenantID : string; ER_KeyHash : string; ER_Claims : gmap string string }.

Record Result : Type := mkResult { RS_Allowed : bool; RS_Reason : string }.

Record PolicySource : Type := mkSource { PS_Name : string; PS_Rego : string }.

(** The value of an expression, compared with [true]. *)
Inductive RegoValue : Type := RBool (b : bool) | ROther.

(** [rego.New(Query("data.purser.allow"), Module(name, source)).PrepareForEval] and
    [PreparedEvalQuery.Eval]: of each result the values of its expressions. *)
Class Rego : Type := {
  Query : Type;
  PrepareForEval : string -> string -> Error + Query;
  Eval : nat -> Query -> EvalRequest -> Error + list (list RegoValue) }.

Section Engine.
Context `{E : Env} `{G : Rego}.

Record compiledPolicy : Type := mkCompiled { cp_name : string; cp_query : Query }.

Definition Engine : Type := list compiledPolicy.

Fixpoint LoadPolicies (sources : list PolicySource) : Error + Engine :=
  match sources with
  | [] => inr []
  | src :: rest =>
      match PrepareForEval (PS_Name src +:+ ".rego") (PS_Rego src) with
      | inl e => inl (Wrap ("policy: compiling " +:+ PS_Name src) e)
      | inr q => result_map (cons (mkCompiled (PS_Name src) q)) (LoadPolicies rest)
      end
  end.

Definition granted (results : list (list RegoValue)) : bool :=
  match results with (RBool true :: _) :: _ => true | _ => false end.

Definition denied (name : string) : Result := mkResult false ("denied by policy " +:+ name).

Fixpoint Allow (e : Engine) (req : EvalRequest) : M (Error + Result) :=
  match e with
  | [] => cret (inr (mkResult true ""))
  | p :: rest =>
      let* t := next in
      match Eval t (cp_query p) req with
      | inl err => cret (inl (Wrap ("policy: evaluating " +:+ cp_name p) err))
      | inr results => if granted results then Allow rest req else cret (inr (denied (cp_name p)))
      end
  end.
End Engine.

(** ** The registry ([registry/policy_sqlite.go]) *)

Definition with_policies (db : Database) (l : gmap string Policy) : Database :=
  with_plane_tables db (mkPlaneTables (lt_planes (planes db)) (lt_nodePlane (planes db)) l).

Section Registry.
Context `{E : Env}.

(** The next value of the table's [AUTOINCREMENT] sequence. *)
Variable sequence : nat -> gmap string Policy -> Z.

Definition upsertedPolicy (id : Z) (p : Policy) (now : Time) (old : option Policy) : Policy :=
  match old with
  | Some row => mkPolicy (PYID row) (PYName row) (PYRego p) (PYEnabled p) (PYCreatedAt row) now
  | None => mkPolicy id (PYName p) (PYRego p) (PYEnabled p) now now
  end.

(** The row is read back after it was written. *)
Definition UpsertPolicy (p : Policy) : M (Error + Policy) :=
  let* now := nowUTC in
  let* n := next in
  let what := ("registry: upsert policy " +:+ PYName p)%string in
  let* err := exec what (fun db =>
    inr (with_policies db (<[PYName p := upsertedPolicy (sequence n (policies db)) p now (policies db !! PYName p)]> (policies db)))) in
  match err with
  | Some e => cret (inl e)
  | None => query (what +:+ ": re-read") (fun db => getRow (policies db) (PYName p))
  end.

Definition GetPolicy (name : string) : M (Error + Policy) :=
  query ("registry: get policy " +:+ name) (fun db => getRow (policies db) name).

Definition DeletePolicy (name : string) : M (option Error) :=
  exec ("registry: delete policy " +:+ name) (fun db => result_map (with_policies db) (deleteRow (policies db) name)).
End Registry.

(** ** The server *)

Record upsertPolicyBody : Type := mkUpsertPolicyBody { UB_Rego : string; UB_Enabled : option bool }.

Section Server.
Context `{E : Env} `{C : Crypto} `{G : Rego}.
Variable sequence : nat -> gmap string Policy -> Z.

(** Whether the server has a registry, and its licence. *)
Variable hasReg : bool.
Variable lic : option License.

Definition sourcesOf (rows : list Policy) : list PolicySource :=
  map (fun p => mkSource (PYName p) (PYRego p)) (List.filter PYEnabled rows).

(** The engine that a reload compiles, if it does: what happens before the lock. *)
Definition reloadFetch : M (option Engine) :=
  if negb hasReg then cret None
  else
    let* rows := ListPolicies in
    cret (match rows with
          | inl _ => None
          | inr rows => match LoadPolicies (sourcesOf rows) with inl _ => None | inr eng => Some eng end
          end).

(** The assignment under the lock. *)
Definition swapEngine (fetched eng : option Engine) : option Engine := match fetched with Some e => Some e | None => eng end.

Definition reloadPolicies (eng : option Engine) : M (option Engine) :=
  let* fetched := reloadFetch in cret (swapEngine fetched eng).

(** [next.ServeHTTP] is [k]. *)
Definition policyMiddleware {A} (eng : option Engine) (action pathID : string) (r : Request) (k : M (Answer A)) : M (Answer A) :=
  let* now := nowUTC in
  if negb (licenseAllows lic now featurePolicyEngine) then k
  else
    match eng with
    | None => k
    | Some e =>
        let tok := bearerToken r in
        let* res := Allow e (mkEvalRequest action pathID "" (if (tok =? "")%string then "" else sha256HexOf tok) ∅) in
        match res with
        | inl _ => cret (Refused 500 "policy_eval_failed")
        | inr result => if RS_Allowed result then k else cret (Refused 403 "policy_denied")
        end
    end.

(** [POST /api/v1/models/{id}/deploy]. *)
Definition deployRoute `{J : ProtoJSON} (eng : option Engine) (s : Control) (c : Caller) (modelID : string) (body : Body deployRequest)
    : M (Answer DeployReply) :=
  policyMiddleware eng "deploy" modelID (ca_req c) (handleDeployModel s (ca_ctx c) (ca_req c) modelID body).

(** ** The handlers ([server/policy_handler.go]) *)

Definition policyGate {A} (k : M (Answer A)) : M (Answer A) :=
  let* now := nowUTC in
  if negb (licenseAllows lic now featurePolicyEngine) then cret (Refused 402 "license_required") else k.

Definition handleListPolicies : M (Answer (list Policy)) :=
  policyGate (let* res := ListPolicies in
              cret (match res with inl _ => Refused 500 "list_policies_failed" | inr rows => Answered 200 rows end)).

(** The source is compiled on its own before it is stored. The engine of the second
    component is the one in use afterwards. *)
Definition handleUpsertPolicy (c : Caller) (name : string) (body : Body upsertPolicyBody) (eng : option Engine)
    : M (Answer Policy * option Engine) :=
  let* now := nowUTC in
  if negb (licenseAllows lic now featurePolicyEngine) then cret (Refused 402 "license_required", eng)
  else if (name =? "")%string then cret (Refused 400 "bad_request", eng)
  else match body with
       | NoBody | BadJSON => cret (Refused 400 "bad_request", eng)
       | Decoded b =>
           if (UB_Rego b =? "")%string then cret (Refused 400 "bad_request", eng)
           else match LoadPolicies [mkSource name (UB_Rego b)] with
                | inl _ => cret (Refused 400 "invalid_rego", eng)
                | inr _ =>
                    let* res := UpsertPolicy sequence (mkPolicy 0 name (UB_Rego b) (default true (UB_Enabled b)) zeroTime zeroTime) in
                    match res with
                    | inl _ => cret (Refused 500 "upsert_policy_failed", eng)
                    | inr p =>
                        let* eng := reloadPolicies eng in
                        audited c "policy.upserted" name ;;; cret (Answered 200 p, eng)
                    end
                end
       end.

Definition handleDeletePolicy (c : Caller) (name : string) (eng : option Engine) : M (Answer unit * option Engine) :=
  let* now := nowUTC in
  if negb (licenseAllows lic now featurePolicyEngine) then cret (Refused 402 "license_required", eng)
  else if (name =? "")%string then cret (Refused 400 "bad_request", eng)
  else
    let* err := DeletePolicy name in
    match err with
    | Some e => cret (failure "delete_policy_failed" e, eng)
    | None =>
        let* eng := reloadPolicies eng in
        audited c "policy.deleted" name ;;; cret (Answered 204 (), eng)
    end.

Definition handleEvalPolicy (body : Body EvalRequest) (eng : option Engine) : M (Answer Result) :=
  policyGate (
    match body with
    | NoBody | BadJSON => cret (Refused 400 "bad_request")
    | Decoded req =>
        match eng with
        | None => cret (Answered 200 (mkResult true "no policies loaded (open-by-default)"))
        | Some e =>
            let* res := Allow e req in
            cret (match res with inl _ => Refused 500 "policy_eval_failed" | inr result => Answered 200 result end)
        end
    end).
End Server.

(** ** What the engine decides *)

Section Decides.
Context `{E : Env} `{G : Rego}.

(** The evaluation number [t] of the query answers [true]. *)
Definition grants_at (t : nat) (p : compiledPolicy) (req : EvalRequest) : Prop :=
  exists results, Eval t (cp_query p) req = inr results /\ granted results = true.

Fixpoint grants_all (t : nat) (e : Engine) (req : EvalRequest) : Prop :=
  match e with [] => True | p :: rest => grants_at t p req /\ grants_all (S t) rest req end.

Lemma Allow_spec e req w r w' :
  Allow e req w = (r, w') ->
  w_db w' = w_db w /\ outside_same w w' /\
  (grants_all (w_tick w) e req <-> r = inr (mkResult true "")) /\
  (forall res, r = inr res -> RS_Allowed res = false -> exists p, p ∈ e /\ res = denied (cp_name p)) /\
  (forall res, r = inr res -> RS_Allowed res = true -> res = mkResult true "").
Proof.
  revert w. induction e as [|p e IH]; intros w H; cbn in H.
  { injection H as <- <-. do 2 (split; [done|]). split; [done|]. split; intros res [= <-]; done. }
  unfold cbind, next in H. cbn in H. cbn [grants_all]. unfold grants_at. destruct (Eval (w_tick w) (cp_query p) req) as [err|results].
  { injection H as <- <-. do 2 (split; [done|]). split; [|split; done]. split; [intros ((x & [=] & _) & _)|done]. }
  destruct (granted results) eqn:Hg.
  - apply IH in H as (D & O & Hall & Hno & Hyes). cbn in D, O. split; [done|]. split; [exact O|]. split.
    + rewrite <- Hall. split; [by intros [_ ?]|]. intros ?. split; [eauto|done].
    + split; [|done]. intros res Hr Hf. destruct (Hno res Hr Hf) as (q & Hq & ->). exists q. set_solver.
  - injection H as <- <-. do 2 (split; [done|]). split; [|split].
    + split; [intros ((x & [= <-] & Hx) & _); congruence|done].
    + intros res [= <-] _. exists p. set_solver.
    + by intros res [= <-].
Qed.
End Decides.

(** ** The engine follows the registry *)

Section Follows.
Context `{E : Env} `{C : Crypto} `{G : Rego}.

Definition policies_wf (db : Database) : Prop := forall name p, policies db !! name = Some p ->
  PYName p = name /\ exists q, PrepareForEval (name +:+ ".rego") (PYRego p) = inr q.

Definition enabledPolicies (db : Database) : list Policy := List.filter PYEnabled (byKey PYName (policies db)).

(** The engine holds the enabled policies, by name, each compiled from its source. *)
Definition compiles (db : Database) (e : Engine) : Prop :=
  Forall2 (fun p cp => cp_name cp = PYName p /\ PrepareForEval (PYName p +:+ ".rego") (PYRego p) = inr (cp_query cp))
    (enabledPolicies db) e.

Definition current (db : Database) (eng : option Engine) : Prop := exists e, eng = Some e /\ compiles db e.

Lemma LoadPolicies_total (ps : list Policy) :
  (forall p, p ∈ ps -> exists q, PrepareForEval (PYName p +:+ ".rego") (PYRego p) = inr q) ->
  exists e, LoadPolicies (map (fun p => mkSource (PYName p) (PYRego p)) ps) = inr e /\
    Forall2 (fun p cp => cp_name cp = PYName p /\ PrepareForEval (PYName p +:+ ".rego") (PYRego p) = inr (cp_query cp)) ps e.
Proof.
  induction ps as [|p ps IH]; intros H; [exists []; by split|].
  destruct (H p) as (q & Hq); [set_solver|]. destruct IH as (e & He & Hc); [intros x Hx; apply H; set_solver|].
  exists (mkCompiled (PYName p) q :: e). cbn [map LoadPolicies PS_Name PS_Rego]. rewrite Hq, He. split; [done|]. by constructor.
Qed.

Lemma reload_current `{Hh : !HealthyDB E} eng w r w' :
  policies_wf (w_db w) -> reloadPolicies true eng w = (r, w') -> w_db w' = w_db w /\ current (w_db w) r.
Proof.
  intros Hwf H. unfold reloadPolicies, reloadFetch, ListPolicies in H. cbn [negb] in H. run_step H. run_step Hrun.
  pose proof Hrun0 as Hq. apply query_spec in Hq as (D & _ & _). eapply query_healthy in Hrun0; [|done]. subst r1.
  injection Hrun as <- <-. injection H as <- <-. split; [done|].
  destruct (LoadPolicies_total (enabledPolicies (w_db w))) as (e & He & Hc).
  { intros p Hp. apply list_elem_of_In, filter_In in Hp as (Hp & _). apply list_elem_of_In, byKey_elem in Hp as (k & Hk).
    apply Hwf in Hk as (<- & Hk). done. }
  unfold sourcesOf. fold (enabledPolicies (w_db w)). rewrite He. by exists e.
Qed.

(** What a request does to the engine. *)
Inductive PolicyCall : Type :=
| CallUpsert (c : Caller) (name : string) (body : Body upsertPolicyBody)
| CallDelete (c : Caller) (name : string)
| CallEval (body : Body EvalRequest)
| CallList.

Variable sequence : nat -> gmap string Policy -> Z.
Variable lic : option License.

Definition performPolicy (call : PolicyCall) (eng : option Engine) : M (option Engine) :=
  match call with
  | CallUpsert c name body => let* (_, eng) := handleUpsertPolicy sequence true lic c name body eng in cret eng
  | CallDelete c name => let* (_, eng) := handleDeletePolicy true lic c name eng in cret eng
  | CallEval body => let* _ := handleEvalPolicy lic body eng in cret eng
  | CallList => let* _ := handleListPolicies lic in cret eng
  end.

Fixpoint performPolicies (calls : list PolicyCall) (eng : option Engine) : M (option Engine) :=
  match calls with [] => cret eng | call :: calls => let* eng := performPolicy call eng in performPolicies calls eng end.

Lemma audited_policies c action target w r w' :
  audited c action target w = (r, w') -> policies (w_db w') = policies (w_db w).
Proof.
  unfold audited. intros (e & H)%ignore_run. by apply AppendAudit_db in H as (l & ->).
Qed.

Definition follows (db : Database) (eng : option Engine) : Prop := policies_wf db /\ current db eng.

Lemma follows_same db db' eng : policies db' = policies db -> follows db eng -> follows db' eng.
Proof. unfold follows, policies_wf, current, compiles, enabledPolicies. by intros ->. Qed.

Lemma policies_wf_insert db name p :
  policies_wf db -> PYName p = name -> (exists q, PrepareForEval (name +:+ ".rego") (PYRego p) = inr q) ->
  policies_wf (with_policies db (<[name := p]> (policies db))).
Proof.
  intros Hwf Hn Hq x y. cbn. destruct (decide (name = x)) as [<-|Hne].
  - rewrite lookup_insert_eq. intros [= <-]. done.
  - rewrite lookup_insert_ne by done. apply Hwf.
Qed.

(** A reload and the entry of the audit log that follows it. *)
Lemma reload_audited `{Hh : !HealthyDB E} {A} c action target (a : A) eng w r w' :
  policies_wf (w_db w) ->
  (let* eng := reloadPolicies true eng in audited c action target ;;; cret (a, eng)) w = (r, w') ->
  follows (w_db w') (snd r).
Proof.
  intros Hwf H. run_step H. apply reload_current in Hrun as (D & Hc); [|done]. run_step H. apply audited_policies in Hrun.
  injection H as <- <-. cbn [snd]. eapply follows_same; [exact Hrun|]. split; by rewrite D.
Qed.

Lemma upsert_follows `{Hh : !HealthyDB E} c name body eng w r w' :
  follows (w_db w) eng -> handleUpsertPolicy sequence true lic c name body eng w = (r, w') -> follows (w_db w') (snd r).
Proof.
  intros Hf H. unfold handleUpsertPolicy in H. run_step H. apply nowUTC_spec in Hrun as (D & _). rewrite <- D in Hf.
  destruct (negb _); [by injection H as <- <-|]. destruct (name =? "")%string; [by injection H as <- <-|].
  destruct body as [| |b]; [by injection H as <- <-..|]. destruct (UB_Rego b =? "")%string; [by injection H as <- <-|].
  cbn [LoadPolicies PS_Name PS_Rego] in H. destruct (PrepareForEval (name +:+ ".rego") (UB_Rego b)) as [e|q] eqn:Hq; [by injection H as <- <-|].
  cbn [result_map] in H. run_step H. unfold UpsertPolicy in Hrun. run_step Hrun. apply nowUTC_spec in Hrun0 as (D1 & _).
  run_step Hrun. injection Hrun0 as <- <-. run_step Hrun. cbn [PYName] in Hrun0.
  eapply exec_healthy in Hrun0 as (-> & D2); [|done|reflexivity]. cbn [w_db] in D2.
  apply query_answer in Hrun as (D3 & Hres). rewrite D2 in D3, Hres. cbn [PYName] in Hres.
  unfold getRow in Hres. cbn [policies planes] in Hres. destruct Hres as [->|(Hn & _)]; [|by destruct Hn].
  cbn in H. rewrite lookup_insert_eq in H. cbn in H.
  eapply reload_audited in H; [exact H|]. rewrite D3, D1. destruct Hf as (Hwf & _).
  apply policies_wf_insert; [done| |]; unfold upsertedPolicy; destruct (policies (w_db w0) !! name) as [row|] eqn:Hrow; cbn; eauto.
  by apply Hwf in Hrow as (? & _).
Qed.

Lemma delete_follows `{Hh : !HealthyDB E} c name eng w r w' :
  follows (w_db w) eng -> handleDeletePolicy true lic c name eng w = (r, w') -> follows (w_db w') (snd r).
Proof.
  intros Hf H. unfold handleDeletePolicy in H. run_step H. apply nowUTC_spec in Hrun as (D & _). rewrite <- D in Hf.
  destruct (negb _); [by injection H as <- <-|]. destruct (name =? "")%string; [by injection H as <- <-|].
  run_step H. apply exec_spec in Hrun as (_ & Hrun). destruct r1 as [e|].
  { destruct Hrun as (D1 & _). injection H as <- <-. cbn [snd]. by rewrite D1. }
  eapply reload_audited in H; [exact H|]. unfold deleteRow in Hrun. destruct (policies (w_db w0) !! name) as [row|]; [|done].
  injection Hrun as <-. intros x p Hp. cbn in Hp. apply lookup_delete_Some in Hp as (_ & Hp). by apply Hf.
Qed.

Lemma reads_follow {A} (m : M A) eng w r w' :
  (forall w a w', m w = (a, w') -> w_db w' = w_db w) -> follows (w_db w) eng ->
  (let* _ := m in cret eng) w = (r, w') -> follows (w_db w') r.
Proof. intros Hm Hf H. run_step H. apply Hm in Hrun as D. injection H as <- <-. by rewrite D. Qed.

Lemma performPolicy_follows `{Hh : !HealthyDB E} call eng w r w' :
  follows (w_db w) eng -> performPolicy call eng w = (r, w') -> follows (w_db w') r.
Proof.
  intros Hf H. destruct call as [c name body|c name|body|]; cbn in H.
  - run_step H. apply upsert_follows in Hrun; [|done]. destruct r0. by injection H as <- <-.
  - run_step H. apply delete_follows in Hrun; [|done]. destruct r0. by injection H as <- <-.
  - revert H. apply reads_follow; [|done]. clear -G. intros w a w' H. unfold handleEvalPolicy, policyGate in H. run_step H.
    apply nowUTC_spec in Hrun as (<- & _). destruct (negb _); [by injection H as <- <-|].
    destruct body as [| |req]; [by injection H as <- <-..|]. destruct eng as [e|]; [|by injection H as <- <-].
    run_step H. apply Allow_spec in Hrun as (D & _). by injection H as <- <-.
  - revert H. apply reads_follow; [|done]. clear -G. intros w a w' H. unfold handleListPolicies, policyGate, ListPolicies in H. run_step H.
    apply nowUTC_spec in Hrun as (<- & _). destruct (negb _); [by injection H as <- <-|].
    run_step H. apply query_spec in Hrun as (D & _). by injection H as <- <-.
Qed.

Lemma performPolicies_follows `{Hh : !HealthyDB E} calls eng w r w' :
  follows (w_db w) eng -> performPolicies calls eng w = (r, w') -> follows (w_db w') r.
Proof.
  revert eng w. induction calls as [|call calls IH]; intros eng w Hf H; cbn in H; [by injection H as <- <-|].
  run_step H. eapply IH; [|exact H]. by eapply performPolicy_follows.
Qed.

(** The input of the policies on a deployment. *)
Definition deployInput (c : Caller) (modelID : string) : EvalRequest :=
  let tok := bearerToken (ca_req c) in
  mkEvalRequest "deploy" modelID "" (if (tok =? "")%string then "" else sha256HexOf tok) ∅.

(** (C22) The governance gate of deployments. Start the server on a registry whose
    policies compile, let any sequence of requests create, replace, delete, list and try
    policies, with a database that answers; then, under a licence for the policy engine,
    a deployment request reaches its handler exactly when every policy that is enabled
    in the registry at that moment, compiled from its stored source, answers true. When
    one does not, or fails, the request is refused and neither the registry nor the
    gateway nor an agent sees anything of it. *)
Theorem deploy_follows_policies `{J : ProtoJSON} (s : Control) (calls : list PolicyCall) (c : Caller) (modelID : string)
    (body : Body deployRequest) (w0 w1 w2 w3 : World) eng0 eng a :
  HealthyDB E -> policies_wf (w_db w0) ->
  reloadPolicies true None w0 = (eng0, w1) -> performPolicies calls eng0 w1 = (eng, w2) ->
  licenseAllows lic (env_now (w_tick w2)) featurePolicyEngine = true ->
  deployRoute lic eng s c modelID body w2 = (a, w3) ->
  exists e, compiles (w_db w2) e /\
  (grants_all (S (w_tick w2)) e (deployInput c modelID) ->
     exists w, w_db w = w_db w2 /\ outside_same w2 w /\
       handleDeployModel s (ca_ctx c) (ca_req c) modelID body w = (a, w3)) /\
  (~ grants_all (S (w_tick w2)) e (deployInput c modelID) ->
     (a = Refused 403 "policy_denied" \/ a = Refused 500 "policy_eval_failed") /\
     w_db w3 = w_db w2 /\ outside_same w2 w3).
Proof.
  intros Hh Hwf Hboot Hcalls Hlic H. apply reload_current in Hboot as (D0 & Hc); [|done].
  apply performPolicies_follows in Hcalls as (_ & e & -> & He); [|rewrite D0; by split].
  exists e. split; [done|]. unfold deployRoute, policyMiddleware in H. run_step H. unfold nowUTC in Hrun. run_step Hrun.
  injection Hrun0 as <- <-. injection Hrun as <- <-. rewrite Hlic in H. cbn [negb] in H. run_step H.
  fold (deployInput c modelID) in Hrun. apply Allow_spec in Hrun as (D & O & Hall & Hno & Hyes). cbn [w_tick] in Hall.
  split.
  - intros Hg. apply Hall in Hg as ->. cbn [RS_Allowed] in H. exists w. split; [exact D|]. split; [exact O|exact H].
  - intros Hg. destruct r as [err|res].
    + injection H as <- <-. split; [by right|]. split; [exact D|exact O].
    + destruct (RS_Allowed res) eqn:Hr; [|injection H as <- <-; split; [by left|]; split; [exact D|exact O]].
      exfalso. apply Hg, Hall. by rewrite (Hyes res eq_refl Hr).
Qed.
End Follows.

(** ** Concrete policies *)

(** Stand-ins for policies: the source is [allow], or the model it forbids; [bad] does
    not compile. *)
Definition toyRego : Rego := {|
  Query := string;
  PrepareForEval _ rego := if (rego =? "bad")%string then inl (ErrorString "rego_parse_error") else inr rego;
  Eval _ q req := inr [[RBool ((q =? "allow")%string || negb (q =? ER_ModelID req)%string)]] |}.

Definition exPolicyLicense : option License := Some (mkLicense "Acme" ["policy_engine"%string] zeroTime zeroTime).

Definition exPolicyCalls : list PolicyCall :=
  [CallUpsert exAdmin "no-llama" (Decoded (mkUpsertPolicyBody "llama" None));
   CallUpsert exAdmin "broken" (Decoded (mkUpsertPolicyBody "bad" None));
   CallUpsert exAdmin "no-phi" (Decoded (mkUpsertPolicyBody "phi" (Some false)))].

Definition exGoverned : option (Engine (G := toyRego)) * World :=
  performPolicies (E := exEnv None) (C := toyCrypto) (G := toyRego) (fun n _ => Z.of_nat n) exPolicyLicense exPolicyCalls
    (fst (reloadPolicies (E := exEnv None) (G := toyRego) true None emptyWorld))
    (snd (reloadPolicies (E := exEnv None) (G := toyRego) true None emptyWorld)).

Definition exNoDeployer : Control := mkControl None None None false.

Definition exDeployOf (model : string) : Answer DeployReply * World :=
  deployRoute (E := exEnv None) (C := toyCrypto) (G := toyRego) (J := toyJSON) exPolicyLicense (fst exGoverned) exNoDeployer exAdmin model NoBody
    (snd exGoverned).

(** The policy that compiles and is enabled is the engine; the model it forbids is
    refused, the others reach the handler. *)
Example governed :
  match fst exGoverned with Some e => map cp_name e = ["no-llama"%string] | None => False end /\
  fst (exDeployOf "llama") = Refused 403 "policy_denied" /\ fst (exDeployOf "phi") = Refused 501 "no_deployer".
Proof. vm_compute. done. Qed.

Lemma exGoverned_refuses e : compiles (G := toyRego) (w_db (snd exGoverned)) e ->
  ~ grants_all (G := toyRego) (S (w_tick (snd exGoverned))) e (deployInput (C := toyCrypto) exAdmin "llama").
Proof.
  intros Hc. assert (Hdb : exists p, enabledPolicies (w_db (snd exGoverned)) = [p] /\ PYRego p = "llama"%string)
    by (eexists; vm_compute; split; reflexivity).
  destruct Hdb as (p & Hp & Hr). unfold compiles in Hc. rewrite Hp in Hc. inversion Hc as [|? cp ? rest (_ & Hq) Hrest]; subst.
  inversion Hrest; subst. rewrite Hr in Hq. injection Hq as Hq. cbn [grants_all]. unfold grants_at. cbn [Eval toyRego].
  rewrite <- Hq. intros ((x & [= <-] & Hx) & _). by vm_compute in Hx.
Qed.

Lemma deploy_follows_policies_witness :
  fst (exDeployOf "llama") = Refused 403 "policy_denied" /\ w_db (snd (exDeployOf "llama")) = w_db (snd exGoverned).
Proof.
  assert (Hwf : policies_wf (G := toyRego) (w_db emptyWorld)) by (intros name p Hp; exfalso; vm_compute in Hp; discriminate).
  assert (Hl : licenseAllows exPolicyLicense (env_now (Env := exEnv None) (w_tick (snd exGoverned))) featurePolicyEngine = true)
    by (vm_compute; reflexivity).
  destruct (deploy_follows_policies (E := exEnv None) (C := toyCrypto) (G := toyRego) (J := toyJSON) (fun n _ => Z.of_nat n)
    exPolicyLicense exNoDeployer exPolicyCalls exAdmin "llama" NoBody emptyWorld
    (snd (reloadPolicies (E := exEnv None) (G := toyRego) true None emptyWorld)) (snd exGoverned) (snd (exDeployOf "llama"))
    (fst (reloadPolicies (E := exEnv None) (G := toyRego) true None emptyWorld)) (fst exGoverned) (fst (exDeployOf "llama"))
    (exEnv_db None) Hwf (surjective_pairing _) (surjective_pairing _) Hl (surjective_pairing _))
    as (e & He & _ & Hno).
  destruct (Hno (exGoverned_refuses e He)) as (_ & Hdb & _). split; [vm_compute; reflexivity|exact Hdb].
Defined.

(** *** Where the engine does not follow *)

(** The database fails at the calls of [bad]. *)
Definition faultyAt (bad : nat -> bool) : Env := {|
  env_start _ _ _ := inr []; env_stop _ _ _ := None; env_http _ := Reply 200; env_done _ := None;
  env_db t := if bad t then Some (ErrIO "disk") else None; env_now t := Z.of_nat t; env_rand _ := "0a"; env_order _ _ l := l; env_path := plainPath;
  env_sha256 s := s |}.

(** A policy is deleted, the reload that follows cannot list the others: the request is
    answered 204 and the deleted policy is still enforced. *)
Example deleted_policy_enforced :
  let w := snd exGoverned in
  let '((a, eng), w') := handleDeletePolicy (E := faultyAt (Nat.eqb (w_tick w + 2))) (C := toyCrypto) (G := toyRego) true exPolicyLicense
                           exAdmin "no-llama" (fst exGoverned) w in
  a = Answered 204 () /\ policies (w_db w') !! "no-llama"%string = None /\
  fst (deployRoute (E := exEnv None) (C := toyCrypto) (G := toyRego) (J := toyJSON) exPolicyLicense eng exNoDeployer exAdmin "llama" NoBody w')
    = Refused 403 "policy_denied".
Proof. vm_compute. done. Qed.

(** Two reloads at once: the first lists the policies, the second deletes one, reloads
    and swaps, then the first swaps. The deleted policy is enforced until the next
    reload. *)
Example reload_race :
  let '(fetched, w1) := reloadFetch (E := exEnv None) (G := toyRego) true (snd exGoverned) in
  let '((a, eng), w2) := handleDeletePolicy (E := exEnv None) (C := toyCrypto) (G := toyRego) true exPolicyLicense exAdmin "no-llama"
                           (fst exGoverned) w1 in
  let eng := swapEngine fetched eng in
  a = Answered 204 () /\ policies (w_db w2) !! "no-llama"%string = None /\
  fst (deployRoute (E := exEnv None) (C := toyCrypto) (G := toyRego) (J := toyJSON) exPolicyLicense eng exNoDeployer exAdmin "llama" NoBody w2)
    = Refused 403 "policy_denied".
Proof. vm_compute. done. Qed.

(** The policies of a deployment see neither the tenant nor the claims of the caller. *)
Example deployment_tenant_unseen `{C : Crypto} c model :
  ER_TenantID (deployInput c model) = ""%string /\ ER_Claims (deployInput c model) = ∅.
Proof. done. Qed.
