(* ===== verification/Objectives.v ===== *)
(** * Objectives: service levels per model

    The reads of [registry/slo_sqlite.go] and the report of [server/slo.go]: which share
    of a model's requests answered within the objective of the model. The objective is
    the model's own, that of the model [*], or the default. *)
From S2P Require Import Prelude Float64 Ordering Cluster Registry Orchestrator Timestamp Statements Permissions Access Platform Planning Config Credentials Identity InferenceLog Billing.
Import Row.
Open Scope Z_scope.

(** ** The registry ([registry/slo_sqlite.go]) *)

Record ModelSLOStat : Type := mkSLOStat { MS_ModelID : string; MS_RequestCount : Z; MS_CompliantCount : Z; MS_PeriodStart : Time }.

Definition objectives (db : Database) : gmap string SLOConfigRow := pt_slo (db_platform db).

(** [latency_ms > 0 AND latency_ms < ?]. *)
Definition compliant (threshold : float64) (e : InferenceEvent) : bool := measured e && fltb (IELatencyMs e) threshold.

(** The requests of the window; an empty model means all of them. *)
Definition modelRows (from until : Time) (modelID : string) (db : Database) : list InferenceEvent :=
  List.filter (fun e => inWindow from until e && ((modelID =? "")%string || (IEModelID e =? modelID)%string)) (logged db).

Definition ofModel (m : string) (e : InferenceEvent) : bool := (IEModelID e =? m)%string.

Definition sloStat (from : Time) (threshold : float64) (rows : list InferenceEvent) (m : string) : ModelSLOStat :=
  let mine := List.filter (ofModel m) rows in
  mkSLOStat m (Z.of_nat (length mine)) (Z.of_nat (length (List.filter (compliant threshold) mine))) from.

(** [GROUP BY model_id ORDER BY model_id]. *)
Definition modelsIn (rows : list InferenceEvent) : list string := go_sort String.ltb (distinct (map IEModelID rows)).

Section Reads.
Context `{E : Env}.

Definition GetSLOConfig (modelID : string) : M (Error + SLOConfigRow) :=
  query ("registry: get_slo_config " +:+ modelID) (fun db => getRow (objectives db) modelID).

Definition GetAllSLOConfigs : M (Error + list SLOConfigRow) :=
  query "registry: get_all_slo_configs" (fun db => inr (byKey SLModelID (objectives db))).

Definition GetSLOComplianceByModel (from until : Time) (modelID : string) (threshold : float64) : M (Error + list ModelSLOStat) :=
  query "registry: get_slo_compliance_by_model" (fun db =>
    let rows := modelRows from until modelID db in inr (map (sloStat from threshold rows) (modelsIn rows))).
End Reads.

(** ** The report ([server/slo.go]) *)

Definition sloMinRequests : Z := 10.

Record sloContract : Type := mkContract { SC_TTFTMs : Z; SC_TBTMs : Z; SC_TargetCompliance : float64 }.

(** The compliance of the time between tokens is never known. *)
Record sloActual : Type := mkActual { SX_TTFTCompliance : option float64; SX_RequestCount : Z; SX_PeriodStart : Time }.

Record sloModelEntry : Type := mkSLOEntry { SE_ModelID : string; SE_SLO : sloContract; SE_Actual : sloActual; SE_Status : string }.

Definition contractOf (c : SLOConfigRow) : sloContract := mkContract (SLTTFTMs c) (SLTBTMs c) (SLTargetCompliance c).

Definition defaultContract : sloContract := mkContract sloDefaultTTFTMs sloDefaultTBTMs sloDefaultTargetCompliance.

(** [cfgByModel]: of the rows of one model the last. *)
Definition cfgByModel (cfgs : list SLOConfigRow) : gmap string SLOConfigRow :=
  fold_left (fun m c => <[SLModelID c := c]> m) cfgs ∅.

Definition resolveSLO (cfgs : gmap string SLOConfigRow) (modelID : string) : sloContract :=
  match cfgs !! modelID with
  | Some c => contractOf c
  | None => match cfgs !! "*"%string with Some g => contractOf g | None => defaultContract end
  end.

Definition sloEntry (cfgs : gmap string SLOConfigRow) (st : ModelSLOStat) : sloModelEntry :=
  let c := resolveSLO cfgs (MS_ModelID st) in
  if MS_RequestCount st <? sloMinRequests
  then mkSLOEntry (MS_ModelID st) c (mkActual None (MS_RequestCount st) (MS_PeriodStart st)) "insufficient_data"
  else
    let rate := (of_Z (MS_CompliantCount st) / of_Z (MS_RequestCount st))%f64 in
    mkSLOEntry (MS_ModelID st) c (mkActual (Some rate) (MS_RequestCount st) (MS_PeriodStart st))
      (if fleb (SC_TargetCompliance c) rate then "met" else "breached").

Notation Stats := (gmap string ModelSLOStat).

Definition addStats (l : list ModelSLOStat) (m : Stats) : Stats := fold_left (fun m st => <[MS_ModelID st := st]> m) l m.

(** Those that are not there yet. *)
Definition addMissing (l : list ModelSLOStat) (m : Stats) : Stats :=
  fold_left (fun m st => match m !! MS_ModelID st with Some _ => m | None => <[MS_ModelID st := st]> m end) l m.

Section Report.
Context `{E : Env}.

(** The queries for the models of one threshold. *)
Fixpoint queryModels (from until : Time) (threshold : Z) (ids : list string) (m : Stats) : M (Error + Stats) :=
  match ids with
  | [] => cret (inr m)
  | id :: ids =>
      let* res := GetSLOComplianceByModel from until id (of_Z threshold) in
      match res with
      | inl e => cret (inl e)
      | inr l => queryModels from until threshold ids (addStats l m)
      end
  end.

Fixpoint queryThresholds (from until : Time) (groups : list (Z * list string)) (m : Stats) : M (Error + Stats) :=
  match groups with
  | [] => cret (inr m)
  | (t, ids) :: groups =>
      let* res := queryModels from until t ids m in
      match res with inl e => cret (inl e) | inr m => queryThresholds from until groups m end
  end.

(** [threshToModels], as the pairs that a range over it visits. *)
Definition threshToModels (cfgs : list SLOConfigRow) : list (Z * list string) :=
  let own := List.filter (fun c => negb (SLModelID c =? "*")%string) cfgs in
  map (fun t => (t, map SLModelID (List.filter (fun c => SLTTFTMs c =? t) own))) (distinct (map SLTTFTMs own)).

Definition complianceStats (from until : Time) (modelFilter : string) (cfgs : list SLOConfigRow) : M (Error + Stats) :=
  let by_ := cfgByModel cfgs in
  if negb (modelFilter =? "")%string then
    let* res := GetSLOComplianceByModel from until modelFilter (of_Z (SC_TTFTMs (resolveSLO by_ modelFilter))) in
    cret (result_map (fun l => addStats l ∅) res)
  else
    let* n := next in
    let* res := queryThresholds from until (env_order _ n (threshToModels cfgs)) ∅ in
    match res with
    | inl e => cret (inl e)
    | inr m =>
        let* all := GetSLOComplianceByModel from until "" (of_Z (SC_TTFTMs (resolveSLO by_ "__no_such_model__"))) in
        cret (result_map (fun l => addMissing l m) all)
    end.

Record SLOResponse : Type := mkSLOResponse { SP_WindowHours : Z; SP_GeneratedAt : Time; SP_Models : list sloModelEntry }.

Definition windowHours (v : string) : option Z :=
  if (v =? "")%string then Some 24
  else match Atoi v with Some n => if (n <? 1) || (168 <? n) then None else Some n | None => None end.

Definition handleSLOCompliance (modelFilter window_hours : string) : M (Answer SLOResponse) :=
  match windowHours window_hours with
  | None => cret (Refused 400 "bad_request")
  | Some hours =>
      let* now := nowUTC in
      let from := now - hours * Hour in
      let* cfgs := GetAllSLOConfigs in
      match cfgs with
      | inl _ => cret (Refused 500 "slo_configs_failed")
      | inr cfgs =>
          let* stats := complianceStats from now modelFilter cfgs in
          match stats with
          | inl _ => cret (Refused 500 "slo_query_failed")
          | inr stats =>
              let* n := next in
              cret (Answered 200 (mkSLOResponse hours now
                (go_sort (fun a b => String.ltb (SE_ModelID a) (SE_ModelID b))
                   (map (sloEntry (cfgByModel cfgs)) (env_order _ n (map snd (map_to_list stats)))))))
          end
      end
  end.
End Report.

(** ** The report is exact *)

(** The report in one pass: every model with a request in the window, by name, each
    against its own objective. *)
Definition refStat (db : Database) (from until : Time) (m : string) : ModelSLOStat :=
  sloStat from (of_Z (SC_TTFTMs (resolveSLO (objectives db) m))) (modelRows from until "" db) m.

Definition sloReference (db : Database) (from until : Time) (modelFilter : string) : list sloModelEntry :=
  map (fun m => sloEntry (objectives db) (refStat db from until m)) (modelsIn (modelRows from until modelFilter db)).

(** The rows are stored under their model; neither the empty model nor the one that
    stands for "no model" has an objective. *)
Record slo_wf (db : Database) : Prop := {
  slo_keyed : forall id c, objectives db !! id = Some c -> SLModelID c = id;
  slo_named : objectives db !! ""%string = None;
  slo_reserved : objectives db !! "__no_such_model__"%string = None }.

Lemma cfgByModel_spec db : slo_wf db -> cfgByModel (byKey SLModelID (objectives db)) = objectives db.
Proof.
  intros Hwf. apply map_eq. intros k. change (cfgByModel _) with (filled (fun _ => true) SLModelID id (byKey SLModelID (objectives db)) ∅).
  destruct (objectives db !! k) as [c|] eqn:Hc.
  - apply filled_value.
    + intros a Ha _ <-. apply byKey_elem in Ha as (k' & Ha). pose proof (slo_keyed db Hwf _ _ Ha) as <-. unfold id. congruence.
    + right. exists c. split_and!; [apply byKey_elem; eauto|done|by apply (slo_keyed db Hwf)].
  - apply eq_None_not_Some. intros (v & Hv). apply filled_source in Hv as [Hv|(a & Ha & _ & Hk & ->)]; [done|].
    apply byKey_elem in Ha as (k' & Ha). pose proof (slo_keyed db Hwf _ _ Ha). congruence.
Qed.

(** A key is there as soon as some element has it; what was there stays. *)
Lemma addMissing_spec l m k :
  (forall st, addMissing l m !! k = Some st -> m !! k = Some st \/ m !! k = None /\ st ∈ l /\ MS_ModelID st = k) /\
  (is_Some (m !! k) \/ (exists st, st ∈ l /\ MS_ModelID st = k) -> is_Some (addMissing l m !! k)).
Proof.
  revert m. induction l as [|a l IH]; intros m; cbn.
  { split; [by left|]. intros [H|(st & Hst & _)]; [done|]. set_solver. }
  set (m1 := match m !! MS_ModelID a with Some _ => m | None => <[MS_ModelID a := a]> m end).
  assert (Hm1 : m1 !! k = match m !! k with Some x => Some x | None => if decide (MS_ModelID a = k) then Some a else None end).
  { unfold m1. destruct (decide (MS_ModelID a = k)) as [<-|Hne].
    - destruct (m !! MS_ModelID a) as [x|] eqn:Ha; [done|]. by rewrite lookup_insert_eq.
    - destruct (m !! MS_ModelID a); [by destruct (m !! k)|]. rewrite lookup_insert_ne by done. by destruct (m !! k). }
  destruct (IH m1) as (H1 & H2). split.
  - intros st Hst. apply H1 in Hst as [Hst|(Hn & Hst & Hk)]; rewrite Hm1 in *; destruct (m !! k); [by left| |done|].
    + destruct (decide (MS_ModelID a = k)); [|done]. injection Hst as <-. right. set_solver.
    + right. set_solver.
  - intros H. apply H2. rewrite Hm1. destruct H as [(x & ->)|(st & Hst & Hk)]; [left; eauto|].
    apply elem_of_cons in Hst as [->|Hst]; [|right; eauto]. left. destruct (m !! k); [eauto|]. rewrite decide_True by done. eauto.
Qed.

Section Exact.
Context `{E : Env} `{Hh : !HealthyDB E} `{L : !EnvLaws E}.
Variables (db : Database) (from until : Time).
Hypothesis Hwf : slo_wf db.

Let seen (m : string) : Prop := m ∈ map IEModelID (modelRows from until "" db).

Lemma elem_of_modelsIn rows m : m ∈ modelsIn rows <-> m ∈ map IEModelID rows.
Proof. unfold modelsIn. by rewrite go_sort_perm, elem_of_distinct. Qed.

Lemma modelRows_one m : m ≠ ""%string -> modelRows from until m db = List.filter (ofModel m) (modelRows from until "" db).
Proof.
  intros Hm. unfold modelRows, ofModel. rewrite (proj2 (String.eqb_neq m "")) by done. cbn [orb String.eqb].
  induction (logged db) as [|e l IH]; cbn; [done|]. rewrite andb_true_r. destruct (inWindow from until e); cbn; [|exact IH].
  destruct (IEModelID e =? m)%string; by rewrite IH.
Qed.

Lemma ofModel_filter m x rows : m = x -> List.filter (ofModel m) (List.filter (ofModel x) rows) = List.filter (ofModel m) rows.
Proof.
  intros <-. induction rows as [|e l IH]; cbn; [done|]. destruct (ofModel m e) eqn:He; cbn; rewrite ?He, IH; done.
Qed.

(** What a query returns. *)
Lemma compliance_rows id th st :
  st ∈ map (sloStat from th (modelRows from until id db)) (modelsIn (modelRows from until id db)) <->
  exists m, seen m /\ (id = ""%string \/ m = id) /\ st = sloStat from th (modelRows from until "" db) m.
Proof.
  rewrite list_elem_of_fmap. setoid_rewrite elem_of_modelsIn. destruct (decide (id = ""%string)) as [->|Hid].
  { split; [intros (m & -> & Hm); eauto|]. intros (m & Hm & _ & ->). eauto. }
  rewrite (modelRows_one id Hid). split.
  - intros (m & -> & Hm). apply list_elem_of_fmap in Hm as (e & -> & He). apply list_elem_of_In, filter_In in He as (He & Ho).
    apply String.eqb_eq in Ho as Ho'. exists (IEModelID e). split_and!; [|by right|].
    + apply list_elem_of_fmap. exists e. split; [done|]. by apply list_elem_of_In.
    + unfold sloStat. by rewrite ofModel_filter.
  - intros (m & Hm & [?|<-] & ->); [done|]. exists m. split; [unfold sloStat; by rewrite ofModel_filter|].
    apply list_elem_of_fmap in Hm as (e & -> & He). apply list_elem_of_fmap. exists e. split; [done|].
    apply list_elem_of_In, filter_In. split; [by apply list_elem_of_In|]. apply String.eqb_refl.
Qed.

Lemma compliance_run id th w r w' :
  w_db w = db -> GetSLOComplianceByModel from until id th w = (r, w') ->
  w_db w' = db /\ r = inr (map (sloStat from th (modelRows from until id db)) (modelsIn (modelRows from until id db))).
Proof.
  intros <- H. pose proof H as Hq. apply query_spec in Hq as (D & _). eapply query_healthy in H; [|done]. done.
Qed.

(** The map holds the reference's statistics, of some of the models. *)
Definition good (m : Stats) : Prop := forall k st, m !! k = Some st -> seen k /\ st = refStat db from until k.

Lemma queryModels_spec t ids m w r w' :
  (forall id, id ∈ ids -> id ≠ ""%string /\ SC_TTFTMs (resolveSLO (objectives db) id) = t) ->
  good m -> w_db w = db -> queryModels from until t ids m w = (r, w') ->
  w_db w' = db /\ exists m', r = inr m' /\ good m' /\
    forall k, is_Some (m !! k) \/ k ∈ ids /\ seen k -> is_Some (m' !! k).
Proof.
  revert m w. induction ids as [|id ids IH]; intros m w Hids Hm Hw H; cbn in H.
  { injection H as <- <-. split; [done|]. exists m. split; [done|]. split; [done|]. intros k [Hk|[Hk _]]; [done|set_solver]. }
  run_step H. apply compliance_run in Hrun as (D & ->); [|done]. destruct (Hids id) as (Hne & Ht); [set_solver|].
  apply IH in H as (D' & m' & -> & Hg & Hall); [| |  |exact D].
  - split; [done|]. exists m'. split; [done|]. split; [done|]. intros k Hk. apply Hall.
    destruct Hk as [Hk|[Hk Hs]]; [left; apply (filled_total (fun _ => true)); by left|].
    apply elem_of_cons in Hk as [->|Hk]; [left|by right]. apply (filled_total (fun _ => true)). right.
    exists (sloStat from (of_Z t) (modelRows from until "" db) id). split_and!; [|done..]. apply compliance_rows. eauto.
  - intros x Hx. apply Hids. set_solver.
  - intros k st Hst. apply (filled_source (fun _ => true)) in Hst as [Hst|(a & Ha & _ & Hk & ->)]; [by apply Hm|].
    apply compliance_rows in Ha as (x & Hx & [?| ->] & ->); [done|]. cbn in Hk. subst k. split; [done|]. unfold refStat. by rewrite Ht.
Qed.

Lemma queryThresholds_spec groups m w r w' :
  (forall t ids id, (t, ids) ∈ groups -> id ∈ ids -> id ≠ ""%string /\ SC_TTFTMs (resolveSLO (objectives db) id) = t) ->
  good m -> w_db w = db -> queryThresholds from until groups m w = (r, w') ->
  w_db w' = db /\ exists m', r = inr m' /\ good m' /\
    forall k, is_Some (m !! k) \/ (exists t ids, (t, ids) ∈ groups /\ k ∈ ids) /\ seen k -> is_Some (m' !! k).
Proof.
  revert m w. induction groups as [|[t ids] groups IH]; intros m w Hids Hm Hw H; cbn in H.
  { injection H as <- <-. split; [done|]. exists m. split; [done|]. split; [done|]. intros k [Hk|[(? & ? & Hk & ?) ?]]; [done|set_solver]. }
  run_step H. apply queryModels_spec in Hrun as (D & m1 & -> & Hg & Hall); [|intros; eapply Hids; [left|done]|done|done].
  apply IH in H as (D' & m' & -> & Hg' & Hall'); [| |done|done].
  - split; [done|]. exists m'. split; [done|]. split; [done|]. intros k Hk. apply Hall'. destruct Hk as [Hk|[(t' & ids' & Hin & Hk) Hs]]; [left; auto|].
    apply elem_of_cons in Hin as [Heq|Hin]; [injection Heq as -> ->; left; auto|]. right. eauto.
  - intros t' ids' x Hin Hx. eapply Hids; [right; exact Hin|done].
Qed.

Lemma elem_of_threshToModels t id :
  (exists ids, (t, ids) ∈ threshToModels (byKey SLModelID (objectives db)) /\ id ∈ ids) <->
  id ≠ "*"%string /\ exists c, objectives db !! id = Some c /\ SLTTFTMs c = t.
Proof.
  unfold threshToModels. setoid_rewrite list_elem_of_fmap.
  assert (Hown : forall c, c ∈ List.filter (fun c => negb (SLModelID c =? "*")%string) (byKey SLModelID (objectives db)) <->
    SLModelID c ≠ "*"%string /\ objectives db !! SLModelID c = Some c).
  { intros c. rewrite list_elem_of_In, filter_In, <- list_elem_of_In, byKey_elem, negb_true_iff, String.eqb_neq. split.
    - intros ((k & Hk) & Hs). split; [done|]. by rewrite (slo_keyed db Hwf _ _ Hk).
    - intros (Hs & Hc). eauto. }
  split.
  - intros (ids & (x & [= -> ->] & Hx) & Hid). apply list_elem_of_fmap in Hid as (c & -> & Hc).
    apply list_elem_of_In, filter_In in Hc as (Hc & Ht%Z.eqb_eq). apply list_elem_of_In, Hown in Hc as (Hs & Hc). eauto.
  - intros (Hs & c & Hc & Ht). pose proof (slo_keyed db Hwf _ _ Hc) as Hk. eexists. split; [exists t; split; [reflexivity|]|].
    + apply elem_of_distinct, list_elem_of_fmap. exists c. split; [done|]. apply Hown. by rewrite Hk.
    + apply list_elem_of_fmap. exists c. split; [done|]. apply list_elem_of_In, filter_In. split; [|by apply Z.eqb_eq].
      apply list_elem_of_In, Hown. by rewrite Hk.
Qed.

Lemma resolveSLO_default k :
  k = "*"%string \/ objectives db !! k = None -> resolveSLO (objectives db) k = resolveSLO (objectives db) "__no_such_model__".
Proof.
  unfold resolveSLO. rewrite (slo_reserved db Hwf). intros [->|H]; [by destruct (objectives db !! "*"%string)|by rewrite H].
Qed.

Lemma complianceStats_spec modelFilter w r w' :
  w_db w = db -> complianceStats from until modelFilter (byKey SLModelID (objectives db)) w = (r, w') ->
  w_db w' = db /\ exists m : Stats, r = inr m /\
    forall k st, m !! k = Some st <-> (seen k /\ (modelFilter = ""%string \/ k = modelFilter)) /\ st = refStat db from until k.
Proof.
  intros Hw H. unfold complianceStats in H. rewrite (cfgByModel_spec db Hwf) in H. destruct (String.eqb_spec modelFilter "") as [->|Hf]; cbn [negb] in H.
  - run_step H. injection Hrun as <- <-. run_step H.
    apply queryThresholds_spec in Hrun as (D & m & -> & Hg & Hall); [| |done|exact Hw].
    2:{ intros t ids id Hin Hid. rewrite env_order_perm in Hin.
        destruct (proj1 (elem_of_threshToModels t id)) as (Hs & c & Hc & Ht); [eauto|]. split.
        - intros ->. by rewrite (slo_named db Hwf) in Hc.
        - unfold resolveSLO. by rewrite Hc. }
    run_step H. apply compliance_run in Hrun as (D' & ->); [|done]. injection H as <- <-. split; [done|].
    assert (Hdef : forall k, seen k -> m !! k = None ->
      resolveSLO (objectives db) k = resolveSLO (objectives db) "__no_such_model__").
    { intros k Hk Hn. apply resolveSLO_default. destruct (decide (k = "*"%string)) as [|Hs]; [by left|right].
      destruct (objectives db !! k) as [c|] eqn:Hc; [exfalso|done].
      assert (is_Some (m !! k)) as (? & ?); [|congruence]. apply Hall. right. split; [|done].
      destruct (proj2 (elem_of_threshToModels (SLTTFTMs c) k)) as (ids & Hin & Hid); [eauto|]. exists (SLTTFTMs c), ids.
      by rewrite env_order_perm. }
    eexists. split; [reflexivity|]. intros k st. split.
    + intros Hst. apply addMissing_spec in Hst as [Hst|(Hn & Hst & Hk)].
      * apply Hg in Hst as (? & ->). split; [split; [done|by left]|done].
      * apply compliance_rows in Hst as (x & Hx & _ & ->). cbn in Hk. subst x. split; [split; [done|by left]|].
        unfold refStat. by rewrite (Hdef k Hx Hn).
    + intros ((Hs & _) & ->).
      destruct (proj2 (addMissing_spec (map (sloStat from (of_Z (SC_TTFTMs (resolveSLO (objectives db) "__no_such_model__")))
        (modelRows from until "" db)) (modelsIn (modelRows from until "" db))) m k)) as (st & Hst).
      { right. exists (sloStat from (of_Z (SC_TTFTMs (resolveSLO (objectives db) "__no_such_model__"))) (modelRows from until "" db) k).
        split; [|done]. apply compliance_rows. eauto. }
      rewrite Hst. f_equal. apply addMissing_spec in Hst as [Hst|(Hn & Hst & Hk)]; [by apply Hg in Hst as (_ & ->)|].
      apply compliance_rows in Hst as (x & Hx & _ & ->). cbn in Hk. subst x.
      unfold refStat. by rewrite (Hdef k Hx Hn).
  - run_step H. apply compliance_run in Hrun as (D & ->); [|done]. injection H as <- <-. split; [done|].
    eexists. split; [reflexivity|]. intros k st. split.
    + intros Hst. apply (filled_source (fun _ => true)) in Hst as [Hst|(a & Ha & _ & Hk & ->)]; [done|].
      apply compliance_rows in Ha as (x & Hx & [?| ->] & ->); [done|]. cbn in Hk. subst k. auto.
    + intros ((Hs & [?| ->]) & ->); [done|]. apply (filled_value (fun _ => true) MS_ModelID (fun st => st)).
      * intros a Ha _ Hk. by apply compliance_rows in Ha as (x & Hx & [?| ->] & ->).
      * right. eexists. split; [apply compliance_rows; eauto|done].
Qed.

(** The entries of a map of statistics, in the order of the response. *)
Lemma sorted_entries modelFilter (m : Stats) n :
  (forall k st, m !! k = Some st <-> (seen k /\ (modelFilter = ""%string \/ k = modelFilter)) /\ st = refStat db from until k) ->
  go_sort (fun a b => String.ltb (SE_ModelID a) (SE_ModelID b))
    (map (sloEntry (objectives db)) (env_order _ n (map snd (map_to_list m)))) = sloReference db from until modelFilter.
Proof.
  intros Hm. set (ms := distinct (map IEModelID (modelRows from until modelFilter db))).
  assert (Hms : forall k, k ∈ ms <-> seen k /\ (modelFilter = ""%string \/ k = modelFilter)).
  { intros k. unfold ms. rewrite elem_of_distinct. destruct (decide (modelFilter = ""%string)) as [->|Hf]; [naive_solver|].
    rewrite (modelRows_one _ Hf). unfold seen. rewrite 2!list_elem_of_fmap. split.
    - intros (e & -> & He). apply list_elem_of_In, filter_In in He as (He & Ho%String.eqb_eq). apply list_elem_of_In in He. eauto.
    - intros ((e & -> & He) & [?|Ho]); [done|]. exists e. split; [done|]. apply list_elem_of_In, filter_In.
      split; [by apply list_elem_of_In|by apply String.eqb_eq]. }
  assert (Hp : map_to_list m ≡ₚ map (fun k => (k, refStat db from until k)) ms).
  { apply NoDup_Permutation; [apply NoDup_map_to_list|apply NoDup_fmap; [by intros ? ? [= ->]|apply distinct_NoDup]|].
    intros [k st]. rewrite elem_of_map_to_list, Hm, <- Hms, list_elem_of_fmap. naive_solver. }
  assert (Hid : forall k, SE_ModelID (sloEntry (objectives db) (refStat db from until k)) = k).
  { intros k. unfold sloEntry. by destruct (_ <? _). }
  assert (Hl : map (sloEntry (objectives db)) (env_order _ n (map snd (map_to_list m))) ≡ₚ
               map (fun k => sloEntry (objectives db) (refStat db from until k)) ms).
  { etrans; [apply Permutation_map, env_order_perm|]. etrans; [apply Permutation_map, Permutation_map, Hp|]. by rewrite !map_map. }
  etrans; [eapply go_sort_unique; [intros ??; apply string_ltb_asym|intros ???; apply string_not_less_trans| |exact Hl]|].
  - intros x y Hx Hy H1 H2. rewrite Hl in Hx, Hy. apply list_elem_of_fmap in Hx as (a & -> & _), Hy as (b & -> & _).
    unfold not_less in H1, H2. rewrite !Hid in H1, H2. by rewrite (string_ltb_total a b).
  - unfold sloReference, modelsIn. fold ms. apply go_sort_map. intros x y. by rewrite !Hid.
Qed.
End Exact.

(** *** What a reader expects *)

(** The objective of a model: its own, else that of the model [*], else the default. *)
Definition objectiveOf (db : Database) (m : string) (c : sloContract) : Prop :=
  match objectives db !! m, objectives db !! "*"%string with
  | Some own, _ => SC_TTFTMs c = SLTTFTMs own /\ SC_TBTMs c = SLTBTMs own /\ SC_TargetCompliance c = SLTargetCompliance own
  | None, Some all => SC_TTFTMs c = SLTTFTMs all /\ SC_TBTMs c = SLTBTMs all /\ SC_TargetCompliance c = SLTargetCompliance all
  | None, None => SC_TTFTMs c = 2000 /\ SC_TBTMs c = 500 /\ SC_TargetCompliance c = f_const 95 100
  end.

(** An entry for one model, given the requests of the window. *)
Record rightEntry (db : Database) (from : Time) (rows : list InferenceEvent) (e : sloModelEntry) : Prop := {
  re_objective : objectiveOf db (SE_ModelID e) (SE_SLO e);
  re_start : SX_PeriodStart (SE_Actual e) = from;
  re_measured :
    let mine := List.filter (fun x => IEModelID x =? SE_ModelID e)%string rows in
    let fast := List.filter (fun x => fltb f0 (IELatencyMs x) && fltb (IELatencyMs x) (of_Z (SC_TTFTMs (SE_SLO e)))) mine in
    let share := (of_Z (Z.of_nat (length fast)) / of_Z (Z.of_nat (length mine)))%f64 in
    SX_RequestCount (SE_Actual e) = Z.of_nat (length mine) /\
    ((length mine < 10)%nat /\ SX_TTFTCompliance (SE_Actual e) = None /\ SE_Status e = "insufficient_data"%string \/
     (10 <= length mine)%nat /\ SX_TTFTCompliance (SE_Actual e) = Some share /\
     SE_Status e = (if fleb (SC_TargetCompliance (SE_SLO e)) share then "met" else "breached")%string) }.

Lemma resolveSLO_objective db m : objectiveOf db m (resolveSLO (objectives db) m).
Proof. unfold objectiveOf, resolveSLO. destruct (objectives db !! m), (objectives db !! "*"%string); done. Qed.

Lemma sloEntry_right db from until m :
  let e := sloEntry (objectives db) (refStat db from until m) in
  SE_ModelID e = m /\ rightEntry db from (modelRows from until "" db) e.
Proof.
  cbv zeta. unfold sloEntry, refStat, sloStat, ofModel, compliant, measured. cbn [MS_ModelID MS_RequestCount MS_CompliantCount MS_PeriodStart].
  set (mine := List.filter (fun e => IEModelID e =? m)%string (modelRows from until "" db)). pose proof (resolveSLO_objective db m) as Ho. unfold sloMinRequests.
  destruct (Z.ltb_spec (Z.of_nat (length mine)) 10); (split; [done|]); split; cbn; try done; fold mine; (split; [done|]).
  - left. split; [lia|done].
  - right. split; [lia|done].
Qed.

Lemma sloReference_right db from until modelFilter :
  let entries := sloReference db from until modelFilter in
  StronglySorted (fun a b => String.ltb (SE_ModelID b) (SE_ModelID a) = false) entries /\ NoDup (map SE_ModelID entries) /\
  (forall m, m ∈ map SE_ModelID entries <-> m ∈ map IEModelID (modelRows from until modelFilter db)) /\
  Forall (rightEntry db from (modelRows from until "" db)) entries.
Proof.
  cbv zeta. unfold sloReference. set (ms := modelsIn _).
  assert (Hid : forall m, SE_ModelID (sloEntry (objectives db) (refStat db from until m)) = m) by (intros m; apply sloEntry_right).
  assert (Hmap : map SE_ModelID (map (fun m => sloEntry (objectives db) (refStat db from until m)) ms) = ms).
  { rewrite map_map. erewrite map_ext; [apply map_id|]. exact Hid. }
  rewrite Hmap. split; [|split; [|split]].
  - assert (Hs : StronglySorted (not_less String.ltb) ms).
    { apply (go_sort_sorted _ (fun _ => True)); [|intros ??? _ _ _; apply string_not_less_trans|by apply Forall_true]. intros ?? _ _. apply string_ltb_asym. }
    clear -Hs Hid. induction Hs as [|m ms _ IH Hm]; cbn; constructor; [done|]. apply Forall_map. eapply Forall_impl; [exact Hm|].
    intros x Hx. by rewrite !Hid.
  - unfold ms, modelsIn. rewrite go_sort_perm. apply distinct_NoDup.
  - intros m. apply elem_of_modelsIn.
  - apply Forall_map, Forall_true. intros m. apply sloEntry_right.
Qed.

(** The window that is asked for. *)
Definition askedHours (text : string) (hours : Z) : Prop :=
  text = ""%string /\ hours = 24 \/ text ≠ ""%string /\ Atoi text = Some hours /\ 1 <= hours <= 168.

Lemma windowHours_asked text hours : askedHours text hours -> windowHours text = Some hours.
Proof.
  unfold windowHours. intros [[-> ->]|(Hne & -> & Hh)]; [done|]. rewrite (proj2 (String.eqb_neq _ _) Hne).
  rewrite (proj2 (Z.ltb_ge _ _)), (proj2 (Z.ltb_ge _ _)) by lia. done.
Qed.

Lemma modelRows_period db from until m : clearBounds from until db ->
  modelRows from until m db = List.filter (fun e => (m =? "")%string || (IEModelID e =? m)%string) (periodRows from until "" db).
Proof.
  intros Hc. rewrite <- windowRows_period by done. unfold modelRows, windowRows. cbn [String.eqb orb].
  induction (logged db) as [|e l IH]; [done|]. cbn. rewrite andb_true_r. destruct (inWindow from until e); cbn; by rewrite IH.
Qed.

(** (C27) The report of service levels is what a reader expects of it. With a database
    that answers, objectives that are stored under the names of their models, none of
    them under the empty name or the reserved name "__no_such_model__", years of
    four digits and no event in the second of a bound of the window but at the bound itself: the handler answers 200
    for every window from 1 to 168 hours (24 by default) and changes nothing, and the
    models of the answer are, in the order of their names and each once, those with a
    request in the window (or the one asked for, if it has one). Each has its own
    objective, else that of the model "*", else the default, and the number of its
    requests; with less than ten requests it says that the data are insufficient, with
    ten or more it has the share of the requests that took less than the objective, and says
    whether the share reaches the target. The queries are grouped by threshold, in an
    order that Go does not fix; the answer does not depend on it. *)
Theorem slo_report_exact `{E : Env} `{L : !EnvLaws E} (modelFilter window_hours : string) (hours : Z) (w w' : World) a :
  let now := env_now (w_tick w) in let from := now - hours * Hour in
  let rows := periodRows from now "" (w_db w) in
  HealthyDB E -> slo_wf (w_db w) -> askedHours window_hours hours -> clearBounds from now (w_db w) ->
  handleSLOCompliance modelFilter window_hours w = (a, w') ->
  w_db w' = w_db w /\
  exists entries, a = Answered 200 (mkSLOResponse hours now entries) /\
    StronglySorted (fun a b => String.ltb (SE_ModelID b) (SE_ModelID a) = false) entries /\ NoDup (map SE_ModelID entries) /\
    (forall m, m ∈ map SE_ModelID entries <-> m ∈ map IEModelID rows /\ (modelFilter = ""%string \/ m = modelFilter)) /\
    Forall (rightEntry (w_db w) from rows) entries.
Proof.
  intros now from rows Hh Hwf Hhours Hc H. apply windowHours_asked in Hhours.
  assert (Hrun : a = Answered 200 (mkSLOResponse hours now (sloReference (w_db w) from now modelFilter)) /\ w_db w' = w_db w).
  { clear Hc. unfold handleSLOCompliance in H. rewrite Hhours in H. run_step H. unfold nowUTC in Hrun. run_step Hrun.
    injection Hrun0 as <- <-. injection Hrun as <- <-. run_step H. unfold GetAllSLOConfigs in Hrun.
    pose proof Hrun as Hq. apply query_spec in Hq as (D & _). eapply query_healthy in Hrun; [|done]. cbn in D, Hrun. subst r.
    run_step H. eapply complianceStats_spec in Hrun as (D' & m & -> & Hm); [|exact Hwf|exact D].
    run_step H. injection Hrun as <- <-. injection H as <- <-. rewrite (cfgByModel_spec _ Hwf). split; [|done]. do 2 f_equal.
    by apply sorted_entries. }
  destruct Hrun as (-> & Hdb). split; [done|]. eexists. split; [reflexivity|].
  destruct (sloReference_right (w_db w) from now modelFilter) as (H1 & H2 & H3 & H4). split; [done|]. split; [done|].
  rewrite !modelRows_period in H3, H4 by done. split; [|].
  - intros m. rewrite H3, !list_elem_of_fmap. split.
    + intros (e & -> & He). apply list_elem_of_In, filter_In in He as (He & Hf). apply list_elem_of_In in He. split; [by exists e|].
      apply orb_true_iff in Hf as [Hf%String.eqb_eq|Hf%String.eqb_eq]; [by left|by right].
    + intros ((e & -> & He) & Hf). exists e. split; [done|]. apply list_elem_of_In, filter_In. split; [by apply list_elem_of_In|].
      apply orb_true_iff. destruct Hf as [->|<-]; [by left|right; apply String.eqb_refl].
  - rewrite (List.forallb_filter_id _ (periodRows _ _ _ _)) in H4; [done|]. by apply forallb_forall.
Qed.

(** ** A concrete log *)

(** Twelve requests to one model, one of them slow, and one request to another; only
    the model [*] has an objective. *)
Definition exServed (id model : string) (latency : Z) : InferenceRow :=
  mkInferenceRow 0 (mkInferenceEvent id "h" model "ml" 0 0 1 1 "/v1" "" (of_Z latency) "stop" "" "" "" "") None "" "".

Definition exServedDB (objective : string) : Database :=
  with_events (with_platform emptyDatabase (set_slo (db_platform emptyDatabase)
    {[objective := mkSLOConfigRow objective 100 500 (f_const 9 10) 0]}))
    (exServed "r0" "llama" 900 :: exServed "r1" "phi" 5 :: repeat (exServed "r" "llama" 50) 11).

Definition exServedWorld (objective : string) : World := mkWorld 0 (exServedDB objective) ∅ [].

Definition exReport (objective : string) : Answer SLOResponse * World :=
  handleSLOCompliance (E := exEnv None) "" "48" (exServedWorld objective).

Lemma exServed_bounds : clearBounds (- 48 * Hour) 0 (exServedDB "*").
Proof.
  split; [vm_compute; split; congruence|]. split; [vm_compute; split; congruence|].
  intros e He. assert (Ht : Forall (fun e => IETimestamp e = 0) (logged (exServedDB "*"))) by (vm_compute; repeat constructor).
  rewrite Forall_forall in Ht. rewrite (Ht e He). vm_compute. repeat split; congruence.
Qed.

Lemma slo_report_exact_witness :
  exists entries, fst (exReport "*") = Answered 200 (mkSLOResponse 48 0 entries) /\
    NoDup (map SE_ModelID entries) /\ "llama"%string ∈ map SE_ModelID entries.
Proof.
  assert (Hwf : slo_wf (w_db (exServedWorld "*"))).
  { split; [|vm_compute; reflexivity..]. intros id c Hc. unfold objectives in Hc. cbn in Hc.
    apply lookup_singleton_Some in Hc as [<- <-]. reflexivity. }
  assert (Hw : askedHours "48" 48) by (right; split; [discriminate|]; split; [vm_compute; reflexivity|lia]).
  destruct (slo_report_exact (E := exEnv None) "" "48" 48 (exServedWorld "*") _ _ (exEnv_db None) Hwf Hw exServed_bounds
    (surjective_pairing (handleSLOCompliance (E := exEnv None) "" "48" (exServedWorld "*")))) as (_ & entries & Ha & _ & Hn & Hm & _).
  exists entries. split; [exact Ha|]. split; [exact Hn|]. apply Hm. split; [|by left].
  apply (bool_decide_unpack _). vm_compute. exact I.
Defined.

Example slo_report_run :
  match fst (exReport "*") with
  | Answered 200 r => map (fun e => (SE_ModelID e, SE_Status e)) (SP_Models r) = [("llama", "met"); ("phi", "insufficient_data")]%string
  | _ => False
  end.
Proof. vm_compute. done. Qed.

(** An objective stored for the name that the handler uses to ask for "no model" is
    measured as everyone's, and reported for no one: the slow objective of the answer is
    not the one the share was counted with. *)
Example reserved_name_measured :
  match fst (exReport "__no_such_model__") with
  | Answered 200 r => map (fun e => (SE_ModelID e, SC_TTFTMs (SE_SLO e), SE_Status e)) (SP_Models r) =
      [("llama", 2000, "breached"); ("phi", 2000, "insufficient_data")]%string
  | _ => False
  end.
Proof. vm_compute. done. Qed.
