(* ===== verification/WhatIf.v ===== *)
(** * WhatIf: planning for hardware that is not there

    [server/what_if.go]: the planner on the caller's hypothetical nodes, with or without
    the fleet, and the comparison with the fleet as it is. *)
From S2P Require Import Prelude Float64 PlanTypes CostModel Fixtures Partition Planner Convert Cluster Registry Orchestrator Planning Access Identity Operations.
Open Scope Z_scope.

Record hypotheticalNode : Type := mkHypothetical {
  HN_NodeID : string; HN_GPUVRAMgb : float64; HN_GPUCount : Z; HN_CPUCores : Z; HN_RAMgb : float64;
  HN_NetBandwidthGbps : float64; HN_SSDBandwidthGbps : float64 }.

Record whatIfRequest : Type := mkWhatIf {
  WR_ModelID : string; WR_HypotheticalNodes : list hypotheticalNode; WR_IncludeExistingNodes : bool }.

(** The body: over the limit of a megabyte, no JSON of the type, or the request. *)
Inductive whatIfBody : Type := TooLarge | Undecodable | Request_ (r : whatIfRequest).

Record whatIfAssignment : Type := mkWhatIfAssignment { WA_NodeID : string; WA_LayerStart : Z; WA_LayerEnd : Z }.

Record whatIfPlanInfo : Type := mkWhatIfPlan {
  WP_Assignments : list whatIfAssignment; WP_DecodeTokSMin : float64; WP_DecodeTokSMax : float64; WP_PipelineDepth : Z }.

Record whatIfCurrentPlan : Type := mkCurrentPlan { WC_Feasible : bool; WC_DeficitVRAMgb : float64 }.

Record whatIfImprovement : Type := mkImprovement { WI_DeltaMin : float64; WI_DeltaMax : float64; WI_FeasibilityChange : string }.

Record whatIfResponse : Type := mkWhatIfResponse {
  WS_Feasible : bool; WS_Plan : option whatIfPlanInfo; WS_CurrentPlan : option whatIfCurrentPlan;
  WS_Improvement : option whatIfImprovement }.

(** The numbers of GPUs and of cores are not looked at. *)
Definition convertHypotheticalNode (hn : hypotheticalNode) : Node :=
  let ssd := fltb f0 (HN_SSDBandwidthGbps hn) in
  mkNode (HN_NodeID hn) (HN_RAMgb hn) (HN_RAMgb hn) (HN_GPUVRAMgb hn) false f0 [] false ∅
    (if ssd then of_Z 1000 else f0) ssd f0.

Definition convertHypotheticalNodes (hns : list hypotheticalNode) : list Node := map convertHypotheticalNode hns.

Definition computeWhatIfImprovement (currentFeasible : bool) (curMin curMax hypMin hypMax : float64) : whatIfImprovement :=
  mkImprovement (hypMin - curMin)%f64 (hypMax - curMax)%f64
    (if negb currentFeasible then "infeasible_to_feasible"
     else if fltb curMin hypMin then "feasible_improved" else "feasible_unchanged").

(** Gigabits to gigabytes; ten gigabits when nothing is said. *)
Definition linkBandwidth (hn : hypotheticalNode) : float64 :=
  let bw := (HN_NetBandwidthGbps hn / of_Z 8)%f64 in if fleb bw f0 then f_const 125 100 else bw.

Definition syntheticLink (from to : string) (hn : hypotheticalNode) : Link := mkLink from to (f_const 1 10) (linkBandwidth hn).

(** The links of one hypothetical node: both ways with the fleet, if it takes part, and
    to the other hypothetical nodes. *)
Definition syntheticLinks (withFleet : bool) (existing : list Node) (hns : list hypotheticalNode) (hn : hypotheticalNode) : list Link :=
  (if withFleet then
     flat_map (fun en => [syntheticLink (HN_NodeID hn) (Node_ID en) hn; syntheticLink (Node_ID en) (HN_NodeID hn) hn]) existing
   else []) ++
  flat_map (fun hn2 => if (HN_NodeID hn =? HN_NodeID hn2)%string then [] else [syntheticLink (HN_NodeID hn) (HN_NodeID hn2) hn]) hns.

(** The nodes and the links of the scenario. *)
Definition scenario (req : whatIfRequest) (existing : list Node) (links : list Link) : list Node * list Link :=
  let hns := WR_HypotheticalNodes req in
  let hyp := convertHypotheticalNodes hns in
  let withFleet := WR_IncludeExistingNodes req || (length hyp =? 0)%nat in
  ((if withFleet then existing else []) ++ hyp,
   (if withFleet then links else []) ++ flat_map (syntheticLinks withFleet existing hns) hns).

Definition planInfo (p : DeploymentPlan) : whatIfPlanInfo :=
  mkWhatIfPlan (map (fun a => mkWhatIfAssignment (A_NodeID a) (A_LayerStart a) (A_LayerEnd a)) (Plan_Assignments p))
    (Perf_DecodeTokSMin (Plan_Estimated p)) (Perf_DecodeTokSMax (Plan_Estimated p)) (Z.of_nat (length (Plan_PipelineOrder p))).

(** The fleet as it is: its verdict and its speeds. *)
Definition currentPlan (o : Outcome DeploymentPlan) : option (whatIfCurrentPlan * float64 * float64) :=
  match o with
  | Ok p => Some (mkCurrentPlan true f0, Perf_DecodeTokSMin (Plan_Estimated p), Perf_DecodeTokSMax (Plan_Estimated p))
  | Fail (ErrPlan pe) => Some (mkCurrentPlan false (Err_DeficitGB pe), f0, f0)
  | Fail _ => Some (mkCurrentPlan false f0, f0, f0)
  | Panic => None
  end.

Section Handler.
Context `{E : Env} `{J : ProtoJSON}.

(** The contexts of the two runs of the planner. *)
Variables (ctx ctx' : PlanCtx).

Definition planWith (c : PlanCtx) (nodes : list Node) (links : list Link) (spec : ModelSpec) : Outcome DeploymentPlan :=
  Planner.Plan (pc_poll c) (pc_polls c) (pc_threshold c) nodes links spec Constraints_zero.

(** The answer, from the fleet and the model. *)
Definition whatIfAnswer (req : whatIfRequest) (spec : ModelSpec) (existing : list Node) (links : list Link) : Answer whatIfResponse :=
  let '(allNodes, allLinks) := scenario req existing links in
  let hyp := planWith ctx allNodes allLinks spec in
  let cur := if WR_IncludeExistingNodes req then Some (currentPlan (planWith ctx' existing links spec)) else None in
  match hyp, cur with
  | Panic, _ | _, Some None => Refused 0 "panic"
  | Fail (ErrPlan _), _ =>
      Answered 200 (mkWhatIfResponse false None (match cur with Some (Some (c, _, _)) => Some c | _ => None end) None)
  | Fail _, _ => Refused 500 "plan_failed"
  | Ok p, Some (Some (c, curMin, curMax)) =>
      Answered 200 (mkWhatIfResponse true (Some (planInfo p)) (Some c)
        (Some (computeWhatIfImprovement (WC_Feasible c) curMin curMax
                 (Perf_DecodeTokSMin (Plan_Estimated p)) (Perf_DecodeTokSMax (Plan_Estimated p)))))
  | Ok p, None => Answered 200 (mkWhatIfResponse true (Some (planInfo p)) None None)
  end.

Definition handleWhatIfPlan (planner : bool) (body : whatIfBody) : M (Answer whatIfResponse) :=
  if negb planner then cret (Refused 501 "no_planner")
  else match body with
       | TooLarge => cret (Refused 413 "request_too_large")
       | Undecodable => cret (Refused 400 "bad_request")
       | Request_ req =>
           if (WR_ModelID req =? "")%string then cret (Refused 400 "bad_request")
           else
             let* spec := ModelSpecFor (WR_ModelID req) in
             match spec with
             | inl e => cret (if isNotFound e then Refused 404 "not_found" else Refused 500 "model_spec_failed")
             | inr spec =>
                 let* fleet := loadFleet in
                 cret (match fleet with
                       | inl _ => Refused 500 "fleet_load_failed"
                       | inr (existing, links) => whatIfAnswer req spec existing links
                       end)
             end
       end.
End Handler.

(** ** What the answer means *)

(** The shards run from [next] to the last of [L] layers. *)
Fixpoint spans (next : Z) (l : list whatIfAssignment) (L : Z) : bool :=
  match l with
  | [] => next =? L
  | a :: l => (WA_LayerStart a =? next) && (next <=? WA_LayerEnd a) && spans (WA_LayerEnd a + 1) l L
  end.

(** The hypothetical bandwidths are those of some hardware. *)
Definition bandwidths_ok (req : whatIfRequest) : Prop := Forall (fun hn => quantity_ok (linkBandwidth hn)) (WR_HypotheticalNodes req).

Definition withFleet (req : whatIfRequest) : bool := WR_IncludeExistingNodes req || (length (WR_HypotheticalNodes req) =? 0)%nat.

Lemma syntheticLink_ok from to hn : quantity_ok (linkBandwidth hn) -> link_ok (syntheticLink from to hn).
Proof. intros H. split; [apply belowb_spec; vm_compute; reflexivity|exact H]. Qed.

Lemma scenario_links_ok req existing links :
  bandwidths_ok req -> Forall link_ok links -> Forall link_ok (snd (scenario req existing links)).
Proof.
  intros Hb Hl. unfold scenario. cbn [snd]. apply Forall_app. split; [by destruct (_ || _)|]. apply Forall_flat_map.
  eapply Forall_impl; [exact Hb|]. intros hn Hhn. apply Forall_app. split.
  - destruct (_ || _); [|done]. apply Forall_flat_map, Forall_true. intros en. apply Forall_cons_2; [by apply syntheticLink_ok|].
    apply Forall_cons_2; [by apply syntheticLink_ok|done].
  - apply Forall_flat_map, Forall_true. intros hn2. destruct (_ =? _)%string; [done|].
    apply Forall_cons_2; [by apply syntheticLink_ok|done].
Qed.

(** The nodes of the scenario are the hypothetical ones and, when it takes part, the fleet. *)
Lemma scenario_node req existing links n :
  n ∈ fst (scenario req existing links) <->
  (exists hn, hn ∈ WR_HypotheticalNodes req /\ n = convertHypotheticalNode hn) \/ withFleet req = true /\ n ∈ existing.
Proof.
  unfold scenario, withFleet, convertHypotheticalNodes. cbn [fst]. rewrite length_map, elem_of_app, list_elem_of_fmap.
  destruct (_ || _); naive_solver set_solver.
Qed.

Lemma planInfo_spans L p next :
  spans next (map (fun a => mkWhatIfAssignment (A_NodeID a) (A_LayerStart a) (A_LayerEnd a)) p) L = contiguousb next p L.
Proof.
  revert next. induction p as [|a p IH]; intros next; cbn; [done|]. rewrite IH. destruct (Z.eqb_spec (A_LayerStart a) next) as [->|]; done.
Qed.

Lemma currentPlan_some o : o ≠ Panic -> exists c curMin curMax, currentPlan o = Some (c, curMin, curMax).
Proof. destruct o as [p|[]|]; cbn; eauto. done. Qed.

Lemma currentPlan_feasible o c curMin curMax : currentPlan o = Some (c, curMin, curMax) ->
  (WC_Feasible c = true <-> exists q, o = Ok q).
Proof. destruct o as [p|[]|]; cbn; intros [= <- _ _]; cbn; naive_solver. Qed.

Lemma improvement_infeasible feasible curMin curMax hypMin hypMax :
  WI_FeasibilityChange (computeWhatIfImprovement feasible curMin curMax hypMin hypMax) = "infeasible_to_feasible"%string <->
  feasible = false.
Proof. unfold computeWhatIfImprovement. cbn. destruct feasible; [destruct (fltb curMin hypMin)|]; naive_solver. Qed.

Section Sound.
Context `{E : Env} `{J : ProtoJSON} (ctx ctx' : PlanCtx).

(** A plan for the scenario covers the model on its nodes. *)
Lemma planWith_info c nodes links spec p : params_ok spec -> Forall link_ok links -> planWith c nodes links spec = Ok p ->
  spans 0 (WP_Assignments (planInfo p)) (Model_Layers spec) = true /\
  WP_PipelineDepth (planInfo p) = Z.of_nat (length (WP_Assignments (planInfo p))) /\
  forall a, a ∈ WP_Assignments (planInfo p) -> exists n, n ∈ nodes /\ Node_ID n = WA_NodeID a.
Proof.
  intros Hp Hl Hok. apply Plan_run_ok in Hok as (ns & quant & Hns & Hok); [|done..]. cbn [planInfo WP_Assignments WP_PipelineDepth].
  rewrite planInfo_spans, length_map, (pk_order _ _ _ _ Hok), length_map. split; [apply (pk_cover _ _ _ _ Hok)|]. split; [done|].
  intros a Ha. apply list_elem_of_fmap in Ha as (x & -> & Hx). cbn [WA_NodeID].
  destruct (pk_memory _ _ _ _ Hok (A_NodeID x)) as (n & Hn & <- & _); [by apply list_elem_of_fmap_2|].
  apply Hns in Hn as (Hn & _). eauto.
Qed.

(** What an answer says about the planner's two runs, on the scenario and on the fleet. *)
Definition answers (req : whatIfRequest) (spec : ModelSpec) (existing : list Node) (links : list Link) (resp : whatIfResponse) : Prop :=
  let s := scenario req existing links in
  match planWith ctx (fst s) (snd s) spec with
  | Ok p =>
      WS_Feasible resp = true /\ WS_Plan resp = Some (planInfo p) /\
      spans 0 (WP_Assignments (planInfo p)) (Model_Layers spec) = true /\
      WP_PipelineDepth (planInfo p) = Z.of_nat (length (WP_Assignments (planInfo p))) /\
      (forall x, x ∈ WP_Assignments (planInfo p) -> exists n, n ∈ fst s /\ Node_ID n = WA_NodeID x) /\
      (is_Some (WS_Improvement resp) <-> WR_IncludeExistingNodes req = true)
  | Fail _ => WS_Feasible resp = false /\ WS_Plan resp = None /\ WS_Improvement resp = None
  | Panic => False
  end /\
  (is_Some (WS_CurrentPlan resp) <-> WR_IncludeExistingNodes req = true) /\
  (forall c, WS_CurrentPlan resp = Some c -> (WC_Feasible c = true <-> exists q, planWith ctx' existing links spec = Ok q)) /\
  (forall imp, WS_Improvement resp = Some imp ->
     (WI_FeasibilityChange imp = "infeasible_to_feasible"%string <-> forall q, planWith ctx' existing links spec ≠ Ok q)).

Lemma whatIfAnswer_sound req spec existing links :
  params_ok spec -> Model_Layers spec < 2 ^ 43 -> Forall link_ok links -> bandwidths_ok req ->
  match whatIfAnswer ctx ctx' req spec existing links with
  | Refused code _ => code = 500
  | Answered _ resp => answers req spec existing links resp
  end.
Proof.
  intros Hp HL Hl Hb. unfold whatIfAnswer, answers. pose proof (scenario_links_ok req existing links Hb Hl) as Hall.
  destruct (scenario req existing links) as [allNodes allLinks]. cbn [fst snd] in *.
  pose proof (planWith_info ctx allNodes allLinks spec) as Hinfo.
  pose proof (Plan_returns (pc_poll ctx) (pc_polls ctx) (pc_threshold ctx) allNodes allLinks spec Constraints_zero Hp Hall HL) as Hnp.
  pose proof (Plan_returns (pc_poll ctx') (pc_polls ctx') (pc_threshold ctx') existing links spec Constraints_zero Hp Hl HL) as Hnp'.
  fold (planWith ctx allNodes allLinks spec) in Hnp. fold (planWith ctx' existing links spec) in Hnp'.
  destruct (currentPlan_some _ Hnp') as (c & curMin & curMax & Hc). rewrite Hc. apply currentPlan_feasible in Hc.
  assert (Hsome : forall A (x : A), is_Some (Some x) <-> true = true) by (intros A x; split; [done|by eexists]).
  assert (Hnone : forall A, is_Some (@None A) <-> false = true) by (intros A; split; [by intros (? & ?)|done]).
  destruct (planWith ctx allNodes allLinks spec) as [p|e|] eqn:Hok; [| |done].
  - destruct (Hinfo p Hp Hall eq_refl) as (I1 & I2 & I3).
    destruct (WR_IncludeExistingNodes req); cbn [WS_Feasible WS_Plan WS_CurrentPlan WS_Improvement];
      (split; [split_and!; auto|split; [auto|split; [by intros c' [= <-]|]]]); [|done].
    intros imp [= <-]. rewrite improvement_infeasible, <- not_true_iff_false, Hc. naive_solver.
  - destruct e, (WR_IncludeExistingNodes req); cbn [WS_Feasible WS_Plan WS_CurrentPlan WS_Improvement]; try done;
      (split; [done|split; [auto|split; [by intros c' [= <-]|done]]]).
Qed.

Lemma loadFleet_reads w r w' : loadFleet w = (r, w') -> w_db w' = w_db w /\ outside_same w w'.
Proof.
  unfold loadFleet, ListNodes, ListLinks. intros H. run_step H. apply query_spec in Hrun as (D & O & _). destruct r0 as [e|rows]; [by injection H as <- <-|].
  destruct (readyNodes rows); [by injection H as <- <-|]. run_step H. apply query_spec in Hrun as (D' & O' & _).
  injection H as <- <-. split; [congruence|]. by etrans.
Qed.

(** (C23) A what-if is a dry run, and its answer is the planner's. Whatever the request, the
    handler changes nothing: not the registry, not the gateway, not an agent. When it
    answers, it has read the model and the fleet, exactly the nodes that are READY or
    RUNNING and the links of the registry; the scenario is the hypothetical nodes with,
    when it takes part, the fleet. The answer is feasible exactly when the planner finds a
    plan for the scenario, and shows that plan, which covers all layers contiguously on
    nodes of the scenario; the current plan is reported when the fleet was asked for, and
    is feasible exactly when the planner finds a plan for the fleet; the change is said to
    be from infeasible to feasible exactly when it finds none. The parameters of the model,
    its layer count, the links of the registry and the bandwidths of the request are in
    range ([params_ok], [link_ok], [bandwidths_ok]). *)
Theorem what_if_sound (req : whatIfRequest) (w w' : World) a :
  (forall m spec, db_models (w_db w) !! WR_ModelID req = Some m -> modelSpec m = inr spec ->
     params_ok spec /\ Model_Layers spec < 2 ^ 43) ->
  (forall k l, db_links (w_db w) !! k = Some l -> link_ok (plannerLink l)) -> bandwidths_ok req ->
  handleWhatIfPlan ctx ctx' true (Request_ req) w = (a, w') ->
  w_db w' = w_db w /\ outside_same w w' /\
  forall code resp, a = Answered code resp ->
  exists m spec fleet links, db_models (w_db w) !! WR_ModelID req = Some m /\ modelSpec m = inr spec /\
    (forall n, n ∈ fleet <-> exists id rn, db_nodes (w_db w) !! id = Some rn /\ readyStates (Row.State rn) = true /\
                              plannerNode rn = inr n) /\
    (forall l, l ∈ links <-> exists k row, db_links (w_db w) !! k = Some row /\ l = plannerLink row) /\
    (forall n, n ∈ fst (scenario req fleet links) <->
       (exists hn, hn ∈ WR_HypotheticalNodes req /\ n = convertHypotheticalNode hn) \/ withFleet req = true /\ n ∈ fleet) /\
    answers req spec fleet links resp.
Proof.
  intros Hparams Hlinks Hb H. unfold handleWhatIfPlan in H. cbn [negb] in H.
  destruct (WR_ModelID req =? "")%string; [by injection H as <- <-|]. run_step H. unfold ModelSpecFor in Hrun. run_step Hrun.
  apply query_spec in Hrun0 as (D1 & O1 & Hr). injection Hrun as <- <-. destruct r0 as [e|m].
  { injection H as <- <-. split; [done|]. split; [done|]. intros. by destruct (isNotFound e). }
  destruct (env_db (w_tick w)); [done|]. unfold getRow in Hr. destruct (db_models (w_db w) !! WR_ModelID req) as [row|] eqn:Hm; [|done].
  injection Hr as ->. destruct (modelSpec row) as [e|spec] eqn:Hs.
  { injection H as <- <-. split; [done|]. split; [done|]. intros. by destruct (isNotFound e). }
  run_step H. injection H as <- <-. destruct r as [e|[existing links]].
  { apply loadFleet_reads in Hrun as (D2 & O2). split; [congruence|]. split; [by etrans|]. done. }
  pose proof (loadFleet_reads _ _ _ Hrun) as (_ & O2). apply loadFleet_inv in Hrun as (D2 & Hn & Hl). rewrite D1 in D2, Hn, Hl.
  split; [done|]. split; [by etrans|]. intros code resp Ha. exists row, spec, existing, links. split; [done|]. split; [done|].
  split; [done|]. split; [done|]. split; [intros n; apply scenario_node|].
  assert (Hlk : Forall link_ok links) by (apply Forall_forall; intros l (k & lr & Hk & ->)%Hl; by eapply Hlinks).
  destruct (Hparams row spec eq_refl Hs) as [Hp HL].
  pose proof (whatIfAnswer_sound req spec existing links Hp HL Hlk Hb) as Hw. by rewrite Ha in Hw.
Qed.
End Sound.

(** ** A concrete purchase *)

Definition exBox (id : string) (vram : Z) (gpus : Z) : hypotheticalNode := mkHypothetical id (of_Z vram) gpus 64 (of_Z 64) (of_Z 80) f0.
Definition exWhatIf (boxes : list hypotheticalNode) (fleet : bool) : Answer whatIfResponse * World :=
  handleWhatIfPlan (E := calmEnv) (J := toyJSON) exCtx exCtx true (Request_ (mkWhatIf "m" boxes fleet)) exRegWorld.

Lemma exBoxes_ok boxes fleet : boxes = [exBox "new" 24 1] -> bandwidths_ok (mkWhatIf "m" boxes fleet).
Proof. intros ->. apply Forall_cons_2; [|done]. apply quantityb_spec. vm_compute. reflexivity. Qed.

(** With one more node next to the fleet. *)
Lemma exRegistry_model m spec : db_models exRegistry !! "m" = Some m -> modelSpec (J := toyJSON) m = inr spec ->
  params_ok spec /\ Model_Layers spec < 2 ^ 43.
Proof.
  intros Hm Hs. split; [by eapply exRegistry_params|].
  assert (Hm' : db_models exRegistry !! "m" = Some (exModelRow "spec")) by (vm_compute; reflexivity).
  rewrite Hm' in Hm. injection Hm as <-.
  assert (Hp : (Model_Layers (match modelSpec (J := toyJSON) (exModelRow "spec") with inr s => s | inl _ => ModelSpec_zero end) <? 2 ^ 43) = true)
    by (vm_compute; reflexivity).
  rewrite Hs in Hp. by apply Z.ltb_lt.
Qed.

Lemma what_if_sound_witness :
  exists resp info, fst (exWhatIf [exBox "new" 24 1] true) = Answered 200 resp /\ WS_Plan resp = Some info /\
    forall x, x ∈ WP_Assignments info -> WA_NodeID x = "new"%string \/
      exists id rn n, db_nodes exRegistry !! id = Some rn /\ readyStates (Row.State rn) = true /\
        plannerNode (J := toyJSON) rn = inr n /\ Node_ID n = WA_NodeID x.
Proof.
  assert (Hk : match fst (exWhatIf [exBox "new" 24 1] true) with
               | Answered code resp => (code =? 200) && (if WS_Plan resp then true else false) | _ => false end = true)
    by (vm_compute; reflexivity).
  destruct (what_if_sound (E := calmEnv) (J := toyJSON) exCtx exCtx (mkWhatIf "m" [exBox "new" 24 1] true) exRegWorld _ _
    exRegistry_model exRegistry_links (exBoxes_ok [exBox "new" 24 1] true eq_refl)
    (surjective_pairing (handleWhatIfPlan (E := calmEnv) (J := toyJSON) exCtx exCtx true
       (Request_ (mkWhatIf "m" [exBox "new" 24 1] true)) exRegWorld))) as (_ & _ & H).
  unfold exWhatIf in *. destruct (fst (handleWhatIfPlan _ _ true _ exRegWorld)) as [|code resp]; [discriminate Hk|].
  destruct (H code resp eq_refl) as (m & spec & fleet & links & _ & _ & Hfleet & _ & Hs & Ha & _). apply andb_true_iff in Hk as (Hc & Hk).
  apply Z.eqb_eq in Hc as ->. destruct (WS_Plan resp) as [info|] eqn:Hp; [|discriminate Hk].
  exists resp, info. split; [reflexivity|]. split; [exact Hp|]. intros x Hx.
  destruct (planWith _ _ _ _) as [p|e|]; [|destruct Ha as (_ & Ha & _); congruence|done].
  destruct Ha as (_ & Hi & _ & _ & Hin & _). assert (info = planInfo p) as -> by congruence.
  destruct (Hin x Hx) as (n & Hn & Hid). apply Hs in Hn as [(hn & Hhn & ->)|(_ & Hn)].
  - left. cbn in Hhn. apply list_elem_of_singleton in Hhn as ->. rewrite <- Hid. reflexivity.
  - right. apply Hfleet in Hn as (id & rn & H1 & H2 & H3). exists id, rn, n. auto.
Defined.

(** The number of GPUs of a hypothetical node makes no difference. *)
Example gpu_count_ignored id vram g g' : convertHypotheticalNode (exBox id vram g) = convertHypotheticalNode (exBox id vram g').
Proof. done. Qed.
