(* ===== verification/Glob.v ===== *)
(** * Glob: patterns and paths

    Package [path]: [Match], with its chunks between stars, classes and escapes, and
    [Base]. A string is its bytes; a class and a question mark read one rune. *)
From S2P Require Import Prelude Text.
Open Scope Z_scope.

Definition slash : Z := 47.

(** [utf8.DecodeRuneInString] of a string that is not empty: the rune and its width. *)
Definition decodeRune (l : list Z) : Z * nat :=
  match l with
  | [] => (RuneError, 0%nat)
  | b0 :: r0 =>
      if b0 <? 128 then (b0, 1%nat)
      else if (194 <=? b0) && (b0 <=? 223) then
        match r0 with
        | b1 :: _ => if continues b1 then (b0 mod 32 * 64 + b1 mod 64, 2%nat) else (RuneError, 1%nat)
        | [] => (RuneError, 1%nat)
        end
      else if (224 <=? b0) && (b0 <=? 239) then
        match r0 with
        | b1 :: b2 :: _ =>
            if accepted b0 b1 && continues b2 then (b0 mod 16 * 4096 + b1 mod 64 * 64 + b2 mod 64, 3%nat) else (RuneError, 1%nat)
        | _ => (RuneError, 1%nat)
        end
      else if (240 <=? b0) && (b0 <=? 244) then
        match r0 with
        | b1 :: b2 :: b3 :: _ =>
            if accepted b0 b1 && continues b2 && continues b3
            then (b0 mod 8 * 262144 + b1 mod 64 * 4096 + b2 mod 64 * 64 + b3 mod 64, 4%nat) else (RuneError, 1%nat)
        | _ => (RuneError, 1%nat)
        end
      else (RuneError, 1%nat)
  end.

(** The stars, the text up to the next star outside a class, and the rest. *)
Fixpoint scanText (inrange : bool) (p : list Z) : list Z * list Z :=
  match p with
  | [] => ([], [])
  | c :: p' =>
      if c =? 92 then
        match p' with
        | [] => ([c], [])
        | d :: p'' => let '(x, y) := scanText inrange p'' in (c :: d :: x, y)
        end
      else if (c =? 42) && negb inrange then ([], p)
      else let '(x, y) := scanText (if c =? 91 then true else if c =? 93 then false else inrange) p' in (c :: x, y)
  end.

Fixpoint dropStars (p : list Z) : bool * list Z :=
  match p with c :: p' => if c =? 42 then (true, snd (dropStars p')) else (false, p) | [] => (false, []) end.

Definition scanChunk (p : list Z) : bool * list Z * list Z :=
  let '(star, p) := dropStars p in let '(x, y) := scanText false p in (star, x, y).

(** A character of a class; [None] is [ErrBadPattern]. *)
Definition getEsc (chunk : list Z) : option (Z * list Z) :=
  match chunk with
  | [] => None
  | c :: r =>
      if (c =? 45) || (c =? 93) then None
      else
        let chunk := if c =? 92 then r else chunk in
        match chunk with
        | [] => None
        | _ =>
            let '(r, n) := decodeRune chunk in
            if (r =? RuneError) && (n =? 1)%nat then None
            else match drop n chunk with [] => None | rest => Some (r, rest) end
        end
  end.

(** One range of a class, and what follows it. *)
Definition afterRange (chunk : list Z) : option (Z * Z * list Z) :=
  match getEsc chunk with
  | None => None
  | Some (lo, []) => Some (lo, lo, [])
  | Some (lo, c :: rest) =>
      if c =? 45 then match getEsc rest with None => None | Some (hi, rest) => Some (lo, hi, rest) end
      else Some (lo, lo, c :: rest)
  end.

(** The ranges of a class up to its bracket: whether [r] is in one, and the rest. *)
Fixpoint ranges (fuel : nat) (r : Z) (chunk : list Z) (matched : bool) (n : nat) : option (bool * list Z) :=
  match fuel with
  | O => None
  | S fuel =>
      if match chunk with c :: _ => (c =? 93) && negb (n =? 0)%nat | [] => false end then Some (matched, tail chunk)
      else match afterRange chunk with
           | None => None
           | Some (lo, hi, chunk) => ranges fuel r chunk (matched || (lo <=? r) && (r <=? hi)) (S n)
           end
  end.

(** The caret of a negated class. *)
Definition negation (chunk : list Z) : bool * list Z :=
  match chunk with c :: x => if c =? 94 then (true, x) else (false, chunk) | [] => (false, chunk) end.

Inductive ChunkResult : Type := BadPattern | NoMatch | Matched (rest : list Z).

(** The chunk is read to its end also after the match failed. *)
Fixpoint matchChunk (fuel : nat) (failed : bool) (chunk s : list Z) : ChunkResult :=
  match fuel with
  | O => BadPattern
  | S fuel =>
      let literal (d : Z) (rest : list Z) (failed : bool) :=
        match s with
        | x :: s' => if failed then matchChunk fuel true rest s else matchChunk fuel (negb (d =? x)) rest s'
        | [] => matchChunk fuel true rest s
        end in
      match chunk with
      | [] => if failed then NoMatch else Matched s
      | c :: chunk1 =>
          let failed := failed || (length s =? 0)%nat in
          if c =? 91 then
            let '(r, s') := if failed then (0, s) else let '(r, n) := decodeRune s in (r, drop n s) in
            let '(negated, chunk2) := negation chunk1 in
            match ranges (S (length chunk2)) r chunk2 false 0 with
            | None => BadPattern
            | Some (m, chunk3) => matchChunk fuel (failed || Bool.eqb m negated) chunk3 s'
            end
          else if c =? 63 then
            if failed then matchChunk fuel true chunk1 s
            else matchChunk fuel (match s with x :: _ => x =? slash | [] => true end) chunk1 (drop (snd (decodeRune s)) s)
          else if c =? 92 then match chunk1 with [] => BadPattern | d :: chunk2 => literal d chunk2 failed end
          else literal c chunk1 failed
      end
  end.

Definition matchAt (chunk s : list Z) : ChunkResult := matchChunk (S (length chunk)) false chunk s.

(** The places after a star, none past a slash; the last chunk ends the name. *)
Fixpoint skipTo (chunk : list Z) (last : bool) (name : list Z) : ChunkResult :=
  match name with
  | [] => NoMatch
  | x :: name' =>
      if x =? slash then NoMatch
      else match matchAt chunk name' with
           | Matched t => if last && negb (length t =? 0)%nat then skipTo chunk last name' else Matched t
           | BadPattern => BadPattern
           | NoMatch => skipTo chunk last name'
           end
  end.

(** Whether the rest of a pattern that did not match is well formed. *)
Fixpoint wellFormed (fuel : nat) (p : list Z) : bool :=
  match fuel with
  | O => true
  | S fuel =>
      match p with
      | [] => true
      | _ => let '(_, chunk, p) := scanChunk p in
             match matchAt chunk [] with BadPattern => false | _ => wellFormed fuel p end
      end
  end.

(** [None] is [ErrBadPattern]. *)
Fixpoint matchLoop (fuel : nat) (p name : list Z) : option bool :=
  match fuel with
  | O => None
  | S fuel =>
      match p with
      | [] => Some (length name =? 0)%nat
      | _ =>
          let '(star, chunk, p) := scanChunk p in
          if star && (length chunk =? 0)%nat then Some (negb (existsb (Z.eqb slash) name))
          else
            let last := (length p =? 0)%nat in
            match matchAt chunk name with
            | BadPattern => None
            | first =>
                match (match first with Matched t => if (length t =? 0)%nat || negb last then first else NoMatch | r => r end) with
                | Matched t => matchLoop fuel p t
                | _ =>
                    match (if star then skipTo chunk last name else NoMatch) with
                    | Matched t => matchLoop fuel p t
                    | BadPattern => None
                    | NoMatch => if wellFormed (S (length p)) p then Some false else None
                    end
                end
            end
      end
  end.

(** [path.Match]. *)
Definition Match_ (pattern name : string) : option bool := matchLoop (S (String.length pattern)) (bytes pattern) (bytes name).

(** The text after the last slash. *)
Definition lastSegment (s : string) : string := List.last (Split s "/"%char) "".

(** [path.Base]. *)
Definition Base (s : string) : string :=
  if (s =? "")%string then "."
  else let s := lastSegment (TrimRight s "/"%char) in if (s =? "")%string then "/" else s.

Example matches :
  Match_ "*.Q4_K_M.gguf" "Llama.Q4_K_M.gguf" = Some true /\ Match_ "a[b-d]?" "ac9" = Some true /\ Match_ "[^a]*" "abc" = Some false /\
  Match_ "*" "a/b" = Some false /\ Match_ "[" "a" = None /\ Match_ "a*b*c" "axxbyyc" = Some true /\ Match_ "\*" "*" = Some true /\
  Base "meta/llama/" = "llama"%string /\ Base "" = "."%string /\ Base "//" = "/"%string.
Proof. vm_compute. done. Qed.

(** ** Enough fuel

    Every step reads a byte of the pattern: with more fuel than its length the result
    does not depend on the fuel. *)

Lemma getEsc_shorter chunk lo rest : getEsc chunk = Some (lo, rest) -> (length rest < length chunk)%nat.
Proof.
  assert (Hd : forall c, c ≠ [] -> forall r n, decodeRune c = (r, n) -> (0 < n)%nat).
  { intros [|b0 c] Hc r n; [done|]. unfold decodeRune. intros H. repeat case_match; simplify_eq; lia. }
  unfold getEsc. destruct chunk as [|c r]; [done|]. destruct (_ || _); [done|].
  set (chunk := if c =? 92 then r else c :: r).
  assert (Hl : (length chunk <= length (c :: r))%nat) by (unfold chunk; destruct (c =? 92); cbn; lia).
  destruct chunk as [|x y] eqn:Hc; [done|]. destruct (decodeRune (x :: y)) as [rune n] eqn:Hr.
  destruct (_ && _); [done|]. destruct (drop n (x :: y)) as [|u v] eqn:Hv; [done|]. intros [= <- <-].
  apply Hd in Hr; [|done]. assert (length (u :: v) = length (x :: y) - n)%nat as -> by (rewrite <- Hv; apply length_drop). cbn in *. lia.
Qed.

Lemma afterRange_shorter chunk lo hi rest : afterRange chunk = Some (lo, hi, rest) -> (length rest < length chunk)%nat.
Proof.
  unfold afterRange. destruct (getEsc chunk) as [[l [|c x]]|] eqn:H1; [| |done]; apply getEsc_shorter in H1; [by intros [= <- <- <-]|].
  destruct (c =? 45); [|by intros [= <- <- <-]]. destruct (getEsc x) as [[h y]|] eqn:H2; [|done]. apply getEsc_shorter in H2.
  intros [= <- <- <-]. cbn in *. lia.
Qed.

Lemma ranges_spec f r chunk m n :
  (length chunk < f)%nat ->
  (forall f', (length chunk < f')%nat -> ranges f' r chunk m n = ranges f r chunk m n) /\
  (forall b rest, ranges f r chunk m n = Some (b, rest) -> (length rest <= length chunk)%nat).
Proof.
  revert chunk m n. induction f as [|f IH]; intros chunk m n Hf; [lia|]. split.
  - intros [|f'] Hf'; [lia|]. cbn. destruct (match chunk with [] => _ | _ => _ end); [done|].
    destruct (afterRange chunk) as [[[lo hi] rest]|] eqn:Ha; [|done]. apply afterRange_shorter in Ha. apply IH; lia.
  - intros b rest. cbn. destruct (match chunk with [] => _ | _ => _ end); [intros [= <- <-]; destruct chunk; cbn; lia|].
    destruct (afterRange chunk) as [[[lo hi] x]|] eqn:Ha; [|done]. apply afterRange_shorter in Ha. intros H. apply IH in H; lia.
Qed.

Lemma matchChunk_fuel f f' failed chunk s :
  (length chunk < f)%nat -> (length chunk < f')%nat -> matchChunk f' failed chunk s = matchChunk f failed chunk s.
Proof.
  revert f' failed chunk s. induction f as [|f IH]; intros f' failed chunk s Hf Hf'; [lia|]. destruct f' as [|f']; [lia|].
  cbn [matchChunk]. destruct chunk as [|c chunk]; [done|]. cbn [length] in *.
  destruct (c =? 91).
  { destruct (if failed || _ then _ else _) as [r s']. destruct (negation chunk) as [neg chunk2] eqn:Hn.
    assert (length chunk2 <= length chunk)%nat.
    { unfold negation in Hn. destruct chunk as [|d x]; [|destruct (d =? 94)]; injection Hn as <- <-; cbn; lia. }
    destruct (ranges _ r chunk2 false 0) as [[m chunk3]|] eqn:Hr; [|done].
    apply ranges_spec in Hr; [|lia]. apply IH; lia. }
  destruct (c =? 63); [destruct (failed || _); apply IH; lia|]. destruct (c =? 92).
  - destruct chunk as [|d chunk]; [done|]. cbn [length] in *. destruct s as [|x s]; [|destruct (failed || _)]; apply IH; lia.
  - destruct s as [|x s]; [|destruct (failed || _)]; apply IH; lia.
Qed.

(** A pattern without its first chunk is shorter. *)
Lemma scanChunk_shorter p star chunk rest : p ≠ [] -> scanChunk p = (star, chunk, rest) -> (length rest < length p)%nat.
Proof.
  assert (Ht : forall q r x y, scanText r q = (x, y) -> (length x + length y = length q)%nat).
  { intros q. induction q as [q IH] using (induction_ltof1 _ (@length Z)). unfold ltof in IH. intros r x y H.
    destruct q as [|c q]; [by injection H as <- <-|]. cbn in H. destruct (c =? 92).
    - destruct q as [|d q]; [by injection H as <- <-|]. destruct (scanText r q) as [u v] eqn:Hu. injection H as <- <-.
      apply IH in Hu; cbn in *; lia.
    - destruct (_ && _); [by injection H as <- <-|]. destruct (scanText _ q) as [u v] eqn:Hu. injection H as <- <-.
      apply IH in Hu; cbn in *; lia. }
  intros Hp. unfold scanChunk. destruct p as [|c p]; [done|].
  assert (Hs : (length (snd (dropStars p)) <= length p)%nat).
  { clear. induction p as [|d p IH]; cbn; [lia|]. destruct (d =? 42); cbn in *; lia. }
  cbn [dropStars]. destruct (c =? 42) eqn:Hc.
  - destruct (scanText false (snd (dropStars p))) as [x y] eqn:Hx. apply Ht in Hx. intros [= <- <- <-]. cbn. lia.
  - destruct (scanText false (c :: p)) as [x y] eqn:Hx. intros [= <- <- <-]. pose proof (Ht _ _ _ _ Hx) as Hl.
    assert (x ≠ []); [|destruct x; cbn in *; [done|lia]]. cbn in Hx. rewrite Hc in Hx. cbn [andb] in Hx.
    destruct (c =? 92); [destruct p as [|d p]; [by injection Hx as <- _|]|]; destruct (scanText _ _); by injection Hx as <- _.
Qed.

Lemma wellFormed_fuel f f' p : (length p < f)%nat -> (length p < f')%nat -> wellFormed f' p = wellFormed f p.
Proof.
  revert f' p. induction f as [|f IH]; intros f' p Hf Hf'; [lia|]. destruct f' as [|f']; [lia|]. cbn [wellFormed].
  destruct p as [|c p]; [done|]. destruct (scanChunk (c :: p)) as [[star chunk] rest] eqn:Hs.
  apply scanChunk_shorter in Hs; [|done]. destruct (matchAt chunk []); [done|apply IH; lia..].
Qed.

Lemma matchLoop_fuel f f' p name : (length p < f)%nat -> (length p < f')%nat -> matchLoop f' p name = matchLoop f p name.
Proof.
  revert f' p name. induction f as [|f IH]; intros f' p name Hf Hf'; [lia|]. destruct f' as [|f']; [lia|]. cbn [matchLoop].
  destruct p as [|c p]; [done|]. destruct (scanChunk (c :: p)) as [[star chunk] rest] eqn:Hs.
  apply scanChunk_shorter in Hs; [|done]. assert (Hr : forall t, matchLoop f' rest t = matchLoop f rest t) by (intros; apply IH; lia).
  destruct (star && _); [done|]. destruct (matchAt chunk name) as [| |t]; [done| |destruct (_ || _); [apply Hr|]];
    (destruct (if star then _ else _); [done|done|apply Hr]).
Qed.

(** ** A star and a literal text *)

(** Neither a star, a question mark, a bracket nor a backslash. *)
Definition plain (c : Z) : bool := negb ((c =? 42) || (c =? 63) || (c =? 91) || (c =? 93) || (c =? 92)).

Lemma matchChunk_failed f t s : forallb plain t = true -> (length t < f)%nat -> matchChunk f true t s = NoMatch.
Proof.
  revert t s. induction f as [|f IH]; intros t s Ht Hf; [lia|]. destruct t as [|c t]; [done|]. cbn [forallb length] in *.
  apply andb_true_iff in Ht as (Hc & Ht). unfold plain in Hc. apply negb_true_iff in Hc.
  repeat (apply orb_false_iff in Hc as (Hc & ?)). cbn [matchChunk]. rewrite H1, H2, H. cbn [orb].
  destruct s as [|x s]; apply IH; try done; lia.
Qed.

Lemma matchChunk_literal f t s :
  forallb plain t = true -> (length t < f)%nat ->
  matchChunk f false t s = match dropPrefix t s with Some r => Matched r | None => NoMatch end.
Proof.
  revert t s. induction f as [|f IH]; intros t s Ht Hf; [lia|]. destruct t as [|c t]; [done|]. pose proof Ht as Hall. cbn [forallb length] in *.
  apply andb_true_iff in Ht as (Hc & Ht). unfold plain in Hc. apply negb_true_iff in Hc.
  repeat (apply orb_false_iff in Hc as (Hc & ?)). cbn [matchChunk]. rewrite H1, H2, H. cbn [orb].
  destruct s as [|x s]; cbn [length Nat.eqb dropPrefix]; [apply matchChunk_failed; [done|lia]|].
  destruct (c =? x); cbn [negb]; [apply IH; [done|lia]|apply matchChunk_failed; [done|lia]].
Qed.

Fixpoint endsWith (l t : list Z) : bool := bool_decide (l = t) || match l with [] => false | _ :: l => endsWith l t end.

Lemma scan_literal t : forallb plain t = true -> t ≠ [] -> scanChunk (42 :: t) = (true, t, []).
Proof.
  intros Ht Hne. assert (Hs : forall r, scanText r t = (t, [])).
  { clear Hne. induction t as [|c t IH]; intros r; [done|]. cbn [forallb] in Ht. apply andb_true_iff in Ht as (Hc & Ht).
    unfold plain in Hc. apply negb_true_iff in Hc. repeat (apply orb_false_iff in Hc as (Hc & ?)).
    cbn. rewrite H, Hc. cbn [andb]. by rewrite (IH Ht). }
  assert (Hd : dropStars t = (false, t)).
  { destruct t as [|c t]; [done|]. cbn in Ht. apply andb_true_iff in Ht as (Hc & _). unfold plain in Hc. apply negb_true_iff in Hc.
    repeat (apply orb_false_iff in Hc as (Hc & ?)). cbn. by rewrite Hc. }
  unfold scanChunk. cbn [dropStars Z.eqb Pos.eqb]. rewrite Hd. cbn [snd]. by rewrite (Hs false).
Qed.

Lemma dropPrefix_all t s : dropPrefix t s = Some [] <-> s = t.
Proof.
  revert s. induction t as [|c t IH]; intros s; cbn; [split; [by intros [= ->]|by intros ->]|].
  destruct s as [|x s]; [done|]. destruct (Z.eqb_spec c x) as [->|Hne].
  - rewrite IH. split; [by intros ->|by intros [= ->]].
  - split; [done|]. intros [= ->]. done.
Qed.

(** The result of a literal chunk that ends the pattern. *)
Lemma literal_last t s :
  forallb plain t = true ->
  match matchAt t s with Matched r => if (length r =? 0)%nat then true else false | _ => false end = bool_decide (s = t) /\ matchAt t s ≠ BadPattern.
Proof.
  intros Ht. unfold matchAt. rewrite matchChunk_literal by (done || lia). destruct (dropPrefix t s) as [[|x r]|] eqn:Hd; cbn; (split; [|done]); symmetry.
  - apply bool_decide_eq_true, dropPrefix_all, Hd.
  - apply bool_decide_eq_false. intros <-. rewrite (proj2 (dropPrefix_all s s) eq_refl) in Hd. done.
  - apply bool_decide_eq_false. intros <-. rewrite (proj2 (dropPrefix_all s s) eq_refl) in Hd. done.
Qed.

Lemma skipTo_literal t name :
  forallb plain t = true -> existsb (Z.eqb slash) name = false ->
  skipTo t true name = if match name with [] => false | _ :: n => endsWith n t end then Matched [] else NoMatch.
Proof.
  intros Ht. induction name as [|x name IH]; [done|]. cbn [existsb]. intros Hs. apply orb_false_iff in Hs as (Hx & Hs).
  cbn [skipTo]. rewrite Z.eqb_sym, Hx. destruct (literal_last t name Ht) as (Hl & Hb).
  assert (Hend : endsWith name t = bool_decide (name = t) || match name with [] => false | _ :: n => endsWith n t end) by (by destruct name).
  rewrite Hend, <- Hl, (IH Hs). destruct (matchAt t name) as [| |[|y r]]; [done|done|done|]. done.
Qed.

Lemma bytes_inj s s' : bytes s = bytes s' -> s = s'.
Proof. intros H. by rewrite <- (ofBytes_bytes s), <- (ofBytes_bytes s'), H. Qed.

Lemma endsWith_bytes s t : endsWith (bytes s) (bytes t) = HasSuffix s t.
Proof.
  induction s as [|c s IH]; cbn [bytes endsWith HasSuffix]; [|rewrite IH]; f_equal;
    (apply eq_true_iff_eq; rewrite bool_decide_eq_true, String.eqb_eq; split; [intros H; by apply bytes_inj|by intros <-]).
Qed.

(** A star followed by a literal text matches exactly the names that end in the text. *)
Theorem star_literal (t name : string) :
  forallb plain (bytes t) = true -> t ≠ ""%string -> existsb (Z.eqb slash) (bytes name) = false ->
  Match_ ("*" +:+ t) name = Some (HasSuffix name t).
Proof.
  intros Ht Hne Hs. assert (Hb : bytes t ≠ []) by (by destruct t). unfold Match_. change (bytes ("*" +:+ t)) with (42 :: bytes t).
  assert (Hf : exists k, String.length ("*" +:+ t) = S k) by (eexists; reflexivity). destruct Hf as (k & ->).
  rewrite <- endsWith_bytes. generalize dependent (bytes name). intros l Hs. pose proof (scan_literal _ Ht Hb) as Hscan.
  destruct (literal_last (bytes t) l Ht) as (Hl & Hbad). pose proof (skipTo_literal _ _ Ht Hs) as Hskip.
  assert (Hend : endsWith l (bytes t) = bool_decide (l = bytes t) || match l with [] => false | _ :: n => endsWith n (bytes t) end) by (by destruct l).
  rewrite Hend, <- Hl. cbn [matchLoop]. rewrite Hscan.
  rewrite (proj2 (Nat.eqb_neq (length (bytes t)) 0)) by (by destruct (bytes t)). cbn [andb length Nat.eqb]. rewrite Hskip.
  destruct (matchAt (bytes t) l) as [| |[|y r]]; cbn; [done| |done|]; (destruct (match l with [] => _ | _ => _ end); done).
Qed.
