(* ===== verification/Importers.v ===== *)
(** * Importers: clients of the model registries outside

    Package [registry/importer]: the HuggingFace Hub, object storage with its signed
    URLs, SageMaker with its signed requests, Vertex AI with its cached tokens, and
    Azure ML.

    What the network, the files and the cryptography answer is a [Web]; a request is
    the record that is sent. The encoders of JSON, of URLs and of hexadecimal digits
    are definitions; the decoders of the replies are parameters. *)
From stdpp Require Import pretty.
From S2P Require Import Prelude Float64 AuditChain Text Glob Cluster Timestamp Registry Access.
Open Scope Z_scope.

(** ** Texts *)

(** [strings.Contains]. *)
Fixpoint Contains (s sub : string) : bool :=
  HasPrefix s sub || match s with EmptyString => false | String _ s => Contains s sub end.

(** [strings.Join] with a text between the parts. *)
Fixpoint JoinWith (sep : string) (l : list string) : string :=
  match l with [] => "" | [x] => x | x :: l => x +:+ sep +:+ JoinWith sep l end.

Definition TrimPrefix (s p : string) : string := default s (CutPrefix s p).

Definition newline : string := String "010" "".

(** The text up to the first byte [c] and the text after it. *)
Fixpoint cutAt (c : ascii) (s : string) : option (string * string) :=
  match s with
  | EmptyString => None
  | String a s =>
      if Ascii.eqb a c then Some (""%string, s)
      else match cutAt c s with Some (x, y) => Some (String a x, y) | None => None end
  end.

(** The text up to the last byte [c] and the text after it. *)
Fixpoint cutLast (c : ascii) (s : string) : option (string * string) :=
  match s with
  | EmptyString => None
  | String a s =>
      match cutLast c s with
      | Some (x, y) => Some (String a x, y)
      | None => if Ascii.eqb a c then Some (""%string, s) else None
      end
  end.

(** [strings.LastIndex] of one byte; [-1] is none. *)
Definition LastIndex (s : string) (c : ascii) : Z :=
  match cutLast c s with Some (x, _) => Z.of_nat (String.length x) | None => -1 end.

(** ** Percent-encoding *)

Definition unreserved (b : Z) : bool :=
  (65 <=? b) && (b <=? 90) || (97 <=? b) && (b <=? 122) || (48 <=? b) && (b <=? 57) ||
  (b =? 45) || (b =? 95) || (b =? 46) || (b =? 126).

(** [%02X]. *)
Definition upperHex (n : Z) : Z := if n <? 10 then 48 + n else 55 + n.
Definition percent (b : Z) : list Z := [37; upperHex (b / 16); upperHex (b mod 16)].

Definition awsEncodeByte (b : Z) : list Z := if unreserved b then [b] else percent b.
Definition awsEncode (s : string) : string := ofBytes (flat_map awsEncodeByte (bytes s)).

Definition awsEncodePath (s : string) : string := JoinWith "/" (map awsEncode (Split s "/"%char)).

(** [url.QueryEscape]: a space is a plus sign. *)
Definition queryByte (b : Z) : list Z := if unreserved b then [b] else if b =? 32 then [43] else percent b.
Definition QueryEscape (s : string) : string := ofBytes (flat_map queryByte (bytes s)).

Definition unhex (b : Z) : option Z :=
  if (48 <=? b) && (b <=? 57) then Some (b - 48)
  else if (97 <=? b) && (b <=? 102) then Some (b - 87)
  else if (65 <=? b) && (b <=? 70) then Some (b - 55)
  else None.

Fixpoint unescapeBytes (plus : bool) (l : list Z) : option (list Z) :=
  match l with
  | [] => Some []
  | b :: l =>
      if b =? 37 then
        match l with
        | x :: y :: l =>
            match unhex x, unhex y with
            | Some x, Some y => cons (16 * x + y) <$> unescapeBytes plus l
            | _, _ => None
            end
        | _ => None
        end
      else cons (if plus && (b =? 43) then 32 else b) <$> unescapeBytes plus l
  end.

(** [url.QueryUnescape], and [url.PathUnescape], which leaves a plus sign alone. *)
Definition QueryUnescape (s : string) : option string := ofBytes <$> unescapeBytes true (bytes s).
Definition PathUnescape (s : string) : option string := ofBytes <$> unescapeBytes false (bytes s).

(** [url.Values]: the pairs of the keys and their values, in the order of the text. *)
Definition Values : Type := list (string * string).

(** [URL.Query]: a pair that is not well formed is left out. *)
Definition queryPair (part : string) : option (string * string) :=
  if (part =? "")%string then None
  else if Contains part ";" then None
  else
    let '(k, v) := match cutAt "=" part with Some kv => kv | None => (part, ""%string) end in
    match QueryUnescape k, QueryUnescape v with Some k, Some v => Some (k, v) | _, _ => None end.

Definition parseQuery (raw : string) : Values := omap queryPair (Split raw "&"%char).

Definition setValue (k v : string) (q : Values) : Values := List.filter (fun kv => negb (kv.1 =? k)%string) q ++ [(k, v)].

(** [Values.Encode]: sorted by the key. *)
Definition encodePair (kv : string * string) : string := QueryEscape kv.1 +:+ "=" +:+ QueryEscape kv.2.
Definition EncodeValues (q : Values) : string :=
  JoinWith "&" (map encodePair (go_sort (fun a b => String.ltb a.1 b.1) q)).

(** ** JSON

    [encoding/json] escapes a quote, a backslash, the control characters, the three
    characters of HTML and the two line separators; what is no UTF-8 becomes the
    replacement character. *)

Definition jsonByte (b : Z) : list Z :=
  if (b =? 34) || (b =? 92) then [92; b]
  else if b =? 8 then [92; 98] else if b =? 12 then [92; 102] else if b =? 10 then [92; 110]
  else if b =? 13 then [92; 114] else if b =? 9 then [92; 116]
  else if (b <? 32) || (b =? 60) || (b =? 62) || (b =? 38)
  then [92; 117; 48; 48; byteOf (hexDigit (b / 16)); byteOf (hexDigit (b mod 16))]
  else [b].

(** The fuel is the number of the bytes; every step reads one. *)
Fixpoint jsonText (fuel : nat) (l : list Z) : list Z :=
  match fuel, l with
  | S fuel, b :: r =>
      if b <? 128 then jsonByte b ++ jsonText fuel r
      else
        let '(c, n) := decodeRune l in
        if (c =? RuneError) && (n =? 1)%nat then [92; 117; 102; 102; 102; 100] ++ jsonText fuel r
        else (if (c =? 8232) || (c =? 8233) then [92; 117; 50; 48; 50; 48 + c mod 16] else take n l) ++ jsonText fuel (drop n l)
  | _, _ => []
  end.

Definition jsonString (s : string) : string := ofBytes (34 :: jsonText (String.length s) (bytes s) ++ [34]).

Definition jsonMember (k v : string) : string := jsonString k +:+ ":" +:+ v.
Definition jsonObject (members : list (string * string)) : string :=
  "{" +:+ JoinWith "," (map (fun m => jsonMember m.1 m.2) members) +:+ "}".

(** ** Times *)

Definition basicDate (days : Z) : string := let '(y, m, d) := civil days in yearText y +:+ digits 2 m +:+ digits 2 d.

(** The layouts [20060102], [20060102T150405Z] and [2006-01-02T15:04:05Z]. *)
Definition dateStamp (t : Time) : string := basicDate (t / Second / 86400).
Definition dateTimeStamp (t : Time) : string :=
  let sod := (t / Second) mod 86400 in
  dateStamp t +:+ "T" +:+ digits 2 (sod / 3600) +:+ digits 2 (sod / 60 mod 60) +:+ digits 2 (sod mod 60) +:+ "Z".
Definition secondStamp (t : Time) : string := secondText (t / Second) +:+ "Z".

(** [int64]. *)
Definition toInt64 (n : Z) : Z := (n + 2 ^ 63) mod 2 ^ 64 - 2 ^ 63.

(** ** The world outside *)

(** [U_Text] is the scheme, the user and the fragment. *)
Record URL : Type := mkURL { U_Text : string; U_Host : string; U_Path : string; U_RawQuery : string }.

Record WebRequest : Type := mkWebRequest {
  WQ_Method : string; WQ_URL : URL; WQ_Header : list (string * string); WQ_Body : string }.

(** The bytes of a body and the error that ended it, if it did not end well. *)
Record Body : Type := mkBody { B_Text : string; B_Err : option Error }.
Record WebReply : Type := mkWebReply { WY_StatusCode : Z; WY_Body : Body }.

Definition ReadAll (b : Body) : Error + string := match B_Err b with Some e => inl e | None => inr (B_Text b) end.

Record hfSibling : Type := mkSibling { RFilename : string; HSize : Z }.
Record hfModelResponse : Type := mkHFModel { HM_ModelID : string; Siblings : list hfSibling; CardLicense : option string }.

Record serviceAccountJSON : Type := mkSAJSON { SJ_Type : string; SJ_PrivateKey : string; SJ_ClientEmail : string }.

Record packageSummary : Type := mkSummary {
  PS_Arn : string; PS_Version : Z; PS_CreationTime : Time; PS_Status : string; PS_Description : string }.
Record packageDetail : Type := mkPackageDetail {
  PD_Arn : string; PD_GroupName : string; PD_Description : string; PD_Containers : list string }.

Record vertexEntry : Type := mkVertexEntry {
  VE_Name : string; VE_VersionID : string; VE_DisplayName : string; VE_CreateTime : string; VE_Description : string;
  VE_ArtifactURI : string }.
Record azureEntry : Type := mkAzureEntry { ZE_Name : string; ZE_ModelUri : string; ZE_Stage : string; ZE_Description : string }.

Class Web : Type := {
  getenv : string -> string;
  readFile : nat -> string -> Error + string;
  (** [http.NewRequest] refuses a URL that does not parse. *)
  parseURL : string -> Error + URL;
  web_do : nat -> WebRequest -> Error + WebReply;
  pemDecode : string -> option string;
  RSAKey : Type;
  (** A key that is not an RSA key is [None]. *)
  parsePKCS8 : string -> Error + option RSAKey;
  (** PKCS #1 v1.5 over the SHA-256 digest of the text. *)
  signRS256 : nat -> RSAKey -> string -> Error + string;
  timeParse : string -> option Time;
  decodeHFModel : Body -> Error + hfModelResponse;
  decodeServiceAccount : string -> Error + serviceAccountJSON;
  decodeSummaries : string -> Error + list packageSummary;
  decodeDetail : string -> Error + packageDetail;
  (** [access_token] and [expires_in]. *)
  decodeToken : string -> Error + string * Z;
  decodeAccessToken : Body -> Error + string;
  decodeVertexList : string -> Error + list vertexEntry;
  decodeArtifact : string -> Error + string;
  decodeAzureList : Body -> Error + list azureEntry }.

(** The first of [families] in the text. *)
Definition familyIn (families : list string) (text : string) : option string := List.find (Contains text) families.

Section Clients.
Context `{E : Env} `{W : Web} `{C : Crypto} `{U : Unicode}.

Definition Do (req : WebRequest) : M (Error + WebReply) := let* t := next in cret (web_do t req).

Definition GET (url : URL) (header : list (string * string)) : WebRequest := mkWebRequest "GET" url header "".

Definition bearer (token : string) : string * string := ("Authorization"%string, "Bearer " +:+ token).

(** ** The HuggingFace Hub ([huggingface.go]) *)

Record HFClient : Type := mkHFClient { HF_Token : string; HF_BaseURL : string }.

Definition NewHFClient (token : string) : HFClient := mkHFClient token "https://huggingface.co".

Definition hf_baseURL (c : HFClient) : string :=
  if negb (HF_BaseURL c =? "")%string then HF_BaseURL c else "https://huggingface.co".

Record GGUFFile : Type := mkGGUFFile { GF_Name : string; GF_Size : Z }.

Record Metadata : Type := mkMetadata {
  MD_ModelID : string; MD_Name : string; MD_Family : string; MD_License : string; MD_GGUFFiles : list GGUFFile }.

(** [*HFError], or any other error. *)
Inductive FetchError : Type := HFError (Code : Z) (Repo : string) | OtherError (e : Error).

Definition IsNotFound (e : FetchError) : bool := match e with HFError code _ => code =? 404 | OtherError _ => false end.
Definition IsAuthRequired (e : FetchError) : bool :=
  match e with HFError code _ => (code =? 401) || (code =? 403) | OtherError _ => false end.

Definition guessFamily (name : string) : string :=
  default "" (familyIn ["llama"; "mistral"; "phi"; "gemma"; "qwen"] (ToLower name))%string.

(** A pattern that is not well formed matches nothing. *)
Definition matchesPattern (pattern : string) (s : hfSibling) : bool := default false (Match_ pattern (Base (RFilename s))).

Definition metadataOf (repo pattern : string) (r : hfModelResponse) : Metadata :=
  let pattern := if (pattern =? "")%string then "*.gguf"%string else pattern in
  let modelID := if (HM_ModelID r =? "")%string then repo else HM_ModelID r in
  mkMetadata modelID (Base modelID) (guessFamily (Base modelID)) (default "" (CardLicense r))
    (map (fun s => mkGGUFFile (RFilename s) (HSize s)) (List.filter (matchesPattern pattern) (Siblings r))).

Definition hfURL (c : HFClient) (repo revision : string) : string :=
  hf_baseURL c +:+ "/api/models/" +:+ repo +:+ "?blobs=true" +:+
  (if negb (revision =? "")%string && negb (revision =? "main")%string then "&revision=" +:+ revision else "").

Definition FetchMetadata (c : HFClient) (repo revision filenamePattern : string) : M (FetchError + Metadata) :=
  match parseURL (hfURL c repo revision) with
  | inl e => cret (inl (OtherError (Wrap "importer: build request" e)))
  | inr url =>
      let* resp := Do (GET url (if (HF_Token c =? "")%string then [] else [bearer (HF_Token c)])) in
      cret (match resp with
            | inl e => inl (OtherError (Wrap "importer: fetch HuggingFace metadata" e))
            | inr resp =>
                let code := WY_StatusCode resp in
                if (code =? 404) || (code =? 401) || (code =? 403) then inl (HFError code repo)
                else if negb (code =? 200) then inl (OtherError (ErrorString ("importer: HuggingFace API returned " +:+ pretty code)))
                else match decodeHFModel (WY_Body resp) with
                     | inl e => inl (OtherError (Wrap "importer: decode HuggingFace response" e))
                     | inr r => inr (metadataOf repo filenamePattern r)
                     end
            end)
  end.

Definition ListGGUFFiles (c : HFClient) (repo revision filenamePattern : string) : M (FetchError + list GGUFFile) :=
  let* meta := FetchMetadata c repo revision filenamePattern in
  cret (match meta with inl e => inl e | inr meta => inr (MD_GGUFFiles meta) end).

(** ** Object storage ([object_storage.go]) *)

Record ObjectSource : Type := mkObjectSource {
  OS_Type : string; OS_Bucket : string; OS_Key : string; OS_Region : string; OS_DownloadURL : string }.

Definition splitBucketKey (body : string) : string * string :=
  match cutAt "/" body with Some bk => bk | None => (body, ""%string) end.

(** The chain from the secret to the signing key. *)
Definition signingKey (secretKey date region service : string) : string :=
  hmacSHA256 (hmacSHA256 (hmacSHA256 (hmacSHA256 ("AWS4" +:+ secretKey) date) region) service) "aws4_request".

Definition s3Host (bucket region : string) : string := bucket +:+ ".s3." +:+ region +:+ ".amazonaws.com".

Definition sigV4PresignS3 (now : Time) (bucket key region accessKey secretKey : string) : string :=
  let dateTime := dateTimeStamp now in
  let date := dateStamp now in
  let host := s3Host bucket region in
  let credScope := date +:+ "/" +:+ region +:+ "/s3/aws4_request" in
  let credValue := awsEncode (accessKey +:+ "/" +:+ credScope) in
  let canonicalQS := "X-Amz-Algorithm=AWS4-HMAC-SHA256&X-Amz-Credential=" +:+ credValue +:+ "&X-Amz-Date=" +:+ dateTime +:+
    "&X-Amz-Expires=3600&X-Amz-SignedHeaders=host" in
  let canonicalRequest := JoinWith newline
    ["GET"; "/" +:+ awsEncodePath key; canonicalQS; "host:" +:+ host; ""; "host"; "UNSIGNED-PAYLOAD"]%string in
  let stringToSign := JoinWith newline ["AWS4-HMAC-SHA256"%string; dateTime; credScope; sha256HexOf canonicalRequest] in
  let sig := hexEncode (hmacSHA256 (signingKey secretKey date region "s3") stringToSign) in
  "https://" +:+ host +:+ "/" +:+ awsEncodePath key +:+ "?" +:+ canonicalQS +:+ "&X-Amz-Signature=" +:+ sig.

Definition parseS3 (uri : string) : M (Error + ObjectSource) :=
  let '(bucket, key) := splitBucketKey (TrimPrefix uri "s3://") in
  if (bucket =? "")%string then cret (inl (ErrorString "importer: s3 URI missing bucket"))
  else
    let region := if (getenv "PURSER_S3_REGION" =? "")%string then "us-east-1"%string else getenv "PURSER_S3_REGION" in
    let accessKey := getenv "AWS_ACCESS_KEY_ID" in
    let secretKey := getenv "AWS_SECRET_ACCESS_KEY" in
    if (accessKey =? "")%string || (secretKey =? "")%string
    then cret (inr (mkObjectSource "s3" bucket key region ("https://" +:+ s3Host bucket region +:+ "/" +:+ key)))
    else
      let* now := nowUTC in
      cret (inr (mkObjectSource "s3" bucket key region (sigV4PresignS3 now bucket key region accessKey secretKey))).

(** The RSA key of a service account. *)
Definition rsaKeyOf (sa : serviceAccountJSON) : Error + RSAKey :=
  match pemDecode (SJ_PrivateKey sa) with
  | None => inl (ErrorString "no PEM block found in private_key")
  | Some block =>
      match parsePKCS8 block with
      | inl e => inl (Wrap "parse private key" e)
      | inr None => inl (ErrorString "expected RSA private key")
      | inr (Some k) => inr k
      end
  end.

Definition gcsScope (now : Time) : string := dateStamp now +:+ "/auto/storage/goog4_request".

Definition gcsQuery (now : Time) (clientEmail : string) : string :=
  "X-Goog-Algorithm=GOOG4-RSA-SHA256&X-Goog-Credential=" +:+ awsEncode (clientEmail +:+ "/" +:+ gcsScope now) +:+
  "&X-Goog-Date=" +:+ dateTimeStamp now +:+ "&X-Goog-Expires=3600&X-Goog-SignedHeaders=host".

Definition gcsStringToSign (now : Time) (bucket key clientEmail : string) : string :=
  let canonicalRequest := JoinWith newline
    ["GET"; "/" +:+ bucket +:+ "/" +:+ awsEncodePath key; gcsQuery now clientEmail; "host:storage.googleapis.com"; ""; "host";
     "UNSIGNED-PAYLOAD"]%string in
  JoinWith newline ["GOOG4-RSA-SHA256"%string; dateTimeStamp now; gcsScope now; sha256HexOf canonicalRequest].

Definition gcsSignedURL (bucket key credFile : string) : M (Error + string) :=
  let* t := next in
  match readFile t credFile with
  | inl e => cret (inl (Wrap "read credentials" e))
  | inr data =>
      match decodeServiceAccount data with
      | inl e => cret (inl (Wrap "parse credentials" e))
      | inr sa =>
          if negb (SJ_Type sa =? "service_account")%string then cret (inl (ErrorString "unsupported credential type"))
          else match rsaKeyOf sa with
               | inl e => cret (inl e)
               | inr rsaKey =>
                   let* now := nowUTC in
                   let* t := next in
                   cret (match signRS256 t rsaKey (gcsStringToSign now bucket key (SJ_ClientEmail sa)) with
                         | inl e => inl (Wrap "rsa sign" e)
                         | inr sig => inr ("https://storage.googleapis.com/" +:+ bucket +:+ "/" +:+ awsEncodePath key +:+ "?" +:+
                                           gcsQuery now (SJ_ClientEmail sa) +:+ "&X-Goog-Signature=" +:+ hexEncode sig)
                         end)
               end
      end
  end.

Definition parseGCS (uri : string) : M (Error + ObjectSource) :=
  let '(bucket, key) := splitBucketKey (TrimPrefix uri "gs://") in
  if (bucket =? "")%string then cret (inl (ErrorString "importer: gs URI missing bucket"))
  else
    let credFile := getenv "GOOGLE_APPLICATION_CREDENTIALS" in
    if (credFile =? "")%string
    then cret (inr (mkObjectSource "gcs" bucket key "" ("https://storage.googleapis.com/" +:+ bucket +:+ "/" +:+ key)))
    else
      let* dl := gcsSignedURL bucket key credFile in
      cret (match dl with
            | inl e => inl (Wrap "importer: gcs sign" e)
            | inr dl => inr (mkObjectSource "gcs" bucket key "" dl)
            end).

Definition Hour : Duration := 60 * Minute.

Definition sasVersion : string := "2020-02-10".

Definition sasStringToSign (start expiry account container key : string) : string :=
  JoinWith newline ["r"; start; expiry; "/blob/" +:+ account +:+ "/" +:+ container +:+ "/" +:+ key; ""; ""; "https"; sasVersion;
    "b"; ""; ""; ""; ""; ""; ""]%string.

Definition azureSASURL (now : Time) (account container key storageKey : string) : Error + string :=
  let start := secondStamp now in
  let expiry := secondStamp (now + Hour) in
  match DecodeString StdEncoding storageKey with
  | None => inl (ErrorString "decode storage key")
  | Some keyBytes =>
      let sig := EncodeToString StdEncoding (hmacSHA256 keyBytes (sasStringToSign start expiry account container key)) in
      inr ("https://" +:+ account +:+ ".blob.core.windows.net/" +:+ container +:+ "/" +:+ key +:+ "?sv=" +:+ sasVersion +:+
           "&st=" +:+ QueryEscape start +:+ "&se=" +:+ QueryEscape expiry +:+ "&sr=b&sp=r&spr=https&sig=" +:+ QueryEscape sig)
  end.

Definition parseAzure (uri : string) : M (Error + ObjectSource) :=
  let '(container, key) := splitBucketKey (TrimPrefix uri "az://") in
  if (container =? "")%string then cret (inl (ErrorString "importer: az URI missing container"))
  else
    let account := getenv "AZURE_STORAGE_ACCOUNT" in
    let storageKey := getenv "AZURE_STORAGE_KEY" in
    if (account =? "")%string || (storageKey =? "")%string then
      let account := if (account =? "")%string then "unknown"%string else account in
      cret (inr (mkObjectSource "azure" container key "" ("https://" +:+ account +:+ ".blob.core.windows.net/" +:+ container +:+ "/" +:+ key)))
    else
      let* now := nowUTC in
      cret (match azureSASURL now account container key storageKey with
            | inl e => inl (Wrap "importer: azure sas" e)
            | inr dl => inr (mkObjectSource "azure" container key "" dl)
            end).

Definition ParseObjectURI (uri : string) : M (Error + ObjectSource) :=
  if HasPrefix uri "s3://" then parseS3 uri
  else if HasPrefix uri "gs://" then parseGCS uri
  else if HasPrefix uri "az://" then parseAzure uri
  else cret (inl (ErrorString "importer: unsupported URI scheme (want s3://, gs://, or az://)")).
End Clients.

Section Catalogues.
Context `{E : Env} `{W : Web} `{C : Crypto} `{U : Unicode}.

(** ** SageMaker ([sagemaker.go]) *)

Record SageMakerClient : Type := mkSageMakerClient { SM_Region : string; SM_ModelGroup : string; SM_BaseURL : string }.

Record ModelPackage : Type := mkModelPackage {
  ModelPackageArn : string; ModelPackageGroupName : string; ModelPackageVersion : Z; CreationTime : Time;
  ApprovalStatus : string; ModelPackageDescription : string; ModelDataURL : string }.

Definition NewSageMakerClient : SageMakerClient :=
  mkSageMakerClient
    (if (getenv "PURSER_SAGEMAKER_REGION" =? "")%string then "us-east-1"%string else getenv "PURSER_SAGEMAKER_REGION")
    (getenv "PURSER_SAGEMAKER_MODEL_GROUP") (getenv "PURSER_SAGEMAKER_BASE_URL").

Definition sm_endpoint (c : SageMakerClient) : string :=
  if negb (SM_BaseURL c =? "")%string then SM_BaseURL c else "https://api.sagemaker." +:+ SM_Region c +:+ ".amazonaws.com".

Definition listRequest (group : string) : string :=
  jsonObject [("ModelPackageGroupName", jsonString group); ("ModelApprovalStatus", jsonString "Approved");
              ("SortBy", jsonString "CreationTime"); ("SortOrder", jsonString "Descending")]%string.

Definition describeRequest (arn : string) : string := jsonObject [("ModelPackageName"%string, jsonString arn)].

Definition jsonContentType : string := "application/x-amz-json-1.1".

Definition signedHeaders : string := "content-type;host;x-amz-content-sha256;x-amz-date".

(** The headers the signature adds. *)
Definition sigV4Sign (t : Time) (url : URL) (payload accessKey secretKey region service : string) : list (string * string) :=
  let dateTime := dateTimeStamp t in
  let date := dateStamp t in
  let payloadHash := sha256HexOf payload in
  let canonicalURI := if (U_Path url =? "")%string then "/"%string else U_Path url in
  let canonicalReq := JoinWith newline
    ["POST"; canonicalURI; U_RawQuery url; "content-type:" +:+ jsonContentType; "host:" +:+ U_Host url;
     "x-amz-content-sha256:" +:+ payloadHash; "x-amz-date:" +:+ dateTime; ""; signedHeaders; payloadHash]%string in
  let credentialScope := date +:+ "/" +:+ region +:+ "/" +:+ service +:+ "/aws4_request" in
  let stringToSign := JoinWith newline ["AWS4-HMAC-SHA256"%string; dateTime; credentialScope; sha256HexOf canonicalReq] in
  let sig := hexEncode (hmacSHA256 (signingKey secretKey date region service) stringToSign) in
  [("x-amz-date", dateTime); ("x-amz-content-sha256", payloadHash);
   ("Authorization", "AWS4-HMAC-SHA256 Credential=" +:+ accessKey +:+ "/" +:+ credentialScope +:+
                     ", SignedHeaders=" +:+ signedHeaders +:+ ", Signature=" +:+ sig)]%string.

Definition sm_doRequest (c : SageMakerClient) (url body : string) : M (Error + string) :=
  match parseURL url with
  | inl e => cret (inl e)
  | inr url =>
      let ak := getenv "AWS_ACCESS_KEY_ID" in
      let sk := getenv "AWS_SECRET_ACCESS_KEY" in
      let* signature := (if negb (ak =? "")%string && negb (sk =? "")%string
                         then let* t := nowUTC in cret (sigV4Sign t url body ak sk (SM_Region c) "sagemaker")
                         else cret []) in
      let* resp := Do (mkWebRequest "POST" url (("Content-Type"%string, jsonContentType) :: signature) body) in
      cret (match resp with
            | inl e => inl e
            | inr resp =>
                match ReadAll (WY_Body resp) with
                | inl e => inl e
                | inr data =>
                    if (WY_StatusCode resp <? 200) || (300 <=? WY_StatusCode resp)
                    then inl (ErrorString ("HTTP " +:+ pretty (WY_StatusCode resp) +:+ ": " +:+ data)) else inr data
                end
            end)
  end.

(** The fields of the summary are filled in by the caller. *)
Definition describeModelPackage (c : SageMakerClient) (arn : string) : M (Error + ModelPackage) :=
  let* raw := sm_doRequest c (sm_endpoint c +:+ "/DescribeModelPackage") (describeRequest arn) in
  cret (match raw with
        | inl e => inl (Wrap "sagemaker: DescribeModelPackage" e)
        | inr raw =>
            match decodeDetail raw with
            | inl e => inl (Wrap "sagemaker: decode DescribeModelPackage response" e)
            | inr d => inr (mkModelPackage (PD_Arn d) (PD_GroupName d) 0 zeroTime "" (PD_Description d) (hd ""%string (PD_Containers d)))
            end
        end).

Definition withSummary (s : packageSummary) (p : ModelPackage) : ModelPackage :=
  mkModelPackage (ModelPackageArn p) (ModelPackageGroupName p) (PS_Version s) (PS_CreationTime s) (PS_Status s)
    (if (ModelPackageDescription p =? "")%string then PS_Description s else ModelPackageDescription p) (ModelDataURL p).

(** The first package that cannot be described ends the loop. *)
Fixpoint describeAll (c : SageMakerClient) (l : list packageSummary) : M (Error + list ModelPackage) :=
  match l with
  | [] => cret (inr [])
  | s :: l =>
      let* pkg := describeModelPackage c (PS_Arn s) in
      match pkg with
      | inl e => cret (inl e)
      | inr pkg =>
          let* rest := describeAll c l in
          cret (match rest with inl e => inl e | inr rest => inr (withSummary s pkg :: rest) end)
      end
  end.

Definition newestPackage (p q : ModelPackage) : bool := CreationTime q <? CreationTime p.

Definition ListApprovedModelPackages (c : SageMakerClient) : M (Error + list ModelPackage) :=
  let* raw := sm_doRequest c (sm_endpoint c +:+ "/ListModelPackages") (listRequest (SM_ModelGroup c)) in
  match raw with
  | inl e => cret (inl (Wrap "sagemaker: ListModelPackages" e))
  | inr raw =>
      match decodeSummaries raw with
      | inl e => cret (inl (Wrap "sagemaker: decode ListModelPackages response" e))
      | inr l =>
          let* packages := describeAll c l in
          cret (match packages with inl e => inl e | inr packages => inr (go_sort newestPackage packages) end)
      end
  end.

Definition GuessFamilyFromName (name description : string) : string :=
  default "unknown" (familyIn ["llama"; "mistral"; "mixtral"; "falcon"; "gemma"; "qwen"; "phi"; "gpt"; "bloom"; "mpt"; "yi"]
                       (ToLower (name +:+ " " +:+ description)))%string.

(** ** Vertex AI ([vertexai.go]) *)

Record tokenState : Type := mkTokenState { TS_token : string; TS_expiry : Time }.

Definition tokenState_zero : tokenState := mkTokenState "" zeroTime.

Definition tokenMargin : Duration := 30 * Second.

Definition ts_get (now : Time) (ts : tokenState) : option string :=
  if negb (TS_token ts =? "")%string && (now <? TS_expiry ts - tokenMargin) then Some (TS_token ts) else None.

Record VertexAIClient : Type := mkVertexAIClient {
  VC_Project : string; VC_Location : string; VC_BaseURL : string; VC_TokenURL : string;
  VC_TokenProvider : option (nat -> Error + string); VC_cache : tokenState }.

Definition with_cache (c : VertexAIClient) (ts : tokenState) : VertexAIClient :=
  mkVertexAIClient (VC_Project c) (VC_Location c) (VC_BaseURL c) (VC_TokenURL c) (VC_TokenProvider c) ts.

Record ModelVersion : Type := mkModelVersion {
  MV_Name : string; VersionID : string; MV_DisplayName : string; CreateTime : Time; MV_Description : string; ArtifactURI : string }.

Definition NewVertexAIClient : VertexAIClient :=
  mkVertexAIClient (getenv "PURSER_VERTEX_PROJECT")
    (if (getenv "PURSER_VERTEX_LOCATION" =? "")%string then "us-central1"%string else getenv "PURSER_VERTEX_LOCATION")
    "" "" None tokenState_zero.

Definition apiBase (c : VertexAIClient) : string :=
  if negb (VC_BaseURL c =? "")%string then TrimRight (VC_BaseURL c) "/"%char
  else "https://" +:+ VC_Location c +:+ "-aiplatform.googleapis.com/v1".

Definition tokenEndpoint (c : VertexAIClient) : string :=
  if negb (VC_TokenURL c =? "")%string then VC_TokenURL c else "https://oauth2.googleapis.com/token".

(** The body of an answer with status 200. *)
Definition okBody (what : string) (resp : Error + WebReply) : Error + string :=
  match resp with
  | inl e => inl (Wrap what e)
  | inr resp =>
      match ReadAll (WY_Body resp) with
      | inl e => inl e
      | inr body =>
          if negb (WY_StatusCode resp =? 200) then inl (ErrorString (what +:+ " " +:+ pretty (WY_StatusCode resp) +:+ ": " +:+ body))
          else inr body
      end
  end.

(** The product wraps around. *)
Definition expiresAt (now : Time) (seconds : Z) : Time := now + toInt64 (seconds * Second).

Definition metaURL : string := "http://metadata.google.internal/computeMetadata/v1/instance/service-accounts/default/token".

Definition tokenFromMetadataServer (c : VertexAIClient) : M ((Error + string) * VertexAIClient) :=
  match parseURL metaURL with
  | inl e => cret (inl e, c)
  | inr url =>
      let* resp := Do (GET url [("Metadata-Flavor", "Google")]%string) in
      match okBody "vertexai: metadata server" resp with
      | inl e => cret (inl e, c)
      | inr body =>
          match decodeToken body with
          | inl e => cret (inl (Wrap "vertexai: decode metadata token" e), c)
          | inr (token, expiresIn) =>
              if (token =? "")%string then cret (inl (ErrorString "vertexai: empty access_token from metadata server"), c)
              else
                let* now := nowUTC in
                cret (inr token, with_cache c (mkTokenState token (expiresAt now expiresIn)))
          end
      end
  end.

Definition exchangeForm (jwt : string) : string :=
  EncodeValues [("grant_type", "urn:ietf:params:oauth:grant-type:jwt-bearer"); ("assertion", jwt)]%string.

Definition formHeader : string * string := ("Content-Type", "application/x-www-form-urlencoded")%string.

Definition exchangeJWT (c : VertexAIClient) (jwt : string) (expiry : Time) : M ((Error + string) * VertexAIClient) :=
  match parseURL (tokenEndpoint c) with
  | inl e => cret (inl e, c)
  | inr url =>
      let* resp := Do (mkWebRequest "POST" url [formHeader] (exchangeForm jwt)) in
      match okBody "vertexai: token request" resp with
      | inl e => cret (inl e, c)
      | inr body =>
          match decodeToken body with
          | inl e => cret (inl (Wrap "vertexai: decode token response" e), c)
          | inr (token, expiresIn) =>
              if (token =? "")%string then cret (inl (ErrorString "vertexai: empty access_token in exchange response"), c)
              else
                let* expiry := (if 0 <? expiresIn then let* now := nowUTC in cret (expiresAt now expiresIn) else cret expiry) in
                cret (inr token, with_cache c (mkTokenState token expiry))
          end
      end
  end.

Definition base64url (s : string) : string := EncodeToString RawURLEncoding s.

Definition jwtHeader : string := jsonObject [("alg", jsonString "RS256"); ("typ", jsonString "JWT")]%string.

Definition jwtClaims (email : string) (now expiry : Time) : string :=
  jsonObject [("aud", jsonString "https://oauth2.googleapis.com/token"); ("exp", pretty (expiry / Second)); ("iat", pretty (now / Second));
              ("iss", jsonString email); ("scope", jsonString "https://www.googleapis.com/auth/cloud-platform");
              ("sub", jsonString email)]%string.

Definition tokenFromServiceAccount (c : VertexAIClient) (credPath : string) : M ((Error + string) * VertexAIClient) :=
  let* t := next in
  match readFile t credPath with
  | inl e => cret (inl (Wrap "vertexai: read credentials" e), c)
  | inr data =>
      match decodeServiceAccount data with
      | inl e => cret (inl (Wrap "vertexai: parse credentials" e), c)
      | inr sa =>
          match rsaKeyOf sa with
          | inl e => cret (inl e, c)
          | inr rsaKey =>
              let* now := nowUTC in
              let expiry := now + Hour in
              let sigInput := base64url jwtHeader +:+ "." +:+ base64url (jwtClaims (SJ_ClientEmail sa) now expiry) in
              let* t := next in
              match signRS256 t rsaKey sigInput with
              | inl e => cret (inl (Wrap "vertexai: sign JWT" e), c)
              | inr sig => exchangeJWT c (sigInput +:+ "." +:+ base64url sig) expiry
              end
          end
      end
  end.

Definition getToken (c : VertexAIClient) : M ((Error + string) * VertexAIClient) :=
  match VC_TokenProvider c with
  | Some provider => let* t := next in cret (provider t, c)
  | None =>
      let* now := nowUTC in
      match ts_get now (VC_cache c) with
      | Some token => cret (inr token, c)
      | None =>
          let creds := getenv "GOOGLE_APPLICATION_CREDENTIALS" in
          if negb (creds =? "")%string then tokenFromServiceAccount c creds else tokenFromMetadataServer c
      end
  end.

Definition stripVersion (name : string) : string :=
  if LastIndex name "/" <? LastIndex name "@" then match cutLast "@" name with Some (x, _) => x | None => name end else name.

Definition resolveModel (c : VertexAIClient) (name : string) : string * string * string :=
  let name := stripVersion name in
  match Split name "/"%char with
  | [p; project; l; location; m; modelID] =>
      if (p =? "projects")%string && (l =? "locations")%string && (m =? "models")%string then (project, location, modelID)
      else (VC_Project c, VC_Location c, name)
  | _ => (VC_Project c, VC_Location c, name)
  end.

Definition modelURL (c : VertexAIClient) (name : string) : string :=
  let '(project, location, modelID) := resolveModel c name in
  apiBase c +:+ "/projects/" +:+ project +:+ "/locations/" +:+ location +:+ "/models/" +:+ modelID.

(** One authorised request: the body of an answer with status 200. *)
Definition vertexGet (c : VertexAIClient) (what url : string) : M ((Error + string) * VertexAIClient) :=
  let* (tok, c) := getToken c in
  match tok with
  | inl e => cret (inl (Wrap "vertexai: get token" e), c)
  | inr tok =>
      match parseURL url with
      | inl e => cret (inl e, c)
      | inr url => let* resp := Do (GET url [bearer tok]) in cret (okBody what resp, c)
      end
  end.

(** A time that does not parse is the zero time. *)
Definition versionOf (m : vertexEntry) : ModelVersion :=
  mkModelVersion (VE_Name m) (VE_VersionID m) (VE_DisplayName m) (default zeroTime (timeParse (VE_CreateTime m)))
    (VE_Description m) (VE_ArtifactURI m).

Definition newestVersion (v u : ModelVersion) : bool := CreateTime u <? CreateTime v.

Definition vertex_ListModelVersions (c : VertexAIClient) (modelName : string) : M ((Error + list ModelVersion) * VertexAIClient) :=
  let* (body, c) := vertexGet c "vertexai: list versions" (modelURL c modelName +:+ "/versions") in
  cret (match body with
        | inl e => inl e
        | inr body =>
            match decodeVertexList body with
            | inl e => inl (Wrap "vertexai: decode version list" e)
            | inr l => inr (go_sort newestVersion (map versionOf l))
            end
        end, c).

Definition GetArtifactURI (c : VertexAIClient) (modelName versionID : string) : M ((Error + string) * VertexAIClient) :=
  let* (body, c) := vertexGet c "vertexai: get model" (modelURL c modelName +:+ "@" +:+ versionID) in
  cret (match body with
        | inl e => inl e
        | inr body => match decodeArtifact body with inl e => inl (Wrap "vertexai: decode model" e) | inr uri => inr uri end
        end, c).

(** ** Azure ML ([azureml.go]) *)

Record AzureMLClient : Type := mkAzureMLClient {
  AZ_SubscriptionID : string; AZ_ResourceGroup : string; AZ_Workspace : string; AZ_BaseURL : string; AZ_TokenURL : string;
  AZ_tenantID : string; AZ_clientID : string; AZ_clientSecret : string; AZ_accessToken : string }.

Record AzureMLModelVersion : Type := mkAzureVersion {
  AV_Name : string; AV_Version : string; AV_Description : string; AV_ArtifactURI : string; AV_Stage : string }.

Definition azureTokenURL (tenantID : string) : string := "https://login.microsoftonline.com/" +:+ tenantID +:+ "/oauth2/v2.0/token".

Definition NewAzureMLClient (workspaceOverride : string) : Error + AzureMLClient :=
  let subID := getenv "PURSER_AZURE_SUBSCRIPTION_ID" in
  if (subID =? "")%string then inl (ErrorString "PURSER_AZURE_SUBSCRIPTION_ID not set")
  else
    let rg := getenv "PURSER_AZURE_RESOURCE_GROUP" in
    if (rg =? "")%string then inl (ErrorString "PURSER_AZURE_RESOURCE_GROUP not set")
    else
      let workspace := if negb (workspaceOverride =? "")%string then workspaceOverride else getenv "PURSER_AZURE_ML_WORKSPACE" in
      if (workspace =? "")%string then inl (ErrorString "workspace not set")
      else
        let tenantID := getenv "PURSER_AZURE_TENANT_ID" in
        let baseURL := getenv "PURSER_AZURE_ML_BASE_URL" in
        let tokenURL := getenv "PURSER_AZURE_TOKEN_URL" in
        inr (mkAzureMLClient subID rg workspace
               (if (baseURL =? "")%string then "https://management.azure.com"%string else baseURL)
               (if (tokenURL =? "")%string && negb (tenantID =? "")%string then azureTokenURL tenantID else tokenURL)
               tenantID (getenv "PURSER_AZURE_CLIENT_ID") (getenv "PURSER_AZURE_CLIENT_SECRET") "").

Definition credentialsForm (c : AzureMLClient) : string :=
  EncodeValues [("grant_type", "client_credentials"); ("client_id", AZ_clientID c); ("client_secret", AZ_clientSecret c);
                ("scope", "https://management.azure.com/.default")]%string.

(** The token, which the caller stores in the client. *)
Definition getAccessToken (c : AzureMLClient) : M (Error + string) :=
  if (AZ_tenantID c =? "")%string || (AZ_clientID c =? "")%string || (AZ_clientSecret c =? "")%string
  then cret (inl (ErrorString "OAuth2 credentials not configured"))
  else
    match parseURL (if (AZ_TokenURL c =? "")%string then azureTokenURL (AZ_tenantID c) else AZ_TokenURL c) with
    | inl e => cret (inl (Wrap "build token request" e))
    | inr url =>
        let* resp := Do (mkWebRequest "POST" url [formHeader] (credentialsForm c)) in
        cret (match resp with
              | inl e => inl (Wrap "token request" e)
              | inr resp =>
                  if negb (WY_StatusCode resp =? 200)
                  then inl (ErrorString ("token endpoint returned " +:+ pretty (WY_StatusCode resp) +:+ ": " +:+ TrimSpace (B_Text (WY_Body resp))))
                  else match decodeAccessToken (WY_Body resp) with
                       | inl e => inl (Wrap "decode token response" e)
                       | inr token => if (token =? "")%string then inl (ErrorString "empty access_token in OAuth2 response") else inr token
                       end
              end)
    end.

Definition azureURL (c : AzureMLClient) (modelName : string) : string :=
  let baseURL := if (AZ_BaseURL c =? "")%string then "https://management.azure.com"%string else AZ_BaseURL c in
  TrimRight baseURL "/"%char +:+ "/subscriptions/" +:+ AZ_SubscriptionID c +:+ "/resourceGroups/" +:+ AZ_ResourceGroup c +:+
  "/providers/Microsoft.MachineLearningServices/workspaces/" +:+ AZ_Workspace c +:+ "/models/" +:+ modelName +:+ "/versions".

Definition withAPIVersion (url : URL) : URL :=
  mkURL (U_Text url) (U_Host url) (U_Path url) (EncodeValues (setValue "api-version" "2023-04-01" (parseQuery (U_RawQuery url)))).

Definition azureVersionOf (v : azureEntry) : AzureMLModelVersion :=
  mkAzureVersion (ZE_Name v) (ZE_Name v) (ZE_Description v) (ZE_ModelUri v) (ZE_Stage v).

(** The client is new for each import: its token is asked for once. *)
Definition azure_ListModelVersions (c : AzureMLClient) (modelName : string) : M (Error + list AzureMLModelVersion) :=
  let* token := (if (AZ_accessToken c =? "")%string then getAccessToken c else cret (inr (AZ_accessToken c))) in
  match token with
  | inl e => cret (inl (Wrap "authenticate" e))
  | inr token =>
      match parseURL (azureURL c modelName) with
      | inl e => cret (inl (Wrap "build list request" e))
      | inr url =>
          let* resp := Do (GET (withAPIVersion url) [bearer token]) in
          cret (match resp with
                | inl e => inl (Wrap "list versions" e)
                | inr resp =>
                    if negb (WY_StatusCode resp =? 200)
                    then inl (ErrorString ("list versions returned " +:+ pretty (WY_StatusCode resp) +:+ ": " +:+ TrimSpace (B_Text (WY_Body resp))))
                    else match decodeAzureList (WY_Body resp) with
                         | inl e => inl (Wrap "decode versions response" e)
                         | inr l => inr (map azureVersionOf l)
                         end
                end)
      end
  end.

Definition LatestVersion (versions : list AzureMLModelVersion) : option AzureMLModelVersion :=
  match List.find (fun v => (AV_Stage v =? "Production")%string) versions with
  | Some v => Some v
  | None => hd_error versions
  end.
End Catalogues.

(** ** Encoded texts are read back *)

Lemma unhex_upper n : 0 <= n < 16 -> unhex (upperHex n) = Some n.
Proof.
  intros H. unfold unhex, upperHex. destruct (Z.ltb_spec n 10).
  - rewrite (proj2 (Z.leb_le 48 _)), (proj2 (Z.leb_le _ 57)) by lia. cbn. f_equal. lia.
  - rewrite (proj2 (Z.leb_gt _ 57)) by lia. rewrite andb_false_r. rewrite (proj2 (Z.leb_gt 97 _)) by lia. cbn.
    rewrite (proj2 (Z.leb_le 65 _)), (proj2 (Z.leb_le _ 70)) by lia. cbn. f_equal. lia.
Qed.

Lemma unescape_percent plus b r : isByte b -> unescapeBytes plus (percent b ++ r) = cons b <$> unescapeBytes plus r.
Proof.
  intros Hb. unfold isByte in Hb. unfold percent. cbn [app unescapeBytes Z.eqb Pos.eqb].
  pose proof (Z.mod_pos_bound b 16 eq_refl). assert (0 <= b / 16 < 16) by (split; [apply Z.div_pos|apply Z.div_lt_upper_bound]; lia).
  rewrite !unhex_upper by lia. by rewrite <- Z.div_mod by lia.
Qed.

Lemma unreserved_plain b : unreserved b = true -> (b =? 37) = false /\ (b =? 43) = false.
Proof.
  unfold unreserved. rewrite !orb_true_iff, !andb_true_iff, !Z.leb_le, !Z.eqb_eq. intros H. split; apply Z.eqb_neq; lia.
Qed.

Lemma unescape_unreserved plus b r : unreserved b = true -> unescapeBytes plus (b :: r) = cons b <$> unescapeBytes plus r.
Proof. intros (H1 & H2)%unreserved_plain. cbn [unescapeBytes]. rewrite H1, H2. by rewrite andb_false_r. Qed.

(** A byte-wise encoding that is undone byte by byte is undone as a whole. *)
Lemma unescape_flat plus (enc : Z -> list Z) :
  (forall b r, isByte b -> unescapeBytes plus (enc b ++ r) = cons b <$> unescapeBytes plus r) ->
  forall l r, Forall isByte l -> unescapeBytes plus (flat_map enc l ++ r) = app l <$> unescapeBytes plus r.
Proof.
  intros He l r. induction 1 as [|b l Hb _ IH]; cbn [flat_map app]; [by destruct (unescapeBytes plus r)|].
  rewrite <- app_assoc, He, IH by done. by destruct (unescapeBytes plus r).
Qed.

Lemma unescape_aws plus b r : isByte b -> unescapeBytes plus (awsEncodeByte b ++ r) = cons b <$> unescapeBytes plus r.
Proof. intros Hb. unfold awsEncodeByte. destruct (unreserved b) eqn:H; [by apply unescape_unreserved|by apply unescape_percent]. Qed.

Lemma unescape_query b r : isByte b -> unescapeBytes true (queryByte b ++ r) = cons b <$> unescapeBytes true r.
Proof.
  intros Hb. unfold queryByte. destruct (unreserved b) eqn:H; [by apply unescape_unreserved|].
  destruct (Z.eqb_spec b 32) as [->|]; [done|by apply unescape_percent].
Qed.

Lemma upperHex_range n : 0 <= n < 16 -> 48 <= upperHex n <= 57 \/ 65 <= upperHex n <= 70.
Proof. unfold upperHex. destruct (Z.ltb_spec n 10); lia. Qed.

(** The bytes an encoded text is made of: unreserved ones, percent and plus. *)
Definition encoded (b : Z) : bool := unreserved b || (b =? 37) || (b =? 43).

Lemma percent_encoded b : isByte b -> Forall (fun c => encoded c = true) (percent b).
Proof.
  intros Hb. unfold isByte in Hb. pose proof (Z.mod_pos_bound b 16 eq_refl).
  assert (0 <= b / 16 < 16) by (split; [apply Z.div_pos|apply Z.div_lt_upper_bound]; lia).
  assert (Hn : forall n, 0 <= n < 16 -> encoded (upperHex n) = true).
  { intros n Hn%upperHex_range. unfold encoded, unreserved. rewrite !orb_true_iff, !andb_true_iff, !Z.leb_le, !Z.eqb_eq. lia. }
  unfold percent. repeat (apply Forall_cons_2); [done|by apply Hn..|done].
Qed.

Lemma query_encoded b : isByte b -> Forall (fun c => encoded c = true) (queryByte b).
Proof.
  intros Hb. unfold queryByte. destruct (unreserved b) eqn:H; [apply Forall_singleton; unfold encoded; by rewrite H|].
  destruct (b =? 32); [by apply Forall_singleton|by apply percent_encoded].
Qed.

Lemma aws_encoded b : isByte b -> Forall (fun c => encoded c = true) (awsEncodeByte b).
Proof.
  intros Hb. unfold awsEncodeByte. destruct (unreserved b) eqn:H; [apply Forall_singleton; unfold encoded; by rewrite H|by apply percent_encoded].
Qed.

Lemma encoded_byte b : encoded b = true -> isByte b.
Proof. unfold encoded, unreserved, isByte. rewrite !orb_true_iff, !andb_true_iff, !Z.leb_le, !Z.eqb_eq. lia. Qed.

Lemma flat_encoded (enc : Z -> list Z) l :
  (forall b, isByte b -> Forall (fun c => encoded c = true) (enc b)) -> Forall isByte l ->
  Forall (fun c => encoded c = true) (flat_map enc l).
Proof. intros He. induction 1 as [|b l Hb _ IH]; cbn; [done|]. apply Forall_app. auto. Qed.

Lemma bytes_encoded (enc : Z -> list Z) s :
  (forall b, isByte b -> Forall (fun c => encoded c = true) (enc b)) ->
  bytes (ofBytes (flat_map enc (bytes s))) = flat_map enc (bytes s) /\ Forall (fun c => encoded c = true) (flat_map enc (bytes s)).
Proof.
  intros He. assert (H : Forall (fun c => encoded c = true) (flat_map enc (bytes s))) by (apply flat_encoded, bytes_range; done).
  split; [|done]. apply bytes_ofBytes. eapply Forall_impl; [exact H|]. apply encoded_byte.
Qed.

Lemma QueryUnescape_QueryEscape s : QueryUnescape (QueryEscape s) = Some s.
Proof.
  unfold QueryUnescape, QueryEscape. rewrite (proj1 (bytes_encoded queryByte s query_encoded)), <- (app_nil_r (flat_map _ _)).
  rewrite (unescape_flat true queryByte unescape_query) by apply bytes_range. cbn. by rewrite app_nil_r, ofBytes_bytes.
Qed.

Lemma PathUnescape_awsEncode s : PathUnescape (awsEncode s) = Some s.
Proof.
  unfold PathUnescape, awsEncode. rewrite (proj1 (bytes_encoded awsEncodeByte s aws_encoded)), <- (app_nil_r (flat_map _ _)).
  rewrite (unescape_flat false awsEncodeByte (unescape_aws false)) by apply bytes_range. cbn. by rewrite app_nil_r, ofBytes_bytes.
Qed.

(** ** Splitting what was joined *)

(** No byte of the text is [c]. *)
Definition avoids (c : ascii) (s : string) : Prop := Forall (fun b => b ≠ byteOf c) (bytes s).

Lemma byteOf_eq a b : byteOf a = byteOf b -> a = b.
Proof. intros H. unfold byteOf in H. apply N2Z.inj in H. by rewrite <- (Ascii.ascii_N_embedding a), H, Ascii.ascii_N_embedding. Qed.

Lemma Split_avoids c s : avoids c s -> Split s c = [s].
Proof.
  unfold avoids. induction s as [|a s IH]; [done|]. cbn [bytes Split]. intros H. inversion_clear H as [|? ? Ha Hs].
  destruct (Ascii.eqb_spec a c) as [->|_]; [done|]. by rewrite (IH Hs).
Qed.

Lemma Split_app c x s : avoids c x -> Split (x +:+ String c s) c = x :: Split s c.
Proof.
  unfold avoids. induction x as [|a x IH]; intros H.
  - change (Split (String c s) c = ""%string :: Split s c). cbn [Split]. by rewrite Ascii.eqb_refl.
  - change (Split (String a (x +:+ String c s)) c = String a x :: Split s c). cbn [bytes] in H. inversion_clear H as [|? ? Ha Hs].
    cbn [Split]. destruct (Ascii.eqb_spec a c) as [->|_]; [done|]. by rewrite (IH Hs).
Qed.

Lemma Split_JoinWith c l : l ≠ [] -> Forall (avoids c) l -> Split (JoinWith (String c "") l) c = l.
Proof.
  induction l as [|x l IH]; [done|]. intros _ H. inversion_clear H as [|? ? Hx Hl]. destruct l as [|y l]; [by apply Split_avoids|].
  change (JoinWith (String c "") (x :: y :: l)) with (x +:+ String c (JoinWith (String c "") (y :: l))).
  rewrite Split_app by done. by rewrite IH.
Qed.

Lemma JoinWith_Split c s : JoinWith (String c "") (Split s c) = s.
Proof.
  induction s as [|a s IH]; [done|]. cbn [Split]. destruct (Ascii.eqb_spec a c) as [->|_].
  - destruct (Split s c) as [|x l] eqn:H; [by destruct s; cbn in H; repeat case_match|].
    change (String c (JoinWith (String c "") (x :: l)) = String c s). by rewrite IH.
  - destruct (Split s c) as [|x l] eqn:H; [by destruct s; cbn in H; repeat case_match|]. destruct l as [|y l]; [by rewrite <- IH|].
    change (String a (JoinWith (String c "") (x :: y :: l)) = String a s). by rewrite IH.
Qed.

Lemma encoded_avoids c l : encoded (byteOf c) = false -> Forall isByte l -> Forall (fun b => encoded b = true) l -> avoids c (ofBytes l).
Proof.
  intros Hc Hb H. unfold avoids. rewrite bytes_ofBytes by done. eapply Forall_impl; [exact H|]. intros b He ->. congruence.
Qed.

Lemma QueryEscape_avoids c s : encoded (byteOf c) = false -> avoids c (QueryEscape s).
Proof.
  intros Hc. destruct (bytes_encoded queryByte s query_encoded) as (_ & H). apply encoded_avoids; [done| |done].
  eapply Forall_impl; [exact H|]. apply encoded_byte.
Qed.

Lemma awsEncode_avoids c s : encoded (byteOf c) = false -> avoids c (awsEncode s).
Proof.
  intros Hc. destruct (bytes_encoded awsEncodeByte s aws_encoded) as (_ & H). apply encoded_avoids; [done| |done].
  eapply Forall_impl; [exact H|]. apply encoded_byte.
Qed.

Lemma avoids_app c x y : avoids c x -> avoids c y -> avoids c (x +:+ y).
Proof.
  unfold avoids. intros Hx Hy. induction x as [|a x IH]; [done|]. change (Forall (fun b => b ≠ byteOf c) (byteOf a :: bytes (x +:+ y))).
  cbn [bytes] in Hx. inversion_clear Hx. constructor; auto.
Qed.

Lemma cutAt_app c x s : avoids c x -> cutAt c (x +:+ String c s) = Some (x, s).
Proof.
  unfold avoids. induction x as [|a x IH]; intros H.
  - change (cutAt c (String c s) = Some (""%string, s)). cbn [cutAt]. by rewrite Ascii.eqb_refl.
  - change (cutAt c (String a (x +:+ String c s)) = Some (String a x, s)). cbn [bytes] in H. inversion_clear H as [|? ? Ha Hs].
    cbn [cutAt]. destruct (Ascii.eqb_spec a c) as [->|_]; [done|]. by rewrite (IH Hs).
Qed.

Lemma Contains_avoids c s : avoids c s -> Contains s (String c "") = false.
Proof.
  unfold avoids. induction s as [|a s IH]; [done|]. cbn [bytes Contains]. intros H. inversion_clear H as [|? ? Ha Hs].
  unfold HasPrefix. cbn [CutPrefix]. destruct (Ascii.eqb_spec c a) as [->|_]; [done|]. by rewrite (IH Hs).
Qed.

(** The text [v] stands for [u] in a query. *)
Definition encodes (v u : string) : Prop := QueryUnescape v = Some u /\ Forall (fun c => encoded c = true) (bytes v).

Lemma encodes_avoids c v u : encoded (byteOf c) = false -> encodes v u -> avoids c v.
Proof. intros Hc (_ & H). eapply Forall_impl; [exact H|]. intros b He ->. congruence. Qed.

Lemma encodes_escape s : encodes (QueryEscape s) s.
Proof.
  split; [apply QueryUnescape_QueryEscape|]. unfold QueryEscape.
  destruct (bytes_encoded queryByte s query_encoded) as (-> & H). exact H.
Qed.

Lemma encodes_aws s : encodes (awsEncode s) s.
Proof.
  unfold encodes, QueryUnescape, awsEncode. destruct (bytes_encoded awsEncodeByte s aws_encoded) as (-> & H). split; [|exact H].
  rewrite <- (app_nil_r (flat_map _ _)), (unescape_flat true awsEncodeByte (unescape_aws true)) by apply bytes_range.
  cbn. by rewrite app_nil_r, ofBytes_bytes.
Qed.

Lemma encodes_plain s : Forall (fun b => unreserved b = true) (bytes s) -> encodes s s.
Proof.
  intros H. split; [|eapply Forall_impl; [exact H|]; intros b Hb; unfold encoded; by rewrite Hb].
  unfold QueryUnescape. assert (unescapeBytes true (bytes s) = Some (bytes s)) as ->; [|cbn; by rewrite ofBytes_bytes].
  induction H as [|b l Hb _ IH]; [done|]. rewrite unescape_unreserved by done. by rewrite IH.
Qed.

Definition rawPair (kv : string * string) : string := kv.1 +:+ "=" +:+ kv.2.

Lemma rawPair_avoids c kv kv' :
  encoded (byteOf c) = false -> c ≠ "="%char -> encodes kv.1 kv'.1 -> encodes kv.2 kv'.2 -> avoids c (rawPair kv).
Proof.
  intros Hc Hne H1 H2. apply avoids_app; [by eapply encodes_avoids|]. apply (avoids_app c "="); [|by eapply encodes_avoids].
  apply Forall_singleton. intros H%byteOf_eq. by destruct Hne.
Qed.

Lemma queryPair_raw kv kv' : encodes kv.1 kv'.1 -> encodes kv.2 kv'.2 -> queryPair (rawPair kv) = Some kv'.
Proof.
  intros H1 H2. unfold queryPair. rewrite (Contains_avoids ";") by (by eapply rawPair_avoids).
  destruct kv as [k v], kv' as [k' v']. unfold rawPair. cbn [fst snd] in *.
  destruct (String.eqb_spec (k +:+ "=" +:+ v) "") as [H|_]; [by destruct k|].
  change ("=" +:+ v) with (String "=" v). rewrite cutAt_app by (by eapply encodes_avoids).
  by rewrite (proj1 H1), (proj1 H2).
Qed.

(** The pairs of a query are read back from their encodings. *)
Lemma parseQuery_pairs l l' :
  Forall2 (fun kv kv' => encodes kv.1 kv'.1 /\ encodes kv.2 kv'.2) l l' -> parseQuery (JoinWith "&" (map rawPair l)) = l'.
Proof.
  intros H. unfold parseQuery. destruct l as [|kv l]; [by inversion H|]. rewrite Split_JoinWith; [|done|].
  - induction H as [|x y m m' (H1 & H2) _ IH]; [done|]. cbn [map omap list_omap]. rewrite (queryPair_raw x y H1 H2). cbn. by f_equal.
  - apply Forall_map. clear -H. induction H as [|x y m m' (H1 & H2) _ IH]; constructor; [|done]. by eapply rawPair_avoids.
Qed.

Lemma parseQuery_EncodeValues q : parseQuery (EncodeValues q) = go_sort (fun a b => String.ltb a.1 b.1) q.
Proof.
  unfold EncodeValues. generalize (go_sort (fun a b : string * string => String.ltb a.1 b.1) q). intros l.
  replace (map encodePair l) with (map rawPair (map (fun kv => (QueryEscape kv.1, QueryEscape kv.2)) l)) by (by rewrite map_map).
  apply parseQuery_pairs. induction l as [|kv l IH]; constructor; [|done]. split; apply encodes_escape.
Qed.

(** The path of an object keeps its segments. *)
Lemma awsEncodePath_segments key : mapM PathUnescape (Split (awsEncodePath key) "/"%char) = Some (Split key "/"%char).
Proof.
  unfold awsEncodePath. rewrite Split_JoinWith.
  - generalize (Split key "/"%char). intros l. apply mapM_Some. induction l as [|x l IH]; cbn; constructor; [|done].
    apply PathUnescape_awsEncode.
  - by destruct key as [|c key]; [|cbn; repeat case_match].
  - apply Forall_map, Forall_true. intros x. by apply awsEncode_avoids.
Qed.

Lemma awsEncodePath_avoids c key : encoded (byteOf c) = false -> c ≠ "/"%char -> avoids c (awsEncodePath key).
Proof.
  intros Hc Hne. unfold awsEncodePath. induction (Split key "/"%char) as [|x l IH]; [by apply Forall_nil_2|].
  cbn [map]. destruct l as [|y l]; [by apply awsEncode_avoids|].
  change (avoids c (awsEncode x +:+ "/" +:+ JoinWith "/" (map awsEncode (y :: l)))).
  apply avoids_app; [by apply awsEncode_avoids|]. apply (avoids_app c "/"); [|done]. apply Forall_singleton. by intros H%byteOf_eq.
Qed.

(** ** Stamps *)

Definition plainText (s : string) : Prop := Forall (fun b => unreserved b = true) (bytes s).

Lemma plainText_app s r : plainText s -> plainText r -> plainText (s +:+ r).
Proof.
  unfold plainText. intros Hs Hr. induction s as [|a s IH]; [done|].
  change (Forall (fun b => unreserved b = true) (byteOf a :: bytes (s +:+ r))). cbn [bytes] in Hs. inversion_clear Hs. constructor; auto.
Qed.

Lemma digits_plain k n : 0 <= n < 10 ^ Z.of_nat k -> plainText (digits k n).
Proof.
  revert n. induction k as [|k IH]; intros n H; [by apply Forall_nil_2|]. apply lead_digit in H as (H1 & H2 & _).
  cbn [digits]. apply Forall_cons_2; [|by apply IH].
  assert (Hall : Forall (fun d => unreserved (byteOf (digit d)) = true) (seqZ 0 10)) by (apply (bool_decide_unpack _); reflexivity).
  rewrite Forall_forall in Hall. apply Hall, elem_of_seqZ. lia.
Qed.

Lemma dateStamp_plain t : fourDigitYear t -> plainText (dateStamp t).
Proof.
  intros Ht. unfold dateStamp, basicDate. destruct (civil (t / Second / 86400)) as [[y m] d] eqn:H.
  pose proof (fourDigitYear_year _ _ _ _ Ht H) as Hy. apply civil_valid in H as (Hm & Hd).
  assert (daysIn m y <= 31) by (unfold daysIn; repeat case_match; lia).
  rewrite yearText_four by done. repeat apply plainText_app; apply digits_plain; cbn; lia.
Qed.

Lemma dateTimeStamp_plain t : fourDigitYear t -> plainText (dateTimeStamp t).
Proof.
  intros Ht. unfold dateTimeStamp. set (sod := (t / Second) mod 86400). assert (Hs : 0 <= sod < 86400) by (by apply Z.mod_pos_bound).
  destruct (clock_fields sod Hs) as (H1 & H2 & H3 & _).
  apply plainText_app; [by apply dateStamp_plain|]. apply plainText_app; [by apply Forall_singleton|].
  do 3 (apply plainText_app; [apply digits_plain; cbn; lia|]). by apply Forall_singleton.
Qed.

Lemma hexEncode_plain s : plainText (hexEncode s).
Proof.
  induction s as [|c s IH]; [by apply Forall_nil_2|]. cbn [hexEncode]. set (v := Z.of_N (Ascii.N_of_ascii c)).
  assert (Hv : 0 <= v < 256) by (apply (byteOf_range c)).
  assert (Hd : forall n, 0 <= n < 16 -> unreserved (byteOf (hexDigit n)) = true).
  { intros n Hn. assert (Hall : Forall (fun d => unreserved (byteOf (hexDigit d)) = true) (seqZ 0 16)) by (apply (bool_decide_unpack _); reflexivity).
    rewrite Forall_forall in Hall. apply Hall, elem_of_seqZ. lia. }
  apply Forall_cons_2; [apply Hd; split; [apply Z.div_pos|apply Z.div_lt_upper_bound]; lia|].
  apply Forall_cons_2; [apply Hd, Z.mod_pos_bound; lia|exact IH].
Qed.

Section Signed.
Context `{C : Crypto}.

(** The signature that a receiver computes for a request it gets, by the rules of AWS
    Signature Version 4 for a query without a signed payload: of the path, the parameters
    but the signature, the host, the instant and the scope. *)
Definition receivedRequest (host path query : string) : string :=
  "GET" +:+ newline +:+ "/" +:+ path +:+ newline +:+ query +:+ newline +:+ "host:" +:+ host +:+ newline +:+ newline +:+
  "host" +:+ newline +:+ "UNSIGNED-PAYLOAD".

Definition receivedSignature (secretKey date dateTime region host path query : string) : string :=
  let kDate := hmacSHA256 ("AWS4" +:+ secretKey) date in
  let kRegion := hmacSHA256 kDate region in
  let kService := hmacSHA256 kRegion "s3" in
  let kSigning := hmacSHA256 kService "aws4_request" in
  hexEncode (hmacSHA256 kSigning
    ("AWS4-HMAC-SHA256" +:+ newline +:+ dateTime +:+ newline +:+ date +:+ "/" +:+ region +:+ "/s3/aws4_request" +:+ newline +:+
     sha256HexOf (receivedRequest host path query))).

(** (C36) A URL of the S3 pre-signer names the object that was asked for, whatever the
    bytes of its key, and carries the signature that the receiver computes for it: for a
    time whose year has four digits, the host is that of the bucket and the region, the
    path has the segments of the key, percent-decoded, and the query reads as the
    algorithm, the credential with its scope, the instant, the hour of validity, the
    signed header and the signature, which is the one of Signature Version 4 for this
    host, this path and these parameters. *)
Theorem presigned_url_names_object (now : Time) (bucket key region accessKey secretKey : string) :
  fourDigitYear now ->
  let host := bucket +:+ ".s3." +:+ region +:+ ".amazonaws.com" in
  exists path query,
    let sig := receivedSignature secretKey (dateStamp now) (dateTimeStamp now) region host path query in
    sigV4PresignS3 now bucket key region accessKey secretKey =
      "https://" +:+ host +:+ "/" +:+ path +:+ "?" +:+ query +:+ "&X-Amz-Signature=" +:+ sig /\
    avoids "?" path /\ mapM PathUnescape (Split path "/"%char) = Some (Split key "/"%char) /\
    parseQuery (query +:+ "&X-Amz-Signature=" +:+ sig) =
      [("X-Amz-Algorithm", "AWS4-HMAC-SHA256");
       ("X-Amz-Credential", accessKey +:+ "/" +:+ dateStamp now +:+ "/" +:+ region +:+ "/s3/aws4_request");
       ("X-Amz-Date", dateTimeStamp now); ("X-Amz-Expires", "3600"); ("X-Amz-SignedHeaders", "host");
       ("X-Amz-Signature", sig)]%string.
Proof.
  intros Hnow host. set (scope := dateStamp now +:+ "/" +:+ region +:+ "/s3/aws4_request").
  set (cred := awsEncode (accessKey +:+ "/" +:+ scope)).
  exists (awsEncodePath key),
    ("X-Amz-Algorithm=AWS4-HMAC-SHA256&X-Amz-Credential=" +:+ cred +:+ "&X-Amz-Date=" +:+ dateTimeStamp now +:+
     "&X-Amz-Expires=3600&X-Amz-SignedHeaders=host").
  set (query := "X-Amz-Algorithm=AWS4-HMAC-SHA256&X-Amz-Credential=" +:+ _). cbv zeta. set (sig := receivedSignature _ _ _ _ _ _ _).
  assert (Hsig : sigV4PresignS3 now bucket key region accessKey secretKey =
    "https://" +:+ host +:+ "/" +:+ awsEncodePath key +:+ "?" +:+ query +:+ "&X-Amz-Signature=" +:+ sig).
  { unfold sigV4PresignS3. cbv zeta. do 8 f_equal. unfold sig, receivedSignature, signingKey, receivedRequest. do 2 f_equal. cbn [JoinWith].
    unfold query, scope. rewrite !string_app_assoc. reflexivity. }
  split; [exact Hsig|]. clear Hsig. split; [by apply awsEncodePath_avoids|]. split; [apply awsEncodePath_segments|].
  trans (parseQuery (JoinWith "&" (map rawPair
    [("X-Amz-Algorithm", "AWS4-HMAC-SHA256"); ("X-Amz-Credential", cred); ("X-Amz-Date", dateTimeStamp now); ("X-Amz-Expires", "3600");
     ("X-Amz-SignedHeaders", "host"); ("X-Amz-Signature", sig)]%string))).
  { f_equal. unfold query. by rewrite !string_app_assoc. }
  assert (Hlit : forall s, bool_decide (Forall (fun b => unreserved b = true) (bytes s)) = true -> encodes s s) by (intros s Hs%bool_decide_eq_true; by apply encodes_plain).
  assert (Hpair : forall k v u, bool_decide (Forall (fun b => unreserved b = true) (bytes k)) = true -> encodes v u ->
    encodes (k, v).1 (k, u).1 /\ encodes (k, v).2 (k, u).2) by (intros k v u Hk Hv; split; [by apply Hlit|done]).
  apply parseQuery_pairs.
  constructor; [by apply Hpair; [vm_compute|apply Hlit; vm_compute]|].
  constructor; [apply Hpair; [by vm_compute|apply encodes_aws]|].
  constructor; [apply Hpair; [by vm_compute|by apply encodes_plain, dateTimeStamp_plain]|].
  constructor; [by apply Hpair; [vm_compute|apply Hlit; vm_compute]|].
  constructor; [by apply Hpair; [vm_compute|apply Hlit; vm_compute]|].
  constructor; [apply Hpair; [by vm_compute|apply encodes_plain, hexEncode_plain]|constructor].
Qed.
End Signed.

Section Tokens.
Context `{E : Env} `{W : Web} `{C : Crypto}.

(** The cache after a call: the token that was fetched, or what it was before an error. *)
Definition cached (c c' : VertexAIClient) (r : Error + string) : Prop :=
  match r with
  | inl _ => c' = c
  | inr token => token ≠ ""%string /\ exists expiry, c' = with_cache c (mkTokenState token expiry)
  end.

Lemma exchangeJWT_cached c jwt expiry w r c' w' : exchangeJWT c jwt expiry w = ((r, c'), w') -> w_db w' = w_db w /\ cached c c' r.
Proof.
  unfold exchangeJWT. destruct (parseURL _) as [e|url]; [by intros [= <- <- <-]|]. intros H. run_step H. injection Hrun as <- <-.
  destruct (okBody _ _) as [e|body]; [by injection H as <- <- <-|]. destruct (decodeToken body) as [e|[token n]]; [by injection H as <- <- <-|].
  destruct (String.eqb_spec token "") as [|Hne]; [by injection H as <- <- <-|]. destruct (0 <? n); injection H as <- <- <-; (split; [done|split; [done|eauto]]).
Qed.

Lemma tokenFromServiceAccount_cached c path w r c' w' :
  tokenFromServiceAccount c path w = ((r, c'), w') -> w_db w' = w_db w /\ cached c c' r.
Proof.
  unfold tokenFromServiceAccount. intros H. run_step H. injection Hrun as <- <-. destruct (readFile _ path) as [e|data]; [by injection H as <- <- <-|].
  destruct (decodeServiceAccount data) as [e|sa]; [by injection H as <- <- <-|]. destruct (rsaKeyOf sa) as [e|k]; [by injection H as <- <- <-|].
  run_step H. run_step H. injection Hrun as <- <-. injection Hrun0 as <- <-. destruct (signRS256 _ k _) as [e|sig]; [by injection H as <- <- <-|].
  by apply exchangeJWT_cached in H.
Qed.

Lemma tokenFromMetadataServer_cached c w r c' w' :
  tokenFromMetadataServer c w = ((r, c'), w') -> w_db w' = w_db w /\ cached c c' r.
Proof.
  unfold tokenFromMetadataServer. destruct (parseURL _) as [e|url]; [by intros [= <- <- <-]|]. intros H. run_step H. injection Hrun as <- <-.
  destruct (okBody _ _) as [e|body]; [by injection H as <- <- <-|]. destruct (decodeToken body) as [e|[token n]]; [by injection H as <- <- <-|].
  destruct (String.eqb_spec token "") as [|Hne]; [by injection H as <- <- <-|]. run_step H. injection Hrun as <- <-. injection H as <- <- <-.
  split; [done|]. split; [done|eauto].
Qed.

(** A token is served from the cache only while it has more than thirty seconds to
    live; else it is a new one, which is never empty and replaces the cached one; and a
    call that fails leaves the cache as it was. *)
Lemma getToken_cached c w r c' w' :
  VC_TokenProvider c = None -> getToken c w = ((r, c'), w') ->
  w_db w' = w_db w /\
  (cached c c' r \/ c' = c /\ r = inr (TS_token (VC_cache c)) /\ TS_token (VC_cache c) ≠ ""%string /\
     env_now (w_tick w) < TS_expiry (VC_cache c) - tokenMargin).
Proof.
  intros Hp. unfold getToken. rewrite Hp. intros H. run_step H. injection Hrun as <- <-. unfold ts_get in H.
  destruct (String.eqb_spec (TS_token (VC_cache c)) "") as [|Hne]; cbn [negb andb] in H.
  2: destruct (Z.ltb_spec (env_now (w_tick w)) (TS_expiry (VC_cache c) - tokenMargin)).
  - destruct (negb _); [apply tokenFromServiceAccount_cached in H|apply tokenFromMetadataServer_cached in H]; destruct H; by split; [|left].
  - injection H as <- <- <-. split; [done|]. right. done.
  - destruct (negb _); [apply tokenFromServiceAccount_cached in H|apply tokenFromMetadataServer_cached in H]; destruct H; by split; [|left].
Qed.
End Tokens.

(** ** The clients do not touch the registry *)

Section Reads.
Context `{E : Env} `{W : Web} `{C : Crypto} `{U : Unicode}.

Lemma same_Do req : leaves same_db (Do req).
Proof. intros w. done. Qed.

Lemma same_now : leaves same_db nowUTC.
Proof. intros w. done. Qed.

Lemma same_next : leaves same_db next.
Proof. intros w. done. Qed.
End Reads.

(** Follows the calls of a client. *)
Ltac clean_steps :=
  repeat first
    [ apply leaves_ret; apply _
    | apply same_Do | apply same_now | apply same_next | assumption
    | apply leaves_bind; [apply _| |intros ?]
    | match goal with |- leaves _ (match ?x with _ => _ end) => destruct x end ].

Section Clean.
Context `{E : Env} `{W : Web} `{C : Crypto} `{U : Unicode}.

Lemma FetchMetadata_clean c repo revision pattern : leaves same_db (FetchMetadata c repo revision pattern).
Proof. unfold FetchMetadata. clean_steps. Qed.

Lemma ParseObjectURI_clean uri : leaves same_db (ParseObjectURI uri).
Proof. unfold ParseObjectURI, parseS3, parseGCS, parseAzure, gcsSignedURL. clean_steps. Qed.

Lemma sm_doRequest_clean c url body : leaves same_db (sm_doRequest c url body).
Proof. unfold sm_doRequest. clean_steps. Qed.

Lemma describeModelPackage_clean c arn : leaves same_db (describeModelPackage c arn).
Proof. unfold describeModelPackage. pose proof sm_doRequest_clean. apply leaves_bind; [apply _|done|intros ?]. clean_steps. Qed.

Lemma describeAll_clean c l : leaves same_db (describeAll c l).
Proof.
  induction l as [|s l IH]; cbn [describeAll]; [clean_steps|]. apply leaves_bind; [apply _|apply describeModelPackage_clean|intros ?]. clean_steps.
Qed.

Lemma ListApprovedModelPackages_clean c : leaves same_db (ListApprovedModelPackages c).
Proof.
  unfold ListApprovedModelPackages. apply leaves_bind; [apply _|apply sm_doRequest_clean|intros [e|raw]]; [clean_steps|].
  destruct (decodeSummaries raw) as [e|l]; [clean_steps|]. apply leaves_bind; [apply _|apply describeAll_clean|intros ?]. clean_steps.
Qed.

Lemma getToken_clean c : leaves same_db (getToken c).
Proof.
  unfold getToken, tokenFromServiceAccount, tokenFromMetadataServer, exchangeJWT. clean_steps.
Qed.

Lemma vertexGet_clean c what url : leaves same_db (vertexGet c what url).
Proof. unfold vertexGet. apply leaves_bind; [apply _|apply getToken_clean|intros [tok c']]. clean_steps. Qed.

Lemma vertex_ListModelVersions_clean c name : leaves same_db (vertex_ListModelVersions c name).
Proof. unfold vertex_ListModelVersions. apply leaves_bind; [apply _|apply vertexGet_clean|intros [body c']]. clean_steps. Qed.

Lemma GetArtifactURI_clean c name version : leaves same_db (GetArtifactURI c name version).
Proof. unfold GetArtifactURI. apply leaves_bind; [apply _|apply vertexGet_clean|intros [body c']]. clean_steps. Qed.

Lemma azure_ListModelVersions_clean c name : leaves same_db (azure_ListModelVersions c name).
Proof. unfold azure_ListModelVersions, getAccessToken. clean_steps. Qed.
End Clean.
