(* ===== verification/Imports.v ===== *)
(** * Imports: models enter the catalogue

    The handlers of [server/server.go] and [server/cpu_model_import.go] that write the
    table of models: a model posted with its spec, and the imports from the HuggingFace
    Hub, object storage, SageMaker, Vertex AI, Azure ML and a local file. *)
From stdpp Require Import pretty.
From S2P Require Import Prelude Float64 PlanTypes Fixtures Convert Text Cluster Timestamp Registry Statements Planning Access Identity Importers.
Import Row.
Open Scope Z_scope.

(** ** Requests and replies *)

Record importRequest : Type := mkImport {
  IQ_Source : string; IQ_Repo : string; IQ_Revision : string; IQ_FilenamePattern : string; IQ_URI : string; IQ_Name : string;
  IQ_Family : string; IQ_ModelGroup : string; IQ_Version : Z; IQ_Model : string; IQ_VertexVersion : string; IQ_Workspace : string;
  IQ_AzureVersion : string }.

(** A body that is no JSON of the type, or the value. *)
Inductive Decoded (A : Type) : Type := Malformed | Decoded_ (a : A).
Arguments Malformed {A}.
Arguments Decoded_ {A} a.

(** The model itself, the download URL of an object, or the document of the source. *)
Inductive ImportReply : Type :=
| ImportedModel (m : Model)
| ImportedObject (id sourceType downloadURL : string)
| ImportedSource (id source : string).

Definition importedID (a : ImportReply) : string :=
  match a with ImportedModel m => MID m | ImportedObject id _ _ | ImportedSource id _ => id end.

(** The fields of the server the imports read; the client of Vertex AI caches its token. *)
Record ImportServer : Type := mkImportServer { IS_hfToken : string; IS_hfBaseURL : string; IS_vertexai : option VertexAIClient }.

(** [strings.Contains(strings.ToLower(err.Error()), "unique")]. *)
Fixpoint mentionsUnique `{Unicode} (e : Error) : bool :=
  match e with
  | ErrUnique => true
  | ErrNotFound | ErrConflict => false
  | ErrIO s | ErrorString s => Contains (ToLower s) "unique"
  | Wrap s e => Contains (ToLower s) "unique" || mentionsUnique e
  | Join es => existsb mentionsUnique es
  end.

(** A model with the fields an import sets. *)
Definition newModel (id family spec source : string) : Model :=
  mkModel id family "" f0 "" "" spec source zeroTime zeroTime.

(** The spec a model is created with: the message and the fields the planner has no use for. *)
Record createSpec : Type := mkCreateSpec {
  CS_Spec : Proto.ModelSpec; CS_Family : string; CS_Architecture : string; CS_Engine : string }.

Class SpecJSON : Type := {
  decodeSpec : string -> Error + createSpec;
  encodeSpec : createSpec -> Error + string;
  (** A float of a document. *)
  jsonFloat : float64 -> string }.

(** A body: more than a megabyte, or its bytes. *)
Inductive RawBody : Type := TooLarge | Raw (raw : string).

Section Handlers.
Context `{E : Env} `{W : Web} `{C : Crypto} `{U : Unicode} `{J : SpecJSON}.

(** [CreateModel] stamps the struct it is given with the instant it reads. *)
Definition stamped (m : Model) : M Model := fun w =>
  let now := env_now (w_tick w) in
  (mkModel (MID m) (Family m) (Architecture m) (ParamsTotalB m) (Engine m) (Type_ m) (Spec m) (Source m)
     (if IsZero (MCreatedAt m) then now else MCreatedAt m) now, w).

(** The end of every import: the row, the audit entry, the reply. *)
Definition storeModel (ctx : ReqContext) (r : Request) (m : Model) (details : list (string * string)) (reply : Model -> ImportReply)
    : M (Answer ImportReply) :=
  let* m' := stamped m in
  let* err := CreateModel m in
  match err with
  | Some e => cret (if mentionsUnique e then Refused 409 "model_exists" else Refused 500 "create_model_failed")
  | None =>
      AppendAudit (mkAuditEntry (actorFromRequest ctx r) "model.imported" (MID m) details zeroTime) ;;;
      cret (Answered 201 (reply m'))
  end.

(** The check for duplicates before the insert. *)
Definition unlessExists (id : string) (k : M (Answer ImportReply)) : M (Answer ImportReply) :=
  let* res := GetModel id in
  match res with
  | inr _ => cret (Refused 409 "model_exists")
  | inl e => if isNotFound e then k else cret (Refused 500 "get_model_failed")
  end.

(** ** A model with its spec *)

Definition handleCreateModel (ctx : ReqContext) (r : Request) (body : RawBody) : M (Answer string) :=
  match body with
  | TooLarge => cret (Refused 413 "request_too_large")
  | Raw raw =>
      if (raw =? "")%string then cret (Refused 400 "bad_request")
      else match decodeSpec raw with
           | inl _ => cret (Refused 400 "bad_spec")
           | inr spec =>
               let id := Proto.ModelId (CS_Spec spec) in
               if (id =? "")%string then cret (Refused 400 "bad_spec")
               else
                 let* res := GetModel id in
                 match res with
                 | inr _ => cret (Refused 409 "model_exists")
                 | inl e =>
                     if negb (isNotFound e) then cret (Refused 500 "get_model_failed")
                     else match encodeSpec spec with
                          | inl _ => cret (Refused 500 "encode_spec_failed")
                          | inr blob =>
                              let* err := CreateModel (mkModel id (CS_Family spec) (CS_Architecture spec) (Proto.ParamsTotalB (CS_Spec spec))
                                                         (CS_Engine spec) "llm" blob "" zeroTime zeroTime) in
                              match err with
                              | Some e => cret (if mentionsUnique e then Refused 409 "model_exists" else Refused 500 "create_model_failed")
                              | None =>
                                  AppendAudit (mkAuditEntry (actorFromRequest ctx r) "model.created" id [] zeroTime) ;;;
                                  cret (Answered 201 id)
                              end
                          end
                 end
           end
  end.

(** ** Imports *)

Definition hfSourceBlob (repo revision filename : string) (size : Z) : string :=
  jsonObject [("type", jsonString "huggingface"); ("repo", jsonString repo); ("revision", jsonString revision);
              ("filename", jsonString filename); ("size_bytes_total", pretty size)]%string.

(** The total wraps around. *)
Definition sizeTotal (files : list GGUFFile) : Z := fold_left (fun n f => toInt64 (n + GF_Size f)) files 0.

Definition handleImportHuggingFace (s : ImportServer) (ctx : ReqContext) (r : Request) (hfHeader : string) (body : importRequest)
    : M (Answer ImportReply) :=
  if (IQ_Repo body =? "")%string then cret (Refused 400 "bad_request")
  else
    let revision := if (IQ_Revision body =? "")%string then "main"%string else IQ_Revision body in
    let token := if (hfHeader =? "")%string then IS_hfToken s else hfHeader in
    let hfc := if negb (IS_hfBaseURL s =? "")%string then mkHFClient token (IS_hfBaseURL s) else NewHFClient token in
    let* meta := FetchMetadata hfc (IQ_Repo body) revision (IQ_FilenamePattern body) in
    match meta with
    | inl e =>
        cret (if IsNotFound e then Refused 404 "not_found" else if IsAuthRequired e then Refused 401 "hf_auth_required"
              else Refused 502 "hf_fetch_failed")
    | inr meta =>
        match MD_GGUFFiles meta with
        | [] => cret (Refused 400 "no_matching_files")
        | best :: _ =>
            let modelID := Glob.Base (MD_ModelID meta) in
            unlessExists modelID
              (storeModel ctx r
                 (newModel modelID (MD_Family meta) "" (hfSourceBlob (IQ_Repo body) revision (GF_Name best) (sizeTotal (MD_GGUFFiles meta))))
                 [] ImportedModel)
        end
    end.

Definition objectSourceBlob (o : ObjectSource) : string :=
  jsonObject ([("type", jsonString (OS_Type o)); ("bucket", jsonString (OS_Bucket o)); ("key", jsonString (OS_Key o))]%string ++
              (if (OS_Region o =? "")%string then [] else [("region"%string, jsonString (OS_Region o))]) ++
              [("download_url"%string, jsonString (OS_DownloadURL o))]).

Definition objectModelID (body : importRequest) (o : ObjectSource) : string :=
  if negb (IQ_Name body =? "")%string then IQ_Name body
  else
    let id := if negb (OS_Key o =? "")%string then List.last (Split (OS_Key o) "/"%char) ""%string else ""%string in
    if (id =? "")%string then OS_Bucket o +:+ "-" +:+ OS_Type o else id.

Definition handleImportObjectStorage (ctx : ReqContext) (r : Request) (body : importRequest) : M (Answer ImportReply) :=
  if (IQ_URI body =? "")%string then cret (Refused 400 "bad_request")
  else
    let* src := ParseObjectURI (IQ_URI body) in
    match src with
    | inl _ => cret (Refused 400 "bad_uri")
    | inr src =>
        let id := objectModelID body src in
        unlessExists id
          (storeModel ctx r (newModel id (IQ_Family body) "" (objectSourceBlob src)) []
             (fun _ => ImportedObject id (OS_Type src) (OS_DownloadURL src)))
    end.

Definition sageMakerDoc (pkg : ModelPackage) : string :=
  jsonObject [("type", jsonString "sagemaker"); ("arn", jsonString (ModelPackageArn pkg)); ("s3_uri", jsonString (ModelDataURL pkg));
              ("version", pretty (ModelPackageVersion pkg))]%string.

(** The newest approved package, or the one of the version. *)
Definition choosePackage (version : Z) (packages : list ModelPackage) : option ModelPackage :=
  if version =? 0 then hd_error packages else List.find (fun p => ModelPackageVersion p =? version) packages.

Definition handleImportSageMaker (ctx : ReqContext) (r : Request) (body : importRequest) : M (Answer ImportReply) :=
  let client := NewSageMakerClient in
  let client := if negb (IQ_ModelGroup body =? "")%string
                then mkSageMakerClient (SM_Region client) (IQ_ModelGroup body) (SM_BaseURL client) else client in
  if (SM_ModelGroup client =? "")%string then cret (Refused 400 "missing_model_group")
  else
    let* packages := ListApprovedModelPackages client in
    match packages with
    | inl _ => cret (Refused 500 "sagemaker_error")
    | inr [] => cret (Refused 404 "no_approved_packages")
    | inr packages =>
        match choosePackage (IQ_Version body) packages with
        | None => cret (Refused 404 "version_not_found")
        | Some pkg =>
            let modelID := ModelPackageGroupName pkg +:+ "-v" +:+ pretty (ModelPackageVersion pkg) in
            let doc := sageMakerDoc pkg in
            storeModel ctx r (newModel modelID (GuessFamilyFromName (ModelPackageGroupName pkg) (ModelPackageDescription pkg)) doc "") []
              (fun _ => ImportedSource modelID doc)
        end
    end.

Definition vertexSource (model version gcsURI : string) : list (string * string) :=
  [("gcs_uri", gcsURI); ("model", model); ("type", "vertexai"); ("version", version)]%string.

Definition stringsObject (l : list (string * string)) : string := jsonObject (map (fun kv => (kv.1, jsonString kv.2)) l).

Definition chooseVersion (version : string) (versions : list ModelVersion) : option ModelVersion :=
  if negb (version =? "")%string then List.find (fun v => (VersionID v =? version)%string) versions else hd_error versions.

Definition vertexModelID (model version : string) : string :=
  (match cutLast "/" model with Some (_, x) => x | None => model end) +:+ "@" +:+ version.

(** The version's artifact, and the client with its cache. *)
Definition artifactOf (c : VertexAIClient) (model : string) (v : ModelVersion) : M ((Error + string) * VertexAIClient) :=
  if (ArtifactURI v =? "")%string then GetArtifactURI c model (VersionID v) else cret (inr (ArtifactURI v), c).

Definition importVertex (c : VertexAIClient) (ctx : ReqContext) (r : Request) (body : importRequest)
    : M (Answer ImportReply * VertexAIClient) :=
  let model := IQ_Model body in
  if (VC_Project c =? "")%string && negb (HasPrefix model "projects/") then cret (Refused 400 "missing_project", c)
  else
    let* (versions, c) := vertex_ListModelVersions c model in
    match versions with
    | inl _ => cret (Refused 500 "list_versions_failed", c)
    | inr [] => cret (Refused 404 "no_versions", c)
    | inr versions =>
        match chooseVersion (IQ_VertexVersion body) versions with
        | None => cret (Refused 404 "version_not_found", c)
        | Some chosen =>
            let* (uri, c) := artifactOf c model chosen in
            match uri with
            | inl _ => cret (Refused 500 "get_artifact_uri_failed", c)
            | inr uri =>
                let source := vertexSource model (VersionID chosen) uri in
                let modelID := vertexModelID model (VersionID chosen) in
                let* a := storeModel ctx r (newModel modelID "" (jsonObject [("source"%string, stringsObject source)]) "") source
                            (fun _ => ImportedSource modelID (stringsObject source)) in
                cret (a, c)
            end
        end
    end.

(** The injected client keeps its cache; one built from the environment is dropped. *)
Definition handleImportVertexAI (s : ImportServer) (ctx : ReqContext) (r : Request) (body : importRequest)
    : M (Answer ImportReply * ImportServer) :=
  match IS_vertexai s with
  | Some c =>
      let* (a, c) := importVertex c ctx r body in
      cret (a, mkImportServer (IS_hfToken s) (IS_hfBaseURL s) (Some c))
  | None => let* (a, _) := importVertex NewVertexAIClient ctx r body in cret (a, s)
  end.

Definition azureSource (workspace model : string) (v : AzureMLModelVersion) : string :=
  stringsObject [("artifact_uri", AV_ArtifactURI v); ("model", model); ("type", "azureml"); ("version", AV_Version v);
                 ("workspace", workspace)]%string.

Definition handleImportAzureML (ctx : ReqContext) (r : Request) (body : importRequest) : M (Answer ImportReply) :=
  let model := IQ_Model body in
  if (model =? "")%string then cret (Refused 400 "bad_request")
  else match NewAzureMLClient (IQ_Workspace body) with
       | inl _ => cret (Refused 400 "bad_request")
       | inr client =>
           let* versions := azure_ListModelVersions client model in
           match versions with
           | inl _ => cret (Refused 502 "azureml_error")
           | inr versions =>
               let selected :=
                 if negb (IQ_AzureVersion body =? "")%string then List.find (fun v => (AV_Version v =? IQ_AzureVersion body)%string) versions
                 else LatestVersion versions in
               match selected with
               | None => cret (Refused 404 (if negb (IQ_AzureVersion body =? "")%string then "version_not_found" else "no_versions"))
               | Some v =>
                   let src := azureSource (AZ_Workspace client) model v in
                   storeModel ctx r (newModel model "" src "") [] (fun _ => ImportedSource model src)
               end
           end
       end.

(** The answer of a handler that leaves the server's fields alone. *)
Definition alone (s : ImportServer) (m : M (Answer ImportReply)) : M (Answer ImportReply * ImportServer) :=
  let* a := m in cret (a, s).

Definition handleImportModel (s : ImportServer) (ctx : ReqContext) (r : Request) (hfHeader : string) (body : Decoded importRequest)
    : M (Answer ImportReply * ImportServer) :=
  match body with
  | Malformed => cret (Refused 400 "bad_request", s)
  | Decoded_ body =>
      let source := IQ_Source body in
      if (source =? "huggingface")%string then alone s (handleImportHuggingFace s ctx r hfHeader body)
      else if (source =? "s3")%string || (source =? "gcs")%string || (source =? "azure")%string
      then alone s (handleImportObjectStorage ctx r body)
      else if (source =? "sagemaker")%string then alone s (handleImportSageMaker ctx r body)
      else if (source =? "vertexai")%string then handleImportVertexAI s ctx r body
      else if (source =? "azureml")%string then alone s (handleImportAzureML ctx r body)
      else cret (Refused 400 "unknown_source", s)
  end.

(** ** A local file for inference on CPUs ([cpu_model_import.go]) *)

Record cpuKnownModel : Type := mkCPUModel { KM_Family : string; KM_Layers : Z; KM_HiddenDim : Z; KM_ParamsB : float64; KM_SizeGBQ4 : float64 }.

Definition cpuModelLookup (slug : string) : option cpuKnownModel :=
  if (slug =? "tinyllama-1.1b")%string then Some (mkCPUModel "llama" 22 2048 (f_const 11 10) (f_const 7 10))
  else if (slug =? "llama3-8b")%string then Some (mkCPUModel "llama" 32 4096 (of_Z 8) (f_const 47 10))
  else if (slug =? "llama3-1b")%string then Some (mkCPUModel "llama" 16 2048 (of_Z 1) (f_const 7 10))
  else if (slug =? "phi3-mini")%string then Some (mkCPUModel "phi" 32 3072 (f_const 38 10) (f_const 23 10))
  else if (slug =? "gemma2-2b")%string then Some (mkCPUModel "gemma" 26 2304 (f_const 26 10) (f_const 16 10))
  else None.

(** [strings.TrimSuffix] with each of the qualifiers, in this order. *)
Definition cpuSuffixes : list string :=
  ["-chat"; "-instruct"; "-it"; "-hf"; "-v1.0"; "-v2.0"; "-v3.0"; ".q4_k_m"; ".q8_0"; ".gguf"]%string.

Definition normalizeCPUModelID (id : string) : string :=
  let s := fold_left TrimSuffix cpuSuffixes (ToLower id) in
  match cpuModelLookup s with
  | Some _ => s
  | None =>
      if (s =? "tinyllama")%string || HasPrefix s "tinyllama-1" then "tinyllama-1.1b"
      else if Contains s "llama" && Contains s "8b" then "llama3-8b"
      else if Contains s "llama" && Contains s "1b" then "llama3-1b"
      else if Contains s "phi" && Contains s "mini" then "phi3-mini"
      else if Contains s "gemma" && Contains s "2b" then "gemma2-2b"
      else s
  end.

Record cpuModelImportRequest : Type := mkCPUImport { CI_ModelID : string; CI_GGUFPath : string; CI_ContextMax : Z }.

Definition cpuSourceBlob (path : string) (contextMax : Z) (k : cpuKnownModel) : string :=
  jsonObject [("type", jsonString "cpu"); ("gguf_path", jsonString path); ("context_max", pretty contextMax);
              ("layers", pretty (KM_Layers k)); ("hidden_dim", pretty (KM_HiddenDim k)); ("size_gb_q4", jsonFloat (KM_SizeGBQ4 k))]%string.

(** Any error of the first look-up lets the import go on. *)
Definition handleImportCPUModel (ctx : ReqContext) (r : Request) (body : Decoded cpuModelImportRequest) : M (Answer Model) :=
  match body with
  | Malformed => cret (Refused 400 "bad_request")
  | Decoded_ body =>
      if (CI_ModelID body =? "")%string then cret (Refused 400 "bad_request")
      else if (CI_GGUFPath body =? "")%string then cret (Refused 400 "bad_request")
      else
        let slug := normalizeCPUModelID (CI_ModelID body) in
        match cpuModelLookup slug with
        | None => cret (Refused 422 "unknown_model")
        | Some k =>
            let contextMax := if CI_ContextMax body =? 0 then 2048 else CI_ContextMax body in
            let* res := GetModel slug in
            match res with
            | inr _ => cret (Refused 409 "model_exists")
            | inl _ =>
                let m := mkModel slug (KM_Family k) "llm" (KM_ParamsB k) "cpu" "llm" "" (cpuSourceBlob (CI_GGUFPath body) contextMax k)
                           zeroTime zeroTime in
                let* m' := stamped m in
                let* err := CreateModel m in
                match err with
                | Some e => cret (if mentionsUnique e then Refused 409 "model_exists" else Refused 500 "create_model_failed")
                | None =>
                    AppendAudit (mkAuditEntry (actorFromRequest ctx r) "model.imported.cpu" slug [] zeroTime) ;;;
                    let* stored := GetModel slug in
                    cret (Answered 201 (match stored with inr m => m | inl _ => m' end))
                end
            end
        end
  end.
End Handlers.

(** ** What an import does to the registry *)

(** The row [row] has entered the table under its id, which was free, and at most one
    audit entry, of this action and this target, was written; nothing else differs. *)
Definition entered (action id : string) (row : Model) (db db' : Database) : Prop :=
  MID row = id /\ db_models db !! id = None /\
  exists log, db' = with_audit (with_models db (<[id := row]> (db_models db))) log /\
    (log = db_audit db \/ exists e, log = db_audit db ++ [e] /\ Action (AREntry e) = action /\ Target (AREntry e) = id).

(** The members of a [ModelSpec] in protobuf's JSON. *)
Definition specMembers : list string :=
  ["model_id"; "modelId"; "family"; "architecture"; "params_total_b"; "paramsTotalB"; "params_active_b"; "paramsActiveB"; "layers";
   "hidden_size"; "hiddenSize"; "n_kv_heads"; "nKvHeads"; "head_dim"; "headDim"; "attention_type"; "attentionType"; "context_max";
   "contextMax"; "is_moe"; "isMoe"; "draft"; "quantizations"; "engine"]%string.

(** The document starts with a member that no [ModelSpec] has. *)
Definition foreign (doc : string) : Prop :=
  exists k rest, k ∉ specMembers /\ doc = "{" +:+ jsonString k +:+ ":" +:+ rest.

(** The spec of the row is empty, or a document of another kind. *)
Definition specless (row : Model) : Prop := hasJSON (Spec row) = false \/ foreign (Spec row).

Lemma jsonObject_foreign k v l : k ∉ specMembers -> foreign (jsonObject ((k, v) :: l)).
Proof.
  intros Hk. destruct l as [|m l].
  - exists k, (v +:+ "}"). split; [done|]. unfold jsonObject, jsonMember. cbn [map JoinWith fst snd]. by rewrite !string_app_assoc.
  - exists k, (v +:+ "," +:+ JoinWith "," (map (fun m => jsonMember m.1 m.2) (m :: l)) +:+ "}"). split; [done|].
    change (jsonObject ((k, v) :: m :: l)) with
      ("{" +:+ (jsonMember k v +:+ "," +:+ JoinWith "," (map (fun m => jsonMember m.1 m.2) (m :: l))) +:+ "}").
    unfold jsonMember at 1. by rewrite !string_app_assoc.
Qed.

Lemma foreign_hasJSON doc : foreign doc -> hasJSON doc = true.
Proof.
  intros (k & rest & _ & ->). unfold hasJSON.
  change ("{" +:+ jsonString k +:+ ":" +:+ rest) with
    (String "{" (String (charOf 34) (ofBytes (jsonText (String.length k) (bytes k) ++ [34]) +:+ ":" +:+ rest))).
  by replace (charOf 34) with "034"%char by done.
Qed.

Lemma jsonObject_filled l : jsonOrEmpty (jsonObject l) = jsonObject l.
Proof. unfold jsonOrEmpty. by destruct (String.eqb_spec (jsonObject l) ""). Qed.

Section Facts.
Context `{E : Env} `{W : Web} `{C : Crypto} `{U : Unicode}.

Lemma CreateModel_run m w e w' :
  CreateModel m w = (e, w') ->
  match e with
  | Some _ => w_db w' = w_db w
  | None =>
      db_models (w_db w) !! MID m = None /\
      exists created now, w_db w' = with_models (w_db w) (<[MID m := mkModel (MID m) (Family m) (Architecture m) (ParamsTotalB m) (Engine m) ""
        (jsonOrEmpty (Spec m)) (jsonOrEmpty (Source m)) created now]> (db_models (w_db w)))
  end.
Proof.
  unfold CreateModel. intros H. run_step H. apply nowUTC_spec in Hrun as [Hd _]. apply exec_spec in H as [_ H]. rewrite Hd in H.
  unfold insertRow in H. destruct e; [by destruct H|]. destruct (db_models (w_db w) !! MID m); [done|]. injection H as <-. eauto.
Qed.

(** A refusal leaves the registry alone; an acceptance is 201 and one new row. *)
Definition atomically (action : string) {A B} (id : B -> string) (P : Model -> Prop) (f : A -> Answer B) (m : M A) : Prop :=
  forall w x w', m w = (x, w') ->
  match f x with
  | Refused _ _ => w_db w' = w_db w
  | Answered st reply => st = 201 /\ exists row, entered action (id reply) row (w_db w) (w_db w') /\ P row
  end.

Lemma atomically_refused action {A B} id P (f : A -> Answer B) x : (exists st code, f x = Refused st code) -> atomically action id P f (cret x).
Proof. intros (st & code & H) w y w' [= <- <-]. by rewrite H. Qed.

Lemma atomically_after action {A B D} id P (f : A -> Answer B) (m : M D) k :
  leaves same_db m -> (forall d, atomically action id P f (k d)) -> atomically action id P f (cbind m k).
Proof.
  intros Hm Hk w x w' H. run_step H. specialize (Hm w). rewrite Hrun in Hm. cbn in Hm. unfold same_db in Hm.
  specialize (Hk r w0 x w' H). by rewrite Hm in Hk.
Qed.

Lemma atomically_map action {A B D} id P (f : A -> Answer B) (g : D -> A) (m : M D) :
  atomically action id P (fun d => f (g d)) m -> atomically action id P f (let* d := m in cret (g d)).
Proof. intros Hm w x w' H. run_step H. injection H as <- <-. by apply Hm. Qed.

Lemma storeModel_atomic ctx r m details reply :
  (forall m', MID m' = MID m -> importedID (reply m') = MID m) ->
  hasJSON (jsonOrEmpty (Spec m)) = false \/ foreign (jsonOrEmpty (Spec m)) ->
  atomically "model.imported" importedID specless id (storeModel ctx r m details reply).
Proof.
  intros Hid Hs w x w' H. unfold storeModel in H. run_step H. injection Hrun as <- <-. run_step H.
  apply CreateModel_run in Hrun. destruct r0 as [e|]; [injection H as <- <-; by destruct (mentionsUnique e)|].
  destruct Hrun as (Hfree & created & now & Hdb). run_step H. injection H as <- <-.
  apply AppendAudit_log in Hrun as (_ & log & Hl & Hlog). unfold id. rewrite Hid by done. split; [done|].
  eexists. split; [split; [|split; [exact Hfree|exists log; split; [by rewrite Hl, Hdb|]]]|]; [done|by rewrite Hdb in Hlog|exact Hs].
Qed.

Lemma GetModel_clean id : leaves same_db (GetModel id).
Proof. intros w. destruct (GetModel id w) as [r w'] eqn:H. by apply query_spec in H as (H & _). Qed.

Lemma unlessExists_atomic mid k :
  atomically "model.imported" importedID specless id k -> atomically "model.imported" importedID specless id (unlessExists mid k).
Proof.
  intros Hk. apply atomically_after; [apply GetModel_clean|]. intros [e|m]; [destruct (isNotFound e); [done|]|]; apply atomically_refused; unfold id; eauto.
Qed.
End Facts.

(** Refusals and steps that only read. *)
Ltac refuse := apply atomically_refused; unfold id; cbn; eauto.

Section Atomic.
Context `{E : Env} `{W : Web} `{C : Crypto} `{U : Unicode} `{J : SpecJSON}.

Lemma importHuggingFace_atomic s ctx r hdr body :
  atomically "model.imported" importedID specless id (handleImportHuggingFace s ctx r hdr body).
Proof.
  unfold handleImportHuggingFace. destruct (_ =? _)%string; [refuse|]. apply atomically_after; [apply FetchMetadata_clean|].
  intros [e|meta]; [destruct (IsNotFound e); [refuse|destruct (IsAuthRequired e); refuse]|]. destruct (MD_GGUFFiles meta); [refuse|].
  apply unlessExists_atomic, storeModel_atomic; [done|by left].
Qed.

Lemma importObjectStorage_atomic ctx r body : atomically "model.imported" importedID specless id (handleImportObjectStorage ctx r body).
Proof.
  unfold handleImportObjectStorage. destruct (_ =? _)%string; [refuse|]. apply atomically_after; [apply ParseObjectURI_clean|].
  intros [e|src]; [refuse|]. apply unlessExists_atomic, storeModel_atomic; [done|by left].
Qed.

Lemma importSageMaker_atomic ctx r body : atomically "model.imported" importedID specless id (handleImportSageMaker ctx r body).
Proof.
  unfold handleImportSageMaker. destruct (_ =? "")%string; [refuse|]. apply atomically_after; [apply ListApprovedModelPackages_clean|].
  intros [e|[|p l]]; [refuse..|]. destruct (choosePackage _ _) as [pkg|]; [|refuse]. apply storeModel_atomic; [done|right].
  cbn [Spec newModel]. unfold sageMakerDoc. rewrite jsonObject_filled. apply jsonObject_foreign. by apply (bool_decide_unpack _).
Qed.

Lemma importVertex_atomic c ctx r body : atomically "model.imported" importedID specless fst (importVertex c ctx r body).
Proof.
  unfold importVertex. destruct (_ && _); [refuse|]. apply atomically_after; [apply vertex_ListModelVersions_clean|].
  intros [[e|[|v l]] c']; [refuse..|]. destruct (chooseVersion _ _) as [chosen|]; [|refuse].
  apply atomically_after; [unfold artifactOf; destruct (_ =? _)%string; [apply GetArtifactURI_clean|by apply leaves_ret; apply _]|].
  intros [[e|uri] c'']; [refuse|]. apply atomically_map. apply storeModel_atomic; [done|right]. cbn [Spec newModel].
  rewrite jsonObject_filled. apply jsonObject_foreign. by apply (bool_decide_unpack _).
Qed.

Lemma importAzureML_atomic ctx r body : atomically "model.imported" importedID specless id (handleImportAzureML ctx r body).
Proof.
  unfold handleImportAzureML. destruct (_ =? _)%string; [refuse|]. destruct (NewAzureMLClient _) as [e|c]; [refuse|].
  apply atomically_after; [apply azure_ListModelVersions_clean|]. intros [e|l]; [refuse|]. destruct (if negb _ then _ else LatestVersion l) as [v|]; [|refuse].
  apply storeModel_atomic; [done|right]. cbn [Spec newModel]. unfold azureSource, stringsObject. rewrite jsonObject_filled.
  apply jsonObject_foreign. by apply (bool_decide_unpack _).
Qed.

Lemma importModel_atomic s ctx r hdr body :
  atomically "model.imported" importedID specless fst (handleImportModel s ctx r hdr body).
Proof.
  assert (Halone : forall m, atomically "model.imported" importedID specless id m ->
    atomically "model.imported" importedID specless fst (alone s m)) by (intros m Hm; by apply atomically_map).
  unfold handleImportModel. destruct body as [|body]; [refuse|].
  destruct (_ =? "huggingface")%string; [apply Halone, importHuggingFace_atomic|].
  destruct (_ || _); [apply Halone, importObjectStorage_atomic|]. destruct (_ =? "sagemaker")%string; [apply Halone, importSageMaker_atomic|].
  destruct (_ =? "vertexai")%string.
  { unfold handleImportVertexAI. destruct (IS_vertexai s) as [c|].
    - intros w x w' H. run_step H. destruct r0 as [a c']. injection H as <- <-. by apply (importVertex_atomic c ctx r body) in Hrun.
    - intros w x w' H. run_step H. destruct r0 as [a c']. injection H as <- <-. by apply (importVertex_atomic _ ctx r body) in Hrun. }
  destruct (_ =? "azureml")%string; [apply Halone, importAzureML_atomic|refuse].
Qed.

Lemma importCPU_atomic ctx r body :
  atomically "model.imported.cpu" MID (fun row => hasJSON (Spec row) = false) id (handleImportCPUModel ctx r body).
Proof.
  unfold handleImportCPUModel. destruct body as [|body]; [refuse|]. destruct (CI_ModelID body =? "")%string; [refuse|].
  destruct (CI_GGUFPath body =? "")%string; [refuse|]. destruct (cpuModelLookup _) as [k|]; [|refuse].
  apply atomically_after; [apply GetModel_clean|]. intros [e|m]; [|refuse].
  intros w x w' H. run_step H. injection Hrun as <- <-. run_step H. apply CreateModel_run in Hrun.
  destruct r0 as [e'|]; [injection H as <- <-; by destruct (mentionsUnique e')|]. destruct Hrun as (Hfree & created & now & Hdb).
  cbn [MID Family Architecture ParamsTotalB Engine Type_ Spec Source] in *. run_step H. apply AppendAudit_log in Hrun as (_ & log & Hl & Hlog).
  cbn [Action Target] in Hlog. run_step H. apply query_spec in Hrun as (Hg & _ & Hr). injection H as <- <-. unfold id.
  assert (Hid : forall m, r1 = inr m -> MID m = normalizeCPUModelID (CI_ModelID body)).
  { intros m ->. destruct (env_db _); [done|]. unfold getRow in Hr. rewrite Hl, Hdb in Hr. cbn in Hr.
    rewrite lookup_insert_eq in Hr. by injection Hr as ->. }
  split; [done|]. destruct r1 as [e''|m]; [cbn [MID]|rewrite (Hid _ eq_refl)];
    (eexists; split; [split; [|split; [exact Hfree|exists log; split; [by rewrite Hg, Hl, Hdb|by rewrite Hdb in Hlog]]]|]; done).
Qed.
End Atomic.

(** ** What protobuf's JSON promises

    A document with a member the message does not have is refused, and a spec with an
    id is read back from its encoding, which is not empty. *)
Class SpecLaws (P : ProtoJSON) (J : SpecJSON) : Prop := {
  spec_unknown : forall doc, foreign doc -> exists e, unmarshalSpec doc = inl e;
  spec_roundtrip : forall spec blob, encodeSpec spec = inr blob -> Proto.ModelId (CS_Spec spec) ≠ ""%string ->
    hasJSON blob = true /\ unmarshalSpec blob = inr (CS_Spec spec) }.

Section Theorems.
Context `{E : Env} `{W : Web} `{C : Crypto} `{U : Unicode} `{P : ProtoJSON} `{J : SpecJSON}.

(** (C20) An import is all or nothing. Whatever the source, the replies of its registry, the
    faults of the database and the body: a refusal leaves the registry as it was, and an
    acceptance is 201, the id of the reply was free, and the registry has one new row,
    under that id, and at most one new audit entry, which names it. *)
Theorem import_atomic s ctx r hdr body w a s' w' :
  handleImportModel s ctx r hdr body w = ((a, s'), w') ->
  match a with
  | Refused _ _ => w_db w' = w_db w
  | Answered st reply => st = 201 /\ exists row, entered "model.imported" (importedID reply) row (w_db w) (w_db w') /\ specless row
  end.
Proof. intros H. by apply (importModel_atomic s ctx r hdr body) in H. Qed.

Context {L : SpecLaws P J}.

Lemma Plan_specless pctx id c row w :
  db_models (w_db w) !! id = Some row -> specless row -> exists e, fst (Planning.Plan pctx id c w) = inl e.
Proof.
  intros Hrow [Hs|Hs].
  - apply Plan_no_spec. intros m. rewrite Hrow. by intros [= <-].
  - unfold Planning.Plan. rewrite cbind_run. destruct (GetModel id w) as [x w1] eqn:Hg. apply query_spec in Hg as (_ & _ & Hr). cbn [fst snd].
    destruct x as [e|m]; [by eexists|]. destruct (env_db _); [done|]. unfold getRow in Hr. rewrite Hrow in Hr. injection Hr as ->.
    destruct (spec_unknown _ Hs) as (e & He). unfold modelSpec.
    rewrite (foreign_hasJSON _ Hs), He. by eexists.
Qed.

(** (C39) An imported model is never planned. The document an import stores as the
    spec is the provenance of the model, or nothing: whatever the fleet, the constraints
    and the state of the registry, a plan for the model fails until its row is replaced. *)
Theorem imported_never_plans s ctx r hdr body w st reply s' w' :
  handleImportModel s ctx r hdr body w = ((Answered st reply, s'), w') ->
  forall pctx c w2, db_models (w_db w2) !! importedID reply = db_models (w_db w') !! importedID reply ->
  exists e, fst (Planning.Plan pctx (importedID reply) c w2) = inl e.
Proof.
  intros H pctx c w2 Hw. apply (importModel_atomic s ctx r hdr body) in H as (_ & row & (_ & _ & log & Hdb & _) & Hs).
  apply (Plan_specless pctx _ c row w2); [|done]. rewrite Hw, Hdb. apply lookup_insert_eq.
Qed.

Lemma modelSpec_posted id family arch params engine typ blob source created now spec :
  encodeSpec spec = inr blob -> Proto.ModelId (CS_Spec spec) ≠ ""%string ->
  modelSpec (mkModel id family arch params engine typ blob source created now) = inr (ModelSpecFromProto (Some (CS_Spec spec))).
Proof.
  intros He Hid. destruct (spec_roundtrip spec blob He Hid) as (Hj & Hu). unfold modelSpec. cbn [Spec MID]. rewrite Hj, Hu.
  assert (Hm : Model_ID (ModelSpecFromProto (Some (CS_Spec spec))) = Proto.ModelId (CS_Spec spec)) by done.
  rewrite Hm. destruct (String.eqb_spec (Proto.ModelId (CS_Spec spec)) ""); [done|]. rewrite <- Hm. by destruct (ModelSpecFromProto (Some (CS_Spec spec))).
Qed.

(** (C28) A model is created as it was posted: a refusal leaves the registry as it was; an
    acceptance enters one row under the id of the posted spec, which was free, and the
    planner reads from that row exactly the posted spec. *)
Theorem created_model_as_posted ctx r body w a w' :
  handleCreateModel ctx r body w = (a, w') ->
  match a with
  | Refused _ _ => w_db w' = w_db w
  | Answered st id =>
      st = 201 /\ exists raw spec row, body = Raw raw /\ decodeSpec raw = inr spec /\ id = Proto.ModelId (CS_Spec spec) /\
        entered "model.created" id row (w_db w) (w_db w') /\ Family row = CS_Family spec /\
        modelSpec row = inr (ModelSpecFromProto (Some (CS_Spec spec)))
  end.
Proof.
  unfold handleCreateModel. destruct body as [|raw]; [by intros [= <- <-]|]. destruct (raw =? "")%string; [by intros [= <- <-]|].
  destruct (decodeSpec raw) as [e|spec] eqn:Hd; [by intros [= <- <-]|].
  destruct (String.eqb_spec (Proto.ModelId (CS_Spec spec)) "") as [|Hne]; [by intros [= <- <-]|]. intros H. run_step H.
  apply query_spec in Hrun as (D1 & _). destruct r0 as [e|m]; [|by injection H as <- <-].
  destruct (isNotFound e); cbn [negb] in H; [|by injection H as <- <-]. destruct (encodeSpec spec) as [e'|blob] eqn:He; [by injection H as <- <-|].
  run_step H. apply CreateModel_run in Hrun. rewrite D1 in Hrun. cbn [MID Family Architecture ParamsTotalB Engine Spec Source] in Hrun.
  destruct r0 as [e'|]; [injection H as <- <-; by destruct (mentionsUnique e')|]. destruct Hrun as (Hfree & created & now & Hdb).
  run_step H. apply AppendAudit_log in Hrun as (_ & log & Hl & Hlog). injection H as <- <-. split; [done|]. rewrite Hdb in Hl, Hlog.
  assert (Hblob : jsonOrEmpty blob = blob).
  { destruct (spec_roundtrip spec blob He Hne) as (Hj & _). unfold jsonOrEmpty. by destruct (String.eqb_spec blob "") as [->|]. }
  exists raw, spec. eexists. split; [done|]. split; [done|]. split; [done|]. split; [split; [|split; [exact Hfree|by exists log]]|]; [done|].
  split; [done|]. rewrite Hblob. by apply modelSpec_posted.
Qed.
End Theorems.

(** ** A concrete hub *)

#[local] Instance Quantization_eq : EqDecision Proto.Quantization.
Proof. solve_decision. Defined.
#[local] Instance DraftInfo_eq : EqDecision Proto.DraftInfo.
Proof. solve_decision. Defined.
#[local] Instance ProtoModelSpec_eq : EqDecision Proto.ModelSpec.
Proof. solve_decision. Defined.

Definition exSpecMessage : Proto.ModelSpec := ModelSpec_ToProto exModel.
Definition exPosted : createSpec := mkCreateSpec exSpecMessage "llama" "llm" "llama.cpp".

Definition oneSpecProto : ProtoJSON := {|
  unmarshalProfile := fun _ => inl ErrNotFound;
  unmarshalSpec := fun doc => if (doc =? "spec")%string then inr exSpecMessage else inl (ErrorString "unknown field") |}.
Definition oneSpecJSON : SpecJSON := {|
  decodeSpec := fun raw => if (raw =? "spec")%string then inr exPosted else inl (ErrorString "syntax error");
  encodeSpec := fun s => if decide (CS_Spec s = exSpecMessage) then inr "spec"%string else inl (ErrorString "no encoding");
  jsonFloat := fun _ => "0.7"%string |}.

Lemma oneSpecLaws : SpecLaws oneSpecProto oneSpecJSON.
Proof.
  split.
  - intros doc (k & rest & _ & ->). eexists. reflexivity.
  - intros spec blob. cbn. destruct (decide _) as [->|]; [|done]. by intros [= <-] _.
Qed.

Definition plainUnicode : Unicode := {| unicode_ToLower := fun r => r |}.

(** Every request is answered with an empty document, which stands for the replies below. *)
Definition exWeb (env : string -> string) : Web := {|
  getenv := env;
  readFile := fun _ _ => inl ErrNotFound;
  parseURL := fun s => inr (mkURL s "" "" "");
  web_do := fun _ _ => inr (mkWebReply 200 (mkBody "{}" None));
  pemDecode := fun _ => None;
  RSAKey := unit;
  parsePKCS8 := fun _ => inl ErrNotFound;
  signRS256 := fun _ _ _ => inl ErrNotFound;
  timeParse := parseRFC3339;
  decodeHFModel := fun _ => inr (mkHFModel "meta-llama/Llama-3.1-8B" [mkSibling "z/model.Q8_0.gguf" 8; mkSibling "README.md" 1; mkSibling "a/model.Q4_K_M.gguf" 4] None);
  decodeServiceAccount := fun _ => inl ErrNotFound;
  decodeSummaries := fun _ => inr [mkSummary "arn:1" 1 0 "Approved" ""; mkSummary "arn:2" 2 1 "Approved" ""];
  decodeDetail := fun _ => inr (mkPackageDetail "arn" "grp" "a Llama" ["s3://b/k"%string]);
  decodeToken := fun _ => inr ("t"%string, 3600);
  decodeAccessToken := fun _ => inr "t"%string;
  decodeVertexList := fun _ => inr [mkVertexEntry "" "6" "" "2024-01-01T00:00:00Z" "" ""; mkVertexEntry "" "7" "" "2025-01-01T00:00:00Z" "" ""];
  decodeArtifact := fun _ => inr "gs://b/k"%string;
  decodeAzureList := fun _ => inr [] |}.

Definition exEnv (name : string) : string := if (name =? "PURSER_VERTEX_PROJECT")%string then "p"%string else ""%string.

Definition exImport (source model : string) : Decoded importRequest :=
  Decoded_ (mkImport source "meta-llama/Llama-3.1-8B" "" "" "s3://bucket/a b/weights.gguf" "" "" "grp" 0 model "" "" "").
Definition exImportServer : ImportServer := mkImportServer "" "" None.
Definition exAnonymous : Request := mkRequest "POST" "/api/v1/models/import" "" "" None "".

Definition runImport (source model : string) : (Answer ImportReply * ImportServer) * World :=
  handleImportModel (E := calmEnv) (W := exWeb exEnv) (C := plainCrypto) (U := plainUnicode) exImportServer Background exAnonymous "" (exImport source model) emptyWorld.

Example imports :
  match fst (fst (runImport "huggingface" "")) with Answered 201 (ImportedModel m) => MID m = "Llama-3.1-8B"%string /\ Family m = "llama"%string | _ => False end /\
  fst (fst (runImport "s3" "")) =
    Answered 201 (ImportedObject "weights.gguf" "s3" "https://bucket.s3.us-east-1.amazonaws.com/a b/weights.gguf") /\
  match fst (fst (runImport "sagemaker" "")) with Answered 201 a => importedID a = "grp-v2"%string | _ => False end /\
  match fst (fst (runImport "vertexai" "m")) with Answered 201 a => importedID a = "m@7"%string | _ => False end /\
  fst (fst (runImport "azureml" "m")) = Refused 400 "bad_request" /\ fst (fst (runImport "ftp" "m")) = Refused 400 "unknown_source".
Proof. vm_compute. done. Qed.

(** The import of the newest SageMaker package: one row, and it cannot be planned. *)
Lemma import_atomic_witness :
  exists reply row, fst (fst (runImport "sagemaker" "")) = Answered 201 reply /\
    entered "model.imported" (importedID reply) row (w_db emptyWorld) (w_db (snd (runImport "sagemaker" ""))).
Proof.
  assert (Hk : match fst (fst (runImport "sagemaker" "")) with Answered _ _ => true | _ => false end = true) by (vm_compute; reflexivity).
  pose proof (import_atomic (E := calmEnv) (W := exWeb exEnv) (C := plainCrypto) (U := plainUnicode) exImportServer Background exAnonymous ""
    (exImport "sagemaker" "") emptyWorld (fst (fst (runImport "sagemaker" ""))) (snd (fst (runImport "sagemaker" "")))
    (snd (runImport "sagemaker" ""))) as H.
  destruct (runImport "sagemaker" "") as [[a s'] w'] eqn:Hrun. cbn [fst snd] in *. specialize (H Hrun).
  destruct a as [|st reply]; [discriminate Hk|]. destruct H as (-> & row & H & _). exists reply, row. split; [reflexivity|exact H].
Defined.

Lemma imported_never_plans_witness :
  exists reply, fst (fst (runImport "vertexai" "m")) = Answered 201 reply /\
    exists e, fst (Planning.Plan (E := calmEnv) (J := oneSpecProto) exCtx (importedID reply) Constraints_zero (snd (runImport "vertexai" "m"))) = inl e.
Proof.
  assert (Hk : match fst (fst (runImport "vertexai" "m")) with Answered st _ => st =? 201 | _ => false end = true) by (vm_compute; reflexivity).
  pose proof (fun st reply => imported_never_plans (E := calmEnv) (W := exWeb exEnv) (C := plainCrypto) (U := plainUnicode) (P := oneSpecProto)
    (L := oneSpecLaws) exImportServer Background exAnonymous "" (exImport "vertexai" "m") emptyWorld st reply
    (snd (fst (runImport "vertexai" "m"))) (snd (runImport "vertexai" "m"))) as H.
  destruct (runImport "vertexai" "m") as [[a s'] w'] eqn:Hrun. cbn [fst snd] in *.
  destruct a as [|st reply]; [discriminate Hk|]. apply Z.eqb_eq in Hk as ->. exists reply. split; [reflexivity|].
  exact (H 201 reply Hrun exCtx Constraints_zero w' eq_refl).
Defined.

Lemma created_model_as_posted_witness :
  exists row, db_models (w_db (snd (handleCreateModel (E := calmEnv) (C := plainCrypto) (U := plainUnicode) (J := oneSpecJSON) Background
      exAnonymous (Raw "spec") emptyWorld))) !! Model_ID exModel = Some row /\
    modelSpec (J := oneSpecProto) row = inr (ModelSpecFromProto (Some exSpecMessage)).
Proof.
  pose proof (created_model_as_posted (E := calmEnv) (C := plainCrypto) (U := plainUnicode) (P := oneSpecProto) (J := oneSpecJSON) (L := oneSpecLaws)
    Background exAnonymous (Raw "spec") emptyWorld _ _
    (surjective_pairing (handleCreateModel (E := calmEnv) (C := plainCrypto) (U := plainUnicode) (J := oneSpecJSON) Background
      exAnonymous (Raw "spec") emptyWorld))) as H.
  assert (Hk : fst (handleCreateModel (E := calmEnv) (C := plainCrypto) (U := plainUnicode) (J := oneSpecJSON) Background
      exAnonymous (Raw "spec") emptyWorld) = Answered 201 (Model_ID exModel)) by (vm_compute; reflexivity).
  rewrite Hk in H. destruct H as (_ & raw & spec & row & Hraw & Hd & _ & (_ & _ & log & Hdb & _) & _ & Hs).
  exists row. rewrite Hdb. split; [apply lookup_insert_eq|]. injection Hraw as <-. cbn in Hd. injection Hd as <-. exact Hs.
Defined.

(** ** Where the documentation promises more *)

(** The files are in the order of the reply, not sorted by name. *)
Example files_unsorted :
  map GF_Name (MD_GGUFFiles (metadataOf (U := plainUnicode) "r" "" (mkHFModel "" [mkSibling "z.gguf" 1; mkSibling "a.gguf" 1] None))) =
    ["z.gguf"; "a.gguf"]%string.
Proof. reflexivity. Qed.

(** Two documented or natural names of a small model and what they become. *)
Example cpu_names :
  map (normalizeCPUModelID (U := plainUnicode)) ["tinyllama"; "TinyLlama-1.1B-chat"; "llama-3.1-8b"; "phi-3-mini-instruct"; "gemma-2-2b-it"]%string =
    ["tinyllama-1.1b"; "tinyllama-1.1b"; "llama3-8b"; "phi3-mini"; "gemma2-2b"]%string /\
  normalizeCPUModelID (U := plainUnicode) "tiny-llama-1b" = "llama3-1b"%string /\
  normalizeCPUModelID (U := plainUnicode) "llama-3.2-11b" = "llama3-1b"%string.
Proof. vm_compute. done. Qed.

(** The version in a Vertex AI name is dropped from the request and kept in the id. *)
Example version_suffix_ignored :
  resolveModel (NewVertexAIClient (W := exWeb exEnv)) "m@6" = ("p", "us-central1", "m")%string /\
  match fst (fst (runImport "vertexai" "m@6")) with Answered 201 a => importedID a = "m@6@7"%string | _ => False end.
Proof. vm_compute. done. Qed.

(** A question mark of a key ends the path of an Azure URL, signed or not. *)
Example azure_key_cut :
  match azureSASURL (C := plainCrypto) 0 "acct" "c" "a?b.gguf" "" with
  | inr url => option_map fst (cutAt "?" url) = Some "https://acct.blob.core.windows.net/c/a"%string
  | inl _ => False
  end.
Proof. vm_compute. done. Qed.

(** A key with a space and a percent sign. *)
Lemma presigned_url_names_object_witness :
  exists path query sig, sigV4PresignS3 (C := plainCrypto) 0 "bucket" "dir/a b%.gguf" "eu-west-1" "AKIA" "secret" =
      "https://" +:+ "bucket.s3.eu-west-1.amazonaws.com" +:+ "/" +:+ path +:+ "?" +:+ query +:+ "&X-Amz-Signature=" +:+ sig /\
    mapM PathUnescape (Split path "/"%char) = Some ["dir"; "a b%.gguf"]%string.
Proof.
  assert (Hnow : fourDigitYear 0) by (vm_compute; split; [discriminate|reflexivity]).
  destruct (presigned_url_names_object (C := plainCrypto) 0 "bucket" "dir/a b%.gguf" "eu-west-1" "AKIA" "secret" Hnow)
    as (path & query & H1 & _ & H2 & _). exists path, query. eexists. split; [exact H1|exact H2].
Defined.
