(* ===== verification/Ldap.v ===== *)
(** * Ldap: logins against a directory

    Package [ldapauth] (the configuration from the environment, the connector with its
    cache, the groups of a user and the role they map to) and the endpoints of
    [server/auth_ldap.go].

    The directory behind [go-ldap] is a [Directory]: what a dial, a bind and a search
    answer at each call. *)
From S2P Require Import Prelude Text Ordering Cluster Registry Statements Access Credentials Identity Importers.
Open Scope Z_scope.

(** ** Configuration ([config.go]) *)

Record DNGroupMapping : Type := mkDNGroupMapping { DM_DN : string; DM_Role : string }.

Record Config : Type := mkLDAPConfig {
  LC_URL : string; BindDN : string; BindPassword : string; UserBaseDN : string; UserFilter : string; GroupBaseDN : string;
  GroupFilter : string; GroupAttribute : string; GroupMappings : gmap string string; DNGroupMappings : list DNGroupMapping;
  DefaultRole : string; NestedGroups : bool; CacheTTL : Duration; TLSCAFile : string; StartTLS : bool; InsecureSkipVerify : bool }.

Definition getEnvOrDefault (getenv : string -> string) (key def : string) : string :=
  if negb (getenv key =? "")%string then getenv key else def.

(** One entry of the list; what has no equals sign is skipped. *)
Definition addMapping (t : gmap string string) (m : string) : gmap string string :=
  match cutAt "=" (TrimSpace m) with Some (group, role) => <[TrimSpace group := TrimSpace role]> t | None => t end.

Definition parseMappings (s : string) : gmap string string :=
  if (s =? "")%string then ∅ else fold_left addMapping (Split s ","%char) ∅.

(** Five minutes when nothing is said, none when it is no number. *)
Definition parseTTL (s : string) : Duration :=
  if (s =? "")%string then 5 * Minute
  else match Atoi s with Some n => toInt64 (n * Second) | None => 0 end.

Definition FromEnv (getenv : string -> string) : option Config :=
  if (getenv "PURSER_LDAP_URL" =? "")%string then None
  else Some (mkLDAPConfig (getenv "PURSER_LDAP_URL") (getenv "PURSER_LDAP_BIND_DN") (getenv "PURSER_LDAP_BIND_PASSWORD")
         (getenv "PURSER_LDAP_USER_BASE_DN")
         (getEnvOrDefault getenv "PURSER_LDAP_USER_FILTER" "(&(objectClass=user)(sAMAccountName=%s))")
         (getenv "PURSER_LDAP_GROUP_BASE_DN")
         (getEnvOrDefault getenv "PURSER_LDAP_GROUP_FILTER" "(&(objectClass=group)(member:1.2.840.113556.1.4.1941:=%s))")
         (getEnvOrDefault getenv "PURSER_LDAP_GROUP_ATTRIBUTE" "cn")
         (parseMappings (getenv "PURSER_LDAP_GROUP_MAPPINGS")) [] "" false
         (parseTTL (getenv "PURSER_LDAP_CACHE_TTL_SECONDS")) (getenv "PURSER_LDAP_TLS_CA_FILE")
         (getenv "PURSER_LDAP_STARTTLS" =? "1")%string (getenv "PURSER_LDAP_INSECURE_SKIP_VERIFY" =? "1")%string).

(** [None] is valid. *)
Definition Validate (c : Config) : option Error :=
  if (LC_URL c =? "")%string then Some (ErrorString "ldap: URL is required")
  else if (BindDN c =? "")%string then Some (ErrorString "ldap: BindDN is required")
  else if (UserBaseDN c =? "")%string then Some (ErrorString "ldap: UserBaseDN is required")
  else None.

(** ** The directory *)

Record Entry : Type := mkEntry { EN_DN : string; EN_Attributes : list (string * string) }.

(** [GetAttributeValue]: the first value, or nothing. *)
Definition attributeValue (name : string) (e : Entry) : string :=
  match List.find (fun a => (a.1 =? name)%string) (EN_Attributes e) with Some (_, v) => v | None => "" end.

Inductive BindError : Type := InvalidCredentials | BindFailed (e : Error).

Record TLSConfig : Type := mkTLSConfig { TC_Insecure : bool; TC_CAFile : option string }.

Record SearchRequest : Type := mkSearch { SQ_BaseDN : string; SQ_SizeLimit : Z; SQ_Filter : string; SQ_Attributes : list string }.

Class Directory : Type := {
  dir_readCA : nat -> string -> option Error;
  dir_dial : nat -> string -> option TLSConfig -> option Error;
  dir_startTLS : nat -> TLSConfig -> option Error;
  dir_bind : nat -> string -> string -> option BindError;
  dir_search : nat -> SearchRequest -> Error + list Entry;
  EscapeFilter : string -> string;
  EqualFold : string -> string -> bool;
  (** The text of [fmt.Sprintf] from a verb other than [%s] on: whether the argument was
      used, the rest of the template, the argument. *)
  otherVerb : bool -> string -> string -> string }.

Section Connector.
Context `{E : Env} `{D : Directory} `{C : Crypto}.

(** [fmt.Sprintf] with one string. *)
Fixpoint sprintf1 (used : bool) (template arg : string) : string :=
  match template with
  | EmptyString => if used then "" else "%!(EXTRA string=" +:+ arg +:+ ")"
  | String c t =>
      if Ascii.eqb c "%" then
        match t with
        | String d t' =>
            if Ascii.eqb d "%" then String "%" (sprintf1 used t' arg)
            else if Ascii.eqb d "s" then (if used then "%!s(MISSING)"%string else arg) +:+ sprintf1 true t' arg
            else otherVerb used template arg
        | EmptyString => otherVerb used template arg
        end
      else String c (sprintf1 used t arg)
  end.

Definition Sprintf (template arg : string) : string := sprintf1 false template arg.

(** ** The connector ([connector.go]) *)

Record LDAPUser : Type := mkLDAPUser { LU_DN : string; LU_Email : string; LU_Groups : list string; LU_GroupDNs : list string; LU_Role : string }.

Record cacheEntry : Type := mkCacheEntry { CE_info : LDAPUser; CE_expiresAt : Time }.

Record ldapGroupEntry : Type := mkGroup { LG_DN : string; LG_Name : string }.

Record Connector : Type := mkConnector { LN_cfg : Config; LN_cache : gmap string cacheEntry }.

Definition New (cfg : option Config) : option Connector := (fun cfg => mkConnector cfg ∅) <$> cfg.

Definition cacheKey (username password : string) : string := sha256HexOf (username +:+ ":" +:+ password).

Definition fromCache (c : Connector) (username password : string) : M (option LDAPUser) :=
  if CacheTTL (LN_cfg c) <=? 0 then cret None
  else
    match LN_cache c !! cacheKey username password with
    | None => cret None
    | Some entry => let* now := nowUTC in cret (if CE_expiresAt entry <? now then None else Some (CE_info entry))
    end.

Definition CheckCache (c : Connector) (username password : string) : M (option LDAPUser) := fromCache c username password.

Definition putCache (c : Connector) (username password : string) (info : LDAPUser) : M Connector :=
  if CacheTTL (LN_cfg c) <=? 0 then cret c
  else
    let* now := nowUTC in
    cret (mkConnector (LN_cfg c) (<[cacheKey username password := mkCacheEntry info (now + CacheTTL (LN_cfg c))]> (LN_cache c))).

Definition bind (dn password : string) : M (option BindError) := let* t := next in cret (dir_bind t dn password).
Definition search (req : SearchRequest) : M (Error + list Entry) := let* t := next in cret (dir_search t req).

Definition dial (cfg : Config) : M (option Error) :=
  let* ca := (if negb (TLSCAFile cfg =? "")%string then let* t := next in cret (dir_readCA t (TLSCAFile cfg)) else cret None) in
  match ca with
  | Some e => cret (Some (Wrap "read CA file" e))
  | None =>
      let tls := mkTLSConfig (InsecureSkipVerify cfg) (if negb (TLSCAFile cfg =? "")%string then Some (TLSCAFile cfg) else None) in
      let* t := next in
      if StartTLS cfg then
        match dir_dial t (LC_URL cfg) None with
        | Some e => cret (Some e)
        | None => let* t := next in cret (dir_startTLS t tls)
        end
      else cret (dir_dial t (LC_URL cfg) (Some tls))
  end.

Definition groupOf (cfg : Config) (e : Entry) : ldapGroupEntry := mkGroup (EN_DN e) (attributeValue (GroupAttribute cfg) e).

(** The entries whose names were not seen, and the names seen after them. *)
Fixpoint unseen (cfg : Config) (seen : gset string) (l : list Entry) : list ldapGroupEntry * gset string :=
  match l with
  | [] => ([], seen)
  | e :: l =>
      if decide (EN_DN e ∈ seen) then unseen cfg seen l
      else let '(gs, seen) := unseen cfg ({[EN_DN e]} ∪ seen) l in (groupOf cfg e :: gs, seen)
  end.

Definition groupSearch (cfg : Config) (filter : string) : SearchRequest := mkSearch (GroupBaseDN cfg) 0 filter [GroupAttribute cfg].

(** One level of parents. A search that fails ends everything with what was found:
    the flag. *)
Fixpoint parentsOf (cfg : Config) (dns : list string) (seen : gset string) : M (list ldapGroupEntry * gset string * bool) :=
  match dns with
  | [] => cret ([], seen, false)
  | dn :: dns =>
      let* sr := search (groupSearch cfg ("(member=" +:+ EscapeFilter dn +:+ ")")) in
      match sr with
      | inl _ => cret ([], seen, true)
      | inr entries =>
          let '(gs, seen) := unseen cfg seen entries in
          let* (rest, seen, stopped) := parentsOf cfg dns seen in
          cret (gs ++ rest, seen, stopped)
      end
  end.

(** [levels] is five less the depth. *)
Fixpoint searchParentGroups (cfg : Config) (levels : nat) (dns : list string) (seen : gset string) : M (list ldapGroupEntry) :=
  match levels with
  | O => cret []
  | S levels =>
      if (length dns =? 0)%nat then cret []
      else
        let* (found, seen, stopped) := parentsOf cfg dns seen in
        if stopped then cret found
        else
          let* deeper := searchParentGroups cfg levels (map LG_DN found) seen in
          cret (found ++ deeper)
  end.

Definition maxDepth : nat := 5.

Definition searchGroups (cfg : Config) (userDN : string) : M (LDAPError + list ldapGroupEntry) :=
  if (GroupBaseDN cfg =? "")%string then cret (inr [])
  else
    let* result := search (groupSearch cfg (Sprintf (GroupFilter cfg) (EscapeFilter userDN))) in
    match result with
    | inl _ => cret (inl ErrLDAPUnavailable)
    | inr entries =>
        let '(groups, seen) := unseen cfg ∅ entries in
        if NestedGroups cfg && negb (length groups =? 0)%nat then
          let* nested := searchParentGroups cfg maxDepth (map LG_DN groups) seen in
          cret (inr (groups ++ nested))
        else cret (inr groups)
    end.

(** The map of priorities: what is not in it is zero. *)
Definition priority (role : string) : Z :=
  if (role =? "admin")%string then 3 else if (role =? "viewer")%string then 2 else if (role =? "inference")%string then 1 else 0.

Definition better (best role : string) : string := if priority best <? priority role then role else best.

(** The roles the mappings give to a group, in the order they are looked at. *)
Definition groupRoles (cfg : Config) (g : ldapGroupEntry) : list string :=
  map DM_Role (List.filter (fun dm => EqualFold (LG_DN g) (DM_DN dm)) (DNGroupMappings cfg)) ++
  match GroupMappings cfg !! LG_Name g with Some role => [role] | None => [] end.

Definition enforced (cfg : Config) : bool :=
  negb ((size (GroupMappings cfg) =? 0)%nat && (length (DNGroupMappings cfg) =? 0)%nat).

(** [None] is [("", false)]. *)
Definition resolveRole (cfg : Config) (groups : list ldapGroupEntry) : option string :=
  if negb (enforced cfg) then Some ""%string
  else
    let best := fold_left (fun best g => fold_left better (groupRoles cfg g) best) groups ""%string in
    if negb (best =? "")%string then Some best
    else if negb (DefaultRole cfg =? "")%string then Some (DefaultRole cfg)
    else None.

Definition nonEmpty (l : list string) : list string := List.filter (fun s => negb (s =? "")%string) l.

Definition userSearch (cfg : Config) (username : string) : SearchRequest :=
  mkSearch (UserBaseDN cfg) 1 (Sprintf (UserFilter cfg) (EscapeFilter username)) ["dn"; "mail"; "userPrincipalName"]%string.

Definition emailOf (e : Entry) : string :=
  if (attributeValue "mail" e =? "")%string then attributeValue "userPrincipalName" e else attributeValue "mail" e.

(** The groups, the role and the result, after the password was verified. *)
Definition authorise (cfg : Config) (user : Entry) : M (LDAPError + LDAPUser) :=
  let* groups := searchGroups cfg (EN_DN user) in
  cret (match groups with
        | inl e => inl e
        | inr groups =>
            match resolveRole cfg groups with
            | None => inl ErrNoGroupMapping
            | Some role => inr (mkLDAPUser (EN_DN user) (emailOf user) (nonEmpty (map LG_Name groups)) (nonEmpty (map LG_DN groups)) role)
            end
        end).

(** The exchange with the directory. *)
Definition liveAuthenticate (cfg : Config) (username password : string) : M (LDAPError + LDAPUser) :=
  let* err := dial cfg in
  match err with
  | Some _ => cret (inl ErrLDAPUnavailable)
  | None =>
      let* err := bind (BindDN cfg) (BindPassword cfg) in
      match err with
      | Some _ => cret (inl ErrLDAPUnavailable)
      | None =>
          let* result := search (userSearch cfg username) in
          match result with
          | inl _ => cret (inl ErrLDAPUnavailable)
          | inr [] => cret (inl ErrInvalidCredentials)
          | inr (user :: _) =>
              let* err := bind (EN_DN user) password in
              match err with
              | Some InvalidCredentials => cret (inl ErrInvalidCredentials)
              | Some (BindFailed _) => cret (inl ErrLDAPUnavailable)
              | None =>
                  let* err := bind (BindDN cfg) (BindPassword cfg) in
                  match err with
                  | Some _ => cret (inl ErrLDAPUnavailable)
                  | None => authorise cfg user
                  end
              end
          end
      end
  end.

Definition Authenticate (c : Connector) (username password : string) : M ((LDAPError + LDAPUser) * Connector) :=
  let* hit := fromCache c username password in
  match hit with
  | Some info => cret (inr info, c)
  | None =>
      let* res := liveAuthenticate (LN_cfg c) username password in
      match res with
      | inl e => cret (inl e, c)
      | inr info => let* c := putCache c username password info in cret (inr info, c)
      end
  end.

(** ** The endpoints ([server/auth_ldap.go]) *)

Definition loginInfo (info : LDAPUser) : UserInfo := mkUserInfo (LU_DN info) (LU_Email info) (LU_Role info).

Definition complete (form : option (string * string)) : option (string * string) :=
  match form with
  | Some (u, p) => if (u =? "")%string || (p =? "")%string then None else Some (u, p)
  | None => None
  end.

(** The login of [Identity] with this connector, which it asks only for complete forms. *)
Definition ldapLogin (c : option Connector) (hasReg : bool) (secret : string) (form : option (string * string))
    : M (Answer string * option Connector) :=
  match c, complete form with
  | Some c, Some (username, password) =>
      let* (res, c) := Authenticate c username password in
      let res := match res with inl e => inl e | inr info => inr (loginInfo info) end in
      let* a := handleLDAPLogin (Some (fun _ _ => res)) hasReg secret form in
      cret (a, Some c)
  | _, _ =>
      let* a := handleLDAPLogin ((fun _ _ _ => inl ErrInvalidCredentials) <$> c) hasReg secret form in cret (a, c)
  end.

Definition handleLDAPLoginForm (c : option Connector) : Answer string :=
  match c with None => Answered 302 "/auth/login" | Some _ => Answered 200 "form" end.

Inductive LDAPTestReply : Type :=
| TestFailed (error : string)
| TestDenied (cacheHit : bool)
| TestOK (userDN : string) (groups : list string) (mappedRole : string) (cacheHit : bool).

(** [None] is a body that is no JSON of the type. *)
Definition handleLDAPTest (c : option Connector) (body : option (string * string)) : M (Answer LDAPTestReply * option Connector) :=
  match c with
  | None => cret (Refused 404 "not_configured", None)
  | Some c =>
      match body with
      | None => cret (Refused 400 "bad_request", Some c)
      | Some (username, password) =>
          if (username =? "")%string || (password =? "")%string then cret (Refused 400 "bad_request", Some c)
          else
            let* hit := CheckCache c username password in
            let cacheHit := match hit with Some _ => true | None => false end in
            let* (res, c) := Authenticate c username password in
            cret (match res with
                  | inl ErrInvalidCredentials => Answered 401 (TestFailed "invalid_credentials")
                  | inl ErrLDAPUnavailable => Answered 503 (TestFailed "ldap_unavailable")
                  | inl ErrNoGroupMapping => Answered 403 (TestDenied cacheHit)
                  | inl (LDAPOther _) => Refused 500 "internal_error"
                  | inr info =>
                      Answered 200 (TestOK (LU_DN info) (if (length (LU_GroupDNs info) =? 0)%nat then LU_Groups info else LU_GroupDNs info)
                                      (LU_Role info) cacheHit)
                  end, Some c)
      end
  end.
End Connector.

(** ** Roles *)

Section Roles.
Context `{D : Directory}.

(** All roles the mappings give to the groups. *)
Definition grantedRoles (cfg : Config) (groups : list ldapGroupEntry) : list string := flat_map (groupRoles cfg) groups.

Lemma better_fold roles best :
  let r := fold_left better roles best in
  (r = best \/ r ∈ roles) /\ priority best <= priority r /\ (forall x, x ∈ roles -> priority x <= priority r) /\
  (r ≠ best -> priority best < priority r).
Proof.
  revert best. induction roles as [|x roles IH]; intros best; cbn [fold_left]; [split; [by left|split; [done|split; [by intros x ?%elem_of_nil|done]]]|].
  destruct (IH (better best x)) as (H1 & H2 & H3 & H4). set (r := fold_left better roles (better best x)) in *.
  assert (Hb : priority best <= priority (better best x) /\ priority x <= priority (better best x) /\
    (better best x = best \/ better best x = x /\ priority best < priority x)).
  { unfold better. destruct (Z.ltb_spec (priority best) (priority x)); (split; [lia|split; [lia|]]); [right; split; [done|lia]|by left]. }
  destruct Hb as (B1 & B2 & B3). split; [|split; [lia|split]].
  - destruct H1 as [->|H1]; [|right; by apply list_elem_of_further]. destruct B3 as [->|[-> _]]; [by left|right; apply list_elem_of_here].
  - intros y [->|Hy]%elem_of_cons; [lia|by apply H3].
  - intros Hne. destruct (decide (r = better best x)) as [He|He]; [|specialize (H4 He); lia].
    destruct B3 as [B3|[B3 B4]]; [congruence|]. rewrite He, B3. exact B4.
Qed.

Lemma fold_roles cfg groups best :
  fold_left (fun best g => fold_left better (groupRoles cfg g) best) groups best = fold_left better (grantedRoles cfg groups) best.
Proof. revert best. induction groups as [|g groups IH]; intros best; [done|]. cbn [fold_left grantedRoles flat_map]. by rewrite fold_left_app, IH. Qed.

(** The role of a user is the highest one the mappings grant to any of the groups; when
    they grant none of the three, it is the default; when there is no default, the user
    is refused. Without mappings everyone is let through, with no role. *)
Theorem role_resolution (cfg : Config) (groups : list ldapGroupEntry) :
  match resolveRole cfg groups with
  | Some role =>
      enforced cfg = false /\ role = ""%string \/
      enforced cfg = true /\ role ∈ grantedRoles cfg groups /\ 0 < priority role /\
        (forall r, r ∈ grantedRoles cfg groups -> priority r <= priority role) \/
      enforced cfg = true /\ (forall r, r ∈ grantedRoles cfg groups -> priority r = 0) /\ role = DefaultRole cfg /\ role ≠ ""%string
  | None => enforced cfg = true /\ (forall r, r ∈ grantedRoles cfg groups -> priority r = 0) /\ DefaultRole cfg = ""%string
  end.
Proof.
  unfold resolveRole. destruct (enforced cfg); cbn [negb]; [|by left]. rewrite fold_roles.
  destruct (better_fold (grantedRoles cfg groups) "") as (H1 & H2 & H3 & H4). set (best := fold_left better _ _) in *.
  assert (Hpos : forall x, 0 <= priority x) by (intros x; unfold priority; repeat case_match; lia).
  destruct (String.eqb_spec best "") as [He|Hne]; cbn [negb].
  - assert (Hz : forall r, r ∈ grantedRoles cfg groups -> priority r = 0) by (intros r Hr%H3; rewrite He in Hr; specialize (Hpos r); cbn in Hr; lia).
    destruct (String.eqb_spec (DefaultRole cfg) ""); cbn [negb]; [done|]. right; right. done.
  - right; left. destruct H1 as [|H1]; [done|]. specialize (H4 Hne). cbn in H4. done.
Qed.
End Roles.

(** ** Who is let in *)

(** The calls of a run are numbered upwards. *)
Definition later (w w' : World) : Prop := (w_tick w <= w_tick w')%nat.

#[export] Instance later_pre : PreOrder later.
Proof. split; unfold later; [intros w; lia|intros w1 w2 w3; lia]. Qed.

Section Soundness.
Context `{E : Env} `{D : Directory} `{C : Crypto}.

Definition quiet (w w' : World) : Prop := later w w' /\ w_db w' = w_db w.

#[local] Instance quiet_pre : PreOrder quiet.
Proof. split; unfold quiet, later; [intros w; split; [lia|done]|intros w1 w2 w3 [] []; split; [lia|congruence]]. Qed.



















(** Earlier attempts, of anyone. *)
Fixpoint attempts (c : Connector) (l : list (string * string)) : M Connector :=
  match l with [] => cret c | (u, p) :: l => let* (_, c) := Authenticate c u p in attempts c l end.









End Soundness.

(** ** Filters *)

(** The bytes that mean something in a filter: the parentheses, the star and NUL. *)
Definition special (b : Z) : bool := (b =? 40) || (b =? 41) || (b =? 42) || (b =? 0).

(** [EscapeFilter] leaves none of them (RFC 4515). *)
Class FilterLaws (D : Directory) : Prop := { escape_plain : forall s, List.filter special (bytes (EscapeFilter s)) = [] }.

Section Filters.
Context `{D : Directory}.

Lemma sprintf1_used s : avoids "%" s -> forall arg, sprintf1 true s arg = s.
Proof.
  unfold avoids. induction s as [|c s IH]; [done|]. cbn [bytes]. intros H arg. inversion_clear H as [|? ? Hc Hs]. cbn [sprintf1].
  destruct (Ascii.eqb_spec c "%") as [->|_]; [done|]. by rewrite (IH Hs).
Qed.

(** A template with one [%s] and no other verb. *)
Lemma Sprintf_one pre post arg : avoids "%" pre -> avoids "%" post -> Sprintf (pre +:+ "%s" +:+ post) arg = pre +:+ arg +:+ post.
Proof.
  intros Hpre Hpost. unfold Sprintf. induction pre as [|c pre IH].
  - change (sprintf1 false (String "%" (String "s" post)) arg = arg +:+ post). cbn [sprintf1]. cbn. by rewrite sprintf1_used.
  - change (sprintf1 false (String c (pre +:+ "%s" +:+ post)) arg = String c (pre +:+ arg +:+ post)).
    unfold avoids in Hpre. cbn [bytes] in Hpre. inversion_clear Hpre as [|? ? Hc Hs]. cbn [sprintf1].
    destruct (Ascii.eqb_spec c "%") as [->|_]; [done|]. by rewrite (IH Hs).
Qed.

Lemma bytes_append a b : bytes (a +:+ b) = bytes a ++ bytes b.
Proof. induction a as [|c a IH]; [done|]. change (byteOf c :: bytes (a +:+ b) = (byteOf c :: bytes a) ++ bytes b). by rewrite IH. Qed.

(** A name cannot change a search: whatever it is, the filter has the parentheses, the
    stars and the NULs of the template and no other, in the same order. *)
Theorem filter_not_injectable `{!FilterLaws D} pre post name :
  avoids "%" pre -> avoids "%" post ->
  List.filter special (bytes (Sprintf (pre +:+ "%s" +:+ post) (EscapeFilter name))) =
  List.filter special (bytes (pre +:+ post)).
Proof. intros Hpre Hpost. rewrite Sprintf_one by done. by rewrite !bytes_append, !List.filter_app, escape_plain. Qed.
End Filters.

(** ** A concrete directory *)

(** RFC 4515: the special bytes and the backslash as a backslash and two digits. *)
Definition escapeByte (b : Z) : list Z :=
  if special b || (b =? 92) then 92 :: [byteOf (AuditChain.hexDigit (b / 16)); byteOf (AuditChain.hexDigit (b mod 16))] else [b].
Definition rfc4515 (s : string) : string := ofBytes (flat_map escapeByte (bytes s)).

Definition exDirectory : Directory := {|
  dir_readCA := fun _ _ => None;
  dir_dial := fun _ _ _ => None;
  dir_startTLS := fun _ _ => None;
  dir_bind := fun _ dn password =>
    if (dn =? "cn=svc")%string || (dn =? "cn=alice")%string && (password =? "pw")%string then None else Some InvalidCredentials;
  dir_search := fun _ req =>
    inr (if (SQ_Filter req =? "(uid=alice)")%string then [mkEntry "cn=alice" [("mail", "alice@acme.com")]%string]
         else if (SQ_Filter req =? "(member=cn=alice)")%string then [mkEntry "cn=viewers" [("cn", "viewers")]%string]
         else if (SQ_Filter req =? "(member=cn=viewers)")%string then [mkEntry "cn=admins" [("cn", "admins")]%string; mkEntry "cn=viewers" []]
         else []);
  EscapeFilter := rfc4515;
  EqualFold := String.eqb;
  otherVerb := fun _ t _ => t |}.

Lemma exDirectory_laws : FilterLaws exDirectory.
Proof.
  split. intros s. cbn. unfold rfc4515.
  assert (Hall : forall b, isByte b -> List.filter special (escapeByte b) = [] /\ Forall isByte (escapeByte b)).
  { intros b Hr. unfold escapeByte. destruct (special b || (b =? 92)) eqn:Hs.
    - assert (H92 : b = 40 \/ b = 41 \/ b = 42 \/ b = 0 \/ b = 92)
        by (unfold special in Hs; rewrite !orb_true_iff, !Z.eqb_eq in Hs; tauto).
      destruct H92 as [->|[->|[->|[->| ->]]]]; (split; [reflexivity|]); repeat constructor; vm_compute; congruence || reflexivity.
    - apply orb_false_iff in Hs as (Hs & _). cbn. rewrite Hs. split; [done|]. by constructor. }
  assert (Hb : Forall isByte (flat_map escapeByte (bytes s)) /\ List.filter special (flat_map escapeByte (bytes s)) = []).
  { pose proof (bytes_range s) as Hr. induction Hr as [|b l Hb _ IH]; [done|]. cbn [flat_map]. rewrite List.filter_app.
    destruct (Hall b Hb) as (H1 & H2). destruct IH as (I1 & I2).
    rewrite H1, I2. split; [by apply Forall_app|done]. }
  rewrite bytes_ofBytes by apply Hb. apply Hb.
Qed.

Definition exLDAP : Config :=
  mkLDAPConfig "ldaps://dir" "cn=svc" "s" "ou=users" "(uid=%s)" "ou=groups" "(member=%s)" "cn"
    (parseMappings "viewers=viewer, admins=admin") [] "" true (5 * Minute) "" false false.

(** The second login is served from the cache; the role is that of a parent group. *)
Definition exLogin (before : list (string * string)) (u p : string) : (Answer string * option Connector) * World :=
  let '(c, w) := attempts (E := calmEnv) (D := exDirectory) (C := plainCrypto) (mkConnector exLDAP ∅) before emptyWorld in
  ldapLogin (E := calmEnv) (D := exDirectory) (C := plainCrypto) (Some c) true "k" (Some (u, p)) w.

Example ldap_logins :
  match fst (fst (exLogin [] "alice" "pw")) with Answered 302 _ => True | _ => False end /\
  fst (fst (exLogin [("alice", "pw")]%string "alice" "no")) = Refused 401 "invalid_credentials" /\
  fst (fst (exLogin [] "*" "pw")) = Refused 401 "invalid_credentials" /\
  fst (fst (exLogin [] "alice" "")) = Refused 400 "bad_request" /\
  match fst (fst (handleLDAPTest (E := calmEnv) (D := exDirectory) (C := plainCrypto) (Some (mkConnector exLDAP ∅)) (Some ("alice", "pw")%string) emptyWorld)) with
  | Answered 200 a => a = TestOK "cn=alice" ["cn=viewers"; "cn=admins"]%string "admin" false
  | _ => False
  end.
Proof. vm_compute. done. Qed.


Lemma filter_not_injectable_witness :
  List.filter special (bytes (Sprintf (D := exDirectory) ("(uid=" +:+ "%s" +:+ ")") (EscapeFilter (Directory := exDirectory) "a)(|(uid=*"))) = [40; 41].
Proof.
  rewrite (filter_not_injectable (D := exDirectory) (FilterLaws0 := exDirectory_laws) "(uid=" ")" "a)(|(uid=*");
    [reflexivity|repeat constructor; discriminate..].
Defined.

(** The role a login has found is not part of the session: any other gives the same. *)
Example login_role_ignored (info : LDAPUser) role hasReg secret form w :
  handleLDAPLogin (E := calmEnv) (C := plainCrypto) (Some (fun _ _ => inr (loginInfo info))) hasReg secret form w =
  handleLDAPLogin (E := calmEnv) (C := plainCrypto)
    (Some (fun _ _ => inr (loginInfo (mkLDAPUser (LU_DN info) (LU_Email info) (LU_Groups info) (LU_GroupDNs info) role)))) hasReg secret form w.
Proof. reflexivity. Qed.

(** A colon moves between the name and the password of a cache key. *)
Example cache_key_shared : cacheKey (C := plainCrypto) "alice:a" "b" = cacheKey (C := plainCrypto) "alice" "a:b".
Proof. reflexivity. Qed.
